(* ===== verification/_CoqProject ===== *)
-Q . S2P
Prelude.v
GoStd.v
Text.v
Regexp.v
Float64.v
AppErrors.v
Events.v
Store.v
Sql.v
Wp.v
Outbox.v
Pagination.v
Sha256.v
Idempotency.v
Customers.v
CustomersProps.v
Agents.v
Queues.v
DirectoryProps.v
Interactions.v
InteractionsProps.v
Planes.v
PlanesProps.v
Conversations.v
Cases.v
CasesProps.v
Webhooks.v
Comms.v
CommsProps.v
Simulator.v
Routing.v
RoutingProps.v
Workflows.v
WorkflowsProps.v
TemporalStore.v
MemoryStore.v
TemporalDriver.v
TemporalProps.v
Tools.v
Ai.v
Wire.v
Ami.v
FsFrame.v
FsClient.v
UrlQuery.v
Sha1.v
NetIP.v
Verifiers.v
VerifiersProps.v
WaCloud.v
WaCloudProps.v
CommsRegistry.v
TwilioSms.v
AmiClient.v
Asterisk.v
FreeSwitch.v
TwilioVoice.v
AtVoice.v
TwilioVoiceProps.v
Factory.v
FactoryProps.v
Ussd.v
AtSms.v
RateLimit.v
RateLimitProps.v
Tenancy.v
Identity.v
IdentityProps.v
Realtime.v
Bus.v
RingMap.v
Search.v
SearchProps.v
Analytics.v
ClickHouse.v
AnalyticsProps.v
TemporalClient.v
Processes.v
HttpApi.v
HttpApiProps.v
