(* ===== verification/Prelude.v ===== *)
(** * Orvexa: verification library

    Orvexa (src/) is a multi-tenant contact-centre backend in Go: HTTP and
    webhook entry points, services over one PostgreSQL database, an outbox
    whose dispatcher feeds an event bus, background workers, and a WebSocket
    hub. This library models the services that carry its core logic and proves
    what they promise. The root holds what every file shares: tactics, hint
    databases, list, sorting and option lemmas.

    ** Layers

    Language and standard library
    - GoStd: 64-bit integers with wrap-around, dynamic values ([any],
      [map[string]any]), strings, trimming, decimal text, [%q], calendar years.
      Text: case mapping, runes, and the laws of trimming. Regexp: anchored
      patterns by derivatives. UrlQuery: url.ParseQuery, url.Values, escaping
      and encoding. Wire: the buffered byte stream the wire codecs read.
    - Float64: binary64 by the executable [SpecFloat] of the Standard Library.
    - Sha256: SHA-256 and its hex text, executable.

    Shared packages
    - AppErrors (pkg/errors), Events (pkg/events), Pagination
      (pkg/pagination), Idempotency (pkg/idempotency).

    The database
    - Store: [DB], the tables as finite maps and row lists, and the effect
      monad [M]: an environment gives, by the number of the effect, each fresh
      uuid, each clock reading and the driver error of each database call, so a
      theorem about all environments is about every failure of every call. A
      transaction works on a copy that only a commit publishes.
    - Sql: statements several services share. Wp: [wp], the reasoning
      principle for [M], with one lemma per effect and the tactic [wp_go].

    Services, each over Store (definitions, then theorems, which the larger
    ones have in a [Props] file)
    - Interactions, InteractionsProps (internal/interactions): the lifecycle of
      state.go; Create, Transition (here [TransitionTo]; [Transition] is the
      guard of state.go), Assign, Get, ListByConversation of service.go.
    - Conversations (internal/conversations).
    - Customers, CustomersProps (internal/customers): normalization, the
      service over customers, identifiers and tags.
    - Agents, Queues, DirectoryProps (internal/agents, internal/queues).
    - Cases, CasesProps (internal/cases): lifecycle, Open with its reference
      allocator, Transition, AddNote, LinkInteraction, listings.
    - Routing, RoutingProps (internal/routing): Score and Decide in binary64,
      Route, presence writes, and the presence cache as explicit state.
    - Workflows, WorkflowsProps (internal/workflows/engine.go).
    - TemporalStore, MemoryStore, TemporalDriver, TemporalProps
      (internal/workflows/temporaldriver): both instance stores and the two
      workflow bodies, whose activities run, get lost or are refused attempt by
      attempt ([runtime]). TemporalClient: the driver over the audit port and
      the SDK's client, and the activities.
    - Outbox (internal/platform/outbox): the dispatcher, and
      [Workers], the table under several dispatchers interleaved statement by
      statement with crashes.
    - Webhooks, Verifiers, VerifiersProps (internal/webhooks): authentication,
      the ledger of deliveries, the WhatsApp, Twilio and Africa's Talking
      verifiers (over Sha256, Sha1 and NetIP, library code written out).
    - Comms, CommsProps (internal/comms): provider events into interaction
      moves, and the consumer that drains the ledger.
    - Planes, PlanesProps (internal/telephony, internal/messaging): placing
      calls, applying actions, sending messages over the carrier ports.
    - Simulator (internal/comms/simulator.go): the built-in
      carrier, an instance of both ports that calls back into the gateway.

    Carrier adapters and their formats
    - Ussd and AtSms (internal/messaging/adapters/africastalking): USSD sessions; the SMS send path with its retry loop, the
      send table under concurrent senders (a store of slots shared by
      reference), delivery reports.
    - AtVoice (internal/telephony/adapters/africastalking): the voice port over
      the leg and session tables, the make-call request, the callback exchange.
    - Ami, AmiClient and Asterisk (internal/telephony/adapters/asterisk): the
      packet codec; the session layer as atomic steps of supervisor, reader,
      callers and the bounded event queue; the commands, the leg registry and
      its events.
    - FsFrame, FsClient and FreeSwitch (internal/telephony/adapters/freeswitch):
      the frame reader and writer; the session layer as atomic steps of loop and
      callers; the voice port as command lines, the leg registry, the events
      by critical section and hand-over.
    - WaCloud, WaCloudProps (internal/messaging/adapters/whatsappcloud): sends
      over the bounded retry loop, Graph errors, receipts and the ledger of
      message ids.
    - TwilioSms (internal/messaging/adapters/twilio) and
      TwilioVoice, TwilioVoiceProps (internal/telephony/adapters/twilio): the
      sends and the voice port over the REST API with their retry loops,
      errors and status callbacks.
    - CommsRegistry, Factory, FactoryProps (internal/comms/registry,
      internal/comms/factory): the providers' configuration out of the
      environment, its renderings, and what the factory builds of it.

    Components with state of their own
    - Tools (internal/tools): the gate chain of the tool gateway.
    - Ai (internal/ai): the gateway to a provider with its caps,
      attempts and metering, the rules provider, an agent's turn.
    - RateLimit, RateLimitProps (internal/platform/httpx): the token bucket and
      the Redis window.
    - Tenancy (internal/tenancy), Identity, IdentityProps (internal/identity):
      API keys; roles, bindings, signing keys, token verification, the
      authentication chain and the login state.
    - Realtime (internal/realtime): the WebSocket hub as atomic
      steps of its goroutines, in any interleaving.
    - Bus (internal/platform/bus): the in-process fan-out, the NATS
      subjects, durable names, redelivery delays and handlers, the selection
      from the environment.
    - RingMap, Search, SearchProps (internal/search): the ring map, the client,
      queries and hits, and the indexer as steps of its goroutines.
    - Analytics, ClickHouse, AnalyticsProps (internal/analytics): facts and
      summary over PostgreSQL, and the batched store as steps of its
      producers and its flusher.

    The processes and the entry point
    - Processes (pkg/config, cmd/worker, cmd/realtime): the configuration, the
      worker's bus with its consumers and the audit trail, the messages of
      workflow steps, the realtime process, and all of them over one database.
    - HttpApi (internal/httpserver, the envelopes and middleware of
      internal/platform/httpx, the login endpoints of internal/identity, the
      tool executor, policy and audit of cmd/api): typed bodies, every handler,
      the route tables with their gates, one request through the chain
      ([ServeHTTP]). HttpApiProps: the tables tenant by tenant, what each
      service method leaves alone, and what the gates let through.

    ** Interfaces

    [InteractionCore] and its laws (Comms) are what the event consumer needs of
    the interaction service; the service is the instance. [VoiceProvider] and
    [MessagingProvider] (Planes) are the carrier ports; the simulator,
    and the carrier adapters are instances. [WaPorts], [TwPorts], [VoicePorts]
    and [AtVoicePorts] are what these ask of their libraries and the carrier;
    [EventJSON] (Comms) is the codec of provider events they share. [Redis] and [RedisLaws] (RateLimit) say
    what the limiter relies on of INCR and EXPIRE. [JOSE] (Identity), [UssdPorts] and [AtPorts] are the
    libraries and hooks of their components. [PresenceReader] (Routing),
    [Services] (Workflows) and [Ports] (Tools) are the Go interfaces of the
    same components; their implementations are arguments, but for the tool
    gateway's, which HttpApi builds from the services. [JsonPorts] and
    [ServerPorts] (HttpApi) are the libraries under the handlers; the router is
    an argument of [ServeHTTP]. [QuietCarriers] (HttpApiProps) says that a
    carrier writes to the ledger of deliveries at most; the simulator is an
    instance. JSON is the identity
    on dynamic values, or a pair of parameters where a codec matters. uuid
    validity is a predicate of the environment.

    ** What the theorems show

    - Atomicity: a transition of an interaction or a case, closing a
      conversation, registering a customer, a routing decision and the start of
      a ladder either change nothing or commit everything together, under every
      failure.
    - Invariants over histories: tables stay well formed, tenants are isolated,
      interactions only evolve forward, references and identities are unique.
    - The outbox: under any interleaving of workers and their crashes no row
      leaves the table, a row is published only after its event was handed over
      or when its payload does not decode, and is parked only at the attempt
      limit; [Tick] refines the multi-worker system, and the table drains when
      nothing fails. It is no promise of delivery: a row a lost worker leased
      at its first attempt is stranded.
    - Webhooks and consumer: deliveries are authenticated, have one effect, and
      processing them again changes nothing; poison rows are bounded. A placed
      call becomes active through simulator, gateway and consumer together.
    - The worker: every pending event whose payload decodes reaches the
      consumers exactly once, with either fact sink, in any order of their
      goroutines and of the store's own moves; what a consumer's statement
      refuses is lost.
    - Carriers: a message is handed over at most once; under concurrent senders
      an acceptance that was read is final; retries are bounded; USSD events
      follow the session protocol and retries replay; wire formats round-trip
      and cannot be smuggled into. Replies go to the caller whose request they
      answer, and the events of a switch to the call they are about: Asterisk's
      by the bindings its packets announced, FreeSWITCH's with one end at most
      for a placing and nothing after it but ringings already under way.
    - Deployment: what the environment configures is exactly the selected
      providers' variables, it always builds, renderings hide credentials; the
      WhatsApp sends are bounded and their receipts attributed.
    - The server: a request changes rows of one tenant at most, which its key,
      its token or its signed delivery proves; and the capability each route
      asks for.
    - Access: callers pass a capability gate only with a verified token and an
      active binding; signing keys are the provider's; the login state is
      authentic; the distributed limit bounds all nodes together.
    - Routing assigns the best eligible agent; the availability it uses is
      bounded in age.
    - The Temporal ladders end, whatever their activities' attempts do, and in a
      terminal state when the audit writes get through and no cancellation comes
      during an activity; the in-memory store is a refinement of the PostgreSQL
      one; live audit rows have a workflow.
    - Tool executions pass every gate and keep the rate bound; the hub delivers
      in order, within the tenant, from bounded queues; a slow client loses
      events and stays connected, where the comment on Publish (hub.go) says
      it is dropped.
    - The in-process bus is the list of its live subscriptions, a goroutine per
      event and handler, where the comment on InProc (bus.go) speaks of
      bounded queues that drop. Every fact the
      batched store accepted is stored, shed, lost or still held, and it judges
      events as the PostgreSQL store does. Every event the indexer accepted is
      projected, skipped, dropped or still queued; its ring map is a bounded
      FIFO list.
    - Pagination: following cursors enumerates a listing once.

    Some theorems state defects. [WorkflowsProps.ladders_never_advance]: the
    native engine never commits a step. [Realtime.hub_slots_leak]: every
    connection costs the hub a slot for ever. [WaCloudProps.receipts_attributed]:
    receipts the default registry refuses.
    [TwilioVoiceProps.carriers_refuse_default_sender]: the sender the planes
    fill in is refused by three of the four carrier adapters.
    [FreeSwitch.fs_events_belong]: a transfer's ringing may follow the end of
    its call ([ringing_after_end]). Lemmas show others:
    [status_change_counts_twice] and [transition_erases_last_interaction] (the
    facts and search documents of status changes read keys the events do not
    carry),
    [driver_skips_ownership] (the driver calls other tenants' customers),
    [unbound_caller_places_call] and [open_writes] (a token without any role
    binding writes through the routes that ask for no capability),
    [realtime_hears_nothing] (no WebSocket client is ever sent an event),
    [worker_messages_dropped] (no workflow message is ever queued),
    [redelivery_audited_twice], [nats_falls_back], [huge_settings_wrap],
    [invoke_ignores_path], [undecodable_delivery_processed],
    [malformed_cursor_restarts], [limit_wraps],
    [case_reference_wedged] (the reference allocator can wedge),
    [ai_turn_metered_twice] (usage is published twice),
    [graph_errors_classified] (an error chain that never ends),
    [undecodable_published_unsent] (an event that does not decode is published
    without being sent), [unread_acceptance_taken_twice] (an acceptance that
    cannot be read is posted again), [default_sender_handed_on] (the fourth
    adapter sends the planes' word), [canceled_in_activity_leaves_row] and
    [refused_completion_leaves_row] (workflows that end with a live audit row),
    [slow_client_stays_connected], [full_queue_holds_reader] (a delivery hook
    that hangs holds up the Asterisk reader),
    [coverage_thresholds] (low priorities do need skills),
    [hangup_error_swallowed], [ussd_table_exceeds_cap], [frame_exceeds_limit],
    [expired_key_served], [slash_issuer_refuses], [stash_unbounded],
    [broken_rows_unnoticed], [drivers_share_durables],
    [redact_leaks_second_server], [orphan_row_uncancelable],
    [recorded_step_revives_canceled], [twilio_deployment_never_sends],
    [duplicate_told_sent], [redaction_misses_account],
    [large_retry_after_wraps], [place_call_redials], [large_hint_wraps],
    [whatsapp_deployment_never_sends] (a configured deployment sends nothing),
    [rejected_sessions_never_back_off], [unsolicited_reply_misattributed],
    [second_dial_ends_live_call], [fast_failure_lost],
    [lost_reply_defeats_fallback], [dial_string_sets_variables],
    [interaction_id_breaks_line],
    [hangup_event_lost], [concurrent_calls_both_dial], [early_report_refused],
    [originate_submitted_twice], [second_channel_ends_twice],
    [live_call_forgotten], [destination_escapes_context].

    ** Bounds and fuel

    Loops over rows are structural. Fuel occurs in [walk] of Pagination (a page
    per unit; the number of rows plus one is proved enough), in [dec_digits] of
    GoStd (a unit per digit; twenty cover a 64-bit number), in [trim_with] (the
    length of the text), in [blocks] of Sha256 (a unit per word) and in the
    stream readers of Ami and FsFrame (a unit per byte: every round consumes
    one), in [durable_runes] of Bus (a unit per byte) and in [nak_double] of Bus
    (64 doublings, proved enough). The retry loops of the carrier adapters are structural in the attempts left. Ladders,
    ticks, senders and hub runs are finite sequences chosen by the statement.

    ** Not modelled

    Signals, tickers and listeners of the mains, logging, the connection pool,
    and a server without its database; the matching of paths (chi), the lexing
    of JSON and the OAuth exchange under the handlers; sockets, TLS and timers
    under the carrier connections; the NATS server, ClickHouse, OpenSearch and
    Temporal themselves; the load generator and the adapters' conformance
    suites. *)

From stdpp Require Export base tactics decidable list gmap strings sorting.
From stdpp Require Export relations.
From Stdlib Require Export ZArith Lia.

(** Notations of the development live in a scope of their own. *)
Declare Scope orvexa_scope.
Delimit Scope orvexa_scope with orvexa.

(** ** Tactics *)

(** Split every [match]/[if] scrutinee of the goal, discharging the
    contradictory branches. *)
Ltac split_match :=
  repeat (match goal with
          | |- context [match ?x with _ => _ end] =>
              let E := fresh "E" in destruct x eqn:E
          end; simplify_eq/=).

(** The same in a hypothesis. *)
Ltac split_match_in H :=
  repeat (match type of H with
          | context [match ?x with _ => _ end] =>
              let E := fresh "E" in destruct x eqn:E
          end; simplify_eq/=).

(** ** Hint databases *)

(** [orvexa]: resolution lemmas on lists, options and integers. *)
Create HintDb orvexa discriminated.
#[export] Hint Constants Opaque : orvexa.
(** [orvexa_rw]: rewriting rules. *)
Create Rewrite HintDb orvexa_rw.

(** ** Lists *)

Section lists.
Context {A : Type}.
Implicit Types (l : list A) (n : nat).

Lemma take_drop_mid l n m :
  take n l ++ take m (drop n l) = take (n + m) l.
Proof. by rewrite take_take_drop. Qed.

Lemma length_take_le_iff l n : length (take n l) <= n.
Proof. rewrite length_take. lia. Qed.

Lemma take_S_length l n :
  n < length (take (S n) l) <-> n < length l.
Proof. rewrite length_take. lia. Qed.

Lemma filter_length_le (P : A -> Prop) `{!forall x, Decision (P x)} l :
  length (filter P l) <= length l.
Proof. induction l as [|x l IH]; [done|]. rewrite filter_cons. case_decide; simpl; lia. Qed.
End lists.

#[export] Hint Resolve length_take_le_iff filter_length_le : orvexa.

(** Filtering respects reordering. *)
#[export] Instance List_filter_Permutation {A} (f : A -> bool) :
  Proper (Permutation ==> Permutation) (List.filter f).
Proof.
  intros l l' H. induction H as [|x l l' _ IH|x y l|l1 l2 l3 _ IH1 _ IH2]; simpl; [done|..].
  - destruct (f x); [by constructor|done].
  - destruct (f x), (f y); try done. constructor.
  - by transitivity (List.filter f l2).
Qed.

(** ** Stable sorting by a comparator *)

Section stable_sort.
Context {A : Type} (less : A -> A -> bool).

(** Insert after every element that is not greater. *)
Fixpoint stable_insert (x : A) (l : list A) : list A :=
  match l with
  | [] => [x]
  | y :: l' => if less x y then x :: l else y :: stable_insert x l'
  end.

(** [sort.SliceStable(l, less)] *)
Definition stable_sort (l : list A) : list A :=
  fold_left (fun acc x => stable_insert x acc) l [].

Lemma stable_insert_Permutation x l : Permutation (stable_insert x l) (x :: l).
Proof.
  induction l as [|y l IH]; simpl; [done|]. destruct (less x y); [done|].
  rewrite IH. apply Permutation_swap.
Qed.

Lemma stable_sort_Permutation l : Permutation (stable_sort l) l.
Proof.
  unfold stable_sort. cut (forall acc, Permutation (fold_left (fun acc x => stable_insert x acc) l acc) (acc ++ l)).
  { intros H. by rewrite (H []). }
  induction l as [|x l IH]; intros acc; simpl; [by rewrite app_nil_r|].
  rewrite IH, stable_insert_Permutation. apply Permutation_middle.
Qed.

(** The order the comparator induces: nothing later is less. *)
Definition not_less (x y : A) : Prop := less y x = false.

Context (less_trans : forall x y z, not_less x y -> not_less y z -> not_less x z).
Context (less_asym : forall x y, less x y = true -> less y x = false).

Lemma stable_insert_Sorted x l :
  StronglySorted not_less l -> StronglySorted not_less (stable_insert x l).
Proof.
  induction l as [|y l IH]; intros H; simpl.
  - repeat constructor.
  - inv H. destruct (less x y) eqn:E.
    + assert (not_less x y) as Hxy by (by apply less_asym).
      constructor; [by constructor|]. constructor; [done|].
      eapply Forall_impl; [done|]. intros z Hz. by eapply less_trans.
    + constructor; [auto|]. rewrite stable_insert_Permutation. by constructor.
Qed.

Lemma stable_sort_Sorted l : StronglySorted not_less (stable_sort l).
Proof.
  unfold stable_sort. cut (forall acc, StronglySorted not_less acc ->
    StronglySorted not_less (fold_left (fun acc x => stable_insert x acc) l acc)).
  { intros H. apply H. constructor. }
  induction l as [|x l IH]; intros acc H; simpl; [done|]. apply IH. by apply stable_insert_Sorted.
Qed.
End stable_sort.

(** Only the comparator's values on the elements matter. *)
Lemma stable_sort_ext {A} (P : A -> Prop) (f g : A -> A -> bool) l :
  (forall x y, P x -> P y -> f x y = g x y) -> Forall P l -> stable_sort f l = stable_sort g l.
Proof.
  intros Hfg Hl. unfold stable_sort.
  assert (forall x acc, P x -> Forall P acc -> stable_insert f x acc = stable_insert g x acc) as Hi.
  { intros x acc Hx. induction 1 as [|y acc Hy _ IH]; simpl; [done|]. by rewrite Hfg, IH. }
  generalize (Forall_nil_2 P). generalize (@nil A). induction Hl as [|x l Hx Hl IH]; intros acc Ha; simpl.
  - done.
  - rewrite Hi by done. apply IH. rewrite <- Hi by done. rewrite stable_insert_Permutation.
    by constructor.
Qed.

(** The first match in a sorted list precedes every other match. *)
Lemma find_sorted {A} (R : A -> A -> Prop) (f : A -> bool) l x :
  StronglySorted R l -> List.find f l = Some x ->
  x ∈ l /\ f x = true /\ forall y, y ∈ l -> f y = true -> y = x \/ R x y.
Proof.
  induction 1 as [|y l Hs IH Hy]; simpl; [done|]. destruct (f y) eqn:E.
  - intros [= ->]. split; [apply elem_of_cons; by left|]. split; [done|].
    intros z [->|Hz]%elem_of_cons _; [by left|]. right. by eapply Forall_forall in Hz.
  - intros (H1 & H2 & H3)%IH. split; [apply elem_of_cons; by right|]. split; [done|].
    intros z [->|Hz]%elem_of_cons Hf; [congruence|]. by apply H3.
Qed.

Lemma find_none_elem {A} (f : A -> bool) l x : List.find f l = None -> x ∈ l -> f x = false.
Proof. intros H Hx%list_elem_of_In. by eapply find_none. Qed.

(** ** Request logs

    What an operation appends to a log of its doings: only [ok] entries, at
    most [n] of them requests, and one at least when [must] holds. *)

Section request_logs.
Context {A : Type} (ok : A -> Prop) (req : A -> bool).
Implicit Types (l log : list A) (n : nat).

Definition requests l : nat := length (List.filter req l).

Definition adds n (must : Prop) log log' : Prop :=
  exists l, log' = log ++ l /\ Forall ok l /\ requests l <= n /\ (must -> 1 <= requests l).

Lemma requests_app l l' : requests (l ++ l') = requests l + requests l'.
Proof. unfold requests. by rewrite List.filter_app, length_app. Qed.

Lemma adds_nothing n (must : Prop) log : ~ must -> adds n must log log.
Proof. intros Hm. exists []. rewrite app_nil_r.
  split; [done|]. split; [constructor|]. split; [apply Nat.le_0_l|intros H; by destruct Hm]. Qed.

Lemma adds_request n (must must' : Prop) log x log' :
  ok x -> req x = true -> adds n must' (log ++ [x]) log' -> adds (S n) must log log'.
Proof.
  intros Hok Hx (l & -> & Hl & Hn & _). exists (x :: l). rewrite <- app_assoc. split; [done|].
  change (x :: l) with ([x] ++ l). rewrite requests_app. unfold requests at 1 3. simpl. rewrite Hx. simpl.
  split_and!; [by constructor|lia|lia].
Qed.

Lemma adds_others n (must : Prop) log k log' :
  Forall ok k -> requests k = 0 -> adds n must (log ++ k) log' -> adds n must log log'.
Proof.
  intros Hok Hk (l & -> & Hl & Hn & Hm). exists (k ++ l). rewrite <- app_assoc, requests_app, Hk.
  split_and!; [done|by apply Forall_app_2|done|done].
Qed.

Lemma adds_last n (must : Prop) log x : ok x -> req x = true -> adds (S n) must log (log ++ [x]).
Proof. intros Hok Hx. apply (adds_request _ _ False _ _ _ Hok Hx), adds_nothing. tauto. Qed.
End request_logs.

#[export] Hint Resolve adds_nothing adds_last : orvexa.

(** ** Options *)

(** The first success of two lookups. *)
Definition option_or {A} (x y : option A) : option A :=
  match x with Some _ => x | None => y end.

Lemma option_or_None_r {A} (x : option A) : option_or x None = x.
Proof. by destruct x. Qed.

#[export] Hint Rewrite @option_or_None_r : orvexa_rw.

(** ** Booleans *)

Lemma bool_decide_b2f (P : Prop) `{Decision P} : bool_decide P = true <-> P.
Proof. by rewrite bool_decide_eq_true. Qed.
