(* ===== verification/GoStd.v ===== *)
(** * The part of Go and of its standard library the source uses

    Strings are byte sequences ([string] of [ascii]); [int] is a 64-bit
    two's complement integer kept as [Z] with its wrap-around written out;
    instants and durations are nanoseconds in [Z]. [any] is the dynamic value
    an event payload ([map[string]any]) holds. *)

From Stdlib Require Import String Ascii.
From S2P Require Import Prelude.

Local Open Scope Z_scope.

(** ** Machine integers *)

Definition int64_min : Z := - 2 ^ 63.
Definition int64_max : Z := 2 ^ 63 - 1.

Definition in_int64 (z : Z) : Prop := int64_min <= z <= int64_max.

#[export] Instance in_int64_dec z : Decision (in_int64 z).
Proof. unfold in_int64. apply _. Defined.

(** Two's complement wrap-around of [int] arithmetic. *)
Definition wrap64 (z : Z) : Z := (z + 2 ^ 63) mod 2 ^ 64 - 2 ^ 63.

Lemma wrap64_id z : in_int64 z -> wrap64 z = z.
Proof.
  unfold in_int64, int64_min, int64_max, wrap64. intros H.
  rewrite Z.mod_small; lia.
Qed.

Lemma wrap64_range z : in_int64 (wrap64 z).
Proof.
  unfold in_int64, int64_min, int64_max, wrap64.
  pose proof (Z.mod_pos_bound (z + 2 ^ 63) (2 ^ 64)). lia.
Qed.

#[export] Hint Resolve wrap64_range : orvexa.

(** ** Dynamic values: [any] *)

Inductive any :=
| VNull
| VBool (b : bool)
| VInt (z : Z)
| VStr (s : string)
| VTime (t : Z)
| VList (l : list any)
| VMap (m : list (string * any)).

(** [map[string]any] *)
Definition dict := list (string * any).

(** Map lookup [m[k]]. *)
Fixpoint dict_get (m : dict) (k : string) : option any :=
  match m with
  | [] => None
  | (k', v) :: m' => if String.eqb k k' then Some v else dict_get m' k
  end.

(** The type assertion [v, _ := m[k].(string)]: the zero value when the key is
    absent or holds another type. *)
Definition dict_str (m : dict) (k : string) : string :=
  match dict_get m k with Some (VStr s) => s | _ => EmptyString end.

(** ** Strings *)

Definition is_empty (s : string) : bool := String.eqb s EmptyString.

(** The idioms for a setting that falls back: [if s is empty { s = d }], and [if n <= 0 { n = d }]. *)
Definition or_default (s d : string) : string := if is_empty s then d else s.
Definition positive_or (n d : Z) : Z := if n <=? 0 then d else n.

(** Units of [time.Duration]. *)
Definition Millisecond : Z := 1000000.
Definition Second : Z := 1000 * Millisecond.

Lemma is_empty_true s : is_empty s = true <-> s = EmptyString.
Proof. apply String.eqb_eq. Qed.

Lemma is_empty_false s : is_empty s = false <-> s <> EmptyString.
Proof. apply String.eqb_neq. Qed.

(** [strings.HasPrefix] *)
Fixpoint has_prefix (s p : string) : bool :=
  match p, s with
  | EmptyString, _ => true
  | String b p', String a s' => Ascii.eqb a b && has_prefix s' p'
  | String _ _, EmptyString => false
  end.

(** The bytes after the first [n]. *)
Fixpoint sdrop (n : nat) (s : string) : string :=
  match n, s with
  | O, _ => s
  | S n', String _ s' => sdrop n' s'
  | S _, EmptyString => EmptyString
  end.

(** The first [n] bytes. *)
Fixpoint stake (n : nat) (s : string) : string :=
  match n, s with
  | O, _ => EmptyString
  | S n', String a s' => String a (stake n' s')
  | S _, EmptyString => EmptyString
  end.

(** [strings.TrimPrefix] *)
Definition trim_prefix (s p : string) : string :=
  if has_prefix s p then sdrop (String.length p) s else s.

(** [strings.SplitN(s, sep, 2)] for a one-byte separator: the part before the
    first separator and, when there is one, the part after it. *)
Fixpoint cut (s : string) (sep : ascii) : string * option string :=
  match s with
  | EmptyString => (EmptyString, None)
  | String a s' =>
      if Ascii.eqb a sep then (EmptyString, Some s')
      else let '(h, t) := cut s' sep in (String a h, t)
  end.

(** Does the byte occur? *)
Fixpoint has_byte (s : string) (c : ascii) : bool :=
  match s with
  | EmptyString => false
  | String a s' => Ascii.eqb a c || has_byte s' c
  end.

Lemma cut_app h sep t :
  has_byte h sep = false ->
  cut (h ++ String sep t) sep = (h, Some t).
Proof.
  induction h as [|a h IH]; simpl.
  - by rewrite Ascii.eqb_refl.
  - rewrite orb_false_iff. intros [-> H]. by rewrite (IH H).
Qed.

(** [fmt "%q"]: a double-quoted Go literal; bytes from 128 on are taken to
    belong to printable UTF-8 text and stay as they are. *)
Definition hex_nibble (v : N) : ascii :=
  if (v <? 10)%N then ascii_of_N (48 + v) else ascii_of_N (87 + v).

Definition quote_char (a : ascii) (rest : string) : string :=
  let esc c := String "092"%char (String c rest) in
  let n := N_of_ascii a in
  match n with
  | 34%N => esc "034"%char
  | 92%N => esc "092"%char
  | 7%N => esc "a"%char
  | 8%N => esc "b"%char
  | 9%N => esc "t"%char
  | 10%N => esc "n"%char
  | 11%N => esc "v"%char
  | 12%N => esc "f"%char
  | 13%N => esc "r"%char
  | _ =>
      if (n <? 32)%N || (n =? 127)%N then
        String "092"%char (String "x"%char (String (hex_nibble (n / 16))
          (String (hex_nibble (n mod 16)) rest)))
      else String a rest
  end.

Fixpoint quote_body (s : string) : string :=
  match s with
  | EmptyString => String "034"%char EmptyString
  | String a s' => quote_char a (quote_body s')
  end.

Definition quote (s : string) : string := String "034"%char (quote_body s).

(** All bytes satisfy the predicate. *)
Fixpoint sforallb (f : ascii -> bool) (s : string) : bool :=
  match s with
  | EmptyString => true
  | String a s' => f a && sforallb f s'
  end.

Lemma sforallb_app f s t : sforallb f (s ++ t) = sforallb f s && sforallb f t.
Proof. induction s as [|a s IH]; simpl; [done|]. by rewrite IH, andb_assoc. Qed.

Lemma sforallb_impl (f g : ascii -> bool) s :
  (forall a, f a = true -> g a = true) -> sforallb f s = true -> sforallb g s = true.
Proof.
  intros H. induction s as [|a s IH]; cbn [sforallb]; [done|]. rewrite !andb_true_iff. naive_solver.
Qed.

Lemma sapp_inj_l a b c : (a +:+ b = a +:+ c)%string -> b = c.
Proof. apply (inj (String.append a)). Qed.

Lemma sapp_assoc a b c : ((a +:+ b) +:+ c = a +:+ (b +:+ c))%string.
Proof. induction a as [|x a IH]; [done|]. exact (f_equal (String x) IH). Qed.

Lemma sapp_nil_r a : (a +:+ EmptyString = a)%string.
Proof. induction a as [|x a IH]; [done|]. exact (f_equal (String x) IH). Qed.

Lemma has_byte_app a b c : has_byte (a +:+ b) c = has_byte a c || has_byte b c.
Proof. induction a as [|x a IH]; [done|]. cbn [String.append has_byte]. rewrite <- orb_assoc. by rewrite <- IH. Qed.

Lemma length_sapp s t : String.length (s ++ t) = (String.length s + String.length t)%nat.
Proof. induction s as [|a s IH]; simpl; [done|]. by rewrite IH. Qed.

(** ** White space: [strings.TrimSpace]

    [unicode.IsSpace] on the UTF-8 encoding: the ASCII spaces, U+0085, U+00A0,
    U+1680, U+2000..U+200A, U+2028, U+2029, U+202F, U+205F and U+3000. *)

Definition code (a : ascii) : Z := Z.of_N (N_of_ascii a).

Lemma code_range a : (0 <= code a < 256)%Z.
Proof. unfold code. pose proof (N_ascii_bounded a). lia. Qed.

Definition ascii_space (a : ascii) : bool :=
  let c := code a in ((9 <=? c) && (c <=? 13)) || (c =? 32).

(** Is [b1 b2] the encoding of a white space rune? *)
Definition space2 (b1 b2 : ascii) : bool :=
  (code b1 =? 194) && ((code b2 =? 133) || (code b2 =? 160)).

(** Is [b1 b2 b3] the encoding of a white space rune? *)
Definition space3 (b1 b2 b3 : ascii) : bool :=
  let c1 := code b1 in let c2 := code b2 in let c3 := code b3 in
  ((c1 =? 225) && (c2 =? 154) && (c3 =? 128))
  || ((c1 =? 226) && (c2 =? 128)
      && (((128 <=? c3) && (c3 <=? 138)) || (c3 =? 168) || (c3 =? 169) || (c3 =? 175)))
  || ((c1 =? 226) && (c2 =? 129) && (c3 =? 159))
  || ((c1 =? 227) && (c2 =? 128) && (c3 =? 128)).

(** [strings.ToLower] on ASCII letters; other bytes are kept. *)
Definition lower (a : ascii) : ascii :=
  let c := code a in
  if (65 <=? c) && (c <=? 90) then ascii_of_N (Z.to_N (c + 32)) else a.

Fixpoint to_lower (s : string) : string :=
  match s with EmptyString => EmptyString | String a s' => String (lower a) (to_lower s') end.

(** [strings.EqualFold] against ASCII text: the letter cases, and the two
    further runes whose simple folding is an ASCII letter (U+017F folds to s,
    U+212A to k). *)
Fixpoint fold_case (s : string) : string :=
  match s with
  | String a (String b ((String c s'') as s') as s1) =>
      if (code a =? 197) && (code b =? 191) then String "s"%char (fold_case s')
      else if (code a =? 226) && (code b =? 132) && (code c =? 170) then
        String "k"%char (fold_case s'')
      else String (lower a) (fold_case s1)
  | String a (String b EmptyString as s1) =>
      if (code a =? 197) && (code b =? 191) then String "s"%char EmptyString
      else String (lower a) (fold_case s1)
  | String a EmptyString => String (lower a) EmptyString
  | EmptyString => EmptyString
  end.

Definition equal_fold (s ascii_text : string) : bool :=
  String.eqb (fold_case s) (to_lower ascii_text).

(** Byte length of the white space rune the string starts with, 0 if none. *)
Definition lead_space (l : list ascii) : nat :=
  match l with
  | a :: l1 =>
      if ascii_space a then 1%nat else
      match l1 with
      | b :: l2 =>
          if space2 a b then 2%nat else
          match l2 with
          | c :: _ => if space3 a b c then 3%nat else 0%nat
          | [] => 0%nat
          end
      | [] => 0%nat
      end
  | [] => 0%nat
  end.

(** The same for the end of the string, given reversed. *)
Definition trail_space (l : list ascii) : nat :=
  match l with
  | c :: l1 =>
      if ascii_space c then 1%nat else
      match l1 with
      | b :: l2 =>
          if space2 b c then 2%nat else
          match l2 with
          | a :: _ => if space3 a b c then 3%nat else 0%nat
          | [] => 0%nat
          end
      | [] => 0%nat
      end
  | [] => 0%nat
  end.

Fixpoint trim_with (f : list ascii -> nat) (fuel : nat) (l : list ascii) : list ascii :=
  match fuel with
  | O => l
  | S n => match f l with O => l | S k => trim_with f n (drop (S k) l) end
  end.

(** [strings.TrimSpace] *)
Definition trim_space (s : string) : string :=
  let l := list_ascii_of_string s in
  let l1 := trim_with lead_space (length l) l in
  let l2 := trim_with trail_space (length l1) (rev l1) in
  string_of_list_ascii (rev l2).

Example trim_space_ex : trim_space "  a b	 " = "a b"%string.
Proof. vm_compute. reflexivity. Qed.

(** ** Decimal rendering and parsing: [fmt "%d"], [strconv.Itoa], [strconv.Atoi] *)

Definition digit (d : Z) : ascii := ascii_of_N (Z.to_N (48 + d)).

Definition digit_val (a : ascii) : option Z :=
  let c := code a in if (48 <=? c) && (c <=? 57) then Some (c - 48) else None.

Fixpoint dec_digits (fuel : nat) (n : Z) (acc : string) : string :=
  match fuel with
  | O => acc
  | S f =>
      let acc' := String (digit (n mod 10)) acc in
      if n <? 10 then acc' else dec_digits f (n / 10) acc'
  end.

(** 20 digits cover every 64-bit magnitude. *)
Definition itoa (n : Z) : string :=
  if n <? 0 then String "-"%char (dec_digits 20 (- n) EmptyString)
  else dec_digits 20 n EmptyString.

Fixpoint parse_digits (acc : Z) (s : string) : option Z :=
  match s with
  | EmptyString => Some acc
  | String a s' =>
      match digit_val a with
      | Some d => parse_digits (acc * 10 + d) s'
      | None => None
      end
  end.

(** [strconv.Atoi]: optional sign, at least one digit, nothing else, within
    the range of a 64-bit [int]. *)
Definition atoi (s : string) : option Z :=
  let '(neg, body) :=
    match s with
    | String a s' =>
        if Ascii.eqb a "-"%char then (true, s')
        else if Ascii.eqb a "+"%char then (false, s')
        else (false, s)
    | EmptyString => (false, EmptyString)
    end in
  if is_empty body then None else
  match parse_digits 0 body with
  | Some v =>
      let z := if neg : bool then - v else v in
      if bool_decide (in_int64 z) then Some z else None
  | None => None
  end.

Lemma code_digit d : 0 <= d < 10 -> code (digit d) = 48 + d.
Proof.
  intros H. unfold code, digit.
  rewrite N_ascii_embedding by lia. rewrite Z2N.id; lia.
Qed.

Lemma digit_val_digit d : 0 <= d < 10 -> digit_val (digit d) = Some d.
Proof.
  intros H. unfold digit_val. rewrite code_digit by done.
  assert ((48 <=? 48 + d) && (48 + d <=? 57) = true) as ->
    by (rewrite andb_true_iff, !Z.leb_le; lia).
  f_equal. lia.
Qed.

Lemma parse_dec_digits fuel n acc :
  0 <= n < 10 ^ Z.of_nat fuel ->
  parse_digits 0 (dec_digits fuel n acc) = parse_digits n acc.
Proof.
  revert n acc. induction fuel as [|f IH]; intros n acc H.
  - simpl. f_equal. change (10 ^ Z.of_nat 0) with 1 in H. lia.
  - simpl. pose proof (Z.mod_pos_bound n 10 ltac:(lia)) as Hm.
    destruct (n <? 10) eqn:E.
    + apply Z.ltb_lt in E. rewrite Z.mod_small by lia.
      cbn [parse_digits]. rewrite digit_val_digit by lia. by rewrite Z.mul_0_l, Z.add_0_l.
    + apply Z.ltb_ge in E. rewrite IH.
      * cbn [parse_digits]. rewrite digit_val_digit by done.
        f_equal. pose proof (Z.div_mod n 10). lia.
      * split; [apply Z.div_pos; lia|].
        apply Z.div_lt_upper_bound; [lia|].
        rewrite <- Z.pow_succ_r by lia. rewrite <- Nat2Z.inj_succ. lia.
Qed.

Lemma dec_digits_cons fuel n acc :
  fuel <> O -> 0 <= n -> exists d r, 0 <= d < 10 /\ dec_digits fuel n acc = String (digit d) r.
Proof.
  revert n acc. induction fuel as [|f IH]; [done|]. intros n acc _ Hn. simpl.
  pose proof (Z.mod_pos_bound n 10 ltac:(lia)).
  destruct (n <? 10) eqn:E; [eauto|].
  apply Z.ltb_ge in E. destruct f as [|f']; [simpl; eauto|].
  apply IH; [done|]. apply Z.div_pos; lia.
Qed.

Lemma digit_neq d c :
  0 <= d < 10 -> (code c < 48 \/ 57 < code c) -> Ascii.eqb (digit d) c = false.
Proof.
  intros Hd Hc. apply Ascii.eqb_neq. intros <-. rewrite code_digit in Hc by done. lia.
Qed.

Lemma itoa_atoi n : 0 <= n <= int64_max -> atoi (itoa n) = Some n.
Proof.
  intros H. unfold itoa, atoi.
  assert ((n <? 0) = false) as -> by (apply Z.ltb_ge; lia).
  destruct (dec_digits_cons 20 n EmptyString) as (d & r & Hd & E); [done|lia|].
  rewrite E, !digit_neq by (done || (vm_compute; auto)).
  assert (parse_digits 0 (String (digit d) r) = Some n) as ->.
  { rewrite <- E, parse_dec_digits; [done|]. unfold int64_max in H. change (Z.of_nat 20) with 20. lia. }
  simpl. rewrite bool_decide_true; [done|]. unfold in_int64, int64_min, int64_max in *. lia.
Qed.

Lemma dec_digits_all (f : ascii -> bool) fuel n acc :
  (forall d, 0 <= d < 10 -> f (digit d) = true) ->
  0 <= n -> sforallb f acc = true -> sforallb f (dec_digits fuel n acc) = true.
Proof.
  intros Hf. revert n acc. induction fuel as [|k IH]; [done|]. intros n acc Hn Hacc.
  simpl. pose proof (Z.mod_pos_bound n 10 ltac:(lia)).
  destruct (n <? 10); [simpl; rewrite Hf; auto|].
  apply IH; [apply Z.div_pos; lia|]. simpl. rewrite Hf; auto.
Qed.

Lemma itoa_all (f : ascii -> bool) n :
  (forall d, 0 <= d < 10 -> f (digit d) = true) -> 0 <= n ->
  sforallb f (itoa n) = true.
Proof.
  intros Hf Hn. unfold itoa. assert ((n <? 0) = false) as -> by (apply Z.ltb_ge; lia).
  by apply dec_digits_all.
Qed.

Lemma sforallb_not_has_byte s c :
  sforallb (fun a => negb (Ascii.eqb a c)) s = true -> has_byte s c = false.
Proof.
  induction s as [|a s IH]; simpl; [done|].
  rewrite andb_true_iff, negb_true_iff. intros [-> H]. by apply IH.
Qed.

Lemma itoa_no_byte n c :
  0 <= n -> (code c < 48 \/ 57 < code c) -> has_byte (itoa n) c = false.
Proof.
  intros Hn Hc. apply sforallb_not_has_byte, itoa_all; [|done].
  intros d Hd. by rewrite digit_neq.
Qed.

(** ** [trim_space] leaves plain ASCII text without spaces alone *)

Definition plain (a : ascii) : bool := negb (ascii_space a) && (code a <? 128).

Lemma plain_lead a l : plain a = true -> lead_space (a :: l) = 0%nat.
Proof.
  unfold plain. rewrite andb_true_iff, negb_true_iff, Z.ltb_lt. intros [H1 H2].
  unfold lead_space. rewrite H1. destruct l as [|b [|c l]]; [done|..].
  - unfold space2. by replace (code a =? 194) with false by lia.
  - unfold space2, space3. replace (code a =? 194) with false by lia.
    replace (code a =? 225) with false by lia. replace (code a =? 226) with false by lia.
    by replace (code a =? 227) with false by lia.
Qed.

Lemma plain_trail c l : plain c = true -> trail_space (c :: l) = 0%nat.
Proof.
  unfold plain. rewrite andb_true_iff, negb_true_iff, Z.ltb_lt. intros [H1 H2].
  unfold trail_space. rewrite H1. destruct l as [|b [|a l]]; [done|..]; unfold space2, space3.
  - replace (code c =? 133) with false by lia. replace (code c =? 160) with false by lia.
    by rewrite andb_false_r.
  - replace (code c =? 133) with false by lia. replace (code c =? 160) with false by lia.
    replace (128 <=? code c) with false by lia. replace (code c =? 168) with false by lia.
    replace (code c =? 169) with false by lia. replace (code c =? 175) with false by lia.
    replace (code c =? 159) with false by lia. replace (code c =? 128) with false by lia.
    by rewrite !andb_false_r.
Qed.

Lemma trim_with_stop f n l : f l = 0%nat -> trim_with f n l = l.
Proof. intros H. destruct n; simpl; [done|]. by rewrite H. Qed.

Lemma trim_space_plain s : sforallb plain s = true -> trim_space s = s.
Proof.
  intros Hs. unfold trim_space.
  assert (Forall (fun a => plain a = true) (list_ascii_of_string s)) as HF.
  { induction s as [|a s IH]; simpl in *; [done|]. apply andb_true_iff in Hs as [? ?]. auto. }
  rewrite (trim_with_stop lead_space).
  2: { destruct (list_ascii_of_string s); [done|]. inv HF. by apply plain_lead. }
  rewrite (trim_with_stop trail_space).
  - by rewrite rev_involutive, string_of_list_ascii_of_string.
  - apply Forall_rev in HF.
    destruct (rev (list_ascii_of_string s)); [done|]. inv HF. by apply plain_trail.
Qed.

(** ** Calendar: [time.Time.Year()] in UTC *)

Definition nanos_per_day : Z := 86400 * 1000000000.

(** The proleptic Gregorian year of a day number counted from 1970-01-01, by
    400-year eras that begin on March 1st. *)
Definition year_of_day (day : Z) : Z :=
  let z := day + 719468 in
  let era := z / 146097 in
  let doe := z - era * 146097 in
  let yoe := (doe - doe / 1460 + doe / 36524 - doe / 146096) / 365 in
  let doy := doe - (365 * yoe + yoe / 4 - yoe / 100) in
  let mp := (5 * doy + 2) / 153 in
  yoe + era * 400 + (if mp <? 10 then 0 else 1).

Definition Year (t : Z) : Z := year_of_day (t / nanos_per_day).

(** The day number of January 1st of a year. *)
Definition jan1 (y : Z) : Z :=
  365 * (y - 1970) + ((y - 1) / 4 - 492) - ((y - 1) / 100 - 19) + ((y - 1) / 400 - 4).

(** The first and the last day of every year of four centuries around the
    epoch. *)
Lemma year_of_day_spec :
  forallb (fun k => let y := 1800 + Z.of_nat k in
     (year_of_day (jan1 y) =? y) && (year_of_day (jan1 (y + 1) - 1) =? y)) (seq 0 400) = true.
Proof. vm_compute. reflexivity. Qed.

(** [fmt "%04d"] of a non-negative number. *)
Fixpoint zeros (n : nat) : string :=
  match n with O => EmptyString | S n' => String "0"%char (zeros n') end.

Definition pad4 (n : Z) : string :=
  let s := itoa n in zeros (4 - String.length s) ++ s.

(** ** More on decimal texts *)

Lemma parse_digits_zeros k s : parse_digits 0 (zeros k ++ s) = parse_digits 0 s.
Proof. induction k as [|k IH]; [done|]. simpl. apply IH. Qed.

Lemma parse_digits_itoa n : 0 <= n <= int64_max -> parse_digits 0 (itoa n) = Some n.
Proof.
  intros H. unfold itoa. rewrite (proj2 (Z.ltb_ge n 0)) by lia.
  rewrite (parse_dec_digits 20) by (unfold int64_max in *; simpl; lia). done.
Qed.

Lemma parse_digits_pad4 n : 0 <= n <= int64_max -> parse_digits 0 (pad4 n) = Some n.
Proof. intros H. unfold pad4. rewrite parse_digits_zeros. by apply parse_digits_itoa. Qed.

Lemma pad4_inj n m :
  0 <= n <= int64_max -> 0 <= m <= int64_max -> pad4 n = pad4 m -> n = m.
Proof.
  intros Hn Hm H. apply (f_equal (parse_digits 0)) in H.
  rewrite !parse_digits_pad4 in H by done. by injection H.
Qed.

Lemma itoa_inj n m : 0 <= n <= int64_max -> 0 <= m <= int64_max -> itoa n = itoa m -> n = m.
Proof.
  intros Hn Hm H. assert (Some n = Some m) as [=]; [|done].
  rewrite <- (itoa_atoi n), <- (itoa_atoi m) by done. by rewrite H.
Qed.

Lemma has_prefix_spec s p : has_prefix s p = true <-> exists t, s = (p ++ t)%string.
Proof.
  revert s. induction p as [|b p IH]; intros [|a s]; simpl; [by split; eauto..| |].
  - split; [done|]. by intros [t ?].
  - rewrite andb_true_iff, Ascii.eqb_eq, IH. split.
    + intros [-> [t ->]]. by exists t.
    + intros [t [= -> ->]]. eauto.
Qed.

(** ** The byte order of strings *)

Definition string_le (a b : string) : Prop := String.leb a b = true.

#[export] Instance string_le_dec a b : Decision (string_le a b).
Proof. unfold string_le. apply _. Defined.

Lemma string_ltb_false a b : String.ltb a b = false <-> string_le b a.
Proof.
  unfold string_le, String.ltb, String.leb. rewrite (String.compare_antisym a b).
  by destruct (String.compare b a).
Qed.

Lemma string_le_trans a b c : string_le a b -> string_le b c -> string_le a c.
Proof.
  intros H1 H2. apply Is_true_true. apply (transitivity (R := String.le) (y := b));
    by apply Is_true_true.
Qed.

Lemma string_ltb_asym a b : String.ltb a b = true -> String.ltb b a = false.
Proof.
  unfold String.ltb. rewrite (String.compare_antisym a b). by destruct (String.compare b a).
Qed.
