(* ===== verification/Text.v ===== *)
(** * Texts: trimming, case, runes

    What the identifier and message checks use of packages strings and
    unicode/utf8: [ToLower] over a parameter for the Unicode case tables,
    [ReplaceAll] of one byte, [RuneCountInString], and the laws of
    [TrimSpace] (idempotent, and it commutes with lowering ASCII). *)

From Stdlib Require Import String Ascii.
From S2P Require Import Prelude GoStd.

(** ** [strings.ReplaceAll(s, " ", "")] *)

Fixpoint sfilter (f : ascii -> bool) (s : string) : string :=
  match s with
  | EmptyString => EmptyString
  | String a s' => if f a then String a (sfilter f s') else sfilter f s'
  end.

Definition remove_byte (c : ascii) (s : string) : string :=
  sfilter (fun a => negb (Ascii.eqb a c)) s.

Lemma remove_byte_absent c s : has_byte s c = false -> remove_byte c s = s.
Proof.
  unfold remove_byte. induction s as [|a s IH]; cbn [has_byte sfilter]; [done|].
  rewrite orb_false_iff. intros [-> H]. cbn [negb]. by rewrite IH.
Qed.

Lemma remove_byte_gone c s : has_byte (remove_byte c s) c = false.
Proof.
  unfold remove_byte. induction s as [|a s IH]; cbn [sfilter]; [done|].
  destruct (Ascii.eqb a c) eqn:E; cbn [negb]; [done|]. cbn [has_byte]. by rewrite E.
Qed.

(** ** [strings.ToLower] *)

Definition is_ascii (s : string) : bool := sforallb (fun a => code a <? 128)%Z s.

(** The Unicode case tables: [strings.Map(unicode.ToLower, s)]. *)
Class Unicode := { unicode_ToLower : string -> string }.

Definition ToLower `{Unicode} (s : string) : string :=
  if is_ascii s then to_lower s else unicode_ToLower s.

Lemma code_of_Z z : (0 <= z < 256)%Z -> code (ascii_of_N (Z.to_N z)) = z.
Proof. intros H. unfold code. rewrite N_ascii_embedding by lia. lia. Qed.

Lemma lower_code a :
  code (lower a) = if ((65 <=? code a) && (code a <=? 90))%Z then (code a + 32)%Z else code a.
Proof.
  unfold lower. destruct (_ && _) eqn:E; [|done]. apply andb_true_iff in E as [?%Z.leb_le ?%Z.leb_le].
  rewrite code_of_Z; lia.
Qed.

Lemma lower_idem a : lower (lower a) = lower a.
Proof.
  unfold lower at 1. rewrite lower_code.
  destruct ((65 <=? code a) && (code a <=? 90))%Z eqn:E; [|by rewrite E].
  apply andb_true_iff in E as [?%Z.leb_le ?%Z.leb_le].
  by rewrite (proj2 (Z.leb_gt (code a + 32) 90)), andb_false_r by lia.
Qed.

Lemma to_lower_idem s : to_lower (to_lower s) = to_lower s.
Proof. induction s as [|a s IH]; cbn [to_lower]; [done|]. by rewrite lower_idem, IH. Qed.

Lemma to_lower_ascii s : is_ascii s = true -> is_ascii (to_lower s) = true.
Proof.
  unfold is_ascii. induction s as [|a s IH]; cbn [sforallb to_lower]; [done|].
  rewrite !andb_true_iff. intros [Ha Hs]. split; [|auto]. apply Z.ltb_lt in Ha. apply Z.ltb_lt.
  rewrite lower_code. destruct (_ && _) eqn:E; [|lia].
  apply andb_true_iff in E as [?%Z.leb_le ?%Z.leb_le]. lia.
Qed.

Lemma ToLower_idem `{Unicode} s : is_ascii s = true -> ToLower (ToLower s) = ToLower s.
Proof.
  intros Hs. unfold ToLower. rewrite Hs, (to_lower_ascii _ Hs). apply to_lower_idem.
Qed.

(** ** [utf8.RuneCountInString] *)

Definition in_range (lo hi : Z) (a : ascii) : bool := ((lo <=? code a) && (code a <=? hi))%Z.

(** Bytes of the rune a non-empty text starts with; an invalid byte is a rune
    of its own. *)
Definition rune_size (l : list ascii) : nat :=
  match l with
  | a :: b :: c :: d :: _ =>
      if in_range 194 223 a && in_range 128 191 b then 2
      else if ((in_range 224 224 a && in_range 160 191 b)
               || (in_range 237 237 a && in_range 128 159 b)
               || ((in_range 225 236 a || in_range 238 239 a) && in_range 128 191 b))
              && in_range 128 191 c then 3
      else if ((in_range 240 240 a && in_range 144 191 b)
               || (in_range 241 243 a && in_range 128 191 b)
               || (in_range 244 244 a && in_range 128 143 b))
              && in_range 128 191 c && in_range 128 191 d then 4
      else 1
  | [a; b; c] =>
      if in_range 194 223 a && in_range 128 191 b then 2
      else if ((in_range 224 224 a && in_range 160 191 b)
               || (in_range 237 237 a && in_range 128 159 b)
               || ((in_range 225 236 a || in_range 238 239 a) && in_range 128 191 b))
              && in_range 128 191 c then 3
      else 1
  | [a; b] => if in_range 194 223 a && in_range 128 191 b then 2 else 1
  | _ => 1
  end.

Fixpoint count_runes (fuel : nat) (l : list ascii) : nat :=
  match fuel, l with
  | S n, _ :: _ => S (count_runes n (drop (rune_size l) l))
  | _, _ => 0
  end.

Definition RuneCountInString (s : string) : Z :=
  let l := list_ascii_of_string s in Z.of_nat (count_runes (length l) l).

Example rune_count_ex : RuneCountInString "né€x" = 4%Z.
Proof. by vm_compute. Qed.

Lemma count_runes_le n l : count_runes n l <= length l.
Proof.
  revert l. induction n as [|n IH]; intros [|a l]; cbn [count_runes]; [simpl; lia..|].
  assert (1 <= rune_size (a :: l)) as Hr
    by (unfold rune_size; repeat case_match; lia).
  specialize (IH (drop (rune_size (a :: l)) (a :: l))). rewrite length_drop in IH.
  cbn [length] in *. lia.
Qed.

(** A text has at most as many runes as bytes. *)
Lemma RuneCount_le s : (0 <= RuneCountInString s <= Z.of_nat (String.length s))%Z.
Proof.
  unfold RuneCountInString. pose proof (count_runes_le (length (list_ascii_of_string s)) (list_ascii_of_string s)).
  assert (length (list_ascii_of_string s) = String.length s) as <-
    by (clear; induction s as [|a s IH]; simpl; [done|by rewrite IH]). lia.
Qed.

(** ** [TrimSpace] is idempotent *)

Lemma lead_space_le l : lead_space l <= length l.
Proof. unfold lead_space. repeat case_match; simpl; lia. Qed.

Lemma trail_space_le l : trail_space l <= length l.
Proof. unfold trail_space. repeat case_match; simpl; lia. Qed.

Lemma trim_with_done f n l :
  (forall l, f l <= length l) -> length l <= n -> f (trim_with f n l) = 0.
Proof.
  intros Hf. revert l. induction n as [|n IH]; intros l Hl; cbn [trim_with].
  - pose proof (Hf l). lia.
  - destruct (f l) as [|k] eqn:E; [done|]. apply IH. rewrite length_drop. pose proof (Hf l). lia.
Qed.

Lemma trim_with_suffix f n l : exists p, l = p ++ trim_with f n l.
Proof.
  revert l. induction n as [|n IH]; intros l; cbn [trim_with]; [by exists []|].
  destruct (f l) as [|k]; [by exists []|]. destruct (IH (drop (S k) l)) as [p Hp].
  exists (take (S k) l ++ p). rewrite <- app_assoc, <- Hp. by rewrite take_drop.
Qed.

(** A text that starts with a space rune still does when it goes on. *)
Lemma lead_space_app l k : lead_space (l ++ k) = 0 -> lead_space l = 0.
Proof.
  destruct l as [|a [|b [|c l]]]; cbn [app lead_space]; [done|..]; repeat case_match; congruence.
Qed.

Lemma trim_space_list s :
  exists l, trim_space s = string_of_list_ascii l /\ lead_space l = 0 /\ trail_space (rev l) = 0
            /\ exists p q, list_ascii_of_string s = p ++ l ++ q.
Proof.
  unfold trim_space. set (l := list_ascii_of_string s).
  destruct (trim_with_suffix lead_space (length l) l) as [p Hp].
  set (l1 := trim_with lead_space (length l) l) in *.
  destruct (trim_with_suffix trail_space (length l1) (rev l1)) as [q Hq].
  set (l2 := trim_with trail_space (length l1) (rev l1)) in *.
  assert (l1 = rev l2 ++ rev q) as E by (by rewrite <- rev_app_distr, <- Hq, rev_involutive).
  exists (rev l2). split_and!; [done|..].
  - apply (lead_space_app _ (rev q)). rewrite <- E. apply trim_with_done; [apply lead_space_le|lia].
  - rewrite rev_involutive. apply trim_with_done; [apply trail_space_le|by rewrite length_rev].
  - exists p, (rev q). by rewrite <- E.
Qed.

(** Trimming a text without outer space runes does nothing. *)
Lemma trim_space_fix l :
  lead_space l = 0 -> trail_space (rev l) = 0 ->
  trim_space (string_of_list_ascii l) = string_of_list_ascii l.
Proof.
  intros H1 H2. unfold trim_space. rewrite list_ascii_of_string_of_list_ascii.
  rewrite (trim_with_stop lead_space _ l H1), (trim_with_stop trail_space _ (rev l) H2).
  by rewrite rev_involutive.
Qed.

Lemma trim_space_idem s : trim_space (trim_space s) = trim_space s.
Proof. destruct (trim_space_list s) as (l & -> & H1 & H2 & _). by apply trim_space_fix. Qed.

(** Bytes of the trimmed text are bytes of the text. *)
Lemma sforallb_list f s : sforallb f s = forallb f (list_ascii_of_string s).
Proof. induction s as [|a s IH]; simpl; [done|]. by rewrite IH. Qed.

Lemma trim_space_forall f s : sforallb f s = true -> sforallb f (trim_space s) = true.
Proof.
  destruct (trim_space_list s) as (l & -> & _ & _ & p & q & E).
  rewrite !sforallb_list, E, list_ascii_of_string_of_list_ascii, !forallb_app, !andb_true_iff. naive_solver.
Qed.

(** Lowering ASCII letters leaves space runes alone. *)
Lemma lower_fixed a : (code a < 65)%Z \/ (90 < code a)%Z -> lower a = a.
Proof.
  intros H. unfold lower. destruct (_ && _) eqn:E; [|done].
  apply andb_true_iff in E as [?%Z.leb_le ?%Z.leb_le]. lia.
Qed.

Lemma list_to_lower s : list_ascii_of_string (to_lower s) = map lower (list_ascii_of_string s).
Proof. induction s as [|a s IH]; simpl; [done|]. by rewrite IH. Qed.

(** A byte test that no letter passes does not see the case. *)
Lemma code_eqb_lower a k : (k < 65)%Z \/ (122 < k)%Z -> (code (lower a) =? k)%Z = (code a =? k)%Z.
Proof.
  intros Hk. rewrite lower_code. destruct (_ && _) eqn:E; [|done].
  apply andb_true_iff in E as [?%Z.leb_le ?%Z.leb_le].
  rewrite (proj2 (Z.eqb_neq (code a) k)) by lia. apply Z.eqb_neq. lia.
Qed.

Lemma code_leb_lower a k : (122 < k)%Z -> (k <=? code (lower a))%Z = (k <=? code a)%Z.
Proof.
  intros Hk. rewrite lower_code. destruct (_ && _) eqn:E; [|done].
  apply andb_true_iff in E as [?%Z.leb_le ?%Z.leb_le].
  rewrite (proj2 (Z.leb_gt k (code a))) by lia. apply Z.leb_gt. lia.
Qed.

Lemma ascii_space_lower a : ascii_space (lower a) = ascii_space a.
Proof.
  unfold ascii_space. cbv zeta. rewrite !lower_code.
  destruct ((65 <=? code a) && (code a <=? 90))%Z eqn:E; [|done].
  apply andb_true_iff in E as [?%Z.leb_le ?%Z.leb_le].
  rewrite (proj2 (Z.leb_gt (code a + 32) 13)), (proj2 (Z.leb_gt (code a) 13)) by lia.
  rewrite (proj2 (Z.eqb_neq (code a + 32) 32)), (proj2 (Z.eqb_neq (code a) 32)) by lia.
  by rewrite !andb_false_r.
Qed.

Lemma code_leb_lower_r a k : (122 < k)%Z -> (code (lower a) <=? k)%Z = (code a <=? k)%Z.
Proof.
  intros Hk. rewrite lower_code. destruct (_ && _) eqn:E; [|done].
  apply andb_true_iff in E as [?%Z.leb_le ?%Z.leb_le].
  transitivity true; [|symmetry]; apply Z.leb_le; lia.
Qed.

Lemma space2_lower a b : space2 (lower a) (lower b) = space2 a b.
Proof. unfold space2. rewrite !code_eqb_lower by lia. done. Qed.

Lemma space3_lower a b c : space3 (lower a) (lower b) (lower c) = space3 a b c.
Proof.
  unfold space3. cbv zeta. rewrite !code_eqb_lower, !code_leb_lower, !code_leb_lower_r by lia. done.
Qed.

Lemma lead_space_lower l : lead_space (map lower l) = lead_space l.
Proof.
  destruct l as [|a [|b [|c l]]]; cbn [map lead_space]; rewrite ?ascii_space_lower, ?space2_lower, ?space3_lower; done.
Qed.

Lemma trail_space_lower l : trail_space (map lower l) = trail_space l.
Proof.
  destruct l as [|a [|b [|c l]]]; cbn [map trail_space]; rewrite ?ascii_space_lower, ?space2_lower, ?space3_lower; done.
Qed.

Lemma trim_space_to_lower s : trim_space (to_lower (trim_space s)) = to_lower (trim_space s).
Proof.
  destruct (trim_space_list s) as (l & -> & H1 & H2 & _).
  assert (to_lower (string_of_list_ascii l) = string_of_list_ascii (map lower l)) as ->
    by (clear; induction l as [|a l IH]; simpl; [done|by rewrite IH]).
  apply trim_space_fix; [by rewrite lead_space_lower|]. rewrite <- map_rev. by rewrite trail_space_lower.
Qed.

(** ** [strings.Join] *)

Fixpoint Join (l : list string) (sep : string) : string :=
  match l with
  | [] => ""
  | [s] => s
  | s :: l => s +:+ sep +:+ Join l sep
  end.

(** [strings.HasSuffix] *)
Definition has_suffix (s p : string) : bool :=
  (String.length p <=? String.length s)%nat
  && String.eqb (sdrop (String.length s - String.length p) s) p.

(** [strings.TrimSuffix] *)
Definition trim_suffix (s p : string) : string :=
  if has_suffix s p then stake (String.length s - String.length p) s else s.
