(* ===== verification/Regexp.v ===== *)
(** * Regular expressions: what the source uses of package regexp

    Anchored patterns over bytes ([^p$] with [MatchString]), decided by
    Brzozowski derivatives and characterised by their language. A negated class
    of ASCII bytes holds of every byte of a longer rune, so [(class)+] over the
    bytes accepts what it accepts over the runes. *)

From Stdlib Require Import String Ascii.
From S2P Require Import Prelude GoStd.

Inductive regex :=
| Void
| Eps
| Class (f : ascii -> bool)
| Cat (r s : regex)
| Alt (r s : regex)
| Star (r : regex).

Fixpoint nullable (r : regex) : bool :=
  match r with
  | Void | Class _ => false
  | Eps | Star _ => true
  | Cat r s => nullable r && nullable s
  | Alt r s => nullable r || nullable s
  end.

(** What is left of the language after one byte. *)
Fixpoint deriv (a : ascii) (r : regex) : regex :=
  match r with
  | Void | Eps => Void
  | Class f => if f a then Eps else Void
  | Cat r s => if nullable r then Alt (Cat (deriv a r) s) (deriv a s) else Cat (deriv a r) s
  | Alt r s => Alt (deriv a r) (deriv a s)
  | Star r => Cat (deriv a r) (Star r)
  end.

(** [MatchString] of the pattern between [^] and [$]. *)
Fixpoint matches (r : regex) (s : string) : bool :=
  match s with
  | EmptyString => nullable r
  | String a s' => matches (deriv a r) s'
  end.

(** ** Patterns *)

Definition Byte (a : ascii) : regex := Class (Ascii.eqb a).
(** [r+], [r?] *)
Definition Plus (r : regex) : regex := Cat r (Star r).
Definition Opt (r : regex) : regex := Alt Eps r.

Fixpoint Times (n : nat) (r : regex) : regex :=
  match n with O => Eps | S n => Cat r (Times n r) end.

Fixpoint UpTo (n : nat) (r : regex) : regex :=
  match n with O => Eps | S n => Alt Eps (Cat r (UpTo n r)) end.

(** [r{m,n}] *)
Definition Between (m n : nat) (r : regex) : regex := Cat (Times m r) (UpTo (n - m) r).

Definition is_digit (a : ascii) : bool := let c := code a in ((48 <=? c) && (c <=? 57))%Z.

(** ** The language of a pattern *)

Inductive lang : regex -> string -> Prop :=
| L_Eps : lang Eps ""
| L_Class f a : f a = true -> lang (Class f) (String a "")
| L_Cat r s u v : lang r u -> lang s v -> lang (Cat r s) (u +:+ v)
| L_AltL r s u : lang r u -> lang (Alt r s) u
| L_AltR r s u : lang s u -> lang (Alt r s) u
| L_StarNil r : lang (Star r) ""
| L_StarCons r u v : lang r u -> lang (Star r) v -> lang (Star r) (u +:+ v).

Lemma lang_Cat r s w : lang (Cat r s) w <-> exists u v, w = u +:+ v /\ lang r u /\ lang s v.
Proof.
  split; [inversion 1; eauto|]. intros (u & v & -> & ? & ?). by constructor.
Qed.

Lemma nullable_spec r : nullable r = true <-> lang r "".
Proof.
  induction r as [| |f|r IHr s IHs|r IHr s IHs|r IH]; simpl.
  - split; [done|]. inversion 1.
  - split; [constructor|done].
  - split; [done|]. inversion 1.
  - rewrite andb_true_iff, IHr, IHs. split.
    + intros [? ?]. by apply (L_Cat r s "" "").
    + intros (u & v & Hw & Hu & Hv)%lang_Cat. by destruct u, v.
  - rewrite orb_true_iff, IHr, IHs. split; [intros [?|?]; by constructor|].
    inversion 1; auto.
  - split; [constructor|done].
Qed.

Lemma deriv_spec a r s : lang (deriv a r) s <-> lang r (String a s).
Proof.
  revert s. induction r as [| |f|r IHr t IHt|r IHr t IHt|r IH]; intros s; cbn [deriv].
  - split; inversion 1.
  - split; inversion 1.
  - destruct (f a) eqn:E; split; inversion 1; subst; [by constructor|constructor|congruence].
  - assert (lang (Cat (deriv a r) t) s \/ nullable r = true /\ lang (deriv a t) s
            <-> lang (Cat r t) (String a s)) as H.
    { split.
      - intros [H|[Hn H]].
        + inversion H as [| |? ? u v Hu Hv| | | |]; subst. apply IHr in Hu.
          by apply (L_Cat _ _ (String a u) v).
        + apply (L_Cat _ _ "" (String a s)); [by apply nullable_spec|by apply IHt].
      - intros (u & v & Hw & Hu & Hv)%lang_Cat. destruct u as [|b u].
        + right. split; [by apply nullable_spec|]. apply IHt. change (String a s = v) in Hw. by subst v.
        + left. change (String a s = String b (u +:+ v)) in Hw. inv Hw. constructor; [by apply IHr|done]. }
    rewrite <- H. destruct (nullable r).
    + split; [inversion 1; auto|]. intros [?|[_ ?]]; by constructor.
    + split; [auto|]. by intros [?|[? ?]].
  - split.
    + inversion 1; subst; [apply L_AltL; by apply IHr|apply L_AltR; by apply IHt].
    + inversion 1; subst; [apply L_AltL; by apply IHr|apply L_AltR; by apply IHt].
  - split.
    + inversion 1 as [| |? ? u v Hu Hv| | | |]; subst. apply IH in Hu.
      by apply (L_StarCons _ (String a u) v).
    + intros H. remember (Star r) as q eqn:Eq. remember (String a s) as w eqn:Ew.
      induction H as [| | | | | |q u v Hu _ Hv IHv]; try discriminate. inv Eq.
      destruct u as [|b u]; [by apply IHv|]. cbn [String.append] in Ew. inv Ew.
      constructor; [by apply IH|done].
Qed.

(** The decision procedure decides the language. *)
Lemma matches_spec r s : matches r s = true <-> lang r s.
Proof.
  revert r. induction s as [|a s IH]; intros r; cbn [matches]; [apply nullable_spec|].
  by rewrite IH, deriv_spec.
Qed.

(** ** Inversion *)

Lemma lang_Alt r s w : lang (Alt r s) w <-> lang r w \/ lang s w.
Proof. split; [inversion 1; auto|]. intros [?|?]; [by apply L_AltL|by apply L_AltR]. Qed.

Lemma lang_Eps w : lang Eps w <-> w = "".
Proof. split; [by inversion 1|]. intros ->. constructor. Qed.

Lemma lang_Class f w : lang (Class f) w <-> exists a, w = String a "" /\ f a = true.
Proof. split; [inversion 1; eauto|]. intros (a & -> & ?). by constructor. Qed.

Lemma lang_Byte c w : lang (Byte c) w <-> w = String c "".
Proof.
  unfold Byte. rewrite lang_Class. split.
  - intros (a & -> & <-%Ascii.eqb_eq). done.
  - intros ->. exists c. by rewrite Ascii.eqb_refl.
Qed.

Lemma lang_Star_Class f w : lang (Star (Class f)) w <-> sforallb f w = true.
Proof.
  split.
  - intros H. remember (Star (Class f)) as q eqn:Eq. induction H as [| | | | | |q u v Hu _ Hv IHv]; try discriminate.
    + done.
    + inv Eq. inv Hu. rewrite sforallb_app, andb_true_iff. cbn [sforallb]. rewrite andb_true_r. auto.
  - induction w as [|a w IH]; cbn [sforallb]; [constructor|]. rewrite andb_true_iff. intros [Ha Hw].
    apply (L_StarCons _ (String a "") w); [by constructor|auto].
Qed.

Lemma lang_Plus_Class f w : lang (Plus (Class f)) w <-> sforallb f w = true /\ w <> "".
Proof.
  unfold Plus. rewrite lang_Cat. split.
  - intros (u & v & -> & (a & -> & Ha)%lang_Class & Hv%lang_Star_Class).
    rewrite sforallb_app. cbn [sforallb]. by rewrite Ha, Hv.
  - destruct w as [|a w]; [naive_solver|]. cbn [sforallb]. rewrite andb_true_iff. intros [[Ha Hw] _].
    exists (String a ""), w. split_and!; [done|by constructor|by apply lang_Star_Class].
Qed.

Lemma lang_Times_Class f n w :
  lang (Times n (Class f)) w <-> sforallb f w = true /\ String.length w = n.
Proof.
  revert w. induction n as [|n IH]; intros w; cbn [Times].
  - rewrite lang_Eps. split; [by intros ->|]. by destruct w as [|a w]; intros [_ ?].
  - rewrite lang_Cat. split.
    + intros (u & v & -> & (a & -> & Ha)%lang_Class & Hv%IH). rewrite sforallb_app, length_sapp.
      cbn [sforallb String.length]. rewrite Ha. cbn [andb]. naive_solver lia.
    + destruct w as [|a w]; cbn [sforallb String.length]; [by intros [_ ?]|]. rewrite andb_true_iff.
      intros [[Ha Hw] Hl]. exists (String a ""), w. split_and!; [done|by constructor|].
      apply IH. split; [done|lia].
Qed.

Lemma lang_UpTo_Class f n w :
  lang (UpTo n (Class f)) w <-> sforallb f w = true /\ (String.length w <= n)%nat.
Proof.
  revert w. induction n as [|n IH]; intros w; cbn [UpTo].
  - rewrite lang_Eps. split; [by intros ->|]. destruct w as [|a w]; cbn [String.length]; [done|intros [_ ?]; lia].
  - rewrite lang_Alt, lang_Eps, lang_Cat. split.
    + intros [->|(u & v & -> & (a & -> & Ha)%lang_Class & Hv%IH)]; [split; [done|cbn; lia]|].
      rewrite sforallb_app, length_sapp. cbn [sforallb String.length]. rewrite Ha. cbn [andb].
      naive_solver lia.
    + destruct w as [|a w]; cbn [sforallb String.length]; [by left|]. rewrite andb_true_iff.
      intros [[Ha Hw] Hl]. right. exists (String a ""), w. split_and!; [done|by constructor|].
      apply IH. split; [done|lia].
Qed.

(** [[class]{m,n}] accepts the texts of [m] to [n] bytes of the class. *)
Lemma lang_Between_Class f m n w :
  (m <= n)%nat ->
  lang (Between m n (Class f)) w <-> sforallb f w = true /\ (m <= String.length w <= n)%nat.
Proof.
  intros Hmn. unfold Between. rewrite lang_Cat. split.
  - intros (u & v & -> & [Hu Lu]%lang_Times_Class & [Hv Lv]%lang_UpTo_Class).
    rewrite length_sapp, sforallb_app, Hu, Hv. split; [done|lia].
  - intros [Hf Hl]. exists (stake m w), (sdrop m w).
    assert (w = stake m w +:+ sdrop m w) as E.
    { clear. revert w. induction m as [|m IH]; intros [|a w]; [done..|]. cbn [stake sdrop String.append].
      exact (f_equal (String a) (IH w)). }
    assert (String.length (stake m w) = m) as Lm.
    { clear -Hl. destruct Hl as [Hl _]. revert w Hl. induction m as [|m IH]; intros [|a w] Hl; cbn in *; [done..|lia|].
      rewrite IH; lia. }
    rewrite E in Hf, Hl. rewrite sforallb_app, andb_true_iff in Hf. rewrite length_sapp, Lm in Hl.
    split_and!; [exact E|apply lang_Times_Class; naive_solver|apply lang_UpTo_Class; split; [naive_solver|lia]].
Qed.
