(* ===== verification/Float64.v ===== *)
(** * Go float64

    IEEE 754 binary64 with round-to-nearest-even, by the executable
    specification of the Standard Library ([SpecFloat], precision 53, maximum
    exponent 1024). The comparison is a total preorder away from NaN. *)

From Stdlib Require Import SpecFloat.
From S2P Require Import Prelude GoStd.

Local Open Scope Z_scope.

Definition float64 := spec_float.

(** [float64(n)] for an integer. *)
Definition f64 (n : Z) : float64 := binary_normalize 53 1024 n 0 false.

Definition fadd (x y : float64) : float64 := SFadd 53 1024 x y.
Definition fmul (x y : float64) : float64 := SFmul 53 1024 x y.
Definition fdiv (x y : float64) : float64 := SFdiv 53 1024 x y.

(** [x < y], [x > y] and [x != y] of Go. *)
Definition flt (x y : float64) : bool := SFltb x y.
Definition fgt (x y : float64) : bool := SFltb y x.
Definition fne (x y : float64) : bool := negb (SFeqb x y).

Definition is_nan (x : float64) : bool := match x with S754_nan => true | _ => false end.

(** The constants of the source, correctly rounded. *)
Definition f_half3 : float64 := fdiv (f64 3) (f64 2).

Example f_half3_exact : f_half3 = S754_finite false 6755399441055744 (-52).
Proof. vm_compute. reflexivity. Qed.

(** ** The order *)

(** A number's place: sign class, then exponent, then mantissa. *)
Definition place (x : float64) : Z * Z * Z :=
  match x with
  | S754_nan => (0, 0, 0)
  | S754_infinity true => (-2, 0, 0)
  | S754_finite true m e => (-1, - e, - Zpos m)
  | S754_zero _ => (0, 0, 0)
  | S754_finite false m e => (1, e, Zpos m)
  | S754_infinity false => (2, 0, 0)
  end.

Definition lex (a b : Z * Z * Z) : comparison :=
  match a.1.1 ?= b.1.1 with
  | Eq => match a.1.2 ?= b.1.2 with Eq => a.2 ?= b.2 | c => c end
  | c => c
  end.

Lemma SFcompare_place x y :
  is_nan x = false -> is_nan y = false -> SFcompare x y = Some (lex (place x) (place y)).
Proof.
  destruct x as [sx|sx| |sx mx ex], y as [sy|sy| |sy my ey]; try done; intros _ _;
    try destruct sx; try destruct sy; try reflexivity; unfold lex; simpl.
  rewrite (Z.compare_opp ex ey), (Z.compare_antisym ey ex).
  by destruct (ey ?= ex).
Qed.

Definition lex_lt (a b : Z * Z * Z) : Prop :=
  a.1.1 < b.1.1 \/ (a.1.1 = b.1.1 /\ (a.1.2 < b.1.2 \/ (a.1.2 = b.1.2 /\ a.2 < b.2))).

Lemma lex_Lt a b : lex a b = Lt <-> lex_lt a b.
Proof.
  unfold lex, lex_lt. destruct (Z.compare_spec a.1.1 b.1.1), (Z.compare_spec a.1.2 b.1.2),
    (Z.compare_spec a.2 b.2); split; intros Hc; try done; lia.
Qed.

Lemma lex_Eq a b : lex a b = Eq <-> a = b.
Proof.
  unfold lex. destruct a as [[a1 a2] a3], b as [[b1 b2] b3]. simpl.
  destruct (Z.compare_spec a1 b1), (Z.compare_spec a2 b2), (Z.compare_spec a3 b3); split; intros Hc;
    simplify_eq; try done; lia.
Qed.

Lemma flt_place x y :
  is_nan x = false -> is_nan y = false -> flt x y = true <-> lex_lt (place x) (place y).
Proof.
  intros Hx Hy. unfold flt, SFltb. rewrite SFcompare_place by done. rewrite <- lex_Lt.
  by destruct (lex _ _).
Qed.

Lemma fne_place x y :
  is_nan x = false -> is_nan y = false -> fne x y = false <-> place x = place y.
Proof.
  intros Hx Hy. unfold fne, SFeqb. rewrite SFcompare_place by done. rewrite <- lex_Eq.
  by destruct (lex _ _).
Qed.

(** ** Non-negative values

    [nonneg]: a number, zero or an infinity that is not below zero. Rounding a
    non-negative mantissa stays there, so scores built from non-negative
    parts are never NaN. *)

Definition nonneg (x : float64) : bool :=
  match x with
  | S754_zero _ | S754_infinity false | S754_finite false _ _ => true
  | _ => false
  end.

Lemma nonneg_not_nan x : nonneg x = true -> is_nan x = false.
Proof. by destruct x. Qed.

Lemma shr_1_nonneg r : 0 <= shr_m r -> 0 <= shr_m (shr_1 r).
Proof. destruct r as [[|[p|p|]|p] b c]; simpl; lia. Qed.

Lemma shr_fexp_nonneg m e l : 0 <= m -> 0 <= shr_m (shr_fexp 53 1024 m e l).1.
Proof.
  intros H. unfold shr_fexp, shr.
  assert (0 <= shr_m (shr_record_of_loc m l)) as H0 by (by destruct l as [|[]]).
  destruct (fexp _ _ _ - _) as [|p|p]; [done| |done]. simpl.
  revert H0. generalize (shr_record_of_loc m l). induction p as [p IH|p IH|]; intros r H0; simpl.
  - by apply IH, IH, shr_1_nonneg.
  - by apply IH, IH.
  - by apply shr_1_nonneg.
Qed.

Lemma round_aux_nonneg m e l : 0 <= m -> nonneg (binary_round_aux 53 1024 false m e l) = true.
Proof.
  intros H. unfold binary_round_aux.
  pose proof (shr_fexp_nonneg m e l H) as H1. destruct (shr_fexp _ _ m e l) as [r1 e1]. simpl in H1.
  assert (0 <= round_nearest_even (shr_m r1) (loc_of_shr_record r1)) as H2.
  { unfold round_nearest_even. destruct (loc_of_shr_record r1) as [|[]]; [lia| |lia|lia].
    destruct (Z.even _); lia. }
  pose proof (shr_fexp_nonneg _ e1 loc_Exact H2) as H3.
  destruct (shr_fexp _ _ _ e1 _) as [r2 e2]. simpl in H3.
  destruct (shr_m r2) as [|p|p]; [done| |lia]. by destruct (e2 <=? _).
Qed.

Lemma binary_round_nonneg p e : nonneg (binary_round 53 1024 false p e) = true.
Proof. unfold binary_round. destruct (shl_align _ _ _) as [mz ez]. by apply round_aux_nonneg. Qed.

Lemma f64_nonneg n : 0 <= n -> nonneg (f64 n) = true.
Proof. intros H. destruct n as [|p|p]; [done| |lia]. apply binary_round_nonneg. Qed.

Lemma fadd_nonneg x y : nonneg x = true -> nonneg y = true -> nonneg (fadd x y) = true.
Proof.
  destruct x as [sx|[]| |[] mx ex], y as [sy|[]| |[] my ey]; try done.
  - by destruct sx, sy.
  - intros _ _. apply binary_round_nonneg.
Qed.

Lemma fmul_nonneg m e y : nonneg y = true -> nonneg (fmul (S754_finite false m e) y) = true.
Proof.
  destruct y as [sy|[]| |[] my ey]; try done. intros _. by apply round_aux_nonneg.
Qed.

Lemma fdiv_nonneg x m e : nonneg x = true -> nonneg (fdiv x (S754_finite false m e)) = true.
Proof.
  destruct x as [sx|[]| |[] mx ex]; try done. intros _.
  unfold fdiv, SFdiv. destruct (SFdiv_core_binary _ _ _ _ _ _) as [[mz ez] lz] eqn:E.
  apply round_aux_nonneg. revert E. unfold SFdiv_core_binary.
  set (s := ex - e - _). set (m' := match s with Z0 => _ | Zpos _ => _ | Zneg _ => 0 end).
  assert (0 <= m') as Hm by (subst m'; destruct s; [lia|by apply Z.shiftl_nonneg|lia]).
  pose proof (Z_div_mod m' (Zpos m) eq_refl) as Hd.
  destruct (Z.div_eucl m' (Zpos m)) as [q r]. intros [= <- _ _]. destruct Hd as [Hd1 Hd2]. nia.
Qed.

(** ** Small integers are exact, and a quotient of equals is one *)

Lemma digits2_pos_bound p k : Zpos p < 2 ^ Z.of_nat k -> Zpos (digits2_pos p) <= Z.of_nat k.
Proof.
  revert k. induction p as [p IH|p IH|]; intros [|k] H; simpl digits2_pos; try (simpl in H; lia).
  all: rewrite Nat2Z.inj_succ, Z.pow_succ_r in H by lia; rewrite Pos2Z.inj_succ;
    specialize (IH k); lia.
Qed.

Lemma digits2_pos_xO p n : Zpos (digits2_pos (Pos.iter xO p n)) = Zpos (digits2_pos p) + Zpos n.
Proof.
  induction n as [|n IH] using Pos.peano_ind; simpl; [lia|].
  rewrite Pos.iter_succ. simpl. rewrite Pos2Z.inj_succ, IH. lia.
Qed.

Lemma round_aux_exact m e :
  Zpos (digits2_pos m) = 53 -> -1074 <= e <= 971 ->
  binary_round_aux 53 1024 false (Zpos m) e loc_Exact = S754_finite false m e.
Proof.
  intros Hd He. unfold binary_round_aux, shr_fexp, Zdigits2, fexp, emin. rewrite Hd.
  replace (Z.max _ _ - e) with 0 by lia. cbn [shr shr_m shr_record_of_loc loc_of_shr_record
    round_nearest_even]. rewrite Hd. replace (Z.max _ _ - e) with 0 by lia.
  cbn [shr shr_m shr_record_of_loc]. by rewrite (proj2 (Z.leb_le _ _)) by lia.
Qed.

Lemma f64_small n : 0 < n < 2 ^ 53 -> exists m e, f64 n = S754_finite false m e.
Proof.
  intros H. destruct n as [|p|p]; [lia| |lia].
  assert (Zpos (digits2_pos p) <= 53) as Hd
    by exact (digits2_pos_bound p 53 (proj2 H)).
  unfold f64, binary_normalize, binary_round, shl_align, fexp, emin.
  set (d := Zpos (digits2_pos p)) in *. assert (1 <= d) as Hd1 by lia.
  replace (Z.max (d + 0 - 53) _) with (d - 53) by lia.
  destruct (d - 53 - 0) as [|k|k] eqn:Ek; [|lia|].
  - exists p, 0. apply round_aux_exact; lia.
  - eexists _, _. apply round_aux_exact; [rewrite digits2_pos_xO|]; lia.
Qed.

Lemma fdiv_self m e : fdiv (S754_finite false m e) (S754_finite false m e) = f64 1.
Proof.
  unfold fdiv, SFdiv, SFdiv_core_binary, fexp, emin. simpl Zdigits2.
  replace (Z.min _ _) with (-53) by lia. replace (e - e - (-53)) with 53 by lia.
  rewrite Z.shiftl_mul_pow2 by lia.
  assert (Z.div_eucl (Zpos m * 2 ^ 53) (Zpos m) = (2 ^ 53, 0)) as ->.
  { generalize (2 ^ 53). intros k. pose proof (Z_div_mod (Zpos m * k) (Zpos m) eq_refl) as H.
    destruct (Z.div_eucl _ _) as [q r]. destruct H as [H1 H2].
    assert (k - q = 0) by nia. f_equal; nia. }
  replace (new_location (Zpos m) 0) with loc_Exact.
  - vm_compute. reflexivity.
  - unfold new_location, new_location_even, new_location_odd. by destruct (Z.even _).
Qed.
