(* ===== verification/AppErrors.v ===== *)
(** * pkg/errors: the application error model

    [Error] is the canonical application error; [error] is the Go interface
    value: an [*Error] or any other error, each with the cause [errors.Unwrap]
    returns. *)

From S2P Require Import Prelude GoStd.

Local Open Scope Z_scope.

Inductive Kind :=
| KindInvalid
| KindNotFound
| KindConflict
| KindRateLimited
| KindUnauth
| KindForbidden
| KindInternal
(** any other string *)
| KindOther (name : string).

#[export] Instance Kind_eq_dec : EqDecision Kind.
Proof. solve_decision. Defined.

Inductive Error :=
| MkError (kind : Kind) (code message : string) (details : option any)
    (cause : option error)
with error :=
| AppErr (e : Error)
| OtherErr (msg : string) (cause : option error).

Definition ErrKind '(MkError k _ _ _ _) : Kind := k.
Definition Code '(MkError _ c _ _ _) : string := c.
Definition Message '(MkError _ _ m _ _) : string := m.
Definition Details '(MkError _ _ _ d _) : option any := d.
Definition wrapped '(MkError _ _ _ _ w) : option error := w.

(** [(e *Error) HTTPStatus()] *)
Definition HTTPStatus (e : Error) : Z :=
  match ErrKind e with
  | KindInvalid => 422
  | KindNotFound => 404
  | KindConflict => 409
  | KindRateLimited => 429
  | KindUnauth => 401
  | KindForbidden => 403
  | KindInternal | KindOther _ => 500
  end.

Definition New (kind : Kind) (code message : string) : Error :=
  MkError kind code message None None.

Definition Wrap (err : error) (kind : Kind) (code message : string) : Error :=
  MkError kind code message None (Some err).

Definition WithDetails (e : Error) (details : any) : Error :=
  MkError (ErrKind e) (Code e) (Message e) (Some details) (wrapped e).

Definition Invalid (code msg : string) : Error := New KindInvalid code msg.
Definition NotFound (code msg : string) : Error := New KindNotFound code msg.
Definition Conflict (code msg : string) : Error := New KindConflict code msg.
Definition RateLimited (code msg : string) : Error := New KindRateLimited code msg.
Definition Unauth (code msg : string) : Error := New KindUnauth code msg.
Definition Forbidden (code msg : string) : Error := New KindForbidden code msg.
Definition Internal (code msg : string) : Error := New KindInternal code msg.

Definition WithCause (e : Error) (cause : error) : Error :=
  MkError (ErrKind e) (Code e) (Message e) (Details e) (Some cause).

Definition Unwrap (e : Error) : option error := wrapped e.

(** [(e *Error) Error()]: the text of an error value. *)
Fixpoint error_text (err : error) : string :=
  match err with
  | OtherErr msg _ => msg
  | AppErr (MkError _ code message _ w) =>
      match w with
      | Some c => code +:+ ": " +:+ error_text c
      | None => code +:+ ": " +:+ message
      end
  end.

(** [errors.As(err, &appErr)]: the first [*Error] of the chain. *)
Fixpoint errors_As (err : error) : option Error :=
  match err with
  | AppErr e => Some e
  | OtherErr _ (Some c) => errors_As c
  | OtherErr _ None => None
  end.

(** [From]: maps any error onto the canonical model. *)
Definition From (err : error) : Error :=
  match errors_As err with
  | Some appErr => appErr
  | None => WithCause (Internal "internal.error" "unexpected internal error") err
  end.

(** ** Lemmas *)

(** ** net/url and net/http *)

(** The error of [http.Client.Do]: a [*url.Error] somewhere in the chain, or
    another error. *)
Inductive transportError :=
| UrlError (op url : string) (err : error)
| OtherTransport (err : error).

Definition transport_text (t : transportError) : error :=
  match t with
  | UrlError op url err =>
      OtherErr (op +:+ " " +:+ quote url +:+ ": " +:+ error_text err) (Some err)
  | OtherTransport err => err
  end.

Lemma From_AppErr e : From (AppErr e) = e.
Proof. done. Qed.

Lemma HTTPStatus_range e : 401 <= HTTPStatus e <= 500.
Proof. unfold HTTPStatus. destruct (ErrKind e); lia. Qed.

(** The kind is recovered from the wire status: no two of the declared kinds
    share one. *)
Lemma HTTPStatus_inj e1 e2 :
  (forall k, ErrKind e1 <> KindOther k) -> (forall k, ErrKind e2 <> KindOther k) ->
  HTTPStatus e1 = HTTPStatus e2 -> ErrKind e1 = ErrKind e2.
Proof. unfold HTTPStatus. intros H1 H2. destruct (ErrKind e1), (ErrKind e2); naive_solver. Qed.

Lemma From_text_opaque msg :
  Message (From (OtherErr msg None)) = "unexpected internal error".
Proof. done. Qed.

#[export] Hint Resolve HTTPStatus_range : orvexa.
#[export] Hint Rewrite From_AppErr : orvexa_rw.
