(* ===== verification/Events.v ===== *)
(** * pkg/events: the topic registry and the event envelope *)

From S2P Require Import Prelude GoStd.

Local Open Scope Z_scope.

(** ** Topics (topics.go) *)

Definition TopicConversationOpened := "conversation.opened".
Definition TopicConversationClosed := "conversation.closed".
Definition TopicInteractionCreated := "interaction.created".
Definition TopicInteractionUpdated := "interaction.updated".
Definition TopicInteractionAssigned := "interaction.assigned".
Definition TopicInteractionCompleted := "interaction.completed".
Definition TopicCallRequested := "call.requested".
Definition TopicCallRinging := "call.ringing".
Definition TopicCallConnected := "call.connected".
Definition TopicCallCompleted := "call.completed".
Definition TopicCallFailed := "call.failed".
Definition TopicMessageSent := "message.sent".
Definition TopicMessageDelivered := "message.delivered".
Definition TopicMessageRead := "message.read".
Definition TopicMessageReceived := "message.received".
Definition TopicCustomerCreated := "customer.created".
Definition TopicCustomerUpdated := "customer.updated".
Definition TopicCaseOpened := "case.opened".
Definition TopicCaseUpdated := "case.updated".
Definition TopicCaseClosed := "case.closed".
Definition TopicRoutingDecisionRecorded := "routing.decision.recorded".
Definition TopicAgentStateChanged := "agent.state.changed".
Definition TopicQueueUpdated := "queue.updated".
Definition TopicAIInvocationCompleted := "ai.invocation.completed".
Definition TopicAISuggestionIssued := "ai.suggestion.issued".
Definition TopicWorkflowStarted := "workflow.started".
Definition TopicWorkflowStepCompleted := "workflow.step.completed".
Definition TopicWorkflowCompleted := "workflow.completed".
Definition TopicWorkflowFailed := "workflow.failed".
Definition TopicToolExecutionAudited := "tool.execution.audited".
Definition TopicUsageRecorded := "usage.recorded".
Definition TopicAuditRecorded := "audit.recorded".
Definition TopicWebhookReceived := "webhook.received".

(** The keys [init] puts into the registry map. *)
Definition registry : list string :=
  [ TopicConversationOpened; TopicConversationClosed;
    TopicInteractionCreated; TopicInteractionUpdated; TopicInteractionAssigned;
    TopicInteractionCompleted;
    TopicCallRequested; TopicCallRinging; TopicCallConnected; TopicCallCompleted;
    TopicCallFailed;
    TopicMessageSent; TopicMessageDelivered; TopicMessageRead; TopicMessageReceived;
    TopicCustomerCreated; TopicCustomerUpdated;
    TopicCaseOpened; TopicCaseUpdated; TopicCaseClosed;
    TopicRoutingDecisionRecorded; TopicAgentStateChanged; TopicQueueUpdated;
    TopicAIInvocationCompleted; TopicAISuggestionIssued;
    TopicWorkflowStarted; TopicWorkflowStepCompleted; TopicWorkflowCompleted;
    TopicWorkflowFailed;
    TopicToolExecutionAudited;
    TopicUsageRecorded; TopicAuditRecorded; TopicWebhookReceived ].

Definition IsRegistered (topic : string) : bool :=
  existsb (String.eqb topic) registry.

(** [Topics]: the insertion sort [Topics] runs over the collected keys. The
    Go map yields the keys in an unspecified order [out]. *)
Fixpoint insert_back (x : string) (rev_sorted : list string) : list string :=
  match rev_sorted with
  | [] => [x]
  | y :: ys => if String.ltb x y then y :: insert_back x ys else x :: y :: ys
  end.

(** The loop over [i]: [out[:i]] is kept sorted, here reversed. *)
Definition sort_topics (out : list string) : list string :=
  rev (fold_left (fun acc x => insert_back x acc) out []).

(** ** Envelope (envelope.go) *)

Record Envelope := MkEnvelope {
  e_ID : string;
  e_Type : string;
  e_Source : string;
  e_Subject : string;
  e_TenantID : string;
  e_CorrelationID : string;
  e_Time : Z;
  e_Data : dict;
}.

Section Envelope.
(** [uuid.Parse] (github.com/google/uuid) succeeds. *)
Variable uuid_valid : string -> bool.

(** [(e *Envelope) Validate()] on a non-nil pointer whose [Time] is set and
    whose [Data] is a map: the message of the first broken invariant. *)
Definition Validate (e : Envelope) : option string :=
  if negb (uuid_valid (e_ID e)) then Some "id must be a uuid"
  else if negb (IsRegistered (e_Type e)) then
    Some ("unregistered topic " +:+ quote (e_Type e))
  else if is_empty (e_TenantID e) then Some "tenant_id is required"
  else None.

(** [Validate] through a pointer: nil is an error. *)
Definition ValidatePtr (e : option Envelope) : option string :=
  match e with
  | None => Some "envelope is nil"
  | Some e => Validate e
  end.

(** [New] with the fresh id and the time it reads; [None] is the nil pointer
    returned with an error. *)
Definition NewEnvelope (id : string) (now : Z)
    (topic source subject tenantID correlationID : string) (data : dict)
    : option Envelope :=
  let e := MkEnvelope id topic source subject tenantID correlationID now data in
  match Validate e with
  | Some _ => None
  | None => Some e
  end.

Lemma NewEnvelope_Some id now topic source subject tenantID corr data :
  uuid_valid id = true -> IsRegistered topic = true -> tenantID <> "" ->
  NewEnvelope id now topic source subject tenantID corr data
  = Some (MkEnvelope id topic source subject tenantID corr now data).
Proof.
  intros Hid Ht Hn. unfold NewEnvelope, Validate. simpl.
  rewrite Hid, Ht. simpl. by rewrite (proj2 (is_empty_false tenantID)).
Qed.

Lemma NewEnvelope_inv id now topic source subject tenantID corr data e :
  NewEnvelope id now topic source subject tenantID corr data = Some e ->
  Validate e = None /\ e_TenantID e = tenantID /\ e_Type e = topic
  /\ e_Subject e = subject /\ e_Data e = data /\ e_ID e = id.
Proof.
  unfold NewEnvelope. set (e0 := MkEnvelope _ _ _ _ _ _ _ _).
  destruct (Validate e0) eqn:E; intros [= <-]. auto 10.
Qed.

Lemma Validate_None e :
  Validate e = None <->
  uuid_valid (e_ID e) = true /\ IsRegistered (e_Type e) = true /\ e_TenantID e <> "".
Proof.
  unfold Validate.
  destruct (uuid_valid (e_ID e)), (IsRegistered (e_Type e)), (is_empty (e_TenantID e)) eqn:E;
    simpl; first [rewrite is_empty_true in E | rewrite is_empty_false in E];
    naive_solver.
Qed.
End Envelope.

(** ** Lemmas on the registry *)

Lemma IsRegistered_spec t : IsRegistered t = true <-> t ∈ registry.
Proof.
  unfold IsRegistered. rewrite existsb_exists. setoid_rewrite String.eqb_eq.
  rewrite list_elem_of_In. split; [by intros (x & ? & ->)|eauto].
Qed.

Lemma registry_NoDup : NoDup registry.
Proof. apply (bool_decide_eq_true_1 _). vm_compute. reflexivity. Qed.
