(* ===== verification/Store.v ===== *)
(** * The PostgreSQL store and the effects of the services

    [DB] holds the tables the services read and write, one row record per
    table; a nullable text or uuid column keeps [""] for NULL (the services
    write it through [nullStr] and read it through [coalesce(col,'')]).

    A service method runs in [M]: it reads fresh uuids, the clock and the
    outcome of every database call from an environment, by the number of
    effects performed so far, so that a theorem over all environments covers
    every failure of every call. A transaction works on a copy of the committed
    tables; only [tx_Commit] publishes the copy. *)

From S2P Require Import Prelude GoStd AppErrors Events.

Local Open Scope Z_scope.

(** ** Rows *)

(** [customers.Customer] without its relations, which are their own tables. *)
Record Customer := MkCustomer {
  cu_ID : string;
  cu_TenantID : string;
  cu_DisplayName : string;
  cu_Company : string;
  cu_Language : string;
  cu_Timezone : string;
  cu_Attributes : dict;
  cu_CreatedAt : Z;
  cu_UpdatedAt : Z;
}.

(** [conversations.Conversation] *)
Record Conversation := MkConversation {
  cv_ID : string;
  cv_TenantID : string;
  cv_CustomerID : string;
  cv_Channel : string;
  cv_Status : string;
  cv_Subject : string;
  cv_AssignedAgentID : string;
  cv_AssignedQueueID : string;
  cv_UnreadCount : Z;
  cv_LastInteractionAt : option Z;
  cv_CreatedAt : Z;
  cv_UpdatedAt : Z;
  cv_ClosedAt : option Z;
}.

(** A row of [conversation_participants]: conversation, type, id. *)
Record Participant := MkParticipant {
  pt_ConversationID : string;
  pt_Type : string;
  pt_ID : string;
}.

(** [interactions.Rec], with the [updated_at] column. *)
Record Rec := MkRec {
  r_ID : string;
  r_TenantID : string;
  r_ConversationID : string;
  r_CustomerID : string;
  r_Channel : string;
  r_Direction : string;
  r_Status : string;
  r_Source : string;
  r_Destination : string;
  r_AssignedAgentID : string;
  r_AssignedQueueID : string;
  r_StartedAt : Z;
  r_AnsweredAt : option Z;
  r_EndedAt : option Z;
  r_EndReason : string;
  r_Provider : string;
  r_ProviderRef : string;
  r_IdempotencyKey : string;
  r_Attributes : dict;
  r_UpdatedAt : Z;
}.

(** [cases.Case] *)
Record Case := MkCase {
  ca_ID : string;
  ca_TenantID : string;
  ca_CustomerID : string;
  ca_Ref : string;
  ca_Subject : string;
  ca_Description : string;
  ca_Status : string;
  ca_Priority : string;
  ca_AssignedAgentID : string;
  ca_ResolvedAt : option Z;
  ca_ClosedAt : option Z;
  ca_CreatedAt : Z;
  ca_UpdatedAt : Z;
}.

(** [cases.Note] with its tenant column. *)
Record Note := MkNote {
  n_ID : string;
  n_CaseID : string;
  n_TenantID : string;
  n_AuthorType : string;
  n_AuthorID : string;
  n_Body : string;
  n_Internal : bool;
  n_CreatedAt : Z;
}.

(** A row of [customer_identifiers]: [customers.Identifier] with its tenant
    and customer columns. *)
Record Identifier := MkIdentifier {
  id_ID : string;
  id_TenantID : string;
  id_CustomerID : string;
  id_Type : string;
  id_Value : string;
  id_IsPrimary : bool;
  id_VerifiedAt : option Z;
  id_CreatedAt : Z;
}.

(** A row of [customer_tags]. *)
Record TagRow := MkTagRow {
  tg_TenantID : string;
  tg_CustomerID : string;
  tg_Tag : string;
}.

(** [agents.Skill] *)
Record Skill := MkSkill {
  sk_Skill : string;
  sk_Level : Z;
}.

(** [agents.Agent]: an agent row with its [agent_skills]. *)
Record AgentRow := MkAgentRow {
  ag_ID : string;
  ag_TenantID : string;
  ag_ExternalIdentity : string;
  ag_DisplayName : string;
  ag_Email : string;
  ag_Language : string;
  ag_Status : string;
  ag_Skills : list Skill;
  ag_CreatedAt : Z;
  ag_UpdatedAt : Z;
}.

(** [queues.Queue]: a queue row with its [queue_skills]. *)
Record Queue := MkQueue {
  q_ID : string;
  q_TenantID : string;
  q_Name : string;
  q_Description : string;
  q_Priority : Z;
  q_BusinessHours : dict;
  q_SLASeconds : Z;
  q_Status : string;
  q_Skills : list string;
  q_CreatedAt : Z;
  q_UpdatedAt : Z;
}.

(** [routing.Presence] with its tenant column. *)
Record PresenceRow := MkPresenceRow {
  pr_AgentID : string;
  pr_TenantID : string;
  pr_Status : string;
  pr_CurrentInteractionID : string;
  pr_UpdatedAt : Z;
}.

(** A row of [outbox_events]: the envelope and the dispatcher's columns. *)
Record OutboxRow := MkOutboxRow {
  ob_Env : Envelope;
  ob_Status : string;
  ob_Attempts : Z;
  ob_LeaseToken : string;
  ob_LeaseExpiresAt : option Z;
}.

(** [workflows.Instance] *)
Record Instance := MkInstance {
  wi_ID : string;
  wi_TenantID : string;
  wi_Type : string;
  wi_Status : string;
  wi_Payload : dict;
  wi_State : dict;
  wi_CurrentStep : string;
  wi_NextRunAt : option Z;
  wi_Attempts : Z;
  wi_Error : string;
  wi_CreatedAt : Z;
  wi_UpdatedAt : Z;
}.

(** A row of [workflow_steps]. *)
Record WfStep := MkWfStep {
  ws_InstanceID : string;
  ws_Step : string;
  ws_Detail : dict;
}.

(** A row of [routing_decisions]. *)
Record DecisionRow := MkDecisionRow {
  dr_ID : string;
  dr_TenantID : string;
  dr_InteractionID : string;
  dr_Inputs : string;
  dr_Candidates : string;
  dr_Outcome : string;
  dr_AssignedAgentID : string;
  dr_AssignedQueueID : string;
  dr_DecidedAt : Z;
  dr_LatencyMicros : Z;
}.

(** A row of [provider_events]. *)
Record ProviderEventRow := MkProviderEventRow {
  pe_ID : string;
  pe_Provider : string;
  pe_ProviderEventID : string;
  pe_Payload : string;
  pe_ReceivedAt : Z;
  pe_ProcessedAt : option Z;
}.

(** ** Tables: by primary key, or in insertion order *)

Record DB := MkDB {
  d_customers : gmap string Customer;
  d_identifiers : list Identifier;
  d_tags : list TagRow;
  d_conversations : gmap string Conversation;
  d_participants : list Participant;
  d_interactions : gmap string Rec;
  d_cases : gmap string Case;
  d_notes : list Note;
  d_case_links : list (string * string);
  d_agents : gmap string AgentRow;
  d_queues : gmap string Queue;
  d_presence : gmap string PresenceRow;
  d_decisions : list DecisionRow;
  d_outbox : list OutboxRow;
  d_workflows : gmap string Instance;
  d_wf_steps : list WfStep;
  d_provider_events : list ProviderEventRow;
}.

Definition empty_db : DB := MkDB ∅ [] [] ∅ [] ∅ ∅ [] [] ∅ ∅ ∅ [] [] ∅ [] [].

(** Table updates. *)
Definition set_customers u (d : DB) : DB :=
  MkDB (u (d_customers d)) (d_identifiers d) (d_tags d) (d_conversations d)
    (d_participants d) (d_interactions d) (d_cases d) (d_notes d) (d_case_links d)
    (d_agents d) (d_queues d) (d_presence d) (d_decisions d) (d_outbox d)
    (d_workflows d) (d_wf_steps d) (d_provider_events d).
Definition set_identifiers u (d : DB) : DB :=
  MkDB (d_customers d) (u (d_identifiers d)) (d_tags d) (d_conversations d)
    (d_participants d) (d_interactions d) (d_cases d) (d_notes d) (d_case_links d)
    (d_agents d) (d_queues d) (d_presence d) (d_decisions d) (d_outbox d)
    (d_workflows d) (d_wf_steps d) (d_provider_events d).
Definition set_tags u (d : DB) : DB :=
  MkDB (d_customers d) (d_identifiers d) (u (d_tags d)) (d_conversations d)
    (d_participants d) (d_interactions d) (d_cases d) (d_notes d) (d_case_links d)
    (d_agents d) (d_queues d) (d_presence d) (d_decisions d) (d_outbox d)
    (d_workflows d) (d_wf_steps d) (d_provider_events d).
Definition set_conversations u (d : DB) : DB :=
  MkDB (d_customers d) (d_identifiers d) (d_tags d) (u (d_conversations d))
    (d_participants d) (d_interactions d) (d_cases d) (d_notes d) (d_case_links d)
    (d_agents d) (d_queues d) (d_presence d) (d_decisions d) (d_outbox d)
    (d_workflows d) (d_wf_steps d) (d_provider_events d).
Definition set_participants u (d : DB) : DB :=
  MkDB (d_customers d) (d_identifiers d) (d_tags d) (d_conversations d)
    (u (d_participants d)) (d_interactions d) (d_cases d) (d_notes d) (d_case_links d)
    (d_agents d) (d_queues d) (d_presence d) (d_decisions d) (d_outbox d)
    (d_workflows d) (d_wf_steps d) (d_provider_events d).
Definition set_interactions u (d : DB) : DB :=
  MkDB (d_customers d) (d_identifiers d) (d_tags d) (d_conversations d)
    (d_participants d) (u (d_interactions d)) (d_cases d) (d_notes d) (d_case_links d)
    (d_agents d) (d_queues d) (d_presence d) (d_decisions d) (d_outbox d)
    (d_workflows d) (d_wf_steps d) (d_provider_events d).
Definition set_cases u (d : DB) : DB :=
  MkDB (d_customers d) (d_identifiers d) (d_tags d) (d_conversations d)
    (d_participants d) (d_interactions d) (u (d_cases d)) (d_notes d) (d_case_links d)
    (d_agents d) (d_queues d) (d_presence d) (d_decisions d) (d_outbox d)
    (d_workflows d) (d_wf_steps d) (d_provider_events d).
Definition set_notes u (d : DB) : DB :=
  MkDB (d_customers d) (d_identifiers d) (d_tags d) (d_conversations d)
    (d_participants d) (d_interactions d) (d_cases d) (u (d_notes d)) (d_case_links d)
    (d_agents d) (d_queues d) (d_presence d) (d_decisions d) (d_outbox d)
    (d_workflows d) (d_wf_steps d) (d_provider_events d).
Definition set_case_links u (d : DB) : DB :=
  MkDB (d_customers d) (d_identifiers d) (d_tags d) (d_conversations d)
    (d_participants d) (d_interactions d) (d_cases d) (d_notes d) (u (d_case_links d))
    (d_agents d) (d_queues d) (d_presence d) (d_decisions d) (d_outbox d)
    (d_workflows d) (d_wf_steps d) (d_provider_events d).
Definition set_agents u (d : DB) : DB :=
  MkDB (d_customers d) (d_identifiers d) (d_tags d) (d_conversations d)
    (d_participants d) (d_interactions d) (d_cases d) (d_notes d) (d_case_links d)
    (u (d_agents d)) (d_queues d) (d_presence d) (d_decisions d) (d_outbox d)
    (d_workflows d) (d_wf_steps d) (d_provider_events d).
Definition set_queues u (d : DB) : DB :=
  MkDB (d_customers d) (d_identifiers d) (d_tags d) (d_conversations d)
    (d_participants d) (d_interactions d) (d_cases d) (d_notes d) (d_case_links d)
    (d_agents d) (u (d_queues d)) (d_presence d) (d_decisions d) (d_outbox d)
    (d_workflows d) (d_wf_steps d) (d_provider_events d).
Definition set_presence u (d : DB) : DB :=
  MkDB (d_customers d) (d_identifiers d) (d_tags d) (d_conversations d)
    (d_participants d) (d_interactions d) (d_cases d) (d_notes d) (d_case_links d)
    (d_agents d) (d_queues d) (u (d_presence d)) (d_decisions d) (d_outbox d)
    (d_workflows d) (d_wf_steps d) (d_provider_events d).
Definition set_decisions u (d : DB) : DB :=
  MkDB (d_customers d) (d_identifiers d) (d_tags d) (d_conversations d)
    (d_participants d) (d_interactions d) (d_cases d) (d_notes d) (d_case_links d)
    (d_agents d) (d_queues d) (d_presence d) (u (d_decisions d)) (d_outbox d)
    (d_workflows d) (d_wf_steps d) (d_provider_events d).
Definition set_outbox u (d : DB) : DB :=
  MkDB (d_customers d) (d_identifiers d) (d_tags d) (d_conversations d)
    (d_participants d) (d_interactions d) (d_cases d) (d_notes d) (d_case_links d)
    (d_agents d) (d_queues d) (d_presence d) (d_decisions d) (u (d_outbox d))
    (d_workflows d) (d_wf_steps d) (d_provider_events d).
Definition set_workflows u (d : DB) : DB :=
  MkDB (d_customers d) (d_identifiers d) (d_tags d) (d_conversations d)
    (d_participants d) (d_interactions d) (d_cases d) (d_notes d) (d_case_links d)
    (d_agents d) (d_queues d) (d_presence d) (d_decisions d) (d_outbox d)
    (u (d_workflows d)) (d_wf_steps d) (d_provider_events d).
Definition set_wf_steps u (d : DB) : DB :=
  MkDB (d_customers d) (d_identifiers d) (d_tags d) (d_conversations d)
    (d_participants d) (d_interactions d) (d_cases d) (d_notes d) (d_case_links d)
    (d_agents d) (d_queues d) (d_presence d) (d_decisions d) (d_outbox d)
    (d_workflows d) (u (d_wf_steps d)) (d_provider_events d).
Definition set_provider_events u (d : DB) : DB :=
  MkDB (d_customers d) (d_identifiers d) (d_tags d) (d_conversations d)
    (d_participants d) (d_interactions d) (d_cases d) (d_notes d) (d_case_links d)
    (d_agents d) (d_queues d) (d_presence d) (d_decisions d) (d_outbox d)
    (d_workflows d) (d_wf_steps d) (u (d_provider_events d)).

(** ** The effect monad *)

(** What a run takes from outside: fresh identifiers ([uuid.NewString()] and the
    random tokens), [time.Now()] and
    PostgreSQL's [now()], and the driver error of a database call, each by the
    number of the effect; [uuid.Parse] success. *)
Record env := MkEnv {
  uuid_of : nat -> string;
  clock : nat -> Z;
  fault : nat -> option error;
  uuid_valid : string -> bool;
}.

Record st := MkSt {
  committed : DB;
  txn : option (DB * Z);
  steps : nat;
}.

Inductive result (A : Type) :=
| Ok (a : A)
| Err (e : Error).
Arguments Ok {A} a.
Arguments Err {A} e.

Definition M (A : Type) : Type := env -> st -> result A * st.

#[export] Instance M_ret : MRet M := fun A a _ s => (Ok a, s).
#[export] Instance M_bind : MBind M := fun A B f m e s =>
  match m e s with
  | (Ok a, s') => f a e s'
  | (Err x, s') => (Err x, s')
  end.

(** [return nil, err] *)
Definition throw {A} (x : Error) : M A := fun _ s => (Err x, s).

(** [if err := m; err != nil { return f(err) }] *)
Definition on_err {A} (m : M A) (f : Error -> Error) : M A := fun e s =>
  match m e s with
  | (Ok a, s') => (Ok a, s')
  | (Err x, s') => (Err (f x), s')
  end.

(** [v, err := m; if err != nil { return nil }] *)
Definition or_nil {A} (m : M A) : M (option A) := fun e s =>
  match m e s with
  | (Ok a, s') => (Ok (Some a), s')
  | (Err _, s') => (Ok None, s')
  end.

Definition bump (s : st) : st := MkSt (committed s) (txn s) (S (steps s)).

Definition uuid_NewString : M string := fun e s => (Ok (uuid_of e (steps s)), bump s).
Definition time_Now : M Z := fun e s => (Ok (clock e (steps s)), bump s).

(** A statement: from [now()] and the tables to the new tables and the number
    of rows affected; [None] is a unique violation (SQLSTATE 23505). *)
Definition stmt := Z -> DB -> option (DB * nat).

(** An [UPDATE ... RETURNING]: the rows come back with the result. *)
Definition stmt_returning (A : Type) := Z -> DB -> option (DB * A).

Inductive sqlerr :=
| UniqueViolation
| DriverError (err : error).

(** The outcome of a database call, as the code inspects it. *)
Inductive sqlres (A : Type) :=
| SqlOk (a : A)
| SqlErr (e : sqlerr).
Arguments SqlOk {A} a.
Arguments SqlErr {A} e.

(** [isUnique(err)] *)
Definition isUnique {A} (r : sqlres A) : bool :=
  match r with SqlErr UniqueViolation => true | _ => false end.

(** The [error] value of a failed call. *)
Definition sqlerr_error (e : sqlerr) : error :=
  match e with
  | UniqueViolation => OtherErr "unique violation (SQLSTATE 23505)" None
  | DriverError err => err
  end.

Definition pool_Query {A} (q : DB -> A) : M (sqlres A) := fun e s =>
  (Ok match fault e (steps s) with
      | Some err => SqlErr (DriverError err)
      | None => SqlOk (q (committed s))
      end, bump s).

Definition ErrTxClosed : error := OtherErr "tx is closed" None.

Definition tx_Query {A} (q : DB -> A) : M (sqlres A) := fun e s =>
  (Ok match fault e (steps s), txn s with
      | Some err, _ => SqlErr (DriverError err)
      | None, Some (d, _) => SqlOk (q d)
      | None, None => SqlErr (DriverError ErrTxClosed)
      end, bump s).

(** Autocommitted statement. *)
Definition pool_Exec (f : stmt) : M (sqlres nat) := fun e s =>
  match fault e (steps s) with
  | Some err => (Ok (SqlErr (DriverError err)), bump s)
  | None =>
      match f (clock e (steps s)) (committed s) with
      | None => (Ok (SqlErr UniqueViolation), bump s)
      | Some (d, n) => (Ok (SqlOk n), MkSt d (txn s) (S (steps s)))
      end
  end.

(** Autocommitted [UPDATE ... RETURNING], through [pool.Query]. *)
Definition pool_Returning {A} (f : stmt_returning A) : M (sqlres A) := fun e s =>
  match fault e (steps s) with
  | Some err => (Ok (SqlErr (DriverError err)), bump s)
  | None =>
      match f (clock e (steps s)) (committed s) with
      | None => (Ok (SqlErr UniqueViolation), bump s)
      | Some (d, a) => (Ok (SqlOk a), MkSt d (txn s) (S (steps s)))
      end
  end.

(** Statement of a transaction: [now()] is the start of the transaction. *)
Definition tx_Returning {A} (f : stmt_returning A) : M (sqlres A) := fun e s =>
  match fault e (steps s), txn s with
  | Some err, _ => (Ok (SqlErr (DriverError err)), bump s)
  | None, None => (Ok (SqlErr (DriverError ErrTxClosed)), bump s)
  | None, Some (d, t) =>
      match f t d with
      | None => (Ok (SqlErr UniqueViolation), bump s)
      | Some (d', n) => (Ok (SqlOk n), MkSt (committed s) (Some (d', t)) (S (steps s)))
      end
  end.

Definition tx_Exec (f : stmt) : M (sqlres nat) := tx_Returning f.

(** [tx.Commit(ctx)]: a failed commit leaves the tables as they were. *)
Definition tx_Commit : M (option error) := fun e s =>
  match fault e (steps s), txn s with
  | Some err, _ => (Ok (Some err), MkSt (committed s) None (S (steps s)))
  | None, None => (Ok (Some ErrTxClosed), bump s)
  | None, Some (d, _) => (Ok None, MkSt d None (S (steps s)))
  end.

(** [tx, err := s.pool.Begin(ctx)] with its error return, the rest of the
    method, and [defer tx.Rollback(...)]. *)
Definition with_tx {A} (msg : string) (body : M A) : M A := fun e s =>
  match fault e (steps s) with
  | Some err => (Err (WithCause (Internal "db.tx_failed" msg) err), bump s)
  | None =>
      let s0 := MkSt (committed s) (Some (committed s, clock e (steps s))) (S (steps s)) in
      let '(r, s') := body e s0 in
      (r, MkSt (committed s') None (steps s'))
  end.

(** [_, err = tx.Exec(...); if err != nil { return Internal(code, msg) }] *)
Definition exec_or {A} (r : sqlres A) (x : Error) : M A :=
  match r with
  | SqlOk a => mret a
  | SqlErr e => throw (WithCause x (sqlerr_error e))
  end.

(** [if err := tx.Commit(ctx); err != nil { return Internal(...) }] *)
Definition commit_or (msg : string) : M unit := fun e s =>
  match tx_Commit e s with
  | (Ok None, s') => (Ok (), s')
  | (Ok (Some err), s') => (Err (WithCause (Internal "db.commit_failed" msg) err), s')
  | (Err x, s') => (Err x, s')
  end.

(** ** Outbox writer (internal/platform/outbox/writer.go) *)

Definition insert_outbox (env : Envelope) : stmt := fun _ d =>
  if existsb (fun r => String.eqb (e_ID (ob_Env r)) (e_ID env)) (d_outbox d) then None
  else Some (set_outbox (fun l => l ++ [MkOutboxRow env "pending" 0 "" None]) d, 1%nat).

(** [(w *Writer) Insert(ctx, tx, env)] *)
Definition Writer_Insert (env : option Envelope) : M unit := fun e s =>
  match ValidatePtr (uuid_valid e) env, env with
  | Some msg, _ => (Err (Invalid "event.invalid_envelope" msg), s)
  | None, None => (Err (Invalid "event.invalid_envelope" "envelope is nil"), s)
  | None, Some v =>
      mbind (fun r =>
        match r with
        | SqlOk _ => mret ()
        | SqlErr x =>
            throw (WithCause (Internal "outbox.insert_failed" "event persistence failed")
                     (sqlerr_error x))
        end) (tx_Exec (insert_outbox v)) e s
  end.

(** [env, _ := events.New(topic, source, subject, tenantID, "", data)] *)
Definition events_New (topic source subject tenantID : string) (data : dict)
    : M (option Envelope) := fun e s =>
  (Ok (NewEnvelope (uuid_valid e) (uuid_of e (steps s)) (clock e (S (steps s)))
         topic source subject tenantID "" data),
   bump (bump s)).
