(* ===== verification/Sql.v ===== *)
(** * Statements and errors the services share

    Helpers of several services' SQL: nullable text ([nullStr], [coalesce]),
    the tenant-scoped reads of another component's table, and the errors of a
    failed read or write. *)

From Stdlib Require Import String.
From S2P Require Import Prelude GoStd AppErrors Store.

Local Open Scope Z_scope.

(** ** Values *)

Definition defaultStr (v def : string) : string := if is_empty v then def else v.

(** [coalesce($n, col)] with [$n = nullStr(v)]. *)
Definition coalesce_str (v col : string) : string := if is_empty v then col else v.

(** [coalesce($n, col)] for a nullable timestamp. *)
Definition coalesce_time (v col : option Z) : option Z := option_or v col.

(** ** Tenant-scoped reads *)

(** [SELECT EXISTS (SELECT 1 FROM customers WHERE id = $1 AND tenant_id = $2)] *)
Definition customer_exists (tenantID id : string) (d : DB) : bool :=
  match d_customers d !! id with
  | Some c => String.eqb (cu_TenantID c) tenantID
  | None => false
  end.

(** [SELECT ... FROM conversations WHERE id = $1 AND tenant_id = $2] *)
Definition sel_conversation (tenantID id : string) (d : DB) : option Conversation :=
  match d_conversations d !! id with
  | Some c => if String.eqb (cv_TenantID c) tenantID then Some c else None
  | None => None
  end.

(** [SELECT EXISTS (SELECT 1 FROM conversations WHERE id = $1 AND tenant_id = $2)] *)
Definition conversation_exists (tenantID id : string) (d : DB) : bool :=
  match sel_conversation tenantID id d with Some _ => true | None => false end.

(** ** Errors *)

Definition read_failed (e : sqlerr) : Error :=
  WithCause (Internal "db.read_failed" "read failed") (sqlerr_error e).

Definition write_failed (e : sqlerr) : Error :=
  WithCause (Internal "db.write_failed" "write failed") (sqlerr_error e).

(** ** Lemmas *)

Lemma sel_conversation_Some t id d c :
  sel_conversation t id d = Some c <-> d_conversations d !! id = Some c /\ cv_TenantID c = t.
Proof.
  unfold sel_conversation. destruct (d_conversations d !! id) as [c'|]; [|naive_solver].
  destruct (String.eqb_spec (cv_TenantID c') t); naive_solver.
Qed.

Lemma customer_exists_spec t id d :
  customer_exists t id d = true <->
  exists c, d_customers d !! id = Some c /\ cu_TenantID c = t.
Proof.
  unfold customer_exists. destruct (d_customers d !! id) as [c|]; [|naive_solver].
  rewrite String.eqb_eq. naive_solver.
Qed.

Lemma filter_insert_other {A} (P : string * A -> Prop) `{!forall x, Decision (P x)}
    (m : gmap string A) i x :
  ~ P (i, x) -> (forall y, m !! i = Some y -> ~ P (i, y)) ->
  filter P (<[i := x]> m) = filter P m.
Proof.
  intros Hx Hm. rewrite map_filter_insert. rewrite decide_False by done.
  rewrite map_filter_delete_not; [done|]. intros y Hy. by apply Hm.
Qed.

