(* ===== verification/Wp.v ===== *)
(** * Reasoning about service methods

    [wp m e s Q]: running [m] in environment [e] from state [s] ends in a
    result and a state satisfying [Q]. One lemma per effect turns a goal about
    a method into one goal per branch of its code; [wp_go] applies them. *)

From stdpp Require pretty.
From S2P Require Import Prelude GoStd AppErrors Events Store.

Definition wp {A} (m : M A) (e : env) (s : st) (Q : result A -> st -> Prop) : Prop :=
  let '(r, s') := m e s in Q r s'.

Section wp.
Context (e : env).
Implicit Types (s : st).

Lemma wp_run {A} (m : M A) s Q r s' : wp m e s Q -> m e s = (r, s') -> Q r s'.
Proof. unfold wp. intros H E. by rewrite E in H. Qed.

Lemma wp_mono {A} (m : M A) s (P Q : result A -> st -> Prop) :
  wp m e s P -> (forall r s', P r s' -> Q r s') -> wp m e s Q.
Proof. unfold wp. destruct (m e s). auto. Qed.

Lemma wp_ret {A} (a : A) s Q : Q (Ok a) s -> wp (mret a) e s Q.
Proof. done. Qed.

Lemma wp_throw {A} x s (Q : result A -> st -> Prop) : Q (Err x) s -> wp (throw x) e s Q.
Proof. done. Qed.

Lemma wp_bind {A B} (m : M A) (k : A -> M B) s Q :
  wp m e s (fun r s' => match r with
                        | Ok a => wp (k a) e s' Q
                        | Err x => Q (Err x) s'
                        end) ->
  wp (mbind k m) e s Q.
Proof. unfold wp, mbind, M_bind. by destruct (m e s) as [[a|x] s']. Qed.

Lemma wp_on_err {A} (m : M A) f s Q :
  wp m e s (fun r s' => match r with Ok a => Q (Ok a) s' | Err x => Q (Err (f x)) s' end) ->
  wp (on_err m f) e s Q.
Proof. unfold wp, on_err. by destruct (m e s) as [[a|x] s']. Qed.

Lemma wp_or_nil {A} (m : M A) s Q :
  wp m e s (fun r s' => match r with Ok a => Q (Ok (Some a)) s' | Err _ => Q (Ok None) s' end) ->
  wp (or_nil m) e s Q.
Proof. unfold wp, or_nil. by destruct (m e s) as [[a|x] s']. Qed.

Lemma wp_uuid s Q : Q (Ok (uuid_of e (steps s))) (bump s) -> wp uuid_NewString e s Q.
Proof. done. Qed.

Lemma wp_now s Q : Q (Ok (clock e (steps s))) (bump s) -> wp time_Now e s Q.
Proof. done. Qed.

Lemma wp_pool_Query {A} (q : DB -> A) s Q :
  (forall err, fault e (steps s) = Some err -> Q (Ok (SqlErr (DriverError err))) (bump s)) ->
  (fault e (steps s) = None -> Q (Ok (SqlOk (q (committed s)))) (bump s)) ->
  wp (pool_Query q) e s Q.
Proof. unfold wp, pool_Query. destruct (fault e (steps s)); auto. Qed.

Lemma wp_tx_Query {A} (q : DB -> A) c d t n Q :
  (forall err, fault e n = Some err ->
    Q (Ok (SqlErr (DriverError err))) (MkSt c (Some (d, t)) (S n))) ->
  (fault e n = None -> Q (Ok (SqlOk (q d))) (MkSt c (Some (d, t)) (S n))) ->
  wp (tx_Query q) e (MkSt c (Some (d, t)) n) Q.
Proof. unfold wp, tx_Query. simpl. destruct (fault e n); auto. Qed.

Lemma wp_pool_Exec f s Q :
  (forall err, fault e (steps s) = Some err -> Q (Ok (SqlErr (DriverError err))) (bump s)) ->
  (fault e (steps s) = None -> f (clock e (steps s)) (committed s) = None ->
    Q (Ok (SqlErr UniqueViolation)) (bump s)) ->
  (forall d k, fault e (steps s) = None ->
    f (clock e (steps s)) (committed s) = Some (d, k) ->
    Q (Ok (SqlOk k)) (MkSt d (txn s) (S (steps s)))) ->
  wp (pool_Exec f) e s Q.
Proof.
  unfold wp, pool_Exec. destruct (fault e (steps s)); [auto|].
  destruct (f _ _) as [[d k]|]; auto.
Qed.

Lemma wp_pool_Returning {A} (f : stmt_returning A) s Q :
  (forall err, fault e (steps s) = Some err -> Q (Ok (SqlErr (DriverError err))) (bump s)) ->
  (fault e (steps s) = None -> f (clock e (steps s)) (committed s) = None ->
    Q (Ok (SqlErr UniqueViolation)) (bump s)) ->
  (forall d a, fault e (steps s) = None ->
    f (clock e (steps s)) (committed s) = Some (d, a) ->
    Q (Ok (SqlOk a)) (MkSt d (txn s) (S (steps s)))) ->
  wp (pool_Returning f) e s Q.
Proof.
  unfold wp, pool_Returning. destruct (fault e (steps s)); [auto|].
  destruct (f _ _) as [[d a]|]; auto.
Qed.

Lemma wp_tx_Returning {A} (f : stmt_returning A) c d t n Q :
  (forall err, fault e n = Some err ->
    Q (Ok (SqlErr (DriverError err))) (MkSt c (Some (d, t)) (S n))) ->
  (fault e n = None -> f t d = None ->
    Q (Ok (SqlErr UniqueViolation)) (MkSt c (Some (d, t)) (S n))) ->
  (forall d' a, fault e n = None -> f t d = Some (d', a) ->
    Q (Ok (SqlOk a)) (MkSt c (Some (d', t)) (S n))) ->
  wp (tx_Returning f) e (MkSt c (Some (d, t)) n) Q.
Proof.
  unfold wp, tx_Returning. simpl. destruct (fault e n); [auto|].
  destruct (f t d) as [[d' k]|]; auto.
Qed.

Lemma wp_tx_Exec (f : stmt) c d t n Q :
  (forall err, fault e n = Some err ->
    Q (Ok (SqlErr (DriverError err))) (MkSt c (Some (d, t)) (S n))) ->
  (fault e n = None -> f t d = None ->
    Q (Ok (SqlErr UniqueViolation)) (MkSt c (Some (d, t)) (S n))) ->
  (forall d' k, fault e n = None -> f t d = Some (d', k) ->
    Q (Ok (SqlOk k)) (MkSt c (Some (d', t)) (S n))) ->
  wp (tx_Exec f) e (MkSt c (Some (d, t)) n) Q.
Proof. apply wp_tx_Returning. Qed.

Lemma wp_commit_or msg c d t n Q :
  (forall err, fault e n = Some err ->
    Q (Err (WithCause (Internal "db.commit_failed" msg) err)) (MkSt c None (S n))) ->
  (fault e n = None -> Q (Ok ()) (MkSt d None (S n))) ->
  wp (commit_or msg) e (MkSt c (Some (d, t)) n) Q.
Proof. unfold wp, commit_or, tx_Commit. simpl. destruct (fault e n); simpl; auto. Qed.

Lemma wp_with_tx {A} msg (body : M A) s Q :
  (forall err, fault e (steps s) = Some err ->
    Q (Err (WithCause (Internal "db.tx_failed" msg) err)) (bump s)) ->
  (fault e (steps s) = None ->
    wp body e (MkSt (committed s) (Some (committed s, clock e (steps s))) (S (steps s)))
      (fun r s' => Q r (MkSt (committed s') None (steps s')))) ->
  wp (with_tx msg body) e s Q.
Proof.
  unfold wp, with_tx. destruct (fault e (steps s)); [auto|].
  intros _ H. specialize (H eq_refl). by destruct (body _ _).
Qed.

Lemma wp_events_New topic source subject tenantID data s Q :
  Q (Ok (NewEnvelope (uuid_valid e) (uuid_of e (steps s)) (clock e (S (steps s)))
           topic source subject tenantID "" data)) (bump (bump s)) ->
  wp (events_New topic source subject tenantID data) e s Q.
Proof. done. Qed.

Lemma wp_Writer_Insert v c d t n Q :
  (forall x, Q (Err x) (MkSt c (Some (d, t)) n)) ->
  (forall x, Q (Err x) (MkSt c (Some (d, t)) (S n))) ->
  (forall env, v = Some env -> Validate (uuid_valid e) env = None -> fault e n = None ->
    Q (Ok ()) (MkSt c (Some (set_outbox (fun l => l ++ [MkOutboxRow env "pending" 0 "" None]) d, t))
                 (S n))) ->
  wp (Writer_Insert v) e (MkSt c (Some (d, t)) n) Q.
Proof.
  intros H1 H2 H3. unfold wp, Writer_Insert.
  destruct v as [env|]; simpl; [|apply H1].
  destruct (Validate (uuid_valid e) env) eqn:E; [apply H1|].
  unfold mbind, M_bind, tx_Exec, tx_Returning. simpl. destruct (fault e n) eqn:Ef; [apply H2|].
  unfold insert_outbox. destruct (existsb _ _); [apply H2|]. simpl.
  by apply H3.
Qed.
End wp.

Tactic Notation "intro_as" ident(base) := let x := fresh base in intro x.

(** One step: the effect at the head of the method. A call that fails gives
    [err] and [Hf], an executed statement its equation [Hx]. *)
Ltac wp_step :=
  lazymatch goal with
  | |- wp (mbind _ _) _ _ _ => apply wp_bind
  | |- wp (mret _) _ _ _ => apply wp_ret
  | |- wp (throw _) _ _ _ => apply wp_throw
  | |- wp (on_err _ _) _ _ _ => apply wp_on_err
  | |- wp (or_nil _) _ _ _ => apply wp_or_nil
  | |- wp uuid_NewString _ _ _ => apply wp_uuid
  | |- wp time_Now _ _ _ => apply wp_now
  | |- wp (pool_Query _) _ _ _ =>
      apply wp_pool_Query; [intro_as err; intro_as Hf|intro_as Hf]
  | |- wp (tx_Query _) _ _ _ =>
      apply wp_tx_Query; [intro_as err; intro_as Hf|intro_as Hf]
  | |- wp (pool_Exec _) _ _ _ =>
      apply wp_pool_Exec; [intro_as err; intro_as Hf|intro_as Hf; intro_as Hx
                          |intro_as db; intro_as k; intro_as Hf; intro_as Hx]
  | |- wp (pool_Returning _) _ _ _ =>
      apply wp_pool_Returning; [intro_as err; intro_as Hf|intro_as Hf; intro_as Hx
                               |intro_as db; intro_as a; intro_as Hf; intro_as Hx]
  | |- wp (tx_Exec _) _ _ _ =>
      apply wp_tx_Exec; [intro_as err; intro_as Hf|intro_as Hf; intro_as Hx
                        |intro_as db; intro_as k; intro_as Hf; intro_as Hx]
  | |- wp (tx_Returning _) _ _ _ =>
      apply wp_tx_Returning; [intro_as err; intro_as Hf|intro_as Hf; intro_as Hx
                             |intro_as db; intro_as a; intro_as Hf; intro_as Hx]
  | |- wp (commit_or _) _ _ _ =>
      apply wp_commit_or; [intro_as err; intro_as Hf|intro_as Hf]
  | |- wp (with_tx _ _) _ _ _ =>
      apply wp_with_tx; [intro_as err; intro_as Hf|intro_as Hf]
  | |- wp (events_New _ _ _ _ _) _ _ _ => apply wp_events_New
  | |- wp (Writer_Insert _) _ _ _ =>
      apply wp_Writer_Insert;
        [intro_as err|intro_as err
        |intro_as v; intro_as Hv; intro_as Hval; intro_as Hf]
  | |- wp (if ?b then _ else _) _ _ _ => let E := fresh "E" in destruct b eqn:E
  | |- wp (match ?x with _ => _ end) _ _ _ => let E := fresh "E" in destruct x eqn:E
  | |- wp (let _ := _ in _) _ _ _ => intro
  end.

Ltac wp_simpl := try unfold bump; cbn [committed txn steps exec_or isUnique].

(** All the steps; the goals left are the postcondition at each exit. *)
Ltac wp_go := repeat (first [wp_step | progress wp_simpl]).

(** The steps up to an outbox insert. *)
Ltac wp_go_insert :=
  repeat (lazymatch goal with
          | |- wp (Writer_Insert _) _ _ _ => fail
          | |- _ => first [wp_step | progress wp_simpl]
          end).

(** ** Runs without failures *)

(** No database call fails, generated uuids are valid. *)
Record healthy (e : env) : Prop := {
  healthy_fault : forall n, fault e n = None;
  healthy_uuid : forall n, uuid_valid e (uuid_of e n) = true;
}.

(** The uuids drawn from step [n] on are distinct and not yet event ids. *)
Record fresh (e : env) (n : nat) (d : DB) : Prop := {
  fresh_inj : forall i j, (n <= i)%nat -> uuid_of e i = uuid_of e j -> i = j;
  fresh_events : forall i o, (n <= i)%nat -> o ∈ d_outbox d -> e_ID (ob_Env o) <> uuid_of e i;
}.

(** An environment to run examples in: uuids are ["id-n"], the clock counts
    effects, nothing fails. *)
Definition env0 : env :=
  MkEnv (fun n => "id-" +:+ pretty.pretty n) Z.of_nat (fun _ => None) (fun _ => true).

(** The same environment in which the call at step [k] fails. *)
Definition env_fault (k : nat) : env :=
  MkEnv (uuid_of env0) (clock env0)
    (fun n => if Nat.eqb n k then Some (OtherErr "connection reset" None) else None)
    (fun _ => true).

Lemma env0_healthy : healthy env0.
Proof. by split. Qed.

Lemma env0_inj i j : uuid_of env0 i = uuid_of env0 j -> i = j.
Proof. cbn [env0 uuid_of]. intros H. by apply (inj (String.append "id-")), (inj pretty.pretty) in H. Qed.

Lemma env0_fresh n d : d_outbox d = [] -> fresh env0 n d.
Proof.
  intros H. split; [intros i j _; apply env0_inj|]. intros i o _. rewrite H. by intros ?%not_elem_of_nil.
Qed.

Lemma wp_events_New_ok e topic source subject tenantID data s Q :
  healthy e -> IsRegistered topic = true -> tenantID <> "" ->
  Q (Ok (Some (MkEnvelope (uuid_of e (steps s)) topic source subject tenantID ""
                 (clock e (S (steps s))) data))) (bump (bump s)) ->
  wp (events_New topic source subject tenantID data) e s Q.
Proof.
  intros [_ Hu] Ht Hn H. apply wp_events_New. by rewrite NewEnvelope_Some.
Qed.

Lemma wp_Writer_Insert_ok e v c d t n Q :
  healthy e -> Validate (uuid_valid e) v = None ->
  (forall o, o ∈ d_outbox d -> e_ID (ob_Env o) <> e_ID v) ->
  Q (Ok ()) (MkSt c (Some (set_outbox (fun l => l ++ [MkOutboxRow v "pending" 0 "" None]) d, t))
               (S n)) ->
  wp (Writer_Insert (Some v)) e (MkSt c (Some (d, t)) n) Q.
Proof.
  intros [Hf _] Hv Hfresh H. unfold wp, Writer_Insert. simpl. rewrite Hv.
  unfold mbind, M_bind, tx_Exec, tx_Returning. simpl. rewrite Hf. unfold insert_outbox.
  destruct (existsb _ _) eqn:Ex; [|done].
  apply existsb_exists in Ex as (o & Hin & Heq). apply list_elem_of_In in Hin.
  apply String.eqb_eq in Heq. by destruct (Hfresh _ Hin).
Qed.

(** In a healthy environment the failure goals are contradictory. *)
Ltac no_fault Hh :=
  match goal with
  | H : fault _ _ = Some _ |- _ => by rewrite (healthy_fault _ Hh) in H
  end.
