(* ===== verification/Outbox.v ===== *)
(** * internal/platform/outbox: the dispatcher, and its publish callback

    [Dispatcher]: claim, ack, releaseForRetry, Tick and Metrics of
    dispatcher.go over the store, with the publish function as a parameter;
    [publish_batch] is the callback cmd/worker passes. [Workers]: several
    dispatchers, interleaved statement by statement, with crashes. *)

From Stdlib Require Import String.
From S2P Require Import Prelude GoStd AppErrors Events Store Sql Wp.

Local Open Scope Z_scope.

(** ** Statements *)

Definition StatusPending := "pending".
Definition StatusPublishing := "publishing".
Definition StatusPublished := "published".
Definition StatusFailed := "failed".

(** [status = 'pending' OR (status = 'publishing' AND lease_expires_at < now())] *)
Definition claimable (now : Z) (r : OutboxRow) : bool :=
  String.eqb (ob_Status r) StatusPending
  || (String.eqb (ob_Status r) StatusPublishing
      && match ob_LeaseExpiresAt r with Some t => t <? now | None => false end).

Definition occurred_le (a b : OutboxRow) : Prop := e_Time (ob_Env a) <= e_Time (ob_Env b).

#[export] Instance occurred_le_dec a b : Decision (occurred_le a b).
Proof. unfold occurred_le. apply _. Defined.

Definition row_id (r : OutboxRow) : string := e_ID (ob_Env r).

(** The ids of the subselect: [ORDER BY occurred_at LIMIT $1]. *)
Definition select_ids (limit now : Z) (rows : list OutboxRow) : list string :=
  map row_id (take (Z.to_nat limit) (merge_sort occurred_le (List.filter (claimable now) rows))).

Definition lease (token : string) (r : OutboxRow) : OutboxRow :=
  MkOutboxRow (ob_Env r) StatusPublishing (ob_Attempts r + 1) token (ob_LeaseExpiresAt r).

Definition selected (ids : list string) (r : OutboxRow) : bool := bool_decide (row_id r ∈ ids).

(** The [UPDATE]: every row whose id was selected. *)
Definition claim_rows (ids : list string) (token : string) (rows : list OutboxRow)
    : list OutboxRow :=
  map (fun r => if selected ids r then lease token r else r) rows.

(** [RETURNING]: the updated rows. *)
Definition claimed (ids : list string) (token : string) (rows : list OutboxRow)
    : list OutboxRow :=
  map (lease token) (List.filter (selected ids) rows).

Definition upd_claim (limit : Z) (token : string) : stmt_returning (list OutboxRow) :=
  fun now d =>
    let ids := select_ids limit now (d_outbox d) in
    Some (set_outbox (claim_rows ids token) d, claimed ids token (d_outbox d)).

Definition has_token (token : string) (r : OutboxRow) : bool := String.eqb (ob_LeaseToken r) token.

Definition ack_row (r : OutboxRow) : OutboxRow :=
  MkOutboxRow (ob_Env r) StatusPublished (ob_Attempts r) "" (ob_LeaseExpiresAt r).

Definition ack_rows (token : string) (rows : list OutboxRow) : list OutboxRow :=
  map (fun r => if has_token token r then ack_row r else r) rows.

Definition upd_ack (token : string) : stmt := fun _ d =>
  Some (set_outbox (ack_rows token) d, length (List.filter (has_token token) (d_outbox d))).

(** [CASE WHEN attempts >= $2 THEN 'failed' ELSE 'pending' END], with the lease
    expiry 30 seconds ahead. *)
Definition retry_row (maxAttempts now : Z) (r : OutboxRow) : OutboxRow :=
  MkOutboxRow (ob_Env r) (if maxAttempts <=? ob_Attempts r then StatusFailed else StatusPending)
    (ob_Attempts r) "" (Some (now + 30 * 1000000000)).

Definition retry_rows (token : string) (maxAttempts now : Z) (rows : list OutboxRow)
    : list OutboxRow :=
  map (fun r => if has_token token r then retry_row maxAttempts now r else r) rows.

Definition upd_retry (token : string) (maxAttempts : Z) : stmt := fun now d =>
  Some (set_outbox (retry_rows token maxAttempts now) d,
        length (List.filter (has_token token) (d_outbox d))).

Definition count_status (status : string) (rows : list OutboxRow) : nat :=
  length (List.filter (fun r => String.eqb (ob_Status r) status) rows).

(** ** The dispatcher *)

(** [ClaimedBatch]; a [Row] is the envelope's columns and the attempt count. *)
Record ClaimedBatch := MkClaimedBatch {
  Token : string;
  Rows : list OutboxRow;
}.

Record Metrics := MkMetrics {
  Pending : nat;
  Publishing : nat;
  Failed : nat;
}.

Record Dispatcher := MkDispatcher {
  interval : Z;
  batchSize : Z;
  maxAttempts : Z;
}.

(** [NewDispatcher]: the defaults of the non-positive settings. *)
Definition NewDispatcher (interval batchSize maxAttempts : Z) : Dispatcher :=
  MkDispatcher (if interval <=? 0 then 1000000000 else interval)
    (if batchSize <=? 0 then 100 else batchSize)
    (if maxAttempts <=? 0 then 10 else maxAttempts).

Section Dispatch.
Variable d : Dispatcher.
(** The callback: what it published, and its error. *)
Variable publish : ClaimedBatch -> list Envelope * option error.

Definition dispatcher_error (code : string) (e : sqlerr) : Error :=
  WithCause (Internal code "dispatcher failed") (sqlerr_error e).

Definition claim : M ClaimedBatch :=
  with_tx "dispatcher failed" (
    token ← uuid_NewString;
    r ← tx_Returning (upd_claim (batchSize d) token);
    match r with
    | SqlErr x => throw (dispatcher_error "outbox.claim_failed" x)
    | SqlOk rows =>
        _ ← commit_or "dispatcher failed";
        mret (MkClaimedBatch token rows)
    end).

Definition ack (batch : ClaimedBatch) : M () :=
  r ← pool_Exec (upd_ack (Token batch));
  match r with
  | SqlErr x => throw (dispatcher_error "outbox.ack_failed" x)
  | SqlOk _ => mret ()
  end.

Definition releaseForRetry (batch : ClaimedBatch) : M () :=
  r ← pool_Exec (upd_retry (Token batch) (maxAttempts d));
  match r with
  | SqlErr x => throw (dispatcher_error "outbox.retry_failed" x)
  | SqlOk _ => mret ()
  end.

(** What a [Tick] published and the error it returns. *)
Definition Tick : M (list Envelope * option error) :=
  fun e s =>
  match claim e s with
  | (Err x, s') => (Ok ([], Some (AppErr x)), s')
  | (Ok batch, s') =>
      match Rows batch with
      | [] => (Ok ([], None), s')
      | _ =>
          match publish batch with
          | (sent, Some err) => (Ok (sent, Some err), snd (releaseForRetry batch e s'))
          | (sent, None) =>
              match ack batch e s' with
              | (Ok _, s2) => (Ok (sent, None), s2)
              | (Err x, s2) => (Ok (sent, Some (AppErr x)), s2)
              end
          end
      end
  end.

Definition read_metrics : M Metrics :=
  q ← pool_Query (fun db => MkMetrics (count_status StatusPending (d_outbox db))
                              (count_status StatusPublishing (d_outbox db))
                              (count_status StatusFailed (d_outbox db)));
  match q with
  | SqlErr x => throw (WithCause (Internal "db.read_failed" "metrics failed") (sqlerr_error x))
  | SqlOk m => mret m
  end.
End Dispatch.

(** The callback of cmd/worker: publish row by row, stop at the first error of
    the bus. A row whose payload does not decode is skipped ([continue]) and
    stays in the batch. *)
Section Worker.
(** [json.Unmarshal] of the row's payload succeeds; it gives the row's data. *)
Variable unmarshals : Envelope -> bool.
(** [theBus.Publish(ctx, env)] *)
Variable bus_Publish : Envelope -> option error.

Fixpoint publish_all (rows : list OutboxRow) : list Envelope * option error :=
  match rows with
  | [] => ([], None)
  | r :: rs =>
      if negb (unmarshals (ob_Env r)) then publish_all rs
      else
      match bus_Publish (ob_Env r) with
      | Some err => ([], Some err)
      | None => let '(sent, err) := publish_all rs in (ob_Env r :: sent, err)
      end
  end.

Definition publish_batch (b : ClaimedBatch) : list Envelope * option error :=
  publish_all (Rows b).
End Worker.

(** ** Several dispatchers *)

Module Workers.
(** A batch in a worker's hands: what is left to publish and what it has
    published or skipped. *)
Record Held := MkHeld {
  h_Token : string;
  h_Todo : list Envelope;
  h_Done : list Envelope;
}.

(** The table, the selections of claims under way, the batches, and every
    envelope handed to the bus so far. *)
Record Sys := MkSys {
  s_Rows : list OutboxRow;
  s_Selected : list (list string);
  s_Held : list Held;
  s_Sent : list Envelope;
}.

Section steps.
(** [json.Unmarshal] of an event's payload succeeds. *)
Variable unmarshals : Envelope -> bool.
(** [d.maxAttempts] *)
Variable maxAttempts : Z.

(** The claim's subselect and its update are separate moments: without
    [FOR UPDATE] a second worker may select the same ids in between, and
    PostgreSQL then updates the rows again. A worker may stop for good at
    any moment ([crash]): the process dies or the closing statement fails. *)
Inductive step : Sys -> Sys -> Prop :=
| step_insert v rows sel held sent :
    (forall r, r ∈ rows -> row_id r <> e_ID v) ->
    step (MkSys rows sel held sent)
         (MkSys (rows ++ [MkOutboxRow v StatusPending 0 "" None]) sel held sent)
| step_select now limit rows sel held sent :
    step (MkSys rows sel held sent)
         (MkSys rows (select_ids limit now rows :: sel) held sent)
| step_claim ids tok rows sel1 sel2 held sent :
    tok <> "" ->
    (forall r, r ∈ rows -> ob_LeaseToken r <> tok) ->
    (forall h, h ∈ held -> h_Token h <> tok) ->
    step (MkSys rows (sel1 ++ ids :: sel2) held sent)
         (MkSys (claim_rows ids tok rows) (sel1 ++ sel2)
            (MkHeld tok (map ob_Env (claimed ids tok rows)) [] :: held) sent)
| step_send tok v todo done_ rows sel held1 held2 sent :
    unmarshals v = true ->
    step (MkSys rows sel (held1 ++ MkHeld tok (v :: todo) done_ :: held2) sent)
         (MkSys rows sel (held1 ++ MkHeld tok todo (done_ ++ [v]) :: held2) (sent ++ [v]))
| step_skip tok v todo done_ rows sel held1 held2 sent :
    unmarshals v = false ->
    step (MkSys rows sel (held1 ++ MkHeld tok (v :: todo) done_ :: held2) sent)
         (MkSys rows sel (held1 ++ MkHeld tok todo (done_ ++ [v]) :: held2) sent)
| step_ack tok done_ rows sel held1 held2 sent :
    step (MkSys rows sel (held1 ++ MkHeld tok [] done_ :: held2) sent)
         (MkSys (ack_rows tok rows) sel (held1 ++ held2) sent)
| step_retry now h rows sel held1 held2 sent :
    step (MkSys rows sel (held1 ++ h :: held2) sent)
         (MkSys (retry_rows (h_Token h) maxAttempts now rows) sel (held1 ++ held2) sent)
| step_crash h rows sel held1 held2 sent :
    step (MkSys rows sel (held1 ++ h :: held2) sent)
         (MkSys rows sel (held1 ++ held2) sent)
| step_abandon ids rows sel1 sel2 held sent :
    step (MkSys rows (sel1 ++ ids :: sel2) held sent)
         (MkSys rows (sel1 ++ sel2) held sent).

Definition steps : Sys -> Sys -> Prop := rtc step.

(** The consistency of table, batches and publish log. *)
Record row_ok (sent : list Envelope) (r : OutboxRow) : Prop := {
  ok_status : ob_Status r ∈ [StatusPending; StatusPublishing; StatusPublished; StatusFailed];
  ok_token : ob_LeaseToken r <> "" -> ob_Status r = StatusPublishing;
  ok_attempts : 0 <= ob_Attempts r;
  ok_pending : ob_Status r = StatusPending -> ob_Attempts r < maxAttempts;
  ok_failed : ob_Status r = StatusFailed -> maxAttempts <= ob_Attempts r;
  ok_published : ob_Status r = StatusPublished -> ob_Env r ∈ sent \/ unmarshals (ob_Env r) = false;
}.

Record held_ok (rows : list OutboxRow) (sent : list Envelope) (h : Held) : Prop := {
  ok_htoken : h_Token h <> "";
  ok_envs : forall v, v ∈ h_Todo h ++ h_Done h -> v ∈ map ob_Env rows;
  ok_done : forall v, v ∈ h_Done h -> v ∈ sent \/ unmarshals v = false;
  ok_leased : forall r, r ∈ rows -> ob_LeaseToken r = h_Token h ->
    ob_Env r ∈ h_Todo h ++ h_Done h;
}.

Record inv (S : Sys) : Prop := {
  inv_ids : NoDup (map row_id (s_Rows S));
  inv_rows : forall r, r ∈ s_Rows S -> row_ok (s_Sent S) r;
  inv_sent : forall v, v ∈ s_Sent S -> v ∈ map ob_Env (s_Rows S) /\ unmarshals v = true;
  inv_held : forall h, h ∈ s_Held S -> held_ok (s_Rows S) (s_Sent S) h;
}.
End steps.
End Workers.

(** ** Lemmas: the updates keep ids and envelopes *)

Lemma map_env_update (P : OutboxRow -> bool) f rows :
  (forall r, ob_Env (f r) = ob_Env r) ->
  map ob_Env (map (fun r => if P r then f r else r) rows) = map ob_Env rows.
Proof. intros Hf. rewrite map_map. apply map_ext. intros r. destruct (P r); auto. Qed.

Lemma map_id_update (P : OutboxRow -> bool) f rows :
  (forall r, ob_Env (f r) = ob_Env r) ->
  map row_id (map (fun r => if P r then f r else r) rows) = map row_id rows.
Proof.
  intros Hf. unfold row_id. rewrite <- !(map_map ob_Env e_ID). by rewrite map_env_update.
Qed.

Lemma elem_of_update (P : OutboxRow -> bool) f rows r :
  r ∈ map (fun r => if P r then f r else r) rows ->
  exists r0, r0 ∈ rows /\ ((P r0 = true /\ r = f r0) \/ (P r0 = false /\ r = r0)).
Proof.
  intros H. apply list_elem_of_In, in_map_iff in H as (r0 & <- & H0). exists r0.
  split; [by apply list_elem_of_In|]. destruct (P r0); auto.
Qed.

Lemma elem_of_update_intro (P : OutboxRow -> bool) f rows r :
  r ∈ rows -> (if P r then f r else r) ∈ map (fun r => if P r then f r else r) rows.
Proof. intros H. apply list_elem_of_In, in_map_iff. exists r. split; [done|]. by apply list_elem_of_In. Qed.

Lemma has_token_true tok r : has_token tok r = true <-> ob_LeaseToken r = tok.
Proof. apply String.eqb_eq. Qed.

Lemma has_token_false tok r : has_token tok r = false <-> ob_LeaseToken r <> tok.
Proof. apply String.eqb_neq. Qed.

(** ** internal/platform/outbox: theorems

    Consistency of the table, the batches and the publish log over every
    interleaving of several dispatchers; the refinement of [Tick] to that
    system; draining; and the two ways the claim falls short. *)

Import Workers.

(** ** Lemmas: preservation *)

Section preservation.
Context (unm : Envelope -> bool).

Lemma row_ok_sent m sent sent' r :
  (forall v, v ∈ sent -> v ∈ sent') -> row_ok unm m sent r -> row_ok unm m sent' r.
Proof. intros H []. split; naive_solver. Qed.

(** Updating rows in place: the new rows are fine, and no row gains the token
    of a batch that does not list it. *)
Lemma update_inv m (P : OutboxRow -> bool) f rows sel sel' held held' sent :
  (forall r, ob_Env (f r) = ob_Env r) ->
  inv unm m (MkSys rows sel held sent) ->
  (forall r, r ∈ rows -> P r = true -> row_ok unm m sent r -> row_ok unm m sent (f r)) ->
  (forall h, h ∈ held' -> h_Token h <> ""
    /\ (forall v, v ∈ h_Todo h ++ h_Done h -> v ∈ map ob_Env rows)
    /\ (forall v, v ∈ h_Done h -> v ∈ sent \/ unm v = false)
    /\ (forall r, r ∈ rows -> P r = true -> ob_LeaseToken (f r) = h_Token h ->
          ob_Env r ∈ h_Todo h ++ h_Done h)
    /\ (forall r, r ∈ rows -> P r = false -> ob_LeaseToken r = h_Token h ->
          ob_Env r ∈ h_Todo h ++ h_Done h)) ->
  inv unm m (MkSys (map (fun r => if P r then f r else r) rows) sel' held' sent).
Proof.
  intros Hf [Hid Hrow Hsent Hheld] Hok Hh. split; simpl in *.
  - by rewrite map_id_update.
  - intros r Hr. apply elem_of_update in Hr as (r0 & H0 & [[HP ->]|[_ ->]]); auto.
  - intros v Hv. rewrite map_env_update by done. auto.
  - intros h Hin. destruct (Hh _ Hin) as (H1 & H2 & H3 & H4 & H5). split; [done| |done|].
    + by rewrite map_env_update.
    + intros r Hr Ht. apply elem_of_update in Hr as (r0 & H0 & [[HP ->]|[HP ->]]); [|auto].
      rewrite Hf. auto.
Qed.

(** Forgetting batches and selections. *)
Lemma inv_drop m rows sel sel' held held' sent :
  (forall h, h ∈ held' -> h ∈ held) ->
  inv unm m (MkSys rows sel held sent) -> inv unm m (MkSys rows sel' held' sent).
Proof. intros H [? ? ? Hh]. split; simpl in *; auto. Qed.

Lemma held_facts m rows sel held sent h :
  inv unm m (MkSys rows sel held sent) -> h ∈ held -> held_ok unm rows sent h.
Proof. intros [_ _ _ H]. apply H. Qed.

(** The next event of a batch is done with. *)
Lemma held_pass rows sent sent' tok v todo dn :
  held_ok unm rows sent (MkHeld tok (v :: todo) dn) -> (forall u, u ∈ sent -> u ∈ sent') ->
  v ∈ sent' \/ unm v = false -> held_ok unm rows sent' (MkHeld tok todo (dn ++ [v])).
Proof.
  intros [H1 H2 H3 H4] Hs Hv. simpl in *.
  assert (forall u, u ∈ todo ++ dn ++ [v] <-> u ∈ (v :: todo) ++ dn) as He
    by (intros u; rewrite !elem_of_app, !elem_of_cons; set_solver).
  split; simpl; [done| | |].
  - intros u Hu%He. by apply H2.
  - intros u [[Hu|Hu]%H3| ->%list_elem_of_singleton]%elem_of_app; auto.
  - intros r Hr E. by apply He, H4.
Qed.

Lemma step_inv m S S' : 0 < m -> inv unm m S -> step unm m S S' -> inv unm m S'.
Proof.
  intros Hm Hi Hs. destruct Hs as [v rows sel held sent Hv|now limit rows sel held sent
    |ids tok rows sel1 sel2 held sent Ht1 Ht2 Ht3|tok v todo dn rows sel h1 h2 sent Hu
    |tok v todo dn rows sel h1 h2 sent Hu|tok dn rows sel h1 h2 sent|now h rows sel h1 h2 sent|h rows sel h1 h2 sent
    |ids rows sel1 sel2 held sent].
  - destruct Hi as [Hid Hrow Hsent Hheld]. split; simpl in *.
    + rewrite map_app. apply NoDup_app. split; [done|]. split; [|apply NoDup_singleton].
      intros x Hx Hy. apply list_elem_of_singleton in Hy as ->.
      apply list_elem_of_In, in_map_iff in Hx as (r & E & Hr). apply list_elem_of_In in Hr.
      by apply (Hv _ Hr).
    + intros r [Hr|Hr]%elem_of_app; [by apply Hrow|]. apply list_elem_of_singleton in Hr as ->.
      split; simpl; try done; set_solver.
    + intros v' Hv'. rewrite map_app. split; [apply elem_of_app; left|]; by apply Hsent.
    + intros h Hh. destruct (Hheld _ Hh) as [H1 H2 H3 H4]. split; [done| |done|].
      * intros v' Hv'. rewrite map_app. apply elem_of_app. left. by apply H2.
      * intros r [Hr|Hr]%elem_of_app Ht; [by apply H4|].
        apply list_elem_of_singleton in Hr as ->. by destruct H1.
  - by eapply inv_drop; [|exact Hi].
  - unfold claim_rows. eapply update_inv; [done|exact Hi| |].
    + intros r Hr HP []. split; simpl; try done; [set_solver|lia].
    + intros h [->|Hh]%elem_of_cons; simpl; [split; [done|]|].
      * rewrite app_nil_r. split; [|split; [by intros v ?%not_elem_of_nil|]].
        -- intros v Hv. unfold claimed in Hv. rewrite map_map in Hv. simpl in Hv.
           apply list_elem_of_In, in_map_iff in Hv as (r & <- & Hr). apply filter_In in Hr as [Hr _].
           by apply list_elem_of_In, in_map.
        -- split; [|by intros r Hr _ E; destruct (Ht2 _ Hr)].
           intros r Hr HP _. unfold claimed. rewrite map_map. simpl.
           apply list_elem_of_In, in_map_iff. exists r. split; [done|]. apply filter_In.
           split; [by apply list_elem_of_In|done].
      * destruct (held_facts _ _ _ _ _ _ Hi Hh) as [H1 H2 H3 H4]. repeat split; auto.
        intros r Hr HP E. by destruct (Ht3 _ Hh).
  - pose proof (held_facts _ _ _ _ _ (MkHeld tok (v :: todo) dn) Hi ltac:(set_solver)) as [G1 G2 G3 G4].
    destruct Hi as [Hid Hrow Hsent Hheld]. simpl in *. split; simpl.
    + done.
    + intros r Hr. eapply row_ok_sent; [|by apply Hrow]. set_solver.
    + intros v' Hv'. apply elem_of_app in Hv' as [Hv'|Hv']; [by apply Hsent|].
      apply list_elem_of_singleton in Hv' as ->. split; [apply G2; set_solver|done].
    + intros h Hh. rewrite elem_of_app, elem_of_cons in Hh. destruct Hh as [Hh|[->|Hh]].
      2:{ eapply held_pass; [by apply (Hheld (MkHeld tok (v :: todo) dn)); set_solver| |left; set_solver].
          intros u Hu'. apply elem_of_app. by left. }
      all: destruct (Hheld h ltac:(set_solver)) as [H1 H2 H3 H4]; split; [done|done| |done];
        intros u [Hu'|Hu']%H3; [left; apply elem_of_app; by left|by right].
  - pose proof (held_facts _ _ _ _ _ (MkHeld tok (v :: todo) dn) Hi ltac:(set_solver)) as [G1 G2 G3 G4].
    destruct Hi as [Hid Hrow Hsent Hheld]. simpl in *. split; simpl; [done..|].
    intros h Hh. rewrite elem_of_app, elem_of_cons in Hh. destruct Hh as [Hh|[->|Hh]].
    2:{ eapply held_pass; [by apply (Hheld (MkHeld tok (v :: todo) dn)); set_solver|done|by right]. }
    all: apply Hheld; set_solver.
  - pose proof (held_facts _ _ _ _ _ (MkHeld tok [] dn) Hi ltac:(set_solver)) as [G1 G2 G3 G4].
    simpl in *. unfold ack_rows. eapply update_inv; [done|exact Hi| |].
    + intros r Hr HP []. apply has_token_true in HP. split; simpl; try done; [set_solver|].
      intros _. apply G3. by apply G4.
    + intros h Hh. destruct (held_facts _ _ _ _ _ h Hi ltac:(set_solver)) as [H1 H2 H3 H4].
      split; [done|]. split; [done|]. split; [done|]. split; [|auto]. simpl. intros r _ _ E. by destruct H1.
  - unfold retry_rows. eapply update_inv; [done|exact Hi| |].
    + intros r Hr HP []. split; simpl; try done; destruct (Z.leb_spec m (ob_Attempts r)); try done; set_solver.
    + intros h' Hh. destruct (held_facts _ _ _ _ _ h' Hi ltac:(set_solver)) as [H1 H2 H3 H4].
      split; [done|]. split; [done|]. split; [done|]. split; [|auto]. simpl. intros r _ _ E. by destruct H1.
  - eapply inv_drop; [|exact Hi]. set_solver.
  - by eapply inv_drop; [|exact Hi].
Qed.

Lemma steps_inv m S S' : 0 < m -> steps unm m S S' -> inv unm m S -> inv unm m S'.
Proof. intros Hm. induction 1; eauto using step_inv. Qed.

(** Rows are kept, with their envelopes, and the log only grows. *)
Lemma step_keeps m S S' v :
  step unm m S S' -> v ∈ map ob_Env (s_Rows S) -> v ∈ map ob_Env (s_Rows S').
Proof.
  intros Hs. destruct Hs; simpl; try done; unfold claim_rows, ack_rows, retry_rows;
    rewrite ?map_env_update by done; try done.
  rewrite map_app. set_solver.
Qed.

Lemma steps_keep m S S' v :
  steps unm m S S' -> v ∈ map ob_Env (s_Rows S) -> v ∈ map ob_Env (s_Rows S').
Proof. induction 1; eauto using step_keeps. Qed.

(** ** Lemmas: an orphaned first lease *)

(** The row is leased with no expiry by a worker that is gone, and no claim
    under way selected it. *)
Record orphan (S : Sys) (r : OutboxRow) : Prop := {
  or_row : r ∈ s_Rows S;
  or_status : ob_Status r = StatusPublishing;
  or_expiry : ob_LeaseExpiresAt r = None;
  or_token : ob_LeaseToken r <> "";
  or_gone : forall h, h ∈ s_Held S -> h_Token h <> ob_LeaseToken r;
  or_unselected : forall ids, ids ∈ s_Selected S -> row_id r ∉ ids;
  or_unheld : forall h, h ∈ s_Held S -> ob_Env r ∉ h_Todo h;
}.

Lemma elem_select_ids limit now rows i :
  i ∈ select_ids limit now rows -> exists r, r ∈ rows /\ row_id r = i /\ claimable now r = true.
Proof.
  intros H. apply list_elem_of_In, in_map_iff in H as (r & <- & Hr).
  apply list_elem_of_In in Hr.
  apply elem_of_take in Hr as (k & Hk & _). apply list_elem_of_lookup_2 in Hk.
  rewrite merge_sort_Permutation in Hk. apply list_elem_of_In, filter_In in Hk as [Hk Hc].
  exists r. by rewrite list_elem_of_In.
Qed.

Lemma same_id rows r r' :
  NoDup (map row_id rows) -> r ∈ rows -> r' ∈ rows -> row_id r = row_id r' -> r = r'.
Proof.
  induction rows as [|x rows IH]; intros Hnd Hr Hr' E; [set_solver|].
  apply NoDup_cons in Hnd as [Hx Hnd].
  assert (forall q, q ∈ rows -> row_id q ∈ map row_id rows) as Hin
    by (intros q Hq; by apply list_elem_of_In, in_map, list_elem_of_In).
  apply elem_of_cons in Hr as [->|Hr], Hr' as [->|Hr']; try done; auto.
  - destruct Hx. rewrite E. auto.
  - destruct Hx. rewrite <- E. auto.
Qed.

Lemma orphan_step m S S' r :
  inv unm m S -> orphan S r -> step unm m S S' ->
  orphan S' r /\ (ob_Env r ∈ s_Sent S' -> ob_Env r ∈ s_Sent S).
Proof.
  intros Hi [O1 O2 O3 O4 O5 O6 O7] Hs.
  destruct Hs as [v rows sel held sent Hv|now limit rows sel held sent
    |ids tok rows sel1 sel2 held sent Ht1 Ht2 Ht3|tok v todo dn rows sel h1 h2 sent Hu
    |tok v todo dn rows sel h1 h2 sent Hu|tok dn rows sel h1 h2 sent|now h rows sel h1 h2 sent|h rows sel h1 h2 sent
    |ids rows sel1 sel2 held sent]; simpl in *.
  - split; [|done]. split; simpl; set_solver.
  - split; [|done]. split; simpl; try done.
    intros ids [->|Hids]%elem_of_cons; [|by apply O6]. intros Hin.
    apply elem_select_ids in Hin as (r' & Hr' & E & Hc).
    assert (r' = r) as -> by (by eapply same_id; [apply (inv_ids _ _ _ Hi)|..]).
    unfold claimable in Hc. rewrite O2, O3 in Hc. discriminate.
  - assert (row_id r ∉ ids) as Hni by (apply O6; set_solver). split; [|done].
    split; simpl; try done.
    + pose proof (elem_of_update_intro (selected ids) (lease tok) _ _ O1) as H.
      unfold selected in H at 1. by rewrite bool_decide_false in H.
    + intros h [->|Hh]%elem_of_cons; [|by apply O5]. simpl. intros E.
      by destruct (Ht2 _ O1).
    + set_solver.
    + intros h [->|Hh]%elem_of_cons; [|by apply O7]. simpl. unfold claimed. rewrite map_map. simpl.
      intros Hin. apply list_elem_of_In, in_map_iff in Hin as (r' & E & Hr').
      apply filter_In in Hr' as [_ Hsel]. apply bool_decide_eq_true in Hsel.
      unfold row_id in *. by rewrite E in Hsel.
  - assert (v <> ob_Env r) as Hv.
    { intros ->. apply (O7 (MkHeld tok (ob_Env r :: todo) dn)); simpl; set_solver. }
    split; [|set_solver]. split; simpl; try done.
    + intros h Hh. rewrite elem_of_app, elem_of_cons in Hh. destruct Hh as [Hh|[->|Hh]];
        [apply O5; set_solver| |apply O5; set_solver].
      apply (O5 (MkHeld tok (v :: todo) dn)). set_solver.
    + intros h Hh. rewrite elem_of_app, elem_of_cons in Hh. destruct Hh as [Hh|[->|Hh]];
        [apply O7; set_solver| |apply O7; set_solver].
      assert (ob_Env r ∉ v :: todo) by (apply (O7 (MkHeld tok (v :: todo) dn)); set_solver).
      simpl. set_solver.
  - split; [|done]. split; simpl; try done.
    + intros h Hh. rewrite elem_of_app, elem_of_cons in Hh. destruct Hh as [Hh|[->|Hh]];
        [apply O5; set_solver| |apply O5; set_solver].
      apply (O5 (MkHeld tok (v :: todo) dn)). set_solver.
    + intros h Hh. rewrite elem_of_app, elem_of_cons in Hh. destruct Hh as [Hh|[->|Hh]];
        [apply O7; set_solver| |apply O7; set_solver].
      assert (ob_Env r ∉ v :: todo) by (apply (O7 (MkHeld tok (v :: todo) dn)); set_solver).
      simpl. set_solver.
  - assert (ob_LeaseToken r <> tok) as Hne
      by (intros E; apply (O5 (MkHeld tok [] dn)); [set_solver|done]).
    split; [|done]. split; simpl; try done; [|set_solver..].
    pose proof (elem_of_update_intro (has_token tok) ack_row _ _ O1) as H.
    rewrite (proj2 (has_token_false _ _) Hne) in H. exact H.
  - assert (ob_LeaseToken r <> h_Token h) as Hne
      by (intros E; apply (O5 h); [set_solver|done]).
    split; [|done]. split; simpl; try done; [|set_solver..].
    pose proof (elem_of_update_intro (has_token (h_Token h)) (retry_row m now) _ _ O1) as H.
    rewrite (proj2 (has_token_false _ _) Hne) in H. exact H.
  - split; [|done]. split; simpl; try done; set_solver.
  - split; [|done]. split; simpl; try done; set_solver.
Qed.
End preservation.

(** ** Lemmas: the executable dispatcher *)

Lemma wp_claim d e s Q :
  (forall x s', committed s' = committed s -> Q (Err x) s') ->
  (forall n, let tok := uuid_of e (S (Store.steps s)) in
     let rows := d_outbox (committed s) in
     let ids := select_ids (batchSize d) (clock e (Store.steps s)) rows in
     Q (Ok (MkClaimedBatch tok (claimed ids tok rows)))
       (MkSt (set_outbox (claim_rows ids tok) (committed s)) None n)) ->
  wp (claim d) e s Q.
Proof.
  intros H1 H2. unfold claim. wp_go; try by (apply H1). unfold upd_claim in Hx.
  injection Hx as <- <-. apply H2.
Qed.

Lemma wp_ack e s b Q :
  (forall x s', committed s' = committed s -> Q (Err x) s') ->
  (forall s', committed s' = set_outbox (ack_rows (Token b)) (committed s) -> Q (Ok ()) s') ->
  wp (ack b) e s Q.
Proof.
  intros H1 H2. unfold ack. wp_go; try by (apply H1).
  unfold upd_ack in Hx. injection Hx as <- <-. by apply H2.
Qed.

Lemma wp_releaseForRetry d e s b Q :
  (forall x s', committed s' = committed s -> Q (Err x) s') ->
  (forall now s', committed s' = set_outbox (retry_rows (Token b) (maxAttempts d) now) (committed s) ->
     Q (Ok ()) s') ->
  wp (releaseForRetry d b) e s Q.
Proof.
  intros H1 H2. unfold releaseForRetry. wp_go; try by (apply H1).
  unfold upd_retry in Hx. injection Hx as <- <-. by eapply H2.
Qed.

Lemma publish_all_prefix unm bus rows sent err :
  publish_all unm bus rows = (sent, err) ->
  exists dn rest, map ob_Env rows = dn ++ rest /\ sent = List.filter unm dn /\ (err = None -> rest = []).
Proof.
  revert sent err. induction rows as [|r rows IH]; intros sent err; simpl.
  - intros [= <- <-]. by exists [], [].
  - destruct (unm (ob_Env r)) eqn:Eu; cbn [negb]; [destruct (bus (ob_Env r)) as [x|]|].
    + intros [= <- <-]. by exists [], (ob_Env r :: map ob_Env rows).
    + destruct (publish_all unm bus rows) as [sent' err'] eqn:E. intros [= <- <-].
      destruct (IH _ _ eq_refl) as (dn & rest & E1 & -> & E3). exists (ob_Env r :: dn), rest. simpl. by rewrite E1, Eu.
    + intros H. destruct (IH _ _ H) as (dn & rest & E1 & -> & E3). exists (ob_Env r :: dn), rest. simpl.
      by rewrite E1, Eu.
Qed.

(** A run of sends and skips. *)
Lemma steps_pass unm m tok l todo dn rows sel held sent :
  steps unm m (MkSys rows sel (MkHeld tok (l ++ todo) dn :: held) sent)
              (MkSys rows sel (MkHeld tok todo (dn ++ l) :: held) (sent ++ List.filter unm l)).
Proof.
  revert dn sent. induction l as [|v l IH]; intros dn sent; simpl.
  - by rewrite !app_nil_r.
  - destruct (unm v) eqn:Ev.
    + eapply rtc_l; [by apply (step_send unm m tok v (l ++ todo) dn rows sel [] held sent)|].
      specialize (IH (dn ++ [v]) (sent ++ [v])). by rewrite <- !app_assoc in IH.
    + eapply rtc_l; [by apply (step_skip unm m tok v (l ++ todo) dn rows sel [] held sent)|].
      specialize (IH (dn ++ [v]) sent). by rewrite <- !app_assoc in IH.
Qed.

Lemma steps_claim unm m limit now tok rows sel held sent :
  tok <> "" -> (forall r, r ∈ rows -> ob_LeaseToken r <> tok) ->
  (forall h, h ∈ held -> h_Token h <> tok) ->
  let ids := select_ids limit now rows in
  steps unm m (MkSys rows sel held sent)
    (MkSys (claim_rows ids tok rows) sel (MkHeld tok (map ob_Env (claimed ids tok rows)) [] :: held)
       sent).
Proof.
  intros H1 H2 H3 ids. eapply rtc_l; [apply (step_select unm m now limit)|].
  apply rtc_once, (step_claim unm m ids tok rows [] sel); done.
Qed.

(** What a [Tick] leaves behind is reachable, one statement at a time. *)
Lemma Tick_steps unm d bus e s sel held sent :
  uuid_of e (S (Store.steps s)) <> "" ->
  (forall r, r ∈ d_outbox (committed s) -> ob_LeaseToken r <> uuid_of e (S (Store.steps s))) ->
  (forall h, h ∈ held -> h_Token h <> uuid_of e (S (Store.steps s))) ->
  let '(res, s') := Tick d (publish_batch unm bus) e s in
  exists out, fst <$> (match res with Ok a => Some a | Err _ => None end) = Some out /\
  Workers.steps unm (maxAttempts d) (MkSys (d_outbox (committed s)) sel held sent)
    (MkSys (d_outbox (committed s')) sel held (sent ++ out)).
Proof.
  intros H1 H2 H3. unfold Tick.
  assert (wp (claim d) e s (fun res s' =>
    match res with
    | Err x => committed s' = committed s
    | Ok b => Token b = uuid_of e (S (Store.steps s)) /\
       Workers.steps unm (maxAttempts d) (MkSys (d_outbox (committed s)) sel held sent)
         (MkSys (d_outbox (committed s')) sel (MkHeld (Token b) (map ob_Env (Rows b)) [] :: held) sent)
    end)) as Hc.
  { apply wp_claim; [done|]. intros n. simpl. split; [done|]. by apply steps_claim. }
  unfold wp in Hc. destruct (claim d e s) as [[b|x] s1].
  2:{ exists []. rewrite app_nil_r, Hc. done. }
  destruct Hc as [Htok Hc]. destruct (Rows b) as [|r rs] eqn:Er.
  { exists []. split; [done|]. rewrite app_nil_r. etransitivity; [exact Hc|].
    apply rtc_once, (step_crash _ _ _ _ sel [] held). }
  rewrite <- Er in *. unfold publish_batch. destruct (publish_all unm bus (Rows b)) as [out err] eqn:Ep.
  destruct (publish_all_prefix _ _ _ _ _ Ep) as (dn & rest & Eenv & -> & Hrest).
  rewrite Eenv in Hc.
  assert (Workers.steps unm (maxAttempts d) (MkSys (d_outbox (committed s)) sel held sent)
    (MkSys (d_outbox (committed s1)) sel (MkHeld (Token b) rest dn :: held) (sent ++ List.filter unm dn))) as Hsend.
  { etransitivity; [exact Hc|]. apply steps_pass. }
  destruct err as [x|].
  - eexists. split; [done|].
    assert (wp (releaseForRetry d b) e s1 (fun _ s' =>
      Workers.steps unm (maxAttempts d) (MkSys (d_outbox (committed s)) sel held sent)
        (MkSys (d_outbox (committed s')) sel held (sent ++ List.filter unm dn)))) as Hr.
    { apply wp_releaseForRetry.
      - intros x' s' ->. eapply rtc_r; [exact Hsend|]. apply (step_crash _ _ _ _ sel [] held).
      - intros now s' ->. eapply rtc_r; [exact Hsend|].
        apply (step_retry unm (maxAttempts d) now (MkHeld (Token b) rest dn) _ sel [] held). }
    unfold wp in Hr. by destruct (releaseForRetry d b e s1).
  - rewrite (Hrest eq_refl) in Hsend.
    assert (wp (ack b) e s1 (fun _ s' =>
      Workers.steps unm (maxAttempts d) (MkSys (d_outbox (committed s)) sel held sent)
        (MkSys (d_outbox (committed s')) sel held (sent ++ List.filter unm dn)))) as Hr.
    { apply wp_ack.
      - intros x' s' ->. eapply rtc_r; [exact Hsend|]. apply (step_crash _ _ _ _ sel [] held).
      - intros s' ->. eapply rtc_r; [exact Hsend|].
        apply (step_ack unm (maxAttempts d) (Token b) dn _ sel [] held). }
    unfold wp in Hr. destruct (ack b e s1) as [[]]; by eexists.
Qed.

(** ** Lemmas: draining *)

Definition pending (r : OutboxRow) : bool := String.eqb (ob_Status r) StatusPending.

(** The row of an event delivered at its next attempt. *)
Definition delivered (r : OutboxRow) : OutboxRow :=
  MkOutboxRow (ob_Env r) StatusPublished (ob_Attempts r + 1) "" (ob_LeaseExpiresAt r).

(** No batch is in flight. *)
Definition idle (rows : list OutboxRow) : Prop :=
  NoDup (map row_id rows)
  /\ forall r, r ∈ rows -> ob_LeaseToken r = "" /\ ob_Status r <> StatusPublishing.

(** [k] ticks in a row, and everything they published. *)
Fixpoint ticks (unm : Envelope -> bool) (d : Dispatcher) (bus : Envelope -> option error) (k : nat) (e : env) (s : st)
    : list Envelope * st :=
  match k with
  | O => ([], s)
  | S k' =>
      let '(res, s') := Tick d (publish_batch unm bus) e s in
      let '(out, s2) := ticks unm d bus k' e s' in
      (match res with Ok (sent, _) => sent | Err _ => [] end ++ out, s2)
  end.

Lemma claimable_pending now rows r : idle rows -> r ∈ rows -> claimable now r = pending r.
Proof.
  intros [_ H] Hr. destruct (H _ Hr) as [_ Hs]. unfold claimable, pending.
  apply String.eqb_neq in Hs. rewrite Hs. by rewrite orb_false_r.
Qed.

Lemma List_filter_ext_in {A} (f g : A -> bool) l :
  (forall x, x ∈ l -> f x = g x) -> List.filter f l = List.filter g l.
Proof.
  intros H. apply filter_ext_in. intros x Hx. apply H. by apply list_elem_of_In.
Qed.

Lemma select_ids_pending limit now rows :
  idle rows ->
  select_ids limit now rows
  = map row_id (take (Z.to_nat limit) (merge_sort occurred_le (List.filter pending rows))).
Proof.
  intros Hi. unfold select_ids. do 3 f_equal. apply List_filter_ext_in.
  intros r Hr. by eapply claimable_pending.
Qed.

Lemma selected_pending limit now rows r :
  idle rows -> r ∈ rows -> selected (select_ids limit now rows) r = true -> pending r = true.
Proof.
  intros Hi Hr Hs. apply bool_decide_eq_true in Hs. apply elem_select_ids in Hs as (r' & Hr' & E & Hc).
  assert (r' = r) as -> by (eapply same_id; [apply Hi|done..]).
  by rewrite (claimable_pending _ _ _ Hi Hr) in Hc.
Qed.

Lemma NoDup_sub_ids (P : OutboxRow -> bool) rows :
  NoDup (map row_id rows) -> NoDup (map row_id (List.filter P rows)).
Proof.
  induction rows as [|r rows IH]; intros H; [done|]. apply NoDup_cons in H as [Hr H]. simpl.
  destruct (P r); [|auto]. simpl. apply NoDup_cons. split; [|auto]. intros Hin. apply Hr.
  apply list_elem_of_In, in_map_iff in Hin as (q & E & Hq). apply filter_In in Hq as [Hq _].
  rewrite <- E. by apply list_elem_of_In, in_map.
Qed.

(** A claim takes as many rows as the limit allows. *)
Lemma length_selected limit now rows :
  idle rows ->
  (Nat.min (Z.to_nat limit) (length (List.filter pending rows))
   <= length (List.filter (selected (select_ids limit now rows)) rows))%nat.
Proof.
  intros Hi. set (ids := select_ids limit now rows).
  assert (length ids = Nat.min (Z.to_nat limit) (length (List.filter pending rows))) as <-.
  { unfold ids. rewrite select_ids_pending by done. rewrite length_map, length_take.
    by rewrite (Permutation_length (merge_sort_Permutation _ _)). }
  rewrite <- (length_map row_id (List.filter _ _)). apply NoDup_incl_length.
  - unfold ids. apply NoDup_ListNoDup. rewrite select_ids_pending by done.
    assert (NoDup (map row_id (merge_sort occurred_le (List.filter pending rows)))) as Hnd.
    { rewrite (Permutation_map row_id (merge_sort_Permutation occurred_le _)).
      apply NoDup_sub_ids, Hi. }
    rewrite <- (take_drop (Z.to_nat limit) (merge_sort _ _)), map_app in Hnd.
    by apply NoDup_app in Hnd as [Hnd _].
  - intros i Hin. apply list_elem_of_In in Hin. pose proof Hin as Hin'.
    apply elem_select_ids in Hin' as (r & Hr & <- & _). apply in_map, filter_In.
    split; [by apply list_elem_of_In|]. by apply bool_decide_eq_true.
Qed.

Lemma filter_split (f g : OutboxRow -> bool) rows :
  (forall r, r ∈ rows -> g r = true -> f r = true) ->
  Permutation (List.filter f rows)
    (List.filter g rows ++ List.filter (fun r => f r && negb (g r)) rows).
Proof.
  induction rows as [|r rows IH]; intros H; [done|].
  assert (Permutation (List.filter f rows)
    (List.filter g rows ++ List.filter (fun r => f r && negb (g r)) rows)) as E
    by (apply IH; set_solver).
  simpl. pose proof (H r ltac:(set_solver)) as Hr.
  destruct (g r) eqn:Eg; [rewrite (Hr eq_refl); simpl; by f_equiv|].
  destruct (f r); simpl; [|done]. rewrite E. by rewrite Permutation_middle.
Qed.

(** One tick when nothing fails. *)
Definition after_tick (ids : list string) (rows : list OutboxRow) : list OutboxRow :=
  map (fun r => if selected ids r then delivered r else r) rows.

Lemma ack_claim ids tok rows :
  tok <> "" -> (forall r, r ∈ rows -> ob_LeaseToken r = "") ->
  ack_rows tok (claim_rows ids tok rows) = after_tick ids rows.
Proof.
  intros Ht H. unfold ack_rows, claim_rows, after_tick. rewrite map_map.
  apply map_ext_in. intros r Hr. apply list_elem_of_In in Hr.
  destruct (selected ids r).
  - unfold has_token. simpl. by rewrite String.eqb_refl.
  - unfold has_token. rewrite (H _ Hr). apply not_eq_sym, String.eqb_neq in Ht. by rewrite Ht.
Qed.

Lemma publish_all_ok unm bus rows :
  (forall r, r ∈ rows -> unm (ob_Env r) = true -> bus (ob_Env r) = None) ->
  publish_all unm bus rows = (List.filter unm (map ob_Env rows), None).
Proof.
  induction rows as [|r rows IH]; intros H; simpl; [done|]. specialize (IH ltac:(set_solver)).
  destruct (unm (ob_Env r)) eqn:E; simpl; [|done]. rewrite H, IH by (done || set_solver). done.
Qed.

Lemma wp_Tick_ok unm d bus e s Q :
  healthy e -> (forall r, r ∈ d_outbox (committed s) -> unm (ob_Env r) = true -> bus (ob_Env r) = None) ->
  (forall n, uuid_of e n <> "") -> idle (d_outbox (committed s)) ->
  (forall s', let ids := select_ids (batchSize d) (clock e (Store.steps s)) (d_outbox (committed s)) in
     d_outbox (committed s') = after_tick ids (d_outbox (committed s)) ->
     Q (Ok (List.filter unm (map ob_Env (List.filter (selected ids) (d_outbox (committed s)))), None)) s') ->
  wp (Tick d (publish_batch unm bus)) e s Q.
Proof.
  intros Hh Hbus Htok Hi HQ. unfold wp, Tick.
  set (rows := d_outbox (committed s)) in *.
  set (ids := select_ids (batchSize d) (clock e (Store.steps s)) rows) in *.
  set (tok := uuid_of e (S (Store.steps s))). cbv zeta in HQ.
  assert (wp (claim d) e s (fun res s' => res = Ok (MkClaimedBatch tok (claimed ids tok rows))
    /\ committed s' = set_outbox (claim_rows ids tok) (committed s))) as Hc.
  { unfold claim. wp_go; try no_fault Hh.
    all: unfold upd_claim in Hx; try discriminate. by injection Hx as <- <-. }
  unfold wp in Hc. destruct (claim d e s) as [res s1]. destruct Hc as [-> Hs1].
  cbn [Rows Token]. assert (map ob_Env (claimed ids tok rows) = map ob_Env (List.filter (selected ids) rows))
    as Henv by (unfold claimed; by rewrite map_map).
  destruct (claimed ids tok rows) as [|r rs] eqn:Ec.
  - assert (List.filter (selected ids) rows = []) as Hnil
      by (unfold claimed in Ec; by apply map_eq_nil in Ec).
    rewrite Hnil in HQ. apply HQ. rewrite Hs1. simpl. fold rows. unfold claim_rows, after_tick.
    apply map_ext_in. intros q Hq. destruct (selected ids q) eqn:Es; [|done].
    assert (In q (List.filter (selected ids) rows)) as Hin by (by apply filter_In).
    by rewrite Hnil in Hin.
  - unfold publish_batch. rewrite publish_all_ok. 2: { intros q Hq Hu. cbn [Rows] in Hq. rewrite <- Ec in Hq. unfold claimed in Hq.
      apply list_elem_of_fmap in Hq as (q0 & -> & [Hq0 _]%list_elem_of_In%filter_In).
      apply (Hbus q0); [by apply list_elem_of_In|done]. }
    cbn [Rows]. rewrite Henv.
    assert (wp (ack (MkClaimedBatch tok (r :: rs))) e s1 (fun res s' => res = Ok ()
      /\ d_outbox (committed s') = after_tick ids rows)) as Ha.
    { unfold ack. wp_go; try no_fault Hh. all: unfold upd_ack in Hx; try discriminate.
      injection Hx as <- <-. split; [done|]. simpl. rewrite Hs1. simpl. fold rows.
      apply ack_claim; [apply Htok|]. intros q Hq. by apply Hi. }
    unfold wp in Ha. destruct (ack _ e s1) as [res s2]. destruct Ha as [-> Hs2]. by apply HQ.
Qed.

Lemma after_tick_idle ids rows : idle rows -> idle (after_tick ids rows).
Proof.
  intros [H1 H2]. split; [unfold after_tick; by rewrite map_id_update|].
  intros r Hr. apply elem_of_update in Hr as (r0 & H0 & [[_ ->]|[_ ->]]); [done|by apply H2].
Qed.

(** Every pending row delivered. *)
Definition all_delivered (rows : list OutboxRow) : list OutboxRow :=
  map (fun r => if pending r then delivered r else r) rows.

Lemma after_tick_delivered ids rows :
  (forall r, r ∈ rows -> selected ids r = true -> pending r = true) ->
  all_delivered (after_tick ids rows) = all_delivered rows.
Proof.
  intros H. unfold all_delivered, after_tick. rewrite map_map. apply map_ext_in.
  intros r Hr. apply list_elem_of_In in Hr. destruct (selected ids r) eqn:Es; [|done].
  by rewrite (H _ Hr Es).
Qed.

Lemma after_tick_pending ids rows :
  List.filter pending (after_tick ids rows)
  = List.filter (fun r => pending r && negb (selected ids r)) rows.
Proof.
  unfold after_tick. induction rows as [|r rows IH]; [done|]. simpl. rewrite IH.
  destruct (selected ids r); simpl; [by rewrite andb_false_r|by rewrite andb_true_r].
Qed.

Lemma ticks_drain unm d bus e k s :
  healthy e -> (forall r, r ∈ d_outbox (committed s) -> unm (ob_Env r) = true -> bus (ob_Env r) = None) ->
  (forall n, uuid_of e n <> "") -> 0 < batchSize d -> idle (d_outbox (committed s)) ->
  Z.of_nat (length (List.filter pending (d_outbox (committed s)))) <= Z.of_nat k * batchSize d ->
  let '(out, s') := ticks unm d bus k e s in
  d_outbox (committed s') = all_delivered (d_outbox (committed s))
  /\ Permutation out (List.filter unm (map ob_Env (List.filter pending (d_outbox (committed s))))).
Proof.
  intros Hh Hbus Htok Hb. revert s Hbus. induction k as [|k IH]; intros s Hbus Hi Hn; cbn [ticks].
  - assert (List.filter pending (d_outbox (committed s)) = []) as Hnil
      by (apply length_zero_iff_nil; lia).
    rewrite Hnil. split; [|done]. unfold all_delivered. rewrite <- (map_id (d_outbox _)) at 1.
    apply map_ext_in. intros r Hr. destruct (pending r) eqn:Ep; [|done].
    assert (In r (List.filter pending (d_outbox (committed s)))) as Hin by (by apply filter_In).
    by rewrite Hnil in Hin.
  - set (rows := d_outbox (committed s)) in *.
    set (ids := select_ids (batchSize d) (clock e (Store.steps s)) rows).
    assert (forall r, r ∈ rows -> selected ids r = true -> pending r = true) as Hsel
      by (intros r Hr; by apply selected_pending).
    assert (wp (Tick d (publish_batch unm bus)) e s (fun res s' =>
      res = Ok (List.filter unm (map ob_Env (List.filter (selected ids) rows)), None)
      /\ d_outbox (committed s') = after_tick ids rows)) as Ht by (by apply wp_Tick_ok).
    unfold wp in Ht. destruct (Tick d (publish_batch unm bus) e s) as [res s1].
    destruct Ht as [-> Hs1]. specialize (IH s1). rewrite Hs1, after_tick_pending in IH.
    pose proof (filter_split pending (selected ids) rows Hsel) as Hp.
    pose proof (length_selected (batchSize d) (clock e (Store.steps s)) rows Hi) as Hl.
    pose proof (Permutation_length Hp) as Hpl. rewrite length_app in Hpl. fold ids in Hl.
    destruct (ticks unm d bus k e s1) as [out s2].
    destruct IH as [IH1 IH2]; [|by apply after_tick_idle|lia|].
    { intros r Hr. apply elem_of_update in Hr as (r0 & H0 & [[_ ->]|[_ ->]]); exact (Hbus r0 H0). }
    split; [by rewrite IH1, after_tick_delivered|]. by rewrite IH2, Hp, map_app, List.filter_app.
Qed.

(** ** Concrete systems *)

Definition event1 : Envelope := MkEnvelope "e1" TopicCaseOpened "api" "k1" "t1" "" 1 [].

Definition sys0 : Sys := MkSys [] [] [] [].

Definition sys_leased : Sys :=
  MkSys (claim_rows ["e1"] "w1" [MkOutboxRow event1 "pending" 0 "" None]) []
    [MkHeld "w1" [event1] []] [].

(** The first worker is gone. *)
Definition sys_orphaned : Sys := MkSys (s_Rows sys_leased) [] [] [].

Lemma sys0_inv unm m : inv unm m sys0.
Proof. split; simpl; [constructor|set_solver..]. Qed.

Lemma sys_leased_reachable unm m : Workers.steps unm m sys0 sys_leased.
Proof.
  eapply rtc_l; [apply (step_insert unm m event1 [] [] [] []); set_solver|].
  eapply rtc_l; [apply (step_select unm m 5 100)|].
  apply rtc_once, (step_claim unm m ["e1"] "w1" [MkOutboxRow event1 "pending" 0 "" None] [] [] [] []);
    [done| |set_solver].
  intros r [->|?%not_elem_of_nil]%elem_of_cons; done.
Qed.

(** A worker lost during a first attempt strands its rows: a claim never
    sets [lease_expires_at], so such a row is never claimed again. *)
Lemma orphan_steps unm m S S' r :
  0 < m -> inv unm m S -> orphan S r -> Workers.steps unm m S S' ->
  r ∈ s_Rows S' /\ (ob_Env r ∉ s_Sent S -> ob_Env r ∉ s_Sent S').
Proof.
  intros Hm Hi Ho Hs.
  enough (orphan S' r /\ (ob_Env r ∈ s_Sent S' -> ob_Env r ∈ s_Sent S)) as [[] ?] by auto.
  induction Hs as [S|S S1 S2 H _ IH]; [by split; [|auto]|].
  destruct (orphan_step _ _ _ _ _ Hi Ho H) as [Ho1 H1].
  destruct IH as [Ho2 H2]; [by eapply step_inv|done|]. auto.
Qed.

Lemma sys_orphaned_inv unm : inv unm 10 sys_orphaned.
Proof.
  apply (steps_inv unm 10 sys0); [lia| |apply sys0_inv].
  eapply rtc_r; [apply sys_leased_reachable|].
  apply (step_crash unm 10 (MkHeld "w1" [event1] []) (s_Rows sys_leased) [] [] [] []).
Qed.

Lemma sys_orphan : orphan sys_orphaned (MkOutboxRow event1 "publishing" 1 "w1" None).
Proof. split; try done; [by left|simpl; set_solver..]. Qed.

(** ** Properties *)

(** C6. Accounting over every interleaving of dispatchers, including concurrent
    claims of the same rows, publish errors and crashes: no row ever leaves the
    table; the bus only receives events of the table whose payload decodes; a
    row is only marked published after its event was handed to the bus, or
    because its payload does not decode; a row is only parked as failed at the
    maximum number of attempts; ids stay unique. It is no promise of delivery:
    a row a lost worker leased at its first attempt is never claimed again, and
    if its event was not handed over by then it never is. *)
Theorem outbox_accounting unm m S S' :
  0 < m -> inv unm m S -> Workers.steps unm m S S' ->
  inv unm m S'
  /\ (forall v, v ∈ map ob_Env (s_Rows S) -> v ∈ map ob_Env (s_Rows S'))
  /\ (forall v, v ∈ s_Sent S' -> v ∈ map ob_Env (s_Rows S') /\ unm v = true)
  /\ (forall r, r ∈ s_Rows S' -> ob_Status r = StatusPublished ->
        ob_Env r ∈ s_Sent S' \/ unm (ob_Env r) = false)
  /\ (forall r, r ∈ s_Rows S' -> ob_Status r = StatusFailed -> m <= ob_Attempts r)
  /\ (forall r, orphan S r -> r ∈ s_Rows S' /\ (ob_Env r ∉ s_Sent S -> ob_Env r ∉ s_Sent S')).
Proof.
  intros Hm Hi Hs. pose proof (steps_inv _ _ _ _ Hm Hs Hi) as Hi'.
  split; [done|]. split; [intros v; by eapply steps_keep|]. split; [apply (inv_sent _ _ _ Hi')|].
  split; [|split; [|intros r Ho; by eapply orphan_steps]];
    intros r Hr; destruct (inv_rows _ _ _ Hi' _ Hr); auto.
Qed.

Lemma outbox_accounting_witness :
  let r := MkOutboxRow event1 "publishing" 1 "w1" None in
  let later := MkSys (s_Rows sys_orphaned) [select_ids 100 99999 (s_Rows sys_orphaned)] [] [] in
  Workers.steps (fun _ => true) 10 sys_orphaned later /\ orphan sys_orphaned r
  /\ inv (fun _ => true) 10 later /\ r ∈ s_Rows later /\ ob_Env r ∉ s_Sent later.
Proof.
  intros r later.
  assert (inv (fun _ => true) 10 sys_orphaned) as Hi by apply sys_orphaned_inv.
  assert (Workers.steps (fun _ => true) 10 sys_orphaned later) as Hs by (apply rtc_once, (step_select _ 10 99999 100)).
  pose proof (outbox_accounting (fun _ => true) 10 sys_orphaned later ltac:(lia) Hi Hs) as (H1 & _ & _ & _ & _ & H).
  destruct (H r sys_orphan) as [H2 H3]. split; [exact Hs|]. split; [exact sys_orphan|]. split; [exact H1|].
  split; [exact H2|]. apply H3, not_elem_of_nil.
Defined.

(** C7. [Tick] refines the multi-worker system: whatever fails (claim, bus,
    acknowledgement, release) and whatever other workers hold, the table it
    leaves and the events it published are those of a sequence of steps of the
    system (select, claim, sends, then acknowledge, release or crash). *)
Theorem dispatcher_tick_refines unm d bus e s sel held sent :
  uuid_of e (S (Store.steps s)) <> "" ->
  (forall r, r ∈ d_outbox (committed s) -> ob_LeaseToken r <> uuid_of e (S (Store.steps s))) ->
  (forall h, h ∈ held -> h_Token h <> uuid_of e (S (Store.steps s))) ->
  let '(res, s') := Tick d (publish_batch unm bus) e s in
  exists out, fst <$> (match res with Ok a => Some a | Err _ => None end) = Some out /\
  Workers.steps unm (maxAttempts d) (MkSys (d_outbox (committed s)) sel held sent)
    (MkSys (d_outbox (committed s')) sel held (sent ++ out)).
Proof. apply Tick_steps. Qed.

Definition db_event : DB :=
  set_outbox (fun _ => [MkOutboxRow event1 "pending" 0 "" None]) empty_db.

Lemma dispatcher_tick_refines_witness :
  uuid_of env0 1 <> ""
  /\ (forall r, r ∈ d_outbox db_event -> ob_LeaseToken r <> uuid_of env0 1)
  /\ exists out s', Tick (NewDispatcher 0 0 0) (publish_batch (fun _ => true) (fun _ => None)) env0 (MkSt db_event None 0)
       = (Ok (out, None), s')
     /\ Workers.steps (fun _ => true) 10 (MkSys (d_outbox db_event) [] [] [])
          (MkSys (d_outbox (committed s')) [] [] out).
Proof.
  assert (uuid_of env0 1 <> "") as H1 by (vm_compute; discriminate).
  assert (forall r, r ∈ d_outbox db_event -> ob_LeaseToken r <> uuid_of env0 1) as H2.
  { intros r [->|?%not_elem_of_nil]%elem_of_cons; [vm_compute; discriminate|done]. }
  split; [exact H1|]. split; [exact H2|].
  pose proof (dispatcher_tick_refines (fun _ => true) (NewDispatcher 0 0 0) (fun _ => None) env0
    (MkSt db_event None 0) [] [] [] H1 H2 ltac:(intros h Hh; by apply not_elem_of_nil in Hh)) as H.
  remember (Tick (NewDispatcher 0 0 0) (publish_batch (fun _ => true) (fun _ => None)) env0 (MkSt db_event None 0))
    as p eqn:Ep. vm_compute in Ep. subst p. destruct H as (out & [= <-] & H).
  eexists _, _. split; [reflexivity|exact H].
Defined.

(** The dispatcher drains the outbox: when nothing fails, enough ticks
    leave exactly the table in which every pending row is published with one
    more attempt and every other row is untouched, and hand each pending event
    to the bus exactly once. *)
Lemma dispatcher_drains unm d bus e k s :
  healthy e -> (forall v, bus v = None) -> (forall n, uuid_of e n <> "") ->
  0 < batchSize d -> idle (d_outbox (committed s)) ->
  Z.of_nat (length (List.filter pending (d_outbox (committed s)))) <= Z.of_nat k * batchSize d ->
  let '(out, s') := ticks unm d bus k e s in
  d_outbox (committed s') = all_delivered (d_outbox (committed s))
  /\ Permutation out (List.filter unm (map ob_Env (List.filter pending (d_outbox (committed s))))).
Proof. intros. apply ticks_drain; auto. Qed.

Lemma db_event_idle : idle (d_outbox db_event).
Proof.
  split; [apply NoDup_singleton|].
  intros r [->|?%not_elem_of_nil]%elem_of_cons; done.
Qed.

Lemma dispatcher_drains_witness :
  healthy env0 /\ 0 < batchSize (NewDispatcher 0 0 0) /\ idle (d_outbox db_event)
  /\ let '(out, s') := ticks (fun _ => true) (NewDispatcher 0 0 0) (fun _ => None) 1 env0 (MkSt db_event None 0) in
     d_outbox (committed s') = all_delivered (d_outbox (committed (MkSt db_event None 0)))
     /\ Permutation out (map ob_Env (List.filter pending (d_outbox (committed (MkSt db_event None 0))))).
Proof.
  split; [apply env0_healthy|]. split; [reflexivity|]. split; [apply db_event_idle|].
  apply (dispatcher_drains (fun _ => true) (NewDispatcher 0 0 0) (fun _ => None) env0 1 (MkSt db_event None 0));
    [apply env0_healthy|done|done|reflexivity|apply db_event_idle|vm_compute; discriminate].
Defined.

(** A row whose payload does not decode is marked published although the bus
    never had it. *)
Lemma undecodable_published_unsent :
  let run := ticks (fun _ => false) (NewDispatcher 0 0 0) (fun _ => None) 1 env0 (MkSt db_event None 0) in
  run.1 = [] /\ map ob_Status (d_outbox (committed run.2)) = ["published"].
Proof. split; vm_compute; reflexivity. Qed.

(** Two workers can hold the same event at once: the second selects between
    the first one's select and update. *)
Lemma double_claim_reachable unm m :
  exists S h1 h2, Workers.steps unm m sys0 S /\ s_Held S = [h1; h2] /\ h_Token h1 <> h_Token h2
    /\ event1 ∈ h_Todo h1 /\ event1 ∈ h_Todo h2.
Proof.
  set (rows := [MkOutboxRow event1 "pending" 0 "" None]).
  exists (MkSys (claim_rows ["e1"] "w2" (claim_rows ["e1"] "w1" rows)) []
            [MkHeld "w2" [event1] []; MkHeld "w1" [event1] []] []).
  eexists _, _. split; [|split; [reflexivity|]].
  - eapply rtc_l; [apply (step_insert unm m event1 [] [] [] []); set_solver|].
    eapply rtc_l; [apply (step_select unm m 5 100)|].
    eapply rtc_l; [apply (step_select unm m 5 100)|].
    eapply rtc_l; [apply (step_claim unm m ["e1"] "w1" rows [] [["e1"]] [] []); [done| |set_solver]|].
    { intros r [->|?%not_elem_of_nil]%elem_of_cons; done. }
    apply rtc_once, (step_claim unm m ["e1"] "w2" (claim_rows ["e1"] "w1" rows) [] []
      [MkHeld "w1" [event1] []] []); [done| |].
    + intros r [->|?%not_elem_of_nil]%elem_of_cons; done.
    + intros h [->|?%not_elem_of_nil]%elem_of_cons; done.
  - simpl. split; [done|]. split; set_solver.
Qed.
