(* ===== verification/Pagination.v ===== *)
(** * pkg/pagination: bounded list windows

    Cursors are the unpadded URL-safe base64 of ["offset|limit"]. The codec of
    [encoding/base64] (RawURLEncoding) is modelled on bytes, [strconv.Atoi] and
    [fmt] in [GoStd]. [window] is the tail every [List*] method shares: fetch
    [Limit+1] rows at [Offset], cut to [Limit], and return a cursor when more
    rows exist. *)

From Stdlib Require Import String Ascii.
From S2P Require Import Prelude GoStd AppErrors.

Local Open Scope Z_scope.

(** ** encoding/base64: RawURLEncoding *)

Definition alphabet : string :=
  "ABCDEFGHIJKLMNOPQRSTUVWXYZabcdefghijklmnopqrstuvwxyz0123456789-_".

Definition enc_char (v : Z) : ascii :=
  match String.get (Z.to_nat v) alphabet with Some a => a | None => "000"%char end.

Definition dec_char (a : ascii) : option Z :=
  let c := code a in
  if (65 <=? c) && (c <=? 90) then Some (c - 65)
  else if (97 <=? c) && (c <=? 122) then Some (c - 71)
  else if (48 <=? c) && (c <=? 57) then Some (c + 4)
  else if c =? 45 then Some 62
  else if c =? 95 then Some 63
  else None.

Fixpoint b64_encode (l : list Z) : list Z :=
  match l with
  | a :: b :: c :: r =>
      let v := a * 65536 + b * 256 + c in
      v / 262144 :: (v / 4096) mod 64 :: (v / 64) mod 64 :: v mod 64 :: b64_encode r
  | [a; b] =>
      let v := a * 65536 + b * 256 in
      [v / 262144; (v / 4096) mod 64; (v / 64) mod 64]
  | [a] => let v := a * 65536 in [v / 262144; (v / 4096) mod 64]
  | [] => []
  end.

(** Whole quanta of four, then a last quantum of two or three characters; one
    character alone is corrupt. *)
Fixpoint b64_decode (l : list Z) : option (list Z) :=
  match l with
  | w :: x :: y :: z :: r =>
      let v := w * 262144 + x * 4096 + y * 64 + z in
      match b64_decode r with
      | Some t => Some (v / 65536 :: (v / 256) mod 256 :: v mod 256 :: t)
      | None => None
      end
  | [w; x; y] =>
      let v := w * 262144 + x * 4096 + y * 64 in
      Some [v / 65536; (v / 256) mod 256]
  | [w; x] => let v := w * 262144 + x * 4096 in Some [v / 65536]
  | [_] => None
  | [] => Some []
  end.

Definition bytes_of (s : string) : list Z := map code (list_ascii_of_string s).
Definition of_bytes (l : list Z) : string :=
  string_of_list_ascii (map (fun z => ascii_of_N (Z.to_N z)) l).

(** [base64.RawURLEncoding.EncodeToString] *)
Definition EncodeToString (s : string) : string :=
  string_of_list_ascii (map enc_char (b64_encode (bytes_of s))).

(** [base64.RawURLEncoding.DecodeString]: CR and LF are skipped. *)
Definition is_crlf (a : ascii) : bool := (code a =? 13) || (code a =? 10).

Definition DecodeString (s : string) : option string :=
  match mapM dec_char (List.filter (fun a => negb (is_crlf a)) (list_ascii_of_string s)) with
  | Some l => of_bytes <$> b64_decode l
  | None => None
  end.

(** ** Pages *)

Definition DefaultLimit : Z := 25.
Definition MaxLimit : Z := 100.

Record Page := MkPage {
  Offset : Z;
  Limit : Z;
}.

Definition clamp (n : Z) : Z :=
  if n <=? 0 then DefaultLimit else if n >? MaxLimit then MaxLimit else n.

Definition malformed : error := OtherErr "malformed cursor" None.

Definition Parse (cursor : string) (limit : Z) : error + Page :=
  let p := MkPage 0 (clamp limit) in
  if is_empty cursor then inr p else
  match DecodeString (trim_space cursor) with
  | None => inl malformed
  | Some raw =>
      match cut raw "|"%char with
      | (_, None) => inl malformed
      | (part0, Some part1) =>
          match atoi part0 with
          | None => inl malformed
          | Some off =>
              if off <? 0 then inl malformed else
              match atoi part1 with
              | None => inl malformed
              | Some lim =>
                  if lim <=? 0 then inl malformed else inr (MkPage off (clamp lim))
              end
          end
      end
  end.

Definition NextCursor (p : Page) (returned : Z) : string :=
  if returned <? Limit p then ""
  else EncodeToString (itoa (wrap64 (Offset p + Limit p)) +:+ "|" +:+ itoa (Limit p)).

(** [LIMIT page.Limit+1 OFFSET page.Offset] over the matching rows in order,
    then [hasMore], the cut, and the cursor. *)
Definition window {A} (rows : list A) (page : Page) : list A * string :=
  let out := take (Z.to_nat (Limit page + 1)) (drop (Z.to_nat (Offset page)) rows) in
  let hasMore := Z.of_nat (length out) >? Limit page in
  ((if hasMore then take (Z.to_nat (Limit page)) out else out),
   (if hasMore then NextCursor page (Limit page) else "")).

(** A client following the cursors, starting from a page request. *)
Fixpoint walk {A} (fuel : nat) (rows : list A) (limit : Z) (p : Page) : option (list A) :=
  match fuel with
  | O => None
  | S n =>
      let '(out, cursor) := window rows p in
      if is_empty cursor then Some out else
      match Parse cursor limit with
      | inr p' => (app out) <$> walk n rows limit p'
      | inl _ => None
      end
  end.

(** ** Codec lemmas *)

Definition is_byte (z : Z) : Prop := 0 <= z < 256.
Definition is_sextet (z : Z) : Prop := 0 <= z < 64.

Lemma bytes_of_range s : Forall is_byte (bytes_of s).
Proof. apply Forall_forall. intros z [a [-> _]]%list_elem_of_fmap. apply code_range. Qed.

Lemma of_bytes_of s : of_bytes (bytes_of s) = s.
Proof.
  unfold of_bytes, bytes_of, code. rewrite map_map.
  rewrite (map_ext _ id).
  - by rewrite map_id, string_of_list_ascii_of_string.
  - intros a. by rewrite N2Z.id, ascii_N_embedding.
Qed.

Lemma b64_encode_sextets l : Forall is_byte l -> Forall is_sextet (b64_encode l).
Proof.
  induction l as [l IH] using (induction_ltof1 _ (@length Z)). unfold ltof in IH.
  destruct l as [|a [|b [|c r]]]; intros H; simpl.
  - done.
  - inv H. unfold is_byte, is_sextet in *. repeat constructor; Z.to_euclidean_division_equations; lia.
  - repeat match goal with H : Forall _ (_ :: _) |- _ => inv H end.
    unfold is_byte, is_sextet in *. repeat constructor; Z.to_euclidean_division_equations; lia.
  - repeat match goal with H : Forall _ (_ :: _) |- _ => inv H end.
    unfold is_byte, is_sextet in *.
    do 4 (constructor; [Z.to_euclidean_division_equations; lia|]).
    apply IH; [simpl; lia|done].
Qed.

Lemma b64_roundtrip l : Forall is_byte l -> b64_decode (b64_encode l) = Some l.
Proof.
  induction l as [l IH] using (induction_ltof1 _ (@length Z)). unfold ltof in IH.
  destruct l as [|a [|b [|c r]]]; intros H; simpl;
    repeat match goal with H : Forall _ (_ :: _) |- _ => inv H end; unfold is_byte in *.
  - done.
  - do 2 f_equal. Z.to_euclidean_division_equations; lia.
  - f_equal. f_equal; [|f_equal]; Z.to_euclidean_division_equations; lia.
  - rewrite IH; [|simpl; lia|done].
    f_equal. f_equal; [|f_equal; [|f_equal]]; Z.to_euclidean_division_equations; lia.
Qed.

Definition sextets : list Z := map Z.of_nat (seq 0 64).

Lemma sextets_elem v : is_sextet v -> In v sextets.
Proof.
  unfold is_sextet, sextets. intros H. apply in_map_iff. exists (Z.to_nat v).
  split; [lia|]. apply in_seq. lia.
Qed.

Lemma sextet_case (P : Z -> bool) v : forallb P sextets = true -> is_sextet v -> P v = true.
Proof. intros H Hv. rewrite forallb_forall in H. by apply H, sextets_elem. Qed.

Lemma dec_enc_char v : is_sextet v -> dec_char (enc_char v) = Some v.
Proof.
  intros H.
  pose proof (sextet_case (fun v => bool_decide (dec_char (enc_char v) = Some v)) v) as Hc.
  apply (bool_decide_eq_true_1 _), Hc; [vm_compute; reflexivity|done].
Qed.

Lemma enc_char_plain v : is_sextet v -> plain (enc_char v) = true.
Proof. apply (sextet_case (fun v => plain (enc_char v))). vm_compute. reflexivity. Qed.

Lemma enc_char_no_crlf v : is_sextet v -> negb (is_crlf (enc_char v)) = true.
Proof. apply (sextet_case (fun v => negb (is_crlf (enc_char v)))). vm_compute. reflexivity. Qed.

Lemma map_enc_chars l :
  Forall is_sextet l ->
  mapM dec_char (List.filter (fun a => negb (is_crlf a)) (map enc_char l)) = Some l.
Proof.
  induction 1 as [|v l Hv _ IH]; [done|]. simpl.
  rewrite enc_char_no_crlf by done. simpl. by rewrite dec_enc_char, IH.
Qed.

Lemma DecodeString_EncodeToString s : DecodeString (EncodeToString s) = Some s.
Proof.
  unfold DecodeString, EncodeToString.
  pose proof (bytes_of_range s) as Hb.
  rewrite list_ascii_of_string_of_list_ascii, map_enc_chars by (by apply b64_encode_sextets).
  rewrite b64_roundtrip by done. simpl. by rewrite of_bytes_of.
Qed.

Lemma EncodeToString_plain s : sforallb plain (EncodeToString s) = true.
Proof.
  unfold EncodeToString. pose proof (b64_encode_sextets _ (bytes_of_range s)) as H.
  induction H as [|v l Hv _ IH]; [done|]. simpl. by rewrite enc_char_plain, IH.
Qed.

Lemma EncodeToString_nonempty s : s <> "" -> EncodeToString s <> "".
Proof.
  intros Hs. destruct s as [|a [|b [|c s]]]; [done|..];
    unfold EncodeToString, bytes_of; simpl; discriminate.
Qed.

(** ** Page lemmas *)

Lemma clamp_range n : 1 <= clamp n <= MaxLimit.
Proof. unfold clamp, MaxLimit, DefaultLimit. destruct (n <=? 0) eqn:?, (n >? 100) eqn:?; lia. Qed.

Lemma clamp_id n : 1 <= n <= MaxLimit -> clamp n = n.
Proof. unfold clamp, MaxLimit, DefaultLimit. intros H. destruct (n <=? 0) eqn:?, (n >? 100) eqn:?; lia. Qed.

Definition page_wf (p : Page) : Prop := 0 <= Offset p /\ 1 <= Limit p <= MaxLimit.

Lemma Parse_wf cursor limit p : Parse cursor limit = inr p -> page_wf p.
Proof.
  unfold Parse, page_wf. intros H. split_match_in H; simpl;
    pose proof (clamp_range limit); try pose proof (clamp_range z0); lia.
Qed.

Lemma Parse_NextCursor p returned limit :
  page_wf p -> Limit p <= returned -> Offset p + Limit p <= int64_max ->
  Parse (NextCursor p returned) limit = inr (MkPage (Offset p + Limit p) (Limit p)).
Proof.
  intros [Ho Hl] Hr Hmax. unfold NextCursor.
  replace (returned <? Limit p) with false by lia.
  set (raw := itoa _ +:+ _). unfold Parse.
  assert (raw <> "") as Hraw.
  { unfold raw. intros E. apply (f_equal String.length) in E.
    rewrite !length_sapp in E. simpl in E. lia. }
  rewrite (proj2 (is_empty_false _)) by (by apply EncodeToString_nonempty).
  rewrite trim_space_plain by apply EncodeToString_plain.
  rewrite DecodeString_EncodeToString. unfold raw, MaxLimit in *.
  rewrite wrap64_id by (unfold in_int64, int64_min; lia).
  change ("|" +:+ itoa (Limit p)) with (String "|" (itoa (Limit p))).
  rewrite cut_app by (apply itoa_no_byte; [lia|vm_compute; auto]).
  rewrite itoa_atoi by lia. replace (Offset p + Limit p <? 0) with false by lia.
  rewrite itoa_atoi by (unfold int64_max; lia). replace (Limit p <=? 0) with false by lia.
  by rewrite clamp_id by (unfold MaxLimit; lia).
Qed.

Lemma window_last {A} (rows : list A) p :
  page_wf p -> Z.of_nat (length rows) - Offset p <= Limit p ->
  window rows p = (drop (Z.to_nat (Offset p)) rows, "").
Proof.
  intros [Ho Hl] H. unfold window.
  rewrite take_ge by (rewrite length_drop; lia).
  rewrite length_drop. rewrite Z.gtb_ltb. rewrite (proj2 (Z.ltb_ge _ _)) by lia. done.
Qed.

Lemma window_more {A} (rows : list A) p :
  page_wf p -> Limit p < Z.of_nat (length rows) - Offset p ->
  window rows p =
    (take (Z.to_nat (Limit p)) (drop (Z.to_nat (Offset p)) rows), NextCursor p (Limit p)).
Proof.
  intros [Ho Hl] H. unfold window.
  rewrite length_take, length_drop, Z.gtb_ltb, (proj2 (Z.ltb_lt _ _)) by lia.
  by rewrite take_take, Nat.min_l by lia.
Qed.

Lemma NextCursor_nonempty p : NextCursor p (Limit p) <> "".
Proof.
  unfold NextCursor. rewrite Z.ltb_irrefl. apply EncodeToString_nonempty.
  intros E. apply (f_equal String.length) in E. rewrite !length_sapp in E. simpl in E. lia.
Qed.

Lemma walk_spec {A} (rows : list A) limit fuel p :
  page_wf p -> Offset p <= int64_max - MaxLimit ->
  Z.of_nat (length rows) <= int64_max - MaxLimit ->
  Z.of_nat (length rows) - Offset p < Z.of_nat fuel ->
  (0 < fuel)%nat ->
  walk fuel rows limit p = Some (drop (Z.to_nat (Offset p)) rows).
Proof.
  revert p. induction fuel as [|n IH]; intros p Hwf Ho Hlen Hfuel Hpos; [lia|].
  destruct (Z_le_gt_dec (Z.of_nat (length rows) - Offset p) (Limit p)) as [Hle|Hgt].
  { cbn [walk]. by rewrite window_last. }
  pose proof Hwf as [Hoff Hlim]. cbn [walk]. rewrite window_more by (auto; lia).
  rewrite (proj2 (is_empty_false _)) by apply NextCursor_nonempty.
  unfold MaxLimit in *. rewrite Parse_NextCursor by (auto; lia).
  rewrite IH; simpl; try (unfold page_wf, MaxLimit; simpl; lia).
  f_equal. rewrite <- (take_drop (Z.to_nat (Limit p)) (drop (Z.to_nat (Offset p)) rows)) at 2.
  rewrite drop_drop. do 2 f_equal. lia.
Qed.

(** ** Properties *)

(** C21. Following cursors enumerates a listing exactly once: for any row list
    below the 64-bit range and any requested page size, the client that starts
    at the first page and follows [NextCursor] through [Parse] until the cursor
    is empty terminates and receives every row, in order, without gap or
    repetition. *)
Theorem pages_enumerate_rows {A} (rows : list A) (limit : Z) (p : Page) :
  Z.of_nat (length rows) <= int64_max - MaxLimit ->
  Parse "" limit = inr p ->
  walk (S (length rows)) rows limit p = Some rows.
Proof.
  intros Hlen [= <-]. rewrite walk_spec; simpl; try done; try lia.
  - split; simpl; [lia|apply clamp_range].
Qed.

Lemma pages_enumerate_rows_witness :
  let rows := map Z.of_nat (seq 0 60) in
  Z.of_nat (length rows) <= int64_max - MaxLimit
  /\ Parse "" 7 = inr (MkPage 0 7)
  /\ walk 61 rows 7 (MkPage 0 7) = Some rows.
Proof.
  split; [vm_compute; discriminate|]. split; [reflexivity|].
  apply (pages_enumerate_rows (map Z.of_nat (seq 0 60)) 7 (MkPage 0 7));
    [vm_compute; discriminate|reflexivity].
Defined.

(** A cursor is exact and safe: the cursor of a full page decodes to the
    next offset with the same limit (whatever limit the client sends along),
    and every page [Parse] accepts, from any client text whatsoever, has a
    non-negative offset and a limit in [1, MaxLimit]. *)
Lemma cursor_roundtrip_and_bounds (p p' : Page) (limit returned : Z) (text : string) :
  page_wf p -> Limit p <= returned -> Offset p + Limit p <= int64_max ->
  Parse text limit = inr p' ->
  Parse (NextCursor p returned) limit = inr (MkPage (Offset p + Limit p) (Limit p))
  /\ 0 <= Offset p' /\ 1 <= Limit p' <= MaxLimit.
Proof. intros Hp Hr Ho Hp'. split; [by apply Parse_NextCursor|by eapply Parse_wf]. Qed.

Lemma cursor_roundtrip_and_bounds_witness :
  page_wf (MkPage 50 25) /\ Parse "NTB8NTAwMDA" 3 = inr (MkPage 50 100)
  /\ Parse (NextCursor (MkPage 50 25) 25) 3 = inr (MkPage 75 25).
Proof.
  split; [split; vm_compute; repeat split; discriminate|]. split; [reflexivity|].
  apply (cursor_roundtrip_and_bounds (MkPage 50 25) (MkPage 50 100) 3 25 "NTB8NTAwMDA");
    [split; vm_compute; repeat split; discriminate|vm_compute; discriminate
    |vm_compute; discriminate|reflexivity].
Defined.
