(* ===== verification/Sha256.v ===== *)
(** * crypto/sha256 and encoding/hex

    The digest the idempotency keys are derived with: FIPS 180-4 on byte lists,
    32-bit words as [Z] with the modulus written out. *)

From Stdlib Require Import String Ascii.
From S2P Require Import Prelude GoStd.

Local Open Scope Z_scope.

Definition w32 (z : Z) : Z := z mod 2 ^ 32.

Definition rotr (x n : Z) : Z :=
  w32 (Z.lor (Z.shiftr x n) (Z.shiftl x (32 - n))).

Definition xor3 (a b c : Z) : Z := Z.lxor a (Z.lxor b c).
Definition ch (x y z : Z) : Z := Z.lxor (Z.land x y) (Z.land (2 ^ 32 - 1 - x) z).
Definition maj (x y z : Z) : Z := xor3 (Z.land x y) (Z.land x z) (Z.land y z).
Definition bsig0 (x : Z) : Z := xor3 (rotr x 2) (rotr x 13) (rotr x 22).
Definition bsig1 (x : Z) : Z := xor3 (rotr x 6) (rotr x 11) (rotr x 25).
Definition ssig0 (x : Z) : Z := xor3 (rotr x 7) (rotr x 18) (Z.shiftr x 3).
Definition ssig1 (x : Z) : Z := xor3 (rotr x 17) (rotr x 19) (Z.shiftr x 10).

(** The round constants of FIPS 180-4: the first 32 bits of the fractional parts
    of the cube roots of the first 64 primes (of their square roots for the
    initial hash), computed once. *)
Definition is_prime (n : nat) : bool :=
  forallb (fun d => negb (Nat.eqb (n mod d) 0)) (seq 2 (n - 2)).

Definition first_primes : list Z :=
  Eval vm_compute in map Z.of_nat (take 64 (List.filter is_prime (seq 2 310))).

(** The cube root rounded down, bit by bit from bit [n - 1]. *)
Fixpoint cube_root (n : nat) (x acc : Z) : Z :=
  match n with
  | O => acc
  | S m =>
      let acc' := acc + 2 ^ Z.of_nat m in
      cube_root m x (if acc' ^ 3 <=? x then acc' else acc)
  end.

Definition K256 : list Z :=
  Eval vm_compute in map (fun p => w32 (cube_root 36 (p * 2 ^ 96) 0)) first_primes.

Record hstate := MkH { ha : Z; hb : Z; hc : Z; hd : Z; he : Z; hf : Z; hg : Z; hh : Z }.

Definition H256 : hstate :=
  Eval vm_compute in
  match map (fun p => w32 (Z.sqrt (p * 2 ^ 64))) (take 8 first_primes) with
  | [a; b; c; d; e; f; g; h] => MkH a b c d e f g h
  | _ => MkH 0 0 0 0 0 0 0 0
  end.

Definition round (s : hstate) (kw : Z * Z) : hstate :=
  let '(k, w) := kw in
  let t1 := w32 (hh s + bsig1 (he s) + ch (he s) (hf s) (hg s) + k + w) in
  let t2 := w32 (bsig0 (ha s) + maj (ha s) (hb s) (hc s)) in
  MkH (w32 (t1 + t2)) (ha s) (hb s) (hc s) (w32 (hd s + t1)) (he s) (hf s) (hg s).

(** The message schedule, most recent word first. *)
Fixpoint extend (n : nat) (rw : list Z) : list Z :=
  match n with
  | O => rw
  | S m =>
      let at_ i := nth i rw 0 in
      extend m (w32 (ssig1 (at_ 1%nat) + at_ 6%nat + ssig0 (at_ 14%nat) + at_ 15%nat) :: rw)
  end.

Definition compress (s : hstate) (block : list Z) : hstate :=
  let w := rev (extend 48 (rev block)) in
  let r := fold_left round (combine K256 w) s in
  MkH (w32 (ha s + ha r)) (w32 (hb s + hb r)) (w32 (hc s + hc r)) (w32 (hd s + hd r))
      (w32 (he s + he r)) (w32 (hf s + hf r)) (w32 (hg s + hg r)) (w32 (hh s + hh r)).

Fixpoint be_words (l : list Z) : list Z :=
  match l with
  | a :: b :: c :: d :: r => (a * 2 ^ 24 + b * 2 ^ 16 + c * 2 ^ 8 + d) :: be_words r
  | _ => []
  end.

Definition be32 (w : Z) : list Z :=
  [(w / 2 ^ 24) mod 256; (w / 2 ^ 16) mod 256; (w / 2 ^ 8) mod 256; w mod 256].

Definition pad (msg : list Z) : list Z :=
  let n := length msg in
  let zeros := ((119 - n mod 64) mod 64)%nat in
  let bits := 8 * Z.of_nat n in
  msg ++ [128] ++ repeat 0 zeros ++ be32 (bits / 2 ^ 32) ++ be32 (bits mod 2 ^ 32).

Fixpoint blocks (fuel : nat) (ws : list Z) (s : hstate) : hstate :=
  match fuel, ws with
  | S f, _ :: _ => blocks f (drop 16 ws) (compress s (take 16 ws))
  | _, _ => s
  end.

(** [sha256.Sum256] *)
Definition Sum256 (msg : list Z) : list Z :=
  let ws := be_words (pad msg) in
  let s := blocks (length ws) ws H256 in
  be32 (ha s) ++ be32 (hb s) ++ be32 (hc s) ++ be32 (hd s)
  ++ be32 (he s) ++ be32 (hf s) ++ be32 (hg s) ++ be32 (hh s).

(** [hex.EncodeToString] *)
Definition hex_digit (v : Z) : ascii :=
  ascii_of_N (Z.to_N (if v <? 10 then 48 + v else 87 + v)).

Fixpoint hex_encode (l : list Z) : string :=
  match l with
  | [] => EmptyString
  | b :: r => String (hex_digit ((b / 16) mod 16)) (String (hex_digit (b mod 16)) (hex_encode r))
  end.

Lemma length_Sum256 msg : length (Sum256 msg) = 32%nat.
Proof. reflexivity. Qed.

Lemma length_hex_encode l : String.length (hex_encode l) = (2 * length l)%nat.
Proof. induction l as [|b l IH]; simpl; [done|]. rewrite IH. lia. Qed.

Definition str_bytes (s : string) : list Z := map code (list_ascii_of_string s).

(** FIPS 180-4 test vectors. *)
Example Sum256_abc :
  hex_encode (Sum256 (str_bytes "abc"))
  = "ba7816bf8f01cfea414140de5dae2223b00361a396177a9cb410ff61f20015ad"%string.
Proof. vm_compute. reflexivity. Qed.

Example Sum256_two_blocks :
  hex_encode (Sum256 (str_bytes "abcdbcdecdefdefgefghfghighijhijkijkljklmklmnlmnomnopnopq"))
  = "248d6a61d20638b8e5c026930c3e6039a33ce45964ff2167f6ecedd419db06c1"%string.
Proof. vm_compute. reflexivity. Qed.
