(* ===== verification/Idempotency.v ===== *)
(** * pkg/idempotency: key derivation and validation *)

From Stdlib Require Import String Ascii.
From S2P Require Import Prelude GoStd AppErrors Sha256.

Local Open Scope Z_scope.

(** The class [[A-Za-z0-9._:-]] of [keyRe]. *)
Definition key_char (a : ascii) : bool :=
  let c := code a in
  ((65 <=? c) && (c <=? 90)) || ((97 <=? c) && (c <=? 122)) || ((48 <=? c) && (c <=? 57))
  || (c =? 46) || (c =? 95) || (c =? 58) || (c =? 45).

(** [keyRe.MatchString]: [^[A-Za-z0-9._:-]{8,128}$] *)
Definition keyRe (key : string) : bool :=
  sforallb key_char key
  && (8 <=? Z.of_nat (String.length key)) && (Z.of_nat (String.length key) <=? 128).

Definition Validate (key : string) : option error :=
  if keyRe key then None
  else Some (OtherErr "idempotency key must match [A-Za-z0-9._:-]{8,128}" None).

(** [strings.Join(parts, "|")] *)
Fixpoint join_bar (parts : list string) : string :=
  match parts with
  | [] => ""
  | [p] => p
  | p :: r => p +:+ "|" +:+ join_bar r
  end.

Definition Derive (parts : list string) : string :=
  "auto_" +:+ hex_encode (take 16 (Sum256 (str_bytes (join_bar parts)))).

Definition nibbles : list Z := map Z.of_nat (seq 0 16).

Lemma hex_digit_key_char v : 0 <= v < 16 -> key_char (hex_digit v) = true.
Proof.
  intros H. assert (forallb (fun v => key_char (hex_digit v)) nibbles = true) as Hf
    by (vm_compute; reflexivity).
  rewrite forallb_forall in Hf. apply Hf, in_map_iff. exists (Z.to_nat v).
  split; [lia|]. apply in_seq. lia.
Qed.

Lemma hex_encode_key_chars l : sforallb key_char (hex_encode l) = true.
Proof.
  induction l as [|b l IH]; [done|]. simpl.
  rewrite !hex_digit_key_char, IH by (apply Z.mod_pos_bound; lia). done.
Qed.

Lemma Derive_keyRe parts : keyRe (Derive parts) = true.
Proof.
  unfold keyRe, Derive. rewrite sforallb_app, hex_encode_key_chars.
  rewrite length_sapp, length_hex_encode, length_take, length_Sum256. reflexivity.
Qed.

Lemma Derive_nonempty parts : Derive parts <> "".
Proof. discriminate. Qed.

(** ** Properties *)

(** Every derived key is a valid client key: whatever the parts, [Derive]
    returns a key [Validate] accepts (so the derived-key path of an
    externally-triggered create can never fail validation). *)
Lemma derived_key_validates (parts : list string) : Validate (Derive parts) = None.
Proof. unfold Validate. by rewrite Derive_keyRe. Qed.
