(* ===== verification/Customers.v ===== *)
(** * internal/customers/service.go: identity across channels

    [NormalizeIdentifier], and the service over the tables [customers],
    [customer_identifiers] (unique by tenant, type and value) and
    [customer_tags]. Rows of equal [created_at] are listed in insertion order,
    tags in byte order. *)

From Stdlib Require Import String Ascii.
From S2P Require Import Prelude GoStd AppErrors Store Sql Wp Pagination Text Regexp.

Local Open Scope Z_scope.

Definition IdentPhone := "phone".
Definition IdentWhatsApp := "whatsapp".
Definition IdentEmail := "email".
Definition IdentExternalCRM := "external_crm".
Definition IdentHandle := "handle".

(** The class [\s]. *)
Definition re_space (a : ascii) : bool :=
  let c := code a in (c =? 9) || (c =? 10) || (c =? 12) || (c =? 13) || (c =? 32).

(** The class [[^@\s]]. *)
Definition not_at_space (a : ascii) : bool := negb (Ascii.eqb a "@") && negb (re_space a).

(** [^[^@\s]+@[^@\s]+\.[^@\s]+$] *)
Definition emailRe : regex :=
  Cat (Plus (Class not_at_space))
    (Cat (Byte "@")
       (Cat (Plus (Class not_at_space)) (Cat (Byte ".") (Plus (Class not_at_space))))).

(** [^\+?[0-9]{7,15}$] *)
Definition phoneRe : regex := Cat (Opt (Byte "+")) (Between 7 15 (Class is_digit)).

Section Normalize.
Context `{Unicode}.

Definition NormalizeIdentifier (idType value : string) : string + Error :=
  let v := trim_space value in
  if String.eqb idType IdentPhone || String.eqb idType IdentWhatsApp then
    let v := remove_byte " " v in
    let v := trim_prefix v "00" in
    let v := if has_prefix v "+" then v else "+" +:+ v in
    if negb (matches phoneRe v) then
      inr (Invalid "customer.invalid_identifier" "phone value must be 7-15 digits")
    else inl v
  else if String.eqb idType IdentEmail then
    let v := ToLower v in
    if negb (matches emailRe v) then
      inr (Invalid "customer.invalid_identifier" "invalid email address")
    else inl v
  else if String.eqb idType IdentExternalCRM || String.eqb idType IdentHandle then
    if is_empty v || (256 <? Z.of_nat (String.length v)) then
      inr (Invalid "customer.invalid_identifier" "identifier value must be 1-256 chars")
    else inl v
  else
    inr (Invalid "customer.invalid_identifier_type"
           "type must be phone|whatsapp|email|external_crm|handle").

(** ** Inputs *)

Record IdentifierIn := MkIdentifierIn {
  in_Type : string;
  in_Value : string;
  in_IsPrimary : bool;
}.

Record CreateInput := MkCreateInput {
  in_DisplayName : string;
  in_Company : string;
  in_Language : string;
  in_Timezone : string;
  in_Attributes : dict;
  in_Identifiers : list IdentifierIn;
  in_Tags : list string;
}.

(** The blank-tolerant default of this package. *)
Definition defaultStr (v def : string) : string := if is_empty (trim_space v) then def else v.

Fixpoint dedupe_from (seen : gset string) (l : list string) : list string :=
  match l with
  | [] => []
  | s :: l => if bool_decide (s ∈ seen) then dedupe_from seen l else s :: dedupe_from ({[s]} ∪ seen) l
  end.

Definition dedupe (l : list string) : list string := dedupe_from ∅ l.

(** The loop that normalizes the identifiers and refuses a repetition. *)
Fixpoint normalize_all (seen : gset string) (l : list IdentifierIn) : list IdentifierIn + Error :=
  match l with
  | [] => inl []
  | idf :: l =>
      match NormalizeIdentifier (in_Type idf) (in_Value idf) with
      | inr err => inr err
      | inl val =>
          let k := in_Type idf +:+ ":" +:+ val in
          if bool_decide (k ∈ seen) then
            inr (Invalid "customer.duplicate_identifier" "identifier repeated in request")
          else
            match normalize_all ({[k]} ∪ seen) l with
            | inr err => inr err
            | inl norm => inl (MkIdentifierIn (in_Type idf) val (in_IsPrimary idf) :: norm)
            end
      end
  end.

(** ** SQL statements *)

(** [INSERT INTO customers (...)] with [created_at] and [updated_at] by default. *)
Definition ins_customer (c : Customer) : stmt := fun now d =>
  match d_customers d !! cu_ID c with
  | Some _ => None
  | None =>
      Some (set_customers
              (<[cu_ID c := MkCustomer (cu_ID c) (cu_TenantID c) (cu_DisplayName c) (cu_Company c)
                              (cu_Language c) (cu_Timezone c) (cu_Attributes c) now now]>) d, 1%nat)
  end.

(** The unique key of [customer_identifiers]. *)
Definition same_identity (tenantID idType value : string) (i : Identifier) : bool :=
  String.eqb (id_TenantID i) tenantID && String.eqb (id_Type i) idType
  && String.eqb (id_Value i) value.

Definition ins_identifier (id tenantID customerID : string) (idf : IdentifierIn) : stmt :=
  fun now d =>
  if existsb (fun i => String.eqb (id_ID i) id || same_identity tenantID (in_Type idf) (in_Value idf) i)
       (d_identifiers d) then None
  else
    Some (set_identifiers
            (fun l => l ++ [MkIdentifier id tenantID customerID (in_Type idf) (in_Value idf)
                              (in_IsPrimary idf) None now]) d, 1%nat).

Definition ins_tag (tenantID customerID tag : string) : stmt := fun _ d =>
  if existsb (fun t => String.eqb (tg_TenantID t) tenantID && String.eqb (tg_CustomerID t) customerID
                       && String.eqb (tg_Tag t) tag) (d_tags d) then None
  else Some (set_tags (fun l => l ++ [MkTagRow tenantID customerID tag]) d, 1%nat).

Definition sel_customer (tenantID id : string) (d : DB) : option Customer :=
  match d_customers d !! id with
  | Some c => if String.eqb (cu_TenantID c) tenantID then Some c else None
  | None => None
  end.

(** [SELECT c.id FROM customer_identifiers ci JOIN customers c ON c.id =
    ci.customer_id WHERE ci.tenant_id = $1 AND ci.type = $2 AND ci.value = $3] *)
Definition sel_resolve (tenantID idType value : string) (d : DB) : option string :=
  match List.find (fun i => same_identity tenantID idType value i
                            && bool_decide (is_Some (d_customers d !! id_CustomerID i)))
          (d_identifiers d) with
  | Some i => Some (id_CustomerID i)
  | None => None
  end.

(** [ORDER BY is_primary DESC, created_at] *)
Definition identifier_before (a b : Identifier) : bool :=
  if Bool.eqb (id_IsPrimary a) (id_IsPrimary b) then id_CreatedAt a <? id_CreatedAt b
  else id_IsPrimary a.

Definition sel_identifiers (tenantID customerID : string) (d : DB) : list Identifier :=
  stable_sort identifier_before
    (List.filter (fun i => String.eqb (id_CustomerID i) customerID
                           && String.eqb (id_TenantID i) tenantID) (d_identifiers d)).

Definition sel_tags (tenantID customerID : string) (d : DB) : list string :=
  stable_sort String.ltb
    (map tg_Tag (List.filter (fun t => String.eqb (tg_CustomerID t) customerID
                                       && String.eqb (tg_TenantID t) tenantID) (d_tags d))).

(** [ORDER BY created_at DESC, id] *)
Definition newest_first (a b : Customer) : bool :=
  if cu_CreatedAt a =? cu_CreatedAt b then String.ltb (cu_ID a) (cu_ID b)
  else cu_CreatedAt b <? cu_CreatedAt a.

Definition sel_customers (tenantID : string) (d : DB) : list Customer :=
  stable_sort newest_first
    (List.filter (fun c => String.eqb (cu_TenantID c) tenantID)
       (map snd (map_to_list (d_customers d)))).

(** ** The use-cases *)

(** A customer with its relations. *)
Record CustomerView := MkCustomerView {
  view_customer : Customer;
  view_Identifiers : list Identifier;
  view_Tags : list string;
}.

Definition attachRelations (tenantID : string) (c : Customer) : M CustomerView :=
  q ← pool_Query (sel_identifiers tenantID (cu_ID c));
  match q with
  | SqlErr x => throw (read_failed x)
  | SqlOk ids =>
      q ← pool_Query (sel_tags tenantID (cu_ID c));
      match q with
      | SqlErr x => throw (read_failed x)
      | SqlOk tags => mret (MkCustomerView c ids tags)
      end
  end.

Definition Get (tenantID id : string) : M CustomerView :=
  q ← pool_Query (sel_customer tenantID id);
  match q with
  | SqlErr x => throw (read_failed x)
  | SqlOk None => throw (NotFound "customer.not_found" "customer not found")
  | SqlOk (Some c) => attachRelations tenantID c
  end.

Fixpoint insert_identifiers (tenantID customerID : string) (norm : list IdentifierIn) : M () :=
  match norm with
  | [] => mret ()
  | idf :: norm =>
      id ← uuid_NewString;
      r ← tx_Exec (ins_identifier id tenantID customerID idf);
      match r with
      | SqlErr UniqueViolation =>
          throw (Conflict "customer.identifier_exists"
                   "identifier already belongs to another customer")
      | SqlErr x => throw (write_failed x)
      | SqlOk _ => insert_identifiers tenantID customerID norm
      end
  end.

Definition tag_ok (tag : string) : bool :=
  negb (is_empty tag) && (Z.of_nat (String.length tag) <=? 64).

Fixpoint insert_tags (tenantID customerID : string) (tags : list string) : M () :=
  match tags with
  | [] => mret ()
  | tag :: tags =>
      if negb (tag_ok tag) then throw (Invalid "customer.invalid_tag" "tags must be 1-64 chars") else
      r ← tx_Exec (ins_tag tenantID customerID tag);
      match r with
      | SqlErr x => throw (write_failed x)
      | SqlOk _ => insert_tags tenantID customerID tags
      end
  end.

(** The row [Create] inserts. *)
Definition new_customer (id tenantID : string) (i : CreateInput) (created updated : Z) : Customer :=
  MkCustomer id tenantID (in_DisplayName i) (in_Company i) (defaultStr (in_Language i) "en")
    (defaultStr (in_Timezone i) "Africa/Nairobi") (in_Attributes i) created updated.

Definition Create (tenantID : string) (i : CreateInput) : M CustomerView :=
  match in_Identifiers i with
  | [] => throw (Invalid "customer.identifiers_required" "at least one identifier is required")
  | _ =>
      match normalize_all ∅ (in_Identifiers i) with
      | inr err => throw err
      | inl norm =>
          id ← uuid_NewString;
          created ← time_Now;
          updated ← time_Now;
          with_tx "write failed" (
            r ← tx_Exec (ins_customer (new_customer id tenantID i created updated));
            match r with
            | SqlErr UniqueViolation => throw (Conflict "customer.conflict" "customer already exists")
            | SqlErr x => throw (write_failed x)
            | SqlOk _ =>
                _ ← insert_identifiers tenantID id norm;
                _ ← insert_tags tenantID id (dedupe (in_Tags i));
                _ ← commit_or "write failed";
                Get tenantID id
            end)
      end
  end.

Definition Resolve (tenantID idType value : string) : M CustomerView :=
  match NormalizeIdentifier idType value with
  | inr err => throw err
  | inl val =>
      q ← pool_Query (sel_resolve tenantID idType val);
      match q with
      | SqlErr x => throw (read_failed x)
      | SqlOk None => throw (NotFound "customer.not_found" "no customer for identifier")
      | SqlOk (Some id) => Get tenantID id
      end
  end.

(** The columns the listing scans; the other fields keep their zero value. *)
Definition customer_row (c : Customer) : Customer :=
  MkCustomer (cu_ID c) "" (cu_DisplayName c) (cu_Company c) (cu_Language c) (cu_Timezone c) []
    (cu_CreatedAt c) (cu_UpdatedAt c).

(** [List] *)
Definition ListCustomers (tenantID : string) (page : Page) : M (list Customer * string) :=
  q ← pool_Query (sel_customers tenantID);
  match q with
  | SqlErr x => throw (read_failed x)
  | SqlOk rows => mret (window (map customer_row rows) page)
  end.
End Normalize.
