(* ===== verification/CustomersProps.v ===== *)
(** * Properties of customer identity

    Canonical identifiers, the all-or-nothing [Create], and resolution: the
    spellings of a registered identifier lead to its one customer. *)

From Stdlib Require Import String Ascii.
From S2P Require Import Prelude GoStd AppErrors Store Sql Wp Text Regexp Customers.

Local Open Scope Z_scope.

(** ** Normalization *)

Lemma digit_plain a : is_digit a = true -> plain a = true.
Proof.
  unfold is_digit, plain, ascii_space. rewrite !andb_true_iff. intros [H1%Z.leb_le H2%Z.leb_le].
  rewrite (proj2 (Z.ltb_lt (code a) 128)) by lia.
  rewrite (proj2 (Z.leb_gt (code a) 13)) by lia.
  rewrite (proj2 (Z.eqb_neq (code a) 32)) by lia. by rewrite andb_false_r.
Qed.

(** The phone pattern: an optional plus and 7 to 15 digits. *)
Lemma phoneRe_spec v :
  matches phoneRe v = true <->
  exists d, (v = d \/ v = "+" +:+ d) /\ sforallb is_digit d = true
            /\ (7 <= String.length d <= 15)%nat.
Proof.
  unfold phoneRe, Opt. rewrite matches_spec, lang_Cat. setoid_rewrite lang_Alt.
  setoid_rewrite lang_Eps. setoid_rewrite lang_Byte.
  setoid_rewrite lang_Between_Class; [|lia]. split.
  - intros (u & d & -> & [->| ->] & Hd); exists d; eauto.
  - intros (d & [->| ->] & Hd); [exists "", d|exists "+", d]; eauto.
Qed.

Lemma remove_byte_plain s : sforallb plain s = true -> remove_byte " " s = s.
Proof.
  intros H. apply remove_byte_absent, sforallb_not_has_byte. revert H. apply sforallb_impl.
  intros a Ha. apply negb_true_iff, Ascii.eqb_neq. intros ->. by vm_compute in Ha.
Qed.

(** The canonical form of a phone number. *)
Lemma phone_canonical ty v d `{Unicode} :
  ty = IdentPhone \/ ty = IdentWhatsApp -> sforallb is_digit d = true ->
  (7 <= String.length d <= 15)%nat -> v = "+" +:+ d -> NormalizeIdentifier ty v = inl v.
Proof.
  intros Hty Hd Hl ->. assert (sforallb plain ("+" +:+ d) = true) as Hp.
  { rewrite sforallb_app. apply andb_true_iff. split; [done|]. revert Hd. apply sforallb_impl, digit_plain. }
  assert (matches phoneRe ("+" +:+ d) = true) as Hm by (apply phoneRe_spec; eauto).
  unfold NormalizeIdentifier. assert (String.eqb ty IdentPhone || String.eqb ty IdentWhatsApp = true) as ->
    by (destruct Hty as [-> | ->]; reflexivity).
  rewrite (trim_space_plain _ Hp), (remove_byte_plain _ Hp).
  change (trim_prefix ("+" +:+ d) "00") with ("+" +:+ d).
  rewrite (proj2 (has_prefix_spec ("+" +:+ d) "+")) by (by exists d). by rewrite Hm.
Qed.

Lemma normalize_phone_shape `{Unicode} ty value v :
  ty = IdentPhone \/ ty = IdentWhatsApp -> NormalizeIdentifier ty value = inl v ->
  exists d, v = "+" +:+ d /\ sforallb is_digit d = true /\ (7 <= String.length d <= 15)%nat.
Proof.
  intros Hty. unfold NormalizeIdentifier.
  assert (String.eqb ty IdentPhone || String.eqb ty IdentWhatsApp = true) as ->
    by (destruct Hty as [-> | ->]; reflexivity).
  set (w := trim_prefix _ _). destruct (matches phoneRe _) eqn:Hm; cbn [negb]; [|done]. intros [= <-].
  apply phoneRe_spec in Hm as (d & Hv & Hd & Hl). exists d. split; [|done].
  destruct (has_prefix w "+") eqn:Hw.
  - destruct Hv as [->| ->]; [|done]. destruct d as [|a d]; [simpl in Hl; lia|].
    cbn [has_prefix] in Hw. rewrite andb_true_iff in Hw. destruct Hw as [->%Ascii.eqb_eq _].
    cbn [sforallb] in Hd. by vm_compute in Hd.
  - destruct Hv as [Hv|Hv]; [|done]. rewrite <- Hv in Hd. cbn [sforallb] in Hd. by vm_compute in Hd.
Qed.

(** Normalization is canonical: the value it returns is its own normal
    form (for e-mail addresses of ASCII characters, whose case mapping does not
    depend on the Unicode tables); the normal form of a telephone number is a
    plus and 7 to 15 digits. *)
Lemma normalize_canonical `{Unicode} ty value v
    (Hv : NormalizeIdentifier ty value = inl v)
    (Hascii : ty = IdentEmail -> is_ascii value = true) :
  NormalizeIdentifier ty v = inl v
  /\ (ty = IdentPhone \/ ty = IdentWhatsApp ->
      exists d, v = "+" +:+ d /\ sforallb is_digit d = true /\ (7 <= String.length d <= 15)%nat).
Proof.
  split; [|intros Hty; by eapply normalize_phone_shape].
  destruct (decide (ty = IdentPhone \/ ty = IdentWhatsApp)) as [Hty|Hty].
  { destruct (normalize_phone_shape _ _ _ Hty Hv) as (d & -> & ? & ?). by eapply phone_canonical. }
  unfold NormalizeIdentifier in *.
  assert (String.eqb ty IdentPhone || String.eqb ty IdentWhatsApp = false) as Hph.
  { apply orb_false_iff. rewrite !String.eqb_neq. naive_solver. }
  rewrite Hph in *. destruct (String.eqb_spec ty IdentEmail) as [->|_].
  - specialize (Hascii eq_refl).
    assert (is_ascii (trim_space value) = true) as Ha by (by apply trim_space_forall).
    destruct (matches emailRe _) eqn:Hm; cbn [negb] in Hv; [|done]. injection Hv as <-.
    assert (ToLower (trim_space value) = to_lower (trim_space value)) as E by (unfold ToLower; by rewrite Ha).
    assert (trim_space (ToLower (trim_space value)) = ToLower (trim_space value)) as ->
      by (rewrite E; apply trim_space_to_lower).
    rewrite ToLower_idem by done. by rewrite Hm.
  - destruct (_ || _); [|done]. destruct (_ || _) eqn:Hb; [done|]. injection Hv as <-.
    rewrite trim_space_idem. by rewrite Hb.
Qed.

(** The spellings of a telephone number: a [00] prefix and spaces. *)
Lemma phone_spellings :
  let n v := @NormalizeIdentifier (Build_Unicode (fun s => s)) IdentPhone v in
  n "00254 700 123 456" = inl "+254700123456" /\ n "+254700123456" = inl "+254700123456"
  /\ n " 254700123456" = inl "+254700123456" /\ n "0700-123" =
     inr (Invalid "customer.invalid_identifier" "phone value must be 7-15 digits").
Proof. by vm_compute. Qed.

(** ** The statements of [Create] *)

Section create.
Context `{Unicode}.

(** The identifiers and tags of one transaction, on top of [d]. *)
Record extended (tenant cid : string) (norm : list IdentifierIn) (tags : list string)
    (d d' : DB) : Prop := {
  ext_customers : d_customers d' = d_customers d;
  ext_identifiers : exists ids, d_identifiers d' = d_identifiers d ++ ids
    /\ Forall2 (fun idf i => id_TenantID i = tenant /\ id_CustomerID i = cid
                             /\ id_Type i = in_Type idf /\ id_Value i = in_Value idf
                             /\ id_IsPrimary i = in_IsPrimary idf) norm ids;
  ext_tags : d_tags d' = d_tags d ++ map (MkTagRow tenant cid) tags;
  ext_rest : d' = set_tags (fun _ => d_tags d') (set_identifiers (fun _ => d_identifiers d') d);
}.

Definition identity_key (i : Identifier) : string * string * string :=
  (id_TenantID i, id_Type i, id_Value i).

Lemma same_identity_spec t ty v i : same_identity t ty v i = true <-> identity_key i = (t, ty, v).
Proof.
  unfold same_identity, identity_key. rewrite !andb_true_iff, !String.eqb_eq. naive_solver.
Qed.

Lemma ins_identifier_Some id t cid idf now d d' k :
  ins_identifier id t cid idf now d = Some (d', k) ->
  d' = set_identifiers (fun l => l ++ [MkIdentifier id t cid (in_Type idf) (in_Value idf)
                                         (in_IsPrimary idf) None now]) d
  /\ Forall (fun i => identity_key i <> (t, in_Type idf, in_Value idf)) (d_identifiers d).
Proof.
  unfold ins_identifier. destruct (existsb _ _) eqn:E; [done|]. intros [= <- <-]. split; [done|].
  apply Forall_forall. intros i Hi Hk. rewrite <- not_true_iff_false, existsb_exists in E. apply E.
  exists i. split; [by apply list_elem_of_In|]. rewrite (proj2 (same_identity_spec _ _ _ _) Hk).
  apply orb_true_r.
Qed.

Lemma extended_trans t cid n1 n2 t1 t2 d1 d2 d3 :
  extended t cid n1 t1 d1 d2 -> extended t cid n2 t2 d2 d3 ->
  extended t cid (n1 ++ n2) (t1 ++ t2) d1 d3.
Proof.
  intros [C1 (i1 & I1 & F1) T1 R1] [C2 (i2 & I2 & F2) T2 R2]. split.
  - by rewrite C2.
  - exists (i1 ++ i2). rewrite I2, I1. split; [by rewrite app_assoc|by apply Forall2_app].
  - rewrite T2, T1, map_app. by rewrite app_assoc.
  - rewrite R2, R1 at 1. by destruct d1.
Qed.

Lemma wp_insert_identifiers e t cid norm c d now n (Q : result () -> st -> Prop) :
  (forall x d' n', Q (Err x) (MkSt c (Some (d', now)) n')) ->
  (forall d' n', extended t cid norm [] d d' ->
     (NoDup (map identity_key (d_identifiers d)) -> NoDup (map identity_key (d_identifiers d'))) ->
     Q (Ok ()) (MkSt c (Some (d', now)) n')) ->
  wp (insert_identifiers t cid norm) e (MkSt c (Some (d, now)) n) Q.
Proof.
  revert d n. induction norm as [|idf norm IH]; intros d n HE HO; cbn [insert_identifiers].
  - wp_go. apply HO; [|done]. split; [done| |by rewrite app_nil_r|by destruct d].
    exists []. by rewrite app_nil_r.
  - wp_go; try apply HE. simplify_eq. apply ins_identifier_Some in Hx as [-> Hk].
    apply IH; [done|]. intros d' n' He Hnd. apply HO.
    + refine (extended_trans _ _ [idf] norm [] [] _ _ _ _ He). split; [done| |by rewrite app_nil_r|by destruct d].
      eexists [_]. split; [reflexivity|]. by repeat constructor.
    + intros Hd. apply Hnd. cbn [d_identifiers set_identifiers]. rewrite map_app. apply NoDup_app.
      split; [done|]. split; [|apply NoDup_singleton].
      intros key (i & -> & Hi)%list_elem_of_fmap Hin. cbn [map] in Hin. rewrite list_elem_of_singleton in Hin.
      eapply Forall_forall in Hk; [|exact Hi]. by apply Hk.
Qed.

Lemma wp_insert_tags e t cid tags c d now n (Q : result () -> st -> Prop) :
  (forall x d' n', Q (Err x) (MkSt c (Some (d', now)) n')) ->
  (forall d' n', extended t cid [] tags d d' -> Forall (fun tag => tag_ok tag = true) tags ->
     Q (Ok ()) (MkSt c (Some (d', now)) n')) ->
  wp (insert_tags t cid tags) e (MkSt c (Some (d, now)) n) Q.
Proof.
  revert d n. induction tags as [|tag tags IH]; intros d n HE HO; cbn [insert_tags].
  - wp_go. apply HO; [|constructor]. split; [done| |by rewrite app_nil_r|by destruct d].
    exists []. by rewrite app_nil_r.
  - wp_go; try apply HE. apply negb_false_iff in E. unfold ins_tag in Hx.
    destruct (existsb _ _); simplify_eq. apply IH; [done|]. intros d' n' He Ht. apply HO.
    + refine (extended_trans _ _ [] [] [tag] tags _ _ _ _ He). split; [done| |done|by destruct d].
      exists []. by rewrite app_nil_r.
    + by constructor.
Qed.

(** The tables after a committed [Create]: the new row, its identifiers and
    its tags. *)
Definition created (tenant : string) (i : CreateInput) (norm : list IdentifierIn) (d d' : DB)
    (cid : string) : Prop :=
  exists t1 t2 now,
  let c := new_customer cid tenant i t1 t2 in
  let row := MkCustomer cid tenant (cu_DisplayName c) (cu_Company c) (cu_Language c) (cu_Timezone c)
               (cu_Attributes c) now now in
  d_customers d !! cid = None
  /\ extended tenant cid norm (dedupe (in_Tags i)) (set_customers (<[cid := row]>) d) d'
  /\ Forall (fun tag => tag_ok tag = true) (dedupe (in_Tags i)).

(** What [Create] can end in. *)
Lemma wp_create_customer e tenant i s (Q : result CustomerView -> st -> Prop) :
  (forall x s', committed s' = committed s -> Q (Err x) s') ->
  (forall norm cid r s', normalize_all ∅ (in_Identifiers i) = inl norm ->
     created tenant i norm (committed s) (committed s') cid ->
     (NoDup (map identity_key (d_identifiers (committed s))) ->
      NoDup (map identity_key (d_identifiers (committed s')))) ->
     (exists s1, committed s1 = committed s' /\ (Get tenant cid e s1).1 = r) ->
     Q r s') ->
  wp (Create tenant i) e s Q.
Proof.
  intros HE HO. unfold Create. destruct (in_Identifiers i) as [|idf ids] eqn:Ei; [by wp_go; apply HE|].
  rewrite <- Ei in *. destruct (normalize_all ∅ (in_Identifiers i)) as [norm|err] eqn:En; [|by wp_go; apply HE].
  wp_go; try (by apply HE). simplify_eq. unfold ins_customer in Hx. cbn [cu_ID new_customer] in Hx.
  destruct (d_customers _ !! _) eqn:Ec in Hx; [done|]. simplify_eq.
  apply wp_insert_identifiers; [by intros; apply HE|]. intros d1 n1 H1 Hnd.
  wp_go. apply wp_insert_tags; [by intros; apply HE|]. intros d2 n2 H2 Htags.
  wp_go; [by apply HE|].
  unfold wp. destruct (Get tenant (uuid_of e (steps s)) e _) as [r s2] eqn:Eg.
  assert (committed s2 = d2) as Hs2.
  { enough (wp (Get tenant (uuid_of e (steps s))) e {| committed := d2; txn := None; steps := S n2 |}
              (fun _ s2 => committed s2 = d2)) as Hw by (by eapply wp_run in Hw).
    unfold Get, attachRelations. by wp_go. }
  eapply (HO norm (uuid_of e (steps s))); cbn [committed].
  - done.
  - rewrite Hs2. do 3 eexists. split; [exact Ec|]. split; [|exact Htags].
    pose proof (extended_trans _ _ _ _ _ _ _ _ _ H1 H2) as He. rewrite app_nil_r in He. exact He.
  - rewrite Hs2. destruct H2 as [_ (ids2 & -> & F) _ _]. inv F. rewrite app_nil_r. exact Hnd.
  - eexists. split; [|by rewrite Eg]. by rewrite Hs2.
Qed.
End create.

(** ** Reading back *)

(** The customer the tables hold, with its relations. *)
Definition stored (tenant cid : string) (d : DB) : option CustomerView :=
  match sel_customer tenant cid d with
  | Some c => Some (MkCustomerView c (sel_identifiers tenant (cu_ID c) d) (sel_tags tenant (cu_ID c) d))
  | None => None
  end.

Lemma Get_Ok tenant cid e s v s' :
  Get tenant cid e s = (Ok v, s') -> stored tenant cid (committed s) = Some v.
Proof.
  enough (wp (Get tenant cid) e s (fun r _ => forall v, r = Ok v -> stored tenant cid (committed s) = Some v)) as Hw
    by (intros Hg; by apply (wp_run _ _ _ _ _ _ Hw Hg)).
  unfold Get, attachRelations, stored. wp_go; try done; intros v' [= <-]; simplify_eq;
    match goal with E : SqlOk _ = SqlOk _ |- _ => by injection E as -> | _ => by repeat case_match; simplify_eq end.
Qed.

Lemma Get_healthy tenant cid e s v :
  healthy e -> stored tenant cid (committed s) = Some v -> (Get tenant cid e s).1 = Ok v.
Proof.
  intros Hh Hv. enough (wp (Get tenant cid) e s (fun r _ => r = Ok v)) as Hw
    by (unfold wp in Hw; by destruct (Get tenant cid e s)).
  unfold Get, attachRelations, stored in *. wp_go; try no_fault Hh; repeat case_match; simplify_eq; done.
Qed.

(** ** The tables of customer identities *)

Section tables.
Context `{Unicode}.

(** No two rows share an identity, and each belongs to a customer of its tenant. *)
Record identities_wf (d : DB) : Prop := {
  iw_unique : NoDup (map identity_key (d_identifiers d));
  iw_owner : Forall (fun i => exists c, d_customers d !! id_CustomerID i = Some c
                                        /\ cu_TenantID c = id_TenantID i) (d_identifiers d);
  iw_keys : map_Forall (fun id c => cu_ID c = id) (d_customers d);
}.

Lemma created_wf tenant i norm d d' cid :
  created tenant i norm d d' cid ->
  (NoDup (map identity_key (d_identifiers d)) -> NoDup (map identity_key (d_identifiers d'))) ->
  identities_wf d -> identities_wf d'.
Proof.
  intros (t1 & t2 & now & Hc & [Ec (ids & Ei & F) _ _] & _) Hnd [Hu Ho Hk].
  cbn [d_customers d_identifiers set_customers] in *. split; [auto| |].
  - rewrite Ei, Ec. apply Forall_app. split.
    + eapply Forall_impl; [exact Ho|]. intros j (c & Hj & Ht). exists c. split; [|done].
      rewrite lookup_insert_ne; [done|]. congruence.
    + clear -F. induction F as [|idf j norm ids (Ht & Hid & _) _ IH]; constructor; [|done].
      eexists. rewrite Hid, lookup_insert_eq. by rewrite Ht.
  - rewrite Ec. apply map_Forall_insert_2; done.
Qed.

(** What holds after [Create]. *)
Definition create_post (tenant : string) (i : CreateInput) (s : st) (r : result CustomerView) (s' : st) : Prop :=
  identities_wf (committed s')
  /\ ((committed s' = committed s /\ exists x, r = Err x)
      \/ exists norm cid, normalize_all ∅ (in_Identifiers i) = inl norm
           /\ created tenant i norm (committed s) (committed s') cid
           /\ forall v, r = Ok v -> stored tenant cid (committed s') = Some v).

Lemma create_run tenant i e s r s' :
  identities_wf (committed s) -> Create tenant i e s = (r, s') -> create_post tenant i s r s'.
Proof.
  intros Hwf Hrun. eapply (wp_run e); [|exact Hrun]. apply wp_create_customer; unfold create_post.
  - intros x s1 Hs. rewrite Hs. split; [done|]. left. eauto.
  - intros norm cid r1 s1 Hn Hc Hnd (s2 & Hs2 & Hg). split; [by eapply created_wf|].
    right. exists norm, cid. split_and!; [done..|]. intros v ->.
    destruct (Get tenant cid e s2) as [r2 s3] eqn:Eg. cbn [fst] in Hg. subst r2.
    rewrite <- Hs2. by eapply Get_Ok.
Qed.

(** C24. Registration is all or nothing and never forks an identity. From tables
    in which (tenant, type, value) is unique and every identifier belongs to a
    customer of its tenant, [Create] keeps that so whatever fails. It leaves the
    tables as they were, or it adds one new customer with exactly the normalized
    identifiers and the distinct tags of the request; in the second case it
    returns that customer as stored, or a read error of the final read. *)
Theorem customer_create_atomic tenant i e s (Hwf : identities_wf (committed s)) :
  let '(r, s') := Create tenant i e s in
  identities_wf (committed s')
  /\ ((committed s' = committed s /\ exists x, r = Err x)
      \/ exists norm cid, normalize_all ∅ (in_Identifiers i) = inl norm
           /\ created tenant i norm (committed s) (committed s') cid
           /\ forall v, r = Ok v -> stored tenant cid (committed s') = Some v).
Proof. destruct (Create tenant i e s) as [r s'] eqn:E. exact (create_run _ _ _ _ _ _ Hwf E). Qed.

(** Later registrations, each in an environment of its own. *)
Fixpoint registrations (l : list (env * string * CreateInput)) (s : st) : st :=
  match l with
  | [] => s
  | (e, tenant, i) :: l => registrations l (Create tenant i e s).2
  end.

(** An identity row is never lost or changed, nor its customer. *)
Lemma registrations_keep l s j c :
  identities_wf (committed s) -> j ∈ d_identifiers (committed s) ->
  d_customers (committed s) !! id_CustomerID j = Some c ->
  identities_wf (committed (registrations l s)) /\ j ∈ d_identifiers (committed (registrations l s))
  /\ d_customers (committed (registrations l s)) !! id_CustomerID j = Some c.
Proof.
  revert s. induction l as [|[[e tenant] i] l IH]; intros s Hwf Hj Hc; [done|]. cbn [registrations].
  assert (identities_wf (committed (Create tenant i e s).2)
          /\ j ∈ d_identifiers (committed (Create tenant i e s).2)
          /\ d_customers (committed (Create tenant i e s).2) !! id_CustomerID j = Some c) as (? & ? & ?);
    [|by apply IH].
  pose proof (wp_create_customer e tenant i s (fun _ s' => identities_wf (committed s')
    /\ j ∈ d_identifiers (committed s') /\ d_customers (committed s') !! id_CustomerID j = Some c)) as Hw.
  unfold wp in Hw. destruct (Create tenant i e s) as [r s'] eqn:E. cbn [snd]. apply Hw.
  - intros _ s1 ->. done.
  - intros norm cid _ s1 _ Hcr Hnd _. split; [by eapply created_wf|].
    destruct Hcr as (t1 & t2 & now & Hn & [Ec (ids & Ei & _) _ _] & _).
    cbn [d_customers d_identifiers set_customers] in *. split.
    + rewrite Ei. apply elem_of_app. by left.
    + rewrite Ec, lookup_insert_ne; [done|]. congruence.
Qed.

(** The lookup of an identity finds the owner of its row. *)
Lemma sel_resolve_row d j c :
  identities_wf d -> j ∈ d_identifiers d -> d_customers d !! id_CustomerID j = Some c ->
  sel_resolve (id_TenantID j) (id_Type j) (id_Value j) d = Some (id_CustomerID j).
Proof.
  intros [Hu _ _] Hj Hc. unfold sel_resolve.
  destruct (List.find _ _) as [j'|] eqn:E.
  - apply find_some in E as [Hj' Hs]. apply andb_true_iff in Hs as [Hs%same_identity_spec _].
    apply list_elem_of_In in Hj'. f_equal. f_equal.
    apply list_elem_of_lookup in Hj as [a Ha]. apply list_elem_of_lookup in Hj' as [b Hb].
    assert (a = b) as ->; [|congruence].
    eapply NoDup_lookup; [exact Hu|..]; rewrite list_lookup_fmap.
    + by rewrite Ha.
    + rewrite Hb. cbn [fmap option_fmap option_map]. by rewrite Hs.
  - eapply find_none in E; [|apply list_elem_of_In; exact Hj].
    rewrite (proj2 (same_identity_spec _ _ _ _)) in E by done. cbn [andb] in E.
    by rewrite bool_decide_eq_true_2 in E by eauto.
Qed.

Lemma normalize_all_elem seen l norm idf :
  normalize_all seen l = inl norm -> idf ∈ l ->
  exists v, NormalizeIdentifier (in_Type idf) (in_Value idf) = inl v
            /\ MkIdentifierIn (in_Type idf) v (in_IsPrimary idf) ∈ norm.
Proof.
  revert seen norm. induction l as [|x l IH]; intros seen norm; cbn [normalize_all]; [by intros _ ?%not_elem_of_nil|].
  destruct (NormalizeIdentifier (in_Type x) (in_Value x)) as [v|] eqn:Ev; [|done].
  destruct (bool_decide _); [done|].
  destruct (normalize_all _ l) as [norm'|] eqn:En; [|done]. intros [= <-] [->|Hl]%elem_of_cons.
  - exists v. split; [done|]. apply elem_of_cons. by left.
  - destruct (IH _ _ En Hl) as (w & ? & ?). exists w. split; [done|]. apply elem_of_cons. by right.
Qed.

(** The row of a registered identifier. *)
Lemma created_identity tenant i norm d d' cid idf :
  created tenant i norm d d' cid -> idf ∈ norm ->
  exists j c, j ∈ d_identifiers d' /\ identity_key j = (tenant, in_Type idf, in_Value idf)
    /\ id_CustomerID j = cid /\ d_customers d' !! cid = Some c /\ cu_TenantID c = tenant.
Proof.
  intros (t1 & t2 & now & Hc & [Ec (ids & Ei & F) _ _] & _) [a Ha]%list_elem_of_lookup.
  destruct (Forall2_lookup_l _ _ _ _ _ F Ha) as (j & Hj & Ht & Hid & Hty & Hval & _).
  apply list_elem_of_lookup_2 in Hj. cbn [d_customers d_identifiers set_customers] in *.
  eexists j, _. rewrite Ei, Ec, lookup_insert_eq. split_and!; [apply elem_of_app; by right| |done..].
  unfold identity_key. by rewrite Ht, Hty, Hval.
Qed.

Lemma Resolve_healthy tenant ty value w cid v e s :
  healthy e -> NormalizeIdentifier ty value = inl w ->
  sel_resolve tenant ty w (committed s) = Some cid -> stored tenant cid (committed s) = Some v ->
  (Resolve tenant ty value e s).1 = Ok v.
Proof.
  intros Hh Hn Hs Hv. unfold Resolve. rewrite Hn.
  unfold mbind, M_bind, pool_Query at 1. rewrite (healthy_fault _ Hh), Hs.
  apply Get_healthy; [done|]. exact Hv.
Qed.

(** One customer behind every spelling. When [Create] returned a customer,
    then after any later registrations and in any environment in which the
    reads succeed, [Resolve] of any value that normalizes like one of its
    identifiers returns that customer. *)
Lemma customer_resolves tenant i e s v s' (Hwf : identities_wf (committed s))
    (Hcreate : Create tenant i e s = (Ok v, s')) later idf value e' (Hidf : idf ∈ in_Identifiers i)
    (Hspell : NormalizeIdentifier (in_Type idf) value = NormalizeIdentifier (in_Type idf) (in_Value idf))
    (Hh : healthy e') :
  exists v', (Resolve tenant (in_Type idf) value e' (registrations later s')).1 = Ok v'
             /\ view_customer v' = view_customer v.
Proof.
  destruct (create_run _ _ _ _ _ _ Hwf Hcreate) as (Hwf' & [[_ [x Hx]]|(norm & cid & Hn & Hcr & Hv)]); [done|]. specialize (Hv v eq_refl).
  destruct (normalize_all_elem _ _ _ _ Hn Hidf) as (w & Hw & Hin).
  destruct (created_identity _ _ _ _ _ _ _ Hcr Hin) as (j & c & Hj & Hkey & Hid & Hc & Hct).
  destruct (registrations_keep later s' j c) as (Hwf2 & Hj2 & Hc2); [done..|by rewrite Hid|].
  pose proof (sel_resolve_row _ _ _ Hwf2 Hj2 Hc2) as Hsel. injection Hkey as Ht Hty Hval.
  rewrite Ht, Hty, Hval, Hid in Hsel. rewrite Hid in Hc2.
  assert (view_customer v = c) as ->.
  { unfold stored, sel_customer in Hv. rewrite Hc, Hct, String.eqb_refl in Hv. by injection Hv as <-. }
  assert (stored tenant cid (committed (registrations later s'))
          = Some (MkCustomerView c (sel_identifiers tenant (cu_ID c) (committed (registrations later s')))
                    (sel_tags tenant (cu_ID c) (committed (registrations later s'))))) as Hst
    by (unfold stored, sel_customer; by rewrite Hc2, Hct, String.eqb_refl).
  eexists. split; [eapply Resolve_healthy; [done| |exact Hsel|exact Hst]|done]. by rewrite Hspell.
Qed.
End tables.

(** ** Examples *)

(** ASCII texts need no Unicode tables. *)
#[local] Instance ascii_unicode : Unicode := {| unicode_ToLower := fun s => s |}.

Lemma normalize_canonical_witness :
  NormalizeIdentifier IdentEmail " Amina@Example.COM " = inl "amina@example.com"
  /\ NormalizeIdentifier IdentEmail "amina@example.com" = inl "amina@example.com".
Proof.
  assert (NormalizeIdentifier IdentEmail " Amina@Example.COM " = inl "amina@example.com") as E
    by (vm_compute; reflexivity).
  split; [exact E|]. refine (proj1 (normalize_canonical IdentEmail _ _ E _)). reflexivity.
Defined.

Definition amina : CreateInput :=
  MkCreateInput "Amina" "" "" "" []
    [MkIdentifierIn IdentPhone "00254 700 123 456" true; MkIdentifierIn IdentEmail "Amina@Example.com" false]
    ["vip"; "vip"].

Definition juma : CreateInput :=
  MkCreateInput "Juma" "" "sw" "" [] [MkIdentifierIn IdentHandle "@juma" true] [].

Definition empty_st : st := MkSt empty_db None 0.

Lemma empty_identities_wf : identities_wf empty_db.
Proof. split; [constructor|constructor|apply map_Forall_empty]. Qed.

Lemma customer_create_atomic_witness :
  identities_wf (committed empty_st)
  /\ let '(r, s') := Create "t1" amina (env_fault 6) empty_st in
     (committed s' = empty_db) /\ identities_wf (committed s').
Proof.
  split; [exact empty_identities_wf|].
  pose proof (customer_create_atomic "t1" amina (env_fault 6) empty_st empty_identities_wf) as H.
  destruct (Create "t1" amina (env_fault 6) empty_st) as [r s'] eqn:E.
  split; [|exact (proj1 H)]. injection E as _ <-. vm_compute. reflexivity.
Defined.

Lemma customer_resolves_witness :
  exists v s', Create "t1" amina env0 empty_st = (Ok v, s')
  /\ exists v', (Resolve "t1" IdentPhone " +254700123456 " env0
                   (registrations [(env0, "t1", juma)] s')).1 = Ok v'
                /\ view_customer v' = view_customer v.
Proof.
  destruct (Create "t1" amina env0 empty_st) as [[v|x] s'] eqn:E; [|vm_compute in E; discriminate].
  exists v, s'. split; [reflexivity|].
  refine (customer_resolves "t1" amina env0 empty_st v s' empty_identities_wf E [(env0, "t1", juma)]
            (MkIdentifierIn IdentPhone "00254 700 123 456" true) _ env0 _ _ env0_healthy).
  - apply elem_of_cons. left. reflexivity.
  - vm_compute. reflexivity.
Defined.
