(* ===== verification/Agents.v ===== *)
(** * internal/agents/service.go: who serves

    The use-cases over the table [agents] (unique by tenant and external
    identity) with [agent_skills]; the skills of a row are kept with it, in
    insertion order. *)

From Stdlib Require Import String.
From S2P Require Import Prelude GoStd AppErrors Store Sql Wp Pagination.

Local Open Scope Z_scope.

Record CreateInput := MkCreateInput {
  ai_ExternalIdentity : string;
  ai_DisplayName : string;
  ai_Email : string;
  ai_Language : string;
  ai_Skills : list Skill;
}.

Definition with_skills (l : list Skill) (a : AgentRow) : AgentRow :=
  MkAgentRow (ag_ID a) (ag_TenantID a) (ag_ExternalIdentity a) (ag_DisplayName a) (ag_Email a)
    (ag_Language a) (ag_Status a) l (ag_CreatedAt a) (ag_UpdatedAt a).

(** [INSERT INTO agents (...)] with the column defaults. *)
Definition ins_agent (a : AgentRow) : stmt := fun now d =>
  match d_agents d !! ag_ID a with
  | Some _ => None
  | None =>
      if existsb (fun kv => String.eqb (ag_TenantID kv.2) (ag_TenantID a)
                            && String.eqb (ag_ExternalIdentity kv.2) (ag_ExternalIdentity a))
           (map_to_list (d_agents d)) then None
      else
        Some (set_agents
                (<[ag_ID a := MkAgentRow (ag_ID a) (ag_TenantID a) (ag_ExternalIdentity a)
                                (ag_DisplayName a) (ag_Email a) (ag_Language a) "active" [] now now]>) d,
              1%nat)
  end.

(** [INSERT INTO agent_skills (agent_id, skill, level)]: the primary key and
    the reference to the agent. *)
Definition ins_skill (agentID : string) (sk : Skill) : stmt := fun _ d =>
  match d_agents d !! agentID with
  | None => None
  | Some a =>
      if existsb (fun s => String.eqb (sk_Skill s) (sk_Skill sk)) (ag_Skills a) then None
      else Some (set_agents (<[agentID := with_skills (ag_Skills a ++ [sk]) a]>) d, 1%nat)
  end.

Definition sel_agent (tenantID id : string) (d : DB) : option AgentRow :=
  match d_agents d !! id with
  | Some a => if String.eqb (ag_TenantID a) tenantID then Some a else None
  | None => None
  end.

(** [SELECT skill, level FROM agent_skills WHERE agent_id = $1 ORDER BY skill] *)
Definition sel_skills (id : string) (d : DB) : list Skill :=
  match d_agents d !! id with
  | Some a => stable_sort (fun x y => String.ltb (sk_Skill x) (sk_Skill y)) (ag_Skills a)
  | None => []
  end.

(** The loop over [in.Skills]: the skills appended to [a.Skills]. *)
Fixpoint insert_skills (agentID : string) (l : list Skill) : M () :=
  match l with
  | [] => mret ()
  | sk :: l =>
      if is_empty (sk_Skill sk) then throw (Invalid "agent.invalid_skill" "skill must not be empty")
      else if (sk_Level sk <? 1) || (5 <? sk_Level sk) then
        throw (Invalid "agent.invalid_skill_level" "skill level must be 1-5")
      else
      r ← tx_Exec (ins_skill agentID sk);
      match r with
      | SqlErr x => throw (write_failed x)
      | SqlOk _ => insert_skills agentID l
      end
  end.

Definition Create (tenantID : string) (i : CreateInput) : M AgentRow :=
  if is_empty (ai_ExternalIdentity i) || is_empty (ai_DisplayName i) then
    throw (Invalid "agent.identity_required" "external_identity and display_name are required")
  else
  id ← uuid_NewString;
  created ← time_Now;
  updated ← time_Now;
  let a := MkAgentRow id tenantID (ai_ExternalIdentity i) (ai_DisplayName i) (ai_Email i)
             (defaultStr (ai_Language i) "en") "active" [] created updated in
  with_tx "write failed" (
    r ← tx_Exec (ins_agent a);
    match r with
    | SqlErr UniqueViolation =>
        throw (Conflict "agent.identity_exists" "external identity already registered")
    | SqlErr x => throw (write_failed x)
    | SqlOk _ =>
        _ ← insert_skills id (ai_Skills i);
        _ ← commit_or "write failed";
        mret (with_skills (ai_Skills i) a)
    end).

Definition Get (tenantID id : string) : M AgentRow :=
  q ← pool_Query (sel_agent tenantID id);
  match q with
  | SqlErr x => throw (read_failed x)
  | SqlOk None => throw (NotFound "agent.not_found" "agent not found")
  | SqlOk (Some a) =>
      q ← pool_Query (sel_skills (ag_ID a));
      match q with
      | SqlErr x => throw (read_failed x)
      | SqlOk l => mret (with_skills l a)
      end
  end.

(** [ORDER BY created_at DESC, id] *)
Definition newest_first (a b : AgentRow) : bool :=
  if ag_CreatedAt a =? ag_CreatedAt b then String.ltb (ag_ID a) (ag_ID b)
  else ag_CreatedAt b <? ag_CreatedAt a.

(** The columns the listing scans; the other fields keep their zero value. *)
Definition agent_row (a : AgentRow) : AgentRow :=
  MkAgentRow (ag_ID a) "" (ag_ExternalIdentity a) (ag_DisplayName a) (ag_Email a) (ag_Language a)
    (ag_Status a) [] (ag_CreatedAt a) (ag_UpdatedAt a).

(** [List] *)
Definition ListAgents (tenantID : string) (page : Page) : M (list AgentRow * string) :=
  q ← pool_Query (fun d => stable_sort newest_first
         (List.filter (fun a => String.eqb (ag_TenantID a) tenantID)
            (map snd (map_to_list (d_agents d)))));
  match q with
  | SqlErr x => throw (read_failed x)
  | SqlOk rows => mret (window (map agent_row rows) page)
  end.
