(* ===== verification/Queues.v ===== *)
(** * internal/queues/service.go: where work waits

    The use-cases over the table [queues] (unique by tenant and name) with
    [queue_skills]; the skills of a row are kept with it, in insertion
    order. *)

From Stdlib Require Import String.
From S2P Require Import Prelude GoStd AppErrors Store Sql Wp Pagination.
From S2P Require Customers.

Local Open Scope Z_scope.

Record CreateInput := MkCreateInput {
  qi_Name : string;
  qi_Description : string;
  qi_Priority : Z;
  qi_BusinessHours : dict;
  qi_SLASeconds : Z;
  qi_Skills : list string;
}.

Definition with_skills (l : list string) (q : Queue) : Queue :=
  MkQueue (q_ID q) (q_TenantID q) (q_Name q) (q_Description q) (q_Priority q) (q_BusinessHours q)
    (q_SLASeconds q) (q_Status q) l (q_CreatedAt q) (q_UpdatedAt q).

(** [INSERT INTO queues (...)] with the column defaults. *)
Definition ins_queue (q : Queue) : stmt := fun now d =>
  match d_queues d !! q_ID q with
  | Some _ => None
  | None =>
      if existsb (fun kv => String.eqb (q_TenantID kv.2) (q_TenantID q)
                            && String.eqb (q_Name kv.2) (q_Name q))
           (map_to_list (d_queues d)) then None
      else
        Some (set_queues
                (<[q_ID q := MkQueue (q_ID q) (q_TenantID q) (q_Name q) (q_Description q) (q_Priority q)
                               (q_BusinessHours q) (q_SLASeconds q) "active" [] now now]>) d, 1%nat)
  end.

(** [INSERT INTO queue_skills (queue_id, skill)] *)
Definition ins_skill (queueID sk : string) : stmt := fun _ d =>
  match d_queues d !! queueID with
  | None => None
  | Some q =>
      if existsb (String.eqb sk) (q_Skills q) then None
      else Some (set_queues (<[queueID := with_skills (q_Skills q ++ [sk]) q]>) d, 1%nat)
  end.

Definition sel_queue (tenantID id : string) (d : DB) : option Queue :=
  match d_queues d !! id with
  | Some q => if String.eqb (q_TenantID q) tenantID then Some q else None
  | None => None
  end.

Definition sel_skills (id : string) (d : DB) : list string :=
  match d_queues d !! id with
  | Some q => stable_sort String.ltb (q_Skills q)
  | None => []
  end.

Fixpoint insert_skills (queueID : string) (l : list string) : M () :=
  match l with
  | [] => mret ()
  | sk :: l =>
      if is_empty sk then throw (Invalid "queue.invalid_skill" "skills must not be empty") else
      r ← tx_Exec (ins_skill queueID sk);
      match r with
      | SqlErr x => throw (write_failed x)
      | SqlOk _ => insert_skills queueID l
      end
  end.

Definition Create (tenantID : string) (i : CreateInput) : M Queue :=
  if is_empty (qi_Name i) then throw (Invalid "queue.name_required" "name is required") else
  let prio := if qi_Priority i =? 0 then 5 else qi_Priority i in
  if (prio <? 1) || (10 <? prio) then
    throw (Invalid "queue.invalid_priority" "priority must be 1-10") else
  let sla := if qi_SLASeconds i =? 0 then 60 else qi_SLASeconds i in
  if (sla <? 5) || (3600 <? sla) then
    throw (Invalid "queue.invalid_sla" "sla_seconds must be 5-3600") else
  id ← uuid_NewString;
  created ← time_Now;
  updated ← time_Now;
  let q := MkQueue id tenantID (qi_Name i) (qi_Description i) prio (qi_BusinessHours i) sla "active" []
             created updated in
  with_tx "write failed" (
    r ← tx_Exec (ins_queue q);
    match r with
    | SqlErr UniqueViolation => throw (Conflict "queue.name_exists" "queue name already exists")
    | SqlErr x => throw (write_failed x)
    | SqlOk _ =>
        _ ← insert_skills id (Customers.dedupe (qi_Skills i));
        _ ← commit_or "write failed";
        mret (with_skills (Customers.dedupe (qi_Skills i)) q)
    end).

Definition Get (tenantID id : string) : M Queue :=
  r ← pool_Query (sel_queue tenantID id);
  match r with
  | SqlErr x => throw (read_failed x)
  | SqlOk None => throw (NotFound "queue.not_found" "queue not found")
  | SqlOk (Some q) =>
      r ← pool_Query (sel_skills (q_ID q));
      match r with
      | SqlErr x => throw (read_failed x)
      | SqlOk l => mret (with_skills l q)
      end
  end.

(** [ORDER BY priority, name] *)
Definition by_priority (a b : Queue) : bool :=
  if q_Priority a =? q_Priority b then String.ltb (q_Name a) (q_Name b)
  else q_Priority a <? q_Priority b.

(** The columns the listing scans; the other fields keep their zero value. *)
Definition queue_row (q : Queue) : Queue :=
  MkQueue (q_ID q) "" (q_Name q) (q_Description q) (q_Priority q) [] (q_SLASeconds q) (q_Status q) []
    (q_CreatedAt q) (q_UpdatedAt q).

(** [List] *)
Definition ListQueues (tenantID : string) (page : Page) : M (list Queue * string) :=
  q ← pool_Query (fun d => stable_sort by_priority
         (List.filter (fun q => String.eqb (q_TenantID q) tenantID)
            (map snd (map_to_list (d_queues d)))));
  match q with
  | SqlErr x => throw (read_failed x)
  | SqlOk rows => mret (window (map queue_row rows) page)
  end.
