(* ===== verification/DirectoryProps.v ===== *)
(** * Properties of the agent and queue registries *)

From Stdlib Require Import String.
From S2P Require Import Prelude GoStd AppErrors Store Sql Wp.
From S2P Require Customers Agents Queues.

Local Open Scope Z_scope.

(** ** The rows the services can leave *)

(** The constraints and checks of the two tables. *)
Record directory_wf (d : DB) : Prop := {
  dw_agents : forall i j a b, d_agents d !! i = Some a -> d_agents d !! j = Some b ->
    ag_TenantID a = ag_TenantID b -> ag_ExternalIdentity a = ag_ExternalIdentity b -> i = j;
  dw_levels : map_Forall (fun _ a => NoDup (map sk_Skill (ag_Skills a))
    /\ Forall (fun s => sk_Skill s <> "" /\ 1 <= sk_Level s <= 5) (ag_Skills a)) (d_agents d);
  dw_queues : forall i j a b, d_queues d !! i = Some a -> d_queues d !! j = Some b ->
    q_TenantID a = q_TenantID b -> q_Name a = q_Name b -> i = j;
  dw_bounds : map_Forall (fun _ q => q_Name q <> "" /\ 1 <= q_Priority q <= 10
    /\ 5 <= q_SLASeconds q <= 3600 /\ NoDup (q_Skills q)) (d_queues d);
}.

(** A key present in a table is found by the uniqueness scan. *)
Lemma existsb_map_false {A} (f : string * A -> bool) (m : gmap string A) k x :
  existsb f (map_to_list m) = false -> m !! k = Some x -> f (k, x) = false.
Proof.
  intros He Hk. apply not_true_iff_false. rewrite <- not_true_iff_false, existsb_exists in He.
  intros Hf. apply He. exists (k, x). split; [|done]. by apply list_elem_of_In, elem_of_map_to_list.
Qed.

(** Inserting a row whose constraint columns are new keeps them unique. *)
Lemma unique_insert {A} (R : A -> A -> Prop) (m : gmap string A) k x :
  Symmetric R ->
  (forall i j a b, m !! i = Some a -> m !! j = Some b -> R a b -> i = j) ->
  (forall j b, m !! j = Some b -> R x b -> j = k) ->
  forall i j a b, <[k := x]> m !! i = Some a -> <[k := x]> m !! j = Some b -> R a b -> i = j.
Proof.
  intros Hs Hm Hx i j a b [[<- <-]|[? Ha]]%lookup_insert_Some [[<- <-]|[? Hb]]%lookup_insert_Some HR.
  - done.
  - symmetry. by eapply Hx.
  - by eapply Hx.
  - by eapply Hm.
Qed.

Section agents.
Import Agents.

Definition skill_ok (s : Skill) : Prop := sk_Skill s <> "" /\ 1 <= sk_Level s <= 5.

Lemma wp_insert_skills e id l c d now n a (Q : result () -> st -> Prop) :
  d_agents d !! id = Some a ->
  (forall x d' n', Q (Err x) (MkSt c (Some (d', now)) n')) ->
  (forall n', Forall skill_ok l ->
     (NoDup (map sk_Skill (ag_Skills a)) -> NoDup (map sk_Skill (ag_Skills a ++ l))) ->
     Q (Ok ()) (MkSt c (Some (set_agents (<[id := with_skills (ag_Skills a ++ l) a]>) d, now)) n')) ->
  wp (insert_skills id l) e (MkSt c (Some (d, now)) n) Q.
Proof.
  revert d n a. induction l as [|sk l IH]; intros d n a Ha HE HO; cbn [insert_skills].
  - wp_go. specialize (HO n). rewrite app_nil_r in HO.
    assert (set_agents (<[id := with_skills (ag_Skills a) a]>) d = d) as E.
    { destruct d, a. unfold set_agents, with_skills. cbn in *. f_equal. by apply insert_id. }
    rewrite E in HO. by apply HO.
  - wp_go; try apply HE. apply is_empty_false in E. apply orb_false_iff in E0 as [E1%Z.ltb_ge E2%Z.ltb_ge].
    simplify_eq. unfold ins_skill in Hx. rewrite Ha in Hx. destruct (existsb _ _) eqn:Ex; simplify_eq.
    eapply IH; [cbn [d_agents set_agents]; by rewrite lookup_insert_eq|done|]. intros n' Hl Hnd.
    cbn [ag_Skills with_skills] in *. rewrite <- app_assoc in *. cbn [app] in *.
    assert (set_agents (<[id := with_skills (ag_Skills a ++ sk :: l) (with_skills (ag_Skills a ++ [sk]) a)]>)
              (set_agents (<[id := with_skills (ag_Skills a ++ [sk]) a]>) d)
            = set_agents (<[id := with_skills (ag_Skills a ++ sk :: l) a]>) d) as ->.
    { unfold set_agents. cbn. by rewrite insert_insert_eq. }
    apply HO; [by constructor|]. intros Hd. apply Hnd. rewrite map_app. apply NoDup_app. split; [done|].
    split; [|apply NoDup_singleton]. intros x Hx [=->]%list_elem_of_singleton.
    apply list_elem_of_fmap in Hx as (s & Hs & Hin). rewrite <- not_true_iff_false, existsb_exists in Ex.
    apply Ex. exists s. split; [by apply list_elem_of_In|]. by apply String.eqb_eq.
Qed.

(** The row a successful [Create] leaves. *)
Definition agent_created (tenant : string) (i : CreateInput) (d d' : DB) (a : AgentRow) : Prop :=
  exists now,
  d_agents d !! ag_ID a = None
  /\ d' = set_agents (<[ag_ID a := MkAgentRow (ag_ID a) tenant (ai_ExternalIdentity i) (ai_DisplayName i)
                          (ai_Email i) (defaultStr (ai_Language i) "en") "active" (ai_Skills i) now now]>) d
  /\ ag_TenantID a = tenant /\ ag_ExternalIdentity a = ai_ExternalIdentity i /\ ag_Skills a = ai_Skills i.

(** Registering an agent, in every environment: an error leaves every
    table as it was, success adds exactly the agent of the request with its
    skills, and the registry stays well-formed: one agent per tenant and
    external identity, one level between 1 and 5 per skill. *)
Lemma agent_create_atomic tenant i e s (Hwf : directory_wf (committed s)) :
  let '(r, s') := Agents.Create tenant i e s in
  directory_wf (committed s')
  /\ match r with
     | Err _ => committed s' = committed s
     | Ok a => agent_created tenant i (committed s) (committed s') a
     end.
Proof.
  enough (wp (Agents.Create tenant i) e s (fun r s' => directory_wf (committed s')
    /\ match r with Err _ => committed s' = committed s
       | Ok a => agent_created tenant i (committed s) (committed s') a end)) as Hw by exact Hw.
  unfold Create. wp_go; try done. simplify_eq.
  unfold ins_agent in Hx. cbn [ag_ID ag_TenantID ag_ExternalIdentity ag_DisplayName ag_Email ag_Language] in Hx.
  destruct (d_agents _ !! _) eqn:Hid; [done|]. destruct (existsb _ _) eqn:Hex; simplify_eq.
  eapply wp_insert_skills; [cbn [d_agents set_agents]; by rewrite lookup_insert_eq|done|].
  intros n' Hl Hnd. cbn [ag_Skills with_skills app] in *. wp_go; [done|]. cbn [committed].
  assert (forall x y : AgentRow, set_agents (<[uuid_of e (steps s) := x]>)
            (set_agents (<[uuid_of e (steps s) := y]>) (committed s))
          = set_agents (<[uuid_of e (steps s) := x]>) (committed s)) as Hset
    by (intros; unfold set_agents; cbn; by rewrite insert_insert_eq).
  rewrite Hset. unfold with_skills. cbn. split.
  - destruct Hwf as [Ha Hlv Hq Hb]. split; [| |done|done].
    + cbn [d_agents set_agents]. intros k j a b Hi Hj Ht Hx.
      eapply (unique_insert (fun a b => ag_TenantID a = ag_TenantID b
        /\ ag_ExternalIdentity a = ag_ExternalIdentity b)); [|naive_solver| |exact Hi|exact Hj|done].
      * intros ? ? [? ?]. done.
      * cbn. intros j' b' Hj' [Ht' Hx']. exfalso.
        pose proof (existsb_map_false _ _ _ _ Hex Hj') as Hdup. cbn in Hdup.
        by rewrite <- Ht', <- Hx', !String.eqb_refl in Hdup.
    + cbn [d_agents set_agents]. apply map_Forall_insert_2; [|done]. cbn. split; [apply Hnd; constructor|].
      done.
  - eexists. split; [exact Hid|]. split; [reflexivity|]. done.
Qed.
End agents.

Section queues.
Import Queues.

Lemma wp_insert_queue_skills e id l c d now n q (Q : result () -> st -> Prop) :
  d_queues d !! id = Some q ->
  (forall x d' n', Q (Err x) (MkSt c (Some (d', now)) n')) ->
  (forall n', Forall (fun s => s <> "") l ->
     (NoDup (q_Skills q) -> NoDup (q_Skills q ++ l)) ->
     Q (Ok ()) (MkSt c (Some (set_queues (<[id := with_skills (q_Skills q ++ l) q]>) d, now)) n')) ->
  wp (insert_skills id l) e (MkSt c (Some (d, now)) n) Q.
Proof.
  revert d n q. induction l as [|sk l IH]; intros d n q Ha HE HO; cbn [insert_skills].
  - wp_go. specialize (HO n). rewrite app_nil_r in HO.
    assert (set_queues (<[id := with_skills (q_Skills q) q]>) d = d) as E.
    { destruct d, q. unfold set_queues, with_skills. cbn in *. f_equal. by apply insert_id. }
    rewrite E in HO. by apply HO.
  - wp_go; try apply HE. apply is_empty_false in E.
    simplify_eq. unfold ins_skill in Hx. rewrite Ha in Hx. destruct (existsb _ _) eqn:Ex; simplify_eq.
    eapply IH; [cbn [d_queues set_queues]; by rewrite lookup_insert_eq|done|]. intros n' Hl Hnd.
    cbn [q_Skills with_skills] in *. rewrite <- app_assoc in *. cbn [app] in *.
    assert (set_queues (<[id := with_skills (q_Skills q ++ sk :: l) (with_skills (q_Skills q ++ [sk]) q)]>)
              (set_queues (<[id := with_skills (q_Skills q ++ [sk]) q]>) d)
            = set_queues (<[id := with_skills (q_Skills q ++ sk :: l) q]>) d) as ->.
    { unfold set_queues. cbn. by rewrite insert_insert_eq. }
    apply HO; [by constructor|]. intros Hd. apply Hnd. apply NoDup_app. split; [done|].
    split; [|apply NoDup_singleton]. intros x Hx ->%list_elem_of_singleton.
    rewrite <- not_true_iff_false, existsb_exists in Ex.
    apply Ex. exists sk. split; [by apply list_elem_of_In|]. apply String.eqb_refl.
Qed.

Definition queue_created (tenant : string) (i : CreateInput) (d d' : DB) (q : Queue) : Prop :=
  exists now,
  d_queues d !! q_ID q = None
  /\ d' = set_queues (<[q_ID q := MkQueue (q_ID q) tenant (qi_Name i) (qi_Description i) (q_Priority q)
                          (qi_BusinessHours i) (q_SLASeconds q) "active" (Customers.dedupe (qi_Skills i))
                          now now]>) d
  /\ (q_Priority q = if qi_Priority i =? 0 then 5 else qi_Priority i)
  /\ (q_SLASeconds q = if qi_SLASeconds i =? 0 then 60 else qi_SLASeconds i).

(** Registering a queue, in every environment: an error leaves every table
    as it was, success adds exactly the queue of the request with its distinct
    skills, and the registry stays well-formed: names are unique in a tenant,
    the priority is between 1 and 10 and the SLA between 5 and 3600 seconds. *)
Lemma queue_create_atomic tenant i e s (Hwf : directory_wf (committed s)) :
  let '(r, s') := Queues.Create tenant i e s in
  directory_wf (committed s')
  /\ match r with
     | Err _ => committed s' = committed s
     | Ok q => queue_created tenant i (committed s) (committed s') q
     end.
Proof.
  enough (wp (Queues.Create tenant i) e s (fun r s' => directory_wf (committed s')
    /\ match r with Err _ => committed s' = committed s
       | Ok q => queue_created tenant i (committed s) (committed s') q end)) as Hw by exact Hw.
  unfold Create. cbv zeta. wp_go; try done. simplify_eq.
  apply is_empty_false in E. apply orb_false_iff in E0 as [P1%Z.ltb_ge P2%Z.ltb_ge].
  apply orb_false_iff in E1 as [S1%Z.ltb_ge S2%Z.ltb_ge].
  unfold ins_queue in Hx. cbn [q_ID q_TenantID q_Name q_Description q_Priority q_BusinessHours q_SLASeconds] in Hx.
  destruct (d_queues _ !! _) eqn:Hid; [done|]. destruct (existsb _ _) eqn:Hex; simplify_eq.
  eapply wp_insert_queue_skills; [cbn [d_queues set_queues]; by rewrite lookup_insert_eq|done|].
  intros n' Hl Hnd. cbn [q_Skills with_skills app] in *. wp_go; [done|]. cbn [committed].
  assert (forall x y : Queue, set_queues (<[uuid_of e (steps s) := x]>)
            (set_queues (<[uuid_of e (steps s) := y]>) (committed s))
          = set_queues (<[uuid_of e (steps s) := x]>) (committed s)) as Hset
    by (intros; unfold set_queues; cbn; by rewrite insert_insert_eq).
  rewrite Hset. unfold with_skills. cbn. split.
  - destruct Hwf as [Ha Hlv Hq Hb]. split; [done|done| |].
    + cbn [d_queues set_queues]. intros k j a b Hi Hj Ht Hx.
      eapply (unique_insert (fun a b => q_TenantID a = q_TenantID b
        /\ q_Name a = q_Name b)); [|naive_solver| |exact Hi|exact Hj|done].
      * intros ? ? [? ?]. done.
      * cbn. intros j' b' Hj' [Ht' Hx']. exfalso.
        pose proof (existsb_map_false _ _ _ _ Hex Hj') as Hdup. cbn in Hdup.
        by rewrite <- Ht', <- Hx', !String.eqb_refl in Hdup.
    + cbn [d_queues set_queues]. apply map_Forall_insert_2; [|done]. cbn. split_and!; try done; [lia..|].
      apply Hnd. constructor.
  - eexists. split; [exact Hid|]. split; [reflexivity|]. done.
Qed.
End queues.

(** ** Examples *)

Lemma empty_directory_wf : directory_wf empty_db.
Proof. split; try apply map_Forall_empty; by intros ? ? ? ? ?. Qed.

Lemma agent_create_atomic_witness :
  let i := Agents.MkCreateInput "amina@idp" "Amina" "" "" [MkSkill "billing" 3] in
  exists a s', Agents.Create "t1" i env0 (MkSt empty_db None 0) = (Ok a, s')
               /\ agent_created "t1" i empty_db (committed s') a.
Proof.
  cbv zeta. set (i := Agents.MkCreateInput _ _ _ _ _).
  pose proof (agent_create_atomic "t1" i env0 (MkSt empty_db None 0) empty_directory_wf) as H.
  destruct (Agents.Create "t1" i env0 (MkSt empty_db None 0)) as [[a|x] s'] eqn:E; [|vm_compute in E; discriminate].
  exists a, s'. split; [reflexivity|exact (proj2 H)].
Defined.

Lemma queue_create_atomic_witness :
  let i := Queues.MkCreateInput "support" "" 0 [] 0 ["billing"; "billing"] in
  exists q s', Queues.Create "t1" i env0 (MkSt empty_db None 0) = (Ok q, s')
               /\ q_Priority q = 5 /\ queue_created "t1" i empty_db (committed s') q.
Proof.
  cbv zeta. set (i := Queues.MkCreateInput _ _ _ _ _ _).
  pose proof (queue_create_atomic "t1" i env0 (MkSt empty_db None 0) empty_directory_wf) as H.
  destruct (Queues.Create "t1" i env0 (MkSt empty_db None 0)) as [[q|x] s'] eqn:E; [|vm_compute in E; discriminate].
  exists q, s'. split; [reflexivity|]. split; [|exact (proj2 H)]. injection E as <- _. vm_compute. reflexivity.
Defined.
