(* ===== verification/Interactions.v ===== *)
(** * internal/interactions: the unified interaction and its lifecycle

    [State]: the pure state machine of state.go. [Service]: the use-cases of
    service.go over the store. *)

From Stdlib Require Import String.
From S2P Require Import Prelude GoStd AppErrors Events Store Sql Wp Pagination Idempotency.

Local Open Scope Z_scope.

(** ** state.go *)

Definition Status := string.

Definition StatusPending : Status := "pending".
Definition StatusActive : Status := "active".
Definition StatusWrapup : Status := "wrapup".
Definition StatusCompleted : Status := "completed".
Definition StatusFailed : Status := "failed".
Definition StatusCanceled : Status := "canceled".

Definition ChannelVoice := "voice".
Definition ChannelWhatsApp := "whatsapp".
Definition ChannelSMS := "sms".
Definition ChannelEmail := "email".
Definition ChannelChat := "chat".
Definition ChannelUSSD := "ussd".

Definition DirectionInbound := "inbound".
Definition DirectionOutbound := "outbound".

(** The [transitions] map; a missing key reads as the nil slice. *)
Definition transitions (from : Status) : list Status :=
  if String.eqb from StatusPending then [StatusActive; StatusCanceled; StatusFailed]
  else if String.eqb from StatusActive then [StatusWrapup; StatusCompleted; StatusFailed]
  else if String.eqb from StatusWrapup then [StatusCompleted; StatusFailed]
  else [].

Definition CanTransition (from to : Status) : bool :=
  existsb (fun s => String.eqb s to) (transitions from).

Definition NextStates (from : Status) : list Status := transitions from.

(** [Transition(from, to)]: the error, if the move is illegal. *)
Definition Transition (from to : Status) : option Error :=
  if String.eqb from to then
    Some (Conflict "interaction.invalid_transition" ("interaction is already " +:+ from))
  else if negb (CanTransition from to) then
    Some (WithDetails
      (Conflict "interaction.invalid_transition"
         ("cannot move interaction from " +:+ from +:+ " to " +:+ to))
      (VMap [("from", VStr from); ("requested", VStr to);
             ("allowed", VList (map VStr (NextStates from)))]))
  else None.

Definition Terminal (s : Status) : bool :=
  match transitions s with [] => true | _ => false end.

(** The statuses of the [interactions.status] CHECK. *)
Definition statuses : list Status :=
  [StatusPending; StatusActive; StatusWrapup; StatusCompleted; StatusFailed; StatusCanceled].

(** ** service.go: inputs and helpers *)

Record CreateInput := MkCreateInput {
  ci_ConversationID : string;
  ci_CustomerID : string;
  ci_Channel : string;
  ci_Direction : string;
  ci_Source : string;
  ci_Destination : string;
  ci_Provider : string;
  ci_ProviderRef : string;
  ci_IdempotencyKey : string;
  ci_Attributes : dict;
}.

Definition with_key (k : string) (i : CreateInput) : CreateInput :=
  MkCreateInput (ci_ConversationID i) (ci_CustomerID i) (ci_Channel i) (ci_Direction i)
    (ci_Source i) (ci_Destination i) (ci_Provider i) (ci_ProviderRef i) k (ci_Attributes i).

Definition channel_known (c : string) : bool :=
  existsb (String.eqb c)
    [ChannelVoice; ChannelWhatsApp; ChannelSMS; ChannelEmail; ChannelChat; ChannelUSSD].

(** ** service.go: SQL statements *)

(** [... FROM interactions WHERE id = $1 AND tenant_id = $2] *)
Definition sel_interaction (tenantID id : string) (d : DB) : option Rec :=
  match d_interactions d !! id with
  | Some r => if String.eqb (r_TenantID r) tenantID then Some r else None
  | None => None
  end.

(** The [UNIQUE] constraints of the table: the primary key,
    [(tenant_id, provider, provider_ref)] and [(tenant_id, idempotency_key)],
    NULLs never conflicting. *)
Definition clashes (r r' : Rec) : bool :=
  String.eqb (r_TenantID r) (r_TenantID r')
  && ((negb (is_empty (r_ProviderRef r))
       && String.eqb (r_Provider r) (r_Provider r')
       && String.eqb (r_ProviderRef r) (r_ProviderRef r'))
      || (negb (is_empty (r_IdempotencyKey r))
          && String.eqb (r_IdempotencyKey r) (r_IdempotencyKey r'))).

Definition ins_interaction (r : Rec) : stmt := fun _ d =>
  match d_interactions d !! r_ID r with
  | Some _ => None
  | None =>
      if existsb (fun kv => clashes r kv.2) (map_to_list (d_interactions d)) then None
      else Some (set_interactions (<[r_ID r := r]>) d, 1%nat)
  end.

Definition touch_conversation (t : Z) (c : Conversation) : Conversation :=
  MkConversation (cv_ID c) (cv_TenantID c) (cv_CustomerID c) (cv_Channel c) (cv_Status c)
    (cv_Subject c) (cv_AssignedAgentID c) (cv_AssignedQueueID c) (cv_UnreadCount c + 1)
    (Some t) (cv_CreatedAt c) t (cv_ClosedAt c).

(** [UPDATE conversations SET last_interaction_at = now(), updated_at = now(),
    unread_count = unread_count + 1 WHERE id = $1 AND tenant_id = $2] *)
Definition upd_touch (tenantID id : string) : stmt := fun now d =>
  match sel_conversation tenantID id d with
  | Some c => Some (set_conversations (<[id := touch_conversation now c]>) d, 1%nat)
  | None => Some (d, 0%nat)
  end.

Definition set_status (to : Status) (answeredAt endedAt : option Z) (endReason : string)
    (now : Z) (r : Rec) : Rec :=
  MkRec (r_ID r) (r_TenantID r) (r_ConversationID r) (r_CustomerID r) (r_Channel r)
    (r_Direction r) to (r_Source r) (r_Destination r) (r_AssignedAgentID r)
    (r_AssignedQueueID r) (r_StartedAt r) (coalesce_time answeredAt (r_AnsweredAt r))
    endedAt (coalesce_str endReason (r_EndReason r)) (r_Provider r) (r_ProviderRef r)
    (r_IdempotencyKey r) (r_Attributes r) now.

(** [UPDATE interactions SET status = $3, answered_at = coalesce($4, answered_at),
    ended_at = $5, end_reason = coalesce($6, end_reason), updated_at = now()
    WHERE id = $1 AND tenant_id = $2] *)
Definition upd_status (tenantID id : string) (to : Status) (answeredAt endedAt : option Z)
    (endReason : string) : stmt := fun now d =>
  match sel_interaction tenantID id d with
  | Some r =>
      Some (set_interactions (<[id := set_status to answeredAt endedAt endReason now r]>) d, 1%nat)
  | None => Some (d, 0%nat)
  end.

Definition set_assignee (agentID queueID : string) (now : Z) (r : Rec) : Rec :=
  MkRec (r_ID r) (r_TenantID r) (r_ConversationID r) (r_CustomerID r) (r_Channel r)
    (r_Direction r) (r_Status r) (r_Source r) (r_Destination r)
    (coalesce_str agentID (r_AssignedAgentID r)) (coalesce_str queueID (r_AssignedQueueID r))
    (r_StartedAt r) (r_AnsweredAt r) (r_EndedAt r) (r_EndReason r) (r_Provider r)
    (r_ProviderRef r) (r_IdempotencyKey r) (r_Attributes r) now.

(** [status IN ('pending','active')] *)
Definition assignable (r : Rec) : bool :=
  String.eqb (r_Status r) "pending" || String.eqb (r_Status r) "active".

Definition upd_assign (tenantID id agentID queueID : string) : stmt := fun now d =>
  match sel_interaction tenantID id d with
  | Some r =>
      if assignable r then
        Some (set_interactions (<[id := set_assignee agentID queueID now r]>) d, 1%nat)
      else Some (d, 0%nat)
  | None => Some (d, 0%nat)
  end.

(** [SELECT id FROM conversations WHERE tenant_id = $1 AND customer_id = $2 AND
    channel = $3 AND status = 'open' ORDER BY updated_at DESC LIMIT 1] *)
Definition open_match (tenantID customerID channel : string) (c : Conversation) : bool :=
  String.eqb (cv_TenantID c) tenantID && String.eqb (cv_CustomerID c) customerID
  && String.eqb (cv_Channel c) channel && String.eqb (cv_Status c) "open".

Definition newer (a b : string * Conversation) : string * Conversation :=
  if cv_UpdatedAt a.2 <? cv_UpdatedAt b.2 then b else a.

Definition sel_open_conversation (tenantID customerID channel : string) (d : DB)
    : option string :=
  match List.filter (fun kv => open_match tenantID customerID channel kv.2)
          (map_to_list (d_conversations d)) with
  | [] => None
  | c :: cs => Some (fold_left newer cs c).1
  end.

(** [INSERT INTO conversations (id, tenant_id, customer_id, channel)] with the
    column defaults. *)
Definition ins_conversation (id tenantID customerID channel : string) : stmt := fun now d =>
  match d_conversations d !! id with
  | Some _ => None
  | None =>
      Some (set_conversations
              (<[id := MkConversation id tenantID customerID channel "open" "" "" "" 0
                         None now now None]>) d, 1%nat)
  end.

(** [INSERT INTO conversation_participants ... VALUES ($1,'customer',$2)] *)
Definition ins_participant (convID customerID : string) : stmt := fun _ d =>
  if existsb (fun p => String.eqb (pt_ConversationID p) convID
                       && String.eqb (pt_Type p) "customer" && String.eqb (pt_ID p) customerID)
       (d_participants d) then None
  else Some (set_participants (fun l => l ++ [MkParticipant convID "customer" customerID]) d, 1%nat).

(** [SELECT id FROM interactions WHERE tenant_id = $1 AND provider = $2 AND
    provider_ref = $3] *)
Definition sel_by_provider_ref (tenantID provider ref : string) (d : DB) : option string :=
  match List.filter (fun kv => String.eqb (r_TenantID kv.2) tenantID
                               && String.eqb (r_Provider kv.2) provider
                               && String.eqb (r_ProviderRef kv.2) ref)
          (map_to_list (d_interactions d)) with
  | [] => None
  | r :: _ => Some r.1
  end.

(** ** service.go: the use-cases *)

Section Service.
(** [s.source] *)
Variable source : string.

Definition outbox_failed (x : Error) : Error :=
  WithCause (Internal "outbox.insert_failed" "write failed") (AppErr x).

(** [if err := s.outbox.Insert(ctx, tx, env); err != nil { return ... }] *)
Definition outbox_Insert (v : option Envelope) : M () := on_err (Writer_Insert v) outbox_failed.

Definition Get (tenantID id : string) : M Rec :=
  mbind (fun row =>
    match row with
    | SqlErr x => throw (read_failed x)
    | SqlOk None => throw (NotFound "interaction.not_found" "interaction not found")
    | SqlOk (Some r) => mret r
    end) (pool_Query (sel_interaction tenantID id)).

(** [emit]: best effort, every failure is dropped. *)
Definition emit (topic subject tenantID : string) (data : dict) : M () := fun e s =>
  match events_New topic source subject tenantID data e s with
  | (Ok (Some v), s1) =>
      (Ok (), snd (with_tx "write failed"
         (fun e s => commit_or "write failed" e (snd (Writer_Insert (Some v) e s))) e s1))
  | (_, s1) => (Ok (), s1)
  end.

Definition created_data (r : Rec) : dict :=
  [("interaction_id", VStr (r_ID r)); ("conversation_id", VStr (r_ConversationID r));
   ("customer_id", VStr (r_CustomerID r)); ("channel", VStr (r_Channel r));
   ("direction", VStr (r_Direction r)); ("status", VStr (r_Status r))].

Definition findOrOpenConversation (tenantID : string) (i : CreateInput) : M string :=
  q ← tx_Query (sel_open_conversation tenantID (ci_CustomerID i) (ci_Channel i));
  match q with
  | SqlOk (Some convID) => mret convID
  | SqlErr x => throw (read_failed x)
  | SqlOk None =>
      convID ← uuid_NewString;
      r ← tx_Exec (ins_conversation convID tenantID (ci_CustomerID i) (ci_Channel i));
      match r with
      | SqlErr x => throw (write_failed x)
      | SqlOk _ =>
          r ← tx_Exec (ins_participant convID (ci_CustomerID i));
          match r with
          | SqlErr x => throw (write_failed x)
          | SqlOk _ =>
              v ← events_New TopicConversationOpened source convID tenantID
                    [("conversation_id", VStr convID); ("customer_id", VStr (ci_CustomerID i));
                     ("channel", VStr (ci_Channel i))];
              _ ← outbox_Insert v;
              mret convID
          end
      end
  end.

(** [findByProviderRef]: [None] stands for the nil pointer. *)
Definition findByProviderRef (tenantID provider ref : string) : M (option Rec) :=
  if is_empty ref then mret None else
  q ← pool_Query (sel_by_provider_ref tenantID provider ref);
  match q with
  | SqlOk (Some id) => or_nil (Get tenantID id)
  | _ => mret None
  end.

(** The checks before the transaction, with the derived key filled in. *)
Definition create_checks (tenantID : string) (i : CreateInput) : M CreateInput :=
  if is_empty (ci_CustomerID i) then
    throw (Invalid "interaction.customer_required" "customer_id is required")
  else if negb (channel_known (ci_Channel i)) then
    throw (Invalid "interaction.invalid_channel" "unknown channel")
  else if negb (String.eqb (ci_Direction i) DirectionInbound)
          && negb (String.eqb (ci_Direction i) DirectionOutbound) then
    throw (Invalid "interaction.invalid_direction" "direction must be inbound|outbound")
  else if is_empty (ci_Source i) || is_empty (ci_Destination i) then
    throw (Invalid "interaction.endpoints_required" "source and destination are required")
  else
  q ← pool_Query (customer_exists tenantID (ci_CustomerID i));
  match q with
  | SqlErr x => throw (read_failed x)
  | SqlOk false => throw (NotFound "customer.not_found" "customer not found")
  | SqlOk true =>
      let i := if is_empty (ci_IdempotencyKey i) && negb (is_empty (ci_ProviderRef i))
               then with_key (Derive [ci_Provider i; ci_ProviderRef i]) i else i in
      if negb (is_empty (ci_IdempotencyKey i)) then
        match Idempotency.Validate (ci_IdempotencyKey i) with
        | Some err => throw (Invalid "interaction.invalid_idempotency_key" (error_text err))
        | None => mret i
        end
      else mret i
  end.

(** Resolve or open the conversation inside the transaction. *)
Definition resolve_conversation (tenantID : string) (i : CreateInput) : M string :=
  if is_empty (ci_ConversationID i) then findOrOpenConversation tenantID i else
  q ← tx_Query (sel_conversation tenantID (ci_ConversationID i));
  match q with
  | SqlErr x => throw (read_failed x)
  | SqlOk None => throw (NotFound "conversation.not_found" "conversation not found")
  | SqlOk (Some c) =>
      if negb (String.eqb (cv_Status c) "open") then
        throw (Conflict "conversation.closed" "conversation is closed")
      else if negb (String.eqb (cv_CustomerID c) (ci_CustomerID i)) then
        throw (Conflict "conversation.customer_mismatch"
                 "customer does not belong to this conversation")
      else mret (ci_ConversationID i)
  end.

Definition new_rec (id tenantID convID provider : string) (now : Z) (i : CreateInput) : Rec :=
  MkRec id tenantID convID (ci_CustomerID i) (ci_Channel i) (ci_Direction i) StatusPending
    (ci_Source i) (ci_Destination i) "" "" now None None "" provider (ci_ProviderRef i)
    (ci_IdempotencyKey i) (ci_Attributes i) now.

Definition Create (tenantID : string) (i0 : CreateInput) : M Rec :=
  i ← create_checks tenantID i0;
  let provider := defaultStr (ci_Provider i) "internal" in
  id ← uuid_NewString;
  now ← time_Now;
  with_tx "write failed" (
    convID ← resolve_conversation tenantID i;
    let rec := new_rec id tenantID convID provider now i in
    r ← tx_Exec (ins_interaction rec);
    match r with
    | SqlErr UniqueViolation =>
        existing ← findByProviderRef tenantID provider (ci_ProviderRef i);
        match existing with
        | Some x => mret x
        | None => throw (Conflict "interaction.duplicate" "interaction already exists")
        end
    | SqlErr x => throw (write_failed x)
    | SqlOk _ =>
        r ← tx_Exec (upd_touch tenantID convID);
        match r with
        | SqlErr x => throw (write_failed x)
        | SqlOk _ =>
            v ← events_New TopicInteractionCreated source id tenantID (created_data rec);
            _ ← outbox_Insert v;
            _ ← commit_or "write failed";
            mret rec
        end
    end).

Definition transition_topic (to : Status) : string :=
  if String.eqb to StatusCompleted then TopicInteractionCompleted else TopicInteractionUpdated.

Definition transition_data (id from to endReason : string) : dict :=
  [("interaction_id", VStr id); ("from", VStr from); ("to", VStr to);
   ("end_reason", VStr endReason)].

(** [(s *Service) Transition] *)
Definition TransitionTo (tenantID id : string) (to : Status) (endReason : string) : M Rec :=
  with_tx "write failed" (
    row ← tx_Query (sel_interaction tenantID id);
    match row with
    | SqlErr x => throw (read_failed x)
    | SqlOk None => throw (NotFound "interaction.not_found" "interaction not found")
    | SqlOk (Some cur) =>
        match Transition (r_Status cur) to with
        | Some err => throw err
        | None =>
            now ← time_Now;
            let answeredAt := if String.eqb to StatusActive then Some now else None in
            let endedAt := if Terminal to then Some now else None in
            let reason := if Terminal to then endReason else "" in
            r ← tx_Exec (upd_status tenantID id to answeredAt endedAt reason);
            match r with
            | SqlErr x => throw (write_failed x)
            | SqlOk _ =>
                v ← events_New (transition_topic to) source id tenantID
                      (transition_data id (r_Status cur) to reason);
                _ ← outbox_Insert v;
                _ ← commit_or "write failed";
                Get tenantID id
            end
        end
    end).

Definition Assign (tenantID id agentID queueID : string) : M Rec :=
  if is_empty agentID && is_empty queueID then
    throw (Invalid "interaction.assign_target_required" "agent_id or queue_id required")
  else
  r ← pool_Exec (upd_assign tenantID id agentID queueID);
  match r with
  | SqlErr x => throw (write_failed x)
  | SqlOk O =>
      _ ← Get tenantID id;
      throw (Conflict "interaction.not_assignable" "interaction is not in an assignable state")
  | SqlOk _ =>
      _ ← emit "interaction.updated" id tenantID
            [("interaction_id", VStr id); ("agent_id", VStr agentID); ("queue_id", VStr queueID)];
      Get tenantID id
  end.

(** [ORDER BY started_at DESC, id] *)
Definition timeline_le (a b : Rec) : Prop :=
  r_StartedAt b < r_StartedAt a
  \/ (r_StartedAt a = r_StartedAt b /\ String.leb (r_ID a) (r_ID b) = true).

#[export] Instance timeline_le_dec a b : Decision (timeline_le a b).
Proof. unfold timeline_le. apply _. Defined.

Definition sel_timeline (tenantID convID : string) (d : DB) : list Rec :=
  merge_sort timeline_le
    (List.filter (fun r => String.eqb (r_TenantID r) tenantID
                           && String.eqb (r_ConversationID r) convID)
       (map snd (map_to_list (d_interactions d)))).

(** The columns the listing scans; the other fields keep their zero value. *)
Definition timeline_row (r : Rec) : Rec :=
  MkRec (r_ID r) "" "" "" (r_Channel r) (r_Direction r) (r_Status r) (r_Source r)
    (r_Destination r) (r_AssignedAgentID r) (r_AssignedQueueID r) (r_StartedAt r)
    (r_AnsweredAt r) (r_EndedAt r) (r_EndReason r) (r_Provider r) (r_ProviderRef r) ""
    [] 0.

Definition ListByConversation (tenantID convID : string) (page : Page)
    : M (list Rec * string) :=
  q ← pool_Query (conversation_exists tenantID convID);
  match q with
  | SqlErr x => throw (read_failed x)
  | SqlOk false => throw (NotFound "conversation.not_found" "conversation not found")
  | SqlOk true =>
      q ← pool_Query (sel_timeline tenantID convID);
      match q with
      | SqlErr x => throw (read_failed x)
      | SqlOk rows => mret (window (map timeline_row rows) page)
      end
  end.
End Service.

(** ** Lemmas: the state machine *)

Lemma CanTransition_spec from to : CanTransition from to = true <-> to ∈ NextStates from.
Proof.
  unfold CanTransition, NextStates. rewrite existsb_exists, list_elem_of_In.
  setoid_rewrite String.eqb_eq. split; [by intros (x & ? & <-)|eauto].
Qed.

Lemma transitions_irrefl s : CanTransition s s = false.
Proof.
  unfold CanTransition, transitions.
  destruct (String.eqb_spec s StatusPending) as [->|]; [done|].
  destruct (String.eqb_spec s StatusActive) as [->|]; [done|].
  by destruct (String.eqb_spec s StatusWrapup) as [->|].
Qed.

Lemma Transition_None from to : Transition from to = None <-> CanTransition from to = true.
Proof.
  unfold Transition. destruct (String.eqb_spec from to) as [<-|].
  - by rewrite transitions_irrefl.
  - by destruct (CanTransition from to).
Qed.

(** How many legal moves can still follow. *)
Definition rank (s : Status) : nat :=
  if String.eqb s StatusPending then 3
  else if String.eqb s StatusActive then 2
  else if String.eqb s StatusWrapup then 1 else 0.

Lemma transition_rank from to : Transition from to = None -> (rank to < rank from)%nat.
Proof.
  rewrite Transition_None. unfold CanTransition, transitions.
  destruct (String.eqb_spec from StatusPending) as [->|];
    [|destruct (String.eqb_spec from StatusActive) as [->|];
      [|destruct (String.eqb_spec from StatusWrapup) as [->|]]];
    cbn [existsb]; rewrite ?orb_true_iff, ?String.eqb_eq; intros H; destruct_or? H; subst;
    try done; vm_compute; repeat constructor.
Qed.

Lemma transition_to_known from to : Transition from to = None -> to ∈ statuses.
Proof.
  rewrite Transition_None, CanTransition_spec. unfold NextStates, transitions, statuses.
  repeat case_match; set_solver.
Qed.

Lemma Terminal_spec s : Terminal s = true <-> forall to, Transition s to <> None.
Proof.
  unfold Terminal. split.
  - intros H to HT. apply Transition_None, CanTransition_spec in HT. unfold NextStates in HT.
    destruct (transitions s); [by inv HT|done].
  - intros H. destruct (transitions s) as [|t l] eqn:E; [done|]. destruct (H t).
    apply Transition_None, CanTransition_spec. unfold NextStates. rewrite E. set_solver.
Qed.

(** ** Lemmas: the statements *)

Lemma sel_interaction_Some t id d r :
  sel_interaction t id d = Some r <-> d_interactions d !! id = Some r /\ r_TenantID r = t.
Proof.
  unfold sel_interaction. destruct (d_interactions d !! id) as [r'|]; [|naive_solver].
  destruct (String.eqb_spec (r_TenantID r') t); naive_solver.
Qed.

Lemma fold_newer_elem l kv : fold_left newer l kv ∈ kv :: l.
Proof.
  revert kv. induction l as [|x l IH]; intros kv; simpl; [set_solver|].
  specialize (IH (newer kv x)). unfold newer in *. case_match; set_solver.
Qed.

Lemma open_match_spec t cu ch c :
  open_match t cu ch c = true <->
  cv_TenantID c = t /\ cv_CustomerID c = cu /\ cv_Channel c = ch /\ cv_Status c = "open".
Proof. unfold open_match. rewrite !andb_true_iff, !String.eqb_eq. naive_solver. Qed.

Lemma sel_open_conversation_Some t cu ch d id :
  sel_open_conversation t cu ch d = Some id ->
  exists c, d_conversations d !! id = Some c /\ open_match t cu ch c = true.
Proof.
  unfold sel_open_conversation. destruct (List.filter _ _) as [|kv l] eqn:E; [done|].
  intros [= <-]. pose proof (fold_newer_elem l kv) as H. rewrite <- E in H.
  apply list_elem_of_In, filter_In in H as [H1 H2]. apply list_elem_of_In in H1.
  destruct (fold_left newer l kv) as [k c]. apply elem_of_map_to_list in H1. eauto.
Qed.

Lemma sel_by_provider_ref_Some t p ref d id :
  sel_by_provider_ref t p ref d = Some id ->
  exists r, d_interactions d !! id = Some r /\ r_TenantID r = t /\ r_Provider r = p
            /\ r_ProviderRef r = ref.
Proof.
  unfold sel_by_provider_ref. destruct (List.filter _ _) as [|[k r] l] eqn:E; [done|].
  intros [= <-]. assert (In (k, r) (List.filter (fun kv : string * Rec =>
    (r_TenantID kv.2 =? t)%string && (r_Provider kv.2 =? p)%string
    && (r_ProviderRef kv.2 =? ref)%string) (map_to_list (d_interactions d)))) as H
    by (rewrite E; by left).
  apply filter_In in H as [H1 H2]. apply list_elem_of_In, elem_of_map_to_list in H1.
  rewrite !andb_true_iff, !String.eqb_eq in H2. naive_solver.
Qed.

Lemma sel_by_provider_ref_exists t p ref d k r :
  d_interactions d !! k = Some r -> r_TenantID r = t -> r_Provider r = p ->
  r_ProviderRef r = ref -> exists id, sel_by_provider_ref t p ref d = Some id.
Proof.
  intros Hk Ht Hp Hr. unfold sel_by_provider_ref.
  destruct (List.filter _ _) as [|[k' r'] l] eqn:E; [|eauto].
  exfalso. eapply (in_nil (a := (k, r))). rewrite <- E. apply filter_In. split.
  - by apply list_elem_of_In, elem_of_map_to_list.
  - by rewrite !andb_true_iff, !String.eqb_eq.
Qed.
