(* ===== verification/InteractionsProps.v ===== *)
(** * internal/interactions: specification and theorems

    [write] is the abstract transition system of the tables: one rule per kind
    of row change, with the guard under which the service may make it.
    [refines] says that a method ends with the committed tables either as they
    were or moved by those rules. The table invariant and tenant isolation are
    proved once, by induction on the rules. *)

From Stdlib Require Import String.
From S2P Require Import Prelude GoStd AppErrors Events Store Sql Wp Pagination Idempotency Interactions.

Local Open Scope Z_scope.

(** ** The abstract transition system *)

Inductive write (t : string) : DB -> DB -> Prop :=
| write_conversation now id cu ch d d' k :
    customer_exists t cu d = true ->
    ins_conversation id t cu ch now d = Some (d', k) ->
    write t d d'
| write_participant now conv cu cv d d' k :
    sel_conversation t conv d = Some cv ->
    ins_participant conv cu now d = Some (d', k) ->
    write t d d'
| write_event v d :
    e_TenantID v = t -> IsRegistered (e_Type v) = true ->
    write t d (set_outbox (fun l => l ++ [MkOutboxRow v "pending" 0 "" None]) d)
| write_interaction now r cv d d' k :
    r_TenantID r = t -> r_Status r = StatusPending -> r_EndedAt r = None ->
    channel_known (r_Channel r) = true ->
    customer_exists t (r_CustomerID r) d = true ->
    sel_conversation t (r_ConversationID r) d = Some cv ->
    cv_CustomerID cv = r_CustomerID r -> cv_Status cv = "open" ->
    ins_interaction r now d = Some (d', k) ->
    write t d d'
| write_touch now id d d' k :
    upd_touch t id now d = Some (d', k) ->
    write t d d'
| write_status now id to answered ended reason r d :
    sel_interaction t id d = Some r ->
    Transition (r_Status r) to = None ->
    (is_Some ended <-> Terminal to = true) ->
    write t d (set_interactions (<[id := set_status to answered ended reason now r]>) d)
| write_assign now id agent queue d d' k :
    upd_assign t id agent queue now d = Some (d', k) ->
    write t d d'.

Definition writes (t : string) : DB -> DB -> Prop := rtc (write t).

(** ** Invariant of the tables *)

Record row_wf (d : DB) (id : string) (r : Rec) : Prop := {
  wf_id : r_ID r = id;
  wf_status : r_Status r ∈ statuses;
  wf_ended : is_Some (r_EndedAt r) <-> Terminal (r_Status r) = true;
  wf_channel : channel_known (r_Channel r) = true;
  wf_conv : exists cv, sel_conversation (r_TenantID r) (r_ConversationID r) d = Some cv
                       /\ cv_CustomerID cv = r_CustomerID r;
}.

Record db_wf (d : DB) : Prop := {
  wf_rows : forall id r, d_interactions d !! id = Some r -> row_wf d id r;
  wf_unique : forall i j r r', d_interactions d !! i = Some r -> d_interactions d !! j = Some r' ->
    i <> j -> clashes r r' = false;
  wf_convs : forall id cv, d_conversations d !! id = Some cv ->
    cv_ID cv = id /\ customer_exists (cv_TenantID cv) (cv_CustomerID cv) d = true;
  wf_outbox : forall o, o ∈ d_outbox d -> IsRegistered (e_Type (ob_Env o)) = true;
}.

(** What a tenant can see. *)
Definition tenant_interactions (t : string) (d : DB) : gmap string Rec :=
  filter (fun kv => r_TenantID kv.2 = t) (d_interactions d).
Definition tenant_conversations (t : string) (d : DB) : gmap string Conversation :=
  filter (fun kv => cv_TenantID kv.2 = t) (d_conversations d).
Definition tenant_events (t : string) (d : DB) : list OutboxRow :=
  filter (fun o => e_TenantID (ob_Env o) = t) (d_outbox d).

(** Two databases look the same to a tenant. *)
Definition same_view (t : string) (d d' : DB) : Prop :=
  tenant_interactions t d' = tenant_interactions t d
  /\ tenant_conversations t d' = tenant_conversations t d
  /\ tenant_events t d' = tenant_events t d
  /\ d_customers d' = d_customers d.

(** ** Lemmas: what each statement changes *)

Lemma clashes_sym r r' : clashes r r' = clashes r' r.
Proof.
  unfold clashes. rewrite (String.eqb_sym (r_TenantID r')), (String.eqb_sym (r_Provider r')),
    (String.eqb_sym (r_ProviderRef r')), (String.eqb_sym (r_IdempotencyKey r')).
  f_equal. f_equal.
  - destruct (String.eqb_spec (r_ProviderRef r) (r_ProviderRef r')) as [->|];
      by rewrite ?andb_false_r.
  - destruct (String.eqb_spec (r_IdempotencyKey r) (r_IdempotencyKey r')) as [->|];
      by rewrite ?andb_false_r.
Qed.

Lemma ins_interaction_Some r now d d' k :
  ins_interaction r now d = Some (d', k) <->
  d_interactions d !! r_ID r = None
  /\ (forall id r', d_interactions d !! id = Some r' -> clashes r r' = false)
  /\ d' = set_interactions (<[r_ID r := r]>) d /\ k = 1%nat.
Proof.
  unfold ins_interaction. destruct (d_interactions d !! r_ID r) eqn:E; [naive_solver|].
  destruct (existsb _ _) eqn:Ex.
  - split; [done|]. intros (_ & H & _). apply existsb_exists in Ex as ([i r'] & Hin & Hc).
    apply list_elem_of_In, elem_of_map_to_list in Hin. simpl in Hc. by rewrite (H _ _ Hin) in Hc.
  - split; [|naive_solver]. intros [= <- <-]. repeat split. intros id r' Hr'.
    destruct (clashes r r') eqn:Ec; [|done]. rewrite <- Ex. symmetry.
    apply existsb_exists. exists (id, r'). split; [|done].
    by apply list_elem_of_In, elem_of_map_to_list.
Qed.

Lemma ins_conversation_Some id t cu ch now d d' k :
  ins_conversation id t cu ch now d = Some (d', k) ->
  d_conversations d !! id = None
  /\ d' = set_conversations
      (<[id := MkConversation id t cu ch "open" "" "" "" 0 None now now None]>) d.
Proof. unfold ins_conversation. destruct (d_conversations d !! id); naive_solver. Qed.

Lemma ins_participant_Some c cu now d d' k :
  ins_participant c cu now d = Some (d', k) ->
  d' = set_participants (fun l => l ++ [MkParticipant c "customer" cu]) d.
Proof. unfold ins_participant. destruct (existsb _ _); naive_solver. Qed.

Lemma upd_touch_Some t id now d d' k :
  upd_touch t id now d = Some (d', k) ->
  (exists c, sel_conversation t id d = Some c
             /\ d' = set_conversations (<[id := touch_conversation now c]>) d)
  \/ d' = d.
Proof. unfold upd_touch. destruct (sel_conversation t id d); naive_solver. Qed.

Lemma upd_assign_Some t id ag qu now d d' k :
  upd_assign t id ag qu now d = Some (d', k) ->
  (exists r, sel_interaction t id d = Some r /\ k = 1%nat
             /\ d' = set_interactions (<[id := set_assignee ag qu now r]>) d)
  \/ d' = d /\ k = 0%nat.
Proof.
  unfold upd_assign. destruct (sel_interaction t id d); [|naive_solver].
  destruct (assignable _); naive_solver.
Qed.

(** ** Lemmas: the invariant *)

Lemma sel_interaction_set t id d f :
  sel_conversation t id (set_interactions f d) = sel_conversation t id d.
Proof. done. Qed.

Lemma row_wf_mono d d' id r :
  (forall t i cv, sel_conversation t i d = Some cv ->
     exists cv', sel_conversation t i d' = Some cv' /\ cv_CustomerID cv' = cv_CustomerID cv) ->
  row_wf d id r -> row_wf d' id r.
Proof.
  intros H [? ? ? ? (cv & Hcv & Hcu)]. split; [done..|].
  destruct (H _ _ _ Hcv) as (cv' & ? & ?). exists cv'. by rewrite <- Hcu.
Qed.

(** Changing a row in place keeps the invariant when the keys stay. *)
Lemma update_row_wf d id r r2 :
  db_wf d -> d_interactions d !! id = Some r ->
  (forall r', clashes r2 r' = clashes r r') -> row_wf d id r2 ->
  db_wf (set_interactions (<[id := r2]>) d).
Proof.
  intros [Hr Hu Hc Ho] Hid Hcl Hwf. split; simpl.
  - intros i q. rewrite lookup_insert_Some. intros [[<- <-]|[_ Hq]].
    + by eapply row_wf_mono; [|exact Hwf]; eauto.
    + by eapply row_wf_mono; [|exact (Hr _ _ Hq)]; eauto.
  - intros i j q q'. rewrite !lookup_insert_Some.
    intros [[<- <-]|[? Hq]] [[<- <-]|[? Hq']] Hij; try done.
    + rewrite Hcl. by eapply (Hu id j).
    + rewrite clashes_sym, Hcl. by eapply (Hu id i).
    + by eapply (Hu i j).
  - intros i cv Hcv. by apply Hc.
  - done.
Qed.

(** Storing a conversation under its id keeps the invariant when the stored
    one belongs to the same tenant and customer as the one it replaces. *)
Lemma update_conv_wf d id cv :
  db_wf d -> cv_ID cv = id ->
  customer_exists (cv_TenantID cv) (cv_CustomerID cv) d = true ->
  (forall cv0, d_conversations d !! id = Some cv0 ->
     cv_TenantID cv0 = cv_TenantID cv /\ cv_CustomerID cv0 = cv_CustomerID cv) ->
  db_wf (set_conversations (<[id := cv]>) d).
Proof.
  intros [Hr Hu Hc Ho] Hid Hcu Hold. split; simpl; [|done| |done].
  - intros i q Hq. eapply row_wf_mono; [|exact (Hr _ _ Hq)].
    intros t j c. rewrite !sel_conversation_Some. intros [Hj Ht].
    setoid_rewrite sel_conversation_Some. simpl. destruct (decide (id = j)) as [<-|].
    + destruct (Hold _ Hj) as [E1 E2]. exists cv. rewrite lookup_insert_eq. naive_solver.
    + exists c. by rewrite lookup_insert_ne.
  - intros i c. rewrite lookup_insert_Some. intros [[<- <-]|[_ H]]; [done|].
    by apply Hc.
Qed.

(** The invariant only reads four tables. *)
Lemma frame_wf d d' :
  d_interactions d' = d_interactions d -> d_conversations d' = d_conversations d ->
  d_customers d' = d_customers d ->
  (forall o, o ∈ d_outbox d' -> IsRegistered (e_Type (ob_Env o)) = true) ->
  db_wf d -> db_wf d'.
Proof.
  intros E1 E2 E3 Ho' [Hr Hu Hc Ho].
  split; rewrite ?E1, ?E2; unfold customer_exists; rewrite ?E3; try done.
  intros id r H. eapply row_wf_mono; [|by apply Hr]. unfold sel_conversation. rewrite E2. eauto.
Qed.

Lemma write_wf t d d' : db_wf d -> write t d d' -> db_wf d'.
Proof.
  intros Hwf Hw. destruct Hw as [now id cu ch d d1 k Hcu H|now conv cu cvp d d1 k Hcvp H|v d Hv Hreg
    |now r cv d d1 k Ht Hs He Hch Hcu Hcv Hc Hop H|now id d d1 k H
    |now id to an en rs r d H HT Hen|now id ag qu d d1 k H].
  - apply ins_conversation_Some in H as [Hn ->]. apply update_conv_wf; simpl; [done..|].
    intros cv0 E. by simplify_eq.
  - apply ins_participant_Some in H as ->. eapply frame_wf; [| | | |exact Hwf]; try done. by destruct Hwf.
  - eapply frame_wf; [| | | |exact Hwf]; try done. simpl.
    intros o [Hin|Hin]%elem_of_app;
      [by eapply wf_outbox|by apply list_elem_of_singleton in Hin as ->].
  - apply ins_interaction_Some in H as (Hn & Hcl & -> & ->).
    destruct Hwf as [Hr Hu Hco Ho]. split; simpl; [| |done..].
    + intros i q. rewrite lookup_insert_Some. intros [[<- <-]|[_ Hq]].
      * split; simpl; [done| | |done|].
        -- rewrite Hs. unfold statuses. set_solver.
        -- rewrite Hs, He. split; [by intros [? ?]|done].
        -- exists cv. by rewrite Ht.
      * by eapply row_wf_mono; [|exact (Hr _ _ Hq)]; eauto.
    + intros i j q q'. rewrite !lookup_insert_Some.
      intros [[<- <-]|[? Hq]] [[<- <-]|[? Hq']] Hij; try done.
      * by eapply Hcl.
      * rewrite clashes_sym. by eapply Hcl.
      * by eapply (Hu i j).
  - apply upd_touch_Some in H as [(c & Hc & ->)| ->]; [|done].
    apply sel_conversation_Some in Hc as [Hc Ht].
    destruct (wf_convs _ Hwf _ _ Hc) as [Hid Hcu].
    apply update_conv_wf; simpl; [done..|].
    intros cv0 E. by simplify_eq.
  - apply sel_interaction_Some in H as [H Ht]. destruct (wf_rows _ Hwf _ _ H).
    eapply update_row_wf; [done..|]. split; simpl; try done. by eapply transition_to_known.
  - apply upd_assign_Some in H as [(r & H & _ & ->)|[-> _]]; [|done].
    apply sel_interaction_Some in H as [H Ht]. destruct (wf_rows _ Hwf _ _ H).
    by eapply update_row_wf.
Qed.

Lemma writes_wf t d d' : writes t d d' -> db_wf d -> db_wf d'.
Proof. induction 1; eauto using write_wf. Qed.

(** ** Lemmas: tenant isolation *)

#[export] Instance same_view_preorder t : PreOrder (same_view t).
Proof.
  split; unfold same_view; [done|]. intros d1 d2 d3 (?&?&?&?) (?&?&?&?). repeat split; congruence.
Qed.

Lemma write_same_view t u d d' : t <> u -> write t d d' -> same_view u d d'.
Proof.
  intros Htu [now id cu ch d0 d1 k Hcu H|now conv cu cvp d0 d1 k Hcvp H|v d0 Hv Hreg
    |now r cv d0 d1 k Ht Hs He Hch Hcu Hcv Hc Hop H|now id d0 d1 k H
    |now id to an en rs r d0 H HT Hen|now id ag qu d0 d1 k H].
  - apply ins_conversation_Some in H as [Hn ->]. repeat split; simpl; try done.
    apply filter_insert_other; simpl; [done|]. intros; congruence.
  - by apply ins_participant_Some in H as ->.
  - repeat split; try done. unfold tenant_events. simpl. rewrite filter_app, filter_cons.
    rewrite decide_False by (simpl; congruence). by rewrite filter_nil, app_nil_r.
  - apply ins_interaction_Some in H as (Hn & Hcl & -> & ->). repeat split; simpl; try done.
    apply filter_insert_other; simpl; intros; congruence.
  - apply upd_touch_Some in H as [(c & Hc & ->)| ->]; [|done].
    apply sel_conversation_Some in Hc as [Hc Ht]. repeat split; simpl; try done.
    apply filter_insert_other; simpl; intros; simplify_eq; congruence.
  - apply sel_interaction_Some in H as [H Ht]. repeat split; simpl; try done.
    apply filter_insert_other; simpl; intros; simplify_eq; congruence.
  - apply upd_assign_Some in H as [(r & H & _ & ->)|[-> _]]; [|done].
    apply sel_interaction_Some in H as [H Ht]. repeat split; simpl; try done.
    apply filter_insert_other; simpl; intros; simplify_eq; congruence.
Qed.

Lemma writes_same_view t u d d' : t <> u -> writes t d d' -> same_view u d d'.
Proof.
  intros Htu. induction 1 as [|d1 d2 d3 H _ IH]; [done|].
  etransitivity; [by eapply write_same_view|done].
Qed.

(** ** Lemmas: the methods refine the transition system *)

(** The row [TransitionTo] stores. *)
Definition transitioned (to : Status) (reason : string) (t now : Z) (r : Rec) : Rec :=
  set_status to (if String.eqb to StatusActive then Some t else None)
    (if Terminal to then Some t else None) (if Terminal to then reason else "") now r.

Definition transition_event (v : Envelope) (t id from to reason : string) : Prop :=
  e_Type v = transition_topic to /\ e_TenantID v = t /\ e_Subject v = id
  /\ e_Data v = transition_data id from to (if Terminal to then reason else "").

Lemma transition_topic_registered to : IsRegistered (transition_topic to) = true.
Proof. unfold transition_topic. by destruct (String.eqb to StatusCompleted). Qed.

Lemma wp_Get e t id s Q :
  (forall x, Q (Err x) (bump s)) ->
  (forall r, fault e (steps s) = None -> sel_interaction t id (committed s) = Some r ->
    Q (Ok r) (bump s)) ->
  wp (Get t id) e s Q.
Proof. intros H1 H2. unfold Get. wp_go; auto. Qed.

Section methods.
Context (source : string) (e : env).

(** An empty bind over [outbox_Insert]. *)
Lemma wp_outbox_Insert v c d t n Q :
  (forall x m, Q (Err x) (MkSt c (Some (d, t)) m)) ->
  (forall v', v = Some v' -> Events.Validate (uuid_valid e) v' = None ->
    Q (Ok ()) (MkSt c (Some (set_outbox (fun l => l ++ [MkOutboxRow v' "pending" 0 "" None]) d, t))
                 (S n))) ->
  wp (outbox_Insert v) e (MkSt c (Some (d, t)) n) Q.
Proof. intros H1 H2. unfold outbox_Insert. wp_go; auto. Qed.

Lemma wp_TransitionTo t id to reason s Q :
  (forall x s', committed s' = committed s -> Q (Err x) s') ->
  (forall r now tm v n x,
    sel_interaction t id (committed s) = Some r ->
    Transition (r_Status r) to = None ->
    transition_event v t id (r_Status r) to reason ->
    let r' := transitioned to reason tm now r in
    let d' := set_outbox (fun l => l ++ [MkOutboxRow v "pending" 0 "" None])
                (set_interactions (<[id := r']>) (committed s)) in
    Q (Ok r') (MkSt d' None n) /\ Q (Err x) (MkSt d' None n)) ->
  wp (TransitionTo source t id to reason) e s Q.
Proof.
  intros H1 H2. unfold TransitionTo. wp_go; try by (apply H1).
  unfold upd_status in Hx. rewrite E in Hx. injection Hx as <- <-.
  apply wp_outbox_Insert; [by intros; apply H1|]. intros v Hv Hval.
  apply NewEnvelope_inv in Hv as (_ & Ht & Hty & Hs & Hd & _).
  assert (transition_event v t id (r_Status r) to reason) as Hev by done.
  unfold transitioned in H2.
  wp_go; [by apply H1|]. apply wp_Get; simpl.
  - intros x. eapply (H2 r _ _ v _ x); eauto.
  - intros r2 _ Hr2. apply sel_interaction_Some in Hr2 as [Hr2 _]. simpl in Hr2.
    rewrite lookup_insert_eq in Hr2. simplify_eq.
    eapply (H2 r _ _ v _ (Internal "" "")); eauto.
Qed.

(** The checks: what an accepted input satisfies. *)
Definition input_ok (t : string) (d : DB) (i i' : CreateInput) : Prop :=
  customer_exists t (ci_CustomerID i) d = true /\ channel_known (ci_Channel i) = true
  /\ exists k, i' = with_key k i.

Lemma with_key_id i : i = with_key (ci_IdempotencyKey i) i.
Proof. by destruct i. Qed.

Lemma wp_create_checks t i s Q :
  (forall x s', committed s' = committed s -> Q (Err x) s') ->
  (forall i' s', committed s' = committed s -> input_ok t (committed s) i i' -> Q (Ok i') s') ->
  wp (create_checks t i) e s Q.
Proof.
  intros H1 H2. unfold create_checks. wp_go; try by (apply H1).
  all: apply H2; [done|]; apply negb_false_iff in E0; split; [done|]; split; [done|].
  all: case_match; eauto using with_key_id.
Qed.

(** The stored row of a provider reference. *)
Definition replayed (t p ref : string) (d : DB) (r : Rec) : Prop :=
  exists id, d_interactions d !! id = Some r /\ r_TenantID r = t /\ r_Provider r = p
             /\ r_ProviderRef r = ref.

Lemma wp_findByProviderRef t p ref s Q :
  (forall s', committed s' = committed s -> Q (Ok None) s') ->
  (forall r s', committed s' = committed s -> ref <> "" -> replayed t p ref (committed s) r ->
    Q (Ok (Some r)) s') ->
  wp (findByProviderRef t p ref) e s Q.
Proof.
  intros H1 H2. unfold findByProviderRef. wp_go; try by (apply H1).
  apply wp_Get; [by intros; apply H1|]. simpl. intros r _ Hr.
  apply H2; [done|by apply is_empty_false|].
  apply sel_interaction_Some in Hr as [Hr Ht].
  apply sel_by_provider_ref_Some in E0 as (r' & Hr' & ? & ? & ?). simplify_eq. by exists s0.
Qed.

(** A transaction under way: the store and the working copy. *)
Notation in_tx c d t n := (MkSt c (Some (d, t)) n).

Lemma wp_findOrOpenConversation t i c d tm n Q :
  customer_exists t (ci_CustomerID i) d = true ->
  (forall x s', committed s' = c -> Q (Err x) s') ->
  (forall id cv d' n', writes t d d' -> d_interactions d' = d_interactions d ->
    d_customers d' = d_customers d ->
    sel_conversation t id d' = Some cv -> cv_CustomerID cv = ci_CustomerID i ->
    cv_Status cv = "open" -> Q (Ok id) (in_tx c d' tm n')) ->
  wp (findOrOpenConversation source t i) e (in_tx c d tm n) Q.
Proof.
  intros Hcu H1 H2. unfold findOrOpenConversation. wp_go; try by (apply H1).
  - apply sel_open_conversation_Some in E as (cv & Hcv & Hm).
    apply open_match_spec in Hm as (Ht & ? & ? & ?).
    eapply (H2 _ cv); try done. by apply sel_conversation_Some.
  - apply wp_outbox_Insert; [by intros; apply H1|]. intros v Hv Hval. wp_go.
    pose proof (ins_conversation_Some _ _ _ _ _ _ _ _ Hx) as [Hn ->].
    pose proof (ins_participant_Some _ _ _ _ _ _ Hx0) as ->.
    apply NewEnvelope_inv in Hv as (_ & Ht & Hty & _).
    eapply (H2 _ _ (set_outbox _ _)); simpl.
    + eapply rtc_l; [eapply write_conversation; [|exact Hx]; done|].
      eapply rtc_l; [eapply write_participant; [|exact Hx0]|].
      { apply sel_conversation_Some. simpl. by rewrite lookup_insert_eq. }
      apply rtc_once, write_event; [done|by rewrite Hty].
    + done.
    + done.
    + unfold sel_conversation. simpl. rewrite lookup_insert_eq. simpl. by rewrite String.eqb_refl.
    + done.
    + done.
Qed.

Lemma wp_resolve_conversation t i c d tm n Q :
  customer_exists t (ci_CustomerID i) d = true ->
  (forall x s', committed s' = c -> Q (Err x) s') ->
  (forall id cv d' n', writes t d d' -> d_interactions d' = d_interactions d ->
    d_customers d' = d_customers d ->
    sel_conversation t id d' = Some cv -> cv_CustomerID cv = ci_CustomerID i ->
    cv_Status cv = "open" -> Q (Ok id) (in_tx c d' tm n')) ->
  wp (resolve_conversation source t i) e (in_tx c d tm n) Q.
Proof.
  intros Hcu H1 H2. unfold resolve_conversation.
  destruct (is_empty _); [by apply wp_findOrOpenConversation|].
  wp_go; try by (apply H1).
  apply negb_false_iff, String.eqb_eq in E0, E1. by eapply (H2 _ _ d).
Qed.

(** A created row: what [Create] stores for an input. *)
Definition created (t : string) (i : CreateInput) (r : Rec) : Prop :=
  exists id conv now i', i' = with_key (ci_IdempotencyKey i') i
    /\ r = new_rec id t conv (defaultStr (ci_Provider i) "internal") now i'.

Lemma wp_Create t i s Q :
  (forall x s', committed s' = committed s -> Q (Err x) s') ->
  (forall r s', committed s' = committed s -> ci_ProviderRef i <> "" ->
    replayed t (defaultStr (ci_Provider i) "internal") (ci_ProviderRef i) (committed s) r ->
    Q (Ok r) s') ->
  (forall r s', writes t (committed s) (committed s') ->
    d_interactions (committed s) !! r_ID r = None ->
    d_interactions (committed s') = <[r_ID r := r]> (d_interactions (committed s)) ->
    (forall id r', d_interactions (committed s) !! id = Some r' -> clashes r r' = false) ->
    created t i r -> Q (Ok r) s') ->
  wp (Create source t i) e s Q.
Proof.
  intros H1 H2 H3. unfold Create. wp_step. apply wp_create_checks; [done|].
  intros i' s' Hs' (Hcu & Hch & k & ->). wp_go; try by (apply H1).
  rewrite Hs'. apply wp_resolve_conversation; [done|by intros; apply H1|].
  intros conv cv d' n Hw Hi Hcs Hcv Hcc Hop. wp_go; try by (apply H1; done).
  - apply wp_findByProviderRef; cbn [committed].
    + intros s2 Hs2. wp_go. by apply H1.
    + intros r s2 Hs2 Hne Hr. wp_go. by apply H2.
  - apply wp_outbox_Insert; [by intros; apply H1|]. intros v Hv Hval. wp_go; [by apply H1|].
    pose proof Hx as Hw1. apply ins_interaction_Some in Hx as (Hn & Hcl & -> & ->).
    apply NewEnvelope_inv in Hv as (_ & Ht & Hty & _). rewrite Hi in Hn, Hcl.
    assert (d_interactions db0 = d_interactions (set_interactions
      (<[uuid_of e (steps s') := new_rec (uuid_of e (steps s')) t conv
          (defaultStr (ci_Provider (with_key k i)) "internal") (clock e (S (steps s')))
          (with_key k i)]>) d')) as Hdb
      by by apply upd_touch_Some in Hx0 as [(c & _ & ->)| ->].
    apply H3; simpl; [|done| |done|].
    + etransitivity; [exact Hw|].
      eapply rtc_l; [eapply write_interaction, Hw1; simpl; try done|].
      { unfold customer_exists. by rewrite Hcs. }
      eapply rtc_l; [by eapply write_touch|].
      apply rtc_once, write_event; [done|by rewrite Hty].
    + rewrite Hdb. simpl. by rewrite Hi.
    + exists (uuid_of e (steps s')), conv, (clock e (S (steps s'))), (with_key k i).
      by destruct i.
Qed.

Lemma wp_emit topic subject t data s Q :
  (forall s', committed s' = committed s -> Q (Ok ()) s') ->
  (forall v s', e_TenantID v = t -> IsRegistered (e_Type v) = true ->
    committed s' = set_outbox (fun l => l ++ [MkOutboxRow v "pending" 0 "" None]) (committed s) ->
    Q (Ok ()) s') ->
  wp (emit source topic subject t data) e s Q.
Proof.
  intros H1 H2. unfold wp, emit, events_New.
  destruct (NewEnvelope _ _ _ _ _ _ _ _ _) as [v|] eqn:Hv; [|by apply H1].
  apply NewEnvelope_inv in Hv as (Hval & Ht & _).
  unfold with_tx, Writer_Insert, bump. simpl. destruct (fault e _); [by apply H1|].
  rewrite Hval. unfold mbind, M_bind, tx_Exec, tx_Returning, insert_outbox, commit_or, tx_Commit. simpl.
  apply Validate_None in Hval as (_ & Hreg & _).
  destruct (fault e _), (existsb _ _); simpl; destruct (fault e _); simpl;
    first [by apply H1|by eapply H2].
Qed.

Lemma wp_Assign t id agent queue s Q :
  (forall x s', committed s' = committed s -> Q (Err x) s') ->
  (forall res r now s', sel_interaction t id (committed s) = Some r ->
    assignable r = true ->
    d_interactions (committed s') = <[id := set_assignee agent queue now r]>
                                      (d_interactions (committed s)) ->
    writes t (committed s) (committed s') ->
    (res = Ok (set_assignee agent queue now r) \/ exists x, res = Err x) -> Q res s') ->
  wp (Assign source t id agent queue) e s Q.
Proof.
  intros H1 H2. unfold Assign. wp_go; try by (apply H1).
  all: pose proof Hx as Hx'; unfold upd_assign in Hx; destruct (sel_interaction t id _) as [r|] eqn:E1;
    [destruct (assignable r) eqn:Ea|]; simplify_eq.
  1-2: apply wp_Get; intros; wp_go; by apply H1.
  set (d1 := set_interactions _ _) in *.
  assert (writes t (committed s) d1) as Hw1 by by eapply rtc_once, write_assign.
  apply wp_emit; cbn [committed].
  - intros s' Hs'. rewrite <- Hs' in Hw1. apply wp_Get; cbn [bump committed].
    + intros x. eapply H2; eauto. simpl. by rewrite Hs'.
    + intros r' _ Hr'. eapply (H2 _ r (clock e (steps s))); eauto; simpl; [by rewrite Hs'|].
      apply sel_interaction_Some in Hr' as [Hr' _]. rewrite Hs' in Hr'. simpl in Hr'.
      rewrite lookup_insert_eq in Hr'. simplify_eq. by left.
  - intros v s' Hvt Hreg Hs'. assert (writes t (committed s) (committed s')) as Hw2
      by (rewrite Hs'; eapply rtc_r; [exact Hw1|by apply write_event]).
    apply wp_Get; cbn [bump committed].
    + intros x. eapply H2; eauto. simpl. by rewrite Hs'.
    + intros r' _ Hr'. eapply (H2 _ r (clock e (steps s))); eauto; simpl; [by rewrite Hs'|].
      apply sel_interaction_Some in Hr' as [Hr' _]. rewrite Hs' in Hr'. simpl in Hr'.
      rewrite lookup_insert_eq in Hr'. simplify_eq. by left.
Qed.
End methods.

(** ** Histories: any operations, any failures *)

(** A call of the service. *)
Inductive op :=
| OpCreate (t : string) (i : CreateInput)
| OpTransition (t id : string) (to : Status) (reason : string)
| OpAssign (t id agent queue : string).

Definition op_tenant (o : op) : string :=
  match o with OpCreate t _ | OpTransition t _ _ _ | OpAssign t _ _ _ => t end.

Definition run_op (source : string) (o : op) : M Rec :=
  match o with
  | OpCreate t i => Create source t i
  | OpTransition t id to reason => TransitionTo source t id to reason
  | OpAssign t id agent queue => Assign source t id agent queue
  end.

(** The committed tables after one call in some environment. *)
Definition called (source : string) (o : op) (d d' : DB) : Prop :=
  exists e n, d' = committed (snd (run_op source o e (MkSt d None n))).

(** Any sequence of calls. *)
Definition history (source : string) : DB -> DB -> Prop :=
  rtc (fun d d' => exists o, called source o d d').

Lemma called_writes source o d d' : called source o d d' -> writes (op_tenant o) d d'.
Proof.
  intros (e & n & ->).
  assert (wp (run_op source o) e (MkSt d None n) (fun _ s' => writes (op_tenant o) d (committed s')))
    as H; [|unfold wp in H; by destruct (run_op _ _ _ _)].
  destruct o as [t i|t id to reason|t id agent queue]; simpl.
  - apply wp_Create; [by intros x s' ->|by intros r s' ->|]. by intros r s' H _ _ _ _.
  - apply wp_TransitionTo; [by intros x s' ->|].
    intros r now tm v k x Hr HT (Hty & Ht & _). simpl.
    assert (writes t d (set_outbox (fun l => l ++ [MkOutboxRow v "pending" 0 "" None])
       (set_interactions (<[id := transitioned to reason tm now r]>) d))); [|done].
    eapply rtc_l; [eapply write_status; [done..|]|apply rtc_once, write_event; [done|]].
    + destruct (Terminal to); [done|]. split; [by intros [? ?]|done].
    + rewrite Hty. apply transition_topic_registered.
  - apply wp_Assign; [by intros x s' ->|]. by intros.
Qed.

Lemma called_source source o d d' : called source o d d' -> exists t, writes t d d'.
Proof. eauto using called_writes. Qed.

(** A row keeps its identity and its status only moves legally; a terminal
    row keeps its end. *)
Record evolves (r r' : Rec) : Prop := {
  ev_identity : r_ID r' = r_ID r /\ r_TenantID r' = r_TenantID r
    /\ r_ConversationID r' = r_ConversationID r /\ r_CustomerID r' = r_CustomerID r
    /\ r_Channel r' = r_Channel r /\ r_StartedAt r' = r_StartedAt r
    /\ r_ProviderRef r' = r_ProviderRef r;
  ev_status : rtc (fun a b => Transition a b = None) (r_Status r) (r_Status r');
  ev_terminal : Terminal (r_Status r) = true ->
    r_Status r' = r_Status r /\ r_EndedAt r' = r_EndedAt r /\ r_EndReason r' = r_EndReason r;
}.

#[export] Instance evolves_preorder : PreOrder evolves.
Proof.
  split.
  - intros r. split; [by repeat split|done|done].
  - intros r1 r2 r3 [(?&?&?&?&?&?&?) S1 T1] [(?&?&?&?&?&?&?) S2 T2]. split.
    + repeat split; congruence.
    + by etransitivity.
    + intros HT. destruct (T1 HT) as (E1 & E2 & E3). rewrite E1 in T2.
      destruct (T2 HT) as (? & ? & ?). repeat split; congruence.
Qed.

Lemma write_evolves t d d' id r :
  write t d d' -> d_interactions d !! id = Some r ->
  exists r', d_interactions d' !! id = Some r' /\ evolves r r'.
Proof.
  intros Hw. destruct Hw as [now id' cu ch d d1 k Hcu H|now conv cu cvp d d1 k Hcvp H|v d Hv Hreg
    |now r' cv d d1 k Ht Hs He Hch Hcu Hcv Hc Hop H|now id' d d1 k H
    |now id' to an en rs r' d H HT Hen|now id' ag qu d d1 k H]; intros Hr.
  - apply ins_conversation_Some in H as [_ ->]. by exists r.
  - apply ins_participant_Some in H as ->. by exists r.
  - by exists r.
  - apply ins_interaction_Some in H as (Hn & _ & -> & _). exists r. simpl.
    by rewrite lookup_insert_ne by congruence.
  - apply upd_touch_Some in H as [(c & _ & ->)| ->]; by exists r.
  - apply sel_interaction_Some in H as [H _]. simpl. destruct (decide (id' = id)) as [->|].
    + rewrite lookup_insert_eq. eexists. split; [done|]. simplify_eq.
      split; [by repeat split| |]; simpl.
      * by apply rtc_once.
      * intros HTer. by destruct (proj1 (Terminal_spec _) HTer to).
    + exists r. by rewrite lookup_insert_ne.
  - apply upd_assign_Some in H as [(r' & H & _ & ->)|[-> _]]; [|by exists r].
    apply sel_interaction_Some in H as [H _]. simpl. destruct (decide (id' = id)) as [->|].
    + rewrite lookup_insert_eq. eexists. split; [done|]. simplify_eq. by split.
    + exists r. by rewrite lookup_insert_ne.
Qed.

Lemma writes_evolve t d d' id r :
  writes t d d' -> d_interactions d !! id = Some r ->
  exists r', d_interactions d' !! id = Some r' /\ evolves r r'.
Proof.
  intros H. revert r. induction H as [|d1 d2 d3 Hw _ IH]; intros r Hr; [by exists r|].
  destruct (write_evolves _ _ _ _ _ Hw Hr) as (r1 & Hr1 & E1).
  destruct (IH _ Hr1) as (r2 & Hr2 & E2). exists r2. split; [done|]. by etransitivity.
Qed.

(** ** Lemmas: runs without failures *)

Lemma wp_outbox_Insert_ok e v c d t n Q :
  healthy e -> Events.Validate (uuid_valid e) v = None ->
  (forall o, o ∈ d_outbox d -> e_ID (ob_Env o) <> e_ID v) ->
  Q (Ok ()) (MkSt c (Some (set_outbox (fun l => l ++ [MkOutboxRow v "pending" 0 "" None]) d, t))
               (S n)) ->
  wp (outbox_Insert (Some v)) e (MkSt c (Some (d, t)) n) Q.
Proof. intros. unfold outbox_Insert. wp_step. by apply wp_Writer_Insert_ok. Qed.

(** A transition in which no call fails: what it returns and leaves. *)
Lemma wp_TransitionTo_ok source e t id to reason s Q :
  healthy e -> fresh e (steps s) (committed s) -> t <> "" ->
  match sel_interaction t id (committed s) with
  | None => forall s', committed s' = committed s -> (steps s <= steps s')%nat ->
      Q (Err (NotFound "interaction.not_found" "interaction not found")) s'
  | Some r =>
      match Transition (r_Status r) to with
      | Some x => forall s', committed s' = committed s -> (steps s <= steps s')%nat -> Q (Err x) s'
      | None => forall v k n, (steps s <= k < n)%nat -> e_ID v = uuid_of e k ->
          let r' := transitioned to reason (clock e (S (S (steps s)))) (clock e (steps s)) r in
          Q (Ok r') (MkSt (set_outbox (fun l => l ++ [MkOutboxRow v "pending" 0 "" None])
                             (set_interactions (<[id := r']>) (committed s))) None n)
      end
  end ->
  wp (TransitionTo source t id to reason) e s Q.
Proof.
  intros Hh Hfr Ht HQ. unfold TransitionTo.
  wp_go; try no_fault Hh.
  all: try (apply HQ; simpl; [done|lia]).
  all: unfold upd_status in Hx; rewrite E in Hx; try done. injection Hx as <- <-.
  rewrite NewEnvelope_Some by (done || apply Hh || apply transition_topic_registered).
  apply wp_outbox_Insert_ok; [done| | |].
  - apply Validate_None. split; [apply Hh|]. split; [apply transition_topic_registered|done].
  - intros o Ho. simpl in Ho. eapply (fresh_events _ _ _ Hfr); [|done]. lia.
  - wp_go; [no_fault Hh|]. unfold Get. apply sel_interaction_Some in E as [_ Hrt].
    wp_go; [no_fault Hh|..].
    all: unfold sel_interaction in E; simpl in E; rewrite lookup_insert_eq in E; simpl in E.
    all: rewrite Hrt, String.eqb_refl in E; simplify_eq.
    eapply HQ; [|reflexivity]. lia.
Qed.

(** ** A concrete store, for the examples *)

Definition customer1 : Customer := MkCustomer "c1" "t1" "Amina" "" "en" "UTC" [] 0 0.

Definition conversation1 : Conversation :=
  MkConversation "v1" "t1" "c1" "voice" "open" "" "" "" 0 None 0 0 None.

Definition input1 : CreateInput :=
  MkCreateInput "" "c1" "voice" "inbound" "+254700" "+254711" "pbx" "call-1" "" [].

Definition row1 : Rec := new_rec "i1" "t1" "v1" "pbx" 0 input1.

(** A customer, and nothing else. *)
Definition db_start : DB := set_customers (fun _ => {["c1" := customer1]}) empty_db.

(** A customer with a pending call. *)
Definition db_call : DB :=
  set_conversations (fun _ => {["v1" := conversation1]})
    (set_interactions (fun _ => {["i1" := row1]}) db_start).

(** The tables after the customer's first call. *)
Definition db_created : DB :=
  committed (snd (run_op "api" (OpCreate "t1" input1) env0 (MkSt db_start None 0))).

Lemma db_start_wf : db_wf db_start.
Proof.
  split; simpl; try by (intros; rewrite lookup_empty in *).
  by intros o ?%not_elem_of_nil.
Qed.

(** A chain of legal moves uses up rank. *)
Lemma moves_rank n from to :
  nsteps (fun a b => Transition a b = None) n from to -> (n + rank to <= rank from)%nat.
Proof.
  induction 1 as [|n a b c H _ IH]; [lia|]. apply transition_rank in H. lia.
Qed.

Lemma rank_le s : (rank s <= 3)%nat.
Proof. unfold rank. repeat case_match; lia. Qed.

Lemma rank_0_Terminal s : rank s = 0%nat -> Terminal s = true.
Proof.
  unfold rank, Terminal, transitions. by repeat case_match.
Qed.

Lemma rank_Terminal_0 s : Terminal s = true -> rank s = 0%nat.
Proof. unfold rank, Terminal, transitions. by repeat case_match. Qed.

(** ** Properties *)

(** The interaction lifecycle ends: every accepted chain of moves has at
    most three steps, three steps always end in a terminal status, no step
    leaves a terminal status, and every reached status is one the table's
    CHECK allows. *)
Lemma interaction_lifecycle_bounded (n : nat) (from to : Status) :
  nsteps (fun a b => Transition a b = None) n from to ->
  (n <= 3)%nat
  /\ (n = 3%nat -> Terminal to = true)
  /\ (Terminal from = true -> n = 0%nat)
  /\ (n <> 0%nat -> to ∈ statuses).
Proof.
  intros H. pose proof (moves_rank _ _ _ H) as Hr. pose proof (rank_le from) as Hle.
  repeat split; [lia| | |].
  - intros ->. apply rank_0_Terminal. lia.
  - intros HT. apply rank_Terminal_0 in HT. lia.
  - intros Hn. destruct n as [|n]; [done|]. apply nsteps_inv_r in H as (m & _ & H).
    by eapply transition_to_known.
Qed.

Lemma interaction_lifecycle_bounded_witness :
  nsteps (fun a b => Transition a b = None) 3 StatusPending StatusFailed
  /\ Terminal StatusFailed = true.
Proof.
  assert (nsteps (fun a b => Transition a b = None) 3 StatusPending StatusFailed) as H.
  { apply (nsteps_l _ 2 _ StatusActive); [reflexivity|].
    apply (nsteps_l _ 1 _ StatusWrapup); [reflexivity|].
    apply (nsteps_l _ 0 _ StatusFailed); [reflexivity|]. constructor. }
  split; [exact H|].
  exact (proj1 (proj2 (interaction_lifecycle_bounded 3 StatusPending StatusFailed H)) eq_refl).
Defined.

(** C3. [Service.Transition] is atomic under every failure: whatever calls
    fail, either the tables are exactly as before and the caller gets an
    error, or the move was legal from the stored status and the tables differ
    by the updated row and exactly one pending outbox event with the right
    topic, tenant, subject and payload (the caller then gets the new row, or
    the error of the read back). *)
Theorem interaction_transition_atomic source t id to reason e s :
  let '(res, s') := TransitionTo source t id to reason e s in
  (committed s' = committed s /\ exists x, res = Err x)
  \/ exists r now tm v,
      let r' := transitioned to reason tm now r in
      sel_interaction t id (committed s) = Some r
      /\ Transition (r_Status r) to = None
      /\ transition_event v t id (r_Status r) to reason
      /\ committed s' = set_outbox (fun l => l ++ [MkOutboxRow v "pending" 0 "" None])
                          (set_interactions (<[id := r']>) (committed s))
      /\ (res = Ok r' \/ exists x, res = Err x).
Proof.
  change (wp (TransitionTo source t id to reason) e s (fun res s' =>
    (committed s' = committed s /\ exists x, res = Err x)
    \/ exists r now tm v,
      let r' := transitioned to reason tm now r in
      sel_interaction t id (committed s) = Some r
      /\ Transition (r_Status r) to = None
      /\ transition_event v t id (r_Status r) to reason
      /\ committed s' = set_outbox (fun l => l ++ [MkOutboxRow v "pending" 0 "" None])
                          (set_interactions (<[id := r']>) (committed s))
      /\ (res = Ok r' \/ exists x, res = Err x))).
  apply wp_TransitionTo; [by eauto|].
  intros r now tm v n x Hr HT Hv. split; right; exists r, now, tm, v; eauto 10.
Qed.

(** C4. Table integrity holds throughout the service's life: any sequence of
    creates, transitions and assignments by any tenants, with any failures,
    keeps every interaction row well formed (known status, [ended_at] set
    exactly in terminal statuses, a conversation of the same tenant and
    customer), provider references and idempotency keys unique per tenant,
    conversations anchored to a customer of their own tenant, and every outbox
    event on a registered topic. *)
Theorem interactions_integrity source d d' :
  db_wf d -> history source d d' -> db_wf d'.
Proof.
  intros Hwf. induction 1 as [|d1 d2 d3 [o H] _ IH]; [done|].
  apply IH. by eapply writes_wf; [eapply called_writes|].
Qed.

Lemma interactions_integrity_witness :
  db_wf db_start /\ history "api" db_start db_created /\ size (d_interactions db_created) = 1%nat
  /\ db_wf db_created.
Proof.
  assert (history "api" db_start db_created) as H
    by (apply rtc_once; exists (OpCreate "t1" input1), env0, 0%nat; reflexivity).
  split; [apply db_start_wf|]. split; [exact H|]. split; [vm_compute; reflexivity|].
  exact (interactions_integrity "api" db_start db_created db_start_wf H).
Defined.

(** No cross-tenant writes: a call made for one tenant leaves every other
    tenant's interactions, conversations and events, and the whole customer
    table, exactly as they were, under every failure. *)
Lemma interactions_tenant_isolation source o u d d' :
  called source o d d' -> op_tenant o <> u -> same_view u d d'.
Proof. intros H Hu. eapply writes_same_view; [exact Hu|by eapply called_writes]. Qed.

Lemma interactions_tenant_isolation_witness :
  called "api" (OpCreate "t1" input1) db_start db_created /\ "t1" <> "t2"
  /\ same_view "t2" db_start db_created.
Proof.
  assert (called "api" (OpCreate "t1" input1) db_start db_created) as H
    by (exists env0, 0%nat; reflexivity).
  split; [exact H|]. split; [discriminate|].
  apply (interactions_tenant_isolation "api" (OpCreate "t1" input1) "t2" db_start db_created H).
  discriminate.
Defined.

(** Rows only evolve forward: over any history an interaction is never
    deleted, keeps its id, tenant, conversation, customer, channel, start and
    provider reference, its status moves only along legal transitions, and
    once terminal its status, end time and end reason never change. *)
Lemma interaction_history_monotone source d d' id r :
  history source d d' -> d_interactions d !! id = Some r ->
  exists r', d_interactions d' !! id = Some r' /\ evolves r r'.
Proof.
  intros H. revert r. induction H as [|d1 d2 d3 [o Ho] _ IH]; intros r Hr; [by exists r|].
  destruct (writes_evolve _ _ _ _ _ (called_writes _ _ _ _ Ho) Hr) as (r1 & Hr1 & E1).
  destruct (IH _ Hr1) as (r2 & Hr2 & E2). exists r2. split; [done|]. by etransitivity.
Qed.

Lemma interaction_history_monotone_witness :
  let d' := committed (snd (run_op "api" (OpTransition "t1" "i1" "failed" "busy") env0
                              (MkSt db_call None 0))) in
  history "api" db_call d' /\ d_interactions db_call !! "i1" = Some row1
  /\ exists r', d_interactions d' !! "i1" = Some r' /\ evolves row1 r'.
Proof.
  intros d'. assert (history "api" db_call d') as H
    by (apply rtc_once; exists (OpTransition "t1" "i1" "failed" "busy"), env0, 0%nat; reflexivity).
  assert (d_interactions db_call !! "i1" = Some row1) as Hr by (vm_compute; reflexivity).
  split; [exact H|]. split; [exact Hr|].
  exact (interaction_history_monotone "api" db_call d' "i1" row1 H Hr).
Defined.

(** Duplicate deliveries are absorbed: once an interaction with the given
    provider reference is stored, another [Create] with the same reference
    changes nothing at all, under every failure, and if it succeeds it returns
    a stored row with that reference. *)
Lemma interaction_create_idempotent source t i e s r0 :
  ci_ProviderRef i <> "" ->
  replayed t (defaultStr (ci_Provider i) "internal") (ci_ProviderRef i) (committed s) r0 ->
  let '(res, s') := Create source t i e s in
  committed s' = committed s
  /\ forall r, res = Ok r ->
       replayed t (defaultStr (ci_Provider i) "internal") (ci_ProviderRef i) (committed s) r.
Proof.
  intros Href (id0 & Hid0 & Ht0 & Hp0 & Hr0).
  change (wp (Create source t i) e s (fun res s' => committed s' = committed s
  /\ forall r, res = Ok r ->
       replayed t (defaultStr (ci_Provider i) "internal") (ci_ProviderRef i) (committed s) r)).
  apply wp_Create; [done|by intros; split; [|naive_solver]|].
  intros r s' _ _ _ Hcl (id & conv & now & i' & Hi & ->).
  exfalso. specialize (Hcl _ _ Hid0). unfold clashes in Hcl. rewrite Hi in Hcl. simpl in Hcl.
  rewrite Ht0, Hp0, Hr0, !String.eqb_refl in Hcl. simpl in Hcl.
  by rewrite (proj2 (is_empty_false _)) in Hcl.
Qed.

Lemma interaction_create_idempotent_witness :
  ci_ProviderRef input1 <> "" /\ replayed "t1" "pbx" "call-1" db_call row1
  /\ committed (snd (Create "api" "t1" input1 env0 (MkSt db_call None 0))) = db_call
  /\ fst (Create "api" "t1" input1 env0 (MkSt db_call None 0)) = Ok row1.
Proof.
  assert (ci_ProviderRef input1 <> "") as H1 by discriminate.
  assert (replayed "t1" "pbx" "call-1" db_call row1) as H2
    by (exists "i1"; vm_compute; repeat split; reflexivity).
  split; [exact H1|]. split; [exact H2|]. split; [|vm_compute; reflexivity].
  pose proof (interaction_create_idempotent "api" "t1" input1 env0 (MkSt db_call None 0) row1 H1 H2)
    as H. destruct (Create "api" "t1" input1 env0 (MkSt db_call None 0)) as [res s'].
  exact (proj1 H).
Defined.

(** [Service.Transition] is live and exact: when no call fails, its result
    is determined by the stored row. A missing or foreign interaction is
    [NotFound], an illegal move is the guard's Conflict, and a legal move
    succeeds, returning the stored row with the new status, with [answered_at]
    set on activation, and with the end time and reason on termination. *)
Lemma interaction_transition_exact source t id to reason e s :
  healthy e -> fresh e (steps s) (committed s) -> t <> "" ->
  fst (TransitionTo source t id to reason e s) =
    match sel_interaction t id (committed s) with
    | None => Err (NotFound "interaction.not_found" "interaction not found")
    | Some r =>
        match Transition (r_Status r) to with
        | Some x => Err x
        | None => Ok (transitioned to reason (clock e (S (S (steps s)))) (clock e (steps s)) r)
        end
    end.
Proof.
  intros Hh Hfr Ht.
  enough (wp (TransitionTo source t id to reason) e s (fun res _ => res =
    match sel_interaction t id (committed s) with
    | None => Err (NotFound "interaction.not_found" "interaction not found")
    | Some r =>
        match Transition (r_Status r) to with
        | Some x => Err x
        | None => Ok (transitioned to reason (clock e (S (S (steps s)))) (clock e (steps s)) r)
        end
    end)) as H by (unfold wp in H; by destruct (TransitionTo _ _ _ _ _ _ _)).
  apply wp_TransitionTo_ok; [done..|]. destruct (sel_interaction _ _ _) as [r|]; [|done].
  by destruct (Transition _ _).
Qed.

Lemma interaction_transition_exact_witness :
  healthy env0 /\ fresh env0 0 db_call /\ "t1" <> ""
  /\ fst (TransitionTo "api" "t1" "i1" "active" "" env0 (MkSt db_call None 0))
     = Ok (set_status "active" (Some 2) None "" 0 row1).
Proof.
  split; [apply env0_healthy|]. split; [by apply env0_fresh|]. split; [discriminate|].
  exact (interaction_transition_exact "api" "t1" "i1" "active" "" env0 (MkSt db_call None 0)
    env0_healthy (env0_fresh 0 db_call eq_refl) ltac:(discriminate)).
Defined.
