(* ===== verification/Planes.v ===== *)
(** * internal/telephony and internal/messaging: the communication planes

    The ports of the carriers and the call and message use-cases over the
    interaction service. A provider is an instance of [VoiceProvider] or
    [MessagingProvider] with a state of its own; it may call back into the
    platform (the simulator delivers webhooks), so its operations run over its
    state and the store. *)

From Stdlib Require Import String Ascii.
From S2P Require Import Prelude GoStd AppErrors Store Wp Interactions Text.

Local Open Scope Z_scope.

(** ** Methods over a provider *)

(** A service method next to a provider with state [P]; its error is any Go
    error. *)
Definition MW (P A : Type) : Type := env -> P * st -> (A + error) * (P * st).

#[export] Instance MW_ret P : MRet (MW P) := fun A a _ w => (inl a, w).
#[export] Instance MW_bind P : MBind (MW P) := fun A B f m e w =>
  match m e w with
  | (inl a, w') => f a e w'
  | (inr x, w') => (inr x, w')
  end.

Definition fail {P A} (x : error) : MW P A := fun _ w => (inr x, w).

(** A call of the interaction service. *)
Definition lift {P A} (m : M A) : MW P A := fun e w =>
  match m e w.2 with
  | (Ok a, s') => (inl a, (w.1, s'))
  | (Err x, s') => (inr (AppErr x), (w.1, s'))
  end.

(** A call of the provider: its error, if any. *)
Definition port (P : Type) : Type := env -> P * st -> option error * (P * st).

Definition call_port {P} (m : port P) : MW P (option error) := fun e w =>
  let '(r, w') := m e w in (inl r, w').

(** [v, err := m] *)
Definition try {P A} (m : MW P A) : MW P (A + error) := fun e w =>
  let '(r, w') := m e w in (inl r, w').

(** ** telephony/ports.go *)

Record CallCommand := MkCallCommand {
  cc_InteractionID : string;
  cc_From : string;
  cc_To : string;
  cc_ProviderOptions : dict;
}.

Class VoiceProvider (P : Type) := {
  vp_PlaceCall : CallCommand -> port P;
  vp_Hangup : string -> port P;
  vp_Transfer : string -> string -> port P;
  vp_Hold : string -> port P;
  vp_Resume : string -> port P;
}.

Definition ProviderRef (interactionID : string) : string := interactionID.

(** ** messaging/ports.go *)

Record Message := MkMessage {
  msg_InteractionID : string;
  msg_TenantID : string;
  msg_Channel : string;
  msg_From : string;
  msg_To : string;
  msg_Body : string;
  msg_MediaURLs : list string;
}.

Class MessagingProvider (P : Type) := {
  mp_Send : Message -> port P;
}.

(** [len(l) == 0] *)
Definition no_items {A} (l : list A) : bool := match l with [] => true | _ => false end.

Definition ValidateMessage (msg : Message) : option Error :=
  if is_empty (msg_InteractionID msg) then
    Some (Invalid "message.interaction_required" "interaction id is required")
  else if negb (existsb (String.eqb (msg_Channel msg)) [ChannelWhatsApp; ChannelSMS; ChannelEmail]) then
    Some (Invalid "message.invalid_channel" "channel must be whatsapp|sms|email")
  else if is_empty (trim_space (msg_To msg)) then
    Some (Invalid "message.to_required" "destination is required")
  else if is_empty (trim_space (msg_Body msg)) && no_items (msg_MediaURLs msg) then
    Some (Invalid "message.body_required" "body or media is required")
  else if 4096 <? RuneCountInString (msg_Body msg) then
    Some (Invalid "message.body_too_long" "body must be at most 4096 chars")
  else None.

(** [m[k] = v] *)
Definition dict_set (m : dict) (k : string) (v : any) : dict :=
  (k, v) :: List.filter (fun kv => negb (String.eqb k kv.1)) m.

Section Services.
Context {P : Type}.
(** [s.source] of the interaction service *)
Variable source : string.

(** ** telephony/service.go *)

Record PlaceCallInput := MkPlaceCallInput {
  pc_CustomerID : string;
  pc_From : string;
  pc_To : string;
  pc_AgentID : string;
  pc_QueueID : string;
  pc_Options : dict;
}.

Section Telephony.
Context `{VoiceProvider P}.

Definition PlaceCall (tenantID : string) (i : PlaceCallInput) : MW P Rec :=
  if is_empty (pc_CustomerID i) then
    fail (AppErr (Invalid "call.customer_required" "customer_id is required"))
  else if is_empty (pc_To i) then
    fail (AppErr (Invalid "call.to_required" "to (E.164 or extension) is required"))
  else
  let from := if is_empty (pc_From i) then "orvexa-voice" else pc_From i in
  rec ← lift (Create source tenantID
                (MkCreateInput "" (pc_CustomerID i) ChannelVoice DirectionOutbound from (pc_To i)
                   "voice" "" "" [("options", VMap (pc_Options i))]));
  rec ← (if negb (is_empty (pc_AgentID i)) || negb (is_empty (pc_QueueID i)) then
           lift (Assign source tenantID (r_ID rec) (pc_AgentID i) (pc_QueueID i))
         else mret rec);
  let opts := dict_set (pc_Options i) "tenant_id" (VStr tenantID) in
  res ← call_port (vp_PlaceCall (MkCallCommand (r_ID rec) from (pc_To i) opts));
  match res with
  | Some err =>
      _ ← try (lift (TransitionTo source tenantID (r_ID rec) StatusFailed "provider_place_failed"));
      fail (AppErr (WithCause (Internal "call.provider_failed" "provider rejected the call") err))
  | None => lift (Interactions.Get tenantID (r_ID rec))
  end.

(** [mapProviderActionErr]: nil when the error is not mapped. *)
Definition mapProviderActionErr (err : error) (action : string) : option error :=
  match errors_As err with
  | Some ae =>
      if has_suffix (Code ae) ".unknown_leg" then
        Some (AppErr (Conflict "call.unknown_leg"
          ("no live provider leg for this interaction: " +:+ action +:+ " requires an active call")))
      else None
  | None => None
  end.

(** The common end of [ApplyAction]. *)
Definition finish_action (tenantID id action : string) (err : option error) : MW P (option Rec) :=
  match err with
  | Some err =>
      match mapProviderActionErr err action with
      | Some aerr => fail aerr
      | None => fail err
      end
  | None => rec ← lift (Interactions.Get tenantID id); mret (Some rec)
  end.

(** [return nil, mapProviderActionErr(err, action)] *)
Definition return_mapped (err : error) (action : string) : MW P (option Rec) :=
  match mapProviderActionErr err action with
  | Some aerr => fail aerr
  | None => mret None
  end.

(** The outcome of a transition, as an error value. *)
Definition transition_err (r : Rec + error) : option error :=
  match r with inl _ => None | inr x => Some x end.

(** [None] as a result is the nil record next to a nil error. *)
Definition ApplyAction (tenantID interactionID action destination : string) : MW P (option Rec) :=
  rec ← lift (Interactions.Get tenantID interactionID);
  let id := r_ID rec in
  if String.eqb action "answer" then
    if String.eqb (r_Status rec) StatusPending then
      r ← try (lift (TransitionTo source tenantID id StatusActive ""));
      finish_action tenantID id action (transition_err r)
    else finish_action tenantID id action None
  else if String.eqb action "hangup" then
    res ← call_port (vp_Hangup (ProviderRef id));
    match res with
    | Some err => return_mapped err "hangup"
    | None => finish_action tenantID id action None
    end
  else if String.eqb action "transfer" then
    if is_empty destination then
      fail (AppErr (Invalid "call.destination_required" "transfer requires destination"))
    else
    res ← call_port (vp_Transfer (ProviderRef id) destination);
    match res with
    | Some err => return_mapped err "transfer"
    | None => finish_action tenantID id action None
    end
  else if String.eqb action "hold" then
    res ← call_port (vp_Hold (ProviderRef id)); finish_action tenantID id action res
  else if String.eqb action "resume" then
    res ← call_port (vp_Resume (ProviderRef id)); finish_action tenantID id action res
  else if String.eqb action "complete" then
    r ← try (lift (TransitionTo source tenantID id StatusCompleted "complete"));
    finish_action tenantID id action (transition_err r)
  else
    fail (AppErr (Invalid "call.unknown_action"
            "action must be answer|hangup|transfer|hold|resume|complete")).
End Telephony.

(** ** messaging/service.go *)

Record SendInput := MkSendInput {
  si_CustomerID : string;
  si_Channel : string;
  si_From : string;
  si_To : string;
  si_Body : string;
  si_MediaURLs : list string;
}.

Definition defaultSender := "orvexa-messaging".

Definition effectiveSender (from : string) : string :=
  if is_empty (trim_space from) then defaultSender else from.

Section Messaging.
Context `{MessagingProvider P}.

Definition Send (tenantID : string) (i : SendInput) : MW P Rec :=
  let from := effectiveSender (si_From i) in
  rec ← lift (Create source tenantID
                (MkCreateInput "" (si_CustomerID i) (si_Channel i) DirectionOutbound from (si_To i)
                   (si_Channel i) "" "" []));
  let msg tenant := MkMessage (r_ID rec) tenant (si_Channel i) from (si_To i) (si_Body i) (si_MediaURLs i) in
  match ValidateMessage (msg "") with
  | Some err =>
      _ ← try (lift (TransitionTo source tenantID (r_ID rec) StatusFailed "validation_failed"));
      fail (AppErr err)
  | None =>
      rec ← lift (TransitionTo source tenantID (r_ID rec) StatusActive "");
      res ← call_port (mp_Send (msg tenantID));
      match res with
      | Some err =>
          _ ← try (lift (TransitionTo source tenantID (r_ID rec) StatusFailed "provider_send_failed"));
          fail (AppErr (WithCause (Internal "message.provider_failed" "provider rejected the message") err))
      | None => lift (Interactions.Get tenantID (r_ID rec))
      end
  end.
End Messaging.
End Services.

(** ** Reasoning about a plane's methods *)

Definition wpw {P A} (m : MW P A) (e : env) (w : P * st) (Q : A + error -> P * st -> Prop) : Prop :=
  let '(r, w') := m e w in Q r w'.

Lemma wpw_run {P A} (m : MW P A) e w Q r w' : wpw m e w Q -> m e w = (r, w') -> Q r w'.
Proof. unfold wpw. intros H E. by rewrite E in H. Qed.

Lemma wpw_ret {P A} (a : A) e (w : P * st) Q : Q (inl a) w -> wpw (mret a) e w Q.
Proof. done. Qed.

Lemma wpw_fail {P A} x e (w : P * st) (Q : A + error -> P * st -> Prop) : Q (inr x) w -> wpw (fail x) e w Q.
Proof. done. Qed.

Lemma wpw_bind {P A B} (m : MW P A) (k : A -> MW P B) e w Q :
  wpw m e w (fun r w' => match r with
                         | inl a => wpw (k a) e w' Q
                         | inr x => Q (inr x) w'
                         end) ->
  wpw (mbind k m) e w Q.
Proof. unfold wpw, mbind, MW_bind. by destruct (m e w) as [[a|x] w']. Qed.

Lemma wpw_lift {P A} (m : M A) e (p : P) s Q :
  wp m e s (fun r s' => match r with Ok a => Q (inl a) (p, s') | Err x => Q (inr (AppErr x)) (p, s') end) ->
  wpw (lift m) e (p, s) Q.
Proof. unfold wpw, lift, wp. simpl. by destruct (m e s) as [[a|x] s']. Qed.

Lemma wpw_try {P A} (m : MW P A) e w Q :
  wpw m e w (fun r w' => Q (inl r) w') -> wpw (try m) e w Q.
Proof. unfold wpw, try. by destruct (m e w). Qed.

Lemma wpw_port {P} (m : port P) e w Q :
  (let '(r, w') := m e w in Q (inl r) w') -> wpw (call_port m) e w Q.
Proof. unfold wpw, call_port. by destruct (m e w). Qed.

(** One step of a method, up to a call. *)
Ltac wpw_step :=
  lazymatch goal with
  | |- wpw (mbind _ _) _ _ _ => apply wpw_bind
  | |- wpw (mret _) _ _ _ => apply wpw_ret
  | |- wpw (fail _) _ _ _ => apply wpw_fail
  | |- wpw (lift _) _ (_, _) _ => apply wpw_lift
  | |- wpw (try _) _ _ _ => apply wpw_try
  | |- wpw (call_port _) _ _ _ => apply wpw_port
  | |- wpw (if ?b then _ else _) _ _ _ => let E := fresh "E" in destruct b eqn:E
  | |- wpw (match ?x with _ => _ end) _ _ _ => let E := fresh "E" in destruct x eqn:E
  | |- wpw (let _ := _ in _) _ _ _ => cbv zeta
  end.
