(* ===== verification/PlanesProps.v ===== *)
(** * Properties of the call and message use-cases *)

From Stdlib Require Import String Ascii.
From S2P Require Import Prelude GoStd AppErrors Events Store Sql Wp Interactions.
From S2P Require Import InteractionsProps Planes.

Local Open Scope Z_scope.

Section actions.
Context {P : Type} {V : VoiceProvider P} (source : string).

(** The provider's answer to an action. *)
Definition provider_answer (action ref destination : string) : option (port P) :=
  if String.eqb action "hangup" then Some (vp_Hangup ref)
  else if String.eqb action "transfer" then Some (vp_Transfer ref destination)
  else if String.eqb action "hold" then Some (vp_Hold ref)
  else if String.eqb action "resume" then Some (vp_Resume ref)
  else None.

Lemma wpw_finish_action tenant id action err e p s (Q : option Rec + error -> P * st -> Prop) :
  (forall x w', Q (inr x) w') -> (forall r w', Q (inl (Some r)) w') ->
  wpw (finish_action tenant id action err) e (p, s) Q.
Proof.
  intros HE HO. unfold finish_action. destruct err as [err|].
  - destruct (mapProviderActionErr err action); wpw_step; apply HE.
  - wpw_step. wpw_step. apply wp_Get; intros; [apply HE|]. wpw_step. apply HO.
Qed.

(** When an action reports nothing. [ApplyAction] returns neither a record
    nor an error in exactly one situation: the provider failed a hangup or a
    transfer with an error that is not an unknown leg. Then, for every
    provider and every environment in which the read of the interaction
    succeeds, it does. *)
Lemma action_nil_result tenant id action dest e p s :
  ((ApplyAction source tenant id action dest e (p, s)).1 = inl None ->
     (action = "hangup" \/ action = "transfer")
     /\ exists ref m w err, provider_answer action ref dest = Some m
          /\ (m e w).1 = Some err /\ mapProviderActionErr err action = None)
  /\ forall r err, healthy e -> sel_interaction tenant id (committed s) = Some r ->
       (vp_Hangup (r_ID r) e (p, bump s)).1 = Some err -> mapProviderActionErr err "hangup" = None ->
       (ApplyAction source tenant id "hangup" dest e (p, s)).1 = inl None.
Proof.
  split.
  - intros Hnil. enough (wpw (ApplyAction source tenant id action dest) e (p, s) (fun r _ => r = inl None ->
      (action = "hangup" \/ action = "transfer")
      /\ exists ref m w err, provider_answer action ref dest = Some m
           /\ (m e w).1 = Some err /\ mapProviderActionErr err action = None)) as Hw
      by (destruct (ApplyAction source tenant id action dest e (p, s)) as [r w] eqn:E;
          exact (wpw_run _ _ _ _ _ _ Hw E Hnil)).
    clear Hnil. unfold ApplyAction. cbv zeta. wpw_step. wpw_step.
    apply wp_Get; [done|]. intros r _ _.
    wpw_step; [apply String.eqb_eq in E as ->|].
    { wpw_step; [|apply wpw_finish_action; done]. wpw_step. wpw_step. wpw_step.
      unfold wp. destruct (TransitionTo _ _ _ _ _ _ _) as [[?|?] s1]; cbv beta iota;
        by apply wpw_finish_action. }
    wpw_step; [apply String.eqb_eq in E0 as ->|].
    { wpw_step. wpw_step. destruct (vp_Hangup _ e _) as [o [p1 s1]] eqn:Em. destruct o as [err|];
        [|by apply wpw_finish_action]. unfold return_mapped.
      destruct (mapProviderActionErr err "hangup") eqn:Emap; wpw_step; [done|]. intros _. split; [by left|].
      eexists _, _, _, err. split; [reflexivity|]. by rewrite Em. }
    wpw_step; [apply String.eqb_eq in E1 as ->|].
    { wpw_step; [by wpw_step|]. wpw_step. wpw_step.
      destruct (vp_Transfer _ _ e _) as [o [p1 s1]] eqn:Em. destruct o as [err|];
        [|by apply wpw_finish_action]. unfold return_mapped.
      destruct (mapProviderActionErr err "transfer") eqn:Emap; wpw_step; [done|]. intros _. split; [by right|].
      eexists _, _, _, err. split; [reflexivity|]. by rewrite Em. }
    wpw_step; [wpw_step; wpw_step; destruct (vp_Hold _ e _) as [o [p1 s1]]; by apply wpw_finish_action|].
    wpw_step; [wpw_step; wpw_step; destruct (vp_Resume _ e _) as [o [p1 s1]]; by apply wpw_finish_action|].
    wpw_step; [|by wpw_step]. wpw_step. wpw_step. wpw_step.
    unfold wp. destruct (TransitionTo _ _ _ _ _ _ _) as [[?|?] s1]; cbv beta iota;
        by apply wpw_finish_action.
  - intros r err Hh Hr Hm Hmap. unfold ApplyAction, lift, mbind at 1, MW_bind at 1. cbn [fst snd].
    unfold Interactions.Get, mbind at 1, M_bind at 1, pool_Query at 1. rewrite (healthy_fault _ Hh), Hr.
    cbn [mret M_ret]. unfold mret, M_ret. cbn [String.eqb Ascii.eqb Bool.eqb].
    unfold mbind, MW_bind, call_port, ProviderRef.
    destruct (vp_Hangup (r_ID r) e (p, bump s)) as [o w]. cbn [fst] in Hm. subst o.
    unfold return_mapped. by rewrite Hmap.
Qed.
End actions.

(** A carrier that answers every command with one error. *)
Definition failing (err : error) : port () := fun _ w => (Some err, w).

#[local] Instance unavailable : VoiceProvider () := {
  vp_PlaceCall := fun _ _ w => (None, w);
  vp_Hangup := fun _ => failing (OtherErr "carrier timeout" None);
  vp_Transfer := fun _ _ => failing (OtherErr "carrier timeout" None);
  vp_Hold := fun _ => failing (OtherErr "carrier timeout" None);
  vp_Resume := fun _ => failing (OtherErr "carrier timeout" None);
}.

(** A hangup the carrier did not perform is answered without an error. *)
Lemma hangup_error_swallowed :
  (ApplyAction (P := ()) "api" "t1" "i1" "hangup" "" env0 ((), MkSt db_call None 0)).1 = inl None
  /\ (ApplyAction (P := ()) "api" "t1" "i1" "hold" "" env0 ((), MkSt db_call None 0)).1
     = inr (OtherErr "carrier timeout" None).
Proof. by vm_compute. Qed.

(** ** What reaches a messaging carrier *)

(** A carrier that records the messages it is given, with the tables at that
    moment, and answers as it likes. *)
Section recorder.
Context (source : string) (answer : Message -> option error).

Definition record : Message -> port (list (Message * DB)) := fun msg _ w =>
  (answer msg, (w.1 ++ [(msg, committed w.2)], w.2)).

#[local] Instance recorder : MessagingProvider (list (Message * DB)) := {| mp_Send := record |}.

(** The message of a send request is on its way: valid, for this tenant, and
    its interaction recorded as active. *)
Definition handed_over (tenant : string) (i : SendInput) (entry : Message * DB) : Prop :=
  let '(msg, d) := entry in
  ValidateMessage msg = None /\ msg_TenantID msg = tenant
  /\ msg_Channel msg = si_Channel i /\ msg_To msg = si_To i /\ msg_Body msg = si_Body i
  /\ msg_MediaURLs msg = si_MediaURLs i /\ msg_From msg = effectiveSender (si_From i)
  /\ exists r, sel_interaction tenant (msg_InteractionID msg) d = Some r /\ r_Status r = StatusActive.

(** C25. A message reaches the carrier at most once per request, and only after
    it was validated and its interaction was committed as active; a request
    succeeds only when the carrier took the message, whatever calls fail. *)
Theorem message_handed_over_once tenant i e s :
  let '(r, (log, s')) := Send source tenant i e ([], s) in
  (log = [] \/ exists entry, log = [entry] /\ handed_over tenant i entry
                /\ (answer entry.1 <> None -> exists x, r = inr x))
  /\ (forall rec, r = inl rec ->
        exists msg d, log = [(msg, d)] /\ answer msg = None /\ msg_InteractionID msg = r_ID rec
          /\ sel_interaction tenant (r_ID rec) (committed s') = Some rec).
Proof.
  enough (wpw (Send source tenant i) e ([], s) (fun r w => 
    (w.1 = [] \/ exists entry, w.1 = [entry] /\ handed_over tenant i entry
                /\ (answer entry.1 <> None -> exists x, r = inr x))
    /\ (forall rec, r = inl rec ->
        exists msg d, w.1 = [(msg, d)] /\ answer msg = None /\ msg_InteractionID msg = r_ID rec
          /\ sel_interaction tenant (r_ID rec) (committed w.2) = Some rec))) as Hw.
  { unfold wpw in Hw. destruct (Send source tenant i e ([], s)) as [r [log s']]. exact Hw. }
  assert (forall (x : error) (s' : st), (([] : list (Message * DB)) = [] \/ exists entry,
    [] = [entry] /\ handed_over tenant i entry /\ (answer entry.1 <> None -> exists y, @inr Rec error x = inr y))
    /\ (forall rec, @inr Rec error x = inl rec -> exists msg d, ([] : list (Message * DB)) = [(msg, d)] /\ answer msg = None
          /\ msg_InteractionID msg = r_ID rec /\ sel_interaction tenant (r_ID rec) (committed s') = Some rec)) as Hnone
    by (intros x s'; split; [by left|done]).
  unfold Send. cbv zeta. wpw_step. wpw_step. apply wp_Create.
  - intros x s' _. apply Hnone.
  - intros r s' _ Hne. by destruct Hne.
  - intros rec s' _ _ Hi _ _. wpw_step.
    + wpw_step. wpw_step. wpw_step. unfold wp. destruct (TransitionTo _ _ _ _ _ _ _) as [[?|?] s2];
        cbv beta iota; wpw_step; apply Hnone.
    + wpw_step. wpw_step. apply wp_TransitionTo; [by intros; apply Hnone|].
      intros r now tm v n x Hr _ _. cbv zeta. split; [|apply Hnone].
      set (r' := transitioned _ _ _ _ _). set (d' := set_outbox _ _).
      apply sel_interaction_Some in Hr as [Hr Ht]. rewrite Hi, lookup_insert_eq in Hr. injection Hr as <-.
      assert (sel_interaction tenant (r_ID rec) d' = Some r') as Hsel.
      { apply sel_interaction_Some. subst d'. simpl. by rewrite lookup_insert_eq. }
      assert (handed_over tenant i (MkMessage (r_ID rec) tenant (si_Channel i) (effectiveSender (si_From i))
        (si_To i) (si_Body i) (si_MediaURLs i), d')) as Hgo by (split_and!; eauto).
      wpw_step. wpw_step. unfold mp_Send, recorder, record. cbn [fst snd committed app].
      change (r_ID r') with (r_ID rec). set (msg := MkMessage (r_ID rec) tenant _ _ _ _ _) in *.
      destruct (answer msg) as [err|] eqn:Ea.
      * wpw_step. wpw_step. wpw_step. unfold wp.
        destruct (TransitionTo _ _ _ _ _ _ _) as [[?|?] s2]; cbv beta iota; wpw_step; cbn [fst snd];
          (split; [right; exists (msg, d'); eauto|done]).
      * wpw_step. apply wp_Get; cbn [committed].
        -- intros x'. split; [|done]. right. exists (msg, d'). split_and!; [done..|]. intros Hn. by destruct Hn.
        -- intros r2 _ Hr2. rewrite Hsel in Hr2. injection Hr2 as <-. cbn [fst snd bump committed]. split.
           ++ right. exists (msg, d'). split_and!; [done..|]. intros Hn. by destruct Hn.
           ++ intros rec2 [= <-]. by exists msg, d'.
Qed.
End recorder.
