(* ===== verification/Conversations.v ===== *)
(** * internal/conversations: the continuous customer relationship

    Close, Assign, Get and List of service.go. Conversations are opened by the
    interaction service. *)

From Stdlib Require Import String Ascii.
From S2P Require Import Prelude GoStd AppErrors Events Store Sql Wp Pagination.

Local Open Scope Z_scope.

(** ** SQL statements *)

Definition close_row (closedAt now : Z) (c : Conversation) : Conversation :=
  MkConversation (cv_ID c) (cv_TenantID c) (cv_CustomerID c) (cv_Channel c) "closed"
    (cv_Subject c) (cv_AssignedAgentID c) (cv_AssignedQueueID c) (cv_UnreadCount c)
    (cv_LastInteractionAt c) (cv_CreatedAt c) now (Some closedAt).

(** [UPDATE conversations SET status='closed', closed_at=$3, updated_at=now()
    WHERE id=$1 AND tenant_id=$2] *)
Definition upd_close (tenantID id : string) (closedAt : Z) : stmt := fun now d =>
  match sel_conversation tenantID id d with
  | Some c => Some (set_conversations (<[id := close_row closedAt now c]>) d, 1%nat)
  | None => Some (d, 0%nat)
  end.

Definition assign_row (agentID queueID : string) (now : Z) (c : Conversation) : Conversation :=
  MkConversation (cv_ID c) (cv_TenantID c) (cv_CustomerID c) (cv_Channel c) (cv_Status c)
    (cv_Subject c) (coalesce_str agentID (cv_AssignedAgentID c))
    (coalesce_str queueID (cv_AssignedQueueID c)) (cv_UnreadCount c)
    (cv_LastInteractionAt c) (cv_CreatedAt c) now (cv_ClosedAt c).

(** [UPDATE conversations SET assigned_agent_id = coalesce($3, ...), ...
    WHERE id = $1 AND tenant_id = $2 AND status = 'open'] *)
Definition upd_conv_assign (tenantID id agentID queueID : string) : stmt := fun now d =>
  match sel_conversation tenantID id d with
  | Some c =>
      if String.eqb (cv_Status c) "open" then
        Some (set_conversations (<[id := assign_row agentID queueID now c]>) d, 1%nat)
      else Some (d, 0%nat)
  | None => Some (d, 0%nat)
  end.

(** [ORDER BY updated_at DESC, id] *)
Definition recent_le (a b : Conversation) : Prop :=
  cv_UpdatedAt b < cv_UpdatedAt a
  \/ (cv_UpdatedAt a = cv_UpdatedAt b /\ String.leb (cv_ID a) (cv_ID b) = true).

#[export] Instance recent_le_dec a b : Decision (recent_le a b).
Proof. unfold recent_le. apply _. Defined.

Definition sel_conversations (tenantID status : string) (d : DB) : list Conversation :=
  merge_sort recent_le
    (List.filter (fun c => String.eqb (cv_TenantID c) tenantID
                           && (is_empty status || String.eqb (cv_Status c) status))
       (map snd (map_to_list (d_conversations d)))).

(** The columns the listing scans: all but [tenant_id]. *)
Definition listed_row (c : Conversation) : Conversation :=
  MkConversation (cv_ID c) "" (cv_CustomerID c) (cv_Channel c) (cv_Status c) (cv_Subject c)
    (cv_AssignedAgentID c) (cv_AssignedQueueID c) (cv_UnreadCount c) (cv_LastInteractionAt c)
    (cv_CreatedAt c) (cv_UpdatedAt c) (cv_ClosedAt c).

(** ** The use-cases *)

Section Service.
(** [s.source] *)
Variable source : string.

Definition Get (tenantID id : string) : M Conversation :=
  row ← pool_Query (sel_conversation tenantID id);
  match row with
  | SqlErr x => throw (read_failed x)
  | SqlOk None => throw (NotFound "conversation.not_found" "conversation not found")
  | SqlOk (Some c) => mret c
  end.

Definition Close (tenantID id reason : string) : M Conversation :=
  with_tx "write failed" (
    row ← tx_Query (sel_conversation tenantID id);
    match row with
    | SqlErr x => throw (read_failed x)
    | SqlOk None => throw (NotFound "conversation.not_found" "conversation not found")
    | SqlOk (Some c) =>
        if String.eqb (cv_Status c) "closed" then
          throw (Conflict "conversation.already_closed" "conversation is already closed")
        else
        now ← time_Now;
        r ← tx_Exec (upd_close tenantID id now);
        match r with
        | SqlErr x => throw (write_failed x)
        | SqlOk _ =>
            v ← events_New TopicConversationClosed source id tenantID
                  [("conversation_id", VStr id); ("reason", VStr reason)];
            _ ← Writer_Insert v;
            _ ← commit_or "write failed";
            Get tenantID id
        end
    end).

Definition Assign (tenantID id agentID queueID : string) : M Conversation :=
  if is_empty agentID && is_empty queueID then
    throw (Invalid "conversation.assign_target_required" "agent_id or queue_id required")
  else
  r ← pool_Exec (upd_conv_assign tenantID id agentID queueID);
  match r with
  | SqlErr x => throw (write_failed x)
  | SqlOk O =>
      _ ← Get tenantID id;
      throw (Conflict "conversation.not_assignable" "conversation is closed")
  | SqlOk _ => Get tenantID id
  end.

Definition List (tenantID status : string) (page : Page) : M (list Conversation * string) :=
  if negb (is_empty status) && negb (String.eqb status "open")
     && negb (String.eqb status "closed") then
    throw (Invalid "conversation.invalid_status" "status must be open|closed")
  else
  q ← pool_Query (sel_conversations tenantID status);
  match q with
  | SqlErr x => throw (read_failed x)
  | SqlOk rows => mret (window (map listed_row rows) page)
  end.
End Service.

(** ** fmtInt: the placeholder numbers of [List] *)

(** The loop [for n > 0 { i--; b[i] = byte('0' + n%10); n /= 10 }] from index
    [i]; [None] is the panic of writing before the buffer. *)
Fixpoint fmtInt_loop (i : nat) (n : Z) (acc : string) : option string :=
  if n <=? 0 then Some acc
  else match i with
       | O => None
       | S i' =>
           fmtInt_loop i' (n / 10) (String (digit (n mod 10)) acc)
       end.

Definition fmtInt (n : Z) : option string :=
  if n =? 0 then Some "0" else fmtInt_loop 12 n "".

(** ** Lemmas *)

Lemma upd_conv_assign_Some t id ag qu now d d' k :
  upd_conv_assign t id ag qu now d = Some (d', k) ->
  (exists c, sel_conversation t id d = Some c /\ cv_Status c = "open" /\ k = 1%nat
             /\ d' = set_conversations (<[id := assign_row ag qu now c]>) d)
  \/ (d' = d /\ k = 0%nat).
Proof.
  unfold upd_conv_assign. destruct (sel_conversation t id d) as [c|]; [|naive_solver].
  destruct (String.eqb_spec (cv_Status c) "open"); naive_solver.
Qed.

(** What one successful [Close] stores. *)
Definition closed_by (c c' : Conversation) : Prop := exists t now, c' = close_row t now c.

Lemma wp_conv_Get e t id s Q :
  (forall x, Q (Err x) (bump s)) ->
  (forall c, fault e (steps s) = None -> sel_conversation t id (committed s) = Some c ->
    Q (Ok c) (bump s)) ->
  wp (Get t id) e s Q.
Proof. intros H1 H2. unfold Get. wp_go; auto. Qed.

Section methods.
Context (source : string) (e : env).

Lemma wp_conv_Close t id reason s Q :
  (forall x s', committed s' = committed s -> Q (Err x) s') ->
  (forall c at_ now v n res,
    sel_conversation t id (committed s) = Some c -> cv_Status c <> "closed" ->
    e_Type v = TopicConversationClosed -> e_TenantID v = t -> e_Subject v = id ->
    e_Data v = [("conversation_id", VStr id); ("reason", VStr reason)] ->
    (res = Ok (close_row at_ now c) \/ exists x, res = Err x) ->
    Q res (MkSt (set_outbox (fun l => l ++ [MkOutboxRow v "pending" 0 "" None])
                   (set_conversations (<[id := close_row at_ now c]>) (committed s))) None n)) ->
  wp (Close source t id reason) e s Q.
Proof.
  intros H1 H2. unfold Close. wp_go; try by (apply H1).
  unfold upd_close in Hx. rewrite E in Hx. injection Hx as <- <-.
  apply NewEnvelope_inv in Hv as (_ & Ht & Hty & Hs & Hd & _).
  apply String.eqb_neq in E0. apply wp_conv_Get; simpl.
  - intros x. eapply (H2 c); eauto.
  - intros c2 _ Hc2. eapply (H2 c); eauto. left. f_equal.
    apply sel_conversation_Some in Hc2 as [Hc2 _]. simpl in Hc2.
    rewrite lookup_insert_eq in Hc2. by simplify_eq.
Qed.

Lemma wp_conv_Assign t id agent queue s Q :
  (forall x s', committed s' = committed s -> Q (Err x) s') ->
  (forall c now n res,
    sel_conversation t id (committed s) = Some c -> cv_Status c = "open" ->
    (res = Ok (assign_row agent queue now c) \/ exists x, res = Err x) ->
    Q res (MkSt (set_conversations (<[id := assign_row agent queue now c]>) (committed s))
             (txn s) n)) ->
  wp (Assign t id agent queue) e s Q.
Proof.
  intros H1 H2. unfold Assign. wp_go; try by (apply H1).
  - apply wp_conv_Get; intros; wp_go; apply H1; simpl;
      by apply upd_conv_assign_Some in Hx as [(?&?&?&?&?)|[-> _]].
  - apply upd_conv_assign_Some in Hx as [(c & Hc & Ho & _ & ->)|[_ ?]]; [|done].
    apply wp_conv_Get; simpl; [by eauto|]. intros c2 _ Hc2. eapply H2; eauto. left. f_equal.
    apply sel_conversation_Some in Hc2 as [Hc2 _]. simpl in Hc2.
    rewrite lookup_insert_eq in Hc2. by simplify_eq.
Qed.
End methods.

Lemma fmtInt_loop_dec i n acc :
  0 < n < 10 ^ Z.of_nat i -> fmtInt_loop i n acc = Some (dec_digits i n acc).
Proof.
  revert n acc. induction i as [|i IH]; intros n acc H; [simpl in H; lia|].
  rewrite Nat2Z.inj_succ, Z.pow_succ_r in H by lia. cbn [fmtInt_loop dec_digits].
  rewrite (proj2 (Z.leb_gt _ _)) by lia. destruct (Z.ltb_spec n 10) as [Hn|Hn].
  - rewrite Z.div_small by lia. by destruct i.
  - apply IH. split; [apply Z.div_str_pos; lia|]. apply Z.div_lt_upper_bound; lia.
Qed.

Lemma dec_digits_fuel i j n acc :
  0 <= n < 10 ^ Z.of_nat i -> (i <= j)%nat -> (0 < i)%nat ->
  dec_digits j n acc = dec_digits i n acc.
Proof.
  revert j n acc. induction i as [|i IH]; intros j n acc H Hij Hi; [lia|].
  destruct j as [|j]; [lia|]. rewrite Nat2Z.inj_succ, Z.pow_succ_r in H by lia.
  cbn [dec_digits]. destruct (Z.ltb_spec n 10) as [Hn|Hn]; [done|]. destruct i as [|i].
  - simpl in H. lia.
  - apply IH; [|lia..]. split; [apply Z.div_pos; lia|]. apply Z.div_lt_upper_bound; lia.
Qed.

(** ** Properties *)

(** [Close] is atomic and terminal under every failure: either nothing
    changed and the caller gets an error, or the conversation was stored for
    this tenant and not yet closed, and the tables differ exactly by the closed
    row (its [closed_at] set) and one pending [conversation.closed] event. *)
Lemma conversation_close_atomic source t id reason e s :
  let '(res, s') := Close source t id reason e s in
  (committed s' = committed s /\ exists x, res = Err x)
  \/ exists c at_ now v,
      sel_conversation t id (committed s) = Some c /\ cv_Status c <> "closed"
      /\ e_Type v = TopicConversationClosed /\ e_TenantID v = t /\ e_Subject v = id
      /\ committed s' = set_outbox (fun l => l ++ [MkOutboxRow v "pending" 0 "" None])
           (set_conversations (<[id := close_row at_ now c]>) (committed s))
      /\ (res = Ok (close_row at_ now c) \/ exists x, res = Err x).
Proof.
  enough (wp (Close source t id reason) e s (fun res s' =>
    (committed s' = committed s /\ exists x, res = Err x)
    \/ exists c at_ now v,
      sel_conversation t id (committed s) = Some c /\ cv_Status c <> "closed"
      /\ e_Type v = TopicConversationClosed /\ e_TenantID v = t /\ e_Subject v = id
      /\ committed s' = set_outbox (fun l => l ++ [MkOutboxRow v "pending" 0 "" None])
           (set_conversations (<[id := close_row at_ now c]>) (committed s))
      /\ (res = Ok (close_row at_ now c) \/ exists x, res = Err x))) as H by exact H.
  apply wp_conv_Close; [by eauto|]. intros c at_ now v n res. intros. right.
  by exists c, at_, now, v.
Qed.

(** The hand-written integer formatter agrees with [%d] on every count
    that fits its 12-byte buffer: no digit is lost and the buffer is never
    written out of bounds. *)
Lemma fmtInt_decimal (n : Z) : 0 <= n < 10 ^ 12 -> fmtInt n = Some (itoa n).
Proof.
  intros H. unfold fmtInt, itoa. destruct (Z.eqb_spec n 0) as [->|Hn]; [done|].
  rewrite fmtInt_loop_dec by (simpl; lia). rewrite (proj2 (Z.ltb_ge n 0)) by lia.
  f_equal. symmetry. apply dec_digits_fuel; simpl; lia.
Qed.
