(* ===== verification/Cases.v ===== *)
(** * internal/cases: guarded case lifecycle, references, notes and links

    The definitions follow service.go: the transition table, the SQL
    statements, and the use-cases over the store. *)

From Stdlib Require Import String Ascii.
From S2P Require Import Prelude GoStd AppErrors Events Store Sql Wp Pagination.

Local Open Scope Z_scope.

(** ** The lifecycle *)

Definition Status := string.

Definition StatusOpen : Status := "open".
Definition StatusInProgress : Status := "in_progress".
Definition StatusPendingCustomer : Status := "pending_customer".
Definition StatusResolved : Status := "resolved".
Definition StatusClosed : Status := "closed".
Definition StatusCanceled : Status := "canceled".

Definition transitions (from : Status) : list Status :=
  if String.eqb from StatusOpen then [StatusInProgress; StatusResolved; StatusCanceled]
  else if String.eqb from StatusInProgress then
    [StatusPendingCustomer; StatusResolved; StatusCanceled]
  else if String.eqb from StatusPendingCustomer then
    [StatusInProgress; StatusResolved; StatusCanceled]
  else if String.eqb from StatusResolved then [StatusClosed; StatusInProgress]
  else [].

Definition CanTransition (from to : Status) : bool :=
  existsb (fun s => String.eqb s to) (transitions from).

Definition case_statuses : list Status :=
  [StatusOpen; StatusInProgress; StatusPendingCustomer; StatusResolved; StatusClosed;
   StatusCanceled].

(** ** SQL statements *)

Definition sel_case (tenantID id : string) (d : DB) : option Case :=
  match d_cases d !! id with
  | Some c => if String.eqb (ca_TenantID c) tenantID then Some c else None
  | None => None
  end.

Definition case_exists (tenantID id : string) (d : DB) : bool :=
  match sel_case tenantID id d with Some _ => true | None => false end.

Definition tenant_cases (tenantID : string) (d : DB) : list Case :=
  List.filter (fun c => String.eqb (ca_TenantID c) tenantID) (map snd (map_to_list (d_cases d))).

(** [fmt.Sprintf("CASE-%d-%%", year)]: what the pattern matches starts with. *)
Definition ref_prefix (year : Z) : string := "CASE-" +:+ itoa year +:+ "-".

(** [fmt.Sprintf("CASE-%d-%04d", year, n)] *)
Definition case_ref (year n : Z) : string := ref_prefix year +:+ pad4 n.

(** [SELECT count FROM cases WHERE tenant_id = $1 AND ref LIKE $2] *)
Definition count_refs (tenantID : string) (year : Z) (d : DB) : Z :=
  Z.of_nat (length (List.filter (fun c => has_prefix (ca_Ref c) (ref_prefix year))
                      (tenant_cases tenantID d))).

(** The primary key and [UNIQUE (tenant_id, ref)]; [status] and the
    timestamps take their defaults. *)
Definition ins_case (id tenantID customerID ref subject description priority : string) : stmt :=
  fun now d =>
  match d_cases d !! id with
  | Some _ => None
  | None =>
      if existsb (fun c => String.eqb (ca_Ref c) ref) (tenant_cases tenantID d) then None
      else Some (set_cases (<[id := MkCase id tenantID customerID ref subject description
                                     StatusOpen priority "" None None now now]>) d, 1%nat)
  end.

Definition move_row (to : Status) (resolvedAt closedAt : option Z) (now : Z) (c : Case) : Case :=
  MkCase (ca_ID c) (ca_TenantID c) (ca_CustomerID c) (ca_Ref c) (ca_Subject c)
    (ca_Description c) to (ca_Priority c) (ca_AssignedAgentID c) resolvedAt closedAt
    (ca_CreatedAt c) now.

(** [UPDATE cases SET status=$3, resolved_at=$4, closed_at=$5, updated_at=now()
    WHERE id=$1 AND tenant_id=$2] *)
Definition upd_case (tenantID id : string) (to : Status) (resolvedAt closedAt : option Z) : stmt :=
  fun now d =>
  match sel_case tenantID id d with
  | Some c => Some (set_cases (<[id := move_row to resolvedAt closedAt now c]>) d, 1%nat)
  | None => Some (d, 0%nat)
  end.

Definition touch_row (now : Z) (c : Case) : Case :=
  MkCase (ca_ID c) (ca_TenantID c) (ca_CustomerID c) (ca_Ref c) (ca_Subject c)
    (ca_Description c) (ca_Status c) (ca_Priority c) (ca_AssignedAgentID c) (ca_ResolvedAt c)
    (ca_ClosedAt c) (ca_CreatedAt c) now.

(** [UPDATE cases SET updated_at = now() WHERE id = $1 AND tenant_id = $2] *)
Definition upd_case_touch (tenantID id : string) : stmt := fun now d =>
  match sel_case tenantID id d with
  | Some c => Some (set_cases (<[id := touch_row now c]>) d, 1%nat)
  | None => Some (d, 0%nat)
  end.

Definition ins_note (id caseID tenantID authorType authorID body : string) (internal : bool)
    : stmt := fun now d =>
  if existsb (fun n => String.eqb (n_ID n) id) (d_notes d) then None
  else Some (set_notes (fun l => l ++ [MkNote id caseID tenantID authorType authorID body
                                         internal now]) d, 1%nat).

(** [INSERT INTO case_interactions SELECT ... WHERE the interaction and the
    case are the tenant's ON CONFLICT DO NOTHING] *)
Definition ins_link (tenantID caseID interactionID : string) : stmt := fun _ d =>
  let owned := match d_interactions d !! interactionID with
               | Some r => String.eqb (r_TenantID r) tenantID
               | None => false
               end in
  if owned && case_exists tenantID caseID d then
    if bool_decide ((caseID, interactionID) ∈ d_case_links d) then Some (d, 0%nat)
    else Some (set_case_links (fun l => l ++ [(caseID, interactionID)]) d, 1%nat)
  else Some (d, 0%nat).

(** [ORDER BY updated_at DESC, id] *)
Definition case_le (a b : Case) : Prop :=
  ca_UpdatedAt b < ca_UpdatedAt a
  \/ (ca_UpdatedAt a = ca_UpdatedAt b /\ String.leb (ca_ID a) (ca_ID b) = true).

#[export] Instance case_le_dec a b : Decision (case_le a b).
Proof. unfold case_le. apply _. Defined.

(** [ORDER BY created_at] *)
Definition note_le (a b : Note) : Prop := n_CreatedAt a <= n_CreatedAt b.

#[export] Instance note_le_dec a b : Decision (note_le a b).
Proof. unfold note_le. apply _. Defined.

Definition sel_notes (tenantID caseID : string) (d : DB) : list Note :=
  merge_sort note_le
    (List.filter (fun n => String.eqb (n_CaseID n) caseID && String.eqb (n_TenantID n) tenantID)
       (d_notes d)).

(** The columns [List] and [ListNotes] scan. *)
Definition listed_case (c : Case) : Case :=
  MkCase (ca_ID c) "" (ca_CustomerID c) (ca_Ref c) (ca_Subject c) "" (ca_Status c)
    (ca_Priority c) "" None None (ca_CreatedAt c) (ca_UpdatedAt c).

Definition listed_note (n : Note) : Note :=
  MkNote (n_ID n) "" "" (n_AuthorType n) (n_AuthorID n) (n_Body n) (n_Internal n)
    (n_CreatedAt n).

(** ** The use-cases *)

Record CreateInput := MkCreateInput {
  ci_CustomerID : string;
  ci_Subject : string;
  ci_Description : string;
  ci_Priority : string;
}.

Definition priority_known (p : string) : bool :=
  existsb (String.eqb p) ["low"; "normal"; "high"; "urgent"].

Definition author_known (a : string) : bool :=
  existsb (String.eqb a) ["agent"; "ai_agent"; "system"].

Definition slen (s : string) : Z := Z.of_nat (String.length s).

Section Service.
(** [s.source] *)
Variable source : string.

Definition case_not_found : Error := NotFound "case.not_found" "case not found".

Definition Get (tenantID id : string) : M Case :=
  row ← pool_Query (sel_case tenantID id);
  match row with
  | SqlErr x => throw (read_failed x)
  | SqlOk None => throw case_not_found
  | SqlOk (Some c) => mret c
  end.

(** The transaction of [Open], from [Begin] on. *)
Definition open_tx (tenantID : string) (i : CreateInput) (prio : string) : M Case :=
  with_tx "write failed" (
    id ← uuid_NewString;
    _ ← time_Now;
    _ ← time_Now;
    lock ← tx_Exec (fun _ d => Some (d, 1%nat));
    match lock with
    | SqlErr x => throw (WithCause (Internal "db.lock_failed" "write failed") (sqlerr_error x))
    | SqlOk _ =>
        t1 ← time_Now;
        q ← tx_Query (count_refs tenantID (Year t1));
        match q with
        | SqlErr x => throw (read_failed x)
        | SqlOk yearCount =>
            t2 ← time_Now;
            let ref := case_ref (Year t2) (wrap64 (yearCount + 1)) in
            r ← tx_Exec (ins_case id tenantID (ci_CustomerID i) ref (ci_Subject i)
                           (ci_Description i) prio);
            match r with
            | SqlErr UniqueViolation =>
                throw (Conflict "case.ref_conflict" "case reference conflict; retry")
            | SqlErr x => throw (write_failed x)
            | SqlOk _ =>
                v ← events_New TopicCaseOpened source id tenantID
                      [("case_id", VStr id); ("ref", VStr ref);
                       ("customer_id", VStr (ci_CustomerID i)); ("priority", VStr prio)];
                _ ← Writer_Insert v;
                _ ← commit_or "write failed";
                Get tenantID id
            end
        end
    end).

Definition Open (tenantID : string) (i : CreateInput) : M Case :=
  if is_empty (ci_CustomerID i) then
    throw (Invalid "case.customer_required" "customer_id is required")
  else if is_empty (ci_Subject i) || (512 <? slen (ci_Subject i)) then
    throw (Invalid "case.subject_invalid" "subject is required (1-512 chars)")
  else
  let prio := if is_empty (ci_Priority i) then "normal" else ci_Priority i in
  if negb (priority_known prio) then
    throw (Invalid "case.priority_invalid" "priority must be low|normal|high|urgent")
  else
  q ← pool_Query (customer_exists tenantID (ci_CustomerID i));
  match q with
  | SqlErr x => throw (read_failed x)
  | SqlOk false => throw (NotFound "customer.not_found" "customer not found")
  | SqlOk true => open_tx tenantID i prio
  end.

Definition moved_topic (to : Status) : string :=
  if String.eqb to StatusClosed || String.eqb to StatusCanceled then TopicCaseClosed
  else TopicCaseUpdated.

Definition Transition (tenantID id : string) (to : Status) (reason : string) : M Case :=
  with_tx "write failed" (
    row ← tx_Query (sel_case tenantID id);
    match row with
    | SqlErr x => throw (read_failed x)
    | SqlOk None => throw case_not_found
    | SqlOk (Some c) =>
        let from := ca_Status c in
        if String.eqb from to then
          throw (Conflict "case.invalid_transition" ("case is already " +:+ to))
        else if negb (CanTransition from to) then
          throw (Conflict "case.invalid_transition"
                   ("cannot move case from " +:+ from +:+ " to " +:+ to))
        else
        now ← time_Now;
        let resolvedAt := if String.eqb to StatusResolved then Some now else None in
        let closedAt := if String.eqb to StatusClosed then Some now else None in
        r ← tx_Exec (upd_case tenantID id to resolvedAt closedAt);
        match r with
        | SqlErr x => throw (write_failed x)
        | SqlOk _ =>
            v ← events_New (moved_topic to) source id tenantID
                  [("case_id", VStr id); ("ref", VStr (ca_Ref c)); ("from", VStr from);
                   ("to", VStr to); ("reason", VStr reason)];
            _ ← Writer_Insert v;
            _ ← commit_or "write failed";
            Get tenantID id
        end
    end).

Definition AddNote (tenantID id authorType authorID body : string) (internal : bool) : M Note :=
  if negb (author_known authorType) then
    throw (Invalid "case.author_type_invalid" "author_type must be agent|ai_agent|system")
  else if is_empty body || (8000 <? slen body) then
    throw (Invalid "case.body_invalid" "note body must be 1-8000 chars")
  else
  q ← pool_Query (case_exists tenantID id);
  match q with
  | SqlErr x => throw (read_failed x)
  | SqlOk false => throw case_not_found
  | SqlOk true =>
      nid ← uuid_NewString;
      now ← time_Now;
      let n := MkNote nid id "" authorType authorID body internal now in
      r ← pool_Exec (ins_note nid id tenantID authorType authorID body internal);
      match r with
      | SqlErr UniqueViolation => throw (Conflict "case.note_conflict" "note conflict; retry")
      | SqlErr x => throw (write_failed x)
      | SqlOk O => throw case_not_found
      | SqlOk (S _) =>
          _ ← pool_Exec (upd_case_touch tenantID id);
          mret n
      end
  end.

Definition LinkInteraction (tenantID caseID interactionID : string) : M () :=
  r ← pool_Exec (ins_link tenantID caseID interactionID);
  match r with
  | SqlErr x => throw (write_failed x)
  | SqlOk O => throw (NotFound "case.link_target_not_found" "case or interaction not found")
  | SqlOk (S _) => mret ()
  end.

Definition List (tenantID : string) (page : Page) : M (list Case * string) :=
  q ← pool_Query (fun d => merge_sort case_le (tenant_cases tenantID d));
  match q with
  | SqlErr x => throw (read_failed x)
  | SqlOk rows => mret (window (map listed_case rows) page)
  end.

Definition ListNotes (tenantID id : string) (page : Page) : M (list Note * string) :=
  q ← pool_Query (case_exists tenantID id);
  match q with
  | SqlErr x => throw (read_failed x)
  | SqlOk false => throw case_not_found
  | SqlOk true =>
      q ← pool_Query (sel_notes tenantID id);
      match q with
      | SqlErr x => throw (read_failed x)
      | SqlOk rows => mret (window (map listed_note rows) page)
      end
  end.
End Service.
