(* ===== verification/CasesProps.v ===== *)
(** * internal/cases: specification and theorems

    As for interactions: [case_write] lists the row changes a call may make,
    each with its guard; every method refines it under every failure. *)

From Stdlib Require Import String Ascii.
From S2P Require Import Prelude GoStd AppErrors Events Store Sql Wp Pagination Cases.

Local Open Scope Z_scope.

(** ** The abstract transition system *)

Inductive case_write (t : string) : DB -> DB -> Prop :=
| cw_open now id cu ref subj desc prio d d' k :
    customer_exists t cu d = true -> priority_known prio = true ->
    ins_case id t cu ref subj desc prio now d = Some (d', k) ->
    case_write t d d'
| cw_event v d :
    e_TenantID v = t -> IsRegistered (e_Type v) = true ->
    case_write t d (set_outbox (fun l => l ++ [MkOutboxRow v "pending" 0 "" None]) d)
| cw_move now id to c tm d :
    sel_case t id d = Some c -> CanTransition (ca_Status c) to = true ->
    case_write t d (set_cases (<[id := move_row to
        (if String.eqb to StatusResolved then Some tm else None)
        (if String.eqb to StatusClosed then Some tm else None) now c]>) d)
| cw_touch now id c d :
    sel_case t id d = Some c ->
    case_write t d (set_cases (<[id := touch_row now c]>) d)
| cw_note now nid id aty aid body internal d d' k :
    case_exists t id d = true -> author_known aty = true ->
    ins_note nid id t aty aid body internal now d = Some (d', k) ->
    case_write t d d'
| cw_link now id iid d d' k :
    ins_link t id iid now d = Some (d', k) ->
    case_write t d d'.

Definition case_writes (t : string) : DB -> DB -> Prop := rtc (case_write t).

(** ** Invariant *)

Record case_wf (d : DB) (id : string) (c : Case) : Prop := {
  cwf_id : ca_ID c = id;
  cwf_status : ca_Status c ∈ case_statuses;
  cwf_priority : priority_known (ca_Priority c) = true;
  cwf_customer : customer_exists (ca_TenantID c) (ca_CustomerID c) d = true;
  cwf_resolved : is_Some (ca_ResolvedAt c) <-> ca_Status c = StatusResolved;
  cwf_closed : is_Some (ca_ClosedAt c) <-> ca_Status c = StatusClosed;
}.

Record cases_wf (d : DB) : Prop := {
  cwf_rows : forall id c, d_cases d !! id = Some c -> case_wf d id c;
  cwf_refs : forall i j c c', d_cases d !! i = Some c -> d_cases d !! j = Some c' ->
    ca_TenantID c = ca_TenantID c' -> ca_Ref c = ca_Ref c' -> i = j;
  cwf_notes : forall n, n ∈ d_notes d ->
    exists c, d_cases d !! n_CaseID n = Some c /\ ca_TenantID c = n_TenantID n;
  cwf_links : forall cid iid, (cid, iid) ∈ d_case_links d ->
    exists c r, d_cases d !! cid = Some c /\ d_interactions d !! iid = Some r
                /\ ca_TenantID c = r_TenantID r;
}.

(** What a tenant sees of the case tables: its cases, and the notes and links
    of its cases. *)
Definition owns_case (t : string) (d : DB) (id : string) : bool := case_exists t id d.

Definition tenant_case_rows (t : string) (d : DB) : gmap string Case :=
  filter (fun kv => ca_TenantID kv.2 = t) (d_cases d).
Definition tenant_notes (t : string) (d : DB) : list Note :=
  List.filter (fun n => owns_case t d (n_CaseID n)) (d_notes d).
Definition tenant_links (t : string) (d : DB) : list (string * string) :=
  List.filter (fun l => owns_case t d l.1) (d_case_links d).

Definition same_case_view (t : string) (d d' : DB) : Prop :=
  tenant_case_rows t d' = tenant_case_rows t d
  /\ tenant_notes t d' = tenant_notes t d
  /\ tenant_links t d' = tenant_links t d
  /\ filter (fun o => e_TenantID (ob_Env o) = t) (d_outbox d')
     = filter (fun o => e_TenantID (ob_Env o) = t) (d_outbox d).

(** ** Lemmas: the lifecycle *)

Lemma CanTransition_cases from to :
  CanTransition from to = true ->
  (from, to) ∈ [(StatusOpen, StatusInProgress); (StatusOpen, StatusResolved);
    (StatusOpen, StatusCanceled); (StatusInProgress, StatusPendingCustomer);
    (StatusInProgress, StatusResolved); (StatusInProgress, StatusCanceled);
    (StatusPendingCustomer, StatusInProgress); (StatusPendingCustomer, StatusResolved);
    (StatusPendingCustomer, StatusCanceled); (StatusResolved, StatusClosed);
    (StatusResolved, StatusInProgress)].
Proof.
  unfold CanTransition, transitions.
  destruct (String.eqb_spec from StatusOpen) as [->|];
    [|destruct (String.eqb_spec from StatusInProgress) as [->|];
      [|destruct (String.eqb_spec from StatusPendingCustomer) as [->|];
        [|destruct (String.eqb_spec from StatusResolved) as [->|]]]];
    cbn [existsb]; rewrite ?orb_true_iff, ?String.eqb_eq; intros H; destruct_or? H; subst;
    try done; set_solver.
Qed.

(** ** Lemmas: statements *)

Lemma sel_case_Some t id d c :
  sel_case t id d = Some c <-> d_cases d !! id = Some c /\ ca_TenantID c = t.
Proof.
  unfold sel_case. destruct (d_cases d !! id) as [c'|]; [|naive_solver].
  destruct (String.eqb_spec (ca_TenantID c') t); naive_solver.
Qed.

Lemma case_exists_spec t id d :
  case_exists t id d = true <-> exists c, d_cases d !! id = Some c /\ ca_TenantID c = t.
Proof.
  unfold case_exists. destruct (sel_case t id d) as [c|] eqn:E.
  - apply sel_case_Some in E. naive_solver.
  - split; [done|]. intros (c & Hc & Ht). by rewrite (proj2 (sel_case_Some _ _ _ _) (conj Hc Ht)) in E.
Qed.

Lemma elem_of_tenant_cases t d c :
  In c (tenant_cases t d) <-> exists id, d_cases d !! id = Some c /\ ca_TenantID c = t.
Proof.
  unfold tenant_cases. rewrite filter_In, in_map_iff, String.eqb_eq. split.
  - intros [([id c'] & <- & Hin) Ht]. exists id.
    by apply list_elem_of_In, elem_of_map_to_list in Hin.
  - intros (id & Hid & Ht). split; [|done]. exists (id, c). split; [done|].
    by apply list_elem_of_In, elem_of_map_to_list.
Qed.

Lemma ins_case_Some id t cu ref subj desc prio now d d' k :
  ins_case id t cu ref subj desc prio now d = Some (d', k) ->
  d_cases d !! id = None
  /\ (forall i c, d_cases d !! i = Some c -> ca_TenantID c = t -> ca_Ref c <> ref)
  /\ d' = set_cases (<[id := MkCase id t cu ref subj desc StatusOpen prio "" None None now now]>) d.
Proof.
  unfold ins_case. destruct (d_cases d !! id); [done|]. destruct (existsb _ _) eqn:Ex; [done|].
  intros [= <- <-]. repeat split. intros i c Hc Ht Hr.
  assert (existsb (fun c0 => String.eqb (ca_Ref c0) ref) (tenant_cases t d) = true) as Hy.
  { apply existsb_exists. exists c. split; [apply elem_of_tenant_cases; eauto|].
    by apply String.eqb_eq. }
  congruence.
Qed.

Lemma ins_note_Some nid id t aty aid body internal now d d' k :
  ins_note nid id t aty aid body internal now d = Some (d', k) ->
  d' = set_notes (fun l => l ++ [MkNote nid id t aty aid body internal now]) d /\ k = 1%nat.
Proof. unfold ins_note. destruct (existsb _ _); naive_solver. Qed.

Lemma ins_link_Some t cid iid now d d' k :
  ins_link t cid iid now d = Some (d', k) ->
  (d' = d /\ k = 0%nat)
  \/ exists c r, d_cases d !! cid = Some c /\ ca_TenantID c = t
       /\ d_interactions d !! iid = Some r /\ r_TenantID r = t
       /\ (cid, iid) ∉ d_case_links d /\ k = 1%nat
       /\ d' = set_case_links (fun l => l ++ [(cid, iid)]) d.
Proof.
  unfold ins_link. destruct (d_interactions d !! iid) as [r|] eqn:Hr; [|naive_solver].
  destruct (String.eqb_spec (r_TenantID r) t) as [Ht|]; [|naive_solver].
  destruct (case_exists t cid d) eqn:Hc; [|naive_solver]. simpl.
  apply case_exists_spec in Hc as (c & Hc & Hct).
  case_bool_decide; [naive_solver|]. intros [= <- <-]. right. exists c, r. done.
Qed.

(** ** Lemmas: the invariant *)

Lemma case_wf_mono d d' id c :
  d_customers d' = d_customers d -> case_wf d id c -> case_wf d' id c.
Proof. intros E []. split; try done. unfold customer_exists. by rewrite E. Qed.

(** Replacing a row by one with the same id, tenant and reference. *)
Lemma update_case_wf d id c c2 :
  cases_wf d -> d_cases d !! id = Some c ->
  ca_TenantID c2 = ca_TenantID c -> ca_Ref c2 = ca_Ref c -> case_wf d id c2 ->
  cases_wf (set_cases (<[id := c2]>) d).
Proof.
  intros [Hr Hu Hn Hl] Hid Ht Href Hwf. split; simpl.
  - intros i q. rewrite lookup_insert_Some. intros [[<- <-]|[_ Hq]].
    + by eapply case_wf_mono; [|exact Hwf].
    + by eapply case_wf_mono; [|exact (Hr _ _ Hq)].
  - intros i j q q'. rewrite !lookup_insert_Some.
    intros [[<- <-]|[? Hq]] [[<- <-]|[? Hq']] Et Er; try done.
    + eapply Hu; [done|done|congruence..].
    + eapply Hu; [done|done|congruence..].
    + by eapply Hu.
  - intros n Hin. destruct (Hn _ Hin) as (c' & Hc' & E). destruct (decide (id = n_CaseID n)) as [E2|].
    + exists c2. rewrite <- E2, lookup_insert_eq in *. simplify_eq. split; [done|congruence].
    + exists c'. by rewrite lookup_insert_ne.
  - intros ci ii Hin. destruct (Hl _ _ Hin) as (c' & r & Hc' & Hr' & E).
    destruct (decide (id = ci)) as [<-|].
    + exists c2, r. rewrite lookup_insert_eq. simplify_eq. repeat split; [done|congruence].
    + exists c', r. by rewrite lookup_insert_ne.
Qed.

Lemma case_write_wf t d d' : cases_wf d -> case_write t d d' -> cases_wf d'.
Proof.
  intros Hwf Hw. destruct Hw as [now id cu ref subj desc prio d d1 k Hcu Hp H|v d Hv Hreg
    |now id to c tm d H HT|now id c d H|now nid id aty aid body int d d1 k Hc Ha H
    |now id iid d d1 k H].
  - apply ins_case_Some in H as (Hn & Hfr & ->). destruct Hwf as [Hr Hu Hno Hl]. split; simpl.
    + intros i q. rewrite lookup_insert_Some. intros [[<- <-]|[_ Hq]].
      * split; simpl; try done; [unfold case_statuses; set_solver|by split; [intros [? ?]|]..].
      * by eapply case_wf_mono; [|exact (Hr _ _ Hq)].
    + intros i j q q'. rewrite !lookup_insert_Some.
      intros [[<- <-]|[? Hq]] [[<- <-]|[? Hq']] Et Er; simpl in *; try done.
      * by destruct (Hfr _ _ Hq' (eq_sym Et)).
      * by destruct (Hfr _ _ Hq Et).
      * by eapply Hu.
    + intros n Hin. destruct (Hno _ Hin) as (c' & Hc' & E). exists c'.
      by rewrite lookup_insert_ne by congruence.
    + intros ci ii Hin. destruct (Hl _ _ Hin) as (c' & r & Hc' & Hr' & E). exists c', r.
      by rewrite lookup_insert_ne by congruence.
  - destruct Hwf as [Hr Hu Hno Hl]. split; simpl; try done.
    intros i c Hc. by eapply case_wf_mono; [|exact (Hr _ _ Hc)].
  - apply sel_case_Some in H as [H Ht]. destruct (cwf_rows _ Hwf _ _ H).
    eapply update_case_wf; try done. split; simpl; try done.
    + apply CanTransition_cases in HT. unfold case_statuses. set_solver.
    + by destruct (String.eqb_spec to StatusResolved); split; try done; intros [? ?].
    + by destruct (String.eqb_spec to StatusClosed); split; try done; intros [? ?].
  - apply sel_case_Some in H as [H Ht]. destruct (cwf_rows _ Hwf _ _ H).
    by eapply update_case_wf.
  - apply ins_note_Some in H as [-> ->]. destruct Hwf as [Hr Hu Hno Hl]. split; simpl; try done.
    + intros i c' Hc'. by eapply case_wf_mono; [|exact (Hr _ _ Hc')].
    + intros n [Hin|Hin]%elem_of_app; [by apply Hno|].
      apply list_elem_of_singleton in Hin as ->. simpl. by apply case_exists_spec in Hc.
  - apply ins_link_Some in H as [[-> _]|(c & r & Hc & Hct & Hr & Hrt & _ & _ & ->)]; [done|].
    destruct Hwf as [Hro Hu Hno Hl]. split; simpl; try done.
    + intros i c' Hc'. by eapply case_wf_mono; [|exact (Hro _ _ Hc')].
    + intros ci ii [Hin|Hin]%elem_of_app; [by apply Hl|].
      apply list_elem_of_singleton in Hin as [= -> ->]. exists c, r. by rewrite Hct, Hrt.
Qed.

Lemma case_writes_wf t d d' : case_writes t d d' -> cases_wf d -> cases_wf d'.
Proof. induction 1; eauto using case_write_wf. Qed.

(** ** Lemmas: tenant isolation *)

#[export] Instance same_case_view_preorder t : PreOrder (same_case_view t).
Proof.
  split; unfold same_case_view; [done|].
  intros d1 d2 d3 (?&?&?&?) (?&?&?&?). repeat split; congruence.
Qed.

(** Which cases a tenant owns only depends on its rows. *)
Lemma owns_case_rows t d d' :
  tenant_case_rows t d' = tenant_case_rows t d -> forall id, owns_case t d' id = owns_case t d id.
Proof.
  intros H id. unfold owns_case. apply (f_equal (lookup id)) in H.
  unfold tenant_case_rows in H. apply eq_true_iff_eq. rewrite !case_exists_spec.
  split; intros (c & Hc & Ht).
  - assert (filter (fun kv : string * Case => ca_TenantID kv.2 = t) (d_cases d') !! id = Some c) as Hf
      by (by apply map_lookup_filter_Some).
    rewrite H in Hf. apply map_lookup_filter_Some in Hf. eauto.
  - assert (filter (fun kv : string * Case => ca_TenantID kv.2 = t) (d_cases d) !! id = Some c) as Hf
      by (by apply map_lookup_filter_Some).
    rewrite <- H in Hf. apply map_lookup_filter_Some in Hf. eauto.
Qed.

(** A change of the case rows alone, invisible to the tenant. *)
Lemma same_case_view_rows t d f :
  tenant_case_rows t (set_cases f d) = tenant_case_rows t d -> same_case_view t d (set_cases f d).
Proof.
  intros H. pose proof (owns_case_rows _ _ _ H) as Ho. repeat split; [done| |].
  - unfold tenant_notes. simpl. apply List.filter_ext. intros n. apply Ho.
  - unfold tenant_links. simpl. apply List.filter_ext. intros l. apply Ho.
Qed.

Lemma case_write_same_view t u d d' : t <> u -> case_write t d d' -> same_case_view u d d'.
Proof.
  intros Htu Hw. destruct Hw as [now id cu ref subj desc prio d d1 k Hcu Hp H|v d Hv Hreg
    |now id to c tm d H HT|now id c d H|now nid id aty aid body int d d1 k Hc Ha H
    |now id iid d d1 k H].
  - apply ins_case_Some in H as (Hn & Hfr & ->). apply same_case_view_rows.
    apply filter_insert_other; simpl; intros; congruence.
  - repeat split; try done. simpl. rewrite filter_app, filter_cons.
    rewrite decide_False by (simpl; congruence). by rewrite filter_nil, app_nil_r.
  - apply sel_case_Some in H as [H Ht]. apply same_case_view_rows.
    apply filter_insert_other; simpl; intros; simplify_eq; congruence.
  - apply sel_case_Some in H as [H Ht]. apply same_case_view_rows.
    apply filter_insert_other; simpl; intros; simplify_eq; congruence.
  - apply ins_note_Some in H as [-> ->]. apply case_exists_spec in Hc as (c & Hc & Ht).
    repeat split; try done. unfold tenant_notes. simpl. rewrite List.filter_app. simpl.
    destruct (owns_case u _ id) eqn:Ho; [|by rewrite app_nil_r].
    apply case_exists_spec in Ho as (c' & Hc' & ?). simpl in Hc'. simplify_eq. 
  - apply ins_link_Some in H as [[-> _]|(c & r & Hc & Hct & _ & _ & _ & _ & ->)]; [done|].
    repeat split; try done. unfold tenant_links. simpl. rewrite List.filter_app. simpl.
    destruct (owns_case u _ id) eqn:Ho; [|by rewrite app_nil_r].
    apply case_exists_spec in Ho as (c' & Hc' & ?). simpl in Hc'. simplify_eq.
Qed.

Lemma case_writes_same_view t u d d' : t <> u -> case_writes t d d' -> same_case_view u d d'.
Proof.
  intros Htu. induction 1 as [|d1 d2 d3 H _ IH]; [done|].
  etransitivity; [by eapply case_write_same_view|done].
Qed.

(** ** Lemmas: the methods refine the transition system *)

Lemma wp_case_Get e t id s Q :
  (forall x, Q (Err x) (bump s)) ->
  (forall c, fault e (steps s) = None -> sel_case t id (committed s) = Some c ->
    Q (Ok c) (bump s)) ->
  wp (Get t id) e s Q.
Proof. intros H1 H2. unfold Get. wp_go; auto. Qed.

Lemma moved_topic_registered to : IsRegistered (moved_topic to) = true.
Proof. unfold moved_topic. by destruct (_ || _). Qed.

(** The row [Transition] stores. *)
Definition moved (to : Status) (tm now : Z) (c : Case) : Case :=
  move_row to (if String.eqb to StatusResolved then Some tm else None)
    (if String.eqb to StatusClosed then Some tm else None) now c.

Section methods.
Context (source : string) (e : env).

Lemma wp_Open t i s Q :
  (forall x s', committed s' = committed s -> Q (Err x) s') ->
  (forall c v n res,
    customer_exists t (ci_CustomerID i) (committed s) = true ->
    (exists id ref prio now, c = MkCase id t (ci_CustomerID i) ref (ci_Subject i)
       (ci_Description i) StatusOpen prio "" None None now now) ->
    case_writes t (committed s) (set_outbox (fun l => l ++ [MkOutboxRow v "pending" 0 "" None])
                   (set_cases (<[ca_ID c := c]>) (committed s))) ->
    e_Type v = TopicCaseOpened -> e_Subject v = ca_ID c ->
    (res = Ok c \/ exists x, res = Err x) ->
    Q res (MkSt (set_outbox (fun l => l ++ [MkOutboxRow v "pending" 0 "" None])
                   (set_cases (<[ca_ID c := c]>) (committed s))) None n)) ->
  wp (Open source t i) e s Q.
Proof.
  intros H1 H2. unfold Open, open_tx. wp_go; try by (apply H1).
  apply NewEnvelope_inv in Hv as (_ & Ht & Hty & Hs & Hd & _). simplify_eq.
  pose proof Hx0 as Hins. apply ins_case_Some in Hx0 as (Hn & Hfr & ->).
  set (c := MkCase _ _ _ _ _ _ _ _ _ _ _ _ _) in *.
  assert (case_writes (e_TenantID v) (committed s)
    (set_outbox (fun l => l ++ [MkOutboxRow v "pending" 0 "" None])
       (set_cases (<[ca_ID c := c]>) (committed s)))) as Hw.
  { eapply rtc_l; [eapply cw_open; [eassumption|by apply negb_false_iff|exact Hins]|].
    apply rtc_once, cw_event; [done|by rewrite Hty]. }
  apply wp_case_Get; simpl.
  - intros x. eapply (H2 c); eauto 10.
  - intros c2 _ Hc2. eapply (H2 c); eauto 10. left. f_equal.
    apply sel_case_Some in Hc2 as [Hc2 _]. simpl in Hc2.
    rewrite lookup_insert_eq in Hc2. by simplify_eq.
Qed.

Lemma wp_Transition t id to reason s Q :
  (forall x s', committed s' = committed s -> Q (Err x) s') ->
  (forall c tm now v n res,
    sel_case t id (committed s) = Some c -> CanTransition (ca_Status c) to = true ->
    e_Type v = moved_topic to -> e_TenantID v = t -> e_Subject v = id ->
    e_Data v = [("case_id", VStr id); ("ref", VStr (ca_Ref c)); ("from", VStr (ca_Status c));
                ("to", VStr to); ("reason", VStr reason)] ->
    (res = Ok (moved to tm now c) \/ exists x, res = Err x) ->
    Q res (MkSt (set_outbox (fun l => l ++ [MkOutboxRow v "pending" 0 "" None])
                   (set_cases (<[id := moved to tm now c]>) (committed s))) None n)) ->
  wp (Transition source t id to reason) e s Q.
Proof.
  intros H1 H2. unfold Transition. wp_go; try by (apply H1).
  unfold upd_case in Hx. rewrite E in Hx. injection Hx as <- <-.
  apply NewEnvelope_inv in Hv as (_ & Ht & Hty & Hs & Hd & _).
  apply negb_false_iff in E1. unfold moved in H2.
  apply wp_case_Get; simpl.
  - intros x. eapply (H2 c); eauto.
  - intros c2 _ Hc2. eapply (H2 c); eauto. left. f_equal.
    apply sel_case_Some in Hc2 as [Hc2 _]. simpl in Hc2.
    rewrite lookup_insert_eq in Hc2. by simplify_eq.
Qed.

Lemma wp_AddNote t id aty aid body internal s Q :
  (forall x s', committed s' = committed s -> Q (Err x) s') ->
  (forall n s', case_writes t (committed s) (committed s') -> Q (Ok n) s') ->
  wp (AddNote t id aty aid body internal) e s Q.
Proof.
  intros H1 H2. unfold AddNote. wp_go; try by (apply H1).
  all: try (apply ins_note_Some in Hx as [_ ?]; discriminate).
  all: assert (case_writes t (committed s) db) as Hw
    by (apply rtc_once; eapply cw_note; [exact E1|by apply negb_false_iff|exact Hx]).
  all: apply H2; try exact Hw.
  unfold upd_case_touch in Hx0. cbn [committed] in Hx0. 
  destruct (sel_case t id db) as [c|] eqn:Ec; simplify_eq; [|exact Hw].
  eapply rtc_r; [exact Hw|by apply cw_touch].
Qed.

Lemma wp_LinkInteraction t cid iid s Q :
  (forall x s', committed s' = committed s -> Q (Err x) s') ->
  (forall s', (cid, iid) ∈ d_case_links (committed s') ->
    case_writes t (committed s) (committed s') -> Q (Ok ()) s') ->
  wp (LinkInteraction t cid iid) e s Q.
Proof.
  intros H1 H2. unfold LinkInteraction. wp_go; try by (apply H1).
  - apply H1. by apply ins_link_Some in Hx as [[-> _]|(?&?&?&?&?&?&?&?&?)].
  - apply H2; simpl; [|by eapply rtc_once, cw_link].
    apply ins_link_Some in Hx as [[-> ?]|(?&?&?&?&?&?&?&?& ->)]; [done|]. simpl. set_solver.
Qed.
End methods.

(** ** Histories *)

Inductive case_op :=
| CaseOpen (t : string) (i : CreateInput)
| CaseTransition (t id : string) (to : Status) (reason : string)
| CaseAddNote (t id authorType authorID body : string) (internal : bool)
| CaseLink (t caseID interactionID : string).

Definition case_op_tenant (o : case_op) : string :=
  match o with
  | CaseOpen t _ | CaseTransition t _ _ _ | CaseAddNote t _ _ _ _ _ | CaseLink t _ _ => t
  end.

Definition run_case_op (source : string) (o : case_op) : M () :=
  match o with
  | CaseOpen t i => _ ← Open source t i; mret ()
  | CaseTransition t id to reason => _ ← Transition source t id to reason; mret ()
  | CaseAddNote t id aty aid body internal => _ ← AddNote t id aty aid body internal; mret ()
  | CaseLink t cid iid => LinkInteraction t cid iid
  end.

Definition case_called (source : string) (o : case_op) (d d' : DB) : Prop :=
  exists e n, d' = committed (snd (run_case_op source o e (MkSt d None n))).

Definition case_history (source : string) : DB -> DB -> Prop :=
  rtc (fun d d' => exists o, case_called source o d d').

Lemma case_called_writes source o d d' :
  case_called source o d d' -> case_writes (case_op_tenant o) d d'.
Proof.
  intros (e & n & ->).
  assert (wp (run_case_op source o) e (MkSt d None n)
    (fun _ s' => case_writes (case_op_tenant o) d (committed s')))
    as H; [|unfold wp in H; by destruct (run_case_op _ _ _ _)].
  destruct o as [t i|t id to reason|t id aty aid body internal|t cid iid]; simpl.
  - wp_step. apply wp_Open; [by intros x s' ->|]. intros c v k res Hcu Hc Hw ? ? [->|[x ->]];
      wp_go; exact Hw.
  - wp_step. apply wp_Transition; [by intros x s' ->|].
    intros c tm now v k res Hc HT Hty Ht Hs Hd Hres.
    assert (case_writes t d (set_outbox (fun l => l ++ [MkOutboxRow v "pending" 0 "" None])
       (set_cases (<[id := moved to tm now c]>) d))) as Hw.
    { eapply rtc_l; [by eapply cw_move|]. apply rtc_once, cw_event; [done|].
      rewrite Hty. apply moved_topic_registered. }
    destruct Hres as [->|[x ->]]; wp_go; exact Hw.
  - wp_step. apply wp_AddNote; [by intros x s' ->|]. intros k s' Hw. wp_go. exact Hw.
  - apply wp_LinkInteraction; [by intros x s' ->|]. intros s' _ Hw. exact Hw.
Qed.

(** ** Lemmas: references *)

Lemma itoa_no_dash y : 0 <= y -> has_byte (itoa y) "-"%char = false.
Proof. intros H. apply itoa_no_byte; [done|]. left. vm_compute. reflexivity. Qed.

Lemma case_ref_prefix_year y y' n :
  0 <= y <= int64_max -> 0 <= y' <= int64_max ->
  has_prefix (case_ref y n) (ref_prefix y') = true -> y = y'.
Proof.
  intros Hy Hy' H. apply has_prefix_spec in H as [t H]. unfold case_ref, ref_prefix in H.
  rewrite !sapp_assoc in H. apply sapp_inj_l in H.
  change (itoa y +:+ String "-"%char (pad4 n) = itoa y' +:+ String "-"%char t) in H.
  apply itoa_inj; [done..|].
  assert (cut (itoa y +:+ String "-"%char (pad4 n)) "-"%char = (itoa y, Some (pad4 n))) as E1
    by (apply cut_app, itoa_no_dash; lia).
  assert (cut (itoa y' +:+ String "-"%char t) "-"%char = (itoa y', Some t)) as E2
    by (apply cut_app, itoa_no_dash; lia).
  rewrite H, E2 in E1. by injection E1.
Qed.

Lemma case_ref_prefix y n : has_prefix (case_ref y n) (ref_prefix y) = true.
Proof. apply has_prefix_spec. by eexists. Qed.

Lemma case_ref_inj y n m :
  0 <= n <= int64_max -> 0 <= m <= int64_max -> case_ref y n = case_ref y m -> n = m.
Proof. intros Hn Hm H. apply sapp_inj_l in H. by apply pad4_inj. Qed.

(** The references of a tenant in a year are numbered without a gap. *)
Definition dense (t : string) (y : Z) (d : DB) : Prop :=
  forall id c, d_cases d !! id = Some c -> ca_TenantID c = t ->
    has_prefix (ca_Ref c) (ref_prefix y) = true ->
    exists n, 1 <= n <= count_refs t y d /\ ca_Ref c = case_ref y n.

Lemma count_refs_insert t y d id c :
  d_cases d !! id = None -> ca_TenantID c = t ->
  count_refs t y (set_cases (<[id := c]>) d) =
  count_refs t y d + (if has_prefix (ca_Ref c) (ref_prefix y) then 1 else 0).
Proof.
  intros Hn Ht. unfold count_refs, tenant_cases. simpl.
  assert (Permutation (map snd (map_to_list (<[id := c]> (d_cases d))))
    (c :: map snd (map_to_list (d_cases d)))) as HP.
  { change (c :: map snd (map_to_list (d_cases d)))
      with (map snd ((id, c) :: map_to_list (d_cases d))).
    apply Permutation_map. by apply map_to_list_insert. }
  rewrite HP. simpl. rewrite (proj2 (String.eqb_eq _ _) Ht). simpl.
  destruct (has_prefix _ _); simpl; lia.
Qed.

Lemma dense_insert t y y' d id c :
  0 <= y <= int64_max -> 0 <= y' <= int64_max ->
  d_cases d !! id = None -> ca_TenantID c = t -> ca_Ref c = case_ref y (count_refs t y d + 1) ->
  dense t y' d -> dense t y' (set_cases (<[id := c]>) d).
Proof.
  intros Hy Hy' Hn Ht Hr Hd i q Hq Hqt Hqp. rewrite count_refs_insert by done.
  assert (0 <= count_refs t y' d) by (unfold count_refs; lia).
  simpl in Hq. rewrite lookup_insert_Some in Hq. destruct Hq as [[<- <-]|[_ Hq]].
  - rewrite Hqp. rewrite Hr in Hqp. apply case_ref_prefix_year in Hqp as <-; [|done..].
    exists (count_refs t y d + 1). split; [lia|exact Hr].
  - destruct (Hd _ _ Hq Hqt Hqp) as (n & Hn' & E). exists n. split; [|done].
    destruct (has_prefix (ca_Ref c) (ref_prefix y')); lia.
Qed.

(** ** Lemmas: opening without failures *)

Definition input_valid (i : CreateInput) : bool :=
  negb (is_empty (ci_CustomerID i)) && negb (is_empty (ci_Subject i))
  && (slen (ci_Subject i) <=? 512)
  && priority_known (if is_empty (ci_Priority i) then "normal" else ci_Priority i).

(** The clock stays within a year. *)
Definition in_year (e : env) (y : Z) : Prop := forall k, Year (clock e k) = y.

Lemma ins_case_fresh id t cu ref subj desc prio now d :
  d_cases d !! id = None ->
  (forall i c, d_cases d !! i = Some c -> ca_TenantID c = t -> ca_Ref c <> ref) ->
  ins_case id t cu ref subj desc prio now d
  = Some (set_cases (<[id := MkCase id t cu ref subj desc StatusOpen prio "" None None now now]>) d,
          1%nat).
Proof.
  intros Hn Hr. unfold ins_case. rewrite Hn. destruct (existsb _ _) eqn:Ex; [|done].
  apply existsb_exists in Ex as (c & Hin & Heq). apply elem_of_tenant_cases in Hin as (i & Hi & Ht).
  apply String.eqb_eq in Heq. by destruct (Hr _ _ Hi Ht).
Qed.

Lemma wp_Open_ok source e t i y s Q :
  healthy e -> fresh e (steps s) (committed s) -> t <> "" -> input_valid i = true ->
  customer_exists t (ci_CustomerID i) (committed s) = true -> in_year e y ->
  (forall k, d_cases (committed s) !! uuid_of e k = None) ->
  (forall id c, d_cases (committed s) !! id = Some c -> ca_TenantID c = t ->
     ca_Ref c <> case_ref y (wrap64 (count_refs t y (committed s) + 1))) ->
  (forall c n v,
    ca_TenantID c = t -> ca_Status c = StatusOpen -> d_cases (committed s) !! ca_ID c = None ->
    ca_Ref c = case_ref y (wrap64 (count_refs t y (committed s) + 1)) ->
    Q (Ok c) (MkSt (set_outbox (fun l => l ++ [MkOutboxRow v "pending" 0 "" None])
                (set_cases (<[ca_ID c := c]>) (committed s))) None n)) ->
  wp (Open source t i) e s Q.
Proof.
  intros Hh Hfr Ht Hv Hcu Hy Hids Href HQ. unfold input_valid in Hv.
  rewrite !andb_true_iff, !negb_true_iff, Z.leb_le in Hv. destruct Hv as (((V1 & V2) & V3) & V4).
  unfold Open, open_tx. rewrite V1, V2, V4. rewrite (proj2 (Z.ltb_ge _ _) V3). simpl negb.
  cbn [orb negb]. wp_go_insert; try no_fault Hh; try congruence.
  all: simplify_eq; rewrite !Hy in Hx0.
  all: rewrite ins_case_fresh in Hx0 by (apply Hids || exact Href); try discriminate.
  injection Hx0 as <- <-. rewrite NewEnvelope_Some by (done || apply Hh).
  apply wp_Writer_Insert_ok; [done| | |].
  - apply Validate_None. split; [apply Hh|]. split; [done|exact Ht].
  - intros o Ho. simpl in Ho. eapply (fresh_events _ _ _ Hfr); [|done]. simpl. lia.
  - wp_go; [no_fault Hh|]. set (c := MkCase _ _ _ _ _ _ _ _ _ _ _ _ _).
    set (v := MkEnvelope _ _ _ _ _ _ _ _).
    specialize (HQ c). unfold Get. wp_go; [no_fault Hh|..].
    + apply sel_case_Some in E0 as [Hc _]. simpl in Hc. rewrite lookup_insert_eq in Hc.
      injection Hc as <-. eapply HQ; try done. apply Hids.
    + exfalso. unfold sel_case in E0. simpl in E0. rewrite lookup_insert_eq in E0. simpl in E0.
      by rewrite String.eqb_refl in E0.
Qed.

(** Without the reference free, [Open] cannot commit. *)
Lemma wp_Open_conflict source e t i y s :
  in_year e y ->
  (exists id c, d_cases (committed s) !! id = Some c /\ ca_TenantID c = t
     /\ ca_Ref c = case_ref y (wrap64 (count_refs t y (committed s) + 1))) ->
  wp (Open source t i) e s (fun res s' => committed s' = committed s /\ exists x, res = Err x).
Proof.
  intros Hy (id & c & Hc & Ht & Hr). unfold Open, open_tx. wp_go_insert; eauto.
  all: exfalso; simplify_eq; rewrite !Hy in Hx0; apply ins_case_Some in Hx0 as (_ & Hn & _).
  all: by eapply Hn.
Qed.

(** ** A concrete store *)

Definition case_customer : Customer := MkCustomer "c1" "t1" "Amina" "" "en" "UTC" [] 0 0.
Definition case_start : DB := set_customers (fun _ => {["c1" := case_customer]}) empty_db.
Definition case_input : CreateInput := MkCreateInput "c1" "Card blocked" "" "high".

(** Nanoseconds of January 1st of a year. *)
Definition new_year (y : Z) : Z := jan1 y * nanos_per_day.

(** [env0] with another clock. *)
Definition env_clock (f : nat -> Z) : env := MkEnv (uuid_of env0) f (fault env0) (uuid_valid env0).

Definition env_2025 : env := env_clock (fun _ => new_year 2025).
Definition env_2026 : env := env_clock (fun _ => new_year 2026).

(** The year turns between the count and the reference of the first [Open]
    from step 100. *)
Definition env_rollover : env :=
  env_clock (fun n => if (n <=? 106)%nat then new_year 2026 - 1 else new_year 2026).

Definition after (o : case_op) (e : env) (n : nat) (d : DB) : DB :=
  committed (snd (run_case_op "api" o e (MkSt d None n))).

Definition db_2025 : DB := after (CaseOpen "t1" case_input) env_2025 0 case_start.
Definition db_stuck : DB := after (CaseOpen "t1" case_input) env_rollover 100 db_2025.

Lemma case_start_wf : cases_wf case_start.
Proof.
  split; simpl; try by (intros; rewrite lookup_empty in *).
  - by intros n ?%not_elem_of_nil.
  - by intros c i ?%not_elem_of_nil.
Qed.

(** ** Properties *)

(** The case lifecycle is guarded: every legal move stays within the
    statuses of the table's CHECK and changes the status, closed and canceled
    are final, a case is closed only from resolved, and from every status a
    final one stays reachable. *)
Lemma case_lifecycle (from to : Status) :
  CanTransition from to = true ->
  to ∈ case_statuses /\ from <> to
  /\ from <> StatusClosed /\ from <> StatusCanceled
  /\ (to = StatusClosed -> from = StatusResolved)
  /\ exists final, final ∈ [StatusClosed; StatusCanceled]
       /\ rtc (fun a b => CanTransition a b = true) to final.
Proof.
  intros H. apply CanTransition_cases in H.
  rewrite !elem_of_cons, elem_of_nil in H. destruct_or? H; simplify_eq;
    (split; [vm_compute; set_solver|]); do 4 (split; [done|]).
  all: first
    [ by exists StatusCanceled; split; [set_solver|]; (reflexivity || by apply rtc_once)
    | by exists StatusClosed; split; [set_solver|]; (reflexivity || by apply rtc_once) ].
Qed.

Lemma case_lifecycle_witness :
  CanTransition StatusResolved StatusClosed = true /\ StatusClosed ∈ case_statuses.
Proof. split; [reflexivity|]. exact (proj1 (case_lifecycle StatusResolved StatusClosed eq_refl)). Defined.

(** [Transition] of a case is atomic under every failure: either nothing
    changed and the caller gets an error, or the case was the tenant's, the
    move legal, and the tables differ by the moved row and one pending event
    carrying the reference and both statuses. *)
Lemma case_transition_atomic source t id to reason e s :
  let '(res, s') := Transition source t id to reason e s in
  (committed s' = committed s /\ exists x, res = Err x)
  \/ exists c tm now v,
      sel_case t id (committed s) = Some c /\ CanTransition (ca_Status c) to = true
      /\ e_Type v = moved_topic to /\ e_TenantID v = t /\ e_Subject v = id
      /\ e_Data v = [("case_id", VStr id); ("ref", VStr (ca_Ref c));
                     ("from", VStr (ca_Status c)); ("to", VStr to); ("reason", VStr reason)]
      /\ committed s' = set_outbox (fun l => l ++ [MkOutboxRow v "pending" 0 "" None])
                          (set_cases (<[id := moved to tm now c]>) (committed s))
      /\ (res = Ok (moved to tm now c) \/ exists x, res = Err x).
Proof.
  enough (wp (Transition source t id to reason) e s (fun res s' =>
    (committed s' = committed s /\ exists x, res = Err x)
    \/ exists c tm now v,
      sel_case t id (committed s) = Some c /\ CanTransition (ca_Status c) to = true
      /\ e_Type v = moved_topic to /\ e_TenantID v = t /\ e_Subject v = id
      /\ e_Data v = [("case_id", VStr id); ("ref", VStr (ca_Ref c));
                     ("from", VStr (ca_Status c)); ("to", VStr to); ("reason", VStr reason)]
      /\ committed s' = set_outbox (fun l => l ++ [MkOutboxRow v "pending" 0 "" None])
                          (set_cases (<[id := moved to tm now c]>) (committed s))
      /\ (res = Ok (moved to tm now c) \/ exists x, res = Err x))) as H by exact H.
  apply wp_Transition; [by eauto|]. intros c tm now v n res. intros. right.
  by exists c, tm, now, v.
Qed.

(** C11. Case tables keep their integrity over any history of calls by any
    tenants with any failures: known statuses and priorities, a customer of
    the same tenant, [resolved_at] and [closed_at] set exactly in their
    statuses, references unique per tenant, notes and links only between rows
    of one tenant. *)
Theorem cases_integrity source d d' :
  cases_wf d -> case_history source d d' -> cases_wf d'.
Proof.
  intros Hwf. induction 1 as [|d1 d2 d3 [o H] _ IH]; [done|].
  apply IH. by eapply case_writes_wf; [eapply case_called_writes|].
Qed.

Lemma cases_integrity_witness :
  cases_wf case_start /\ case_history "api" case_start db_2025
  /\ size (d_cases db_2025) = 1%nat /\ cases_wf db_2025.
Proof.
  assert (case_history "api" case_start db_2025) as H
    by (apply rtc_once; exists (CaseOpen "t1" case_input), env_2025, 0%nat; reflexivity).
  split; [apply case_start_wf|]. split; [exact H|]. split; [vm_compute; reflexivity|].
  exact (cases_integrity "api" case_start db_2025 case_start_wf H).
Defined.

(** A tenant's calls never touch another tenant's cases, nor the notes and
    links of its cases, nor its events, under every failure. *)
Lemma cases_tenant_isolation source o u d d' :
  case_called source o d d' -> case_op_tenant o <> u -> same_case_view u d d'.
Proof. intros H Hu. eapply case_writes_same_view; [exact Hu|by eapply case_called_writes]. Qed.

Lemma cases_tenant_isolation_witness :
  case_called "api" (CaseAddNote "t2" "id-1" "agent" "a" "hello" true) db_2025
    (after (CaseAddNote "t2" "id-1" "agent" "a" "hello" true) env0 0 db_2025)
  /\ same_case_view "t1" db_2025
       (after (CaseAddNote "t2" "id-1" "agent" "a" "hello" true) env0 0 db_2025).
Proof.
  assert (case_called "api" (CaseAddNote "t2" "id-1" "agent" "a" "hello" true) db_2025
    (after (CaseAddNote "t2" "id-1" "agent" "a" "hello" true) env0 0 db_2025)) as H
    by (exists env0, 0%nat; reflexivity).
  split; [exact H|].
  apply (cases_tenant_isolation _ _ "t1" _ _ H). discriminate.
Defined.

(** Serial references: when no call fails and the clock stays within year
    [y], an accepted [Open] on a gap-free year returns a case numbered with the
    next number of the year, the year stays gap-free (as does every other
    year), and the count grows by one, so the next [Open] never conflicts. *)
Lemma case_open_serial_reference source e t i y s :
  healthy e -> fresh e (steps s) (committed s) -> t <> "" -> input_valid i = true ->
  customer_exists t (ci_CustomerID i) (committed s) = true ->
  in_year e y -> 0 <= y <= int64_max ->
  (forall k, d_cases (committed s) !! uuid_of e k = None) ->
  count_refs t y (committed s) < int64_max -> dense t y (committed s) ->
  exists c s', Open source t i e s = (Ok c, s')
    /\ ca_Ref c = case_ref y (count_refs t y (committed s) + 1)
    /\ count_refs t y (committed s') = count_refs t y (committed s) + 1
    /\ forall y', 0 <= y' <= int64_max -> dense t y' (committed s) -> dense t y' (committed s').
Proof.
  intros Hh Hfr Ht Hv Hcu Hy Hyr Hids Hcount Hd.
  assert (0 <= count_refs t y (committed s)) as H0 by (unfold count_refs; lia).
  assert (wrap64 (count_refs t y (committed s) + 1) = count_refs t y (committed s) + 1) as Hw
    by (apply wrap64_id; unfold in_int64, int64_min; lia).
  enough (wp (Open source t i) e s (fun res s' => exists c, res = Ok c
    /\ ca_Ref c = case_ref y (count_refs t y (committed s) + 1)
    /\ count_refs t y (committed s') = count_refs t y (committed s) + 1
    /\ forall y', 0 <= y' <= int64_max -> dense t y' (committed s) -> dense t y' (committed s')))
    as H by (unfold wp in H; destruct (Open _ _ _ _ _) as [res s']; naive_solver).
  eapply wp_Open_ok; try done.
  - rewrite Hw. intros id c Hc Hct Href.
    destruct (Hd _ _ Hc Hct) as (n & Hn & E); [by rewrite Href, case_ref_prefix|].
    rewrite E in Href. apply case_ref_inj in Href; lia.
  - rewrite Hw. intros c n v Hct Hst Hn Href. exists c. cbn [committed].
    split; [done|]. split; [done|]. split.
    + change (count_refs t y (set_cases (<[ca_ID c := c]>) (committed s))
              = count_refs t y (committed s) + 1).
      by rewrite count_refs_insert, Href, case_ref_prefix by done.
    + intros y' Hy' Hd'. change (dense t y' (set_cases (<[ca_ID c := c]>) (committed s))).
      by apply (dense_insert t y).
Qed.

Lemma case_open_serial_reference_witness :
  healthy env_2025 /\ fresh env_2025 0 case_start /\ "t1" <> "" /\ input_valid case_input = true
  /\ customer_exists "t1" "c1" case_start = true /\ in_year env_2025 2025
  /\ dense "t1" 2025 case_start
  /\ exists c s', Open "api" "t1" case_input env_2025 (MkSt case_start None 0) = (Ok c, s')
       /\ ca_Ref c = "CASE-2025-0001".
Proof.
  assert (healthy env_2025) as H1 by (by split).
  assert (fresh env_2025 0 case_start) as H2.
  { split; [intros i j _; apply env0_inj|]. by intros i o _ ?%not_elem_of_nil. }
  assert (in_year env_2025 2025) as H3 by (intros k; vm_compute; reflexivity).
  assert (forall id, d_cases case_start !! id = None) as H0
    by (intros id; exact (lookup_empty (M := gmap string) id)).
  assert (dense "t1" 2025 case_start) as H4 by (intros id c H; by rewrite H0 in H).
  assert (forall k, d_cases case_start !! uuid_of env_2025 k = None) as H5 by (intros k; apply H0).
  split; [exact H1|]. split; [exact H2|]. split; [discriminate|]. split; [reflexivity|].
  split; [vm_compute; reflexivity|]. split; [exact H3|]. split; [exact H4|].
  destruct (case_open_serial_reference "api" env_2025 "t1" case_input 2025 (MkSt case_start None 0)
    H1 H2 ltac:(discriminate) eq_refl ltac:(vm_compute; reflexivity) H3
    ltac:(split; vm_compute; discriminate) H5 ltac:(vm_compute; reflexivity) H4)
    as (c & s' & HO & Href & _).
  exists c, s'. split; [exact HO|]. rewrite Href. vm_compute. reflexivity.
Defined.

(** The reference allocator can wedge: when the number after the count is
    already taken (which happens when the year turns between the two clock
    reads of an [Open], as in the witness), every later [Open] of the year
    fails and changes nothing, so the advice to retry never helps. *)
Lemma case_reference_wedged source e t i y s :
  in_year e y ->
  (exists id c, d_cases (committed s) !! id = Some c /\ ca_TenantID c = t
     /\ ca_Ref c = case_ref y (wrap64 (count_refs t y (committed s) + 1))) ->
  let '(res, s') := Open source t i e s in
  committed s' = committed s /\ exists x, res = Err x.
Proof. apply wp_Open_conflict. Qed.

Lemma case_reference_wedged_witness :
  in_year env_2026 2026
  /\ (exists id c, d_cases db_stuck !! id = Some c /\ ca_TenantID c = "t1"
       /\ ca_Ref c = case_ref 2026 (wrap64 (count_refs "t1" 2026 db_stuck + 1)))
  /\ let '(res, s') := Open "api" "t1" case_input env_2026 (MkSt db_stuck None 200) in
     committed s' = committed (MkSt db_stuck None 200) /\ exists x, res = Err x.
Proof.
  assert (in_year env_2026 2026) as H1 by (intros k; vm_compute; reflexivity).
  assert (exists id c, d_cases db_stuck !! id = Some c /\ ca_TenantID c = "t1"
       /\ ca_Ref c = case_ref 2026 (wrap64 (count_refs "t1" 2026 db_stuck + 1))) as H2.
  { exists "id-102". eexists. split; [vm_compute; reflexivity|].
    split; vm_compute; reflexivity. }
  split; [exact H1|]. split; [exact H2|].
  exact (case_reference_wedged "api" env_2026 "t1" case_input 2026 (MkSt db_stuck None 200) H1 H2).
Defined.

(** Closing a resolved case erases its [resolved_at]. *)
Lemma close_erases_resolved_at c tm now :
  CanTransition (ca_Status c) StatusClosed = true ->
  ca_ResolvedAt (moved StatusClosed tm now c) = None.
Proof. done. Qed.

(** Linking an interaction twice answers [NotFound] although both rows exist:
    the second insert affects no row. *)
Lemma relink_not_found t cid iid e s :
  fault e (steps s) = None -> (cid, iid) ∈ d_case_links (committed s) ->
  fst (LinkInteraction t cid iid e s)
  = Err (NotFound "case.link_target_not_found" "case or interaction not found").
Proof.
  intros Hf Hin. unfold LinkInteraction, mbind, M_bind, pool_Exec. rewrite Hf.
  unfold ins_link. rewrite bool_decide_true by done. by destruct (_ && _).
Qed.
