(* ===== verification/Webhooks.v ===== *)
(** * internal/webhooks: the signed entry point for provider deliveries

    gateway.go (signature check, verifier slot, single-effect persistence,
    completion marks), verify_registry.go (configuration and registry) and
    verify_whatsappcloud.go. *)

From Stdlib Require Import String Ascii.
From S2P Require Import Prelude GoStd AppErrors Events Store Sql Wp Text Sha256 Idempotency.

Local Open Scope Z_scope.

(** ** crypto/hmac over SHA-256 *)

Definition hmac_block : nat := 64.

Definition hmac_key (key : list Z) : list Z :=
  let k := if (hmac_block <? length key)%nat then Sum256 key else key in
  k ++ replicate (hmac_block - length k) 0.

Definition hmac_sha256 (key msg : list Z) : list Z :=
  let k := hmac_key key in
  Sum256 (map (Z.lxor 92) k ++ Sum256 (map (Z.lxor 54) k ++ msg)).

(** RFC 4231, test case 2. *)
Example hmac_rfc4231_2 :
  hex_encode (hmac_sha256 (str_bytes "Jefe") (str_bytes "what do ya want for nothing?"))
  = "5bdcc146bf60754e6a042426089575c75a003f089d2739839dec58b964ec3843"%string.
Proof. vm_compute. reflexivity. Qed.

(** [hex.DecodeString]: both cases, an even number of digits. *)
Definition hex_val (a : ascii) : option Z :=
  let c := code a in
  if (48 <=? c) && (c <=? 57) then Some (c - 48)
  else if (97 <=? c) && (c <=? 102) then Some (c - 87)
  else if (65 <=? c) && (c <=? 70) then Some (c - 55)
  else None.

Fixpoint hex_decode (s : string) : option (list Z) :=
  match s with
  | EmptyString => Some []
  | String a (String b r) =>
      match hex_val a, hex_val b, hex_decode r with
      | Some x, Some y, Some l => Some (16 * x + y :: l)
      | _, _, _ => None
      end
  | String _ EmptyString => None
  end.

(** ** verify_registry.go *)

(** [http.Header] under canonical names, first value of each. *)
Notation Header := (gmap string string).

Definition header_get (h : Header) (name : string) : string := default "" (h !! name).

Record VerifierConfig := MkVerifierConfig {
  TwilioAuthTokens : list string;
  WhatsAppAppSecret : string;
  ATAllowedCIDRs : list string;
  ATPeerIPHeader : string;
  ExternalURL : string;
  ExternalURLs : list (string * string);
}.

Definition normalizeProvider `{Unicode} (p : string) : string := ToLower (trim_space p).

(** The per-provider override, exact key first, then any key that normalizes
    to it (in the iteration order of the Go map), then the shared default. *)
Definition externalURLFor `{Unicode} (c : VerifierConfig) (provider : string) : string :=
  let p := normalizeProvider provider in
  match List.find (fun kv => String.eqb kv.1 p && negb (is_empty kv.2)) (ExternalURLs c) with
  | Some kv => kv.2
  | None =>
      match List.find (fun kv => String.eqb (normalizeProvider kv.1) p && negb (is_empty kv.2))
              (ExternalURLs c) with
      | Some kv => kv.2
      | None => ExternalURL c
      end
  end.

Definition peerIPHeaderName (c : VerifierConfig) : string :=
  if is_empty (ATPeerIPHeader c) then "X-Forwarded-For" else ATPeerIPHeader c.

(** [VerifyFunc]: [None] is the nil error, which accepts. *)
Definition VerifyFunc := VerifierConfig -> list Z -> Header -> string -> option Error.

Notation Registry := (gmap string VerifyFunc).

(** ** verify_whatsappcloud.go *)

Definition WhatsAppSignatureHeader := "X-Hub-Signature-256".
Definition whatsappSigPrefix := "sha256=".

Definition VerifyWhatsAppCloud : VerifyFunc := fun cfg rawBody header _ =>
  if is_empty (WhatsAppAppSecret cfg) then
    Some (Unauth "webhook.whatsapp_misconfigured" "signature validation failed")
  else
  let invalid := Some (Unauth "webhook.whatsapp_invalid_signature" "signature validation failed") in
  let provided := header_get header WhatsAppSignatureHeader in
  let n := String.length whatsappSigPrefix in
  if (String.length provided <=? n)%nat then invalid
  else if negb (String.eqb (to_lower (stake n provided)) whatsappSigPrefix) then invalid
  else match hex_decode (sdrop n provided) with
       | None => invalid
       | Some digest =>
           if negb (length digest =? 32)%nat then invalid
           else if bool_decide (hmac_sha256 (str_bytes (WhatsAppAppSecret cfg)) rawBody = digest)
                then None else invalid
       end.

(** ** gateway.go *)

Definition MaxPayloadBytes : Z := 256 * 1024.
Definition SignatureHeader := "X-Orvexa-Signature".

Record Gateway := MkGateway {
  g_secret : string;
  g_verifiers : Registry;
  g_vcfg : VerifierConfig;
}.

Definition zero_config : VerifierConfig := MkVerifierConfig [] "" [] "" "" [].

Definition NewGateway (secret : string) : Gateway := MkGateway secret ∅ zero_config.

(** [SetVerifiers]: the registry in the iteration order of the Go map, nil
    entries dropped, keys normalized. *)
Definition SetVerifiers `{Unicode} (g : Gateway) (reg : list (string * option VerifyFunc))
    (cfg : VerifierConfig) : Gateway :=
  MkGateway (g_secret g)
    (fold_left (fun norm pv =>
       match pv.2 with
       | None => norm
       | Some v => <[normalizeProvider pv.1 := v]> norm
       end) reg ∅) cfg.

Definition NewGatewayWithVerifiers `{Unicode} (secret : string) (reg : list (string * option VerifyFunc))
    (cfg : VerifierConfig) : Gateway := SetVerifiers (NewGateway secret) reg cfg.

Definition ComputeSignature (secret body : string) : string :=
  hex_encode (hmac_sha256 (str_bytes secret) (str_bytes body)).

Definition ValidateSignature (secret body provided : string) : bool :=
  if is_empty secret then false else String.eqb (ComputeSignature secret body) provided.

Definition authorized `{Unicode} (g : Gateway) (provider body : string) (header : Header) : bool :=
  match g_verifiers g !! normalizeProvider provider with
  | Some v =>
      match v (g_vcfg g) (str_bytes body) header (externalURLFor (g_vcfg g) provider) with
      | None => true
      | Some _ => false
      end
  | None => ValidateSignature (g_secret g) body (header_get header SignatureHeader)
  end.

Record IngestResult := MkIngestResult {
  ir_EventID : string;
  ir_Duplicate : bool;
  ir_Accepted : bool;
}.

Definition same_event (provider eventID : string) (r : ProviderEventRow) : bool :=
  String.eqb (pe_Provider r) provider && String.eqb (pe_ProviderEventID r) eventID.

(** [INSERT INTO provider_events ... ON CONFLICT (provider, provider_event_id)
    DO NOTHING] *)
Definition ins_provider_event (id provider eventID body : string) : stmt := fun now d =>
  if existsb (same_event provider eventID) (d_provider_events d) then Some (d, 0%nat)
  else if existsb (fun r => String.eqb (pe_ID r) id) (d_provider_events d) then None
  else Some (set_provider_events (fun l => l ++ [MkProviderEventRow id provider eventID body now None]) d,
             1%nat).

Definition sel_provider_event (provider eventID : string) (d : DB) : option string :=
  pe_ProviderEventID <$> List.find (same_event provider eventID) (d_provider_events d).

Definition mark_row (now : Z) (r : ProviderEventRow) : ProviderEventRow :=
  MkProviderEventRow (pe_ID r) (pe_Provider r) (pe_ProviderEventID r) (pe_Payload r)
    (pe_ReceivedAt r) (Some now).

Definition unprocessed (r : ProviderEventRow) : bool :=
  match pe_ProcessedAt r with None => true | Some _ => false end.

(** [UPDATE provider_events SET processed_at = now()
    WHERE provider_event_id = $1 AND processed_at IS NULL] *)
Definition upd_processed (eventID : string) : stmt := fun now d =>
  let hit r := String.eqb (pe_ProviderEventID r) eventID && unprocessed r in
  Some (set_provider_events (map (fun r => if hit r then mark_row now r else r)) d,
        length (List.filter hit (d_provider_events d))).

Section Ingest.
Context `{Unicode}.
Variable g : Gateway.
(** PostgreSQL's [jsonb] input check of the payload. *)
Variable json_valid : string -> bool.

Definition ErrInvalidJSON : error := OtherErr "invalid input syntax for type json" None.

Definition persistEvent (provider body : string) : M IngestResult :=
  let eventID := Derive ["webhook"; provider; body] in
  id ← uuid_NewString;
  r ← (if json_valid body then pool_Exec (ins_provider_event id provider eventID body)
       else mret (SqlErr (DriverError ErrInvalidJSON)));
  match r with
  | SqlErr x =>
      throw (WithCause (Internal "webhook.persist_failed" "ingestion failed") (sqlerr_error x))
  | SqlOk O =>
      q ← pool_Query (sel_provider_event provider eventID);
      match q with
      | SqlOk (Some existing) => mret (MkIngestResult existing true true)
      | SqlOk None =>
          throw (WithCause (Internal "webhook.lookup_failed" "ingestion failed")
                   (OtherErr "no rows in result set" None))
      | SqlErr x =>
          throw (WithCause (Internal "webhook.lookup_failed" "ingestion failed") (sqlerr_error x))
      end
  | SqlOk (S _) => mret (MkIngestResult eventID false true)
  end.

Definition IngestHeaders (provider body : string) (header : Header) : M IngestResult :=
  if is_empty provider || (64 <? Z.of_nat (String.length provider)) then
    throw (Invalid "webhook.invalid_provider" "provider path is required (1-64 chars)")
  else if is_empty body then throw (Invalid "webhook.empty_body" "request body is required")
  else if MaxPayloadBytes <? Z.of_nat (String.length body) then
    throw (Invalid "webhook.body_too_large" "payload exceeds 256 KiB")
  else if negb (authorized g provider body header) then
    throw (Unauth "webhook.invalid_signature" "signature validation failed")
  else persistEvent provider body.

Definition Ingest (provider body signature : string) : M IngestResult :=
  IngestHeaders provider body
    (if is_empty signature then ∅ else {[SignatureHeader := signature]}).

(** [MarkProcessed]: best effort. *)
Definition MarkProcessed (eventID : string) : M () :=
  _ ← pool_Exec (upd_processed eventID); mret ().
End Ingest.

(** ** Lemmas *)

(** The ledger's UNIQUE constraint. *)
Definition ledger_unique (l : list ProviderEventRow) : Prop :=
  NoDup (map (fun r => (pe_Provider r, pe_ProviderEventID r)) l).

Lemma same_event_spec p id r : same_event p id r = true <-> pe_Provider r = p /\ pe_ProviderEventID r = id.
Proof. unfold same_event. by rewrite andb_true_iff, !String.eqb_eq. Qed.

Lemma existsb_same_event p id l :
  existsb (same_event p id) l = true <-> (p, id) ∈ map (fun r => (pe_Provider r, pe_ProviderEventID r)) l.
Proof.
  rewrite existsb_exists, list_elem_of_In, in_map_iff. split.
  - intros (r & Hin & H). apply same_event_spec in H as [<- <-]. eauto.
  - intros (r & [= <- <-] & Hin). exists r. by rewrite same_event_spec.
Qed.

Lemma find_same_event p id l :
  existsb (same_event p id) l = true -> pe_ProviderEventID <$> List.find (same_event p id) l = Some id.
Proof.
  intros H. destruct (List.find (same_event p id) l) as [r|] eqn:E.
  - apply find_some in E as [_ E]. apply same_event_spec in E as [_ <-]. done.
  - apply existsb_exists in H as (r & Hin & Hr). by rewrite (find_none _ _ E _ Hin) in Hr.
Qed.

Lemma ins_provider_event_Some id p eid body now d d' k :
  ins_provider_event id p eid body now d = Some (d', k) ->
  (existsb (same_event p eid) (d_provider_events d) = true /\ d' = d /\ k = 0%nat)
  \/ (existsb (same_event p eid) (d_provider_events d) = false /\ k = 1%nat
      /\ d' = set_provider_events (fun l => l ++ [MkProviderEventRow id p eid body now None]) d).
Proof.
  unfold ins_provider_event. destruct (existsb (same_event p eid) _); [naive_solver|].
  destruct (existsb _ _); naive_solver.
Qed.

Lemma wp_persistEvent json_valid provider body e s Q :
  let eid := Derive ["webhook"; provider; body] in
  (forall x s', committed s' = committed s -> Q (Err x) s') ->
  (forall s', committed s' = committed s ->
     existsb (same_event provider eid) (d_provider_events (committed s)) = true ->
     Q (Ok (MkIngestResult eid true true)) s') ->
  (forall id now s',
     existsb (same_event provider eid) (d_provider_events (committed s)) = false ->
     json_valid body = true ->
     committed s' = set_provider_events
       (fun l => l ++ [MkProviderEventRow id provider eid body now None]) (committed s) ->
     Q (Ok (MkIngestResult eid false true)) s') ->
  wp (persistEvent json_valid provider body) e s Q.
Proof.
  intros eid H1 H2 H3. unfold persistEvent. fold eid. wp_go; try by (apply H1).
  all: apply ins_provider_event_Some in Hx as [(Hex & -> & Hk)|(Hex & Hk & ->)]; try discriminate.
  - by apply H1.
  - unfold sel_provider_event in E1. cbn [committed] in E1.
    rewrite (find_same_event _ _ _ Hex) in E1. injection E1 as <-. by apply H2.
  - by apply H1.
  - by eapply H3.
Qed.

Lemma wp_IngestHeaders `{U : Unicode} g json_valid provider body header e s Q :
  let eid := Derive ["webhook"; provider; body] in
  (forall x s', committed s' = committed s -> Q (Err x) s') ->
  (forall r s', authorized g provider body header = true ->
     provider <> "" -> body <> "" -> Z.of_nat (String.length body) <= MaxPayloadBytes ->
     ((committed s' = committed s /\ r = MkIngestResult eid true true
       /\ existsb (same_event provider eid) (d_provider_events (committed s)) = true)
      \/ exists id now, r = MkIngestResult eid false true
       /\ existsb (same_event provider eid) (d_provider_events (committed s)) = false
       /\ committed s' = set_provider_events
           (fun l => l ++ [MkProviderEventRow id provider eid body now None]) (committed s)) ->
     Q (Ok r) s') ->
  wp (IngestHeaders g json_valid provider body header) e s Q.
Proof.
  intros eid H1 H2. unfold IngestHeaders. do 4 (wp_step; [by wp_step; apply H1|]).
  apply orb_false_iff in E as [E _]. apply is_empty_false in E, E0. apply Z.ltb_ge in E1.
  apply negb_false_iff in E2.
  apply wp_persistEvent; [done|..].
  - intros s' Hs' Hex. apply H2; auto.
  - intros id now s' Hex _ Hs'. apply H2; eauto 10.
Qed.

Lemma header_get_single sig : header_get (if is_empty sig then ∅ else {[SignatureHeader := sig]}) SignatureHeader = sig.
Proof.
  unfold header_get. destruct (is_empty sig) eqn:E.
  - apply is_empty_true in E as ->. by rewrite lookup_empty.
  - by rewrite lookup_singleton_eq.
Qed.

Lemma hex_val_digit v : 0 <= v < 16 -> hex_val (hex_digit v) = Some v.
Proof.
  intros H. assert (forallb (fun v => bool_decide (hex_val (hex_digit v) = Some v)) nibbles = true) as Hf
    by (vm_compute; reflexivity).
  rewrite forallb_forall in Hf. apply (bool_decide_eq_true_1 _), Hf, in_map_iff.
  exists (Z.to_nat v). split; [lia|]. apply in_seq. lia.
Qed.

Lemma hex_decode_encode l : Forall (fun b => 0 <= b < 256) l -> hex_decode (hex_encode l) = Some l.
Proof.
  induction 1 as [|b l Hb _ IH]; [done|]. cbn [hex_encode hex_decode].
  rewrite !hex_val_digit, IH by (apply Z.mod_pos_bound; lia). do 2 f_equal.
  rewrite Z.mod_small by (split; [apply Z.div_pos; lia|apply Z.div_lt_upper_bound; lia]).
  pose proof (Z.div_mod b 16). lia.
Qed.

Lemma be32_bytes w : Forall (fun b => 0 <= b < 256) (be32 w).
Proof. unfold be32. repeat constructor; apply Z.mod_pos_bound; lia. Qed.

Lemma Sum256_bytes msg : Forall (fun b => 0 <= b < 256) (Sum256 msg).
Proof. unfold Sum256. rewrite !Forall_app. repeat split; apply be32_bytes. Qed.

Lemma has_prefix_refl p t : stake (String.length p) (p +:+ t)%string = p /\ sdrop (String.length p) (p +:+ t)%string = t.
Proof.
  induction p as [|a p [IH1 IH2]]; [by destruct t|]. split; [exact (f_equal (String a) IH1)|exact IH2].
Qed.

(** ** Properties *)

(** C12. Ingestion fails closed: for a provider without a verifier, a delivery
    changes the ledger or is acknowledged only when the platform secret is set,
    the signature is the HMAC-SHA256 of the exact body under it, and the body
    is between 1 byte and 256 KiB, whatever database calls fail. *)
Theorem ingest_fails_closed `{U : Unicode} g json_valid provider body signature e s :
  g_verifiers g !! normalizeProvider provider = None ->
  let '(res, s') := Ingest g json_valid provider body signature e s in
  (committed s' <> committed s \/ exists r, res = Ok r) ->
  g_secret g <> "" /\ signature = ComputeSignature (g_secret g) body
  /\ 1 <= Z.of_nat (String.length body) <= MaxPayloadBytes.
Proof.
  intros Hv. set (concl := g_secret g <> "" /\ signature = ComputeSignature (g_secret g) body
    /\ 1 <= Z.of_nat (String.length body) <= MaxPayloadBytes).
  enough (wp (Ingest g json_valid provider body signature) e s (fun res s' =>
    (committed s' <> committed s \/ exists r, res = Ok r) -> concl)) as H by exact H.
  unfold Ingest. apply wp_IngestHeaders.
  - intros x s' -> [?|[r ?]]; done.
  - intros r s' Ha _ Hb Hl _ _. unfold authorized in Ha. destruct (g_verifiers g !! _) as [v|] eqn:Ev in Ha; [discriminate (eq_trans (eq_sym Ev) Hv)|]. rewrite header_get_single in Ha.
    unfold ValidateSignature in Ha. destruct (is_empty (g_secret g)) eqn:Es; [done|].
    apply is_empty_false in Es. apply String.eqb_eq in Ha. unfold concl.
    split; [done|]. split; [done|]. split; [|done]. destruct body; [done|]. simpl. lia.
Qed.

#[local] Instance demo_unicode : Unicode := {| unicode_ToLower := fun s => s |}.

Definition demo_gateway : Gateway := NewGateway "s3cret".
Definition demo_signature : string := ComputeSignature "s3cret" "{}".
Definition demo_ingest : result IngestResult * st :=
  Ingest demo_gateway (fun _ => true) "Simulator" "{}" demo_signature env0 (MkSt empty_db None 0).

Lemma ingest_fails_closed_witness :
  let '(res, s') := demo_ingest in
  (exists r, res = Ok r)
  /\ ((committed s' <> committed (MkSt empty_db None 0) \/ exists r, res = Ok r) ->
      g_secret demo_gateway <> "" /\ demo_signature = ComputeSignature (g_secret demo_gateway) "{}"
      /\ 1 <= Z.of_nat (String.length "{}") <= MaxPayloadBytes).
Proof.
  pose proof (ingest_fails_closed demo_gateway (fun _ => true) "Simulator" "{}" demo_signature env0
    (MkSt empty_db None 0) eq_refl) as H.
  fold demo_ingest in H.
  assert (exists r, fst demo_ingest = Ok r) as Hr by (eexists; vm_compute; reflexivity).
  destruct demo_ingest as [res s']. exact (conj Hr H).
Defined.

(** C14. A delivery has a single effect: under every failure the ledger keeps
    at most one row per provider and event, an accepted delivery is in the
    ledger, and a replay of an accepted delivery (through any header, with any
    failures) adds nothing and, when acknowledged, is reported as a duplicate
    with the original event id. *)
Theorem ingest_single_effect `{U : Unicode} g json_valid provider body header e s e2 header2 n2 :
  ledger_unique (d_provider_events (committed s)) ->
  let eid := Derive ["webhook"; provider; body] in
  let '(res, s') := IngestHeaders g json_valid provider body header e s in
  ledger_unique (d_provider_events (committed s'))
  /\ ((exists r, res = Ok r) ->
      existsb (same_event provider eid) (d_provider_events (committed s')) = true
      /\ let '(res2, s2) := IngestHeaders g json_valid provider body header2 e2
                              (MkSt (committed s') None n2) in
         committed s2 = committed s'
         /\ forall r2, res2 = Ok r2 -> r2 = MkIngestResult eid true true).
Proof.
  intros Hu eid.
  enough (wp (IngestHeaders g json_valid provider body header) e s (fun res s' =>
    ledger_unique (d_provider_events (committed s'))
    /\ ((exists r, res = Ok r) ->
        existsb (same_event provider eid) (d_provider_events (committed s')) = true))) as H.
  { unfold wp in H. destruct (IngestHeaders g json_valid provider body header e s) as [res s'].
    destruct H as [H1 H2]. split; [done|]. intros Hr. specialize (H2 Hr). split; [done|].
    enough (wp (IngestHeaders g json_valid provider body header2) e2 (MkSt (committed s') None n2)
      (fun res2 s2 => committed s2 = committed s'
         /\ forall r2, res2 = Ok r2 -> r2 = MkIngestResult eid true true)) as H by exact H.
    apply wp_IngestHeaders; [done|].
    intros r s2 _ _ _ _ [(Hs2 & -> & _)|(id & now & _ & Hex & _)].
    - split; [done|]. by intros r2 [= <-].
    - simpl in Hex. fold eid in Hex. congruence. }
  apply wp_IngestHeaders; [by intros x s' ->; split; [|intros [r ?]]|].
  intros r s' _ _ _ _ [(Hs' & -> & Hex)|(id & now & -> & Hex & Hs')].
  - by rewrite Hs'.
  - rewrite Hs'. simpl. split.
    + unfold ledger_unique. rewrite map_app. apply NoDup_app. split; [done|].
      split; [|apply NoDup_singleton]. intros x Hx Hy. apply list_elem_of_singleton in Hy as ->.
      apply existsb_same_event in Hx. discriminate (eq_trans (eq_sym Hx) Hex).
    + intros _. rewrite existsb_app. simpl.
      rewrite (proj2 (same_event_spec _ _ _)) by done. by rewrite orb_true_r.
Qed.

Lemma ingest_single_effect_witness :
  ledger_unique (d_provider_events empty_db)
  /\ let g := NewGateway "s3cret" in
     let header := {[SignatureHeader := ComputeSignature "s3cret" "{}"]} in
     let '(res, s') := IngestHeaders g (fun _ => true) "p" "{}" header env0 (MkSt empty_db None 0) in
     ledger_unique (d_provider_events (committed s')).
Proof.
  assert (ledger_unique (d_provider_events empty_db)) as H0 by constructor.
  split; [exact H0|]. intros g header.
  pose proof (ingest_single_effect g (fun _ => true) "p" "{}" header env0 (MkSt empty_db None 0)
    env0 header 7 H0) as H.
  destruct (IngestHeaders g (fun _ => true) "p" "{}" header env0 (MkSt empty_db None 0)).
  exact (proj1 H).
Defined.

(** The WhatsApp verifier accepts exactly the deliveries Meta's scheme
    signs: a configured secret and a header that is the scheme marker (in any
    case) followed by the hex of the HMAC-SHA256 of the raw body; the header
    Meta builds is accepted. *)
Lemma whatsapp_verifier_exact cfg body header url :
  (VerifyWhatsAppCloud cfg body header url = None <->
     WhatsAppAppSecret cfg <> ""
     /\ to_lower (stake 7 (header_get header WhatsAppSignatureHeader)) = whatsappSigPrefix
     /\ hex_decode (sdrop 7 (header_get header WhatsAppSignatureHeader))
        = Some (hmac_sha256 (str_bytes (WhatsAppAppSecret cfg)) body))
  /\ (WhatsAppAppSecret cfg <> "" ->
      VerifyWhatsAppCloud cfg body
        {[WhatsAppSignatureHeader := whatsappSigPrefix +:+
            hex_encode (hmac_sha256 (str_bytes (WhatsAppAppSecret cfg)) body)]} url = None).
Proof.
  assert (forall header, VerifyWhatsAppCloud cfg body header url = None <->
     WhatsAppAppSecret cfg <> ""
     /\ to_lower (stake 7 (header_get header WhatsAppSignatureHeader)) = whatsappSigPrefix
     /\ hex_decode (sdrop 7 (header_get header WhatsAppSignatureHeader))
        = Some (hmac_sha256 (str_bytes (WhatsAppAppSecret cfg)) body)) as Hiff.
  { clear header. intros header. unfold VerifyWhatsAppCloud. cbv zeta.
    change (String.length whatsappSigPrefix) with 7%nat.
    set (h := header_get header WhatsAppSignatureHeader).
    set (mac := hmac_sha256 (str_bytes (WhatsAppAppSecret cfg)) body).
    assert (length mac = 32%nat) as Hlen by apply length_Sum256.
    destruct (is_empty (WhatsAppAppSecret cfg)) eqn:Es.
    { apply is_empty_true in Es. rewrite Es. split; [done|]. by intros [? _]. }
    apply is_empty_false in Es.
    destruct (Nat.leb_spec (String.length h) 7) as [Hl|Hl].
    { split; [done|]. intros (_ & _ & Hd). exfalso.
      assert (sdrop 7 h = "") as Hnil.
      { clearbody h. do 8 (destruct h as [|? h]; [done|simpl in Hl]). lia. }
      rewrite Hnil in Hd. injection Hd as Hd. rewrite <- Hd in Hlen. discriminate. }
    destruct (String.eqb_spec (to_lower (stake 7 h)) whatsappSigPrefix) as [Ep|Ep]; cbn [negb];
      [|split; [done|by intros (_ & ? & _)]].
    destruct (hex_decode (sdrop 7 h)) as [dg|]; [|split; [done|by intros (_ & _ & ?)]].
    destruct (Nat.eqb_spec (length dg) 32) as [El|El]; cbn [negb].
    - case_bool_decide as Eq; [by rewrite Eq|]. split; [done|]. by intros (_ & _ & [= ->]).
    - split; [done|]. intros (_ & _ & [= ->]). done. }
  split; [apply Hiff|]. intros Hs. apply Hiff.
  set (v := whatsappSigPrefix +:+ _).
  assert (header_get {[WhatsAppSignatureHeader := v]} WhatsAppSignatureHeader = v) as ->
    by (unfold header_get; by rewrite lookup_singleton_eq). subst v.
  destruct (has_prefix_refl whatsappSigPrefix
    (hex_encode (hmac_sha256 (str_bytes (WhatsAppAppSecret cfg)) body))) as [E1 E2].
  change (String.length whatsappSigPrefix) with 7%nat in E1, E2.
  rewrite E1, E2. split; [done|]. split; [done|].
  apply hex_decode_encode, Sum256_bytes.
Qed.
