(* ===== verification/Comms.v ===== *)
(** * internal/comms: provider events to interaction transitions

    [Process] of provider_event.go against the [InteractionCore] interface,
    and the ledger consumer of consumer.go. The interface is a class with its
    laws; the interaction service is its instance (at the end). *)

From Stdlib Require Import String Ascii.
From S2P Require Import Prelude GoStd AppErrors Events Store Sql Wp Pagination Idempotency Interactions.
From S2P Require Import InteractionsProps Webhooks.

Local Open Scope Z_scope.

(** ** The interface *)

(** [comms.InteractionCore] *)
Class InteractionCore := {
  core_Get : string -> string -> M Rec;
  core_Transition : string -> string -> Status -> string -> M Rec;
}.

(** What the processor relies on. *)
Class InteractionLaws (C : InteractionCore) : Prop := {
  (** a read changes nothing and returns the tenant's stored row *)
  core_Get_spec e t id s :
    wp (core_Get t id) e s (fun res s' => committed s' = committed s
      /\ forall r, res = Ok r -> sel_interaction t id (committed s) = Some r);
  (** a read succeeds on a stored row when nothing fails *)
  core_Get_live e t id s r :
    healthy e -> sel_interaction t id (committed s) = Some r ->
    fst (core_Get t id e s) = Ok r;
  (** a transition is all or nothing, and legal *)
  core_Transition_spec e t id to reason s :
    wp (core_Transition t id to reason) e s (fun res s' =>
      (committed s' = committed s /\ exists x, res = Err x)
      \/ exists r r', sel_interaction t id (committed s) = Some r
           /\ Interactions.Transition (r_Status r) to = None
           /\ sel_interaction t id (committed s') = Some r' /\ r_Status r' = to
           /\ writes t (committed s) (committed s')
           /\ d_provider_events (committed s') = d_provider_events (committed s));
}.

(** ** provider_event.go *)

Record ProviderEvent := MkProviderEvent {
  ev_Event : string;
  ev_InteractionID : string;
  ev_TenantID : string;
  ev_Timestamp : string;
  ev_Detail : string;
}.

(** The JSON encoder of events, and the clock's text. *)
Class EventJSON := {
  json_event : ProviderEvent -> string + error;
  (** [t.UTC().Format(time.RFC3339Nano)] *)
  rfc3339nano : Z -> string;
}.

(** [(ev *ProviderEvent) Encode]: stamps the time when there is none. *)
Definition EncodeEvent `{EventJSON} (ev : ProviderEvent) (e : env) (s : st) : (string + error) * st :=
  if is_empty (ev_Timestamp ev) then
    (json_event (MkProviderEvent (ev_Event ev) (ev_InteractionID ev) (ev_TenantID ev)
                   (rfc3339nano (clock e (steps s))) (ev_Detail ev)), bump s)
  else (json_event ev, s).

Definition one_of (s : string) (l : list string) : bool := existsb (String.eqb s) l.

(** The status an event moves to. *)
Definition event_status (event : string) : option Status :=
  if one_of event ["call.ringing"; "call.connected"; "message.sent"; "message.delivered"] then
    Some StatusActive
  else if one_of event ["call.ended"; "call.wrapup"; "message.wrapup"] then Some StatusWrapup
  else if one_of event ["message.read"] then Some StatusCompleted
  else if one_of event ["call.failed"; "message.failed"] then Some StatusFailed
  else None.

Section Processor.
Context `{C : InteractionCore}.

(** [uuid.Parse(ev.InteractionID)] *)
Definition parse_uuid (s : string) : M bool := fun e st => (Ok (uuid_valid e s), st).

(** [(p *Processor) Process]; the nil pointer is [None]. *)
Definition Process (ev : option ProviderEvent) : M () :=
  match ev with
  | None =>
      throw (Invalid "comms.malformed_event" "event, interaction_id and tenant_id are required")
  | Some ev =>
      if is_empty (ev_InteractionID ev) || is_empty (ev_TenantID ev) then
        throw (Invalid "comms.malformed_event"
                 "event, interaction_id and tenant_id are required")
      else
      valid ← parse_uuid (ev_InteractionID ev);
      if negb valid then
        throw (Invalid "comms.malformed_event"
                 "interaction_id must be a platform interaction id")
      else
      match event_status (ev_Event ev) with
      | None =>
          throw (Invalid "comms.unknown_event" ("unsupported provider event " +:+ ev_Event ev))
      | Some to =>
          cur ← core_Get (ev_TenantID ev) (ev_InteractionID ev);
          if String.eqb (r_Status cur) to then mret ()
          else
          _ ← core_Transition (ev_TenantID ev) (ev_InteractionID ev) to (ev_Detail ev);
          mret ()
      end
  end.
End Processor.

(** ** consumer.go *)

Record EventConsumerConfig := MkEventConsumerConfig {
  Interval : Z;
  BatchSize : Z;
  MaxAttempts : Z;
}.

Definition defaultInterval : Z := 5 * 1000000000.
Definition defaultBatchSize : Z := 100.
Definition defaultMaxAttempts : Z := 10.

(** [NewEventConsumer]: the effective configuration. *)
Definition NewEventConsumer (cfg : EventConsumerConfig) : EventConsumerConfig :=
  MkEventConsumerConfig
    (if Interval cfg <=? 0 then defaultInterval else Interval cfg)
    (if BatchSize cfg <=? 0 then defaultBatchSize else BatchSize cfg)
    (if MaxAttempts cfg <=? 0 then defaultMaxAttempts else MaxAttempts cfg).

(** The in-memory counter [attempts map[string]int]. *)
Notation Attempts := (gmap string Z).

(** [provider + "\x00" + eventID] *)
Definition attempt_key (provider eventID : string) : string :=
  (provider +:+ String "000"%char eventID).

Definition attempts_of (a : Attempts) (provider eventID : string) : Z :=
  default 0 (a !! attempt_key provider eventID).

(** [ORDER BY received_at, id] *)
Definition ledger_le (a b : ProviderEventRow) : Prop :=
  pe_ReceivedAt a < pe_ReceivedAt b
  \/ (pe_ReceivedAt a = pe_ReceivedAt b /\ String.leb (pe_ID a) (pe_ID b) = true).

#[export] Instance ledger_le_dec a b : Decision (ledger_le a b).
Proof. unfold ledger_le. apply _. Defined.

Definition sel_unprocessed (limit : Z) (d : DB) : list ProviderEventRow :=
  take (Z.to_nat limit)
    (merge_sort ledger_le (List.filter unprocessed (d_provider_events d))).

Section Consumer.
Context `{C : InteractionCore}.
Variable cfg : EventConsumerConfig.
(** [json.Unmarshal(payload, &ev)] *)
Variable decode : string -> option ProviderEvent.

Definition skipped (a : Attempts) (provider eventID : string) : bool :=
  MaxAttempts cfg <=? attempts_of a provider eventID.

Definition recordFailure (a : Attempts) (provider eventID : string) : Attempts :=
  <[attempt_key provider eventID := attempts_of a provider eventID + 1]> a.

Definition apply_event (payload : string) : M () :=
  match decode payload with
  | None =>
      throw (WithCause (Invalid "comms.malformed_event"
               "provider event payload is not a ProviderEvent")
               (OtherErr "json: cannot unmarshal" None))
  | Some ev => Process (Some ev)
  end.

(** One row of the loop: the counter and whether it was applied. *)
Definition drain_row (row : ProviderEventRow) (a : Attempts) : M (Attempts * bool) :=
  if skipped a (pe_Provider row) (pe_ProviderEventID row) then mret (a, false)
  else
  ok ← or_nil (apply_event (pe_Payload row));
  match ok with
  | None => mret (recordFailure a (pe_Provider row) (pe_ProviderEventID row), false)
  | Some _ => _ ← MarkProcessed (pe_ProviderEventID row); mret (a, true)
  end.

Fixpoint drain (rows : list ProviderEventRow) (a : Attempts) (applied : Z) : M (Attempts * Z) :=
  match rows with
  | [] => mret (a, applied)
  | row :: rest =>
      '(a', ok) ← drain_row row a;
      drain rest a' (if ok : bool then wrap64 (applied + 1) else applied)
  end.

(** [Tick]: the counter, the number applied, and the error. [broken] is a
    result stream the driver breaks off after that many rows. *)
Definition Tick (broken : option (nat * error)) (a : Attempts)
    : M (Attempts * Z * option Error) :=
  q ← pool_Query (sel_unprocessed (BatchSize cfg));
  let failed cause :=
    WithCause (Internal "provider_events.read_failed" "ledger drain failed") cause in
  match q with
  | SqlErr x => mret (a, 0, Some (failed (sqlerr_error x)))
  | SqlOk rows =>
      p ← drain (match broken with Some (n, _) => take n rows | None => rows end) a 0;
      mret (p, match broken with Some (_, err) => Some (failed err) | None => None end)
  end.

Definition Backlog : M nat :=
  q ← pool_Query (fun d => length (List.filter unprocessed (d_provider_events d)));
  match q with
  | SqlErr x => throw (WithCause (Internal "db.read_failed" "backlog read failed") (sqlerr_error x))
  | SqlOk n => mret n
  end.
End Consumer.

(** ** The interaction service implements the interface *)

#[export] Instance interaction_core (source : string) : InteractionCore := {
  core_Get := Interactions.Get;
  core_Transition := Interactions.TransitionTo source;
}.

Lemma write_provider_events t d d' : write t d d' -> d_provider_events d' = d_provider_events d.
Proof.
  intros [now id cu ch d0 d1 k Hcu H|now conv cu cvp d0 d1 k Hcvp H|v d0 Hv Hreg
    |now r cv d0 d1 k Ht Hs He Hch Hcu Hcv Hc Hop H|now id d0 d1 k H
    |now id to an en rs r d0 H HT Hen|now id ag qu d0 d1 k H]; try done.
  - by apply ins_conversation_Some in H as [_ ->].
  - by apply ins_participant_Some in H as ->.
  - by apply ins_interaction_Some in H as (_ & _ & -> & _).
  - by apply upd_touch_Some in H as [(c & _ & ->)| ->].
  - by apply upd_assign_Some in H as [(r & _ & _ & ->)|[-> _]].
Qed.

Lemma writes_provider_events t d d' : writes t d d' -> d_provider_events d' = d_provider_events d.
Proof.
  induction 1 as [|d1 d2 d3 H _ IH]; [done|]. rewrite IH. by eapply write_provider_events.
Qed.

#[export] Instance interaction_laws source : InteractionLaws (interaction_core source).
Proof.
  split; simpl.
  - intros e t id s. apply wp_Get; [by intros x; split|]. intros r _ Hr. split; [done|].
    by intros r' [= <-].
  - intros e t id s r Hh Hr. unfold Get, mbind, M_bind, pool_Query.
    by rewrite (healthy_fault _ Hh), Hr.
  - intros e t id to reason s. apply wp_TransitionTo; [by eauto|].
    intros r now tm v n x Hr HT (Hty & Ht & _). simpl.
    set (d' := set_outbox _ _).
    assert (writes t (committed s) d') as Hw.
    { eapply rtc_l; [eapply write_status; [done..|]|apply rtc_once, write_event; [done|]].
      - destruct (Terminal to); [done|]. split; [by intros [? ?]|done].
      - rewrite Hty. apply transition_topic_registered. }
    assert (sel_interaction t id d' = Some (transitioned to reason tm now r)) as Hsel.
    { apply sel_interaction_Some in Hr as [_ Hrt]. apply sel_interaction_Some. simpl.
      by rewrite lookup_insert_eq. }
    split; right; exists r, (transitioned to reason tm now r);
      (repeat split; try done; by eapply writes_provider_events).
Qed.
