(* ===== verification/CommsProps.v ===== *)
(** * internal/comms: theorems

    Proved against the [InteractionCore] interface for any implementation that
    satisfies its laws; the witnesses use the interaction service. *)

From Stdlib Require Import String Ascii.
From S2P Require Import Prelude GoStd AppErrors Events Store Sql Wp Pagination Idempotency Interactions.
From S2P Require Import InteractionsProps Webhooks Comms.

Local Open Scope Z_scope.

(** ** What the consumer may do to the store *)

(** Interaction writes of some tenant, or completion marks on the ledger. *)
Inductive comms_write : DB -> DB -> Prop :=
| cmw_interaction t d d' : write t d d' -> comms_write d d'
| cmw_mark eid now d :
    comms_write d (set_provider_events (map (fun r =>
      if String.eqb (pe_ProviderEventID r) eid && unprocessed r then mark_row now r else r)) d).

Definition comms_writes : DB -> DB -> Prop := rtc comms_write.

Lemma comms_writes_of t d d' : writes t d d' -> comms_writes d d'.
Proof.
  induction 1 as [|d1 d2 d3 H _ IH]; [done|]. eapply rtc_l; [|exact IH]. by eapply cmw_interaction.
Qed.

(** A ledger row keeps its delivery; a mark, once set, stays. *)
Definition ledger_evolves (r r' : ProviderEventRow) : Prop :=
  pe_ID r' = pe_ID r /\ pe_Provider r' = pe_Provider r
  /\ pe_ProviderEventID r' = pe_ProviderEventID r /\ pe_Payload r' = pe_Payload r
  /\ pe_ReceivedAt r' = pe_ReceivedAt r
  /\ (pe_ProcessedAt r <> None -> pe_ProcessedAt r' = pe_ProcessedAt r).

#[export] Instance ledger_evolves_preorder : PreOrder ledger_evolves.
Proof.
  split; [by repeat split|].
  intros r1 r2 r3 (?&?&?&?&?&P1) (?&?&?&?&?&P2). repeat split; try congruence.
  intros Hn. rewrite P2; rewrite P1; auto.
Qed.

Lemma ledger_evolves_refl r : ledger_evolves r r.
Proof. reflexivity. Qed.

Lemma comms_write_ledger d d' :
  comms_write d d' ->
  Forall2 ledger_evolves (d_provider_events d) (d_provider_events d').
Proof.
  intros [t d0 d1 H|eid now d0].
  - rewrite (write_provider_events _ _ _ H). apply Forall_Forall2_diag, Forall_true.
    apply ledger_evolves_refl.
  - simpl. induction (d_provider_events d0) as [|r l IH]; simpl; constructor; [|done].
    destruct (_ && _) eqn:E; [|apply ledger_evolves_refl].
    apply andb_true_iff in E as [_ E]. repeat split. simpl. unfold unprocessed in E.
    by destruct (pe_ProcessedAt r).
Qed.

Lemma comms_writes_ledger d d' :
  comms_writes d d' ->
  Forall2 ledger_evolves (d_provider_events d) (d_provider_events d').
Proof.
  induction 1 as [|d1 d2 d3 H _ IH].
  - apply Forall_Forall2_diag, Forall_true, ledger_evolves_refl.
  - etransitivity; [by apply comms_write_ledger|exact IH].
Qed.

Lemma comms_writes_evolve d d' id r :
  comms_writes d d' -> d_interactions d !! id = Some r ->
  exists r', d_interactions d' !! id = Some r' /\ evolves r r'.
Proof.
  intros H. revert r. induction H as [|d1 d2 d3 H _ IH]; intros r Hr; [by exists r|].
  destruct H as [t d1 d2 H|eid now d1].
  - destruct (write_evolves _ _ _ _ _ H Hr) as (r1 & Hr1 & E1).
    destruct (IH _ Hr1) as (r2 & Hr2 & E2). exists r2. split; [done|]. by etransitivity.
  - by apply IH.
Qed.

(** ** Lemmas: the processor *)

Section Processor.
Context {C : InteractionCore} {L : InteractionLaws C}.

(** The interaction an event is about. *)
Definition target (ev : ProviderEvent) (d : DB) : option Rec :=
  sel_interaction (ev_TenantID ev) (ev_InteractionID ev) d.

Lemma wp_parse_uuid u e s Q : Q (Ok (uuid_valid e u)) s -> wp (parse_uuid u) e s Q.
Proof. done. Qed.

Lemma wp_Process ev e s Q :
  (forall x s', committed s' = committed s -> Q (Err x) s') ->
  (forall to r s', committed s' = committed s -> event_status (ev_Event ev) = Some to ->
    uuid_valid e (ev_InteractionID ev) = true ->
    target ev (committed s) = Some r -> r_Status r = to -> Q (Ok ()) s') ->
  (forall to r res s', event_status (ev_Event ev) = Some to ->
    uuid_valid e (ev_InteractionID ev) = true ->
    target ev (committed s') = Some r -> r_Status r = to ->
    writes (ev_TenantID ev) (committed s) (committed s') ->
    d_provider_events (committed s') = d_provider_events (committed s) -> Q res s') ->
  wp (Process (Some ev)) e s Q.
Proof.
  intros H1 H2 H3. unfold Process. wp_step; [by wp_step; apply H1|].
  wp_step. apply wp_parse_uuid. wp_step; [by wp_step; apply H1|]. apply negb_false_iff in E0.
  wp_step; [|by wp_step; apply H1]. wp_step.
  eapply wp_mono; [apply core_Get_spec|]. intros res s' [Hs Hr]. destruct res as [r|x];
    [|by apply H1].
  specialize (Hr r eq_refl). wp_step.
  - wp_step. apply String.eqb_eq in E2. by eapply H2.
  - wp_step. eapply wp_mono; [apply core_Transition_spec|].
    rewrite Hs. intros res s2 [[Hs2 [x ->]]|(r1 & r' & _ & _ & Hr' & Hto & Hw & Hl)].
    + by apply H1.
    + destruct res as [a|x]; wp_go; by eapply H3.
Qed.

(** ** Lemmas: the drain *)

Context (cfg : EventConsumerConfig) (decode : string -> option ProviderEvent).

(** Counters only grow, and stop at the limit. *)
Definition counted (a a' : Attempts) : Prop :=
  forall p id, attempts_of a p id <= attempts_of a' p id.

Definition bounded (a : Attempts) : Prop :=
  forall p id, attempts_of a p id <= MaxAttempts cfg.

Lemma attempts_recordFailure a p id p' id' :
  attempts_of (recordFailure a p id) p' id'
  = if decide (attempt_key p id = attempt_key p' id') then attempts_of a p id + 1
    else attempts_of a p' id'.
Proof.
  unfold attempts_of at 1, recordFailure. case_decide as E.
  - by rewrite <- E, lookup_insert_eq.
  - by rewrite lookup_insert_ne.
Qed.

Lemma attempts_of_key a p id p' id' :
  attempt_key p id = attempt_key p' id' -> attempts_of a p id = attempts_of a p' id'.
Proof. unfold attempts_of. by intros ->. Qed.

Lemma recordFailure_ok a p id :
  bounded a -> skipped cfg a p id = false ->
  counted a (recordFailure a p id) /\ bounded (recordFailure a p id).
Proof.
  intros Hb Hs. apply Z.leb_gt in Hs. split; intros p' id'; rewrite attempts_recordFailure;
    case_decide as E; try lia; [rewrite (attempts_of_key _ _ _ _ _ E) in *; lia|apply Hb].
Qed.

Lemma wp_apply_event payload e s Q :
  (forall res s', comms_writes (committed s) (committed s') -> Q res s') ->
  wp (apply_event decode payload) e s Q.
Proof.
  intros HQ. unfold apply_event. destruct (decode payload) as [ev|]; [|by apply HQ].
  apply wp_Process.
  - intros x s' Hs'. apply HQ. by rewrite Hs'.
  - intros to r s' Hs' _ _ _ _. apply HQ. by rewrite Hs'.
  - intros to r res s' _ _ _ _ Hw _. apply HQ. by eapply comms_writes_of.
Qed.

Lemma wp_MarkProcessed eid e s Q :
  (forall s', comms_writes (committed s) (committed s') -> Q (Ok ()) s') ->
  wp (MarkProcessed eid) e s Q.
Proof.
  intros HQ. unfold MarkProcessed. wp_go; try by (apply HQ).
  apply HQ. unfold upd_processed in Hx. injection Hx as <- _. simpl. apply rtc_once, cmw_mark.
Qed.

Lemma wp_drain_row row a e s Q :
  bounded a ->
  (skipped cfg a (pe_Provider row) (pe_ProviderEventID row) = true -> Q (Ok (a, false)) s) ->
  (forall a' ok s', skipped cfg a (pe_Provider row) (pe_ProviderEventID row) = false ->
    comms_writes (committed s) (committed s') -> counted a a' -> bounded a' ->
    Q (Ok (a', ok)) s') ->
  wp (drain_row cfg decode row a) e s Q.
Proof.
  intros Hb H1 H2. unfold drain_row. destruct (skipped _ _ _ _) eqn:Es; [by apply H1|].
  wp_step. wp_step. apply wp_apply_event. intros res s' Hw. destruct res as [[]|x].
  - wp_step. apply wp_MarkProcessed. intros s2 Hw2. wp_step. apply H2; [done| |by intros ??|done].
    by etransitivity.
  - wp_step. destruct (recordFailure_ok _ _ _ Hb Es). by apply H2.
Qed.

Lemma wp_drain rows a n e s Q :
  bounded a ->
  (forall a' n' s', comms_writes (committed s) (committed s') -> counted a a' -> bounded a' ->
    (Forall (fun row => skipped cfg a (pe_Provider row) (pe_ProviderEventID row) = true) rows ->
       a' = a /\ n' = n /\ committed s' = committed s) ->
    Q (Ok (a', n')) s') ->
  wp (drain cfg decode rows a n) e s Q.
Proof.
  revert a n s Q. induction rows as [|row rows IH]; intros a n s Q Hb HQ; simpl.
  - wp_step. apply HQ; [done|by intros ??|done|done].
  - wp_step. apply wp_drain_row; [done| |].
    + intros Hs. apply IH; [done|]. intros a' n' s' Hw Hc Hb' Hall. apply HQ; try done.
      intros Hf. inv Hf. by apply Hall.
    + intros a1 ok s1 Hs Hw1 Hc1 Hb1. apply IH; [done|]. intros a' n' s' Hw Hc Hb' _.
      apply HQ; [by etransitivity| |done|].
      * intros p id. etransitivity; [apply Hc1|apply Hc].
      * intros Hf. inv Hf. congruence.
Qed.

(** The rows a tick reads. *)
Definition batch (d : DB) : list ProviderEventRow := sel_unprocessed (BatchSize cfg) d.

Lemma wp_drain_Tick broken a e s Q :
  bounded a ->
  (forall a' n err s', comms_writes (committed s) (committed s') -> counted a a' -> bounded a' ->
    (Forall (fun row => skipped cfg a (pe_Provider row) (pe_ProviderEventID row) = true)
       (batch (committed s)) -> a' = a /\ n = 0 /\ committed s' = committed s) ->
    Q (Ok (a', n, err)) s') ->
  wp (Tick cfg decode broken a) e s Q.
Proof.
  intros Hb HQ. unfold Tick. wp_step. wp_step.
  - wp_simpl. wp_step. apply HQ; [done|by intros ??|done|done].
  - wp_simpl. wp_step. apply wp_drain; [done|]. intros a' n' s' Hw Hc Hb' Hall.
    wp_step. apply HQ; try done. intros HF. apply Hall.
    destruct broken as [[k err]|]; [|done]. by apply Forall_take.
Qed.
End Processor.

(** ** Concrete runs *)

(** An interaction id the environment accepts and a row for it. *)
Definition ledger_row (id payload : string) : ProviderEventRow :=
  MkProviderEventRow id "simulator" ("auto_" +:+ id) payload 0 None.

(** A decoder for the examples: the payload names the event. *)
Definition demo_decode (payload : string) : option ProviderEvent :=
  if is_empty payload then None else Some (MkProviderEvent payload "i1" "t1" "" "").

Definition demo_config : EventConsumerConfig := NewEventConsumer (MkEventConsumerConfig 0 0 0).

Definition db_ledger : DB :=
  set_provider_events (fun _ => [ledger_row "a" "call.ringing"; ledger_row "b" ""]) db_call.

(** ** Properties *)

(** C15. Provider events are idempotent: for any interaction core that meets its
    interface, once an event has been processed successfully, delivering it
    again (while the interaction has not moved on) succeeds and changes
    nothing, so at-least-once delivery has a single effect. *)
Theorem process_idempotent `{L : @InteractionLaws C} ev e s e2 n2 :
  healthy e2 -> uuid_valid e2 = uuid_valid e ->
  let '(res, s') := Process (Some ev) e s in
  res = Ok () ->
  let '(res2, s2) := Process (Some ev) e2 (MkSt (committed s') None n2) in
  res2 = Ok () /\ committed s2 = committed s'.
Proof.
  intros Hh Huv.
  enough (wp (Process (Some ev)) e s (fun res s' => res = Ok () ->
    is_empty (ev_InteractionID ev) || is_empty (ev_TenantID ev) = false
    /\ exists to r, event_status (ev_Event ev) = Some to
      /\ uuid_valid e (ev_InteractionID ev) = true /\ target ev (committed s') = Some r
      /\ r_Status r = to)) as H.
  { unfold wp in H. destruct (Process (Some ev) e s) as [res s']. intros Hres.
    destruct (H Hres) as (Hne & to & r & Hev & Hu & Hr & Hto).
    enough (wp (Process (Some ev)) e2 (MkSt (committed s') None n2) (fun res2 s2 =>
      res2 = Ok () /\ committed s2 = committed s')) as H2 by exact H2.
    unfold Process. rewrite Hne. wp_step. apply wp_parse_uuid. rewrite Huv, Hu, Hev. cbn [negb].
    wp_step. pose proof (core_Get_spec e2 (ev_TenantID ev) (ev_InteractionID ev)
      (MkSt (committed s') None n2)) as Hg.
    pose proof (core_Get_live e2 (ev_TenantID ev) (ev_InteractionID ev)
      (MkSt (committed s') None n2) r Hh Hr) as Hl.
    unfold wp in Hg |- *. destruct (core_Get _ _ _ _) as [r2 s2]. simpl in Hl. subst r2.
    destruct Hg as [Hg _]. rewrite Hto, String.eqb_refl. by split. }
  destruct (is_empty (ev_InteractionID ev) || is_empty (ev_TenantID ev)) eqn:Hne.
  { unfold Process. rewrite Hne. by wp_step. }
  apply wp_Process; [done|..].
  - intros to r s' Hs' Hev Hu Hr Hto _. split; [done|]. exists to, r. by rewrite Hs'.
  - intros to r res s' Hev Hu Hr Hto _ _ _. split; [done|]. by exists to, r.
Qed.

Definition demo_event : ProviderEvent := MkProviderEvent "call.ringing" "i1" "t1" "" "".

Lemma process_idempotent_witness :
  healthy env0
  /\ (exists s', Process (C := interaction_core "worker") (Some demo_event) env0 (MkSt db_call None 0)
        = (Ok (), s') /\ committed s' <> db_call
      /\ exists s2, Process (C := interaction_core "worker") (Some demo_event) env0
           (MkSt (committed s') None 50) = (Ok (), s2) /\ committed s2 = committed s').
Proof.
  split; [apply env0_healthy|].
  pose proof (process_idempotent (L := interaction_laws "worker") demo_event env0
    (MkSt db_call None 0) env0 50 env0_healthy eq_refl) as H.
  destruct (Process (Some demo_event) env0 (MkSt db_call None 0)) as [res s'] eqn:Ep.
  assert (res = Ok ()) as -> by (apply (f_equal fst) in Ep; vm_compute in Ep; congruence).
  specialize (H eq_refl).
  exists s'. split; [reflexivity|]. split.
  - intros E. apply (f_equal (fun p => d_outbox (committed (snd p)))) in Ep. simpl in Ep.
    rewrite E in Ep. vm_compute in Ep. discriminate.
  - destruct (Process (Some demo_event) env0 (MkSt (committed s') None 50)) as [res2 s2].
    destruct H as [-> H]. by exists s2.
Defined.

(** Draining is safe: a tick, under every failure and wherever the result
    stream breaks off, only makes guarded interaction moves and completion
    marks: every ledger row stays with its payload, a processed row stays
    processed, and every interaction evolves forward along its lifecycle. *)
Lemma tick_safe `{L : @InteractionLaws C} cfg decode broken a e s :
  bounded cfg a ->
  let '(res, s') := Tick cfg decode broken a e s in
  Forall2 ledger_evolves (d_provider_events (committed s)) (d_provider_events (committed s'))
  /\ forall id r, d_interactions (committed s) !! id = Some r ->
       exists r', d_interactions (committed s') !! id = Some r' /\ evolves r r'.
Proof.
  intros Hb.
  enough (wp (Tick cfg decode broken a) e s (fun res s' =>
    Forall2 ledger_evolves (d_provider_events (committed s)) (d_provider_events (committed s'))
    /\ forall id r, d_interactions (committed s) !! id = Some r ->
         exists r', d_interactions (committed s') !! id = Some r' /\ evolves r r')) as H by exact H.
  apply wp_drain_Tick; [done|]. intros a' n err s' Hw _ _ _. split.
  - by apply comms_writes_ledger.
  - intros id r. by apply comms_writes_evolve.
Qed.

Lemma empty_bounded cfg : 0 <= MaxAttempts cfg -> bounded cfg ∅.
Proof. intros H p id. unfold attempts_of. by rewrite lookup_empty. Qed.

(** The first tick of the example: one event applied, one counted as failed. *)
Example demo_tick :
  let '(res, s') := Tick (C := interaction_core "worker") demo_config demo_decode None ∅ env0
                      (MkSt db_ledger None 0) in
  match res with
  | Ok (a, n, err) => (n, err, attempts_of a "simulator" "auto_b",
                       r_Status <$> d_interactions (committed s') !! "i1",
                       map unprocessed (d_provider_events (committed s')))
                      = (1, None, 1, Some "active"%string, [false; true])
  | Err _ => False
  end.
Proof. vm_compute. reflexivity. Qed.

Lemma tick_safe_witness :
  bounded demo_config ∅
  /\ forall res s', Tick (C := interaction_core "worker") demo_config demo_decode None ∅ env0
       (MkSt db_ledger None 0) = (res, s') ->
     Forall2 ledger_evolves (d_provider_events db_ledger) (d_provider_events (committed s')).
Proof.
  assert (bounded demo_config ∅) as Hb by (by apply empty_bounded).
  split; [exact Hb|]. intros res s' E.
  pose proof (tick_safe (L := interaction_laws "worker") demo_config demo_decode None ∅ env0
    (MkSt db_ledger None 0) Hb) as H.
  rewrite E in H. exact (proj1 H).
Defined.

(** Poison rows are contained: failure counters only grow and never exceed
    the limit, so an event is attempted at most [MaxAttempts] times in vain;
    and a tick whose whole batch has reached the limit applies nothing and
    changes nothing (the documented head-of-line delay). *)
Lemma poison_rows_bounded `{L : @InteractionLaws C} cfg decode broken a e s :
  bounded cfg a ->
  let '(res, s') := Tick cfg decode broken a e s in
  exists a' n err, res = Ok (a', n, err)
  /\ (forall p id, attempts_of a p id <= attempts_of a' p id <= MaxAttempts cfg)
  /\ (Forall (fun row => skipped cfg a (pe_Provider row) (pe_ProviderEventID row) = true)
        (batch cfg (committed s)) -> a' = a /\ n = 0 /\ committed s' = committed s).
Proof.
  intros Hb.
  enough (wp (Tick cfg decode broken a) e s (fun res s' =>
    exists a' n err, res = Ok (a', n, err)
    /\ (forall p id, attempts_of a p id <= attempts_of a' p id <= MaxAttempts cfg)
    /\ (Forall (fun row => skipped cfg a (pe_Provider row) (pe_ProviderEventID row) = true)
          (batch cfg (committed s)) -> a' = a /\ n = 0 /\ committed s' = committed s))) as H by exact H.
  apply wp_drain_Tick; [done|]. intros a' n err s' _ Hc Hb' Hall. exists a', n, err.
  split; [done|]. split; [|done]. intros p id. split; [apply Hc|apply Hb'].
Qed.

(** Both rows have failed ten times. *)
Definition spent : Attempts :=
  {[attempt_key "simulator" "auto_a" := 10; attempt_key "simulator" "auto_b" := 10]}.

Lemma spent_bounded : bounded demo_config spent.
Proof.
  intros p id. unfold attempts_of, spent. change (MaxAttempts demo_config) with 10.
  destruct (decide (attempt_key p id = attempt_key "simulator" "auto_a")) as [->|N1];
    [by rewrite lookup_insert_eq|]. rewrite lookup_insert_ne by done.
  destruct (decide (attempt_key p id = attempt_key "simulator" "auto_b")) as [->|N2];
    [by rewrite lookup_singleton_eq|]. by rewrite lookup_singleton_ne by done.
Qed.

Lemma poison_rows_bounded_witness :
  bounded demo_config spent
  /\ Forall (fun row => skipped demo_config spent (pe_Provider row) (pe_ProviderEventID row) = true)
       (batch demo_config db_ledger)
  /\ forall res s', Tick (C := interaction_core "worker") demo_config demo_decode None spent env0
       (MkSt db_ledger None 0) = (res, s') -> committed s' = db_ledger.
Proof.
  assert (Forall (fun row => skipped demo_config spent (pe_Provider row) (pe_ProviderEventID row) = true)
       (batch demo_config db_ledger)) as Hs by (vm_compute; repeat constructor).
  split; [apply spent_bounded|]. split; [exact Hs|]. intros res s' E.
  pose proof (poison_rows_bounded (L := interaction_laws "worker") demo_config demo_decode None spent
    env0 (MkSt db_ledger None 0) spent_bounded) as H.
  rewrite E in H. destruct H as (a' & n & err & _ & _ & H).
  exact (proj2 (proj2 (H Hs))).
Defined.
