(* ===== verification/Simulator.v ===== *)
(** * internal/comms/simulator.go: the built-in carrier

    The legs it knows, and its port operations. A delivery goes through the
    signed ingest port; [ingest] is the gateway's [Ingest], as the in-process
    wiring has it. Pacing (sleeping between deliveries) is left out. *)

From Stdlib Require Import String Ascii.
From S2P Require Import Prelude GoStd Text AppErrors Store Interactions Webhooks Comms Planes.
From S2P Require Import Events Sql Wp Idempotency.
From S2P Require Import InteractionsProps CommsProps.

Local Open Scope Z_scope.

Record simLeg := MkSimLeg {
  leg_interactionID : string;
  leg_tenantID : string;
  leg_held : bool;
  leg_transferred : string;
}.

(** [s.legs] *)
Definition legs := gmap string simLeg.

Definition errTenantRequired : error := OtherErr "simulator: tenant context required" None.
Definition errUnknownLeg : error :=
  AppErr (NotFound "simulator.unknown_leg" "simulator: unknown provider leg reference").

Section Simulator.
Variable g : Gateway.
Variable json_valid : string -> bool.
Context `{Unicode} `{EventJSON}.
(** [s.signer] *)
Variable signer : string -> string.

(** The ingest port. *)
Definition ingest (body sig : string) : port legs := fun e w =>
  match Ingest g json_valid "simulator" body sig e w.2 with
  | (Ok _, s') => (None, (w.1, s'))
  | (Err x, s') => (Some (AppErr x), (w.1, s'))
  end.

(** [emit]: an event that does not encode is dropped; a failed delivery is tried
    once more with the same body, its error dropped. *)
Definition sim_emit (ev : ProviderEvent) (e : env) (w : legs * st) : legs * st :=
  let '(enc, s) := EncodeEvent ev e w.2 in
  let w := (w.1, s) in
  match enc with
  | inr _ => w
  | inl body =>
      let sig := signer body in
      let '(r, w1) := ingest body sig e w in
      match r with
      | None => w1
      | Some _ => (ingest body sig e w1).2
      end
  end.

Definition sim_event (event id tenant detail : string) : ProviderEvent :=
  MkProviderEvent event id tenant "" detail.

Definition sim_PlaceCall (cmd : CallCommand) : port legs := fun e w =>
  let tenantID := dict_str (cc_ProviderOptions cmd) "tenant_id" in
  let id := cc_InteractionID cmd in
  if is_empty tenantID then (Some errTenantRequired, w) else
  let w := (<[id := MkSimLeg id tenantID false ""]> w.1, w.2) in
  let w := sim_emit (sim_event "call.ringing" id tenantID "") e w in
  (None, sim_emit (sim_event "call.connected" id tenantID "") e w).

(** [takeLeg] looks the leg up; it stays in the table. *)
Definition sim_Hangup (ref : string) : port legs := fun e w =>
  match w.1 !! ref with
  | None => (Some errUnknownLeg, w)
  | Some leg => (None, sim_emit (sim_event "call.ended" ref (leg_tenantID leg) "hangup") e w)
  end.

Definition sim_Transfer (ref destination : string) : port legs := fun e w =>
  match w.1 !! ref with
  | None => (Some errUnknownLeg, w)
  | Some leg =>
      let leg := MkSimLeg (leg_interactionID leg) (leg_tenantID leg) (leg_held leg) destination in
      (None, sim_emit (sim_event "call.ringing" ref (leg_tenantID leg) ("transfer:" +:+ destination)) e
               (<[ref := leg]> w.1, w.2))
  end.

Definition set_held (held : bool) (ref : string) : port legs := fun e w =>
  match w.1 !! ref with
  | None => (Some errUnknownLeg, w)
  | Some leg =>
      (None, (<[ref := MkSimLeg (leg_interactionID leg) (leg_tenantID leg) held (leg_transferred leg)]> w.1, w.2))
  end.

Definition sim_Hold : string -> port legs := set_held true.
Definition sim_Resume : string -> port legs := set_held false.

Definition sim_Send (msg : Message) : port legs := fun e w =>
  let id := msg_InteractionID msg in
  let tenantID := msg_TenantID msg in
  if is_empty tenantID then (Some errTenantRequired, w) else
  let w := (<[id := MkSimLeg id tenantID false ""]> w.1, w.2) in
  let w := sim_emit (sim_event "message.sent" id tenantID "") e w in
  (None, sim_emit (sim_event "message.delivered" id tenantID "") e w).

#[export] Instance simulator_voice : VoiceProvider legs := {
  vp_PlaceCall := sim_PlaceCall;
  vp_Hangup := sim_Hangup;
  vp_Transfer := sim_Transfer;
  vp_Hold := sim_Hold;
  vp_Resume := sim_Resume;
}.

#[export] Instance simulator_messaging : MessagingProvider legs := {
  mp_Send := sim_Send;
}.
End Simulator.

(** ** The first call, end to end

    The call use-case, the simulator, the webhook gateway, the ledger consumer
    and the interaction service composed: a call that was placed is active
    after the next drain of the ledger. *)

(** ** Freshness is kept by what a run itself draws *)

Lemma fresh_bump e n n' d d' :
  fresh e n d -> (n <= n')%nat -> d_outbox d' = d_outbox d -> fresh e n' d'.
Proof.
  intros [Hi Ho] Hn Hd. split.
  - intros i j Hij. apply Hi. lia.
  - intros i o Hin Hoi. rewrite Hd in Hoi. apply Ho; [lia|done].
Qed.

Lemma fresh_event e n k n' d d' v :
  fresh e n d -> (n <= k < n')%nat -> e_ID v = uuid_of e k ->
  d_outbox d' = d_outbox d ++ [MkOutboxRow v "pending" 0 "" None] -> fresh e n' d'.
Proof.
  intros [Hi Ho] Hn Hv Hd. split.
  - intros i j Hij. apply Hi. lia.
  - intros i o Hin Hoi. rewrite Hd in Hoi. apply elem_of_app in Hoi as [Hoi|Hoi%list_elem_of_singleton].
    + apply Ho; [lia|done].
    + subst o. cbn [ob_Env]. rewrite Hv. intros Hk. symmetry in Hk. apply Hi in Hk; lia.
Qed.

(** ** The consumer on one interaction *)

Section drain.
Context (source : string) (cfg : EventConsumerConfig) (decode : string -> option ProviderEvent).
Context (tenant id : string) (e : env).
#[local] Existing Instance interaction_core.
#[local] Instance the_core : InteractionCore := interaction_core source.

(** The interaction is in one of two statuses. *)
Definition status_in (d : DB) (l : list Status) : Prop :=
  exists r, sel_interaction tenant id d = Some r /\ r_Status r ∈ l.

(** A row for another interaction, or one that activates this one. *)
Definition harmless (row : ProviderEventRow) : Prop :=
  match decode (pe_Payload row) with
  | Some ev => ev_InteractionID ev = id ->
      ev_TenantID ev = tenant /\ event_status (ev_Event ev) = Some StatusActive
  | None => True
  end.

Lemma sel_insert_same d r0 r f :
  sel_interaction tenant id d = Some r0 -> r_TenantID r = r_TenantID r0 ->
  sel_interaction tenant id (set_outbox f (set_interactions (<[id := r]>) d)) = Some r.
Proof.
  intros [_ Ht]%sel_interaction_Some Hr. apply sel_interaction_Some. simpl.
  rewrite lookup_insert_eq. split; [done|congruence].
Qed.

(** Processing an event in an environment without failures. *)
Lemma wp_Process_ok ev s (Q : result () -> st -> Prop) :
  healthy e -> fresh e (steps s) (committed s) ->
  (ev_InteractionID ev = id ->
     ev_TenantID ev = tenant /\ event_status (ev_Event ev) = Some StatusActive) ->
  status_in (committed s) [StatusPending; StatusActive] ->
  (forall res s', fresh e (steps s') (committed s') ->
     status_in (committed s') [StatusPending; StatusActive] ->
     (status_in (committed s) [StatusActive] -> status_in (committed s') [StatusActive]) ->
     (ev_InteractionID ev = id -> uuid_valid e id = true -> id <> "" -> tenant <> "" ->
        res = Ok () /\ status_in (committed s') [StatusActive]) ->
     Q res s') ->
  wp (Process (Some ev)) e s Q.
Proof.
  intros Hh Hfr Hto Hst HQ.
  assert (forall x s', committed s' = committed s -> (steps s <= steps s')%nat ->
    ((ev_InteractionID ev = id -> uuid_valid e id = true -> id <> "" -> tenant <> "" -> False)) -> Q (Err x) s') as Herr.
  { intros x s' Hc Hs Hno. apply HQ; rewrite Hc; [by eapply fresh_bump|done|done|]. by intros ? ? ? ?; destruct Hno. }
  unfold Process. wp_step.
  { wp_step. apply Herr; [done|lia|]. intros Hid Hu Hne Hte. destruct (Hto Hid) as [Ht _].
    apply orb_true_iff in E as [E%is_empty_true|E%is_empty_true]; congruence. }
  apply orb_false_iff in E as [E1%is_empty_false E2%is_empty_false].
  wp_step. apply wp_parse_uuid. wp_step.
  { wp_step. apply Herr; [done|lia|]. intros <- Hu. by rewrite Hu in E. }
  wp_step; [|wp_step; apply Herr; [done|lia|]; intros Hid; destruct (Hto Hid) as [_ Ha]; congruence].
  rename E0 into Eto, s0 into to. wp_step. cbn [core_Get the_core interaction_core].
  unfold Interactions.Get. wp_go; try no_fault Hh.
  - (* same state *)
    apply String.eqb_eq in E3. apply HQ; cbn [committed steps]; [eapply fresh_bump; [done|lia|done]|done|done|].
    intros Hid _ _ _. destruct (Hto Hid) as [Ht Ha]. split; [done|].
    exists r. rewrite <- Hid, <- Ht. split; [done|]. injection Ha as ->.
    rewrite E3. by apply list_elem_of_singleton.
  - (* a transition *)
    rename r into cur. apply wp_TransitionTo_ok; [done|eapply fresh_bump; [exact Hfr|simpl; lia|done]|done|].
    cbn [committed]. rewrite E0. apply String.eqb_neq in E3.
    assert (ev_InteractionID ev = id -> to = StatusActive /\ r_Status cur = StatusPending /\ r_TenantID cur = tenant
            /\ sel_interaction tenant id (committed s) = Some cur) as Hcur.
    { intros Hid. destruct (Hto Hid) as [Ht [= ->]]. destruct Hst as (r & Hr & Hin).
      rewrite Ht, Hid in E0. rewrite E0 in Hr. injection Hr as <-.
      apply sel_interaction_Some in E0 as H'. destruct H' as [_ ?].
      apply elem_of_cons in Hin as [?|?%list_elem_of_singleton]; naive_solver. }
    destruct (Transition (r_Status cur) to) as [x|] eqn:Etr.
    + intros s' Hs' Hn. cbn [steps] in Hn. apply Herr; [done|lia|]. intros Hid _ _ _.
      destruct (Hcur Hid) as (-> & Hp & _). rewrite Hp in Etr. by vm_compute in Etr.
    + intros v k n Hk Hv. cbn [steps] in Hk. wp_step. set (r' := transitioned _ _ _ _ _).
      assert (r_Status r' = to) as Hr' by done.
      set (d' := set_outbox _ _).
      assert (fresh e n d') as Hfr' by (eapply fresh_event; [exact Hfr| |exact Hv|reflexivity]; lia).
      destruct (decide (ev_InteractionID ev = id)) as [Hid|Hid].
      * destruct (Hcur Hid) as (-> & _ & _ & Hsel).
        assert (status_in d' [StatusActive]) as Hd'.
        { exists r'. subst d'. rewrite Hid. split; [by apply (sel_insert_same _ cur)|].
          by apply list_elem_of_singleton. }
        apply HQ; cbn [committed steps]; [done| |done|done].
        destruct Hd' as (r2 & ? & ?%list_elem_of_singleton). exists r2. split; [done|].
        apply elem_of_cons. right. by apply list_elem_of_singleton.
      * assert (forall l, status_in (committed s) l -> status_in d' l) as Hkeep.
        { intros l (r2 & Hr2 & Hl). exists r2. split; [|done]. apply sel_interaction_Some in Hr2 as [Hr2 ?].
          apply sel_interaction_Some. subst d'. simpl. by rewrite lookup_insert_ne. }
        apply HQ; cbn [committed steps]; [done|by apply Hkeep|by apply Hkeep|done].
  - apply Herr; cbn [committed steps]; [done|lia|]. intros Hid _ _ _. destruct (Hto Hid) as [Ht _].
    destruct Hst as (r & Hr & _). rewrite Ht, Hid in E0. congruence.
Qed.

(** ** The drain *)

Lemma attempt_key_inj p p' i i' :
  has_byte p "000" = false -> has_byte p' "000" = false ->
  attempt_key p i = attempt_key p' i' -> p = p' /\ i = i'.
Proof.
  intros H1 H2 He. unfold attempt_key in He.
  pose proof (cut_app p "000" i H1) as C1. pose proof (cut_app p' "000" i' H2) as C2.
  change (cut (p +:+ String "000" i) "000" = (p, Some i)) in C1. rewrite He in C1.
  change (cut (p' +:+ String "000" i') "000" = (p', Some i')) in C2. rewrite C1 in C2. by injection C2 as -> ->.
Qed.

Definition activates (row : ProviderEventRow) : Prop :=
  exists ev, decode (pe_Payload row) = Some ev /\ ev_InteractionID ev = id.

(** One row. *)
Lemma wp_drain_row_ok row a s (Q : result (Attempts * bool) -> st -> Prop) :
  healthy e -> fresh e (steps s) (committed s) -> harmless row ->
  status_in (committed s) [StatusPending; StatusActive] ->
  (forall a' ok s', fresh e (steps s') (committed s') ->
     status_in (committed s') [StatusPending; StatusActive] ->
     (status_in (committed s) [StatusActive] -> status_in (committed s') [StatusActive]) ->
     (forall p i, attempt_key p i <> attempt_key (pe_Provider row) (pe_ProviderEventID row) ->
        attempts_of a' p i = attempts_of a p i) ->
     (activates row -> skipped cfg a (pe_Provider row) (pe_ProviderEventID row) = false ->
        uuid_valid e id = true -> id <> "" -> tenant <> "" -> status_in (committed s') [StatusActive]) ->
     Q (Ok (a', ok)) s') ->
  wp (drain_row cfg decode row a) e s Q.
Proof.
  intros Hh Hfr Hrow Hst HQ. unfold drain_row. destruct (skipped _ _ _ _) eqn:Es.
  { wp_step. by apply HQ. }
  assert (forall p i, attempt_key p i <> attempt_key (pe_Provider row) (pe_ProviderEventID row) ->
    attempts_of (recordFailure a (pe_Provider row) (pe_ProviderEventID row)) p i = attempts_of a p i) as Hrec.
  { intros p i Hne. rewrite attempts_recordFailure. by rewrite decide_False by congruence. }
  wp_step. wp_step. unfold apply_event, harmless, activates in *. destruct (decode (pe_Payload row)) as [ev|].
  - apply wp_Process_ok; [done..|]. intros res s' Hfr' Hst' Hkeep Hact. destruct res as [[]|x].
    + wp_step. unfold MarkProcessed. wp_go; try no_fault Hh; try done.
      unfold upd_processed in Hx. injection Hx as <- <-. apply HQ; cbn [committed steps].
      * eapply fresh_bump; [exact Hfr'|lia|done].
      * done.
      * done.
      * done.
      * intros (ev' & [= <-] & Hid) _ Hu Hn Ht. by apply Hact.
    + wp_step. apply HQ; [done..|]. intros (ev' & [= <-] & Hid) _ Hu Hn Ht. by destruct (Hact Hid Hu Hn Ht).
  - wp_step. wp_step. apply HQ; [done..|]. by intros (ev & ? & _).
Qed.

Lemma wp_drain_ok rows a n s (Q : result (Attempts * Z) -> st -> Prop) :
  healthy e -> fresh e (steps s) (committed s) -> Forall harmless rows ->
  status_in (committed s) [StatusPending; StatusActive] ->
  uuid_valid e id = true -> id <> "" -> tenant <> "" ->
  Forall (fun row => has_byte (pe_Provider row) "000" = false) rows -> ledger_unique rows ->
  (forall a' n' s',
     (status_in (committed s) [StatusActive]
      \/ (exists row, row ∈ rows /\ activates row
            /\ skipped cfg a (pe_Provider row) (pe_ProviderEventID row) = false) ->
      status_in (committed s') [StatusActive]) -> Q (Ok (a', n')) s') ->
  wp (drain cfg decode rows a n) e s Q.
Proof.
  intros Hh Hfr Hrows Hst Hu Hid Ht. revert a n s Q Hfr Hst.
  induction Hrows as [|row rows Hrow _ IH]; intros a n s Q Hfr Hst Hclean Huniq HQ; cbn [drain].
  - wp_step. apply HQ. by intros [?|(row & ?%not_elem_of_nil & _)].
  - inversion_clear Hclean as [|? ? Hc Hcs]. unfold ledger_unique in Huniq. cbn [map] in Huniq.
    apply NoDup_cons in Huniq as [Hnew Huniq].
    wp_step. apply wp_drain_row_ok; [done..|]. intros a1 ok s1 Hfr1 Hst1 Hk1 Ha1 Hact1.
    apply IH; [done..|]. intros a' n' s' Hres. apply HQ. intros Hcase. apply Hres.
    destruct Hcase as [Hs|(row' & [->|Hin]%elem_of_cons & Hact & Hsk)].
    + left. by apply Hk1.
    + left. by apply Hact1.
    + right. exists row'. split_and!; [done..|]. unfold skipped in *. rewrite Ha1; [done|].
      intros Heq. apply attempt_key_inj in Heq as [Hp Hi]; [|by eapply Forall_forall in Hcs|done].
      apply Hnew. apply list_elem_of_fmap. exists row'. by rewrite Hp, Hi.
Qed.
End drain.

(** ** The simulator's deliveries *)

Section deliver.
Context `{Unicode} `{EventJSON} (g : Gateway) (json_valid : string -> bool) (signer : string -> string).

(** The event with the time [Encode] stamped. *)
Definition stamped (t : string) (ev : ProviderEvent) : ProviderEvent :=
  MkProviderEvent (ev_Event ev) (ev_InteractionID ev) (ev_TenantID ev) t (ev_Detail ev).

(** A body an event without a time is delivered as. *)
Definition body_of (ev : ProviderEvent) (body : string) : Prop := exists now, json_event (stamped (rfc3339nano now) ev) = inl body.

Lemma EncodeEvent_stamped ev e s : ev_Timestamp ev = "" ->
  EncodeEvent ev e s = (json_event (stamped (rfc3339nano (clock e (steps s))) ev), bump s).
Proof. intros Ht. unfold EncodeEvent. by rewrite Ht. Qed.

(** The key a delivery is stored under. *)
Definition delivery_key (body : string) : string := Derive ["webhook"; "simulator"; body].

(** The event encodes, whenever that is, and the gateway takes the body. *)
Definition deliverable (ev : ProviderEvent) : Prop :=
  forall now, exists body, json_event (stamped (rfc3339nano now) ev) = inl body
    /\ body <> "" /\ Z.of_nat (String.length body) <= MaxPayloadBytes /\ json_valid body = true.

(** The gateway trusts the simulator: the platform secret signs, and no
    verifier is installed for it. *)
Record trusted : Prop := {
  tr_verifier : g_verifiers g !! normalizeProvider "simulator" = None;
  tr_secret : g_secret g <> "";
  tr_signer : forall body, signer body = ComputeSignature (g_secret g) body;
}.

(** The ledger with at most these deliveries added. *)
Inductive delivered (evs : list ProviderEvent) (d d' : DB) : Prop :=
| delivered_rows rows :
    d' = set_provider_events (fun l => l ++ rows) d ->
    Forall (fun row => pe_Provider row = "simulator" /\ unprocessed row = true
                       /\ exists ev, ev ∈ evs /\ body_of ev (pe_Payload row)
                                     /\ pe_ProviderEventID row = delivery_key (pe_Payload row)) rows ->
    (ledger_unique (d_provider_events d) -> ledger_unique (d_provider_events d')) ->
    delivered evs d d'.

Lemma delivered_refl evs d : delivered evs d d.
Proof. apply (delivered_rows _ _ _ []); [|constructor|done]. destruct d. unfold set_provider_events. cbn. by rewrite app_nil_r. Qed.

Lemma delivered_trans evs1 evs2 d1 d2 d3 :
  delivered evs1 d1 d2 -> delivered evs2 d2 d3 -> delivered (evs1 ++ evs2) d1 d3.
Proof.
  intros [r1 -> F1 U1] [r2 -> F2 U2]. apply (delivered_rows _ _ _ (r1 ++ r2)).
  - destruct d1. unfold set_provider_events. cbn. by rewrite app_assoc.
  - apply Forall_app. split; [eapply Forall_impl; [exact F1|]|eapply Forall_impl; [exact F2|]];
      intros row (? & ? & ev & ? & ?); split_and!; [done..| |done|done|];
      exists ev; split; [apply elem_of_app; auto|done|apply elem_of_app; auto|done].
  - auto.
Qed.

(** One call of the port. *)
Lemma ingest_delivers ev body e p s : body_of ev body ->
  exists r s', ingest g json_valid body (signer body) e (p, s) = (r, (p, s')) /\ delivered [ev] (committed s) (committed s').
Proof.
  intros Hbody. unfold ingest. cbn [fst snd].
  enough (wp (Ingest g json_valid "simulator" body (signer body)) e s
            (fun _ s' => delivered [ev] (committed s) (committed s'))) as Hw.
  { unfold wp in Hw. destruct (Ingest _ _ _ _ _ _ _) as [[?|?] s']; eauto. }
  unfold Ingest. apply wp_IngestHeaders.
  - intros x s' ->. apply delivered_refl.
  - intros r s' _ _ _ _ [(-> & _)|(id & now & _ & Hex & Hs')]; [apply delivered_refl|].
    apply (delivered_rows _ _ _ [MkProviderEventRow id "simulator" (delivery_key body) body now None]);
      [done| |].
    + repeat constructor. exists ev. split; [by apply list_elem_of_singleton|done].
    + rewrite Hs'. intros Hu. unfold ledger_unique. cbn [d_provider_events set_provider_events].
      rewrite map_app. apply NoDup_app. split; [done|]. split; [|apply NoDup_singleton].
      intros x Hx ->%list_elem_of_singleton. apply existsb_same_event in Hx. discriminate (eq_trans (eq_sym Hx) Hex).
Qed.

Lemma sim_emit_delivers ev e p s : ev_Timestamp ev = "" ->
  exists s', sim_emit g json_valid signer ev e (p, s) = (p, s')
             /\ delivered [ev] (committed s) (committed s').
Proof.
  intros Ht. unfold sim_emit. cbn [fst snd]. rewrite EncodeEvent_stamped by done.
  destruct (json_event _) as [body|err] eqn:E; [|eexists; split; [done|apply delivered_refl]].
  assert (body_of ev body) as Hb by (by eexists). clear E.
  destruct (ingest_delivers ev body e p (bump s) Hb) as (r & s1 & -> & H1). destruct r as [err|]; [|by eexists].
  destruct (ingest_delivers ev body e p s1 Hb) as (r2 & s2 & -> & H2). exists s2. split; [done|].
  pose proof (delivered_trans _ _ _ _ _ H1 H2) as [rows Hd F Hu].
  apply (delivered_rows _ _ _ rows); [done| |done]. eapply Forall_impl; [exact F|].
  intros row (? & ? & ev' & Hin & ?). split_and!; [done..|]. exists ev'. split; [|done].
  apply elem_of_app in Hin. set_solver.
Qed.

(** A first delivery that nothing disturbs lands in the ledger. *)
Lemma sim_emit_lands ev e p s :
  ev_Timestamp ev = "" -> trusted -> deliverable ev -> healthy e ->
  (forall body, body_of ev body ->
     existsb (same_event "simulator" (delivery_key body)) (d_provider_events (committed s)) = false) ->
  (forall row i, row ∈ d_provider_events (committed s) -> pe_ID row <> uuid_of e i) ->
  exists s' id now body, body_of ev body /\ sim_emit g json_valid signer ev e (p, s) = (p, s')
    /\ committed s' = set_provider_events
         (fun l => l ++ [MkProviderEventRow id "simulator" (delivery_key body) body now None]) (committed s).
Proof.
  intros Ht [Hv Hs Hsig] Hdel Hh Hnewb Hids. unfold sim_emit, ingest. cbn [fst snd].
  rewrite EncodeEvent_stamped by done. destruct (Hdel (clock e (steps s))) as (body & Henc & Hb & Hl & Hj). rewrite Henc.
  assert (body_of ev body) as Hof by (by eexists). specialize (Hnewb body Hof). rename Hnewb into Hnew. clear Henc.
  change (committed s) with (committed (bump s)) in Hnew, Hids |- *. generalize dependent (bump s). clear s. intros s Hnew Hids.
  enough (wp (Ingest g json_valid "simulator" body (signer body)) e s
    (fun r s' => exists a id now, r = Ok a /\ committed s' = set_provider_events
         (fun l => l ++ [MkProviderEventRow id "simulator" (delivery_key body) body now None]) (committed s))) as Hw.
  { unfold wp in Hw. destruct (Ingest _ _ _ _ _ _ _) as [r s']. destruct Hw as (a & id & now & -> & Hc).
    exists s', id, now, body. done. }
  unfold Ingest, IngestHeaders. cbn [is_empty].
  change (is_empty "simulator" || (64 <? Z.of_nat (String.length "simulator"))) with false. cbv iota.
  rewrite (proj2 (is_empty_false _) Hb). rewrite (proj2 (Z.ltb_ge _ _)) by done.
  assert (authorized g "simulator" (body)
    (if is_empty (signer (body)) then ∅ else {[SignatureHeader := signer (body)]}) = true) as ->.
  { unfold authorized. replace (g_verifiers g !! normalizeProvider "simulator") with (@None VerifyFunc).
    rewrite header_get_single. unfold ValidateSignature. rewrite (proj2 (is_empty_false _) Hs), Hsig.
    apply String.eqb_refl. }
  cbn [negb]. unfold persistEvent. rewrite Hj. cbv zeta. fold (delivery_key body).
  wp_go; try no_fault Hh.
  all: unfold ins_provider_event in Hx; cbn [committed] in *; change (committed (bump s)) with (committed s) in Hx; rewrite Hnew in Hx;
    destruct (existsb _ _) eqn:Hex in Hx; simplify_eq.
  - apply existsb_exists in Hex as (row & Hin & Hid). apply String.eqb_eq in Hid.
    apply list_elem_of_In in Hin. by destruct (Hids _ _ Hin Hid).
  - do 3 eexists. split; [done|]. done.
Qed.
End deliver.

(** ** Placing a call *)

Section place.
Context `{Unicode} `{EventJSON} (source : string) (g : Gateway) (json_valid : string -> bool) (signer : string -> string).
#[local] Instance sim : VoiceProvider legs := simulator_voice g json_valid signer.

Definition ringing (id tenant : string) : ProviderEvent := sim_event "call.ringing" id tenant "".
Definition connected (id tenant : string) : ProviderEvent := sim_event "call.connected" id tenant "".

Lemma dict_str_set m k v : dict_str (dict_set m k (VStr v)) k = v.
Proof. unfold dict_str, dict_set. cbn [dict_get]. by rewrite String.eqb_refl. Qed.

(** A placed call: a pending interaction, and its two deliveries handed to the
    gateway, the first of which is in the ledger when nothing fails. *)
Lemma wpw_PlaceCall tenant i e p s (Q : Rec + error -> legs * st -> Prop) :
  healthy e -> trusted g signer -> tenant <> "" ->
  (forall row i, row ∈ d_provider_events (committed s) -> pe_ID row <> uuid_of e i) ->
  (forall x w', Q (inr x) w') ->
  (forall r p' s' d1,
     sel_interaction tenant (r_ID r) (committed s') = Some r -> r_Status r = StatusPending ->
     d_provider_events d1 = d_provider_events (committed s) ->
     delivered [ringing (r_ID r) tenant; connected (r_ID r) tenant] d1 (committed s') ->
     (deliverable json_valid (ringing (r_ID r) tenant) ->
      (forall body, body_of (ringing (r_ID r) tenant) body ->
         existsb (same_event "simulator" (delivery_key body)) (d_provider_events (committed s)) = false) ->
      exists id now body, body_of (ringing (r_ID r) tenant) body
        /\ MkProviderEventRow id "simulator" (delivery_key body) body now None ∈ d_provider_events (committed s')) ->
     Q (inl r) (p', s')) ->
  wpw (PlaceCall source tenant i) e (p, s) Q.
Proof.
  intros Hh Htr Hte Hids HE HO. unfold PlaceCall. cbv zeta.
  do 2 (wpw_step; [wpw_step; apply HE|]). wpw_step. wpw_step.
  apply wp_Create; [by intros; apply HE|by intros r s' _ Hne|].
  intros r s' Hw Hnew Hi _ (id & conv & now & i' & _ & ->). set (rec := new_rec _ _ _ _ _ _) in *.
  assert (sel_interaction tenant (r_ID rec) (committed s') = Some rec) as Hsel.
  { apply sel_interaction_Some. rewrite Hi, lookup_insert_eq. done. }
  assert (r_Status rec = StatusPending) as Hpend by done.
  pose proof (writes_provider_events _ _ _ Hw) as Hl. clear Hw Hi Hnew. clearbody rec.
  enough (forall r s', sel_interaction tenant (r_ID r) (committed s') = Some r -> r_Status r = StatusPending ->
    d_provider_events (committed s') = d_provider_events (committed s) ->
    wpw (res ← call_port (vp_PlaceCall (MkCallCommand (r_ID r)
             (if is_empty (pc_From i) then "orvexa-voice" else pc_From i) (pc_To i)
             (dict_set (pc_Options i) "tenant_id" (VStr tenant))));
         match res with
         | Some err =>
             _ ← try (lift (TransitionTo source tenant (r_ID r) StatusFailed "provider_place_failed"));
             fail (AppErr (WithCause (Internal "call.provider_failed" "provider rejected the call") err))
         | None => lift (Interactions.Get tenant (r_ID r))
         end) e (p, s') Q) as Hgo.
  { wpw_step. wpw_step; [|wpw_step; by apply Hgo].
    wpw_step. apply wp_Assign; [by intros; apply HE|].
    intros res r now2 s2 Hr _ Hi2 Hw2 [->|[x ->]]; [|apply HE]. rewrite Hsel in Hr. injection Hr as <-.
    apply Hgo; [|done|].
    - apply sel_interaction_Some. rewrite Hi2. cbn [r_ID set_assignee]. rewrite lookup_insert_eq.
      by apply sel_interaction_Some in Hsel as [_ ?].
    - rewrite <- Hl. by eapply writes_provider_events. }
  clear Hsel Hl Hpend rec s'. intros r s' Hsel Hpend Hl. wpw_step. wpw_step.
  unfold vp_PlaceCall, sim, simulator_voice, sim_PlaceCall. cbn [cc_ProviderOptions cc_InteractionID fst snd].
  rewrite dict_str_set, (proj2 (is_empty_false _) Hte).
  destruct (sim_emit_delivers g json_valid signer (ringing (r_ID r) tenant) e
              (<[r_ID r := MkSimLeg (r_ID r) tenant false ""]> p) s' eq_refl) as (s1 & E1 & D1).
  change (sim_event "call.ringing" (r_ID r) tenant "") with (ringing (r_ID r) tenant). rewrite E1.
  destruct (sim_emit_delivers g json_valid signer (connected (r_ID r) tenant) e
              (<[r_ID r := MkSimLeg (r_ID r) tenant false ""]> p) s1 eq_refl) as (s2 & E2 & D2).
  change (sim_event "call.connected" (r_ID r) tenant "") with (connected (r_ID r) tenant). rewrite E2.
  wpw_step. apply wp_Get; [by intros; apply HE|]. intros r2 _ Hr2.
  pose proof (delivered_trans _ _ _ _ _ D1 D2) as D.
  assert (forall d d', delivered [ringing (r_ID r) tenant] d d' \/ delivered [connected (r_ID r) tenant] d d' ->
    sel_interaction tenant (r_ID r) d' = sel_interaction tenant (r_ID r) d) as Hkeep
    by (by intros d d' [[rows -> _ _]|[rows -> _ _]]).
  assert (sel_interaction tenant (r_ID r) (committed s2) = Some r) as Hsel2
    by (rewrite (Hkeep _ _ (or_intror D2)), (Hkeep _ _ (or_introl D1)); done).
  rewrite Hsel2 in Hr2. injection Hr2 as <-. eapply HO; cbn [committed bump]; [done|done|exact Hl|exact D|].
  intros Hdel Hnew. rewrite <- Hl in Hnew.
  destruct (sim_emit_lands g json_valid signer (ringing (r_ID r) tenant) e
              (<[r_ID r := MkSimLeg (r_ID r) tenant false ""]> p) s') as (s1' & rid & at_ & body & Hbody & E1' & Hs1); [done..| |].
  { intros row k Hrow. rewrite Hl in Hrow. by apply Hids. }
  rewrite E1 in E1'. injection E1' as <-. exists rid, at_, body. split; [done|]. destruct D2 as [rows -> _ _]. cbn [d_provider_events set_provider_events].
  apply elem_of_app. left. rewrite Hs1. cbn [d_provider_events set_provider_events]. apply elem_of_app. right.
  by apply list_elem_of_singleton.
Qed.

Context (cfg : EventConsumerConfig) (decode : string -> option ProviderEvent).

(** What the ledger holds before the call: one row per event, provider names
    without NUL bytes, and nothing about the interaction. *)
Record quiet (id : string) (d : DB) : Prop := {
  qt_unique : ledger_unique (d_provider_events d);
  qt_names : Forall (fun row => has_byte (pe_Provider row) "000" = false) (d_provider_events d);
  qt_foreign : Forall (fun row => match decode (pe_Payload row) with
                                  | Some ev => ev_InteractionID ev <> id | None => True end)
                 (d_provider_events d);
}.

(** The batch of a tick that has room for every pending row. *)
Lemma sel_unprocessed_all d row :
  (length (List.filter unprocessed (d_provider_events d)) <= Z.to_nat (BatchSize cfg))%nat ->
  (row ∈ sel_unprocessed (BatchSize cfg) d <-> row ∈ d_provider_events d /\ unprocessed row = true).
Proof.
  intros Hb. unfold sel_unprocessed. rewrite take_ge.
  - rewrite merge_sort_Permutation. rewrite !list_elem_of_In, filter_In. done.
  - by rewrite (Permutation_length (merge_sort_Permutation _ _)).
Qed.

Lemma sel_unprocessed_unique d :
  ledger_unique (d_provider_events d) -> ledger_unique (sel_unprocessed (BatchSize cfg) d).
Proof.
  unfold ledger_unique, sel_unprocessed. intros Hu. rewrite <- firstn_map.
  enough (NoDup (map (fun r => (pe_Provider r, pe_ProviderEventID r))
                   (merge_sort ledger_le (List.filter unprocessed (d_provider_events d))))) as Hm.
  { rewrite <- (take_drop (Z.to_nat (BatchSize cfg)) (map _ _)) in Hm. by apply NoDup_app in Hm as [? _]. }
  rewrite (Permutation_map _ (merge_sort_Permutation _ _)).
  clear -Hu. induction (d_provider_events d) as [|r l IH]; [done|]. cbn [map List.filter] in *.
  apply NoDup_cons in Hu as [Hr Hu]. destruct (unprocessed r); [|auto]. cbn [map]. apply NoDup_cons. split; [|auto].
  intros Hin. apply Hr. apply list_elem_of_fmap in Hin as (x & Hx & Hin). apply list_elem_of_fmap. exists x.
  split; [done|]. apply list_elem_of_In, filter_In in Hin as [Hin _]. by apply list_elem_of_In.
Qed.

(** C22. A placed call becomes active. In a deployment whose gateway trusts the
    simulator, when no call fails: a call [PlaceCall] accepted is active after
    the next [Tick] of the ledger consumer that has room for the pending rows,
    through the two signed webhooks the simulator delivers. *)
Theorem placed_call_goes_active tenant i e p s rec p' s' e2 n2 a
    (Hh : healthy e) (Htr : trusted g signer) (Hte : tenant <> "")
    (Hids : forall row k, row ∈ d_provider_events (committed s) -> pe_ID row <> uuid_of e k)
    (Hplace : PlaceCall source tenant i e (p, s) = (inl rec, (p', s')))
    (Hdel : deliverable json_valid (ringing (r_ID rec) tenant))
    (Hcodec : forall ev body now, ev = ringing (r_ID rec) tenant \/ ev = connected (r_ID rec) tenant ->
                json_event (stamped (rfc3339nano now) ev) = inl body -> decode body = Some (stamped (rfc3339nano now) ev))
    (Hnew : forall body, body_of (ringing (r_ID rec) tenant) body ->
              existsb (same_event "simulator" (delivery_key body)) (d_provider_events (committed s)) = false)
    (Hquiet : quiet (r_ID rec) (committed s))
    (Hh2 : healthy e2) (Hfr2 : fresh e2 n2 (committed s'))
    (Hvalid : uuid_valid e2 (r_ID rec) = true) (Hne : r_ID rec <> "")
    (Hbatch : (length (List.filter unprocessed (d_provider_events (committed s')))
               <= Z.to_nat (BatchSize cfg))%nat)
    (Hattempts : forall body, body_of (ringing (r_ID rec) tenant) body ->
                   skipped cfg a "simulator" (delivery_key body) = false) :
  let s2 := (Tick (C := interaction_core source) cfg decode None a e2 (MkSt (committed s') None n2)).2 in
  exists r, sel_interaction tenant (r_ID rec) (committed s2) = Some r /\ r_Status r = StatusActive.
Proof.
  pose proof (wpw_PlaceCall tenant i e p s (fun r w' => r = inl rec -> w' = (p', s') ->
    sel_interaction tenant (r_ID rec) (committed s') = Some rec /\ r_Status rec = StatusPending
    /\ exists d1, d_provider_events d1 = d_provider_events (committed s)
       /\ delivered [ringing (r_ID rec) tenant; connected (r_ID rec) tenant] d1 (committed s')
       /\ exists id now body, body_of (ringing (r_ID rec) tenant) body
            /\ MkProviderEventRow id "simulator" (delivery_key body) body now None ∈ d_provider_events (committed s'))) as Hp.
  specialize (Hp Hh Htr Hte Hids). unfold wpw in Hp. rewrite Hplace in Hp.
  destruct Hp as (Hsel & Hpend & d1 & Hd1 & [rows Hs' Hrows Hu] & rid & at_ & body & Hbody & Hrow); [done| |done..|].
  { intros r p2 s2 d1 Hsel Hpend Hd1 Hd Hl [= ->] [= -> ->]. split_and!; [done..|]. exists d1. auto. }
  destruct Hquiet as [Q1 Q2 Q3]. rewrite <- Hd1 in Q1, Q2, Q3.
  assert (d_provider_events (committed s') = d_provider_events d1 ++ rows) as Hl by (by rewrite Hs').
  cbv zeta.
  enough (wp (Tick (C := interaction_core source) cfg decode None a) e2 (MkSt (committed s') None n2)
    (fun _ s2 => status_in tenant (r_ID rec) (committed s2) [StatusActive])) as Hw.
  { unfold wp in Hw. destruct (Tick _ _ _ _ _ _) as [r2 s2]. cbn [snd].
    destruct Hw as (r & ? & ?%list_elem_of_singleton). eauto. }
  unfold Tick. wp_step. wp_step; [no_fault Hh2|]. wp_simpl. wp_step.
  assert (Forall (harmless decode tenant (r_ID rec)) (d_provider_events (committed s'))) as Hharm.
  { rewrite Hl. apply Forall_app. split.
    - eapply Forall_impl; [exact Q3|]. intros row. unfold harmless. destruct (decode _); [|done]. intros ? ?. congruence.
    - eapply Forall_impl; [exact Hrows|]. intros row (_ & _ & ev & Hev & (now & Hpay) & _). unfold harmless. rewrite (Hcodec ev _ now) by (done || (apply elem_of_cons in Hev as [?|?%list_elem_of_singleton]; auto)).
      apply elem_of_cons in Hev as [->|Hev%list_elem_of_singleton]; [|subst ev]; done. }
  set (batch := sel_unprocessed _ _).
  assert (forall row, row ∈ batch -> row ∈ d_provider_events (committed s')) as Hsub
    by (intros row Hin; apply sel_unprocessed_all in Hin as [? _]; [done|lia]).
  eapply (wp_drain_ok source cfg decode tenant (r_ID rec)); [done|eapply fresh_bump; [exact Hfr2|simpl; lia|done]| | |done..| | |].
  - apply Forall_forall. intros row Hin. eapply Forall_forall in Hharm; [exact Hharm|by apply Hsub].
  - exists rec. split; [done|]. rewrite Hpend. by left.
  - apply Forall_forall. intros row Hin%Hsub. rewrite Hl in Hin. apply elem_of_app in Hin as [Hin|Hin].
    + by eapply Forall_forall in Q2.
    + eapply Forall_forall in Hrows as [-> _]; [|exact Hin]. done.
  - apply sel_unprocessed_unique. auto.
  - intros a' n' s2 Hres. wp_step. apply Hres. right.
    eexists. split; [apply sel_unprocessed_all; [lia|]; split; [exact Hrow|done]|].
    split; [|by apply Hattempts]. destruct Hbody as [now Hbody]. eexists. cbn [pe_Payload]. by rewrite (Hcodec _ _ _ (or_introl eq_refl) Hbody).
Qed.
End place.

(** ** A deployment *)

(** A codec for the example: the fields one after the other. *)
#[local] Instance demo_unicode : Unicode := {| unicode_ToLower := fun s => s |}.

#[local] Instance demo_json : EventJSON := {|
  json_event ev :=
    if has_byte (ev_Event ev +:+ ev_InteractionID ev +:+ ev_TenantID ev +:+ ev_Timestamp ev) "|" then
      inr (OtherErr "reserved byte" None)
    else inl (ev_Event ev +:+ String "|" (ev_InteractionID ev +:+ String "|" (ev_TenantID ev
              +:+ String "|" (ev_Timestamp ev +:+ String "|" (ev_Detail ev)))));
  rfc3339nano _ := "2026-01-01T00:00:00Z";
|}.

Definition demo_parse (payload : string) : option ProviderEvent :=
  match cut payload "|" with
  | (event, Some rest) =>
      match cut rest "|" with
      | (id, Some rest) =>
          match cut rest "|" with
          | (tenant, Some rest) =>
              match cut rest "|" with
              | (ts, Some detail) => Some (MkProviderEvent event id tenant ts detail)
              | _ => None
              end
          | _ => None
          end
      | _ => None
      end
  | _ => None
  end.

Lemma demo_codec ev body : json_event ev = inl body -> demo_parse body = Some ev.
Proof.
  destruct ev as [n i t ts dt]. cbn [json_event demo_json ev_Event ev_InteractionID ev_TenantID ev_Timestamp ev_Detail].
  destruct (has_byte _ _) eqn:E; [done|]. intros [= <-]. rewrite !has_byte_app, !orb_false_iff in E.
  destruct E as (E1 & E2 & E3 & E4). unfold demo_parse.
  rewrite (cut_app n "|"), (cut_app i "|"), (cut_app t "|"), (cut_app ts "|") by done. done.
Qed.

Definition demo_place : (Rec + error) * (legs * st) :=
  PlaceCall (H := sim demo_gateway (fun _ => true) (ComputeSignature "s3cret"))
    "api" "t1" (MkPlaceCallInput "c1" "" "+254711" "" "" []) env0 (∅, MkSt db_start None 0).

Definition rec_of (r : Rec + error) : Rec := match r with inl r => r | inr _ => row1 end.
Definition demo_rec : Rec := rec_of demo_place.1.

Lemma demo_place_ok :
  PlaceCall (H := sim demo_gateway (fun _ => true) (ComputeSignature "s3cret"))
    "api" "t1" (MkPlaceCallInput "c1" "" "+254711" "" "" []) env0 (∅, MkSt db_start None 0)
  = (inl demo_rec, (demo_place.2.1, demo_place.2.2)).
Proof.
  fold demo_place.
  assert (match demo_place.1 with inl _ => true | inr _ => false end = true) as Hok by (vm_compute; reflexivity).
  unfold demo_rec. destruct demo_place as [[r|x] [p s]]; [reflexivity|discriminate Hok].
Qed.

Definition demo_tick : EventConsumerConfig := MkEventConsumerConfig 0 2 1.

Lemma demo_fresh : fresh env0 100 (committed demo_place.2.2).
Proof.
  assert (map (fun o => e_ID (ob_Env o)) (d_outbox (committed demo_place.2.2))
          = map (uuid_of env0) [8%nat; 13%nat]) as Hids by (vm_compute; reflexivity).
  split; [intros i j _; apply env0_inj|]. intros i o Hi Ho He.
  apply (list_elem_of_fmap_2 (fun o => e_ID (ob_Env o))) in Ho. change (fmap ?f ?l) with (map f l) in Ho.
  rewrite Hids, He in Ho. apply list_elem_of_fmap in Ho as (k & Hk%env0_inj & Hin).
  subst k. apply elem_of_cons in Hin as [->|Hin%list_elem_of_singleton]; lia.
Qed.

Lemma demo_deliverable : deliverable (fun _ => true) (ringing "id-1" "t1").
Proof.
  intros now. exists "call.ringing|id-1|t1|2026-01-01T00:00:00Z|". repeat split; [discriminate|vm_compute; discriminate].
Qed.

Lemma placed_call_goes_active_witness :
  PlaceCall (H := sim demo_gateway (fun _ => true) (ComputeSignature "s3cret"))
    "api" "t1" (MkPlaceCallInput "c1" "" "+254711" "" "" []) env0 (∅, MkSt db_start None 0)
  = (inl demo_rec, (demo_place.2.1, demo_place.2.2))
  /\ let s2 := (Tick (C := interaction_core "api") demo_tick demo_parse None ∅ env0
                  (MkSt (committed demo_place.2.2) None 100)).2 in
     exists r, sel_interaction "t1" (r_ID demo_rec) (committed s2) = Some r /\ r_Status r = StatusActive.
Proof.
  split; [exact demo_place_ok|].
  assert (r_ID demo_rec = "id-1") as Hid by (vm_compute; reflexivity).
  refine (placed_call_goes_active "api" demo_gateway (fun _ => true) (ComputeSignature "s3cret")
    demo_tick demo_parse "t1" (MkPlaceCallInput "c1" "" "+254711" "" "" []) env0 ∅ (MkSt db_start None 0)
    demo_rec demo_place.2.1 demo_place.2.2 env0 100 ∅ env0_healthy _ _ _ demo_place_ok _ _ _ _
    env0_healthy _ _ _ _ _).
  - split; [reflexivity|discriminate|reflexivity].
  - discriminate.
  - intros row k Hin. exfalso. exact (not_elem_of_nil _ Hin).
  - rewrite Hid. apply demo_deliverable.
  - intros ev body now _. apply demo_codec.
  - intros body _. reflexivity.
  - split; constructor.
  - exact demo_fresh.
  - rewrite Hid. reflexivity.
  - rewrite Hid. discriminate.
  - apply Nat.leb_le. vm_compute. reflexivity.
  - intros body _. unfold skipped, attempts_of. by rewrite lookup_empty.
Defined.
