(* ===== verification/Routing.v ===== *)
(** * internal/routing: the engine, the service and the presence cache

    The engine scores agents in binary64 as the Go code does. The service
    reads availability through the [PresenceReader] interface; presence.go's
    store is modelled with its cache as explicit state. *)

From Stdlib Require Import String Ascii.
From S2P Require Import Prelude GoStd Float64 AppErrors Events Store Sql Wp Pagination.

Local Open Scope Z_scope.

(** ** The engine *)

Record Request := MkRequest {
  rq_InteractionID : string;
  rq_RequiredSkills : list string;
  rq_Language : string;
  rq_Priority : Z;
  rq_QueueID : string;
}.

Record AgentView := MkAgentView {
  av_ID : string;
  av_DisplayName : string;
  av_Language : string;
  av_Skills : list string;
  av_QueueID : string;
}.

Record Candidate := MkCandidate {
  cd_AgentID : string;
  cd_DisplayName : string;
  cd_Score : float64;
  cd_MatchedSkills : list string;
  cd_Language : bool;
  cd_Available : bool;
}.

Definition OutcomeAssigned := "assigned_agent".
Definition OutcomeQueued := "queued".
Definition OutcomeNone := "no_agent_available".

Definition b2f (b : bool) : float64 := if b then f64 1 else f64 0.

(** The [matched] set. *)
Definition matched_skills (have need : list string) : gset string :=
  fold_left (fun m h => fold_left (fun m n => if String.eqb h n then {[n]} ∪ m else m) need m)
    have ∅.

Definition language_ok (want have : string) : bool :=
  is_empty want || is_empty have || String.eqb want have.

(** The score from the counts it depends on: skills matched and required,
    language match, priority. *)
Definition score_of (matched required : nat) (lang : bool) (priority : Z) : float64 :=
  let coverage :=
    if (0 <? required)%nat then fdiv (f64 (Z.of_nat matched)) (f64 (Z.of_nat required))
    else f64 1 in
  fadd (fadd (fmul (f64 2) coverage) (fmul f_half3 (b2f lang))) (fdiv (f64 priority) (f64 10)).

Definition Score (req : Request) (a : AgentView) (available : bool) : Candidate :=
  let matched := matched_skills (av_Skills a) (rq_RequiredSkills req) in
  let lang := language_ok (rq_Language req) (av_Language a) in
  MkCandidate (av_ID a) (av_DisplayName a)
    (score_of (size matched) (length (rq_RequiredSkills req)) lang (rq_Priority req))
    (merge_sort string_le (elements matched)) lang available.

(** The comparator of the ranking. *)
Definition ranks_before (a b : Candidate) : bool :=
  if fne (cd_Score a) (cd_Score b) then fgt (cd_Score a) (cd_Score b)
  else String.ltb (cd_AgentID a) (cd_AgentID b).

Definition queue_skips (req : Request) (a : AgentView) : bool :=
  negb (is_empty (rq_QueueID req)) && negb (is_empty (av_QueueID a))
  && negb (String.eqb (av_QueueID a) (rq_QueueID req)).

Definition is_available (available : gmap string bool) (id : string) : bool :=
  default false (available !! id).

Definition candidates_of (req : Request) (agents : list AgentView) (available : gmap string bool)
    : list Candidate :=
  stable_sort ranks_before
    (map (fun a => Score req a (is_available available (av_ID a)))
       (List.filter (fun a => negb (queue_skips req a)) agents)).

(** The guards of the assignment loop. *)
Definition eligible (req : Request) (c : Candidate) : bool :=
  cd_Available c
  && negb ((8 <=? rq_Priority req) && (0 <? length (rq_RequiredSkills req))%nat
           && (length (cd_MatchedSkills c) <? length (rq_RequiredSkills req))%nat)
  && negb (flt (cd_Score c) (f64 2)).

Record RoutingDecision := MkRoutingDecision {
  de_ID : string;
  de_TenantID : string;
  de_InteractionID : string;
  de_Outcome : string;
  de_Candidates : list Candidate;
  de_AssignedAgentID : string;
  de_AssignedQueueID : string;
  de_DecidedAt : Z;
  de_LatencyMicros : Z;
}.

(** Outcome and assigned agent, over the ranked candidates. *)
Definition choose (req : Request) (ranked : list Candidate) (available : gmap string bool)
    : string * string :=
  match List.find (eligible req) ranked with
  | Some c => (OutcomeAssigned, cd_AgentID c)
  | None =>
      if (0 <? size available)%nat || (0 <? length ranked)%nat then (OutcomeQueued, "")
      else (OutcomeNone, "")
  end.

(** [Engine.Decide]: [time.Since(start).Microseconds()] from two clock reads. *)
Definition Decide (req : Request) (agents : list AgentView) (available : gmap string bool)
    : M RoutingDecision :=
  start ← time_Now;
  id ← uuid_NewString;
  decidedAt ← time_Now;
  let ranked := candidates_of req agents available in
  let '(outcome, agent) := choose req ranked available in
  now ← time_Now;
  mret (MkRoutingDecision id "" (rq_InteractionID req) outcome ranked agent "" decidedAt
          (Z.quot (wrap64 (now - start)) 1000)).

(** ** SQL statements *)

Definition interaction_owned (tenantID id : string) (d : DB) : bool :=
  match d_interactions d !! id with
  | Some r => String.eqb (r_TenantID r) tenantID
  | None => false
  end.

(** [agentViews]: the tenant's active agents by id; the query selects no queue,
    so [QueueID] keeps its zero value. *)
Definition sel_agents (tenantID : string) (d : DB) : list AgentView :=
  map (fun a => MkAgentView (ag_ID a) (ag_DisplayName a) (ag_Language a) (map sk_Skill (ag_Skills a)) "")
    (merge_sort (fun a b => string_le (ag_ID a) (ag_ID b))
       (List.filter (fun a => String.eqb (ag_TenantID a) tenantID
                              && String.eqb (ag_Status a) "active")
          (map snd (map_to_list (d_agents d))))).

Definition ins_decision (row : DecisionRow) : stmt := fun now d =>
  if existsb (fun r => String.eqb (dr_ID r) (dr_ID row)) (d_decisions d) then None
  else Some (set_decisions (fun l => l ++
    [MkDecisionRow (dr_ID row) (dr_TenantID row) (dr_InteractionID row) (dr_Inputs row)
       (dr_Candidates row) (dr_Outcome row) (dr_AssignedAgentID row) (dr_AssignedQueueID row)
       now (dr_LatencyMicros row)]) d, 1%nat).

Definition assign_interaction (agentID : string) (now : Z) (r : Rec) : Rec :=
  MkRec (r_ID r) (r_TenantID r) (r_ConversationID r) (r_CustomerID r) (r_Channel r)
    (r_Direction r) (r_Status r) (r_Source r) (r_Destination r) agentID (r_AssignedQueueID r)
    (r_StartedAt r) (r_AnsweredAt r) (r_EndedAt r) (r_EndReason r) (r_Provider r)
    (r_ProviderRef r) (r_IdempotencyKey r) (r_Attributes r) now.

(** [UPDATE interactions SET assigned_agent_id = $3, updated_at = now()
    WHERE id = $1 AND tenant_id = $2 AND status IN ('pending','active')] *)
Definition upd_route (tenantID id agentID : string) : stmt := fun now d =>
  match d_interactions d !! id with
  | Some r =>
      if String.eqb (r_TenantID r) tenantID
         && (String.eqb (r_Status r) "pending" || String.eqb (r_Status r) "active") then
        Some (set_interactions (<[id := assign_interaction agentID now r]>) d, 1%nat)
      else Some (d, 0%nat)
  | None => Some (d, 0%nat)
  end.

(** [INSERT INTO agent_presence ... 'busy' ... ON CONFLICT (agent_id) DO UPDATE] *)
Definition upsert_busy (agentID tenantID interactionID : string) : stmt := fun now d =>
  let tenant := match d_presence d !! agentID with
                | Some p => pr_TenantID p
                | None => tenantID
                end in
  Some (set_presence (<[agentID := MkPresenceRow agentID tenant "busy" interactionID now]>) d, 1%nat).

(** [INSERT INTO agent_presence ... SELECT id, $2, $3 FROM agents WHERE id = $1
    AND tenant_id = $2 ON CONFLICT (agent_id) DO UPDATE SET status = $3, ...] *)
Definition upsert_presence (tenantID agentID status : string) : stmt := fun now d =>
  match d_agents d !! agentID with
  | Some a =>
      if String.eqb (ag_TenantID a) tenantID then
        let row := match d_presence d !! agentID with
                   | Some p => MkPresenceRow agentID (pr_TenantID p) status
                                 (pr_CurrentInteractionID p) now
                   | None => MkPresenceRow agentID tenantID status "" now
                   end in
        Some (set_presence (<[agentID := row]>) d, 1%nat)
      else Some (d, 0%nat)
  | None => Some (d, 0%nat)
  end.

Definition sel_presence (tenantID agentID : string) (d : DB) : option PresenceRow :=
  match d_presence d !! agentID with
  | Some p => if String.eqb (pr_TenantID p) tenantID then Some p else None
  | None => None
  end.

(** [SELECT agent_id FROM agent_presence WHERE tenant_id = $1 AND status =
    'available'], as the [map[string]bool] the code builds. *)
Definition sel_available (tenantID : string) (d : DB) : gmap string bool :=
  (fun _ => true) <$>
    filter (fun kv => pr_TenantID kv.2 = tenantID /\ pr_Status kv.2 = "available") (d_presence d).

(** [ORDER BY decided_at DESC] *)
Definition decided_le (a b : DecisionRow) : Prop := dr_DecidedAt b <= dr_DecidedAt a.

#[export] Instance decided_le_dec a b : Decision (decided_le a b).
Proof. unfold decided_le. apply _. Defined.

Definition sel_decisions (tenantID interactionID : string) (d : DB) : list DecisionRow :=
  merge_sort decided_le
    (List.filter (fun r => String.eqb (dr_TenantID r) tenantID
                           && (is_empty interactionID
                               || String.eqb (dr_InteractionID r) interactionID))
       (d_decisions d)).

(** ** The service *)

(** [routing.PresenceReader] *)
Class PresenceReader := {
  AvailableAgents : string -> M (sqlres (gmap string bool));
}.

Section Service.
Context `{PR : PresenceReader}.
(** [s.source] *)
Variable source : string.
(** [encoding/json] of the request and of the candidates. *)
Variables (inputs_json : Request -> string) (candidates_json : list Candidate -> string).

Definition routing_failed (code : string) (e : sqlerr) : Error :=
  WithCause (Internal code "routing failed") (sqlerr_error e).

Definition with_priority (p : Z) (r : Request) : Request :=
  MkRequest (rq_InteractionID r) (rq_RequiredSkills r) (rq_Language r) p (rq_QueueID r).

Definition agentViews (tenantID : string) : M (list AgentView) :=
  q ← pool_Query (sel_agents tenantID);
  match q with
  | SqlErr x => throw (routing_failed "db.read_failed" x)
  | SqlOk views => mret views
  end.

Definition decision_row (tenantID : string) (req : Request) (d : RoutingDecision) : DecisionRow :=
  MkDecisionRow (de_ID d) tenantID (de_InteractionID d) (inputs_json req)
    (candidates_json (de_Candidates d)) (de_Outcome d) (de_AssignedAgentID d)
    (de_AssignedQueueID d) 0 (de_LatencyMicros d).

Definition decision_data (d : RoutingDecision) : dict :=
  [("decision_id", VStr (de_ID d)); ("interaction_id", VStr (de_InteractionID d));
   ("outcome", VStr (de_Outcome d)); ("assigned_agent_id", VStr (de_AssignedAgentID d))].

Definition envelope_failed : Error :=
  WithCause (Internal "event.envelope_failed" "routing failed")
    (OtherErr "invalid envelope" None).

(** The assignment's two updates. *)
Definition apply_assignment (tenantID : string) (d : RoutingDecision) : M () :=
  if negb (String.eqb (de_Outcome d) OutcomeAssigned) then mret () else
  r ← tx_Exec (upd_route tenantID (de_InteractionID d) (de_AssignedAgentID d));
  match r with
  | SqlErr x => throw (routing_failed "db.write_failed" x)
  | SqlOk _ =>
      r ← tx_Exec (upsert_busy (de_AssignedAgentID d) tenantID (de_InteractionID d));
      match r with
      | SqlErr x => throw (routing_failed "db.write_failed" x)
      | SqlOk _ => mret ()
      end
  end.

Definition route_tx (tenantID : string) (req : Request) (d : RoutingDecision) : M () :=
  with_tx "routing failed" (
    r ← tx_Exec (ins_decision (decision_row tenantID req d));
    match r with
    | SqlErr x => throw (routing_failed "db.write_failed" x)
    | SqlOk _ =>
        _ ← apply_assignment tenantID d;
        v ← events_New TopicRoutingDecisionRecorded source (de_ID d) tenantID (decision_data d);
        match v with
        | None => throw envelope_failed
        | Some _ =>
            _ ← on_err (Writer_Insert v) (fun x =>
                  WithCause (Internal "outbox.insert_failed" "routing failed") (AppErr x));
            commit_or "routing failed"
        end
    end).

Definition Route (tenantID : string) (req0 : Request) : M RoutingDecision :=
  if is_empty (rq_InteractionID req0) then
    throw (Invalid "routing.interaction_required" "interaction_id is required")
  else
  let req := if (rq_Priority req0 <? 1) || (10 <? rq_Priority req0)
             then with_priority 5 req0 else req0 in
  q ← pool_Query (interaction_owned tenantID (rq_InteractionID req));
  match q with
  | SqlErr x => throw (routing_failed "db.read_failed" x)
  | SqlOk false => throw (NotFound "interaction.not_found" "interaction not found")
  | SqlOk true =>
      agents ← agentViews tenantID;
      available ← AvailableAgents tenantID;
      match available with
      | SqlErr x =>
          throw (WithCause (Internal "routing.presence_failed" "routing unavailable")
                   (sqlerr_error x))
      | SqlOk available =>
          d ← Decide req agents available;
          _ ← route_tx tenantID req d;
          mret d
      end
  end.

Definition presence_known (s : string) : bool :=
  existsb (String.eqb s) ["available"; "busy"; "wrapup"; "offline"].

Definition SetPresence (tenantID agentID status : string) : M () :=
  if negb (presence_known status) then
    throw (Invalid "routing.invalid_presence"
             "presence must be available|busy|wrapup|offline")
  else
  r ← pool_Exec (upsert_presence tenantID agentID status);
  match r with
  | SqlErr x => throw (WithCause (Internal "db.write_failed" "presence failed") (sqlerr_error x))
  | SqlOk O => throw (NotFound "agent.not_found" "agent not found")
  | SqlOk (S _) => mret ()
  end.

Definition GetPresence (tenantID agentID : string) : M PresenceRow :=
  row ← pool_Query (sel_presence tenantID agentID);
  match row with
  | SqlErr x => throw (read_failed x)
  | SqlOk None => throw (NotFound "agent.presence_not_found" "agent has no presence record")
  | SqlOk (Some p) => mret p
  end.

Definition ListDecisions (tenantID interactionID : string) (page : Page)
    : M (list DecisionRow * string) :=
  q ← pool_Query (sel_decisions tenantID interactionID);
  match q with
  | SqlErr x => throw (read_failed x)
  | SqlOk rows => mret (window rows page)
  end.
End Service.

(** ** presence.go: the store with its cache *)

Record cacheEntry := MkCacheEntry {
  ce_available : gmap string bool;
  ce_expires : Z;
}.

(** tenant id to snapshot *)
Notation PresenceCache := (gmap string cacheEntry).

Definition PresenceStore_ttl (ttl : Z) : Z := if ttl <=? 0 then 2 * 1000000000 else ttl.

Section PresenceStore.
(** [p.ttl] *)
Variable ttl : Z.

(** The query and the refreshed entry. *)
Definition refresh (cache : PresenceCache) (tenantID : string)
    : M (sqlres (gmap string bool) * PresenceCache) :=
  q ← pool_Query (sel_available tenantID);
  match q with
  | SqlErr x => mret (SqlErr x, cache)
  | SqlOk available =>
      now ← time_Now;
      mret (SqlOk available, <[tenantID := MkCacheEntry available (wrap64 (now + ttl))]> cache)
  end.

Definition store_AvailableAgents (cache : PresenceCache) (tenantID : string)
    : M (sqlres (gmap string bool) * PresenceCache) :=
  match cache !! tenantID with
  | Some e =>
      now ← time_Now;
      if now <? ce_expires e then mret (SqlOk (ce_available e), cache)
      else refresh cache tenantID
  | None => refresh cache tenantID
  end.

Definition Invalidate (cache : PresenceCache) (tenantID : string) : PresenceCache :=
  delete tenantID cache.
End PresenceStore.
