(* ===== verification/RoutingProps.v ===== *)
(** * Properties of internal/routing

    The ranking is a total preorder because scores are never NaN, so the
    assignment loop picks the best eligible agent; the coverage thresholds;
    [Route] under every failure; the age of a cached availability snapshot. *)

From Stdlib Require Import String SpecFloat.
From S2P Require Import Prelude GoStd Float64 AppErrors Events Store Sql Wp Pagination Routing.

Local Open Scope Z_scope.

(** ** Matched skills *)

Lemma fold_union_spec (f : string -> bool) (l : list string) (m : gset string) x :
  x ∈ fold_left (fun m n => if f n then {[n]} ∪ m else m) l m <-> x ∈ m \/ (x ∈ l /\ f x = true).
Proof.
  revert m. induction l as [|y l IH]; intros m; simpl; [set_solver|].
  rewrite IH, elem_of_cons. destruct (f y) eqn:E; [rewrite elem_of_union, elem_of_singleton|];
    naive_solver congruence.
Qed.

Lemma matched_skills_spec have need x :
  x ∈ matched_skills have need <-> x ∈ have /\ x ∈ need.
Proof.
  unfold matched_skills. enough (forall m, x ∈ fold_left (fun m h =>
    fold_left (fun m n => if String.eqb h n then {[n]} ∪ m else m) need m) have m
    <-> x ∈ m \/ (x ∈ have /\ x ∈ need)) as H by (rewrite H; set_solver).
  induction have as [|h l IH]; intros m; simpl; [set_solver|].
  rewrite IH, fold_union_spec, String.eqb_eq. set_solver.
Qed.

Lemma matched_skills_need have need : matched_skills have need ⊆ list_to_set need.
Proof. intros x. rewrite matched_skills_spec. set_solver. Qed.

Lemma size_list_to_set_le (l : list string) : (size (list_to_set l : gset string) <= length l)%nat.
Proof.
  induction l as [|x l IH]; simpl; [done|].
  rewrite (size_union_alt {[x]} (list_to_set l)), size_singleton.
  pose proof (subseteq_size (list_to_set l ∖ {[x]}) (list_to_set l : gset string) ltac:(set_solver)).
  lia.
Qed.

Lemma matched_size have need : (size (matched_skills have need) <= length need)%nat.
Proof.
  pose proof (subseteq_size _ _ (matched_skills_need have need)).
  pose proof (size_list_to_set_le need). lia.
Qed.

(** The length test means full coverage. *)
Lemma matched_full have need :
  (length need <= size (matched_skills have need))%nat -> forall x, x ∈ need -> x ∈ have.
Proof.
  intros H x Hx. pose proof (size_list_to_set_le need).
  assert (matched_skills have need = list_to_set need) as E.
  { apply set_subseteq_size_eq; [apply matched_skills_need|lia]. }
  apply (matched_skills_spec have need). rewrite E. set_solver.
Qed.

Lemma Score_matched_length req a av :
  length (cd_MatchedSkills (Score req a av)) = size (matched_skills (av_Skills a) (rq_RequiredSkills req)).
Proof. simpl. by rewrite merge_sort_Permutation. Qed.

(** ** Scores are numbers *)

Lemma score_of_nonneg m n lang p :
  Z.of_nat n < 2 ^ 53 -> 0 <= p -> nonneg (score_of m n lang p) = true.
Proof.
  intros Hn Hp. unfold score_of.
  assert (nonneg (if (0 <? n)%nat then fdiv (f64 (Z.of_nat m)) (f64 (Z.of_nat n)) else f64 1) = true)
    as Hc.
  { destruct (Nat.ltb_spec 0 n); [|done].
    destruct (f64_small (Z.of_nat n)) as (k & e & ->); [lia|]. apply fdiv_nonneg, f64_nonneg. lia. }
  destruct (f64_small 10) as (k10 & e10 & ->); [done|].
  destruct (f64_small 2) as (k2 & e2 & ->); [done|].
  repeat apply fadd_nonneg.
  - by apply fmul_nonneg.
  - by destruct lang.
  - by apply fdiv_nonneg, f64_nonneg.
Qed.

(** ** The ranking *)

(** The comparator over places: a total preorder on all candidates. *)
Definition ranks_place (a b : Candidate) : bool :=
  if bool_decide (place (cd_Score a) = place (cd_Score b)) then
    String.ltb (cd_AgentID a) (cd_AgentID b)
  else match lex (place (cd_Score b)) (place (cd_Score a)) with Lt => true | _ => false end.

Lemma ranks_before_place a b :
  is_nan (cd_Score a) = false -> is_nan (cd_Score b) = false ->
  ranks_before a b = ranks_place a b.
Proof.
  intros Ha Hb. unfold ranks_before, ranks_place, fgt, flt, SFltb.
  rewrite (SFcompare_place _ _ Hb Ha). case_bool_decide as Hp.
  - apply (fne_place _ _ Ha Hb) in Hp. by rewrite Hp.
  - destruct (fne (cd_Score a) (cd_Score b)) eqn:E; [done|].
    by apply (fne_place _ _ Ha Hb) in E.
Qed.

Lemma not_less_place a b :
  not_less ranks_place a b <->
  lex_lt (place (cd_Score b)) (place (cd_Score a))
  \/ (place (cd_Score b) = place (cd_Score a) /\ string_le (cd_AgentID a) (cd_AgentID b)).
Proof.
  unfold not_less, ranks_place. case_bool_decide as Hp.
  - rewrite string_ltb_false, Hp. unfold lex_lt. split; [naive_solver|].
    intros [H|[_ H]]; [lia|done].
  - destruct (lex (place (cd_Score a)) (place (cd_Score b))) eqn:E.
    + apply lex_Eq in E. naive_solver.
    + apply lex_Lt in E. unfold lex_lt in *. split; [done|]. intros [H|[H _]]; [lia|naive_solver].
    + split; [|done]. intros _. left. apply lex_Lt. revert E. unfold lex.
      rewrite (Z.compare_antisym _ (place (cd_Score b)).1.1),
        (Z.compare_antisym _ (place (cd_Score b)).1.2), (Z.compare_antisym _ (place (cd_Score b)).2).
      by destruct (_ ?= _), (_ ?= _), (_ ?= _).
Qed.

Lemma ranks_place_trans a b c :
  not_less ranks_place a b -> not_less ranks_place b c -> not_less ranks_place a c.
Proof.
  rewrite !not_less_place. unfold lex_lt. intros [H1|[H1 H1']] [H2|[H2 H2']].
  - left. lia.
  - left. by rewrite H2.
  - left. by rewrite <- H1.
  - right. split; [congruence|]. by eapply string_le_trans.
Qed.

Lemma ranks_place_asym a b : ranks_place a b = true -> ranks_place b a = false.
Proof.
  intros H. apply not_less_place. unfold ranks_place in H. case_bool_decide as Hp.
  - right. split; [done|]. apply string_ltb_false. by apply string_ltb_asym.
  - destruct (lex _ _) eqn:E; try done. left. by apply lex_Lt.
Qed.

(** ** The candidates of a decision *)

Definition considered (req : Request) (agents : list AgentView) (a : AgentView) : Prop :=
  a ∈ agents /\ queue_skips req a = false.

Definition scored (req : Request) (available : gmap string bool) (a : AgentView) : Candidate :=
  Score req a (is_available available (av_ID a)).

(** Requests the engine sees: [Route] clamps the priority, and no slice of
    strings has 2^53 elements. *)
Definition sane (req : Request) : Prop :=
  1 <= rq_Priority req <= 10 /\ Z.of_nat (length (rq_RequiredSkills req)) < 2 ^ 53.

Section ranking.
Context (req : Request) (Hsane : sane req) (agents : list AgentView)
  (available : gmap string bool).

Lemma scored_number a : is_nan (cd_Score (scored req available a)) = false.
Proof.
  destruct Hsane as [Hp Hn]. apply nonneg_not_nan. simpl. apply score_of_nonneg; [done|lia].
Qed.

Lemma candidates_of_elem c :
  c ∈ candidates_of req agents available <->
  exists a, c = scored req available a /\ considered req agents a.
Proof.
  unfold candidates_of. rewrite stable_sort_Permutation, list_elem_of_fmap.
  unfold considered. setoid_rewrite list_elem_of_In. setoid_rewrite filter_In.
  by setoid_rewrite negb_true_iff.
Qed.

Lemma candidates_of_Sorted :
  StronglySorted (not_less ranks_place) (candidates_of req agents available).
Proof.
  unfold candidates_of. rewrite (stable_sort_ext (fun c => is_nan (cd_Score c) = false) _ ranks_place).
  - apply stable_sort_Sorted; [apply ranks_place_trans|apply ranks_place_asym].
  - intros x y. apply ranks_before_place.
  - apply Forall_fmap, Forall_true. intros a. apply scored_number.
Qed.

(** Neither a higher score nor, at the same score, a smaller id. *)
Definition no_better (c' c : Candidate) : Prop :=
  fgt (cd_Score c') (cd_Score c) = false
  /\ (fne (cd_Score c') (cd_Score c) = false -> string_le (cd_AgentID c) (cd_AgentID c')).

Lemma no_better_place c c' :
  is_nan (cd_Score c) = false -> is_nan (cd_Score c') = false ->
  not_less ranks_place c c' -> no_better c' c.
Proof.
  intros Hc Hc' H. apply not_less_place in H. unfold no_better. rewrite (fne_place _ _ Hc' Hc). split.
  - apply not_true_is_false. unfold fgt. fold (flt (cd_Score c) (cd_Score c')).
    rewrite (flt_place _ _ Hc Hc'). unfold lex_lt in *. intros Hlt.
    destruct H as [H|[H _]]; [lia|]. rewrite H in Hlt. lia.
  - intros Heq. destruct H as [H|[_ H]]; [|done]. rewrite Heq in H. unfold lex_lt in H. lia.
Qed.

Lemma Sorted_no_better l :
  StronglySorted (not_less ranks_place) l ->
  Forall (fun c => is_nan (cd_Score c) = false) l ->
  StronglySorted (fun c c' => no_better c' c) l.
Proof.
  induction 1 as [|c l _ IH Hc]; [constructor|]. intros Hn. inv Hn. constructor; [auto|].
  rewrite Forall_forall in *. intros c' Hc'. apply no_better_place; auto.
Qed.

Lemma no_better_refl c : is_nan (cd_Score c) = false -> no_better c c.
Proof.
  intros H. apply no_better_place; [done..|]. apply not_less_place. right. split; [done|].
  apply string_ltb_false. destruct (String.ltb _ _) eqn:E; [|done].
  by rewrite (string_ltb_asym _ _ E) in E.
Qed.
End ranking.

Lemma nothing_known (available : gmap string bool) (l : list Candidate) :
  (0 <? size available)%nat || (0 <? length l)%nat = negb (bool_decide (available = ∅ /\ l = [])).
Proof.
  case_bool_decide as Hd; [by destruct Hd as [-> ->]|]. apply orb_true_iff. rewrite !Nat.ltb_lt.
  destruct (decide (available = ∅)) as [->|Hne].
  - right. destruct l; [naive_solver|simpl; lia].
  - left. apply map_size_non_empty_iff in Hne. lia.
Qed.

Lemma eligible_available req c : eligible req c = true -> cd_Available c = true.
Proof. unfold eligible. by intros [[H _]%andb_prop _]%andb_prop. Qed.

Lemma eligible_urgent req available a :
  eligible req (scored req available a) = true -> 8 <= rq_Priority req ->
  forall x, x ∈ rq_RequiredSkills req -> x ∈ av_Skills a.
Proof.
  unfold eligible. intros [[_ H]%andb_prop _]%andb_prop Hp x Hx.
  apply negb_true_iff in H. rewrite (proj2 (Z.leb_le _ _) Hp) in H.
  unfold scored in H. rewrite Score_matched_length in H.
  eapply matched_full; [|done]. destruct (rq_RequiredSkills req) as [|y l]; [by apply not_elem_of_nil in Hx|].
  simpl in H. by apply Nat.ltb_ge in H.
Qed.

Lemma is_available_true available id :
  is_available available id = true <-> available !! id = Some true.
Proof. unfold is_available. by destruct (available !! id) as [[]|]. Qed.

(** ** The thresholds *)

Lemma score_full n lang p :
  (0 < n)%nat -> Z.of_nat n < 2 ^ 53 ->
  score_of n n lang p =
    fadd (fadd (fmul (f64 2) (f64 1)) (fmul f_half3 (b2f lang))) (fdiv (f64 p) (f64 10)).
Proof.
  intros H0 Hn. unfold score_of. rewrite (proj2 (Nat.ltb_lt 0 n) H0).
  destruct (f64_small (Z.of_nat n)) as (m & e & ->); [lia|]. by rewrite fdiv_self.
Qed.

Lemma score_none n lang p :
  (0 < n)%nat -> Z.of_nat n < 2 ^ 53 ->
  score_of 0 n lang p =
    fadd (fadd (fmul (f64 2) (S754_zero false)) (fmul f_half3 (b2f lang))) (fdiv (f64 p) (f64 10)).
Proof.
  intros H0 Hn. unfold score_of. rewrite (proj2 (Nat.ltb_lt 0 n) H0).
  by destruct (f64_small (Z.of_nat n)) as (m & e & ->); [lia|].
Qed.

Lemma ten_priorities (P : Z -> Prop) :
  P 1 -> P 2 -> P 3 -> P 4 -> P 5 -> P 6 -> P 7 -> P 8 -> P 9 -> P 10 ->
  forall p, 1 <= p <= 10 -> P p.
Proof.
  intros. assert (p = 1 \/ p = 2 \/ p = 3 \/ p = 4 \/ p = 5 \/ p = 6 \/ p = 7 \/ p = 8 \/ p = 9
    \/ p = 10) as Hp by lia. by destruct_or! Hp; subst.
Qed.

(** ** Route *)

(** What a presence reader promises the service: it answers or fails, and
    writes nothing. *)
Class PresenceReads `{PresenceReader} :=
  presence_reads : forall t e s, exists r s',
    AvailableAgents t e s = (Ok r, s') /\ committed s' = committed s.

Lemma wp_AvailableAgents `{PresenceReads} t e s Q :
  (forall r s', committed s' = committed s -> Q (Ok r) s') -> wp (AvailableAgents t) e s Q.
Proof. intros HQ. destruct (presence_reads t e s) as (r & s' & Hr & Hs). unfold wp. rewrite Hr. auto. Qed.

(** The cached store keeps the promise, whatever its cache holds. *)
Definition cached_reader (ttl : Z) (cache : PresenceCache) : PresenceReader :=
  {| AvailableAgents t := p ← store_AvailableAgents ttl cache t; mret p.1 |}.

#[export] Instance cached_reader_reads ttl cache : @PresenceReads (cached_reader ttl cache).
Proof.
  intros t e s. unfold AvailableAgents, cached_reader, store_AvailableAgents, refresh, mbind, M_bind,
    pool_Query, time_Now, bump.
  destruct (cache !! t) as [en|]; simpl.
  - destruct (_ <? _); [by eexists _, _|]. simpl. destruct (fault e _); by eexists _, _.
  - destruct (fault e _); by eexists _, _.
Qed.

(** The tables after an assignment: the interaction when it is still pending
    or active, the agent's presence in any case. *)
Definition assigned_tables (t : string) (d : RoutingDecision) (now : Z) (db : DB) : DB :=
  if String.eqb (de_Outcome d) OutcomeAssigned then
    let db1 := match upd_route t (de_InteractionID d) (de_AssignedAgentID d) now db with
               | Some (db1, _) => db1
               | None => db
               end in
    match upsert_busy (de_AssignedAgentID d) t (de_InteractionID d) now db1 with
    | Some (db2, _) => db2
    | None => db1
    end
  else db.

Definition stored_at (now : Z) (r : DecisionRow) : DecisionRow :=
  MkDecisionRow (dr_ID r) (dr_TenantID r) (dr_InteractionID r) (dr_Inputs r) (dr_Candidates r)
    (dr_Outcome r) (dr_AssignedAgentID r) (dr_AssignedQueueID r) now (dr_LatencyMicros r).

(** An active agent of the tenant. *)
Definition active_agent (t id : string) (db : DB) : Prop :=
  exists k row, d_agents db !! k = Some row /\ ag_ID row = id /\ ag_TenantID row = t
    /\ ag_Status row = "active".

Lemma sel_agents_elem t db a : a ∈ sel_agents t db -> active_agent t (av_ID a) db.
Proof.
  unfold sel_agents. intros (row & -> & H)%list_elem_of_fmap.
  rewrite merge_sort_Permutation in H. apply list_elem_of_In, filter_In in H as [H Hf].
  apply list_elem_of_In in H. apply list_elem_of_fmap in H as ([k row'] & -> & H).
  apply elem_of_map_to_list in H. apply andb_prop in Hf as [H1%String.eqb_eq H2%String.eqb_eq].
  by exists k, row'.
Qed.

Lemma choose_assigned req agents available id :
  choose req (candidates_of req agents available) available = (OutcomeAssigned, id) ->
  exists a, a ∈ agents /\ av_ID a = id /\ available !! id = Some true.
Proof.
  unfold choose. destruct (List.find _ _) as [c|] eqn:E.
  - intros [= <-]. apply find_some in E as [Hin He%eligible_available].
    apply list_elem_of_In, candidates_of_elem in Hin as (a & -> & Ha & _).
    exists a. split; [done|]. split; [done|]. by apply is_available_true.
  - by destruct (_ || _).
Qed.

Section route.
Context `{PresenceReads} (source : string) (inputs_json : Request -> string)
  (candidates_json : list Candidate -> string) (e : env).

Lemma wp_route_tx t req d s Q :
  (forall x s', committed s' = committed s -> Q (Err x) s') ->
  (forall now v n,
    e_Type v = TopicRoutingDecisionRecorded -> e_TenantID v = t -> e_Subject v = de_ID d ->
    e_Data v = decision_data d ->
    Q (Ok ()) (MkSt (set_outbox (fun l => l ++ [MkOutboxRow v "pending" 0 "" None])
      (assigned_tables t d now (set_decisions (fun l => l ++
         [stored_at now (decision_row inputs_json candidates_json t req d)]) (committed s)))) None n)) ->
  wp (route_tx source inputs_json candidates_json t req d) e s Q.
Proof.
  intros H1 H2. unfold route_tx, apply_assignment.
  wp_go; try by (apply H1).
  all: unfold ins_decision in Hx; destruct (existsb _ _); [done|]; injection Hx as <- _.
  all: injection Hv as ->; apply NewEnvelope_inv in E0 as (_ & Ht & Hty & Hs & Hd & _).
  all: specialize (H2 (clock e (steps s)) v); unfold assigned_tables in H2.
  - rewrite (proj1 (negb_true_iff _) E) in H2. by apply H2.
  - change [MkDecisionRow _ _ _ _ _ _ _ _ _ _] with
      [stored_at (clock e (steps s)) (decision_row inputs_json candidates_json t req d)] in Hx0, Hx1.
    rewrite (proj1 (negb_false_iff _) E), Hx0 in H2. injection Hx1 as <- _. by apply H2.
Qed.

Lemma wp_Decide req agents available s Q :
  (forall d n,
    de_InteractionID d = rq_InteractionID req ->
    (de_Outcome d, de_AssignedAgentID d)
      = choose req (candidates_of req agents available) available ->
    Q (Ok d) (MkSt (committed s) (txn s) n)) ->
  wp (Decide req agents available) e s Q.
Proof.
  intros HQ. unfold Decide. wp_go. by apply HQ; [|destruct (choose _ _ _)].
Qed.

Lemma wp_Route t req0 s Q :
  (forall x s', committed s' = committed s -> Q (Err x) s') ->
  (forall req (d : RoutingDecision) now v n,
    interaction_owned t (rq_InteractionID req0) (committed s) = true ->
    rq_InteractionID req = rq_InteractionID req0 -> 1 <= rq_Priority req <= 10 ->
    de_InteractionID d = rq_InteractionID req0 ->
    (de_Outcome d = OutcomeAssigned -> active_agent t (de_AssignedAgentID d) (committed s)) ->
    e_Type v = TopicRoutingDecisionRecorded -> e_TenantID v = t -> e_Subject v = de_ID d ->
    e_Data v = decision_data d ->
    Q (Ok d) (MkSt (set_outbox (fun l => l ++ [MkOutboxRow v "pending" 0 "" None])
      (assigned_tables t d now (set_decisions (fun l => l ++
         [stored_at now (decision_row inputs_json candidates_json t req d)]) (committed s)))) None n)) ->
  wp (Route source inputs_json candidates_json t req0) e s Q.
Proof.
  intros H1 H2. unfold Route, agentViews. wp_step; [by wp_go; apply H1|].
  set (req := if (rq_Priority req0 <? 1) || (10 <? rq_Priority req0) then with_priority 5 req0 else req0).
  assert (rq_InteractionID req = rq_InteractionID req0) as Hid by (by subst req; destruct (_ || _)).
  assert (1 <= rq_Priority req <= 10) as Hp.
  { subst req. destruct (_ || _) eqn:Eb; [simpl; lia|]. apply orb_false_elim in Eb. lia. }
  clearbody req. wp_go; try by (apply H1). rewrite Hid in E0.
  apply wp_AvailableAgents. intros ar s' Hs. wp_go; [|by apply H1].
  apply wp_Decide. intros d n Hd Hc. wp_go. apply wp_route_tx; simpl.
  { intros x s'' Hs''. apply H1. by rewrite Hs''. }
  simpl in Hs.
  intros. wp_go. rewrite Hs in *. eapply H2; eauto; [congruence|].
  intros Ho. rewrite Ho in Hc. destruct (choose_assigned req _ _ _ (eq_sym Hc)) as (v' & Hin & <- & _).
  by apply sel_agents_elem.
Qed.
End route.

(** ** Properties *)

(** C9. [Decide] always returns a decision and touches no table. Its
    candidates are the considered agents in rank order. When an agent is
    assigned it is a considered agent marked available and eligible, no other
    eligible agent scores higher, ties go to the smallest id, and at priority 8
    or more it holds every required skill; otherwise no considered agent is
    eligible and the outcome tells whether anything was known at all. *)
Theorem decide_assigns_best req agents available e s :
  sane req ->
  let '(res, s') := Decide req agents available e s in
  committed s' = committed s /\
  exists d, res = Ok d
  /\ (forall c, c ∈ de_Candidates d <-> exists a, c = scored req available a /\ considered req agents a)
  /\ StronglySorted (fun c c' => no_better c' c) (de_Candidates d)
  /\ ((de_Outcome d = OutcomeAssigned
       /\ exists a, considered req agents a /\ de_AssignedAgentID d = av_ID a
          /\ available !! av_ID a = Some true
          /\ eligible req (scored req available a) = true
          /\ (8 <= rq_Priority req -> forall x, x ∈ rq_RequiredSkills req -> x ∈ av_Skills a)
          /\ forall a', considered req agents a' -> eligible req (scored req available a') = true ->
               no_better (scored req available a') (scored req available a))
      \/ (de_AssignedAgentID d = ""
          /\ (forall a, considered req agents a -> eligible req (scored req available a) = false)
          /\ de_Outcome d = if bool_decide (available = ∅ /\ de_Candidates d = [])
                           then OutcomeNone else OutcomeQueued)).
Proof.
  intros Hsane. unfold Decide. simpl. destruct (choose _ _ _) as [outcome agent] eqn:Ec. simpl.
  split; [done|]. eexists. split; [done|]. simpl.
  pose proof (candidates_of_Sorted req Hsane agents available) as Hs.
  split; [apply candidates_of_elem|]. split.
  { apply Sorted_no_better; [done|]. apply Forall_forall.
    intros c (a & -> & _)%candidates_of_elem. by apply scored_number. }
  unfold choose in Ec. destruct (List.find _ _) as [c|] eqn:Ef.
  - simplify_eq. left. split; [done|].
    destruct (find_sorted _ _ _ _ Hs Ef) as (Hin & He & Hbest).
    apply candidates_of_elem in Hin as (a & -> & Ha). exists a. split; [done|]. split; [done|].
    split; [apply is_available_true; by apply eligible_available in He|]. split; [done|].
    split; [intros Hp; by eapply eligible_urgent|]. intros a' Ha' He'.
    destruct (Hbest (scored req available a')) as [->|].
    + apply candidates_of_elem. eauto.
    + done.
    + by apply no_better_refl, scored_number.
    + apply no_better_place; [by apply scored_number..|done].
  - right. split; [by destruct (_ || _); simplify_eq|]. split.
    { intros a Ha. apply (find_none_elem _ _ _ Ef), candidates_of_elem. eauto. }
    rewrite nothing_known in Ec. case_bool_decide; by injection Ec as <- <-.
Qed.

(** Two agents, the better one busy elsewhere. *)
Definition demo_agents : list AgentView :=
  [MkAgentView "a1" "Amina" "en" ["billing"] ""; MkAgentView "a2" "Baraka" "sw" ["billing"; "sim"] "";
   MkAgentView "a3" "Chao" "en" ["billing"; "sim"] ""].
Definition demo_request : Request := MkRequest "i1" ["billing"; "sim"] "en" 9 "".
Definition demo_available : gmap string bool := {["a1" := true; "a2" := true]}.

Lemma decide_assigns_best_witness :
  sane demo_request
  /\ (let '(res, s') := Decide demo_request demo_agents demo_available env0 (MkSt empty_db None 0) in
      committed s' = empty_db /\
      exists d, res = Ok d /\ de_AssignedAgentID d = "a2"
        /\ StronglySorted (fun c c' => no_better c' c) (de_Candidates d)).
Proof.
  assert (sane demo_request) as Hs by (split; vm_compute; [split|]; congruence).
  split; [exact Hs|].
  pose proof (decide_assigns_best demo_request demo_agents demo_available env0
                (MkSt empty_db None 0) Hs) as H.
  destruct (Decide _ _ _ _ _) as [res s'] eqn:E. destruct H as (H1 & d & -> & _ & H2 & _).
  split; [exact H1|]. exists d. split; [reflexivity|]. split; [|exact H2].
  apply (f_equal (fun p => match p.1 with Ok d => de_AssignedAgentID d | Err _ => "" end)) in E.
  cbn [fst] in E. rewrite <- E. vm_compute. reflexivity.
Defined.

(** The coverage thresholds, for requests with required skills: an
    available agent with every skill is always eligible; an available agent
    with none of them is eligible exactly when the language matches and the
    priority is 5, 6 or 7, so below priority 5 missing coverage does block. *)
Lemma coverage_thresholds req available a :
  sane req -> rq_RequiredSkills req <> [] -> available !! av_ID a = Some true ->
  let matched := matched_skills (av_Skills a) (rq_RequiredSkills req) in
  (size matched = length (rq_RequiredSkills req) -> eligible req (scored req available a) = true)
  /\ (matched = ∅ ->
      eligible req (scored req available a)
      = language_ok (rq_Language req) (av_Language a)
        && (5 <=? rq_Priority req) && (rq_Priority req <=? 7)).
Proof.
  intros [Hp Hn] Hr Ha%is_available_true matched.
  set (n := length (rq_RequiredSkills req)) in *.
  assert (0 < n)%nat as H0 by (subst n; destruct (rq_RequiredSkills req); [done|simpl; lia]).
  unfold eligible, scored. rewrite Score_matched_length. fold matched n.
  cbn [cd_Available cd_Score Score].
  fold matched n. rewrite Ha, (proj2 (Nat.ltb_lt 0 n) H0). cbn [andb].
  split; intros Hm; rewrite Hm.
  - rewrite Nat.ltb_irrefl, andb_false_r, score_full by done. cbn [negb andb].
    generalize (rq_Priority req), Hp. apply ten_priorities; by destruct (language_ok _ _).
  - rewrite size_empty, (proj2 (Nat.ltb_lt 0 n) H0), andb_true_r, score_none by done.
    generalize (rq_Priority req), Hp. apply ten_priorities; by destruct (language_ok _ _).
Qed.

Definition low_request : Request := MkRequest "i1" ["billing"] "en" 2 "".
Definition new_agent : AgentView := MkAgentView "a9" "Dada" "en" [] "".

Lemma coverage_thresholds_witness :
  eligible low_request (scored low_request {["a9" := true]} new_agent) = false.
Proof.
  assert (sane low_request) as Hs by (split; vm_compute; [split|]; congruence).
  assert (rq_RequiredSkills low_request <> []) as Hr by discriminate.
  exact (proj2 (coverage_thresholds low_request {["a9" := true]} new_agent Hs Hr eq_refl) eq_refl).
Defined.

(** C10. [Route] is atomic under every failure: either no table changed and the
    caller gets an error, or the interaction is the tenant's and, in one
    commit, the decision is recorded, the assignment applied and one pending
    event queued; an assigned agent is an active agent of the same tenant. *)
Theorem route_atomic `{PresenceReads} source inputs_json candidates_json t req0 e s :
  let '(res, s') := Route source inputs_json candidates_json t req0 e s in
  (committed s' = committed s /\ exists x, res = Err x)
  \/ exists req (d : RoutingDecision) now v,
      res = Ok d /\ interaction_owned t (rq_InteractionID req0) (committed s) = true
      /\ 1 <= rq_Priority req <= 10
      /\ de_InteractionID d = rq_InteractionID req0
      /\ (de_Outcome d = OutcomeAssigned -> active_agent t (de_AssignedAgentID d) (committed s))
      /\ e_Type v = TopicRoutingDecisionRecorded /\ e_TenantID v = t /\ e_Data v = decision_data d
      /\ committed s' = set_outbox (fun l => l ++ [MkOutboxRow v "pending" 0 "" None])
          (assigned_tables t d now (set_decisions (fun l => l ++
            [stored_at now (decision_row inputs_json candidates_json t req d)]) (committed s))).
Proof.
  enough (wp (Route source inputs_json candidates_json t req0) e s (fun res s' =>
    (committed s' = committed s /\ exists x, res = Err x)
    \/ exists req (d : RoutingDecision) now v,
      res = Ok d /\ interaction_owned t (rq_InteractionID req0) (committed s) = true
      /\ 1 <= rq_Priority req <= 10
      /\ de_InteractionID d = rq_InteractionID req0
      /\ (de_Outcome d = OutcomeAssigned -> active_agent t (de_AssignedAgentID d) (committed s))
      /\ e_Type v = TopicRoutingDecisionRecorded /\ e_TenantID v = t /\ e_Data v = decision_data d
      /\ committed s' = set_outbox (fun l => l ++ [MkOutboxRow v "pending" 0 "" None])
          (assigned_tables t d now (set_decisions (fun l => l ++
            [stored_at now (decision_row inputs_json candidates_json t req d)]) (committed s))))) as Hw
    by exact Hw.
  apply wp_Route; [by eauto|]. intros req d now v n. intros. right. by exists req, d, now, v.
Qed.

(** A tenant with one available agent and one interaction of a given status. *)
Definition routing_db (status : string) : DB :=
  set_interactions (fun _ => {["i1" := MkRec "i1" "t1" "cv1" "cu1" "voice" "inbound" status "" "" ""
    "" 0 None None "" "" "" "" [] 0]})
  (set_agents (fun _ => {["a1" := MkAgentRow "a1" "t1" "amina@idp" "Amina" "" "en" "active" [] 0 0]})
  (set_presence (fun _ => {["a1" := MkPresenceRow "a1" "t1" "available" "" 0]}) empty_db)).

Lemma route_atomic_witness :
  let '(res, s') :=
    @Route (cached_reader 2 ∅) "api" (fun _ => "{}") (fun _ => "[]") "t1"
      (MkRequest "i1" [] "" 0 "") env0 (MkSt (routing_db "active") None 0) in
  (committed s' = routing_db "active" /\ exists x, res = Err x)
  \/ exists d : RoutingDecision, res = Ok d /\ de_InteractionID d = "i1".
Proof.
  pose proof (@route_atomic (cached_reader 2 ∅) _ "api" (fun _ => "{}") (fun _ => "[]") "t1"
    (MkRequest "i1" [] "" 0 "") env0 (MkSt (routing_db "active") None 0)) as H.
  destruct (Route _ _ _ _ _ _ _) as [res s'].
  destruct H as [H|(req & d & now & v & -> & _ & _ & Hd & _)]; [by left|]. right. by exists d.
Defined.

(** An interaction that ended between its creation and the routing call still
    takes an agent: the interaction update matches no row, the agent is
    flipped to busy all the same. *)
Lemma route_busy_for_ended_interaction :
  let '(res, s') :=
    @Route (cached_reader 2 ∅) "api" (fun _ => "{}") (fun _ => "[]") "t1"
      (MkRequest "i1" [] "" 0 "") env0 (MkSt (routing_db "completed") None 0) in
  d_interactions (committed s') = d_interactions (routing_db "completed")
  /\ pr_Status <$> d_presence (committed s') !! "a1" = Some "busy".
Proof. vm_compute. split; reflexivity. Qed.

(** ** The presence cache over a run *)

(** Calls of [AvailableAgents] over time, newest first: the environment and the
    state each ran in. Between calls the tables change freely. *)
Inductive presence_run (ttl : Z) : PresenceCache -> list (env * st) -> Prop :=
| run_start : presence_run ttl ∅ []
| run_call cache log t e s r cache' s' :
    presence_run ttl cache log ->
    (forall n, 0 <= clock e n < 2 ^ 62) ->
    store_AvailableAgents ttl cache t e s = (Ok (r, cache'), s') ->
    presence_run ttl cache' ((e, s) :: log)
| run_Invalidate cache log t :
    presence_run ttl cache log -> presence_run ttl (Invalidate cache t) log.

(** A snapshot taken by a call of the log: the truth of that moment, expiring
    [ttl] after the clock read of that call. *)
Definition snapshot_of (ttl : Z) (log : list (env * st)) (t : string) (en : cacheEntry) : Prop :=
  exists e s n, (e, s) ∈ log /\ (steps s < n <= S (S (steps s)))%nat
    /\ ce_available en = sel_available t (committed s)
    /\ ce_expires en = clock e n + ttl.

Lemma snapshot_of_cons ttl x log t en :
  snapshot_of ttl log t en -> snapshot_of ttl (x :: log) t en.
Proof. intros (e & s & n & H & ?). exists e, s, n. split; [by apply elem_of_cons; right|done]. Qed.

Section cache.
Context (ttl : Z) (Httl : 0 < ttl < 2 ^ 62).

Lemma refresh_spec cache t e s r cache' s' :
  (forall n, 0 <= clock e n < 2 ^ 62) ->
  refresh ttl cache t e s = (Ok (r, cache'), s') ->
  (cache' = cache /\ exists x, r = SqlErr x)
  \/ (r = SqlOk (sel_available t (committed s))
      /\ cache' = <[t := MkCacheEntry (sel_available t (committed s))
                           (clock e (S (steps s)) + ttl)]> cache).
Proof.
  intros Hc. unfold refresh, mbind, M_bind, pool_Query, time_Now, bump. simpl.
  destruct (fault e (steps s)) as [err|]; intros [= <- <- _]; [left; eauto|right].
  split; [done|]. specialize (Hc (S (steps s))).
  by rewrite wrap64_id by (unfold in_int64, int64_min, int64_max; lia).
Qed.

Lemma presence_run_snapshots cache log t en :
  presence_run ttl cache log -> cache !! t = Some en -> snapshot_of ttl log t en.
Proof.
  intros H. revert t en. induction H as [|cache log t0 e s r cache' s' _ IH Hc Hr|cache log t0 _ IH];
    intros t en Hen; [done| |].
  - assert (forall k c2 s2, (k <= 1)%nat -> committed s2 = committed s -> steps s2 = (steps s + k)%nat ->
      refresh ttl cache t0 e s2 = (Ok (r, c2), s') -> c2 !! t = Some en ->
      snapshot_of ttl ((e, s) :: log) t en) as Hmiss.
    { intros k c2 s2 Hk Hs2 Hst Hrf Hl. apply refresh_spec in Hrf as [[-> _]|[_ ->]]; [| |done].
      - by apply snapshot_of_cons, IH.
      - apply lookup_insert_Some in Hl as [[<- <-]|[_ Hl]]; [|by apply snapshot_of_cons, IH].
        exists e, s, (S (steps s2)). rewrite Hs2. split; [by apply elem_of_cons; left|].
        split; [lia|]. done. }
    unfold store_AvailableAgents in Hr. destruct (cache !! t0) as [en0|] eqn:E0.
    + unfold mbind, M_bind in Hr. cbn [time_Now] in Hr. destruct (_ <? _).
      * injection Hr as _ <- _. by apply snapshot_of_cons, IH.
      * apply (Hmiss 1%nat _ (bump s)) in Hr; [done|lia|done|simpl; lia|done].
    + apply (Hmiss 0%nat _ s) in Hr; [done|lia|done|lia|done].
  - unfold Invalidate in Hen. apply lookup_delete_Some in Hen as [_ Hen]. by apply IH.
Qed.
End cache.

(** Availability served from the cache is bounded in age: over any run of
    calls with arbitrary table changes in between, an answer is either the
    tenant's availability in the tables now, or what it was at an earlier call
    whose clock, plus the ttl, is still ahead. *)
Lemma presence_staleness_bounded ttl cache log t e s m cache' s' :
  0 < ttl < 2 ^ 62 -> presence_run ttl cache log ->
  (forall n, 0 <= clock e n < 2 ^ 62) ->
  store_AvailableAgents ttl cache t e s = (Ok (SqlOk m, cache'), s') ->
  m = sel_available t (committed s)
  \/ exists e0 s0 n, (e0, s0) ∈ log /\ (steps s0 < n <= S (S (steps s0)))%nat
      /\ m = sel_available t (committed s0) /\ clock e (steps s) < clock e0 n + ttl.
Proof.
  intros Httl Hrun Hc Hr. unfold store_AvailableAgents in Hr.
  destruct (cache !! t) as [en|] eqn:E0.
  - unfold mbind, M_bind in Hr. cbn [time_Now] in Hr. destruct (Z.ltb_spec (clock e (steps s)) (ce_expires en)).
    + injection Hr as <- _ _. right.
      destruct (presence_run_snapshots ttl Httl _ _ _ _ Hrun E0) as (e0 & s0 & n & ? & ? & Hm & Hx).
      exists e0, s0, n. by rewrite <- Hx.
    + left. by apply (refresh_spec ttl Httl) in Hr as [[_ [x ?]]|[[= ->] _]]; [| |done].
  - left. by apply (refresh_spec ttl Httl) in Hr as [[_ [x ?]]|[[= ->] _]]; [| |done].
Qed.

(** One call filled the cache, then the agent went offline. *)
Definition offline_db : DB :=
  set_presence (fun _ => {["a1" := MkPresenceRow "a1" "t1" "offline" "" 1]}) (routing_db "active").
Definition warm_cache : PresenceCache :=
  {["t1" := MkCacheEntry {["a1" := true]} (1 + 1000)]}.
Definition env_clock : env := MkEnv (uuid_of env0) (fun n => Z.of_nat (Nat.min n 100))
  (fun _ => None) (fun _ => true).

Lemma warm_run : presence_run 1000 warm_cache [(env_clock, MkSt (routing_db "active") None 0)].
Proof.
  apply (run_call 1000 ∅ [] "t1" env_clock (MkSt (routing_db "active") None 0)
           (SqlOk {["a1" := true]}) warm_cache (MkSt (routing_db "active") None 2)).
  - constructor.
  - intros n. simpl. lia.
  - vm_compute. reflexivity.
Qed.

Lemma presence_staleness_bounded_witness :
  ({["a1" := true]} : gmap string bool) <> sel_available "t1" offline_db
  /\ (({["a1" := true]} : gmap string bool) = sel_available "t1" offline_db
     \/ exists e0 s0 n, (e0, s0) ∈ [(env_clock, MkSt (routing_db "active") None 0)]
        /\ (steps s0 < n <= S (S (steps s0)))%nat
        /\ {["a1" := true]} = sel_available "t1" (committed s0) /\ 50 < clock e0 n + 1000).
Proof.
  split; [vm_compute; congruence|].
  apply (presence_staleness_bounded 1000 warm_cache [(env_clock, MkSt (routing_db "active") None 0)]
    "t1" env_clock (MkSt offline_db None 50) {["a1" := true]} warm_cache (MkSt offline_db None 51)).
  - lia.
  - exact warm_run.
  - intros n. simpl. lia.
  - vm_compute. reflexivity.
Defined.

(** [SetPresence] goes to the table only: the cache of the reader keeps the
    agent available until the snapshot expires. *)
Lemma set_presence_keeps_snapshot :
  let '(r, s1) := SetPresence "t1" "a1" "offline" env_clock (MkSt (routing_db "active") None 1) in
  let '(a, _) := store_AvailableAgents 1000 warm_cache "t1" env_clock s1 in
  r = Ok () /\ pr_Status <$> d_presence (committed s1) !! "a1" = Some "offline"
  /\ a = Ok (SqlOk {["a1" := true]}, warm_cache).
Proof. vm_compute. split_and!; reflexivity. Qed.
