(* ===== verification/Workflows.v ===== *)
(** * internal/workflows: the durable workflow engine

    engine.go over the store: the starts, the tick with its claim, [advance]
    with the steps of both ladders, Cancel and Get. The messaging plane is the
    interface [Services]. Payloads are kept as dynamic values: their JSON
    encoding and decoding is the identity here, an integer standing for the
    number read back. *)

From Stdlib Require Import String.
From S2P Require Import Prelude GoStd AppErrors Events Store Sql Wp.

Local Open Scope Z_scope.

Definition TypeCallback := "callback".
Definition TypeCollections := "collections".

Definition StatusRunning := "running".
Definition StatusWaitingTimer := "waiting_timer".
Definition StatusCompleted := "completed".
Definition StatusFailed := "failed".
Definition StatusCanceled := "canceled".

Definition StepScheduled := "scheduled".
Definition StepWaited := "waited".
Definition StepContacted := "contacted".
Definition StepEscalated := "escalated".
Definition StepClosed := "closed".
Definition StepTaskCreated := "task_created".

(** [time.Duration] in nanoseconds. *)
Definition hour : Z := 3600 * 1000000000.
Definition minute : Z := 60 * 1000000000.

(** The zero [time.Time], 1 January of year 1. *)
Definition time_zero : Z := -62135596800 * 1000000000.

(** [workflows.Services]: tenant, customer, type, address, body. *)
Class Services := {
  QueueMessage : string -> string -> string -> string -> string -> M (option error);
}.

Record StartCallbackInput := MkStartCallbackInput {
  sc_CustomerID : string;
  sc_Phone : string;
  sc_ScheduleAt : Z;
  sc_Notes : string;
}.

Record StartCollectionsInput := MkStartCollectionsInput {
  sl_CustomerID : string;
  sl_InvoiceRef : string;
  sl_AmountDue : Z;
  sl_Phone : string;
}.

Definition strOf (v : option any) : string := match v with Some (VStr s) => s | _ => "" end.
Definition intOf (v : option any) : Z := match v with Some (VInt n) => n | _ => 0 end.

(** ** Statements *)

Definition ins_instance (i : Instance) : stmt := fun now d =>
  match d_workflows d !! wi_ID i with
  | Some _ => None
  | None =>
      Some (set_workflows (<[wi_ID i :=
        MkInstance (wi_ID i) (wi_TenantID i) (wi_Type i) (wi_Status i) (wi_Payload i) (wi_State i)
          (wi_CurrentStep i) (wi_NextRunAt i) 0 "" now now]>) d, 1%nat)
  end.

Definition ins_step (instanceID step : string) (detail : dict) : stmt := fun _ d =>
  Some (set_wf_steps (fun l => l ++ [MkWfStep instanceID step detail]) d, 1%nat).

(** An update of the columns status, current_step, next_run_at and error. *)
Definition wf_update (status step : string) (next : option Z) (err : string) (now : Z)
    (i : Instance) : Instance :=
  MkInstance (wi_ID i) (wi_TenantID i) (wi_Type i) status (wi_Payload i) (wi_State i) step next
    (wi_Attempts i) err (wi_CreatedAt i) now.

(** [UPDATE workflow_instances SET ... WHERE id=$1 AND tenant_id=$2 AND guard] *)
Definition upd_wf (tenantID id : string) (guard : Instance -> bool)
    (upd : Z -> Instance -> Instance) : stmt := fun now d =>
  match d_workflows d !! id with
  | Some i =>
      if String.eqb (wi_TenantID i) tenantID && guard i then
        Some (set_workflows (<[id := upd now i]>) d, 1%nat)
      else Some (d, 0%nat)
  | None => Some (d, 0%nat)
  end.

Definition any_row (i : Instance) : bool := true.

(** [status IN ('running','waiting_timer')] *)
Definition wf_live (i : Instance) : bool :=
  String.eqb (wi_Status i) StatusRunning || String.eqb (wi_Status i) StatusWaitingTimer.

Definition upd_wait (tenantID id nextStep : string) (next : Z) : stmt :=
  upd_wf tenantID id any_row (fun now i =>
    wf_update StatusWaitingTimer nextStep (Some next) (wi_Error i) now i).

Definition upd_complete (tenantID id : string) : stmt :=
  upd_wf tenantID id any_row (fun now i =>
    wf_update StatusCompleted StepClosed None (wi_Error i) now i).

Definition upd_cancel (tenantID id : string) : stmt :=
  upd_wf tenantID id wf_live (fun now i =>
    wf_update StatusCanceled (wi_CurrentStep i) None (wi_Error i) now i).

(** [markFailed] is not tenant-scoped. *)
Definition upd_failed (id msg : string) : stmt := fun now d =>
  match d_workflows d !! id with
  | Some i =>
      Some (set_workflows (<[id :=
        wf_update StatusFailed (wi_CurrentStep i) (wi_NextRunAt i) msg now i]>) d, 1%nat)
  | None => Some (d, 0%nat)
  end.

(** [status IN ('running','waiting_timer') AND next_run_at <= now()] *)
Definition wf_due (now : Z) (i : Instance) : bool :=
  wf_live i && match wi_NextRunAt i with Some t => t <=? now | None => false end.

Definition next_run_le (a b : Instance) : Prop :=
  default 0 (wi_NextRunAt a) <= default 0 (wi_NextRunAt b).

#[export] Instance next_run_le_dec a b : Decision (next_run_le a b).
Proof. unfold next_run_le. apply _. Defined.

(** The subselect: [ORDER BY next_run_at LIMIT $1]; no other statement runs
    during the claim, so no row is locked and skipped. *)
Definition due_rows (limit now : Z) (d : DB) : list Instance :=
  take (Z.to_nat limit)
    (merge_sort next_run_le (List.filter (wf_due now) (map snd (map_to_list (d_workflows d))))).

Definition attempt (now : Z) (i : Instance) : Instance :=
  MkInstance (wi_ID i) (wi_TenantID i) (wi_Type i) (wi_Status i) (wi_Payload i) (wi_State i)
    (wi_CurrentStep i) (wi_NextRunAt i) (wi_Attempts i + 1) (wi_Error i) (wi_CreatedAt i) now.

(** The claim and the rows it returns. *)
Definition upd_claim_due (limit : Z) : stmt_returning (list Instance) := fun now d =>
  let batch := map (attempt now) (due_rows limit now d) in
  Some (set_workflows (fun m => fold_left (fun m i => <[wi_ID i := i]> m) batch m) d, batch).

Definition sel_instance (tenantID id : string) (d : DB) : option Instance :=
  match d_workflows d !! id with
  | Some i => if String.eqb (wi_TenantID i) tenantID then Some i else None
  | None => None
  end.

(** ** The engine *)

Section Engine.
Context `{Services}.
(** [e.source] *)
Variable source : string.

Definition wf_error (code msg : string) (x : sqlerr) : Error :=
  WithCause (Internal code msg) (sqlerr_error x).

Definition customerOwned (tenantID customerID : string) : M () :=
  q ← pool_Query (customer_exists tenantID customerID);
  match q with
  | SqlErr x => throw (wf_error "db.read_failed" "workflow failed" x)
  | SqlOk false => throw (NotFound "customer.not_found" "customer not found")
  | SqlOk true => mret ()
  end.

Definition insertInstance (i : Instance) : M () :=
  r ← tx_Exec (ins_instance i);
  match r with
  | SqlErr UniqueViolation => throw (Conflict "workflow.conflict" "workflow conflict; retry")
  | SqlErr x => throw (wf_error "db.write_failed" "workflow failed" x)
  | SqlOk _ => mret ()
  end.

Definition recordStep (instanceID step : string) (detail : dict) : M () :=
  r ← tx_Exec (ins_step instanceID step detail);
  match r with
  | SqlErr x => throw (wf_error "db.write_failed" "workflow step failed" x)
  | SqlOk _ => mret ()
  end.

Definition emit (topic id tenantID : string) (data : dict) : M () :=
  v ← events_New topic source id tenantID data;
  match v with
  | None =>
      throw (WithCause (Internal "event.envelope_failed" "workflow event failed")
               (OtherErr "invalid envelope" None))
  | Some _ =>
      on_err (Writer_Insert v) (fun x =>
        WithCause (Internal "outbox.insert_failed" "workflow event failed") (AppErr x))
  end.

Definition start (tenantID typ : string) (payload : dict) (nextRun : Z) (step : string)
    : M Instance :=
  id ← uuid_NewString;
  let inst := MkInstance id tenantID typ StatusWaitingTimer payload [] step (Some nextRun) 0 ""
                time_zero time_zero in
  with_tx "workflow failed" (
    _ ← insertInstance inst;
    _ ← recordStep id step [("scheduled_for", VTime nextRun)];
    _ ← emit TopicWorkflowStarted id tenantID
          [("workflow_id", VStr id); ("type", VStr typ); ("next_run_at", VTime nextRun)];
    _ ← commit_or "workflow failed";
    mret inst).

Definition StartCallback (tenantID : string) (i : StartCallbackInput) : M Instance :=
  if is_empty (sc_CustomerID i) then
    throw (Invalid "workflow.customer_required" "customer_id is required")
  else if is_empty (sc_Phone i) then
    throw (Invalid "workflow.phone_required" "phone is required")
  else
  _ ← customerOwned tenantID (sc_CustomerID i);
  when ← (if sc_ScheduleAt i =? time_zero then
            now ← time_Now; mret (now + 30 * minute)
          else mret (sc_ScheduleAt i));
  now ← time_Now;
  if when <? now then
    throw (Invalid "workflow.schedule_past" "schedule_at must be in the future")
  else
  start tenantID TypeCallback
    [("customer_id", VStr (sc_CustomerID i)); ("phone", VStr (sc_Phone i));
     ("notes", VStr (sc_Notes i))] when StepScheduled.

Definition StartCollections (tenantID : string) (i : StartCollectionsInput) : M Instance :=
  if is_empty (sl_CustomerID i) || is_empty (sl_InvoiceRef i) then
    throw (Invalid "workflow.fields_required" "customer_id and invoice_ref are required")
  else if sl_AmountDue i <=? 0 then
    throw (Invalid "workflow.amount_invalid" "amount_due must be positive")
  else if is_empty (sl_Phone i) then
    throw (Invalid "workflow.phone_required" "phone is required")
  else
  _ ← customerOwned tenantID (sl_CustomerID i);
  now ← time_Now;
  start tenantID TypeCollections
    [("customer_id", VStr (sl_CustomerID i)); ("invoice_ref", VStr (sl_InvoiceRef i));
     ("amount_due", VInt (sl_AmountDue i)); ("phone", VStr (sl_Phone i))] now StepContacted.

(** [waitFor] *)
Definition waitFor (id tenantID : string) (d : Z) (nextStep doneStep : string) : M (option error) :=
  now ← time_Now;
  let next := now + d in
  r ← tx_Exec (upd_wait tenantID id nextStep next);
  match r with
  | SqlErr x => mret (Some (sqlerr_error x))
  | SqlOk _ =>
      _ ← recordStep id doneStep [("next", VStr nextStep); ("at", VTime next)];
      _ ← emit TopicWorkflowStepCompleted id tenantID
            [("workflow_id", VStr id); ("completed", VStr doneStep); ("next", VStr nextStep);
             ("run_at", VTime next)];
      mret None
  end.

Definition complete (id tenantID : string) : M (option error) :=
  r ← tx_Exec (upd_complete tenantID id);
  match r with
  | SqlErr x => mret (Some (sqlerr_error x))
  | SqlOk _ =>
      _ ← recordStep id StepClosed [];
      _ ← emit TopicWorkflowCompleted id tenantID [("workflow_id", VStr id)];
      mret None
  end.

(** [tx, err := e.pool.Begin(ctx)] returning [err] as it is, the body, and the
    deferred rollback: nothing in [advance] commits. *)
Definition with_rollback (body : M (option error)) : M (option error) := fun e s =>
  match fault e (steps s) with
  | Some err => (Ok (Some err), bump s)
  | None =>
      let s0 := MkSt (committed s) (Some (committed s, clock e (steps s))) (S (steps s)) in
      let '(r, s') := body e s0 in
      (match r with Ok x => Ok x | Err x => Ok (Some (AppErr x)) end,
       MkSt (committed s') None (steps s'))
  end.

Definition overdue_body (payload : dict) : string :=
  "Invoice " +:+ strOf (dict_get payload "invoice_ref") +:+ " is overdue. Amount due: "
  +:+ itoa (intOf (dict_get payload "amount_due")) +:+ ". Reply to arrange payment.".

Definition reminder_body (payload : dict) : string :=
  "Gentle reminder: invoice " +:+ strOf (dict_get payload "invoice_ref")
  +:+ " remains outstanding.".

Definition queue (tenantID : string) (payload : dict) (typ body : string)
    (k : M (option error)) : M (option error) :=
  r ← QueueMessage tenantID (strOf (dict_get payload "customer_id")) typ
        (strOf (dict_get payload "phone")) body;
  match r with Some err => mret (Some err) | None => k end.

(** The switch of [advance]. *)
Definition step_body (tenantID id typ : string) (payload : dict) (step : string)
    : M (option error) :=
  if String.eqb typ TypeCallback && String.eqb step StepScheduled then
    queue tenantID payload "sms" ("Callback reminder: " +:+ strOf (dict_get payload "notes")) (
      _ ← recordStep id StepContacted [("channel", VStr "sms")];
      complete id tenantID)
  else if String.eqb typ TypeCollections && String.eqb step StepContacted then
    queue tenantID payload "sms" (overdue_body payload)
      (waitFor id tenantID (48 * hour) StepWaited StepContacted)
  else if String.eqb typ TypeCollections && String.eqb step StepWaited then
    queue tenantID payload "whatsapp" (reminder_body payload)
      (waitFor id tenantID (72 * hour) StepEscalated StepWaited)
  else if String.eqb typ TypeCollections && String.eqb step StepEscalated then
    _ ← recordStep id StepTaskCreated [("channel", VStr "voice")];
    complete id tenantID
  else complete id tenantID.

Definition advance (tenantID id typ : string) (payload : dict) (step : string)
    : M (option error) :=
  with_rollback (step_body tenantID id typ payload step).

(** [_ = e.markFailed(...)] *)
Definition markFailed (id msg : string) : M () :=
  _ ← pool_Exec (upd_failed id msg);
  mret ().

Fixpoint advance_all (batch : list Instance) (advanced : nat) : M nat :=
  match batch with
  | [] => mret advanced
  | c :: rest =>
      r ← advance (wi_TenantID c) (wi_ID c) (wi_Type c) (wi_Payload c) (wi_CurrentStep c);
      match r with
      | Some err =>
          _ ← markFailed (wi_ID c) (error_text err);
          advance_all rest advanced
      | None => advance_all rest (S advanced)
      end
  end.

Definition Tick (limit : Z) : M nat :=
  let limit := if limit <=? 0 then 50 else limit in
  r ← pool_Returning (upd_claim_due limit);
  match r with
  | SqlErr x => throw (wf_error "db.claim_failed" "workflow tick failed" x)
  | SqlOk batch => advance_all batch 0
  end.

Definition Get (tenantID id : string) : M Instance :=
  q ← pool_Query (sel_instance tenantID id);
  match q with
  | SqlErr x => throw (wf_error "db.read_failed" "read failed" x)
  | SqlOk None => throw (NotFound "workflow.not_found" "workflow not found")
  | SqlOk (Some i) => mret i
  end.

Definition Cancel (tenantID id : string) : M Instance :=
  r ← pool_Exec (upd_cancel tenantID id);
  match r with
  | SqlErr x => throw (wf_error "db.write_failed" "cancel failed" x)
  | SqlOk O =>
      _ ← Get tenantID id;
      throw (Conflict "workflow.not_cancelable" "workflow is not running")
  | SqlOk (S _) => Get tenantID id
  end.
End Engine.
