(* ===== verification/WorkflowsProps.v ===== *)
(** * Properties of internal/workflows

    What the engine's calls do to the workflow tables ([wf_write]), and what
    follows: the starts are atomic, a tick claims the due rows, and no ladder
    ever leaves its first step. *)

From Stdlib Require Import String.
From S2P Require Import Prelude GoStd AppErrors Events Store Sql Wp Workflows.

Local Open Scope Z_scope.

(** ** The messaging plane's promise *)

(** Queueing a message answers and does not touch the workflow tables; it runs
    outside the engine's transaction. *)
Definition wf_frame (d d' : DB) : Prop :=
  d_workflows d' = d_workflows d /\ d_wf_steps d' = d_wf_steps d.

Class ServicesFrame `{Services} := queue_frame : forall t c typ to body e s,
  exists r s', QueueMessage t c typ to body e s = (Ok r, s')
    /\ wf_frame (committed s) (committed s') /\ txn s' = txn s.

Lemma wp_QueueMessage `{ServicesFrame} t c typ to body e d x n Q :
  (forall r d' n', wf_frame d d' -> Q (Ok r) (MkSt d' x n')) ->
  wp (QueueMessage t c typ to body) e (MkSt d x n) Q.
Proof.
  intros HQ. destruct (queue_frame t c typ to body e (MkSt d x n)) as (r & [d' x' n'] & Hr & Hf & Hx).
  unfold wp. rewrite Hr. simpl in *. subst. by apply HQ.
Qed.

#[export] Instance wf_frame_po : PreOrder wf_frame.
Proof. split; [by intros d|]. intros d1 d2 d3 [H1 H2] [H3 H4]. split; congruence. Qed.

(** ** Steps inside the rolled back transaction *)

Section advance.
Context `{ServicesFrame} (source : string) (e : env).

(** A computation in the transaction publishes nothing to the workflow tables. *)
Definition tx_silent {A} (m : M A) : Prop :=
  forall c x n, wp m e (MkSt c (Some x) n) (fun _ s' => wf_frame c (committed s')).

Lemma recordStep_silent id step detail c x n Q :
  (forall r x' n', Q r (MkSt c (Some x') n')) ->
  wp (recordStep id step detail) e (MkSt c (Some x) n) Q.
Proof. intros HQ. destruct x. unfold recordStep. wp_go; apply HQ. Qed.

Lemma emit_silent topic id t data c x n Q :
  (forall r x' n', Q r (MkSt c (Some x') n')) ->
  wp (emit source topic id t data) e (MkSt c (Some x) n) Q.
Proof. intros HQ. destruct x. unfold emit. wp_go; apply HQ. Qed.

Lemma waitFor_silent id t dur nx dn : tx_silent (waitFor source id t dur nx dn).
Proof.
  intros c [d x] n. unfold waitFor. wp_go; try reflexivity.
  apply recordStep_silent. intros [u|u] x' n'; [|reflexivity]. wp_go.
  apply emit_silent. intros [v|v] x2 n2; wp_go; reflexivity.
Qed.

Lemma complete_silent id t : tx_silent (complete source id t).
Proof.
  intros c [d x] n. unfold complete. wp_go; try reflexivity.
  apply recordStep_silent. intros [u|u] x' n'; [|reflexivity]. wp_go.
  apply emit_silent. intros [v|v] x2 n2; wp_go; reflexivity.
Qed.

Lemma queue_silent t p typ body k : tx_silent k -> tx_silent (queue t p typ body k).
Proof.
  intros Hk c x n. unfold queue. wp_step. apply wp_QueueMessage. intros [err|] d' n' Hf.
  - wp_go. exact Hf.
  - eapply wp_mono; [apply Hk|]. intros r s'. by transitivity d'.
Qed.

Lemma step_then_complete_silent id t st detail :
  tx_silent (_ ← recordStep id st detail; complete source id t).
Proof.
  intros c x n. wp_step. apply recordStep_silent. intros [u|u] x' n'; [|reflexivity].
  apply complete_silent.
Qed.

Lemma step_body_silent t id typ p step : tx_silent (step_body source t id typ p step).
Proof.
  unfold step_body. repeat case_match;
    eauto using queue_silent, step_then_complete_silent, waitFor_silent, complete_silent.
Qed.

Lemma wp_advance t id typ p step s Q :
  (forall r s', wf_frame (committed s) (committed s') -> Q (Ok r) s') ->
  wp (advance source t id typ p step) e s Q.
Proof.
  intros HQ. unfold advance, with_rollback, wp. destruct (fault e (steps s)).
  - by apply HQ.
  - pose proof (step_body_silent t id typ p step (committed s) (committed s, clock e (steps s))
                  (S (steps s))) as Hb.
    unfold wp in Hb. destruct (step_body _ _ _ _ _ _ _ _) as [[r|x] s']; by apply HQ.
Qed.
End advance.

(** ** Writes of the workflow tables *)

Definition first_step (typ : string) : string :=
  if String.eqb typ TypeCallback then StepScheduled else StepContacted.

Inductive wf_write : DB -> DB -> Prop :=
| ww_frame d d' : wf_frame d d' -> wf_write d d'
| ww_start d d' t id typ payload next now :
    d_workflows d !! id = None -> typ ∈ [TypeCallback; TypeCollections] ->
    d_workflows d' = <[id := MkInstance id t typ StatusWaitingTimer payload [] (first_step typ)
                               (Some next) 0 "" now now]> (d_workflows d) ->
    d_wf_steps d' = d_wf_steps d ++ [MkWfStep id (first_step typ) [("scheduled_for", VTime next)]] ->
    wf_write d d'
| ww_attempt d d' i now :
    i ∈ (map_to_list (d_workflows d)).*2 ->
    d_workflows d' = <[wi_ID i := attempt now i]> (d_workflows d) ->
    d_wf_steps d' = d_wf_steps d -> wf_write d d'
| ww_seal d d' id i status next err now :
    d_workflows d !! id = Some i -> status ∈ [StatusFailed; StatusCanceled] ->
    d_workflows d' = <[id := wf_update status (wi_CurrentStep i) next err now i]> (d_workflows d) ->
    d_wf_steps d' = d_wf_steps d -> wf_write d d'.

(** Every row is stored under its id. *)
Definition wf_keyed (d : DB) : Prop := forall id i, d_workflows d !! id = Some i -> wi_ID i = id.

Lemma wf_write_keyed d d' : wf_keyed d -> wf_write d d' -> wf_keyed d'.
Proof.
  intros Hk Hw id i. destruct Hw as [d d' [Hf _]|d d' t id' typ p nx now Hn _ Hw _|d d' j now Hj Hw _
                                    |d d' id' j st nx er now Hj _ Hw _]; rewrite ?Hf, ?Hw; [apply Hk|..];
    intros [[<- <-]|[_ H]]%lookup_insert_Some; try by apply Hk.
  - done.
  - done.
  - simpl. by apply Hk.
Qed.

Lemma upd_wf_Some t id g u now d d' k :
  upd_wf t id g u now d = Some (d', k) ->
  (exists i, d_workflows d !! id = Some i /\ wi_TenantID i = t /\ g i = true /\ k = 1%nat
     /\ d' = set_workflows (<[id := u now i]>) d)
  \/ (d' = d /\ k = 0%nat).
Proof.
  unfold upd_wf. destruct (d_workflows d !! id) as [i|]; [|naive_solver].
  destruct (String.eqb_spec (wi_TenantID i) t), (g i) eqn:?; naive_solver.
Qed.

(** A claim is a sequence of attempts. *)
Lemma claim_writes batch now d :
  (forall i, i ∈ batch -> d_workflows d !! wi_ID i = Some i) -> NoDup (map wi_ID batch) ->
  rtc wf_write d (set_workflows (fun m => fold_left (fun m i => <[wi_ID i := i]> m)
                                            (map (attempt now) batch) m) d).
Proof.
  revert d. induction batch as [|i batch IH]; intros d Hin Hnd; simpl.
  - apply rtc_once, ww_frame. split; reflexivity.
  - simpl in Hnd. apply NoDup_cons in Hnd as [Hni Hnd].
    assert (forall j, j ∈ batch ->
      d_workflows (set_workflows (<[wi_ID i := attempt now i]>) d) !! wi_ID j = Some j) as Hrest.
    { intros j Hj. simpl. rewrite lookup_insert_ne.
      - apply Hin. apply elem_of_cons. by right.
      - intros E. apply Hni. rewrite E. apply list_elem_of_fmap. eauto. }
    apply rtc_l with (set_workflows (<[wi_ID i := attempt now i]>) d); [|exact (IH _ Hrest Hnd)].
    eapply (ww_attempt _ _ i now); [|done..].
    apply list_elem_of_fmap. exists (wi_ID i, i). split; [done|].
    apply elem_of_map_to_list, Hin. apply elem_of_cons. by left.
Qed.

Lemma due_rows_stored limit now d i :
  wf_keyed d -> i ∈ due_rows limit now d -> d_workflows d !! wi_ID i = Some i /\ wf_due now i = true.
Proof.
  intros Hk Hi. unfold due_rows in Hi. apply elem_of_take in Hi as (n & Hi & _).
  apply list_elem_of_lookup_2 in Hi. rewrite merge_sort_Permutation in Hi.
  apply list_elem_of_In, filter_In in Hi as [Hi Hd]. apply list_elem_of_In, list_elem_of_fmap in Hi
    as ([id j] & -> & Hi). apply elem_of_map_to_list in Hi. simpl. by rewrite (Hk _ _ Hi).
Qed.

Lemma NoDup_filter_map {A B} (f : A -> B) (p : A -> bool) l :
  NoDup (map f l) -> NoDup (map f (List.filter p l)).
Proof.
  induction l as [|x l IH]; simpl; [done|]. intros [Hx Hl]%NoDup_cons. destruct (p x); [|auto].
  simpl. apply NoDup_cons. split; [|auto]. intros (y & E & Hy)%list_elem_of_fmap. apply Hx.
  rewrite E. apply list_elem_of_fmap. exists y. split; [done|].
  by apply list_elem_of_In, filter_In, proj1, list_elem_of_In in Hy.
Qed.

Lemma due_rows_NoDup limit now d : wf_keyed d -> NoDup (map wi_ID (due_rows limit now d)).
Proof.
  intros Hk. unfold due_rows. rewrite <- firstn_map. eapply sublist_NoDup; [|apply sublist_take].
  rewrite merge_sort_Permutation. apply NoDup_filter_map.
  assert (map wi_ID (map snd (map_to_list (d_workflows d))) = (map_to_list (d_workflows d)).*1) as ->.
  { rewrite map_map. apply map_ext_in. intros [id i] Hi%list_elem_of_In. simpl.
    by apply Hk, elem_of_map_to_list. }
  apply NoDup_fst_map_to_list.
Qed.

(** ** The engine's calls as writes *)

Section calls.
Context `{ServicesFrame} (source : string) (e : env).

Lemma upd_failed_write id msg now d d' k :
  upd_failed id msg now d = Some (d', k) -> rtc wf_write d d'.
Proof.
  unfold upd_failed. destruct (d_workflows d !! id) as [i|] eqn:E; intros [= <- _]; [|done].
  apply rtc_once. by eapply (ww_seal _ _ id i StatusFailed); [|set_solver|..].
Qed.

Lemma wp_advance_all batch k s Q :
  (forall r s', rtc wf_write (committed s) (committed s') -> Q r s') ->
  wp (advance_all source batch k) e s Q.
Proof.
  revert k s Q. induction batch as [|c batch IH]; intros k s Q HQ; cbn [advance_all].
  - wp_go. by apply HQ.
  - wp_step. apply wp_advance. intros [err|] s' Hf%ww_frame%rtc_once; wp_go.
    + unfold markFailed. wp_go; apply IH; simpl; intros r s2 Hr; apply HQ.
      * by etransitivity.
      * by etransitivity.
      * apply upd_failed_write in Hx. by do 2 (etransitivity; [eassumption|]).
    + apply IH. intros r s2 Hr. apply HQ. by etransitivity.
Qed.

Lemma wp_wf_Tick limit s Q :
  wf_keyed (committed s) ->
  (forall r s', rtc wf_write (committed s) (committed s') -> Q r s') ->
  wp (Tick source limit) e s Q.
Proof.
  intros Hk HQ. unfold Tick. set (n := if limit <=? 0 then 50 else limit). clearbody n.
  wp_go; [by apply HQ|done|]. injection Hx as <- <-.
  apply wp_advance_all. intros r s' Hr. apply HQ. etransitivity; [|exact Hr].
  apply claim_writes; [|by apply due_rows_NoDup]. intros i Hi. by apply (due_rows_stored n) in Hi as [Hi _].
Qed.

Lemma wp_wf_Get t id s Q :
  (forall r n, (forall i, r = Ok i -> sel_instance t id (committed s) = Some i) ->
    Q r (MkSt (committed s) (txn s) n)) -> wp (Get t id) e s Q.
Proof. intros HQ. unfold Get. wp_go; apply HQ; intros; simplify_eq; done. Qed.

Lemma wp_Cancel t id s Q :
  (forall x n, Q (Err x) (MkSt (committed s) (txn s) n)) ->
  (forall i now r n,
    d_workflows (committed s) !! id = Some i -> wi_TenantID i = t -> wf_live i = true ->
    (forall j, r = Ok j -> j = wf_update StatusCanceled (wi_CurrentStep i) None (wi_Error i) now i) ->
    Q r (MkSt (set_workflows (<[id := wf_update StatusCanceled (wi_CurrentStep i) None (wi_Error i)
                                       now i]>) (committed s)) (txn s) n)) ->
  wp (Cancel t id) e s Q.
Proof.
  intros H1 H2. unfold Cancel. wp_go; try by (apply H1).
  - apply upd_wf_Some in Hx as [(?&?&?&?&?&?)|[-> _]]; [done|].
    apply wp_wf_Get. intros [j|x] n _; wp_go; apply H1.
  - apply upd_wf_Some in Hx as [(i & Hi & Ht & Hl & _ & ->)|[_ ?]]; [|done].
    apply wp_wf_Get. intros r n' Hr. apply H2; [done..|]. intros j ->.
    specialize (Hr j eq_refl). unfold sel_instance in Hr. simpl in Hr.
    rewrite lookup_insert_eq in Hr. case_match; by simplify_eq.
Qed.

(** The tables after a start. *)
Definition started (t id typ : string) (payload : dict) (next : Z) (step : string) (now : Z)
    (v : Envelope) (d : DB) : DB :=
  set_outbox (fun l => l ++ [MkOutboxRow v "pending" 0 "" None])
    (set_wf_steps (fun l => l ++ [MkWfStep id step [("scheduled_for", VTime next)]])
       (set_workflows (<[id := MkInstance id t typ StatusWaitingTimer payload [] step (Some next)
                                0 "" now now]>) d)).

Lemma wp_start t typ payload next step s Q :
  (forall x s', committed s' = committed s -> Q (Err x) s') ->
  (forall id now v n,
    d_workflows (committed s) !! id = None ->
    e_Type v = TopicWorkflowStarted -> e_TenantID v = t -> e_Subject v = id ->
    Q (Ok (MkInstance id t typ StatusWaitingTimer payload [] step (Some next) 0 "" time_zero
             time_zero))
      (MkSt (started t id typ payload next step now v (committed s)) None n)) ->
  wp (start source t typ payload next step) e s Q.
Proof.
  intros H1 H2. unfold start, insertInstance, recordStep, emit. wp_go; try by (apply H1).
  injection Hv as ->. apply NewEnvelope_inv in E as (_ & Ht & Hty & Hs & _ & _).
  unfold ins_instance in Hx. destruct (d_workflows _ !! _) eqn:Hn; [done|].
  injection Hx as <- _. injection Hx0 as <- _. by apply H2.
Qed.
End calls.

(** ** Histories *)

Inductive wf_op :=
| WfStartCallback (t : string) (i : StartCallbackInput)
| WfStartCollections (t : string) (i : StartCollectionsInput)
| WfTick (limit : Z)
| WfCancel (t id : string).

Definition run_wf_op `{Services} (source : string) (o : wf_op) : M () :=
  match o with
  | WfStartCallback t i => _ ← StartCallback source t i; mret ()
  | WfStartCollections t i => _ ← StartCollections source t i; mret ()
  | WfTick limit => _ ← Tick source limit; mret ()
  | WfCancel t id => _ ← Cancel t id; mret ()
  end.

Definition wf_called `{Services} (source : string) (o : wf_op) (d d' : DB) : Prop :=
  exists e n, d' = committed (snd (run_wf_op source o e (MkSt d None n))).

(** Calls by any tenants and workers, with any failures. *)
Definition wf_history `{Services} (source : string) : DB -> DB -> Prop :=
  rtc (fun d d' => exists o, wf_called source o d d').

Section starts.
Context `{ServicesFrame} (source : string) (e : env).

Lemma wp_StartCallback t i s Q :
  (forall x s', committed s' = committed s -> Q (Err x) s') ->
  (forall id now v n when,
    d_workflows (committed s) !! id = None ->
    customer_exists t (sc_CustomerID i) (committed s) = true -> sc_Phone i <> "" ->
    (sc_ScheduleAt i <> time_zero -> when = sc_ScheduleAt i) ->
    e_Type v = TopicWorkflowStarted -> e_TenantID v = t -> e_Subject v = id ->
    let payload := [("customer_id", VStr (sc_CustomerID i)); ("phone", VStr (sc_Phone i));
                    ("notes", VStr (sc_Notes i))] in
    Q (Ok (MkInstance id t TypeCallback StatusWaitingTimer payload [] StepScheduled (Some when)
             0 "" time_zero time_zero))
      (MkSt (started t id TypeCallback payload when StepScheduled now v (committed s)) None n)) ->
  wp (StartCallback source t i) e s Q.
Proof.
  intros H1 H2. unfold StartCallback, customerOwned. wp_go; try by (apply H1).
  all: apply is_empty_false in E0; apply wp_start; simpl;
    [by intros; apply H1|intros; eapply H2; eauto; intros; lia || done].
Qed.

Lemma wp_StartCollections t i s Q :
  (forall x s', committed s' = committed s -> Q (Err x) s') ->
  (forall id now v n when,
    d_workflows (committed s) !! id = None ->
    customer_exists t (sl_CustomerID i) (committed s) = true -> sl_Phone i <> "" ->
    0 < sl_AmountDue i ->
    e_Type v = TopicWorkflowStarted -> e_TenantID v = t -> e_Subject v = id ->
    let payload := [("customer_id", VStr (sl_CustomerID i)); ("invoice_ref", VStr (sl_InvoiceRef i));
                    ("amount_due", VInt (sl_AmountDue i)); ("phone", VStr (sl_Phone i))] in
    Q (Ok (MkInstance id t TypeCollections StatusWaitingTimer payload [] StepContacted (Some when)
             0 "" time_zero time_zero))
      (MkSt (started t id TypeCollections payload when StepContacted now v (committed s)) None n)) ->
  wp (StartCollections source t i) e s Q.
Proof.
  intros H1 H2. unfold StartCollections, customerOwned. wp_go; try by (apply H1).
  apply is_empty_false in E1. apply wp_start; simpl; [by intros; apply H1|].
  intros. eapply H2; eauto. lia.
Qed.

Lemma started_write t id typ payload next now v d :
  d_workflows d !! id = None -> typ ∈ [TypeCallback; TypeCollections] ->
  wf_write d (started t id typ payload next (first_step typ) now v d).
Proof. intros Hn Ht. by eapply (ww_start _ _ t id typ payload next now). Qed.
End starts.

Lemma wf_called_writes `{ServicesFrame} source o d d' :
  wf_keyed d -> wf_called source o d d' -> rtc wf_write d d'.
Proof.
  intros Hk (e & n & ->).
  assert (wp (run_wf_op source o) e (MkSt d None n) (fun _ s' => rtc wf_write d (committed s'))) as Hw;
    [|unfold wp in Hw; by destruct (run_wf_op _ _ _ _)].
  destruct o as [t i|t i|limit|t id]; cbn [run_wf_op]; wp_step.
  - apply wp_StartCallback; simpl; [by intros x s' ->|]. intros. wp_go.
    by apply rtc_once, started_write; [|set_solver].
  - apply wp_StartCollections; simpl; [by intros x s' ->|]. intros. wp_go.
    by apply rtc_once, started_write; [|set_solver].
  - apply wp_wf_Tick; [done|]. intros [r|x] s' Hr; [wp_go|]; exact Hr.
  - apply wp_Cancel; simpl; [done|]. intros i now [r|x] m Hi _ _ _; wp_go; apply rtc_once;
      by eapply (ww_seal _ _ id i StatusCanceled); [|set_solver|..].
Qed.

(** ** Every ladder is where it started *)

(** What the tables satisfy at all times: a workflow waits at its first step,
    failed there, or was canceled there; its trace is that one step. *)
Definition at_first_step (i : Instance) : Prop :=
  wi_Type i ∈ [TypeCallback; TypeCollections] /\ wi_CurrentStep i = first_step (wi_Type i)
  /\ wi_Status i ∈ [StatusWaitingTimer; StatusFailed; StatusCanceled].

Definition steps_of (id : string) (d : DB) : list string :=
  map ws_Step (List.filter (fun w => String.eqb (ws_InstanceID w) id) (d_wf_steps d)).

Record unmoved (d : DB) : Prop := {
  um_keyed : wf_keyed d;
  um_first : forall id i, d_workflows d !! id = Some i -> at_first_step i;
  um_trace : forall id i, d_workflows d !! id = Some i -> steps_of id d = [wi_CurrentStep i];
  um_owned : forall w, w ∈ d_wf_steps d -> is_Some (d_workflows d !! ws_InstanceID w);
}.

Lemma steps_of_app id l w d d' :
  d_wf_steps d = l -> d_wf_steps d' = l ++ [w] ->
  steps_of id d' = steps_of id d ++ (if String.eqb (ws_InstanceID w) id then [ws_Step w] else []).
Proof.
  intros H1 H2. unfold steps_of. rewrite H1, H2, List.filter_app, map_app. simpl.
  by destruct (String.eqb _ _).
Qed.

Lemma steps_of_absent id d :
  (forall w, w ∈ d_wf_steps d -> is_Some (d_workflows d !! ws_InstanceID w)) ->
  d_workflows d !! id = None -> steps_of id d = [].
Proof.
  intros Ho Hn. unfold steps_of. destruct (List.filter _ _) as [|w l] eqn:E; [done|].
  assert (In w (w :: l)) as Hin by by left. rewrite <- E in Hin.
  apply filter_In in Hin as [Hin Hid%String.eqb_eq].
  apply list_elem_of_In, Ho in Hin as [j Hj]. congruence.
Qed.

(** A write that changes one row but not its type and step. *)
Lemma unmoved_same_step d d' id i i' :
  unmoved d -> d_workflows d !! id = Some i -> wi_ID i' = id -> wi_Type i' = wi_Type i ->
  wi_CurrentStep i' = wi_CurrentStep i ->
  wi_Status i' ∈ [StatusWaitingTimer; StatusFailed; StatusCanceled] ->
  d_workflows d' = <[id := i']> (d_workflows d) -> d_wf_steps d' = d_wf_steps d -> unmoved d'.
Proof.
  intros [Hk Hf Ht Ho] Hi Hid Hty Hst Hs Hw Hsteps. split; unfold wf_keyed; rewrite ?Hw.
  - intros k j [[<- <-]|[_ H]]%lookup_insert_Some; [done|by apply Hk].
  - intros k j [[<- <-]|[_ H]]%lookup_insert_Some; [|by eapply Hf].
    destruct (Hf _ _ Hi) as (H1 & H2 & _). unfold at_first_step. by rewrite Hty, Hst.
  - intros k j. unfold steps_of. rewrite Hsteps.
    intros [[<- <-]|[_ H]]%lookup_insert_Some; [rewrite Hst|]; by apply Ht.
  - rewrite Hsteps. intros w Hin. apply Ho in Hin.
    destruct (decide (ws_InstanceID w = id)) as [->|Hne]; [by rewrite lookup_insert_eq|].
    by rewrite lookup_insert_ne.
Qed.

Lemma wf_write_unmoved d d' : unmoved d -> wf_write d d' -> unmoved d'.
Proof.
  intros Hu Hw. destruct Hw as [d d' [Hf Hs]|d d' t id typ p nx now Hn Hty Hw Hs|d d' i now Hi Hw Hs
                               |d d' id i st nx er now Hi Hst Hw Hs].
  - destruct Hu as [Hk H1 H2 H3]. split; unfold wf_keyed, steps_of; by rewrite Hf, ?Hs.
  - pose proof (wf_write_keyed _ _ (um_keyed _ Hu) (ww_start _ _ _ _ _ _ _ _ Hn Hty Hw Hs)) as Hk.
    destruct Hu as [_ H1 H2 H3]. split; [done|..]; rewrite ?Hw.
    + intros k j [[<- <-]|[_ H]]%lookup_insert_Some; [|by eapply H1].
      split; [done|]. split; [done|]. set_solver.
    + intros k j Hj. rewrite (steps_of_app k _ _ d d' eq_refl Hs). simpl.
      apply lookup_insert_Some in Hj as [[<- <-]|[Hne H]].
      * rewrite String.eqb_refl. by rewrite steps_of_absent.
      * rewrite (proj2 (String.eqb_neq id k)) by done. rewrite app_nil_r. by apply H2.
    + rewrite Hs. intros w [Hin|Hin]%elem_of_app.
      * destruct (decide (ws_InstanceID w = id)) as [->|Hne]; [by rewrite lookup_insert_eq|].
        rewrite lookup_insert_ne by done. by apply H3.
      * apply list_elem_of_singleton in Hin as ->. simpl. by rewrite lookup_insert_eq.
  - apply list_elem_of_fmap in Hi as ([id j] & -> & Hi%elem_of_map_to_list). simpl in Hw.
    pose proof (um_keyed _ Hu _ _ Hi) as Hid. rewrite Hid in Hw.
    eapply unmoved_same_step; [done|exact Hi| | | | |exact Hw|done]; try done.
    destruct (um_first _ Hu _ _ Hi) as (_ & _ & ?). done.
  - eapply unmoved_same_step; [done|exact Hi| | | | |exact Hw|done]; try done.
    + exact (um_keyed _ Hu _ _ Hi).
    + apply elem_of_cons. by right.
Qed.

Lemma wf_writes_unmoved d d' : unmoved d -> rtc wf_write d d' -> unmoved d'.
Proof. intros Hu. induction 1 as [|d1 d2 d3 Hw _ IH]; [done|]. by eapply IH, wf_write_unmoved. Qed.

Lemma no_workflows_unmoved d : d_workflows d = ∅ -> d_wf_steps d = [] -> unmoved d.
Proof.
  intros Hw Hs. split; unfold wf_keyed; rewrite ?Hw, ?Hs; intros *;
    try rewrite lookup_empty; try done. by intros ?%not_elem_of_nil.
Qed.

(** ** Properties *)

(** C5. No ladder ever advances: [advance] runs each step in a transaction it
    never commits, so over any history of starts, ticks and cancellations, by
    any tenants and workers and with any failures, every workflow sits at the
    first step of its type, is never completed, and its recorded trace is that
    one step. *)
Theorem ladders_never_advance `{ServicesFrame} source d d' id i :
  d_workflows d = ∅ -> d_wf_steps d = [] -> wf_history source d d' ->
  d_workflows d' !! id = Some i ->
  wi_CurrentStep i = first_step (wi_Type i) /\ steps_of id d' = [first_step (wi_Type i)]
  /\ wi_Status i ∈ [StatusWaitingTimer; StatusFailed; StatusCanceled].
Proof.
  intros Hw Hs Hh Hi. assert (unmoved d') as Hu.
  { apply (no_workflows_unmoved d Hw) in Hs. clear Hw Hi. induction Hh as [|d1 d2 d3 [o Ho] _ IH]; [done|].
    apply IH. eapply wf_writes_unmoved; [done|]. eapply wf_called_writes; [apply Hs|done]. }
  destruct (um_first _ Hu _ _ Hi) as (_ & H2 & H3). rewrite (um_trace _ Hu _ _ Hi), H2. done.
Qed.

(** A messaging plane that records each message as an outbound interaction. *)
Definition recording_services : Services :=
  {| QueueMessage t c typ to body :=
       id ← uuid_NewString;
       _ ← pool_Exec (fun now d => Some (set_interactions (<[id := MkRec id t "" c typ "outbound"
              "pending" "orvexa-workflows" to "" "" now None None "" typ body "" [] now]>) d, 1%nat));
       mret None |}.

#[export] Instance recording_services_frame : @ServicesFrame recording_services.
Proof.
  intros t c typ to body e s. unfold QueueMessage, recording_services, mbind, M_bind, uuid_NewString,
    pool_Exec, bump. simpl. destruct (fault e _); by eexists _, _.
Qed.

Definition ladder_db : DB :=
  set_customers (fun _ => {["cu1" := MkCustomer "cu1" "t1" "Asha" "" "sw" "" [] 0 0]}) empty_db.
Definition ladder_input : StartCollectionsInput := MkStartCollectionsInput "cu1" "INV-9" 2500 "254700000001".

Definition wf_after `{Services} (o : wf_op) (n : nat) (d : DB) : DB :=
  committed (snd (run_wf_op "worker" o env0 (MkSt d None n))).

(** The ladder started, then two ticks. *)
Definition ladder_started : DB := @wf_after recording_services (WfStartCollections "t1" ladder_input) 0 ladder_db.
Definition ladder_ticked : DB :=
  @wf_after recording_services (WfTick 50) 40
    (@wf_after recording_services (WfTick 50) 20 ladder_started).

Lemma ladder_run : @wf_history recording_services "worker" ladder_db ladder_ticked.
Proof.
  eapply rtc_l; [by exists (WfStartCollections "t1" ladder_input), env0, 0%nat|].
  eapply rtc_l; [by exists (WfTick 50), env0, 20%nat|].
  eapply rtc_l; [by exists (WfTick 50), env0, 40%nat|]. apply rtc_refl.
Qed.

Lemma ladders_never_advance_witness :
  exists i, d_workflows ladder_ticked !! "id-2" = Some i /\ wi_Attempts i = 2
    /\ wi_CurrentStep i = StepContacted /\ steps_of "id-2" ladder_ticked = [StepContacted].
Proof.
  destruct (d_workflows ladder_ticked !! "id-2") as [i|] eqn:E; [|vm_compute in E; discriminate].
  exists i. split; [reflexivity|].
  assert (wi_Attempts i = 2 /\ wi_Type i = TypeCollections) as [Ha Ht].
  { vm_compute in E. injection E as <-. split; reflexivity. }
  pose proof (@ladders_never_advance recording_services _ "worker" ladder_db ladder_ticked "id-2" i
    eq_refl eq_refl ladder_run E) as (H1 & H2 & _).
  rewrite Ht in H1, H2. split; [exact Ha|]. split; [exact H1|exact H2].
Defined.

(** The customer has received the first message twice, and the row is due
    again at once. *)
Lemma tick_resends_first_step :
  length (map_to_list (d_interactions ladder_ticked)) = 2%nat
  /\ forallb (fun r => String.eqb (r_ProviderRef r)
       "Invoice INV-9 is overdue. Amount due: 2500. Reply to arrange payment.")
       (map snd (map_to_list (d_interactions ladder_ticked))) = true
  /\ map wi_ID (due_rows 50 60 ladder_ticked) = ["id-2"].
Proof. vm_compute. split_and!; reflexivity. Qed.

(** Starting a collections ladder is atomic and guarded under every
    failure: either no table changed and the caller gets an error, or the
    amount is positive, the phone given, the customer the tenant's own, and one
    commit stored the waiting instance, its first step and one
    [workflow.started] event; the instance is due from the moment it exists. *)
Lemma collections_start_atomic source t i e s :
  let '(res, s') := StartCollections source t i e s in
  (committed s' = committed s /\ exists x, res = Err x)
  \/ exists id now v when inst,
      res = Ok inst /\ d_workflows (committed s) !! id = None
      /\ customer_exists t (sl_CustomerID i) (committed s) = true
      /\ 0 < sl_AmountDue i /\ sl_Phone i <> ""
      /\ wi_ID inst = id /\ wi_TenantID inst = t /\ wi_Status inst = StatusWaitingTimer
      /\ e_Type v = TopicWorkflowStarted /\ e_TenantID v = t /\ e_Subject v = id
      /\ committed s' = started t id TypeCollections (wi_Payload inst) when StepContacted now v
                          (committed s).
Proof.
  enough (wp (StartCollections source t i) e s (fun res s' =>
    (committed s' = committed s /\ exists x, res = Err x)
    \/ exists id now v when inst,
      res = Ok inst /\ d_workflows (committed s) !! id = None
      /\ customer_exists t (sl_CustomerID i) (committed s) = true
      /\ 0 < sl_AmountDue i /\ sl_Phone i <> ""
      /\ wi_ID inst = id /\ wi_TenantID inst = t /\ wi_Status inst = StatusWaitingTimer
      /\ e_Type v = TopicWorkflowStarted /\ e_TenantID v = t /\ e_Subject v = id
      /\ committed s' = started t id TypeCollections (wi_Payload inst) when StepContacted now v
                          (committed s))) as H by exact H.
  apply wp_StartCollections; [by eauto|]. intros id now v n when. intros. right.
  eexists id, now, v, when, _. split; [done|]. repeat (split; [done|]). done.
Qed.

(** [Cancel], when no call fails: a live workflow of the tenant is
    canceled, keeping its step and losing its timer, and nothing else changes;
    otherwise nothing changes and the error tells a missing (or foreign)
    workflow from one that is not running. A canceled workflow is not due, so
    no later tick claims it. *)
Lemma workflow_cancel_exact t id e s :
  healthy e ->
  let '(res, s') := Cancel t id e s in
  match sel_instance t id (committed s) with
  | None => res = Err (NotFound "workflow.not_found" "workflow not found")
            /\ committed s' = committed s
  | Some i =>
      if wf_live i then
        exists now, let i' := wf_update StatusCanceled (wi_CurrentStep i) None (wi_Error i) now i in
          res = Ok i' /\ committed s' = set_workflows (<[id := i']>) (committed s)
          /\ forall later, wf_due later i' = false
      else res = Err (Conflict "workflow.not_cancelable" "workflow is not running")
           /\ committed s' = committed s
  end.
Proof.
  intros Hh. unfold Cancel, Get, mbind, M_bind, pool_Exec, pool_Query, mret, M_ret, throw, bump.
  rewrite (healthy_fault _ Hh). unfold upd_cancel, upd_wf, sel_instance.
  destruct (d_workflows (committed s) !! id) as [i|] eqn:Ei; simpl; rewrite ?(healthy_fault _ Hh).
  - destruct (String.eqb_spec (wi_TenantID i) t) as [Ht|Ht]; simpl; rewrite ?(healthy_fault _ Hh).
    + destruct (wf_live i) eqn:El; simpl; rewrite ?(healthy_fault _ Hh).
      * rewrite lookup_insert_eq. simpl. rewrite Ht, String.eqb_refl. by eexists.
      * rewrite Ei, Ht, String.eqb_refl. done.
    + rewrite Ei. destruct (String.eqb_spec (wi_TenantID i) t); done.
  - by rewrite Ei.
Qed.

Lemma workflow_cancel_exact_witness :
  let '(res, s') := Cancel "t1" "id-2" env0 (MkSt ladder_started None 30) in
  exists i', res = Ok i' /\ wi_Status i' = StatusCanceled /\ wi_NextRunAt i' = None
    /\ wf_due 99 i' = false.
Proof.
  pose proof (workflow_cancel_exact "t1" "id-2" env0 (MkSt ladder_started None 30) env0_healthy) as H.
  destruct (Cancel "t1" "id-2" env0 (MkSt ladder_started None 30)) as [res s'].
  destruct (sel_instance "t1" "id-2" (committed (MkSt ladder_started None 30))) as [i|] eqn:E;
    [|vm_compute in E; discriminate].
  destruct (wf_live i) eqn:El; [|vm_compute in E; injection E as <-; discriminate].
  destruct H as (now & -> & _ & Hd). eexists. split; [reflexivity|]. split; [reflexivity|].
  split; [reflexivity|apply Hd].
Defined.
