(* ===== verification/TemporalStore.v ===== *)
(** * internal/workflows/temporaldriver/store.go: PostgresStore

    The records of the store interface and its implementation over the
    workflow tables. *)

From Stdlib Require Import String.
From S2P Require Import Prelude GoStd AppErrors Events Store Sql Wp Workflows.

Local Open Scope Z_scope.

Record NextStep := MkNextStep {
  nx_Step : string;
  nx_RunAt : Z;
}.

Record StartRecord := MkStartRecord {
  sr_Instance : Instance;
  sr_StepDetail : dict;
}.

Record StepRecord := MkStepRecord {
  rs_InstanceID : string;
  rs_TenantID : string;
  rs_Type : string;
  rs_ExpectedPrev : string;
  rs_DoneStep : string;
  rs_Detail : dict;
  rs_Next : option NextStep;
}.

Record DoneRecord := MkDoneRecord {
  dn_InstanceID : string;
  dn_TenantID : string;
  dn_Type : string;
  dn_ExpectedPrev : string;
  dn_Detail : dict;
  dn_Error : string;
}.

Definition at_step (step : string) (i : Instance) : bool := String.eqb (wi_CurrentStep i) step.

(** Status, step and timer a [StepRecord] moves to. *)
Definition step_target (rec : StepRecord) : string * string * option Z :=
  match rs_Next rec with
  | Some nx => (StatusWaitingTimer, nx_Step nx, Some (nx_RunAt nx))
  | None => (StatusRunning, rs_DoneStep rec, None)
  end.

(** ** The store *)

(** A method that returns an [error] value. *)
Definition as_error (m : M (option error)) : M (option error) := fun e s =>
  match m e s with
  | (Ok r, s') => (Ok r, s')
  | (Err x, s') => (Ok (Some (AppErr x)), s')
  end.

Section store.
(** [s.source] *)
Variable source : string.

Definition StartInstance (rec : StartRecord) : M (option error) :=
  let inst := sr_Instance rec in
  as_error (with_tx "workflow failed" (
    _ ← insertInstance inst;
    _ ← recordStep (wi_ID inst) (wi_CurrentStep inst) (sr_StepDetail rec);
    _ ← emit source TopicWorkflowStarted (wi_ID inst) (wi_TenantID inst)
          [("workflow_id", VStr (wi_ID inst)); ("type", VStr (wi_Type inst));
           ("next_run_at", VTime (default time_zero (wi_NextRunAt inst)))];
    _ ← commit_or "workflow failed";
    mret None)).

Definition upd_step (rec : StepRecord) : stmt :=
  let '(status, step, next) := step_target rec in
  upd_wf (rs_TenantID rec) (rs_InstanceID rec) (at_step (rs_ExpectedPrev rec)) (fun now i =>
    wf_update status step next (wi_Error i) now i).

Definition RecordStep (rec : StepRecord) : M (option error) :=
  as_error (with_tx "workflow step failed" (
    r ← tx_Exec (upd_step rec);
    match r with
    | SqlErr x => throw (wf_error "db.write_failed" "workflow step failed" x)
    | SqlOk O => mret None
    | SqlOk (S _) =>
        _ ← recordStep (rs_InstanceID rec) (rs_DoneStep rec) (rs_Detail rec);
        _ ← (match rs_Next rec with
             | Some nx =>
                 emit source TopicWorkflowStepCompleted (rs_InstanceID rec) (rs_TenantID rec)
                   [("workflow_id", VStr (rs_InstanceID rec)); ("completed", VStr (rs_DoneStep rec));
                    ("next", VStr (nx_Step nx)); ("run_at", VTime (nx_RunAt nx))]
             | None => mret ()
             end);
        _ ← commit_or "workflow step failed";
        mret None
    end)).

Definition upd_done (rec : DoneRecord) : stmt :=
  upd_wf (dn_TenantID rec) (dn_InstanceID rec) (at_step (dn_ExpectedPrev rec)) (fun now i =>
    wf_update StatusCompleted StepClosed None (wi_Error i) now i).

(** The last call is [return tx.Commit(ctx)]. *)
Definition CompleteInstance (rec : DoneRecord) : M (option error) :=
  as_error (with_tx "workflow complete failed" (
    r ← tx_Exec (upd_done rec);
    match r with
    | SqlErr x => throw (wf_error "db.write_failed" "workflow complete failed" x)
    | SqlOk O => mret None
    | SqlOk (S _) =>
        _ ← recordStep (dn_InstanceID rec) StepClosed (dn_Detail rec);
        _ ← emit source TopicWorkflowCompleted (dn_InstanceID rec) (dn_TenantID rec)
              [("workflow_id", VStr (dn_InstanceID rec))];
        tx_Commit
    end)).

Definition MarkCanceled (rec : DoneRecord) : M (option error) :=
  as_error (
    r ← pool_Exec (upd_cancel (dn_TenantID rec) (dn_InstanceID rec));
    match r with
    | SqlErr x => throw (wf_error "db.write_failed" "cancel failed" x)
    | SqlOk _ => mret None
    end).

Definition upd_mark_failed (rec : DoneRecord) : stmt :=
  upd_wf (dn_TenantID rec) (dn_InstanceID rec) wf_live (fun now i =>
    wf_update StatusFailed (wi_CurrentStep i) (wi_NextRunAt i) (dn_Error rec) now i).

Definition MarkFailed (rec : DoneRecord) : M (option error) :=
  as_error (
    r ← pool_Exec (upd_mark_failed rec);
    match r with
    | SqlErr x => throw (wf_error "db.write_failed" "workflow failed" x)
    | SqlOk _ => mret None
    end).

(** [GetInstance] mirrors the engine's [Get]. *)
Definition GetInstance (tenantID id : string) : M Instance := Get tenantID id.
End store.
