(* ===== verification/MemoryStore.v ===== *)
(** * internal/workflows/temporaldriver/store.go: MemoryStore

    The in-process store over its own maps; the JSON copy [cloneInstance] makes
    is the identity, as in Workflows. *)

From Stdlib Require Import String.
From S2P Require Import Prelude GoStd AppErrors Events Store Sql Wp Workflows TemporalStore.

Local Open Scope Z_scope.

Record StepTrace := MkStepTrace {
  tr_Step : string;
  tr_Detail : dict;
  tr_ExecutedAt : Z;
}.

Record MemoryStore := MkMemoryStore {
  inst : gmap string Instance;
  steps_of_inst : gmap string (list StepTrace);
}.

Definition NewMemoryStore : MemoryStore := MkMemoryStore ∅ ∅.

(** [m.steps[id] = append(m.steps[id], ...)] *)
Definition append_step (id step : string) (detail : dict) (now : Z)
    (m : gmap string (list StepTrace)) : gmap string (list StepTrace) :=
  <[id := default [] (m !! id) ++ [MkStepTrace step detail now]]> m.

Definition StartInstance (rec : StartRecord) (now : Z) (m : MemoryStore)
    : option error * MemoryStore :=
  let i := sr_Instance rec in
  match inst m !! wi_ID i with
  | Some _ => (Some (AppErr (Conflict "workflow.conflict" "workflow conflict; retry")), m)
  | None =>
      (None, MkMemoryStore (<[wi_ID i := i]> (inst m))
               (append_step (wi_ID i) (wi_CurrentStep i) (sr_StepDetail rec) now (steps_of_inst m)))
  end.

Definition RecordStep (rec : StepRecord) (now : Z) (m : MemoryStore)
    : option error * MemoryStore :=
  match inst m !! rs_InstanceID rec with
  | None => (None, m)
  | Some i =>
      if negb (String.eqb (wi_TenantID i) (rs_TenantID rec))
         || negb (at_step (rs_ExpectedPrev rec) i) then (None, m)
      else
      let i' := match rs_Next rec with
                | Some nx =>
                    wf_update StatusWaitingTimer (nx_Step nx) (Some (nx_RunAt nx)) (wi_Error i) now i
                | None =>
                    wf_update StatusRunning (rs_DoneStep rec) (wi_NextRunAt i) (wi_Error i) now i
                end in
      (None, MkMemoryStore (<[rs_InstanceID rec := i']> (inst m))
               (append_step (rs_InstanceID rec) (rs_DoneStep rec) (rs_Detail rec) now
                  (steps_of_inst m)))
  end.

Definition CompleteInstance (rec : DoneRecord) (now : Z) (m : MemoryStore)
    : option error * MemoryStore :=
  match inst m !! dn_InstanceID rec with
  | None => (None, m)
  | Some i =>
      if negb (String.eqb (wi_TenantID i) (dn_TenantID rec))
         || negb (at_step (dn_ExpectedPrev rec) i) then (None, m)
      else
      (None, MkMemoryStore
               (<[dn_InstanceID rec := wf_update StatusCompleted StepClosed None (wi_Error i) now i]>
                  (inst m))
               (append_step (dn_InstanceID rec) StepClosed (dn_Detail rec) now (steps_of_inst m)))
  end.

(** [MarkCanceled] and [MarkFailed]: a live instance of the tenant. *)
Definition mark (rec : DoneRecord) (upd : Instance -> Instance) (m : MemoryStore)
    : option error * MemoryStore :=
  match inst m !! dn_InstanceID rec with
  | None => (None, m)
  | Some i =>
      if negb (String.eqb (wi_TenantID i) (dn_TenantID rec)) then (None, m)
      else if wf_live i then
        (None, MkMemoryStore (<[dn_InstanceID rec := upd i]> (inst m)) (steps_of_inst m))
      else (None, m)
  end.

Definition MarkCanceled (rec : DoneRecord) (now : Z) : MemoryStore -> option error * MemoryStore :=
  mark rec (fun i => wf_update StatusCanceled (wi_CurrentStep i) None (wi_Error i) now i).

Definition MarkFailed (rec : DoneRecord) (now : Z) : MemoryStore -> option error * MemoryStore :=
  mark rec (fun i => wf_update StatusFailed (wi_CurrentStep i) (wi_NextRunAt i) (dn_Error rec) now i).

Definition GetInstance (tenantID id : string) (m : MemoryStore) : Instance + error :=
  match inst m !! id with
  | Some i =>
      if String.eqb (wi_TenantID i) tenantID then inl i
      else inr (AppErr (NotFound "workflow.not_found" "workflow not found"))
  | None => inr (AppErr (NotFound "workflow.not_found" "workflow not found"))
  end.
