(* ===== verification/TemporalDriver.v ===== *)
(** * internal/workflows/temporaldriver/workflows.go: the ladders

    The two ladders as Temporal workflow bodies over a [MemoryStore], run by a
    [runtime] that decides which attempts each activity gets and how each of
    them ends, what the services answer to a message, and when the workflow is
    canceled: at a timer or while an activity is pending.
    TemporalClient models driver.go, which hands both to a Temporal client. *)

From Stdlib Require Import String.
From S2P Require Import Prelude GoStd AppErrors Events Store Sql Wp Workflows TemporalStore MemoryStore.

Local Open Scope Z_scope.

Record QueueMessageInput := MkQueueMessageInput {
  qm_TenantID : string;
  qm_CustomerID : string;
  qm_Channel : string;
  qm_To : string;
  qm_Body : string;
}.

Record CallbackInput := MkCallbackInput {
  cb_InstanceID : string;
  cb_TenantID : string;
  cb_CustomerID : string;
  cb_Phone : string;
  cb_Notes : string;
  cb_ScheduleAt : Z;
}.

Record CollectionsInput := MkCollectionsInput {
  ci_InstanceID : string;
  ci_TenantID : string;
  ci_CustomerID : string;
  ci_InvoiceRef : string;
  ci_AmountDue : Z;
  ci_Phone : string;
}.

(** One attempt of an activity: it ran and reports its own result; it ran and
    the report was lost (a timeout, a worker gone); it failed before anything
    was written or handed over. *)
Inductive attempt :=
| Ran (t : Z)
| Lost (t : Z) (err : error)
| Refused (err : error).

(** What Temporal and the messaging plane decide, by the number of the command:
    the attempts the activity gets if the policy asks for that many, whether the
    workflow is canceled while it is pending, and [workflow.Now]; and what the
    services answer to a message at a time. *)
Record runtime := MkRuntime {
  attempts : nat -> list attempt;
  activity_canceled : nat -> bool;
  timer_canceled : nat -> bool;
  svc_error : Z -> option error;
  wf_now : nat -> Z;
}.

(** The store, the messages handed over, the cancellation of the workflow's
    context, and the number of commands so far. *)
Record wst := MkWst {
  w_store : MemoryStore;
  w_sent : list QueueMessageInput;
  w_canceled : bool;
  w_n : nat;
}.

Definition W (A : Type) : Type := runtime -> wst -> A * wst.

#[export] Instance W_ret : MRet W := fun A a _ w => (a, w).
#[export] Instance W_bind : MBind W := fun A B f m rt w => let '(a, w') := m rt w in f a rt w'.

Definition CanceledError : error := OtherErr "canceled" None.

(** No attempt was made in time. *)
Definition TimeoutError : error := OtherErr "activity ScheduleToClose timeout" None.

(** [MaximumAttempts] of [stepActivityOptions] and [terminalActivityOptions]. *)
Definition stepActivityOptions : nat := 5.
Definition terminalActivityOptions : nat := 2.

(** The attempts of an activity on a state: they end with the first success;
    the last error is what the workflow sees. An attempt that outlives its
    timeout counts as over before the command is. *)
Fixpoint run_attempts {S} (f : Z -> S -> option error * S) (l : list attempt) (last : error) (s : S)
    : option error * S :=
  match l with
  | [] => (Some last, s)
  | Ran t :: l => match f t s with (None, s') => (None, s') | (Some err, s') => run_attempts f l err s' end
  | Lost t err :: l => run_attempts f l err (f t s).2
  | Refused err :: l => run_attempts f l err s
  end.

(** [workflow.ExecuteActivity(ctx, ...).Get(ctx, nil)] of a store activity. A
    canceled context runs nothing; a cancellation while the activity is pending
    ends the wait, whatever attempts there were. *)
Definition activity (disconnected : bool) (f : Z -> MemoryStore -> option error * MemoryStore)
    : W (option error) := fun rt w =>
  if w_canceled w && negb disconnected then (Some CanceledError, w)
  else
  let max := if disconnected then terminalActivityOptions else stepActivityOptions in
  let '(r, m) := run_attempts f (take max (attempts rt (w_n w))) TimeoutError (w_store w) in
  let c := activity_canceled rt (w_n w) && negb disconnected in
  (if c then Some CanceledError else r, MkWst m (w_sent w) (w_canceled w || c) (S (w_n w))).

(** [QueueMessageActivity]: what is handed to the services counts as sent,
    whatever they answer. *)
Definition queue_activity (q : QueueMessageInput) : W (option error) := fun rt w =>
  if w_canceled w then (Some CanceledError, w)
  else
  let '(r, sent) := run_attempts (fun t sent => (svc_error rt t, sent ++ [q]))
                      (take stepActivityOptions (attempts rt (w_n w))) TimeoutError (w_sent w) in
  let c := activity_canceled rt (w_n w) in
  (if c then Some CanceledError else r, MkWst (w_store w) sent c (S (w_n w))).

(** [workflow.NewTimer(ctx, d).Get(ctx, nil)] *)
Definition timer : W (option error) := fun rt w =>
  if w_canceled w || timer_canceled rt (w_n w) then
    (Some CanceledError, MkWst (w_store w) (w_sent w) true (S (w_n w)))
  else (None, MkWst (w_store w) (w_sent w) false (S (w_n w))).

Definition workflow_Now : W Z := fun rt w => (wf_now rt (w_n w), w).

Definition collectionsWaitSecond : Z := 48 * hour.
Definition collectionsWaitThird : Z := 72 * hour.

(** [WorkflowResult{Completed}] and the error. *)
Definition wf_result : Type := bool * option error.

Definition audit (instanceID tenantID typ err : string) : DoneRecord :=
  MkDoneRecord instanceID tenantID typ "" [] err.

Definition fail (instanceID tenantID typ : string) (cause : error) : W wf_result :=
  _ ← activity false (MemoryStore.MarkFailed (audit instanceID tenantID typ (error_text cause)));
  mret (false, Some cause).

Definition recordCanceled (instanceID tenantID typ : string) : W () :=
  _ ← activity true (MemoryStore.MarkCanceled (audit instanceID tenantID typ ""));
  mret ().

Definition complete (instanceID tenantID typ expectedPrev : string) : W wf_result :=
  err ← activity false
          (MemoryStore.CompleteInstance (MkDoneRecord instanceID tenantID typ expectedPrev [] ""));
  match err with
  | Some err => mret (false, Some err)
  | None => mret (true, None)
  end.

Definition waitStep (instanceID tenantID typ doneStep nextStep : string) (d : Z) : W (option error) :=
  now ← workflow_Now;
  let at_ := now + d in
  err ← activity false (MemoryStore.RecordStep
          (MkStepRecord instanceID tenantID typ doneStep doneStep
             [("next", VStr nextStep); ("at", VTime at_)] (Some (MkNextStep nextStep at_))));
  match err with
  | Some err => mret (Some err)
  | None =>
      err ← timer;
      match err with
      | Some err =>
          _ ← recordCanceled instanceID tenantID typ;
          mret (Some err)
      | None => mret None
      end
  end.

Definition CallbackWorkflow (i : CallbackInput) : W wf_result :=
  let contact :=
    err ← queue_activity (MkQueueMessageInput (cb_TenantID i) (cb_CustomerID i) "sms" (cb_Phone i)
            ("Callback reminder: " +:+ cb_Notes i));
    match err with
    | Some err => fail (cb_InstanceID i) (cb_TenantID i) TypeCallback err
    | None =>
        err ← activity false (MemoryStore.RecordStep
                (MkStepRecord (cb_InstanceID i) (cb_TenantID i) TypeCallback StepScheduled
                   StepContacted [("channel", VStr "sms")] None));
        match err with
        | Some err => fail (cb_InstanceID i) (cb_TenantID i) TypeCallback err
        | None => complete (cb_InstanceID i) (cb_TenantID i) TypeCallback StepContacted
        end
    end in
  now ← workflow_Now;
  if 0 <? cb_ScheduleAt i - now then
    err ← timer;
    match err with
    | Some err =>
        _ ← recordCanceled (cb_InstanceID i) (cb_TenantID i) TypeCallback;
        mret (false, Some err)
    | None => contact
    end
  else contact.

Definition CollectionsWorkflow (i : CollectionsInput) : W wf_result :=
  let id := ci_InstanceID i in
  let t := ci_TenantID i in
  let message channel body :=
    queue_activity (MkQueueMessageInput t (ci_CustomerID i) channel (ci_Phone i) body) in
  err ← message "sms" ("Invoice " +:+ ci_InvoiceRef i +:+ " is overdue. Amount due: "
          +:+ itoa (ci_AmountDue i) +:+ ". Reply to arrange payment.");
  match err with
  | Some err => fail id t TypeCollections err
  | None =>
  err ← waitStep id t TypeCollections StepContacted StepWaited collectionsWaitSecond;
  match err with
  | Some err => fail id t TypeCollections err
  | None =>
  err ← message "whatsapp" ("Gentle reminder: invoice " +:+ ci_InvoiceRef i
          +:+ " remains outstanding.");
  match err with
  | Some err => fail id t TypeCollections err
  | None =>
  err ← waitStep id t TypeCollections StepWaited StepEscalated collectionsWaitThird;
  match err with
  | Some err => fail id t TypeCollections err
  | None =>
  err ← activity false (MemoryStore.RecordStep
          (MkStepRecord id t TypeCollections StepEscalated StepTaskCreated
             [("channel", VStr "voice")] None));
  match err with
  | Some err => fail id t TypeCollections err
  | None => complete id t TypeCollections StepTaskCreated
  end
  end
  end
  end
  end.
