(* ===== verification/TemporalProps.v ===== *)
(** * Properties of internal/workflows/temporaldriver

    The in-memory store is a refinement of the PostgreSQL one, method by
    method; the ladders end however their activities are attempted, and
    repeated executions of these leave no mark. *)

From Stdlib Require Import String.
From S2P Require Import Prelude GoStd AppErrors Events Store Sql Wp Workflows WorkflowsProps TemporalStore.
From S2P Require Import MemoryStore TemporalDriver.

Local Open Scope Z_scope.

(** ** Related stores *)

(** The same record; timestamps of the row aside, and the timer aside once it
    no longer matters ([running] and [failed]). *)
Definition same_instance (i j : Instance) : Prop :=
  wi_ID i = wi_ID j /\ wi_TenantID i = wi_TenantID j /\ wi_Type i = wi_Type j
  /\ wi_Status i = wi_Status j /\ wi_Payload i = wi_Payload j /\ wi_State i = wi_State j
  /\ wi_CurrentStep i = wi_CurrentStep j /\ wi_Error i = wi_Error j
  /\ (wi_Status i <> StatusRunning -> wi_Status i <> StatusFailed -> wi_NextRunAt i = wi_NextRunAt j).

Definition row_trace (id : string) (d : DB) : list (string * dict) :=
  map (fun w => (ws_Step w, ws_Detail w))
    (List.filter (fun w => String.eqb (ws_InstanceID w) id) (d_wf_steps d)).

Definition mem_trace (id : string) (m : MemoryStore) : list (string * dict) :=
  map (fun t => (tr_Step t, tr_Detail t)) (default [] (steps_of_inst m !! id)).

Record related (d : DB) (m : MemoryStore) : Prop := {
  rel_inst : forall id, option_Forall2 same_instance (d_workflows d !! id) (inst m !! id);
  rel_trace : forall id, row_trace id d = mem_trace id m;
}.

Lemma related_lookup d m id :
  related d m ->
  (exists i j, d_workflows d !! id = Some i /\ inst m !! id = Some j /\ same_instance i j)
  \/ (d_workflows d !! id = None /\ inst m !! id = None).
Proof. intros [H _]. destruct (H id); [left; eauto|by right]. Qed.

Lemma related_frame d d' m :
  d_workflows d' = d_workflows d -> d_wf_steps d' = d_wf_steps d -> related d m -> related d' m.
Proof. intros Hw Hs [H1 H2]. split; unfold row_trace; by rewrite ?Hw, ?Hs. Qed.

Lemma related_set d d' m m' id i j :
  related d m -> same_instance i j ->
  d_workflows d' = <[id := i]> (d_workflows d) -> inst m' = <[id := j]> (inst m) ->
  d_wf_steps d' = d_wf_steps d -> steps_of_inst m' = steps_of_inst m -> related d' m'.
Proof.
  intros [H1 H2] Hij Hw Hm Hs Hms. split; intros k; unfold row_trace, mem_trace;
    rewrite ?Hw, ?Hm, ?Hs, ?Hms; [|apply H2].
  destruct (decide (k = id)) as [->|Hne].
  - rewrite !lookup_insert_eq. by constructor.
  - by rewrite !lookup_insert_ne.
Qed.

Lemma related_set_step d d' m m' id i j step detail now :
  related d m -> same_instance i j ->
  d_workflows d' = <[id := i]> (d_workflows d) -> inst m' = <[id := j]> (inst m) ->
  d_wf_steps d' = d_wf_steps d ++ [MkWfStep id step detail] ->
  steps_of_inst m' = MemoryStore.append_step id step detail now (steps_of_inst m) -> related d' m'.
Proof.
  intros Hr Hij Hw Hm Hs Hms. split; intros k.
  - destruct Hr as [H1 _]. rewrite Hw, Hm. destruct (decide (k = id)) as [->|Hne].
    + rewrite !lookup_insert_eq. by constructor.
    + by rewrite !lookup_insert_ne.
  - destruct Hr as [_ H2]. specialize (H2 k). unfold row_trace, mem_trace in *.
    rewrite Hs, Hms, List.filter_app, map_app, H2. unfold MemoryStore.append_step. simpl.
    destruct (String.eqb_spec id k) as [->|Hne]; simpl.
    + rewrite lookup_insert_eq. simpl. by rewrite map_app.
    + by rewrite lookup_insert_ne, app_nil_r.
Qed.

(** ** Transactions that cannot fail *)

Lemma wp_as_error m e s Q :
  wp m e s (fun r s' => match r with Ok x => Q (Ok x) s' | Err x => Q (Ok (Some (AppErr x))) s' end) ->
  wp (as_error m) e s Q.
Proof. unfold wp, as_error. by destruct (m e s) as [[x|x] s']. Qed.

Lemma fresh_frame e n k d d' :
  fresh e n d -> (n <= k)%nat -> d_outbox d' = d_outbox d -> fresh e k d'.
Proof.
  intros [H1 H2] Hk Ho. split; [intros; apply H1; [lia|done]|]. intros i o Hi. rewrite Ho. apply H2. lia.
Qed.

Lemma fresh_emitted e n d v :
  fresh e n d -> e_ID v = uuid_of e n ->
  fresh e (S (S (S n))) (set_outbox (fun l => l ++ [MkOutboxRow v "pending" 0 "" None]) d).
Proof.
  intros [H1 H2] Hv. split; [intros; apply H1; [lia|done]|]. simpl.
  intros i o Hi [Ho|Ho]%elem_of_app; [apply H2; [lia|done]|].
  apply list_elem_of_singleton in Ho as ->. simpl. rewrite Hv. intros E. symmetry in E.
  apply H1 in E; lia.
Qed.

Section healthy.
Context (e : env) (Hh : healthy e).

Lemma wp_recordStep_ok id step detail c d t n Q :
  Q (Ok ()) (MkSt c (Some (set_wf_steps (fun l => l ++ [MkWfStep id step detail]) d, t)) (S n)) ->
  wp (recordStep id step detail) e (MkSt c (Some (d, t)) n) Q.
Proof.
  intros HQ. unfold recordStep. wp_go; try no_fault Hh; [done|]. by injection Hx as <- _.
Qed.

Lemma wp_emit_ok source topic id tenant data c d t n Q :
  IsRegistered topic = true -> tenant <> "" -> fresh e n d ->
  (forall v n', e_Type v = topic -> e_Subject v = id ->
    fresh e n' (set_outbox (fun l => l ++ [MkOutboxRow v "pending" 0 "" None]) d) ->
    Q (Ok ())
    (MkSt c (Some (set_outbox (fun l => l ++ [MkOutboxRow v "pending" 0 "" None]) d, t)) n')) ->
  wp (emit source topic id tenant data) e (MkSt c (Some (d, t)) n) Q.
Proof.
  intros Ht Hn Hfr HQ. pose proof Hfr as [_ Hf]. unfold emit. wp_step. apply wp_events_New_ok; [done..|]. wp_simpl.
  wp_step. apply wp_Writer_Insert_ok; [done| | |by apply HQ; [..|apply fresh_emitted]].
  - unfold Validate. simpl. rewrite (healthy_uuid _ Hh), Ht. simpl.
    by rewrite (proj2 (is_empty_false tenant)).
  - intros o Ho. simpl. by apply Hf.
Qed.
End healthy.

(** ** One operation on both stores *)

Inductive store_op :=
| OpStart (rec : StartRecord)
| OpStep (rec : StepRecord)
| OpComplete (rec : DoneRecord)
| OpCancel (rec : DoneRecord)
| OpFail (rec : DoneRecord).

Definition pg_op (source : string) (o : store_op) : M (option error) :=
  match o with
  | OpStart rec => TemporalStore.StartInstance source rec
  | OpStep rec => TemporalStore.RecordStep source rec
  | OpComplete rec => TemporalStore.CompleteInstance source rec
  | OpCancel rec => TemporalStore.MarkCanceled rec
  | OpFail rec => TemporalStore.MarkFailed rec
  end.

Definition mem_op (o : store_op) : Z -> MemoryStore -> option error * MemoryStore :=
  match o with
  | OpStart rec => MemoryStore.StartInstance rec
  | OpStep rec => MemoryStore.RecordStep rec
  | OpComplete rec => MemoryStore.CompleteInstance rec
  | OpCancel rec => MemoryStore.MarkCanceled rec
  | OpFail rec => MemoryStore.MarkFailed rec
  end.

(** The operations the driver issues: a tenant, and a new instance without an
    error text. *)
Definition op_ok (o : store_op) : Prop :=
  match o with
  | OpStart rec => wi_TenantID (sr_Instance rec) <> "" /\ wi_Error (sr_Instance rec) = ""
  | OpStep rec => rs_TenantID rec <> ""
  | OpComplete rec => dn_TenantID rec <> ""
  | OpCancel _ | OpFail _ => True
  end.

Section simulation.
Context (source : string) (e : env) (Hh : healthy e) (now : Z).

(** Both runs end with the same error value and related stores. *)
Definition simulated (p : option error * MemoryStore) (r : result (option error)) (s' : st) : Prop :=
  r = Ok p.1 /\ related (committed s') p.2 /\ fresh e (steps s') (committed s').

Lemma sim_start rec s m :
  fresh e (steps s) (committed s) -> op_ok (OpStart rec) -> related (committed s) m ->
  wp (TemporalStore.StartInstance source rec) e s (simulated (MemoryStore.StartInstance rec now m)).
Proof.
  intros Hf [Ht He] Hr. unfold TemporalStore.StartInstance, MemoryStore.StartInstance. apply wp_as_error.
  destruct (related_lookup _ _ (wi_ID (sr_Instance rec)) Hr) as [(i & j & Hi & Hj & _)|[Hi Hj]];
    rewrite Hj; wp_step; try no_fault Hh; wp_step; unfold insertInstance;
    wp_step; wp_step; try no_fault Hh; wp_simpl; wp_go.
  - split; [done|]. split; [done|]. by eapply fresh_frame; [exact Hf|simpl; lia|].
  - unfold ins_instance in Hx. by rewrite Hi in Hx.
  - unfold ins_instance in Hx. by rewrite Hi in Hx.
  - unfold ins_instance in Hx. rewrite Hi in Hx. injection Hx as <- _.
    apply wp_recordStep_ok; [done|]. wp_step.
    apply wp_emit_ok; [done|done|done| |].
    { eapply fresh_frame; [exact Hf|lia|done]. }
    intros v n' _ _ Hv. wp_go; try no_fault Hh. split; [done|].
    split; [|by eapply fresh_frame; [exact Hv|simpl; lia|]]. simpl.
    eapply (related_set_step _ _ _ _ _ _ (sr_Instance rec)); [exact Hr| |done..].
    by repeat split.
Qed.

(** The instance a guarded update applies to. *)
Definition hit (t id : string) (g : Instance -> bool) (m : MemoryStore) : option Instance :=
  match inst m !! id with
  | Some j => if String.eqb (wi_TenantID j) t && g j then Some j else None
  | None => None
  end.

Lemma hit_Some t id g m j : hit t id g m = Some j -> inst m !! id = Some j.
Proof. unfold hit. destruct (inst m !! id); [|done]. by destruct (_ && _); intros [= ->]. Qed.

Lemma upd_wf_hit t id g u tm d m :
  (forall i j, same_instance i j -> g i = g j) -> related d m ->
  match hit t id g m with
  | None => upd_wf t id g u tm d = Some (d, 0%nat)
  | Some j => exists i, d_workflows d !! id = Some i /\ same_instance i j
      /\ upd_wf t id g u tm d = Some (set_workflows (<[id := u tm i]>) d, 1%nat)
  end.
Proof.
  intros Hg Hr. unfold hit, upd_wf.
  destruct (related_lookup _ _ id Hr) as [(i & j & -> & -> & Hij)|[-> ->]]; [|done].
  rewrite (Hg i j Hij). pose proof Hij as (_ & -> & _).
  destruct (_ && _); [|done]. by exists i.
Qed.

Lemma wp_upd_wf_hit t id g u d m c tm n Q :
  (forall i j, same_instance i j -> g i = g j) -> related d m ->
  match hit t id g m with
  | None => Q (Ok (SqlOk 0%nat)) (MkSt c (Some (d, tm)) (S n))
  | Some j => forall i, d_workflows d !! id = Some i -> same_instance i j ->
      Q (Ok (SqlOk 1%nat)) (MkSt c (Some (set_workflows (<[id := u tm i]>) d, tm)) (S n))
  end -> wp (tx_Exec (upd_wf t id g u)) e (MkSt c (Some (d, tm)) n) Q.
Proof.
  intros Hg Hr HQ. pose proof (upd_wf_hit t id g u tm d m Hg Hr) as Hu.
  unfold wp, tx_Exec, tx_Returning. simpl. rewrite (healthy_fault _ Hh).
  destruct (hit t id g m) as [j|]; [destruct Hu as (i & Hi & Hij & ->); by apply HQ|by rewrite Hu].
Qed.

Lemma wp_pool_upd_wf_hit t id g u s m Q :
  (forall i j, same_instance i j -> g i = g j) -> related (committed s) m ->
  match hit t id g m with
  | None => Q (Ok (SqlOk 0%nat)) (bump s)
  | Some j => forall i tm, d_workflows (committed s) !! id = Some i -> same_instance i j ->
      Q (Ok (SqlOk 1%nat))
        (MkSt (set_workflows (<[id := u tm i]>) (committed s)) (txn s) (S (steps s)))
  end -> wp (pool_Exec (upd_wf t id g u)) e s Q.
Proof.
  intros Hg Hr HQ. pose proof (upd_wf_hit t id g u (clock e (steps s)) _ m Hg Hr) as Hu.
  unfold wp, pool_Exec. rewrite (healthy_fault _ Hh).
  destruct (hit t id g m) as [j|]; [destruct Hu as (i & Hi & Hij & ->); by apply HQ|by rewrite Hu].
Qed.

Lemma same_at_step step i j : same_instance i j -> at_step step i = at_step step j.
Proof. unfold at_step. by intros (_ & _ & _ & _ & _ & _ & -> & _). Qed.

Lemma same_wf_live i j : same_instance i j -> wf_live i = wf_live j.
Proof. unfold wf_live. by intros (_ & _ & _ & -> & _). Qed.

(** Equal updates of related instances; the timers may differ in [running]
    and [failed]. *)
Lemma same_update i j status step nx nx' err err' tm tm' :
  same_instance i j -> err = err' -> (status <> StatusRunning -> status <> StatusFailed -> nx = nx') ->
  same_instance (wf_update status step nx err tm i) (wf_update status step nx' err' tm' j).
Proof. intros (H1 & H2 & H3 & _ & H5 & H6 & _) -> Hn. by repeat split. Qed.

Lemma memory_step_hit rec m :
  MemoryStore.RecordStep rec now m =
  match hit (rs_TenantID rec) (rs_InstanceID rec) (at_step (rs_ExpectedPrev rec)) m with
  | None => (None, m)
  | Some j =>
      (None, MkMemoryStore
        (<[rs_InstanceID rec :=
           match rs_Next rec with
           | Some nx => wf_update StatusWaitingTimer (nx_Step nx) (Some (nx_RunAt nx)) (wi_Error j) now j
           | None => wf_update StatusRunning (rs_DoneStep rec) (wi_NextRunAt j) (wi_Error j) now j
           end]> (inst m))
        (MemoryStore.append_step (rs_InstanceID rec) (rs_DoneStep rec) (rs_Detail rec) now
           (steps_of_inst m)))
  end.
Proof.
  unfold MemoryStore.RecordStep, hit. destruct (inst m !! _) as [j|]; [|done].
  by destruct (String.eqb _ _), (at_step _ j).
Qed.

Lemma memory_complete_hit rec m :
  MemoryStore.CompleteInstance rec now m =
  match hit (dn_TenantID rec) (dn_InstanceID rec) (at_step (dn_ExpectedPrev rec)) m with
  | None => (None, m)
  | Some j =>
      (None, MkMemoryStore
        (<[dn_InstanceID rec := wf_update StatusCompleted StepClosed None (wi_Error j) now j]> (inst m))
        (MemoryStore.append_step (dn_InstanceID rec) StepClosed (dn_Detail rec) now (steps_of_inst m)))
  end.
Proof.
  unfold MemoryStore.CompleteInstance, hit. destruct (inst m !! _) as [j|]; [|done].
  by destruct (String.eqb _ _), (at_step _ j).
Qed.

Lemma memory_mark_hit rec u m :
  MemoryStore.mark rec u m =
  match hit (dn_TenantID rec) (dn_InstanceID rec) wf_live m with
  | None => (None, m)
  | Some j => (None, MkMemoryStore (<[dn_InstanceID rec := u j]> (inst m)) (steps_of_inst m))
  end.
Proof.
  unfold MemoryStore.mark, hit. destruct (inst m !! _) as [j|]; [|done].
  by destruct (String.eqb _ _), (wf_live j).
Qed.

Lemma sim_step rec s m :
  fresh e (steps s) (committed s) -> op_ok (OpStep rec) -> related (committed s) m ->
  wp (TemporalStore.RecordStep source rec) e s (simulated (MemoryStore.RecordStep rec now m)).
Proof.
  intros Hf Ht Hr. rewrite memory_step_hit. apply wp_as_error.
  wp_step; [no_fault Hh|]. wp_step. unfold TemporalStore.upd_step, step_target.
  destruct (rs_Next rec) as [nx|] eqn:En; (apply wp_upd_wf_hit with (m := m);
    [by intros; apply same_at_step|exact Hr|]); (destruct (hit _ _ _ m) as [j|]; [|by split; [|split; [|eapply fresh_frame; [exact Hf|simpl; lia|]]]]);
    intros i Hi Hij; simpl; wp_step; (apply wp_recordStep_ok; [done|]); wp_step.
  - apply wp_emit_ok; [done|done|done| |].
    { eapply fresh_frame; [exact Hf|lia|done]. }
    intros v n' _ _ Hv. wp_go; try no_fault Hh. split; [done|].
    split; [|by eapply fresh_frame; [exact Hv|simpl; lia|]].
    eapply related_set_step; [exact Hr| |done..]. by apply same_update; [|apply Hij|].
  - wp_go; try no_fault Hh. split; [done|].
    split; [|by eapply fresh_frame; [exact Hf|simpl; lia|]].
    eapply related_set_step; [exact Hr| |done..]. by apply same_update; [|apply Hij|].
Qed.

Lemma sim_complete rec s m :
  fresh e (steps s) (committed s) -> op_ok (OpComplete rec) -> related (committed s) m ->
  wp (TemporalStore.CompleteInstance source rec) e s (simulated (MemoryStore.CompleteInstance rec now m)).
Proof.
  intros Hf Ht Hr. rewrite memory_complete_hit. apply wp_as_error.
  wp_step; [no_fault Hh|]. wp_step.
  apply wp_upd_wf_hit with (m := m); [by intros; apply same_at_step|exact Hr|].
  destruct (hit _ _ _ m) as [j|]; [|by split; [|split; [|eapply fresh_frame; [exact Hf|simpl; lia|]]]]. intros i Hi Hij. simpl. wp_step.
  apply wp_recordStep_ok; [done|]. wp_step. apply wp_emit_ok; [done|done|done| |].
  { eapply fresh_frame; [exact Hf|lia|done]. }
  intros v n' _ _ Hv. unfold wp, tx_Commit. simpl. rewrite (healthy_fault _ Hh). split; [done|].
  split; [|by eapply fresh_frame; [exact Hv|simpl; lia|]].
  eapply related_set_step; [exact Hr| |done..]. by apply same_update; [|apply Hij|].
Qed.

Lemma sim_cancel rec s m :
  fresh e (steps s) (committed s) -> related (committed s) m ->
  wp (TemporalStore.MarkCanceled rec) e s (simulated (MemoryStore.MarkCanceled rec now m)).
Proof.
  intros Hf Hr. unfold MemoryStore.MarkCanceled. rewrite memory_mark_hit. apply wp_as_error. wp_step.
  apply wp_pool_upd_wf_hit with (m := m); [apply same_wf_live|exact Hr|].
  destruct (hit _ _ _ m) as [j|]; [|by split; [|split; [|eapply fresh_frame; [exact Hf|simpl; lia|]]]]. intros i tm Hi Hij. split; [done|].
  split; [|by eapply fresh_frame; [exact Hf|simpl; lia|]].
  pose proof Hij as (_ & _ & _ & _ & _ & _ & Hst & Her & _). rewrite <- Hst, <- Her.
  eapply related_set; [exact Hr| |done..]. by apply same_update.
Qed.

Lemma sim_fail rec s m :
  fresh e (steps s) (committed s) -> related (committed s) m ->
  wp (TemporalStore.MarkFailed rec) e s (simulated (MemoryStore.MarkFailed rec now m)).
Proof.
  intros Hf Hr. unfold MemoryStore.MarkFailed. rewrite memory_mark_hit. apply wp_as_error. wp_step.
  apply wp_pool_upd_wf_hit with (m := m); [apply same_wf_live|exact Hr|].
  destruct (hit _ _ _ m) as [j|]; [|by split; [|split; [|eapply fresh_frame; [exact Hf|simpl; lia|]]]]. intros i tm Hi Hij. split; [done|].
  split; [|by eapply fresh_frame; [exact Hf|simpl; lia|]].
  pose proof Hij as (_ & _ & _ & _ & _ & _ & Hst & _). rewrite <- Hst.
  eapply related_set; [exact Hr| |done..]. by apply same_update.
Qed.
End simulation.

(** ** Sequences of operations *)

(** The operations in order, with their results; the memory store takes a time
    for each. *)
Fixpoint pg_run (source : string) (ops : list (store_op * Z)) : M (list (option error)) :=
  match ops with
  | [] => mret []
  | (o, _) :: ops => r ← pg_op source o; rs ← pg_run source ops; mret (r :: rs)
  end.

Fixpoint mem_run (ops : list (store_op * Z)) (m : MemoryStore) : list (option error) * MemoryStore :=
  match ops with
  | [] => ([], m)
  | (o, now) :: ops =>
      let '(r, m1) := mem_op o now m in let '(rs, m2) := mem_run ops m1 in (r :: rs, m2)
  end.

Lemma op_simulated source e o now s m :
  healthy e -> fresh e (steps s) (committed s) -> op_ok o -> related (committed s) m ->
  wp (pg_op source o) e s (simulated e (mem_op o now m)).
Proof.
  intros Hh Hf Ho Hr. destruct o; [by apply sim_start|by apply sim_step|by apply sim_complete
    |by apply sim_cancel|by apply sim_fail].
Qed.

Lemma run_simulated source e ops s m :
  healthy e -> fresh e (steps s) (committed s) -> Forall (fun p => op_ok p.1) ops ->
  related (committed s) m ->
  wp (pg_run source ops) e s (fun r s' => let '(rs, m') := mem_run ops m in
    r = Ok rs /\ related (committed s') m').
Proof.
  intros Hh Hf Ho. revert s m Hf. induction Ho as [|[o now] ops Ho _ IH]; intros s m Hf Hr;
    cbn [pg_run mem_run]; wp_step; [done|].
  eapply wp_mono; [by apply (op_simulated source e o now s m)|]. intros r s' (-> & Hr1 & Hf1).
  destruct (mem_op o now m) as [r1 m1]. simpl in *. wp_step. eapply wp_mono; [by apply (IH s' m1)|].
  intros rs s2. destruct (mem_run ops m1) as [rs2 m2]. intros [-> Hr2]. wp_go. done.
Qed.

(** ** Workflow bodies *)

(** Executing an activity again changes nothing. *)
Definition repeatable (f : Z -> MemoryStore -> option error * MemoryStore) (m : MemoryStore) : Prop :=
  forall t t', f t' (f t m).2 = f t m.

(** An attempt that reached the store. *)
Definition wrote (a : attempt) : Prop := match a with Refused _ => False | _ => True end.

(** However it was attempted, a repeatable operation that reports no error of
    its own left the store as it was or ran once; a success means that it ran,
    and so does any attempt that reached the store. *)
Lemma run_attempts_once f l last m : repeatable f m -> (forall t m', (f t m').1 = None) ->
  let '(r, m') := run_attempts f l last m in
  (m' = m \/ exists t, m' = (f t m).2) /\ (r = None \/ Exists wrote l -> exists t, m' = (f t m).2).
Proof.
  intros Hr Hn.
  assert (forall l last t0, (run_attempts f l last (f t0 m).2).2 = (f t0 m).2) as Hran.
  { clear l last. induction l as [|[t|t err|err] l IH]; intros last t0; cbn [run_attempts]; [done| | |apply IH].
    - rewrite (surjective_pairing (f t _)), Hn. cbn [snd]. by rewrite Hr.
    - rewrite (Hr t0 t). apply IH. }
  revert last. induction l as [|[t|t err|err] l IH]; intros last; cbn [run_attempts].
  - split; [by left|]. intros [?|H]; [done|by apply Exists_nil in H].
  - rewrite (surjective_pairing (f t m)), Hn. split; [right|]; by exists t.
  - specialize (Hran l err t). destruct (run_attempts f l err (f t m).2) as [r m']. cbn [snd] in Hran. subst m'.
    split; [right|]; by exists t.
  - specialize (IH err). destruct (run_attempts f l err m) as [r m']. destruct IH as [H1 H2]. split; [done|].
    intros [?|H]; [by apply H2; left|]. apply Exists_cons in H as [[]|H]. apply H2. by right.
Qed.

(** An attempt whose own answer is no error ends the activity well. *)
Lemma run_attempts_granted {S} (f : Z -> S -> option error * S) g l last s :
  (forall t s, (f t s).1 = g t) -> Exists (fun a => exists t, a = Ran t /\ g t = None) l ->
  (run_attempts f l last s).1 = None.
Proof.
  intros Hg. revert last s. induction l as [|a l IH]; intros last s Hl; [by apply Exists_nil in Hl|].
  apply Exists_cons in Hl as [(t & -> & Ht)|Hl]; cbn [run_attempts].
  - pose proof (Hg t s) as E. destruct (f t s) as [[err|] s']; [|done]. by rewrite Ht in E.
  - destruct a as [t|t err|err]; [destruct (f t s) as [[err|] s']|..]; by auto.
Qed.

(** Messages are handed over once for each attempt that got so far. *)
Lemma run_attempts_sent g (q : QueueMessageInput) l last sent :
  let '(r, sent') := run_attempts (fun t sent => (g t, sent ++ [q])) l last sent in
  exists k, sent' = sent ++ repeat q k /\ (r = None -> k <> 0%nat).
Proof.
  revert last sent. induction l as [|a l IH]; intros last sent; cbn [run_attempts]; [exists 0%nat; by rewrite app_nil_r|].
  assert (forall err, let '(r, sent') := run_attempts (fun t sent => (g t, sent ++ [q])) l err (sent ++ [q]) in
    exists k, sent' = sent ++ repeat q k /\ (r = None -> k <> 0%nat)) as Hnext.
  { intros err. specialize (IH err (sent ++ [q])). destruct (run_attempts _ l err _) as [r sent'].
    destruct IH as (k & -> & _). exists (S k). by rewrite <- (assoc_L (++)). }
  destruct a as [t|t err|err]; [|apply Hnext|apply IH]. destruct (g t); [apply Hnext|]. by exists 1%nat.
Qed.

Lemma wf_update_status st step nx err tm i : wi_Status (wf_update st step nx err tm i) = st.
Proof. done. Qed.

(** The step moves away from its guard, so its repetition misses. *)
Lemma RecordStep_repeatable rec m :
  (step_target rec).1.2 <> rs_ExpectedPrev rec -> repeatable (MemoryStore.RecordStep rec) m.
Proof.
  intros Hne t t'. unfold MemoryStore.RecordStep. destruct (inst m !! rs_InstanceID rec) as [j|] eqn:Hj.
  - destruct (_ || _) eqn:Eg; simpl; [by rewrite Hj, Eg|]. rewrite lookup_insert_eq.
    replace (negb (at_step _ _)) with true; [by rewrite orb_true_r|]. symmetry. apply negb_true_iff.
    unfold at_step, step_target in *. apply String.eqb_neq. by destruct (rs_Next rec).
  - simpl. by rewrite Hj.
Qed.

Lemma CompleteInstance_repeatable rec m :
  dn_ExpectedPrev rec <> StepClosed -> repeatable (MemoryStore.CompleteInstance rec) m.
Proof.
  intros Hne t t'. unfold MemoryStore.CompleteInstance.
  destruct (inst m !! dn_InstanceID rec) as [j|] eqn:Hj.
  - destruct (_ || _) eqn:Eg; simpl; [by rewrite Hj, Eg|]. rewrite lookup_insert_eq.
    replace (negb (at_step _ _)) with true; [by rewrite orb_true_r|]. symmetry. apply negb_true_iff.
    unfold at_step. by apply String.eqb_neq.
  - simpl. by rewrite Hj.
Qed.

Lemma mark_repeatable rec u m :
  (forall t i, wf_live (u t i) = false) -> repeatable (fun t => MemoryStore.mark rec (u t)) m.
Proof.
  intros Hu t t'. unfold MemoryStore.mark. destruct (inst m !! dn_InstanceID rec) as [j|] eqn:Hj.
  - destruct (negb _) eqn:Et; simpl; [by rewrite Hj, Et|]. destruct (wf_live j) eqn:El; simpl.
    + rewrite lookup_insert_eq, Hu. by case_match.
    + by rewrite Hj, Et, El.
  - simpl. by rewrite Hj.
Qed.

(** Where an instance stands: tenant, status, current step and trace. *)
Definition audit_at (id t status step : string) (tr : list string) (m : MemoryStore) : Prop :=
  exists j, inst m !! id = Some j /\ wi_TenantID j = t /\ wi_Status j = status
    /\ wi_CurrentStep j = step /\ map tr_Step (default [] (steps_of_inst m !! id)) = tr.

Lemma audit_set id t status step tr m j j' st' :
  inst m !! id = Some j -> wi_TenantID j' = t -> wi_Status j' = status -> wi_CurrentStep j' = step ->
  map tr_Step (default [] (st' !! id)) = tr ->
  audit_at id t status step tr (MkMemoryStore (<[id := j']> (inst m)) st').
Proof. intros. exists j'. simpl. by rewrite lookup_insert_eq. Qed.

Lemma map_append_step id step detail now m tr :
  map tr_Step (default [] (m !! id)) = tr ->
  map tr_Step (default [] (MemoryStore.append_step id step detail now m !! id)) = tr ++ [step].
Proof. intros <-. unfold MemoryStore.append_step. rewrite lookup_insert_eq. simpl. by rewrite map_app. Qed.

Section bodies.
Context (rt : runtime).

(** Running a body: the result and the final state satisfy [Q]. *)
Definition wwp {A} (m : W A) (w : wst) (Q : A -> wst -> Prop) : Prop :=
  let '(a, w') := m rt w in Q a w'.

Lemma wwp_bind {A B} (m : W A) (k : A -> W B) w Q :
  wwp m w (fun a w' => wwp (k a) w' Q) -> wwp (mbind k m) w Q.
Proof. unfold wwp, mbind, W_bind. by destruct (m rt w). Qed.

Lemma wwp_ret {A} (a : A) w (Q : A -> wst -> Prop) : Q a w -> wwp (mret a) w Q.
Proof. done. Qed.

(** Every attempt at a store succeeds in the end, and the workflow is canceled at
    its timers only. *)
Definition audited : Prop :=
  forall n, activity_canceled rt n = false /\ Exists wrote (take terminalActivityOptions (attempts rt n)).

(** Nothing is canceled, and every activity has an attempt that succeeds. *)
Definition calm : Prop :=
  forall n, activity_canceled rt n = false /\ timer_canceled rt n = false
    /\ Exists (fun a => exists t, a = Ran t /\ svc_error rt t = None) (take stepActivityOptions (attempts rt n)).

Lemma audited_wrote n k : audited -> (terminalActivityOptions <= k)%nat -> Exists wrote (take k (attempts rt n)).
Proof.
  intros Ha Hk. destruct (Ha n) as [_ H]. replace terminalActivityOptions with (terminalActivityOptions `min` k)%nat in H by lia.
  rewrite <- take_take in H. apply Exists_exists in H as (a & Hin & Hw). apply Exists_exists. exists a.
  split; [|done]. by eapply elem_of_take in Hin as (i & Hi & _); eapply list_elem_of_lookup_2.
Qed.

(** A store operation as an activity: with an error it may have run or not. *)
Lemma wwp_activity disc f m sent c n (Q : option error -> wst -> Prop) :
  (disc = true \/ c = false) -> repeatable f m -> (forall t m', (f t m').1 = None) ->
  (forall t n', Q None (MkWst (f t m).2 sent c n')) ->
  (forall x c' m' n', (m' = m \/ exists t, m' = (f t m).2) -> (audited -> exists t, m' = (f t m).2) ->
     (audited -> c' = c) -> (disc = true -> c' = c) -> (disc = false -> ~ calm) -> Q (Some x) (MkWst m' sent c' n')) ->
  wwp (activity disc f) (MkWst m sent c n) Q.
Proof.
  intros Hc Hr Hn HQ1 HQ2. unfold wwp, activity. cbn [w_canceled w_store w_sent w_n].
  replace (c && negb disc) with false by (by destruct Hc as [-> | ->]; rewrite ?andb_false_r).
  set (k := if disc then terminalActivityOptions else stepActivityOptions).
  pose proof (run_attempts_once f (take k (attempts rt n)) TimeoutError m Hr Hn) as Ho.
  pose proof (run_attempts_granted f (fun _ => None) (take k (attempts rt n)) TimeoutError m Hn) as Hg.
  destruct (run_attempts f _ _ m) as [r m']. destruct Ho as [H1 H2]. cbn [fst] in Hg.
  assert (audited -> exists t, m' = (f t m).2) as Hau.
  { intros Ha. apply H2. right. apply audited_wrote; [done|]. subst k. destruct disc; unfold stepActivityOptions, terminalActivityOptions; lia. }
  destruct (activity_canceled rt n && negb disc) eqn:E; cbn [orb].
  { apply andb_true_iff in E as [E Ed]. rewrite orb_true_r. apply HQ2; [done|done| | |].
    - intros Ha. by rewrite (proj1 (Ha n)) in E.
    - intros ->. done.
    - intros _ Hcalm. by rewrite (proj1 (Hcalm n)) in E. }
  rewrite orb_false_r. destruct r as [x|].
  - apply HQ2; [done..|]. intros -> Hcalm. discriminate Hg. destruct (Hcalm n) as (_ & _ & Hex).
    eapply Exists_impl; [exact Hex|]. intros a (t & -> & _). by exists t.
  - destruct H2 as [t ->]; [by left|]. apply HQ1.
Qed.

Lemma wwp_canceled f w Q :
  w_canceled w = true -> Q (Some CanceledError) w -> wwp (activity false f) w Q.
Proof. intros Hc HQ. unfold wwp, activity. by rewrite Hc. Qed.

Lemma RecordStep_done rec t m : (MemoryStore.RecordStep rec t m).1 = None.
Proof. unfold MemoryStore.RecordStep. by repeat case_match. Qed.

Lemma CompleteInstance_done rec t m : (MemoryStore.CompleteInstance rec t m).1 = None.
Proof. unfold MemoryStore.CompleteInstance. by repeat case_match. Qed.

Lemma mark_done rec u m : (MemoryStore.mark rec u m).1 = None.
Proof. unfold MemoryStore.mark. by repeat case_match. Qed.

Definition live_status (status : string) : Prop :=
  status = StatusRunning \/ status = StatusWaitingTimer.

Definition terminal_status (status : string) : Prop :=
  status ∈ [StatusCompleted; StatusFailed; StatusCanceled].

Lemma wwp_step id t typ status prev tr done detail nx m sent n Q :
  let st' := (step_target (MkStepRecord id t typ prev done detail nx)).1.1 in
  let step' := (step_target (MkStepRecord id t typ prev done detail nx)).1.2 in
  audit_at id t status prev tr m -> step' <> prev ->
  (forall m' n', audit_at id t st' step' (tr ++ [done]) m' -> Q None (MkWst m' sent false n')) ->
  (forall x c m' n', (audit_at id t status prev tr m' \/ audit_at id t st' step' (tr ++ [done]) m') ->
    (audited -> c = false) -> ~ calm -> Q (Some x) (MkWst m' sent c n')) ->
  wwp (activity false (MemoryStore.RecordStep (MkStepRecord id t typ prev done detail nx)))
    (MkWst m sent false n) Q.
Proof.
  intros st' step' Ha Hne HQ HF. pose proof Ha as (j & Hj & Ht & Hs & Hst & Htr).
  assert (forall tm, audit_at id t st' step' (tr ++ [done])
    (MemoryStore.RecordStep (MkStepRecord id t typ prev done detail nx) tm m).2) as Hrun.
  { intros tm. unfold MemoryStore.RecordStep. cbn [rs_InstanceID rs_TenantID rs_ExpectedPrev rs_DoneStep rs_Detail rs_Next].
    rewrite Hj, Ht, String.eqb_refl. unfold at_step. rewrite Hst, String.eqb_refl. cbn [negb orb snd].
    destruct nx; (apply (audit_set _ _ _ _ _ _ j); [done|done|done|done|by apply map_append_step]). }
  apply wwp_activity; [by right|by apply RecordStep_repeatable|apply RecordStep_done| |].
  - intros tm n'. apply HQ, Hrun.
  - intros x c' m' n' [-> |[tm ->]] _ Hau _ Hc; apply HF; [by left|..]; auto.
Qed.

Lemma wwp_complete id t typ status prev tr m sent n Q :
  audit_at id t status prev tr m -> prev <> StepClosed ->
  (forall m' n', audit_at id t StatusCompleted StepClosed (tr ++ [StepClosed]) m' ->
    Q (true, None) (MkWst m' sent false n')) ->
  (forall x c m' n', (audit_at id t status prev tr m' \/ audit_at id t StatusCompleted StepClosed (tr ++ [StepClosed]) m') ->
    (audited -> audit_at id t StatusCompleted StepClosed (tr ++ [StepClosed]) m') -> ~ calm ->
    Q (false, Some x) (MkWst m' sent c n')) ->
  wwp (complete id t typ prev) (MkWst m sent false n) Q.
Proof.
  intros Ha Hne HQ HF. pose proof Ha as (j & Hj & Ht & Hs & Hst & Htr).
  assert (forall tm, audit_at id t StatusCompleted StepClosed (tr ++ [StepClosed])
    (MemoryStore.CompleteInstance (MkDoneRecord id t typ prev [] "") tm m).2) as Hrun.
  { intros tm. unfold MemoryStore.CompleteInstance. cbn [dn_InstanceID dn_TenantID dn_ExpectedPrev dn_Detail].
    rewrite Hj, Ht, String.eqb_refl. unfold at_step. rewrite Hst, String.eqb_refl. cbn [negb orb snd].
    apply (audit_set _ _ _ _ _ _ j); [done|done|done|done|by apply map_append_step]. }
  unfold complete. apply wwp_bind, wwp_activity; [by right|by apply CompleteInstance_repeatable|apply CompleteInstance_done| |].
  - intros tm n'. by apply wwp_ret, HQ.
  - intros x c' m' n' Hm Hau _ _ Hc. apply wwp_ret, HF; [|intros Hx; destruct (Hau Hx) as [tm ->]; apply Hrun|by apply Hc].
    destruct Hm as [-> |[tm ->]]; [by left|right; apply Hrun].
Qed.

Lemma mark_at id t status step tr m u (rec : DoneRecord) :
  audit_at id t status step tr m -> live_status status -> dn_InstanceID rec = id -> dn_TenantID rec = t ->
  (forall j, wi_TenantID (u j) = wi_TenantID j /\ wi_CurrentStep (u j) = wi_CurrentStep j) ->
  forall j, inst m !! id = Some j -> audit_at id t (wi_Status (u j)) step tr (MemoryStore.mark rec u m).2.
Proof.
  intros (j & Hj & Ht & Hs & Hst & Htr) Hl Hid Htt Hu j0 Hj0. rewrite Hj in Hj0. injection Hj0 as <-.
  unfold MemoryStore.mark. rewrite Hid, Hj, Htt, Ht, String.eqb_refl. cbn [negb].
  replace (wf_live j) with true by (unfold wf_live; rewrite Hs; by destruct Hl as [-> | ->]).
  destruct (Hu j) as [Hu1 Hu2]. apply (audit_set _ _ _ _ _ _ j); congruence.
Qed.

Lemma wwp_fail id t typ err status step tr m sent c n Q :
  audit_at id t status step tr m -> (c = false -> live_status status) ->
  (forall c' m' n' status', audit_at id t status' step tr m' -> (c = true -> status' = status) ->
    (audited -> c = false -> status' = StatusFailed) -> Q (false, Some err) (MkWst m' sent c' n')) ->
  wwp (fail id t typ err) (MkWst m sent c n) Q.
Proof.
  intros Ha Hl HQ. unfold fail. apply wwp_bind. destruct c.
  { apply wwp_canceled; [done|]. apply wwp_ret. by apply (HQ _ _ _ status). }
  specialize (Hl eq_refl). pose proof Ha as (j & Hj & _).
  assert (forall tm, audit_at id t StatusFailed step tr
    (MemoryStore.MarkFailed (audit id t typ (error_text err)) tm m).2) as Hrun.
  { intros tm. exact (mark_at id t status step tr m
      (fun i => wf_update StatusFailed (wi_CurrentStep i) (wi_NextRunAt i) (error_text err) tm i)
      (audit id t typ (error_text err)) Ha Hl eq_refl eq_refl
      (fun _ => conj eq_refl eq_refl) j Hj). }
  apply wwp_activity; [by right|by apply mark_repeatable|intros; apply mark_done| |].
  - intros tm n'. apply wwp_ret. eapply HQ; [apply Hrun|done|done].
  - intros x c' m' n' Hm Hau _ _ _. apply wwp_ret.
    destruct Hm as [-> |[tm ->]]; [|eapply HQ; [apply Hrun|done|done]].
    apply (HQ _ _ _ status); [done|done|]. intros Hx _. destruct (Hau Hx) as [tm E].
    pose proof (Hrun tm) as Hr.
    change (m = (MemoryStore.MarkFailed (audit id t typ (error_text err)) tm m).2) in E. rewrite <- E in Hr.
    destruct Ha as (j1 & Hj1 & _ & Hs1 & _), Hr as (j2 & Hj2 & _ & Hs2 & _). congruence.
Qed.

Lemma wwp_recordCanceled id t typ status step tr m sent n Q :
  audit_at id t status step tr m -> live_status status ->
  (forall m' n' status', audit_at id t status' step tr m' -> (audited -> status' = StatusCanceled) ->
    Q () (MkWst m' sent true n')) ->
  wwp (recordCanceled id t typ) (MkWst m sent true n) Q.
Proof.
  intros Ha Hl HQ. unfold recordCanceled. apply wwp_bind. pose proof Ha as (j & Hj & _).
  assert (forall tm, audit_at id t StatusCanceled step tr
    (MemoryStore.MarkCanceled (audit id t typ "") tm m).2) as Hrun.
  { intros tm. exact (mark_at id t status step tr m
      (fun i => wf_update StatusCanceled (wi_CurrentStep i) None (wi_Error i) tm i) (audit id t typ "") Ha Hl eq_refl eq_refl
      (fun _ => conj eq_refl eq_refl) j Hj). }
  apply wwp_activity; [by left|by apply mark_repeatable|intros; apply mark_done| |].
  - intros tm n'. apply wwp_ret. eapply HQ; [apply Hrun|done].
  - intros x c' m' n' Hm Hau _ Hc _. rewrite (Hc eq_refl). apply wwp_ret.
    destruct Hm as [-> |[tm ->]]; [|eapply HQ; [apply Hrun|done]].
    apply (HQ _ _ status); [done|]. intros Hx. destruct (Hau Hx) as [tm E].
    pose proof (Hrun tm) as Hr.
    change (m = (MemoryStore.MarkCanceled (audit id t typ "") tm m).2) in E. rewrite <- E in Hr.
    destruct Ha as (j1 & Hj1 & _ & Hs1 & _), Hr as (j2 & Hj2 & _ & Hs2 & _). congruence.
Qed.

Lemma wwp_queue q m sent n Q :
  (forall k n', k <> 0%nat -> Q None (MkWst m (sent ++ repeat q k) false n')) ->
  (forall x c k n', (audited -> c = false) -> ~ calm -> Q (Some x) (MkWst m (sent ++ repeat q k) c n')) ->
  wwp (queue_activity q) (MkWst m sent false n) Q.
Proof.
  intros HQ HF. unfold wwp, queue_activity. cbn [w_canceled w_store w_sent w_n].
  pose proof (run_attempts_sent (svc_error rt) q (take stepActivityOptions (attempts rt n)) TimeoutError sent) as Hs.
  pose proof (run_attempts_granted (fun t sent => (svc_error rt t, sent ++ [q])) (svc_error rt)
    (take stepActivityOptions (attempts rt n)) TimeoutError sent (fun _ _ => eq_refl)) as Hg.
  destruct (run_attempts _ _ _ sent) as [r sent']. destruct Hs as (k & -> & Hk). cbn [fst] in Hg.
  destruct (activity_canceled rt n) eqn:E.
  - apply HF; [intros Ha|intros Ha]; by rewrite (proj1 (Ha n)) in E.
  - destruct r as [x|]; [apply HF; [done|]|by apply HQ, Hk].
    intros Ha. destruct (Ha n) as (_ & _ & Hex). by discriminate (Hg Hex).
Qed.

Lemma wwp_now w Q : (forall t, Q t w) -> wwp workflow_Now w Q.
Proof. intros HQ. apply HQ. Qed.

Lemma wwp_timer m sent n Q :
  Q None (MkWst m sent false (S n)) -> (~ calm -> Q (Some CanceledError) (MkWst m sent true (S n))) ->
  wwp timer (MkWst m sent false n) Q.
Proof.
  intros H1 H2. unfold wwp, timer. cbn. destruct (timer_canceled rt n) eqn:E; [|done]. apply H2.
  intros Ha. by rewrite (proj1 (proj2 (Ha n))) in E.
Qed.

Lemma wwp_waitStep id t typ status prev next d tr m sent n Q :
  audit_at id t status prev tr m -> live_status status -> next <> prev ->
  (forall m' n', audit_at id t StatusWaitingTimer next (tr ++ [prev]) m' ->
    Q None (MkWst m' sent false n')) ->
  (forall x c m' n' status' step' done, audit_at id t status' step' (tr ++ done) m' -> done `prefix_of` [prev] ->
    (audited -> c = true -> terminal_status status') -> (c = false -> live_status status') -> ~ calm ->
    Q (Some x) (MkWst m' sent c n')) ->
  wwp (waitStep id t typ prev next d) (MkWst m sent false n) Q.
Proof.
  intros Ha Hl Hne H1 H2. unfold waitStep. apply wwp_bind, wwp_now. intros now. apply wwp_bind.
  eapply wwp_step; [exact Ha|done| |]; cbn [step_target rs_Next fst snd nx_Step].
  2:{ intros x c m' n' Hm Hau Hc. apply wwp_ret. destruct Hm as [Hm|Hm].
      - eapply (H2 _ _ _ _ _ _ []); [by rewrite app_nil_r|apply prefix_nil|by intros Hx%Hau ->|done|done].
      - eapply H2; [exact Hm|done|by intros Hx%Hau ->|by right|done]. }
  intros m' n' Ha'. apply wwp_bind, wwp_timer; [by apply wwp_ret, H1|]. intros Hc.
  apply wwp_bind. eapply wwp_recordCanceled; [exact Ha'|by right|]. intros m2 n2 st2 Ha2 Hau.
  apply wwp_ret. eapply H2; [exact Ha2|done| |done|done]. intros Hx%Hau _. subst st2. unfold terminal_status. set_solver.
Qed.

(** A body that ends with an error: the row stands after a part of its trace,
    and is terminal when the audit writes go through. *)
Definition stopped (id t : string) (tr full : list string) (m : MemoryStore) : Prop :=
  exists status step done, done `prefix_of` full /\ audit_at id t status step (tr ++ done) m
    /\ (audited -> terminal_status status).

Lemma wwp_fail_stopped id t typ err status step tr done full m sent c n Q :
  audit_at id t status step (tr ++ done) m -> done `prefix_of` full ->
  (audited -> c = true -> terminal_status status) -> (c = false -> live_status status) ->
  (forall w', stopped id t tr full (w_store w') -> w_sent w' = sent -> Q (false, Some err) w') ->
  wwp (fail id t typ err) (MkWst m sent c n) Q.
Proof.
  intros Ha Hp Ht Hl HQ. eapply wwp_fail; [exact Ha|done|]. intros c' m' n' st' Ha' H1 H2. apply HQ; [|done].
  exists st', step, done. split_and!; [done|done|]. intros Hx. destruct c.
  - rewrite (H1 eq_refl). by apply Ht.
  - rewrite (H2 Hx eq_refl). unfold terminal_status. set_solver.
Qed.
End bodies.

(** How a body may end: completed with the full trace, or with an error after
    a part of it. *)
Definition ladder_exit (rt : runtime) (id t : string) (tr full : list string) (res : wf_result) (w : wst) : Prop :=
  (res = (true, None) /\ audit_at id t StatusCompleted StepClosed (tr ++ full) (w_store w))
  \/ exists x, res = (false, Some x) /\ stopped rt id t tr full (w_store w).

Definition sms_of (i : CollectionsInput) : QueueMessageInput :=
  MkQueueMessageInput (ci_TenantID i) (ci_CustomerID i) "sms" (ci_Phone i)
    ("Invoice " +:+ ci_InvoiceRef i +:+ " is overdue. Amount due: "
     +:+ itoa (ci_AmountDue i) +:+ ". Reply to arrange payment.").

Definition whatsapp_of (i : CollectionsInput) : QueueMessageInput :=
  MkQueueMessageInput (ci_TenantID i) (ci_CustomerID i) "whatsapp" (ci_Phone i)
    ("Gentle reminder: invoice " +:+ ci_InvoiceRef i +:+ " remains outstanding.").

Definition collections_trace : list string := [StepContacted; StepWaited; StepTaskCreated; StepClosed].

(** The exit and what was handed over on the way: the SMS before the WhatsApp
    message, each at least once when the ladder completes. *)
Definition collections_exit (rt : runtime) (i : CollectionsInput) (tr : list string)
    (sent : list QueueMessageInput) (res : wf_result) (w : wst) : Prop :=
  ladder_exit rt (ci_InstanceID i) (ci_TenantID i) tr collections_trace res w
  /\ (exists k1 k2, w_sent w = sent ++ repeat (sms_of i) k1 ++ repeat (whatsapp_of i) k2
        /\ (res.1 = true -> k1 <> 0%nat /\ k2 <> 0%nat) /\ (k2 <> 0%nat -> k1 <> 0%nat))
  /\ (calm rt -> res = (true, None)).

Lemma collections_exit_early rt i tr sent x k1 k2 w :
  stopped rt (ci_InstanceID i) (ci_TenantID i) tr collections_trace (w_store w) ->
  w_sent w = sent ++ repeat (sms_of i) k1 ++ repeat (whatsapp_of i) k2 -> (k2 <> 0%nat -> k1 <> 0%nat) -> ~ calm rt ->
  collections_exit rt i tr sent (false, Some x) w.
Proof.
  intros Hs Hw Hk Hc. split; [right; by exists x|]. split; [|by intros ?%Hc]. by exists k1, k2.
Qed.

Lemma collections_run rt i m sent n tr :
  audit_at (ci_InstanceID i) (ci_TenantID i) StatusWaitingTimer StepContacted tr m ->
  wwp rt (CollectionsWorkflow i) (MkWst m sent false n) (collections_exit rt i tr sent).
Proof.
  intros Ha. unfold CollectionsWorkflow.
  assert (forall k1 k2 err status step done m c n, audit_at (ci_InstanceID i) (ci_TenantID i) status step (tr ++ done) m ->
    done `prefix_of` collections_trace -> (audited rt -> c = true -> terminal_status status) ->
    (c = false -> live_status status) -> ~ calm rt -> (k2 <> 0%nat -> k1 <> 0%nat) ->
    wwp rt (fail (ci_InstanceID i) (ci_TenantID i) TypeCollections err)
      (MkWst m (sent ++ repeat (sms_of i) k1 ++ repeat (whatsapp_of i) k2) c n) (collections_exit rt i tr sent)) as Hfail.
  { intros k1 k2 err status step done m0 c n0 H1 H2 H3 H4 H5 H6. eapply wwp_fail_stopped; [exact H1|exact H2|done|done|].
    intros w' Hs Hw. by eapply collections_exit_early. }
  apply wwp_bind, wwp_queue.
  2:{ intros x c k1 n1 Hau Hc. rewrite <- (app_nil_r (repeat _ k1)). apply (Hfail k1 0%nat _ StatusWaitingTimer StepContacted []);
        [by rewrite app_nil_r|apply prefix_nil|by intros ?%Hau ->|by right|done|done]. }
  intros k1 n1 Hk1. apply wwp_bind. eapply wwp_waitStep; [exact Ha|by right|done| |].
  2:{ intros x c m' n' st' step' done Ha' Hp H1 H2 Hc. rewrite <- (app_nil_r (repeat _ k1)). eapply (Hfail k1 0%nat);
        [exact Ha'|etrans; [exact Hp|by exists [StepWaited; StepTaskCreated; StepClosed]]|done|done|done|done]. }
  intros m1 n2 Ha1. apply wwp_bind, wwp_queue.
  2:{ intros x c k2 n3 Hau Hc. rewrite <- (assoc_L (++)). eapply (Hfail k1 k2);
        [exact Ha1|by exists [StepWaited; StepTaskCreated; StepClosed]|by intros ?%Hau ->|by right|done|done]. }
  intros k2 n3 Hk2. rewrite <- (assoc_L (++)). apply wwp_bind. eapply wwp_waitStep; [exact Ha1|by right|done| |].
  2:{ intros x c m' n' st' step' done Ha' Hp H1 H2 Hc. rewrite <- (assoc_L (++)) in Ha'. eapply (Hfail k1 k2);
        [exact Ha'|etrans; [by apply prefix_app|by exists [StepTaskCreated; StepClosed]]|done|done|done|done]. }
  intros m2 n4 Ha2. rewrite <- (assoc_L (++)) in Ha2. apply wwp_bind. eapply wwp_step; [exact Ha2|done| |].
  2:{ intros x c m' n' [Hm|Hm] Hau Hc; [|rewrite <- (assoc_L (++)) in Hm]; eapply (Hfail k1 k2); try exact Hm; try done;
        [by exists [StepTaskCreated; StepClosed]|by intros ?%Hau ->|by right|by exists [StepClosed]|by intros ?%Hau ->|by left]. }
  intros m3 n5 Ha3. rewrite <- (assoc_L (++)) in Ha3. eapply wwp_complete; [exact Ha3|done| |].
  - intros m4 n6 Ha4. rewrite <- (assoc_L (++)) in Ha4. split; [by left|]. split; [|done]. by exists k1, k2.
  - intros x c m' n' Hm Hau Hc. eapply (collections_exit_early _ _ _ _ _ k1 k2); [|done|done|done].
    destruct Hm as [Hm|Hm]; [|rewrite <- (assoc_L (++)) in Hm].
    + eexists _, _, _. split_and!; [|exact Hm|]; [by exists [StepClosed]|]. intros Hx%Hau.
      destruct Hm as (j1 & Hj1 & _ & Hs1 & _), Hx as (j2 & Hj2 & _ & Hs2 & _). rewrite Hj1 in Hj2.
      injection Hj2 as <-. by rewrite Hs1 in Hs2.
    + eexists _, _, _. split_and!; [|exact Hm|]; [done|]. intros _. unfold terminal_status. set_solver.
Qed.

Lemma callback_run rt i m sent n tr :
  audit_at (cb_InstanceID i) (cb_TenantID i) StatusWaitingTimer StepScheduled tr m ->
  wwp rt (CallbackWorkflow i) (MkWst m sent false n) (fun res w =>
    ladder_exit rt (cb_InstanceID i) (cb_TenantID i) tr [StepContacted; StepClosed] res w).
Proof.
  intros Ha. unfold CallbackWorkflow. cbv zeta. apply wwp_bind, wwp_now. intros now.
  match goal with |- wwp _ (if _ then _ else ?c) _ _ => set (contact := c) end.
  assert (forall k, wwp rt contact (MkWst m sent false k) (fun res w =>
    ladder_exit rt (cb_InstanceID i) (cb_TenantID i) tr [StepContacted; StepClosed] res w)) as Hc.
  { intros k. apply wwp_bind, wwp_queue.
    2:{ intros x c k1 n1 Hau Hc. eapply (wwp_fail_stopped _ _ _ _ _ _ _ _ []);
          [by rewrite app_nil_r|apply prefix_nil|by intros ?%Hau ->|by right|]. intros w' Hs _. right. by exists x. }
    intros k1 n1 _. apply wwp_bind. eapply wwp_step; [exact Ha|done| |].
    2:{ intros x c m' n' Hm Hau Hc.
        destruct Hm as [Hm|Hm]; [rewrite <- (app_nil_r tr) in Hm|]; (eapply wwp_fail_stopped; [exact Hm|..]);
          try (by intros ?%Hau ->); try (intros w' Hs _; right; by exists x);
          [apply prefix_nil|by right|by exists [StepClosed]|by left]. }
    intros m1 n2 Ha1. eapply wwp_complete; [exact Ha1|done| |].
    - intros m2 n3 Ha2. left. by rewrite <- (assoc_L (++)) in Ha2.
    - intros x c m' n' Hm Hau Hc. right. exists x. split; [done|]. destruct Hm as [Hm|Hm]; [|rewrite <- (assoc_L (++)) in Hm].
      + eexists _, _, _. split_and!; [|exact Hm|]; [by exists [StepClosed]|]. intros Hx%Hau.
        destruct Hm as (j1 & Hj1 & _ & Hs1 & _), Hx as (j2 & Hj2 & _ & Hs2 & _). rewrite Hj1 in Hj2.
      injection Hj2 as <-. by rewrite Hs1 in Hs2.
      + eexists _, _, _. split_and!; [|exact Hm|]; [done|]. intros _. unfold terminal_status. set_solver. }
  destruct (0 <? _); [|apply Hc]. apply wwp_bind, wwp_timer; [apply Hc|]. intros _.
  apply wwp_bind. eapply wwp_recordCanceled; [exact Ha|by right|]. intros m' n' st' Ha' Hau. apply wwp_ret. right.
  exists CanceledError. split; [done|]. exists st', StepScheduled, []. rewrite app_nil_r.
  split_and!; [apply prefix_nil|done|]. intros Hx. rewrite (Hau Hx). unfold terminal_status. set_solver.
Qed.

(** ** Properties *)

(** C16. The in-memory store implements the PostgreSQL store: over any sequence
    of operations, when no database call fails, both return the same error
    values and end with the same instances and step traces (up to row
    timestamps, and the timer of a running or failed instance). *)
Theorem memory_store_refines source e ops s m :
  healthy e -> fresh e (steps s) (committed s) -> Forall (fun p => op_ok p.1) ops ->
  related (committed s) m ->
  let '(r, s') := pg_run source ops e s in let '(rs, m') := mem_run ops m in
  r = Ok rs /\ related (committed s') m'.
Proof. intros Hh Hf Ho Hr. exact (run_simulated source e ops s m Hh Hf Ho Hr). Qed.

(** C17. The Temporal collections ladder always ends, whichever attempts its
    activities get, fail or lose, and wherever it is canceled: completed, with
    exactly the trace contacted, waited, task_created, closed and with first the
    SMS and then the WhatsApp message handed over; or with an error, its row
    after a part of that trace and the messages in that order. When the audit
    writes get through and the cancellation comes at a timer, the row is in a
    terminal state; when no cancellation comes and every activity has an attempt
    that succeeds, the ladder completes. *)
Theorem collections_ladder_terminates rt i w tr :
  audit_at (ci_InstanceID i) (ci_TenantID i) StatusWaitingTimer StepContacted tr (w_store w) ->
  w_canceled w = false ->
  let '(res, w') := CollectionsWorkflow i rt w in
  ladder_exit rt (ci_InstanceID i) (ci_TenantID i) tr collections_trace res w'
  /\ (exists k1 k2, w_sent w' = w_sent w ++ repeat (sms_of i) k1 ++ repeat (whatsapp_of i) k2
        /\ (res.1 = true -> k1 <> 0%nat /\ k2 <> 0%nat) /\ (k2 <> 0%nat -> k1 <> 0%nat))
  /\ (calm rt -> res = (true, None)).
Proof.
  intros Ha Hc. destruct w as [m sent c n]. simpl in *. subst c. exact (collections_run rt i m sent n tr Ha).
Qed.

(** The Temporal callback always ends: completed with the trace contacted,
    closed, or with an error after a part of it. *)
Lemma callback_terminates rt i w tr :
  audit_at (cb_InstanceID i) (cb_TenantID i) StatusWaitingTimer StepScheduled tr (w_store w) ->
  w_canceled w = false ->
  let '(res, w') := CallbackWorkflow i rt w in
  ladder_exit rt (cb_InstanceID i) (cb_TenantID i) tr [StepContacted; StepClosed] res w'.
Proof.
  intros Ha Hc. destruct w as [m sent c n]. simpl in *. subst c. exact (callback_run rt i m sent n tr Ha).
Qed.

(** A collections instance and the operations of a completed ladder, with the
    first step executed twice. *)
Definition demo_instance : Instance :=
  MkInstance "w1" "t1" TypeCollections StatusWaitingTimer [] [] StepContacted (Some 5) 0 "" 0 0.
Definition demo_step : StepRecord :=
  MkStepRecord "w1" "t1" TypeCollections StepContacted StepContacted []
    (Some (MkNextStep StepWaited 100)).
Definition demo_ops : list (store_op * Z) :=
  [(OpStart (MkStartRecord demo_instance [("scheduled_for", VTime 5)]), 1);
   (OpStep demo_step, 2); (OpStep demo_step, 3);
   (OpComplete (MkDoneRecord "w1" "t1" TypeCollections StepWaited [] ""), 4)].

Lemma memory_store_refines_witness :
  let '(r, s') := pg_run "worker" demo_ops env0 (MkSt empty_db None 0) in
  let '(rs, m') := mem_run demo_ops NewMemoryStore in
  r = Ok rs /\ related (committed s') m'
  /\ map tr_Step (default [] (steps_of_inst m' !! "w1")) = [StepContacted; StepContacted; StepClosed].
Proof.
  assert (Forall (fun p => op_ok p.1) demo_ops) as Ho by (repeat constructor; discriminate).
  assert (related empty_db NewMemoryStore) as Hr by (split; intros id; [constructor|reflexivity]).
  pose proof (memory_store_refines "worker" env0 demo_ops (MkSt empty_db None 0) NewMemoryStore
    env0_healthy (env0_fresh 0 empty_db eq_refl) Ho Hr) as H.
  destruct (pg_run "worker" demo_ops env0 (MkSt empty_db None 0)) as [r s'].
  destruct (mem_run demo_ops NewMemoryStore) as [rs m'] eqn:Em. destruct H as [H1 H2].
  split; [exact H1|]. split; [exact H2|]. apply (f_equal (fun p => steps_of_inst p.2)) in Em.
  cbn [snd] in Em. rewrite <- Em. vm_compute. reflexivity.
Defined.

Definition demo_collections : CollectionsInput := MkCollectionsInput "w1" "t1" "cu1" "INV-9" 2500 "254700".
Definition demo_callback : CallbackInput := MkCallbackInput "w2" "t1" "cu1" "254700" "ring back" 50.

(** Every activity runs twice, the first report being lost. *)
Definition calm_runtime : runtime :=
  MkRuntime (fun n => [Lost (Z.of_nat n) TimeoutError; Ran (Z.of_nat n)]) (fun _ => false) (fun _ => false)
    (fun _ => None) Z.of_nat.

(** One attempt each, the workflow canceled at its first timer. *)
Definition canceled_early : runtime :=
  MkRuntime (fun n => [Ran (Z.of_nat n)]) (fun _ => false) (fun _ => true) (fun _ => None) Z.of_nat.

(** The workflow is canceled while its first activity is pending. *)
Definition canceled_in_activity : runtime :=
  MkRuntime (fun n => [Ran (Z.of_nat n)]) (fun _ => true) (fun _ => false) (fun _ => None) Z.of_nat.

Definition demo_wst (id typ step : string) : wst :=
  MkWst (MkMemoryStore {[id := MkInstance id "t1" typ StatusWaitingTimer [] [] step (Some 5) 0 "" 0 0]}
           {[id := [MkStepTrace step [] 0]]}) [] false 0.

Lemma collections_ladder_terminates_witness :
  let '(res, w') := CollectionsWorkflow demo_collections calm_runtime (demo_wst "w1" TypeCollections StepContacted) in
  res = (true, None)
  /\ ladder_exit calm_runtime "w1" "t1" [StepContacted] collections_trace res w'.
Proof.
  assert (audit_at "w1" "t1" StatusWaitingTimer StepContacted [StepContacted]
    (w_store (demo_wst "w1" TypeCollections StepContacted))) as Ha by (eexists; split_and!; reflexivity).
  pose proof (collections_ladder_terminates calm_runtime demo_collections _ [StepContacted] Ha eq_refl) as H.
  destruct (CollectionsWorkflow _ _ _) as [res w']. destruct H as (H1 & _ & H3).
  split; [|exact H1]. apply H3. intros n. split_and!; [reflexivity..|]. right. left. by exists (Z.of_nat n).
Defined.

Lemma callback_terminates_witness :
  let '(res, w') := CallbackWorkflow demo_callback canceled_early (demo_wst "w2" TypeCallback StepScheduled) in
  res.1 = false /\ ladder_exit canceled_early "w2" "t1" [StepScheduled] [StepContacted; StepClosed] res w'.
Proof.
  assert (audit_at "w2" "t1" StatusWaitingTimer StepScheduled [StepScheduled]
    (w_store (demo_wst "w2" TypeCallback StepScheduled))) as Ha by (eexists; split_and!; reflexivity).
  pose proof (callback_terminates canceled_early demo_callback _ [StepScheduled] Ha eq_refl) as H.
  destruct (CallbackWorkflow _ _ _) as [res w'] eqn:E. split; [|exact H].
  apply (f_equal (fun p => p.1.1)) in E. cbn [fst] in E. rewrite <- E. vm_compute. reflexivity.
Defined.

(** A ladder canceled while an activity is pending, and not at a timer, ends
    with its row still waiting for one: [fail] runs on the canceled context. *)
Lemma canceled_in_activity_leaves_row :
  let '(res, w') := CollectionsWorkflow demo_collections canceled_in_activity (demo_wst "w1" TypeCollections StepContacted) in
  res = (false, Some CanceledError) /\ wi_Status <$> inst (w_store w') !! "w1" = Some StatusWaitingTimer.
Proof. vm_compute. split; reflexivity. Qed.

(** A ladder whose last write is refused five times fails, its row still
    running: [complete] does not record the failure. *)
Lemma refused_completion_leaves_row :
  let rt := MkRuntime (fun n => if (n =? 7)%nat then repeat (Refused TimeoutError) 5 else [Ran (Z.of_nat n)])
              (fun _ => false) (fun _ => false) (fun _ => None) Z.of_nat in
  let '(res, w') := CollectionsWorkflow demo_collections rt (demo_wst "w1" TypeCollections StepContacted) in
  res.1 = false /\ wi_Status <$> inst (w_store w') !! "w1" = Some StatusRunning.
Proof. vm_compute. split; reflexivity. Qed.

(** The in-memory store keeps the old timer of a running instance, the
    PostgreSQL store clears it. *)
Lemma memory_keeps_timer :
  let rec := MkStepRecord "w1" "t1" TypeCollections StepContacted StepTaskCreated [] None in
  wi_NextRunAt <$> inst (MemoryStore.RecordStep rec 9 (w_store (demo_wst "w1" TypeCollections StepContacted))).2
    !! "w1" = Some (Some 5)
  /\ wi_NextRunAt <$> d_workflows (committed (snd (TemporalStore.RecordStep "worker" rec env0
       (MkSt (set_workflows (fun _ => {["w1" := demo_instance]}) empty_db) None 0)))) !! "w1" = Some None.
Proof. vm_compute. split; reflexivity. Qed.
