(* ===== verification/Tools.v ===== *)
(** * internal/tools: the tool gateway

    [Invoke] with its gate chain and the sliding-window limiter of gateway.go.
    The policy source and the executor are interfaces: each answer is a
    parameter, by the number of the call. The gateway's state is its windows;
    the audit sink and the executions are recorded in order. *)

From Stdlib Require Import String.
From S2P Require Import Prelude GoStd AppErrors.

Local Open Scope Z_scope.

Definition ToolGetCustomer := "get_customer".
Definition ToolCreateCase := "create_case".
Definition ToolSendWhatsApp := "send_whatsapp".

Record Call := MkCall {
  c_Tool : string;
  c_TenantID : string;
  c_AgentID : string;
  c_InteractionID : string;
  c_Args : dict;
}.

Record Outcome := MkOutcome {
  o_Tool : string;
  o_Executed : bool;
  o_Result : dict;
  o_Reason : string;
  o_Latency : Z;
}.

(** The answers of [policies.Allowlist] and [executor.Execute], and the clock,
    by the number of the call to them. *)
Class Ports := {
  Allowlist : nat -> string -> string -> gmap string Z + error;
  Execute : nat -> Call -> dict + error;
  tool_clock : nat -> Z;
}.

(** The gateway with what it did so far: clock reads, executions with the time
    of their admission, audited decisions. *)
Record Gateway := MkGateway {
  windows : gmap string (list Z);
  g_steps : nat;
  g_execs : list (Z * Call);
  g_audit : list (Call * Outcome * option error);
}.

Definition NewGateway : Gateway := MkGateway ∅ 0 [] [].

Definition maxPerCall : gmap string Z :=
  {[ToolGetCustomer := 5; ToolCreateCase := 2; ToolSendWhatsApp := 1]}.

Definition one_minute : Z := 60 * 1000000000.

Definition window_key (agentID tool : string) : string := agentID +:+ ":" +:+ tool.

(** [admit_call]: the error, if any, and the new windows. *)
Definition admit_call (agentID tool : string) (limit now : Z) (w : gmap string (list Z))
    : option Error * gmap string (list Z) :=
  let key := window_key agentID tool in
  let window := List.filter (fun t => now - t <? one_minute) (default [] (w !! key)) in
  if limit <=? Z.of_nat (length window) then
    (Some (RateLimited "tool.rate_limited" ("tool call limit reached for " +:+ tool)),
     <[key := window]> w)
  else
    let w1 := <[key := window ++ [now]]> w in
    (None, if (10000 <? size w1)%nat then {[key := window ++ [now]]} else w1).

Definition requireString (args : dict) (field : string) : option Error :=
  match dict_get args field with
  | Some (VStr v) =>
      if is_empty (trim_space v) then
        Some (Invalid "tool.field_required" (field +:+ " is required"))
      else if (512 <? String.length v)%nat then
        Some (Invalid "tool.field_too_long" (field +:+ " must be at most 512 chars"))
      else None
  | _ => Some (Invalid "tool.field_required" (field +:+ " is required"))
  end.

Definition validateArgs (c : Call) : option Error :=
  if String.eqb (c_Tool c) ToolGetCustomer then requireString (c_Args c) "customer_id"
  else if String.eqb (c_Tool c) ToolCreateCase then
    match requireString (c_Args c) "customer_id" with
    | Some err => Some err
    | None => requireString (c_Args c) "subject"
    end
  else if String.eqb (c_Tool c) ToolSendWhatsApp then
    match requireString (c_Args c) "to" with
    | Some err => Some err
    | None =>
        let body := dict_str (c_Args c) "body" in
        if is_empty (trim_space body) then Some (Invalid "tool.body_required" "body is required")
        else if (4096 <? String.length body)%nat then
          Some (Invalid "tool.body_too_long" "body must be at most 4096 chars")
        else None
    end
  else Some (Invalid "tool.unknown" ("unknown tool " +:+ c_Tool c)).

Section Gateway.
Context `{Ports}.

Definition refused (tool reason : string) : Outcome := MkOutcome tool false [] reason 0.

(** The limit the window is checked against: the smaller of the policy's and
    the platform's. *)
Definition effective_limit (tool : string) (limit : Z) : Z :=
  match maxPerCall !! tool with
  | Some plat => if plat <? limit then plat else limit
  | None => limit
  end.

(** One more answer of an interface was taken. *)
Definition ask (g : Gateway) : Gateway :=
  MkGateway (windows g) (S (g_steps g)) (g_execs g) (g_audit g).

Definition with_windows (w : gmap string (list Z)) (g : Gateway) : Gateway :=
  MkGateway w (S (g_steps g)) (g_execs g) (g_audit g).

(** Execution through the executor, with its latency. *)
Definition execute (c : Call) (at_ : Z) (g : Gateway) : Outcome * option error * Gateway :=
  let start := tool_clock (g_steps g) in
  let res := Execute (g_steps g) c in
  let lat := tool_clock (S (g_steps g)) - start in
  let g' := MkGateway (windows g) (S (S (g_steps g))) (g_execs g ++ [(at_, c)]) (g_audit g) in
  match res with
  | inr err => (MkOutcome (c_Tool c) false [] "execution failed" lat, Some err, g')
  | inl r => (MkOutcome (c_Tool c) true r "" lat, None, g')
  end.

Definition invoke (c : Call) (g : Gateway) : Outcome * option error * Gateway :=
  if is_empty (c_TenantID c) || is_empty (c_AgentID c) then
    (refused (c_Tool c) "",
     Some (AppErr (Invalid "tool.tenant_agent_required" "tenant and agent context are required")), g)
  else
  let allowed := Allowlist (g_steps g) (c_TenantID c) (c_AgentID c) in
  let g := ask g in
  match allowed with
  | inr err => (refused (c_Tool c) "", Some err, g)
  | inl allow =>
      let limit := default 0 (allow !! c_Tool c) in
      if limit <=? 0 then
        (refused (c_Tool c) "tool not in agent allowlist",
         Some (AppErr (Forbidden "tool.not_allowed" ("agent is not allowed to call " +:+ c_Tool c))), g)
      else
      let now := tool_clock (g_steps g) in
      let '(err, w) := admit_call (c_AgentID c) (c_Tool c) (effective_limit (c_Tool c) limit) now
                         (windows g) in
      let g := with_windows w g in
      match err with
      | Some err => (refused (c_Tool c) "rate limit", Some (AppErr err), g)
      | None =>
          match validateArgs c with
          | Some err => (refused (c_Tool c) "schema validation failed", Some (AppErr err), g)
          | None => execute c now g
          end
      end
  end.

(** [Invoke]: every decision goes to the audit sink. *)
Definition Invoke (c : Call) (g : Gateway) : Outcome * option error * Gateway :=
  let '(o, err, g) := invoke c g in
  (o, err, MkGateway (windows g) (g_steps g) (g_execs g) (g_audit g ++ [(c, o, err)])).

(** A sequence of calls. *)
Fixpoint invoke_all (cs : list Call) (g : Gateway) : Gateway :=
  match cs with
  | [] => g
  | c :: cs => invoke_all cs (Invoke c g).2
  end.
End Gateway.

(** ** Properties of internal/tools

    The gate chain in front of every execution, and the sliding-window bound
    on executions per agent and tool. *)

(** ** Counting *)

Definition count_if {A} (f : A -> bool) (l : list A) : nat := length (List.filter f l).

Lemma count_if_app {A} (f : A -> bool) l x :
  count_if f (l ++ [x]) = (count_if f l + (if f x then 1 else 0))%nat.
Proof. unfold count_if. rewrite List.filter_app, length_app. simpl. by destruct (f x). Qed.

Lemma count_if_le {A} (f g : A -> bool) l :
  (forall x, x ∈ l -> f x = true -> g x = true) -> (count_if f l <= count_if g l)%nat.
Proof.
  unfold count_if. induction l as [|x l IH]; intros H; simpl; [lia|].
  specialize (IH (fun y Hy => H y (proj2 (elem_of_cons l y x) (or_intror Hy)))).
  destruct (f x) eqn:Ef; [rewrite (H x) by (done || apply elem_of_cons; by left); simpl; lia|].
  destruct (g x); simpl; lia.
Qed.

Lemma count_if_none {A} (f : A -> bool) l : (forall x, x ∈ l -> f x = false) -> count_if f l = 0%nat.
Proof.
  unfold count_if. induction l as [|x l IH]; intros H; simpl; [done|].
  rewrite (H x) by (apply elem_of_cons; by left). apply IH. intros y Hy. apply H, elem_of_cons. by right.
Qed.

Lemma count_if_filter {A} (f g : A -> bool) l :
  (forall x, f x = true -> g x = true) -> count_if f (List.filter g l) = count_if f l.
Proof.
  intros H. unfold count_if. induction l as [|x l IH]; simpl; [done|].
  destruct (g x) eqn:Eg; simpl; [destruct (f x); simpl; lia|].
  destruct (f x) eqn:Ef; [by rewrite (H x Ef) in Eg|done].
Qed.

(** ** One call *)

Section gateway.
Context `{Ports}.

(** Executions of an agent and tool after a time. *)
Definition after (a tool : string) (thr : Z) (p : Z * Call) : bool :=
  String.eqb (c_AgentID p.2) a && String.eqb (c_Tool p.2) tool && (thr <? p.1).

(** What one call does to the windows and the executions. *)
Inductive gate_step (c : Call) (g g' : Gateway) : Prop :=
| gs_none : windows g' = windows g -> g_execs g' = g_execs g -> (g_steps g <= g_steps g')%nat ->
    gate_step c g g'
| gs_admit n limit err : 0 < limit ->
    admit_call (c_AgentID c) (c_Tool c) (effective_limit (c_Tool c) limit) (tool_clock n)
      (windows g) = (err, windows g') ->
    (g_steps g <= n < g_steps g')%nat ->
    (g_execs g' = g_execs g
     \/ (err = None /\ validateArgs c = None
         /\ g_execs g' = g_execs g ++ [(tool_clock n, c)])) ->
    gate_step c g g'.

Lemma invoke_step c g : gate_step c g (invoke c g).2.
Proof.
  unfold invoke. destruct (_ || _); [by apply gs_none|].
  destruct (Allowlist _ _ _) as [allow|err]; [|apply gs_none; simpl; lia || done].
  destruct (Z.leb_spec (default 0 (allow !! c_Tool c)) 0); [apply gs_none; simpl; lia || done|].
  destruct (admit_call _ _ _ _ _) as [err w] eqn:Ea.
  destruct err as [err|]; [eapply gs_admit; [done|exact Ea|simpl; lia|by left]|].
  destruct (validateArgs c) eqn:Ev; [eapply gs_admit; [done|exact Ea|simpl; lia|by left]|].
  unfold execute. destruct (Execute _ _); (eapply gs_admit; [done|exact Ea|simpl; lia|by right]).
Qed.

Lemma Invoke_step c g : gate_step c g (Invoke c g).2.
Proof.
  unfold Invoke. pose proof (invoke_step c g) as Hs. destruct (invoke c g) as [[o err] g'].
  simpl in *. destruct Hs as [|n limit e]; [by apply gs_none|by eapply gs_admit].
Qed.

(** ** The limiter *)

(** The windows remember every execution younger than a minute. *)
Record tracked (K : gset string) (g : Gateway) : Prop := {
  tr_keys : dom (windows g) ⊆ K;
  tr_past : forall p, p ∈ g_execs g -> p.1 <= tool_clock (g_steps g);
  tr_window : forall a tool thr, tool_clock (g_steps g) - one_minute <= thr ->
    (count_if (after a tool thr) (g_execs g)
     <= count_if (Z.ltb thr)
          (default [] (windows g !! window_key a tool)))%nat;
}.

Context (clock_mono : forall i j, (i <= j)%nat -> tool_clock i <= tool_clock j).

(** What [admit_call] leaves in the window of a key. *)
Lemma admit_window a tool limit now w err w' K k :
  admit_call a tool limit now w = (err, w') -> dom w ⊆ K -> (size K <= 10000)%nat ->
  window_key a tool ∈ K ->
  dom w' ⊆ K /\
  default [] (w' !! k) =
    (if String.eqb k (window_key a tool) then
       List.filter (fun t => now - t <? one_minute) (default [] (w !! k))
       ++ (match err with None => [now] | Some _ => [] end)
     else default [] (w !! k))
  /\ (err = None ->
      Z.of_nat (count_if (fun t => now - t <? one_minute) (default [] (w !! window_key a tool))) < limit).
Proof.
  unfold admit_call. set (key := window_key a tool). set (win := List.filter _ _). intros Ha Hd HK Hk.
  assert (forall l, dom (<[key := l]> w) ⊆ K) as Hdom by (intros l; rewrite dom_insert; set_solver).
  destruct (Z.leb_spec limit (Z.of_nat (length win))) as [Hl|Hl]; simplify_eq.
  - split; [apply Hdom|]. split; [|done]. destruct (String.eqb_spec k key) as [->|Hne].
    + rewrite lookup_insert_eq, app_nil_r. done.
    + by rewrite lookup_insert_ne.
  - assert (size (<[key := win ++ [now]]> w) <= 10000)%nat as Hs.
    { rewrite <- (size_dom (D := gset string)). etransitivity; [|exact HK]. by apply subseteq_size, Hdom. }
    rewrite (proj2 (Nat.ltb_ge _ _) Hs). split; [apply Hdom|]. split; [|done].
    destruct (String.eqb_spec k key) as [->|Hne].
    + by rewrite lookup_insert_eq.
    + by rewrite lookup_insert_ne.
Qed.

Lemma after_key c a tool thr t :
  after a tool thr (t, c) = true -> window_key a tool = window_key (c_AgentID c) (c_Tool c) /\ thr < t.
Proof.
  unfold after. simpl. intros [[<-%String.eqb_eq <-%String.eqb_eq]%andb_prop Ht]%andb_prop. by split; [|lia].
Qed.

Lemma tracked_step K c g g' :
  tracked K g -> (size K <= 10000)%nat -> window_key (c_AgentID c) (c_Tool c) ∈ K ->
  gate_step c g g' -> tracked K g'.
Proof.
  intros [Hk Hp Hw] HK Hc [Hwin Hex Hs|n limit err Hl Ha Hs Hex].
  - pose proof (clock_mono _ _ Hs). split; [by rewrite Hwin|rewrite Hex|rewrite Hex, Hwin].
    + intros p Hin. specialize (Hp p Hin). lia.
    + intros a tool thr Ht. apply Hw. lia.
  - pose proof (clock_mono n (g_steps g') ltac:(lia)) as Hm.
    pose proof (clock_mono (g_steps g) n ltac:(lia)) as Hm0. set (now := tool_clock n) in *.
    split; [by eapply admit_window with (k := "") in Ha as (? & _ & _)|..].
    + intros p Hin. destruct Hex as [Hex|(_ & _ & Hex)]; rewrite Hex in Hin.
      * specialize (Hp p Hin). lia.
      * apply elem_of_app in Hin as [Hin| ->%list_elem_of_singleton]; [specialize (Hp p Hin)|simpl]; lia.
    + intros a tool thr Ht.
      destruct (admit_window _ _ _ _ _ _ _ K (window_key a tool) Ha Hk HK Hc) as (_ & -> & _).
      assert (now - one_minute <= thr) as Ht' by lia. specialize (Hw a tool thr ltac:(lia)).
      destruct (String.eqb_spec (window_key a tool) (window_key (c_AgentID c) (c_Tool c))) as [E|E].
      * destruct Hex as [Hex|(-> & _ & Hex)]; rewrite Hex.
        { destruct err; rewrite ?app_nil_r, ?count_if_app, count_if_filter by (intros; lia); lia. }
        rewrite !count_if_app, count_if_filter by (intros; lia).
        assert (after a tool thr (now, c) = true -> (thr <? now) = true) as Hn
          by (intros [_ Hn]%after_key; lia).
        destruct (after _ _ _ _); [rewrite Hn by done; lia|]. destruct (thr <? now); lia.
      * destruct Hex as [Hex|(-> & _ & Hex)]; rewrite Hex; [done|]. rewrite count_if_app.
        destruct (after a tool thr (now, c)) eqn:Ea; [|lia]. by apply after_key in Ea as [? _].
Qed.

(** Executions of an agent and tool in the minute up to [T]. *)
Definition in_window (a tool : string) (T : Z) (p : Z * Call) : bool :=
  after a tool (T - one_minute) p && (p.1 <=? T).

Definition rate_ok (g : Gateway) : Prop := forall a tool cap T,
  maxPerCall !! tool = Some cap -> Z.of_nat (count_if (in_window a tool T) (g_execs g)) <= cap.

Lemma effective_limit_le tool limit cap :
  maxPerCall !! tool = Some cap -> effective_limit tool limit <= cap.
Proof. unfold effective_limit. intros ->. destruct (Z.ltb_spec cap limit); lia. Qed.

Lemma maxPerCall_pos tool cap : maxPerCall !! tool = Some cap -> 0 <= cap.
Proof.
  unfold maxPerCall. intros Hc.
  repeat (apply lookup_insert_Some in Hc as [[_ <-]|[_ Hc]]; [done|]).
  by apply lookup_singleton_Some in Hc as [_ <-].
Qed.

Lemma rate_step K c g g' :
  tracked K g -> (size K <= 10000)%nat -> window_key (c_AgentID c) (c_Tool c) ∈ K ->
  rate_ok g -> gate_step c g g' -> rate_ok g'.
Proof.
  unfold rate_ok. intros Ht HK Hc Hr [_ -> _|n limit err Hl Ha Hs [->|(-> & _ & ->)]]; [done|done|].
  pose proof (clock_mono (g_steps g) n ltac:(lia)) as Hm.
  set (now := tool_clock n) in *. intros a tool cap T Hcap. rewrite count_if_app.
  destruct (in_window a tool T (now, c)) eqn:Ew; [|specialize (Hr a tool cap T Hcap); lia].
  apply andb_prop in Ew as [Ew HT]. simpl in HT. pose proof Ew as [E Hlt]%after_key.
  unfold after in Ew. simpl in Ew.
  apply andb_prop in Ew as [[<-%String.eqb_eq <-%String.eqb_eq]%andb_prop _].
  destruct (admit_window _ _ _ _ _ _ _ K "" Ha (tr_keys _ _ Ht) HK Hc) as (_ & _ & Hlim).
  specialize (Hlim eq_refl). pose proof (effective_limit_le _ limit _ Hcap).
  pose proof (tr_window _ _ Ht (c_AgentID c) (c_Tool c) (now - one_minute) ltac:(lia)) as Hw.
  assert (count_if (in_window (c_AgentID c) (c_Tool c) T) (g_execs g)
          <= count_if (after (c_AgentID c) (c_Tool c) (now - one_minute)) (g_execs g))%nat as H1.
  { apply count_if_le. intros p _ [Hp _]%andb_prop. unfold after in *. apply andb_prop in Hp as [-> Hp].
    simpl. lia. }
  assert (count_if (Z.ltb (now - one_minute))
            (default [] (windows g !! window_key (c_AgentID c) (c_Tool c)))
          <= count_if (fun t => (now - t <? one_minute)%Z)
            (default [] (windows g !! window_key (c_AgentID c) (c_Tool c))))%nat as H2
    by (apply count_if_le; intros; lia).
  lia.
Qed.

Lemma invoke_all_rate K cs g :
  (size K <= 10000)%nat -> Forall (fun c => window_key (c_AgentID c) (c_Tool c) ∈ K) cs ->
  tracked K g -> rate_ok g -> rate_ok (invoke_all cs g).
Proof.
  intros HK Hcs. revert g. induction Hcs as [|c cs Hc _ IH]; intros g Ht Hr; cbn [invoke_all]; [done|].
  apply IH; [eapply tracked_step|eapply rate_step]; eauto using Invoke_step.
Qed.
End gateway.

(** ** Properties *)

(** C18. The gate chain: every call is audited exactly once with the decision
    the caller gets, and the executor runs at most once, only for a call with
    tenant and agent, with a positive allowlist entry for the tool, fewer than
    the effective limit of admissions in the last minute, and valid arguments;
    without such an execution the outcome is a refusal with an error. *)
Theorem tool_gate_sound `{Ports} c g :
  let '(o, err, g') := Invoke c g in
  g_audit g' = g_audit g ++ [(c, o, err)] /\ o_Tool o = c_Tool c
  /\ (o_Executed o = true <-> err = None)
  /\ ((g_execs g' = g_execs g /\ o_Executed o = false)
      \/ (g_execs g' = g_execs g ++ [(tool_clock (S (g_steps g)), c)]
          /\ c_TenantID c <> "" /\ c_AgentID c <> "" /\ validateArgs c = None
          /\ exists allow limit,
               Allowlist (g_steps g) (c_TenantID c) (c_AgentID c) = inl allow
               /\ allow !! c_Tool c = Some limit /\ 0 < limit
               /\ Z.of_nat (count_if (fun t => tool_clock (S (g_steps g)) - t <? one_minute)
                     (default [] (windows g !! window_key (c_AgentID c) (c_Tool c))))
                  < effective_limit (c_Tool c) limit)).
Proof.
  unfold Invoke, invoke. destruct (is_empty (c_TenantID c)) eqn:E1; [simpl; naive_solver|].
  destruct (is_empty (c_AgentID c)) eqn:E2; [simpl; naive_solver|]. simpl.
  apply is_empty_false in E1, E2.
  destruct (Allowlist _ _ _) as [allow|err] eqn:Eal; [|simpl; naive_solver].
  destruct (Z.leb_spec (default 0 (allow !! c_Tool c)) 0) as [Hl|Hl]; [simpl; naive_solver|].
  unfold admit_call. set (win := List.filter _ _). destruct (Z.leb_spec (effective_limit (c_Tool c)
    (default 0 (allow !! c_Tool c))) (Z.of_nat (length win))) as [Hw|Hw]; [simpl; naive_solver|].
  destruct (validateArgs c) eqn:Ev; [simpl; naive_solver|].
  destruct (allow !! c_Tool c) as [limit|] eqn:Elim; [|simpl in Hl; lia]. simpl in Hl, Hw.
  unfold execute. simpl. destruct (Execute _ _); simpl;
    (split; [done|]; split; [done|]; split; [done|]; right; eauto 12).
Qed.

(** The rate bound: over any sequence of calls through a new gateway, with
    a clock that does not run backwards and at most ten thousand pairs of
    agent and tool, no agent gets more executions of a tool within any minute
    than the platform's cap for it. *)
Lemma executions_rate_bounded `{Ports} (K : gset string) cs a tool cap T :
  (forall i j, (i <= j)%nat -> tool_clock i <= tool_clock j) ->
  (size K <= 10000)%nat -> Forall (fun c => window_key (c_AgentID c) (c_Tool c) ∈ K) cs ->
  maxPerCall !! tool = Some cap ->
  Z.of_nat (length (List.filter (fun p : Z * Call =>
      String.eqb (c_AgentID p.2) a && String.eqb (c_Tool p.2) tool
      && (T - one_minute <? p.1) && (p.1 <=? T))
    (g_execs (invoke_all cs NewGateway)))) <= cap.
Proof.
  intros Hm HK Hcs Hcap. apply (invoke_all_rate Hm K cs NewGateway HK Hcs); [| |done].
  - split; [done|by intros p ?%not_elem_of_nil|intros; apply Nat.le_0_l].
  - intros a' tool' cap' T' Hc'. by apply maxPerCall_pos in Hc'.
Qed.

(** A policy that allows a hundred customer reads per agent, an executor that
    answers, and a slow clock. *)
Definition demo_ports : Ports := {|
  Allowlist _ _ _ := inl {[ToolGetCustomer := 100]};
  Execute _ _ := inl [("ok", VBool true)];
  tool_clock n := Z.of_nat n |}.

Definition demo_call (agent : string) : Call :=
  MkCall ToolGetCustomer "t1" agent "i1" [("customer_id", VStr "cu1")].

Lemma executions_rate_bounded_witness :
  length (g_execs (@invoke_all demo_ports (repeat (demo_call "ai1") 9) NewGateway)) = 5%nat
  /\ Z.of_nat (length (List.filter (fun p : Z * Call =>
      String.eqb (c_AgentID p.2) "ai1" && String.eqb (c_Tool p.2) ToolGetCustomer
      && (1000 - one_minute <? p.1) && (p.1 <=? 1000))
    (g_execs (@invoke_all demo_ports (repeat (demo_call "ai1") 9) NewGateway)))) <= 5.
Proof.
  split; [vm_compute; reflexivity|].
  apply (@executions_rate_bounded demo_ports {[window_key "ai1" ToolGetCustomer]}
           (repeat (demo_call "ai1") 9) "ai1" ToolGetCustomer 5 1000).
  - intros i j Hij. apply Nat2Z.inj_le in Hij. exact Hij.
  - apply Nat.leb_le. vm_compute. reflexivity.
  - apply Forall_forall. intros c Hc. apply repeat_spec in Hc || apply list_elem_of_In, repeat_spec in Hc.
    rewrite Hc. set_solver.
  - reflexivity.
Defined.

(** With more pairs than that, the overflow of the window table forgets the
    others: a full window is admitted again at once. *)
Lemma window_table_overflow_forgets w now :
  size w = 10000%nat -> w !! window_key "ai2" ToolGetCustomer = None ->
  w !! window_key "ai1" ToolGetCustomer = Some [now; now; now; now; now] ->
  (admit_call "ai1" ToolGetCustomer 5 now w).1 <> None
  /\ (admit_call "ai1" ToolGetCustomer 5 now (admit_call "ai2" ToolGetCustomer 5 now w).2).1 = None.
Proof.
  intros Hs Hn Hw. assert (now - now <? one_minute = true) as Hf by (unfold one_minute; lia).
  unfold admit_call. rewrite Hw, Hn. simpl. rewrite !Hf. simpl. split; [done|].
  rewrite map_size_insert_None, Hs by done. rewrite (proj2 (Nat.ltb_lt _ _)) by apply Nat.lt_succ_diag_r. simpl.
  rewrite lookup_singleton_ne by done. done.
Qed.
