(* ===== verification/Ai.v ===== *)
(** * internal/ai: the intelligence plane

    gateway.go (caps, retry and metering around a provider), rules_provider.go
    (the deterministic provider and the usage event) and runtime.go (an agent's
    turn, its tool calls).

    A provider is an instance of [AIProvider] with a state of its own; its
    deadline is the invocation's [Timeout]. The rows of the agent tables are a
    parameter: the listings and JSON aggregates of one query. *)

From Stdlib Require Import String Ascii.
From S2P Require Import Prelude GoStd AppErrors Events Store Wp Text Planes.
From S2P Require Tools.

Local Open Scope Z_scope.

(** ** gateway.go *)

Record Context := MkContext {
  SystemPrompt : string;
  ctx_CustomerID : string;
  ctx_ConversationID : string;
  ctx_Channel : string;
  Facts : dict;
  UserMessage : string;
}.

Record Invocation := MkInvocation {
  inv_TenantID : string;
  inv_AgentID : string;
  inv_InteractionID : string;
  inv_Context : Context;
  inv_MaxTokens : Z;
  inv_Timeout : Z;
}.

Record Suggestion := MkSuggestion {
  sg_Kind : string;
  sg_Title : string;
  sg_Detail : string;
  sg_Params : dict;
}.

Record Result := MkResult {
  res_Text : string;
  res_Suggestion : option Suggestion;
  InputTokens : Z;
  OutputTokens : Z;
  Latency : Z;
  res_Outcome : string;
}.

Class AIProvider (P : Type) := {
  ai_Invoke : Invocation -> env -> P * st -> (Result + error) * (P * st);
}.

(** The sink of [WithUsageSink]: it returns nothing. *)
Definition UsageSink := Result -> Invocation -> env -> st -> st.

Record Gateway := MkGateway {
  maxTokens : Z;
  timeout : Z;
  maxAttempts : Z;
  onUsage : option UsageSink;
}.

Definition NewGateway (maxTokens timeout : Z) (sink : option UsageSink) : Gateway :=
  MkGateway (if maxTokens <=? 0 then 1024 else maxTokens) (if timeout <=? 0 then 30 * Second else timeout) 2 sink.

(** The invocation within the gateway's caps. *)
Definition capped (g : Gateway) (inv : Invocation) : Invocation :=
  MkInvocation (inv_TenantID inv) (inv_AgentID inv) (inv_InteractionID inv) (inv_Context inv)
    (if (inv_MaxTokens inv <=? 0) || (maxTokens g <? inv_MaxTokens inv) then maxTokens g else inv_MaxTokens inv)
    (if (inv_Timeout inv <=? 0) || (timeout g <? inv_Timeout inv) then timeout g else inv_Timeout inv).

Definition is_timeout (err : error) : bool :=
  match errors_As err with Some ae => String.eqb (Code ae) "ai.timeout" | None => false end.

(** Invalid input and timeouts are not tried again. *)
Definition final_error (err : error) : bool :=
  match errors_As err with
  | Some ae => bool_decide (ErrKind ae = KindInvalid) || bool_decide (ErrKind ae = KindConflict)
  | None => false
  end.

Definition with_Latency (d : Z) (r : Result) : Result :=
  MkResult (res_Text r) (res_Suggestion r) (InputTokens r) (OutputTokens r) d (res_Outcome r).

Definition with_OutputTokens (n : Z) (r : Result) : Result :=
  MkResult (res_Text r) (res_Suggestion r) (InputTokens r) n (Latency r) (res_Outcome r).

Section Gateway.
Context {P : Type} `{AIProvider P}.

(** [g.provider.Invoke] *)
Definition call_provider (inv : Invocation) : MW P (Result + error) := fun e w =>
  let '(r, w') := ai_Invoke inv e w in (inl r, w').

Definition meter (g : Gateway) (r : Result) (inv : Invocation) : MW P () := fun e w =>
  (inl (), (w.1, match onUsage g with Some sink => sink r inv e w.2 | None => w.2 end)).

Definition invokeOnce (g : Gateway) (inv : Invocation) : MW P Result :=
  start ← lift time_Now;
  out ← call_provider inv;
  match out with
  | inr err =>
      if is_timeout err then
        now ← lift time_Now;
        _ ← meter g (MkResult "" None 0 0 (now - start) "timeout") inv;
        fail (AppErr (Conflict "ai.timeout" "AI invocation timed out"))
      else fail err
  | inl res =>
      let res := if inv_MaxTokens inv <? OutputTokens res then with_OutputTokens (inv_MaxTokens inv) res else res in
      now ← lift time_Now;
      mret (with_Latency (now - start) res)
  end.

(** The retry loop with [more] attempts after this one. *)
Fixpoint invoke_loop (more : nat) (g : Gateway) (inv : Invocation) : MW P Result :=
  r ← try (invokeOnce g inv);
  match r with
  | inl res => _ ← meter g res inv; mret res
  | inr err =>
      if final_error err then fail err
      else match more with
           | O => fail err
           | S more => invoke_loop more g inv
           end
  end.

Definition Invoke (g : Gateway) (inv : option Invocation) : MW P Result :=
  match inv with
  | Some inv =>
      if is_empty (inv_TenantID inv) then
        fail (AppErr (Invalid "ai.invalid_invocation" "tenant is required"))
      else invoke_loop (Z.to_nat (maxAttempts g - 1)) g (capped g inv)
  | None => fail (AppErr (Invalid "ai.invalid_invocation" "tenant is required"))
  end.
End Gateway.

(** ** rules_provider.go *)

(** Words of a text, from inside a word or not. *)
Fixpoint count_fields (fuel : nat) (inword : bool) (l : list ascii) : Z :=
  match fuel, l with
  | S n, _ :: _ =>
      match lead_space l with
      | O => (if inword then 0 else 1) + count_fields n true (drop (rune_size l) l)
      | S k => count_fields n false (drop (S k) l)
      end
  | _, _ => 0
  end.

(** [len(strings.Fields(s))] *)
Definition countTokens (s : string) : Z :=
  let l := list_ascii_of_string s in count_fields (length l) false l.

(** JSON numbers are integers here. *)
Definition toInt (v : option any) : Z := match v with Some (VInt n) => n | _ => 0 end.

Definition suggest (channel status : string) (unread : Z) : Suggestion :=
  if String.eqb status "active" && String.eqb channel "voice" then
    MkSuggestion "next_best_action" "Verify identity, then summarize the issue"
      "Call is live. Confirm the customer, restate their problem, and log a case note." []
  else if (0 <? unread) && negb (is_empty channel) then
    MkSuggestion "next_best_action" "Reply to the customer's latest message"
      ("The conversation has " +:+ itoa unread +:+ " unread inbound message(s) on " +:+ channel +:+ ".")
      [("suggested_channel", VStr channel)]
  else if String.eqb status "wrapup" then
    MkSuggestion "next_best_action" "Complete after-call work"
      "Wrap the interaction: disposition, notes, and follow-up case if needed." []
  else
    MkSuggestion "summary" "Monitor conversation"
      "No action is required right now; the conversation is progressing normally." [].

Definition rules_Invoke (inv : Invocation) : Result :=
  let c := inv_Context inv in
  match Facts c with
  | [] =>
      MkResult "Insufficient grounding to suggest an action." None (countTokens (UserMessage c)) 0 0 "refused"
  | _ =>
      let s := suggest (dict_str (Facts c) "channel") (dict_str (Facts c) "interaction_status")
                 (toInt (dict_get (Facts c) "unread_count")) in
      let out := sg_Title s +:+ " — " +:+ sg_Detail s in
      MkResult out (Some s) (countTokens (SystemPrompt c +:+ UserMessage c)) (countTokens out) 0 "completed"
  end.

#[export] Instance rules_provider : AIProvider () := {
  ai_Invoke inv := fun _ w => (inl (rules_Invoke inv), w);
}.

Definition usage_data (source : string) (r : Result) (inv : Invocation) : dict :=
  [("metric", VStr "ai_tokens"); ("input_tokens", VInt (InputTokens r)); ("output_tokens", VInt (OutputTokens r));
   ("outcome", VStr (res_Outcome r)); ("provider", VStr source); ("agent_id", VStr (inv_AgentID inv))].

(** [EmitUsageEvent]; [None] is nil. *)
Definition EmitUsageEvent (source : string) (r : Result) (inv : Invocation) : M (option Envelope) :=
  events_New TopicUsageRecorded source (inv_InteractionID inv) (inv_TenantID inv) (usage_data source r inv).

(** internal/platform/outbox/writer.go: an event in a transaction of its own.
    The code returns the driver's error of a failed commit as it is; both
    callers drop it, so it is wrapped here as the other commits' are. *)
Definition PublishLater (v : Envelope) : M () :=
  with_tx "write failed" (_ ← Writer_Insert (Some v); commit_or "write failed").

(** The sink cmd/api installs: the usage event, its errors dropped. *)
Definition api_sink (source : string) : UsageSink := fun r inv e s =>
  ((v ← EmitUsageEvent source r inv;
    match v with
    | Some v => _ ← or_nil (PublishLater v); mret ()
    | None => mret ()
    end) e s).2.

(** ** runtime.go *)

Record Agent := MkAgent {
  a_ID : string;
  a_TenantID : string;
  a_Name : string;
  a_ModelHint : string;
  a_Status : string;
  a_SystemPrompt : string;
  a_Tools : list (string * Z);
  a_Policies : dict;
}.

(** A row of the query: the agent with its latest prompt, and the JSON objects
    of its tools and policies. *)
Record AgentConfigRow := MkAgentConfigRow {
  acr_Agent : Agent;
  acr_Tools : dict;
}.

Record InvokeInput := MkInvokeInput {
  ii_AgentID : string;
  ii_InteractionID : string;
  ii_UserMessage : string;
  ii_Facts : dict;
}.

Definition tool_limits (tools : dict) : list (string * Z) :=
  omap (fun kv => match kv.2 with VInt n => Some (kv.1, n) | _ => None end) tools.

Section Runtime.
Context {P : Type} `{AIProvider P}.
Variable agents : gmap string AgentConfigRow.
Variable g : Gateway.
(** [r.source] *)
Variable source : string.

Definition sel_agent (tenantID agentID : string) : option AgentConfigRow :=
  match agents !! agentID with
  | Some row => if String.eqb (a_TenantID (acr_Agent row)) tenantID then Some row else None
  | None => None
  end.

Definition ResolveAgent (tenantID agentID : string) : M Agent :=
  row ← pool_Query (fun _ => sel_agent tenantID agentID);
  match row with
  | SqlOk None => throw (NotFound "ai.agent_not_found" "AI agent not found")
  | SqlErr x => throw (WithCause (Internal "db.read_failed" "read failed") (sqlerr_error x))
  | SqlOk (Some row) =>
      let a := acr_Agent row in
      mret (MkAgent (a_ID a) (a_TenantID a) (a_Name a) (a_ModelHint a) (a_Status a) (a_SystemPrompt a)
              (tool_limits (acr_Tools row)) (a_Policies a))
  end.

Definition Runtime_Invoke (tenantID : string) (i : InvokeInput) : MW P Result :=
  ag ← lift (ResolveAgent tenantID (ii_AgentID i));
  if negb (String.eqb (a_Status ag) "active") then
    fail (AppErr (Conflict "ai.agent_not_active" "AI agent is not active"))
  else
  res ← Invoke g (Some (MkInvocation tenantID (a_ID ag) (ii_InteractionID i)
                          (MkContext (a_SystemPrompt ag) "" "" (dict_str (ii_Facts i) "channel") (ii_Facts i)
                             (ii_UserMessage i)) 0 0));
  v ← lift (EmitUsageEvent source res
              (MkInvocation tenantID (a_ID ag) (ii_InteractionID i) (MkContext "" "" "" "" [] "") 0 0));
  match v with
  | Some v => _ ← lift (or_nil (PublishLater v)); mret res
  | None => mret res
  end.
End Runtime.

(** [InvokeTool]: the caller's tenant and agent replace those of the call. *)
Definition InvokeTool `{Tools.Ports} (tenantID agentID : string) (c : Tools.Call) (tg : Tools.Gateway)
    : Tools.Outcome * option error * Tools.Gateway :=
  Tools.Invoke (Tools.MkCall (Tools.c_Tool c) tenantID agentID (Tools.c_InteractionID c) (Tools.c_Args c)) tg.

Example count_tokens_demo : countTokens "  two words " = 2 /\ countTokens "" = 0.
Proof. split; reflexivity. Qed.

(** ** Properties of the intelligence plane

    What the gateway lets through to a provider, and what a turn meters. *)

(** ** The gateway over any provider *)

(** A provider whose calls are recorded. *)
Definition logged {P} (H : AIProvider P) : AIProvider (P * list Invocation) := {|
  ai_Invoke := fun inv e w =>
    let '(r, (p, s)) := ai_Invoke inv e (w.1.1, w.2) in (r, ((p, w.1.2 ++ [inv]), s));
|}.

Section Governed.
Context {P : Type} {H : AIProvider P}.

Notation LP := (P * list Invocation)%type.

Lemma wpw_meter g r inv e (p : LP) s (Q : () + error -> LP * st -> Prop) :
  (forall s', Q (inl ()) (p, s')) -> wpw (meter g r inv) e (p, s) Q.
Proof. intros HQ. apply HQ. Qed.

(** One attempt is one call of the provider, whose output is within the cap. *)
Lemma wpw_invokeOnce g inv e p l s (Q : Result + error -> LP * st -> Prop) :
  (forall r p' s', (forall res, r = inl res -> OutputTokens res <= inv_MaxTokens inv) ->
     Q r ((p', l ++ [inv]), s')) ->
  wpw (invokeOnce (H := logged H) g inv) e ((p, l), s) Q.
Proof.
  intros HQ. unfold invokeOnce.
  apply wpw_bind. unfold wpw at 1, lift at 1. cbn [time_Now fst snd].
  apply wpw_bind. unfold wpw at 1, call_provider at 1. cbn [ai_Invoke logged fst snd].
  destruct (ai_Invoke inv e (p, _)) as [[res|err] [p' s1]].
  - apply wpw_bind. apply wpw_lift. unfold wp, time_Now. apply wpw_ret. apply HQ.
    intros res' [= <-]. cbn [OutputTokens with_Latency].
    destruct (Z.ltb_spec (inv_MaxTokens inv) (OutputTokens res)); cbn; lia.
  - destruct (is_timeout err); [|apply wpw_fail; by apply HQ].
    apply wpw_bind. apply wpw_lift. unfold wp, time_Now. apply wpw_bind. apply wpw_meter.
    intros s'. apply wpw_fail. by apply HQ.
Qed.

Lemma wpw_invoke_loop more g inv e p l s (Q : Result + error -> LP * st -> Prop) :
  (forall r p' calls s', (1 <= length calls <= S more)%nat -> Forall (eq inv) calls ->
     (forall res, r = inl res -> OutputTokens res <= inv_MaxTokens inv) ->
     (forall err, r = inr err -> final_error err = true \/ length calls = S more) ->
     Q r ((p', l ++ calls), s')) ->
  wpw (invoke_loop (H := logged H) more g inv) e ((p, l), s) Q.
Proof.
  revert p l s. induction more as [|more IH]; intros p l s HQ; cbn [invoke_loop].
  all: apply wpw_bind, wpw_try, wpw_invokeOnce; intros [res|err] p' s' Hr.
  all: try (apply wpw_bind, wpw_meter; intros s2; apply wpw_ret; apply (HQ (inl res) p' [inv] s2);
            [simpl; lia|by repeat constructor|naive_solver|done]).
  all: destruct (final_error err) eqn:Ef;
       try (apply wpw_fail; apply (HQ (inr err) p' [inv] s');
            [simpl; lia|by repeat constructor|done|intros ? [= <-]; auto]).
  apply IH. intros r p2 calls s2 Hlen Hall Hres Herr. rewrite <- app_assoc.
  apply (HQ r p2 (inv :: calls) s2); [simpl; lia|by constructor|done|].
  intros x Hx. destruct (Herr x Hx); [by left|right; simpl; lia].
Qed.
End Governed.

(** The governed path to a provider. Whatever the provider, the sink and
    the failures of the store, one invocation calls the provider at most twice,
    each time with the same tenant, agent and context and within the gateway's
    positive caps on tokens and time; without a tenant it calls nobody. An
    invalid request, a conflict or a timeout ends it at once, any other error
    after the second attempt, and a result never reports more output tokens
    than the cap. *)
Lemma ai_governed {P} (H : AIProvider P) mt to sink inv e p s :
  let g := NewGateway mt to sink in
  let '(r, ((p', calls), s')) := Invoke (H := logged H) g (Some inv) e ((p, []), s) in
  (length calls <= 2)%nat
  /\ (inv_TenantID inv = "" -> calls = [] /\ s' = s)
  /\ Forall (fun c => inv_TenantID c = inv_TenantID inv /\ inv_AgentID c = inv_AgentID inv
       /\ inv_Context c = inv_Context inv
       /\ 0 < inv_MaxTokens c <= maxTokens g /\ 0 < inv_Timeout c <= timeout g
       /\ forall res, r = inl res -> OutputTokens res <= inv_MaxTokens c) calls
  /\ match r with
     | inl _ => calls <> []
     | inr err => final_error err = true \/ length calls = 2%nat
     end.
Proof.
  intros g. set (Q := fun (r : Result + error) (w : (P * list Invocation) * st) =>
    (length w.1.2 <= 2)%nat
    /\ (inv_TenantID inv = "" -> w.1.2 = [] /\ w.2 = s)
    /\ Forall (fun c => inv_TenantID c = inv_TenantID inv /\ inv_AgentID c = inv_AgentID inv
         /\ inv_Context c = inv_Context inv
         /\ 0 < inv_MaxTokens c <= maxTokens g /\ 0 < inv_Timeout c <= timeout g
         /\ forall res, r = inl res -> OutputTokens res <= inv_MaxTokens c) w.1.2
    /\ match r with
       | inl _ => w.1.2 <> []
       | inr err => final_error err = true \/ length w.1.2 = 2%nat
       end).
  enough (wpw (Invoke (H := logged H) g (Some inv)) e ((p, []), s) Q) as Hw.
  { unfold wpw in Hw. by destruct (Invoke g (Some inv) e _) as [r [[p' calls] s']]. }
  unfold Invoke. destruct (is_empty (inv_TenantID inv)) eqn:Et.
  { apply wpw_fail. unfold Q. cbn [fst snd length]. split; [lia|]. split; [done|]. split; [constructor|by left]. }
  apply is_empty_false in Et. apply wpw_invoke_loop. intros r p' calls s' Hlen Hall Hres Herr.
  change (S (Z.to_nat (maxAttempts g - 1))) with 2%nat in *. unfold Q. cbn [fst snd app].
  split; [lia|]. split; [done|]. split.
  - eapply Forall_impl; [exact Hall|]. intros c <-. cbn [capped inv_TenantID inv_AgentID inv_Context inv_MaxTokens inv_Timeout] in *.
    assert (0 < maxTokens g /\ 0 < timeout g) as [Hm Ht].
    { unfold g, NewGateway, Second, Millisecond. cbn [maxTokens timeout].
      destruct (Z.leb_spec mt 0), (Z.leb_spec to 0); lia. }
    repeat split; try done; try (by intros; eapply Hres).
    all: repeat match goal with |- context [Z.leb ?a ?b] => destruct (Z.leb_spec a b) end.
    all: repeat match goal with |- context [Z.ltb ?a ?b] => destruct (Z.ltb_spec a b) end; simpl in *; lia.
  - destruct r; [by destruct calls; simpl in Hlen; [lia|]|naive_solver].
Qed.

(** ** A turn of an agent *)

(** The row a metered result leaves in the outbox. *)
Definition usage_row (id source iid tid : string) (now : Z) (data : dict) : OutboxRow :=
  MkOutboxRow (MkEnvelope id TopicUsageRecorded source iid tid "" now data) "pending" 0 "" None.

Lemma fresh_later e n k d : fresh e n d -> (n <= k)%nat -> fresh e k d.
Proof. intros [Hi Ho] Hk. split; [intros i j Hij; apply Hi; lia|]. intros i o Hle. apply Ho. lia. Qed.

Lemma wp_metered e source r inv s (Q : result () -> st -> Prop) :
  healthy e -> fresh e (steps s) (committed s) -> inv_TenantID inv <> "" ->
  (forall s', let row := usage_row (uuid_of e (steps s)) source (inv_InteractionID inv) (inv_TenantID inv)
                 (clock e (S (steps s))) (usage_data source r inv) in
     committed s' = set_outbox (fun l => l ++ [row]) (committed s) -> txn s' = None ->
     (steps s < steps s')%nat -> fresh e (steps s') (committed s') -> Q (Ok ()) s') ->
  wp (v ← EmitUsageEvent source r inv;
      match v with
      | Some v => _ ← or_nil (PublishLater v); mret ()
      | None => mret ()
      end) e s Q.
Proof.
  intros Hh Hfr Ht HQ. pose proof Hfr as [Hi Ho]. wp_step. apply wp_events_New_ok; [done..|].
  wp_step. wp_step. unfold PublishLater. wp_step; [no_fault Hh|]. wp_step.
  apply wp_Writer_Insert_ok; [done| | |].
  - unfold Validate. cbn [e_ID e_Type e_Source e_TenantID is_empty]. simpl.
    by rewrite (healthy_uuid _ Hh), (proj2 (is_empty_false _) Ht).
  - intros o Hin. apply Ho; [done|]. exact Hin.
  - wp_step; [no_fault Hh|]. wp_step. apply HQ; [done..|simpl; lia|]. cbn [bump committed steps].
    split; [intros i j Hij; apply Hi; lia|]. intros i o Hle [Hin|Hin]%elem_of_app.
    + apply Ho; [lia|done].
    + apply list_elem_of_singleton in Hin as ->. cbn [ob_Env usage_row e_ID]. intros E. symmetry in E.
      apply Hi in E; lia.
Qed.

(** The same event, published by the runtime instead of the sink. *)
Lemma wpw_metered {P A} (a : A) e source r inv (p : P) s (Q : A + error -> P * st -> Prop) :
  wp (v ← EmitUsageEvent source r inv;
      match v with
      | Some v => _ ← or_nil (PublishLater v); mret ()
      | None => mret ()
      end) e s (fun _ s' => Q (inl a) (p, s')) ->
  wpw (v ← lift (EmitUsageEvent source r inv);
       match v with
       | Some v => _ ← lift (or_nil (PublishLater v)); mret a
       | None => mret a
       end) e (p, s) Q.
Proof.
  intros Hw. unfold wp, mbind, M_bind, EmitUsageEvent, events_New in Hw. wpw_step. apply wpw_lift.
  unfold wp at 1, EmitUsageEvent, events_New. destruct (NewEnvelope _ _ _ _ _ _ _ _ _) as [v|]; [|exact Hw].
  apply wpw_bind, wpw_lift. unfold wp. unfold or_nil in *. by destruct (PublishLater v e _) as [[] s'].
Qed.

(** The rules provider never fails: one attempt, metered once. *)
Lemma wpw_rules_Invoke g inv sink e s (Q : Result + error -> () * st -> Prop) :
  onUsage g = Some sink -> inv_TenantID inv <> "" ->
  (forall res s1, committed s1 = committed s -> (steps s <= steps s1)%nat ->
     res_Outcome res = (if decide (Facts (inv_Context inv) = []) then "refused" else "completed") ->
     Q (inl res) ((), sink res (capped g inv) e s1)) ->
  wpw (Invoke g (Some inv)) e ((), s) Q.
Proof.
  intros Hg Ht HQ. unfold Invoke. rewrite (proj2 (is_empty_false _) Ht).
  set (r := rules_Invoke (capped g inv)).
  set (res d := with_Latency d (if inv_MaxTokens (capped g inv) <? OutputTokens r
                              then with_OutputTokens (inv_MaxTokens (capped g inv)) r else r)) in *.
  assert (Ho : forall d, res_Outcome (res d) = if decide (Facts (inv_Context inv) = []) then "refused" else "completed").
  { intros d. unfold res. transitivity (res_Outcome r); [by destruct (_ <? _)|].
    unfold r, rules_Invoke. cbn [capped inv_Context]. by destruct (Facts (inv_Context inv)). }
  assert (Hl : forall k, wpw (invoke_loop k g (capped g inv)) e ((), s) Q); [|apply Hl].
  intros k. destruct k; cbn [invoke_loop]; apply wpw_bind, wpw_try; unfold invokeOnce;
    apply wpw_bind, wpw_lift; wp_step; apply wpw_bind; unfold wpw at 1, call_provider at 1; cbn [ai_Invoke rules_provider];
    apply wpw_bind, wpw_lift; wp_step; apply wpw_ret, wpw_bind; unfold wpw at 1, meter at 1; rewrite Hg; apply wpw_ret;
    (apply HQ; [done|simpl; lia|apply Ho]).
Qed.

(** What cmd/api meters. In a run without failures a turn of an active
    agent of the tenant succeeds and leaves exactly two usage events in the
    outbox, with the same tokens and outcome under different event ids: one
    from the gateway's sink, one from the runtime itself. Nothing else of the
    database changes. *)
Lemma ai_turn_metered_twice agents mt to source t i row e s :
  healthy e -> fresh e (steps s) (committed s) -> t <> "" ->
  sel_agent agents t (ii_AgentID i) = Some row -> a_Status (acr_Agent row) = "active" ->
  exists res id1 id2 now1 now2 s',
    Runtime_Invoke agents (NewGateway mt to (Some (api_sink source))) source t i e ((), s) = (inl res, ((), s'))
    /\ res_Outcome res = (if decide (ii_Facts i = []) then "refused" else "completed")
    /\ id1 <> id2
    /\ let data := [("metric", VStr "ai_tokens"); ("input_tokens", VInt (InputTokens res));
                    ("output_tokens", VInt (OutputTokens res)); ("outcome", VStr (res_Outcome res));
                    ("provider", VStr source); ("agent_id", VStr (a_ID (acr_Agent row)))] in
       committed s' = set_outbox (fun l => l ++ [usage_row id1 source (ii_InteractionID i) t now1 data;
                                                 usage_row id2 source (ii_InteractionID i) t now2 data]) (committed s).
Proof.
  intros Hh Hfr Ht Hs Ha. set (Q := fun (r : Result + error) (w : () * st) => exists res id1 id2 now1 now2,
    r = inl res /\ res_Outcome res = (if decide (ii_Facts i = []) then "refused" else "completed") /\ id1 <> id2
    /\ let data := [("metric", VStr "ai_tokens"); ("input_tokens", VInt (InputTokens res));
                    ("output_tokens", VInt (OutputTokens res)); ("outcome", VStr (res_Outcome res));
                    ("provider", VStr source); ("agent_id", VStr (a_ID (acr_Agent row)))] in
       committed w.2 = set_outbox (fun l => l ++ [usage_row id1 source (ii_InteractionID i) t now1 data;
                                                 usage_row id2 source (ii_InteractionID i) t now2 data]) (committed s)).
  enough (wpw (Runtime_Invoke agents (NewGateway mt to (Some (api_sink source))) source t i) e ((), s) Q) as Hw.
  { unfold wpw in Hw. destruct (Runtime_Invoke _ _ _ _ _ _ _) as [r [[] s']].
    destruct Hw as (res & id1 & id2 & n1 & n2 & -> & ? & ? & ?). by exists res, id1, id2, n1, n2, s'. }
  unfold Runtime_Invoke. wpw_step. apply wpw_lift. unfold ResolveAgent. wp_step. wp_step; [no_fault Hh|].
  rewrite Hs. wp_step. cbn [a_Status a_ID a_SystemPrompt]. rewrite Ha. cbn [negb]. change (String.eqb "active" "active") with true. cbn [negb].
  wpw_step. apply (wpw_rules_Invoke _ _ (api_sink source)); [done..|].
  intros res s1 Hc1 Hn1 Ho. cbn [inv_Context Facts] in Ho.
  assert (Hf1 : fresh e (steps s1) (committed s1)) by (rewrite Hc1; eapply fresh_later; [exact Hfr|simpl in Hn1; lia]).
  apply (wp_run _ _ _ (fun _ s2 => wpw _ e ((), s2) Q) _ _) with (2 := surjective_pairing _).
  apply wp_metered; [done..|]. cbn zeta. intros s2 Hc2 _ Hn2 Hf2. apply wpw_metered, wp_metered; [done..|].
  cbn zeta. intros s3 Hc3 _ _ _. exists res. do 4 eexists. split; [done|]. split; [done|].
  split; cycle 1.
  - cbn [snd]. rewrite Hc3, Hc2, Hc1. unfold set_outbox. simpl. rewrite <- app_assoc. reflexivity.
  - intros E. destruct Hf1 as [Hi _]. apply Hi in E; lia.
Qed.

Definition demo_agents : gmap string AgentConfigRow :=
  {["a1" := MkAgentConfigRow (MkAgent "a1" "t1" "assist" "" "active" "Be brief." [] []) []]}.

Definition demo_input : InvokeInput :=
  MkInvokeInput "a1" "i1" "hello there" [("channel", VStr "whatsapp"); ("unread_count", VInt 2)].

Lemma ai_turn_metered_twice_witness :
  exists res s', Runtime_Invoke demo_agents (NewGateway 0 0 (Some (api_sink "orvexa-api"))) "orvexa-api" "t1"
                   demo_input env0 ((), MkSt empty_db None 0) = (inl res, ((), s'))
    /\ length (d_outbox (committed s')) = 2%nat.
Proof.
  destruct (ai_turn_metered_twice demo_agents 0 0 "orvexa-api" "t1" demo_input
    (MkAgentConfigRow (MkAgent "a1" "t1" "assist" "" "active" "Be brief." [] []) []) env0 (MkSt empty_db None 0)
    env0_healthy (env0_fresh 0 empty_db eq_refl) ltac:(discriminate) eq_refl eq_refl)
    as (res & id1 & id2 & n1 & n2 & s' & Hr & _ & _ & Hs).
  exists res, s'. split; [exact Hr|]. by rewrite Hs.
Defined.
