(* ===== verification/Wire.v ===== *)
(** * Reading a byte stream line by line

    [bufio.Reader.ReadSlice('\n')] over the bytes still to come: [data] and
    then the end, which is a clean EOF or a transport error. Shared by the two
    telephony codecs. *)

From Stdlib Require Import String Ascii.
From S2P Require Import Prelude GoStd.

Local Open Scope Z_scope.

Definition LF : ascii := "010".
Definition CR : ascii := "013".
Definition NUL : ascii := "000".

(** What follows the last byte: [None] is [io.EOF]. *)
Record Stream := MkStream { data : string; failure : option string }.

Inductive Slice :=
| Line (frag : string) (rest : string)
| BufferFull (frag : string) (rest : string)
| AtEnd (frag : string).

(** The fragment excludes the delimiter. A window of [size] bytes without one
    is [bufio.ErrBufferFull]. *)
Definition ReadSlice (size : nat) (s : string) : Slice :=
  match cut s LF with
  | (h, Some t) =>
      if (String.length h <? size)%nat then Line h t else BufferFull (stake size s) (sdrop size s)
  | (_, None) =>
      if (size <=? String.length s)%nat then BufferFull (stake size s) (sdrop size s)
      else AtEnd s
  end.

(** [strings.TrimSuffix(line, "\r")] *)
Fixpoint drop_cr (s : string) : string :=
  match s with
  | EmptyString => EmptyString
  | String a EmptyString => if Ascii.eqb a CR then EmptyString else s
  | String a s' => String a (drop_cr s')
  end.

(** [strings.TrimPrefix(s, " ")] *)
Definition drop_space (s : string) : string := trim_prefix s " ".

(** [strings.ContainsAny(s, chars)] *)
Definition contains_any (s : string) (chars : list ascii) : bool :=
  existsb (has_byte s) chars.

(** ** Lemmas *)

Lemma ReadSlice_line size h t :
  has_byte h LF = false -> (String.length h < size)%nat ->
  ReadSlice size (h +:+ String LF t) = Line h t.
Proof.
  intros Hh Hs. unfold ReadSlice. rewrite cut_app by done. by rewrite (proj2 (Nat.ltb_lt _ _)).
Qed.

Lemma cut_length s c h t : cut s c = (h, Some t) ->
  (String.length s = String.length h + S (String.length t))%nat.
Proof.
  revert h t. induction s as [|a s IH]; intros h t; simpl; [done|].
  destruct (Ascii.eqb a c); [by intros [= <- <-]|].
  destruct (cut s c) as [h' [t'|]]; [|done]. intros [= <- <-]. simpl. by rewrite (IH h' t').
Qed.

(** A line is strictly shorter than the input. *)
Lemma ReadSlice_rest size s h t : ReadSlice size s = Line h t ->
  (String.length t < String.length s)%nat /\ (String.length h < size)%nat.
Proof.
  unfold ReadSlice. destruct (cut s LF) as [h' [t'|]] eqn:E.
  - destruct (Nat.ltb_spec (String.length h') size); [|done]. intros [= <- <-].
    apply cut_length in E. lia.
  - by destruct (_ <=? _)%nat.
Qed.

Lemma sdrop_shorter n s : (String.length (sdrop n s) <= String.length s)%nat.
Proof.
  revert s. induction n as [|n IH]; intros [|a s]; simpl; try lia. specialize (IH s). lia.
Qed.

Lemma ReadSlice_full size s h t : ReadSlice size s = BufferFull h t ->
  (String.length t <= String.length s)%nat.
Proof.
  unfold ReadSlice. destruct (cut s LF) as [h' [t'|]].
  - destruct (_ <? _)%nat; [done|]. intros [= <- <-]. apply sdrop_shorter.
  - destruct (_ <=? _)%nat; [|done]. intros [= <- <-]. apply sdrop_shorter.
Qed.

Lemma drop_cr_app s : drop_cr (s +:+ String CR EmptyString) = s.
Proof.
  induction s as [|a s IH]; [done|].
  change (drop_cr (String a (s +:+ String CR EmptyString)) = String a s).
  destruct s as [|b s]; [reflexivity|].
  change (String a (drop_cr (String b s +:+ String CR EmptyString)) = String a (String b s)).
  by rewrite IH.
Qed.

Lemma drop_cr_id s : has_byte s CR = false -> drop_cr s = s.
Proof.
  induction s as [|a s IH]; [done|]. simpl. intros [Ha Hs]%orb_false_iff. destruct s as [|b s].
  - by rewrite Ha.
  - by rewrite IH.
Qed.

Lemma drop_cr_length s : (String.length (drop_cr s) <= String.length s)%nat.
Proof.
  induction s as [|a s IH]; [done|]. destruct s as [|b s].
  - simpl. destruct (Ascii.eqb a CR); simpl; lia.
  - change (S (String.length (drop_cr (String b s))) <= S (String.length (String b s)))%nat. lia.
Qed.

Lemma drop_space_sep v : drop_space (String " " v) = v.
Proof. by destruct v. Qed.

Lemma contains_any_false s chars c :
  contains_any s chars = false -> c ∈ chars -> has_byte s c = false.
Proof.
  unfold contains_any. intros H Hc. apply not_true_iff_false. intros Hb.
  apply not_true_iff_false in H. apply H, existsb_exists. exists c. by rewrite <- list_elem_of_In.
Qed.

Lemma stake_sdrop n s : stake n s +:+ sdrop n s = s.
Proof.
  revert s. induction n as [|n IH]; intros [|a s]; try done.
  exact (f_equal (String a) (IH s)).
Qed.

Lemma length_stake n s : (n <= String.length s)%nat -> String.length (stake n s) = n.
Proof. revert s. induction n as [|n IH]; intros [|a s] H; simpl in *; try lia. by rewrite IH by lia. Qed.

Lemma length_sdrop n s : String.length (sdrop n s) = (String.length s - n)%nat.
Proof. revert s. induction n as [|n IH]; intros [|a s]; simpl; try lia. by rewrite IH. Qed.

Lemma stake_app n x y : (n <= String.length x)%nat -> stake n (x +:+ y) = stake n x.
Proof.
  revert x. induction n as [|n IH]; intros [|a x] H; simpl in *; try done; try lia.
  f_equal. apply IH. lia.
Qed.

Lemma sdrop_app n x y : (n <= String.length x)%nat -> sdrop n (x +:+ y) = sdrop n x +:+ y.
Proof.
  revert x. induction n as [|n IH]; intros [|a x] H; simpl in *; try done; try lia. apply IH. lia.
Qed.

Lemma sdrop_all x y : sdrop (String.length x) (x +:+ y) = y.
Proof. induction x as [|a x IH]; [by destruct y|]. exact IH. Qed.

Lemma stake_all x y : stake (String.length x) (x +:+ y) = x.
Proof. induction x as [|a x IH]; [by destruct y|]. exact (f_equal (String a) IH). Qed.

Lemma has_byte_parts n s c :
  has_byte s c = false -> has_byte (stake n s) c = false /\ has_byte (sdrop n s) c = false.
Proof. intros H. rewrite <- (stake_sdrop n s), has_byte_app in H. by apply orb_false_iff in H. Qed.
