(* ===== verification/Ami.v ===== *)
(** * internal/telephony/adapters/asterisk/ami.go: the AMI codec

    Requests to wire bytes and wire bytes to packets, with the protocol bounds
    of the reader. A packet is its ordered, duplicate-preserving header list. *)

From Stdlib Require Import String Ascii.
From S2P Require Import Prelude GoStd Wire.

Local Open Scope Z_scope.

Definition DefaultMaxLineLen : nat := 8 * 1024.
Definition DefaultMaxPacketSize : Z := Z.shiftl 1 20.
Definition DefaultMaxHeaders : nat := 128.

(** The codec's errors: the two sentinels with the text [%w] is followed by,
    and what the stream itself returns. *)
Inductive ami_error :=
| ErrPacketTooLarge (what : string)
| ErrMalformedPacket (what : string)
| StreamEOF
| StreamError (err : string).

Record amiHeader := MkHeader { Key : string; Value : string }.

Definition amiPacket := list amiHeader.

(** [(p *amiPacket) get]; the names looked up are ASCII. *)
Fixpoint get (p : amiPacket) (key : string) : string :=
  match p with
  | [] => EmptyString
  | h :: p' => if equal_fold (Key h) key then Value h else get p' key
  end.

Definition getAll (p : amiPacket) (key : string) : list string :=
  map Value (List.filter (fun h => equal_fold (Key h) key) p).

Definition isEvent (p : amiPacket) : bool := negb (is_empty (get p "Event")).
Definition isResponse (p : amiPacket) : bool := negb (is_empty (get p "Response")).
Definition actionID (p : amiPacket) : string := get p "ActionID".

Definition header_size (h : amiHeader) : Z :=
  Z.of_nat (String.length (Key h)) + Z.of_nat (String.length (Value h)) + 4.

Definition size (p : amiPacket) : Z := fold_left (fun n h => n + header_size h) p 0.

(** ** Requests *)

Record amiRequest := MkRequest { Action : string; Headers : list amiHeader }.

Definition CRLF : string := String CR (String LF EmptyString).

Definition checkHeaderToken (key value : string) : option ami_error :=
  if is_empty key then Some (ErrMalformedPacket "empty header key")
  else if contains_any value [CR; LF; NUL] then
    Some (ErrMalformedPacket ("header " +:+ quote key
            +:+ " value contains a control character (CR/LF/NUL)"))
  else if contains_any key [CR; LF; NUL; ":"%char; " "%char] then
    Some (ErrMalformedPacket ("header key " +:+ quote key +:+ " contains a framing character"))
  else None.

Definition header_line (h : amiHeader) : string := Key h +:+ ": " +:+ Value h +:+ CRLF.

Fixpoint encode_headers (hs : list amiHeader) : string + ami_error :=
  match hs with
  | [] => inl EmptyString
  | h :: hs =>
      match checkHeaderToken (Key h) (Value h) with
      | Some err => inr err
      | None =>
          match encode_headers hs with
          | inl b => inl (header_line h +:+ b)
          | inr err => inr err
          end
      end
  end.

(** [(r amiRequest) encode] *)
Definition encode (r : amiRequest) : string + ami_error :=
  if is_empty (Action r) then inr (ErrMalformedPacket "action name is required") else
  match checkHeaderToken "Action" (Action r) with
  | Some err => inr err
  | None =>
      match encode_headers (Headers r) with
      | inl b => inl (header_line (MkHeader "Action" (Action r)) +:+ b +:+ CRLF)
      | inr err => inr err
      end
  end.

Definition withActionID (r : amiRequest) (id : string) : amiRequest :=
  MkRequest (Action r)
    (MkHeader "ActionID" id
     :: List.filter (fun h => negb (equal_fold (Key h) "ActionID")) (Headers r)).

(** ** The reader *)

Record amiReader := MkReader {
  bufSize : nat;
  maxLine : nat;
  maxPacket : Z;
  maxHeaders : nat;
}.

Definition newAMIReader : amiReader :=
  MkReader (DefaultMaxLineLen + 64) DefaultMaxLineLen DefaultMaxPacketSize DefaultMaxHeaders.

Definition too_long (r : amiReader) : ami_error :=
  ErrPacketTooLarge ("line exceeds " +:+ itoa (Z.of_nat (maxLine r)) +:+ " bytes").

(** [readLine]: the line and the bytes after it. *)
Definition readLine (r : amiReader) (s : Stream) : string * Stream + ami_error :=
  match ReadSlice (bufSize r) (data s) with
  | BufferFull _ _ => inr (too_long r)
  | AtEnd frag =>
      match failure s with
      | Some err => inr (StreamError err)
      | None =>
          if is_empty frag then inr StreamEOF
          else inr (ErrMalformedPacket "stream ended mid-line")
      end
  | Line frag rest =>
      let line := drop_cr frag in
      if (maxLine r <? String.length line)%nat then inr (too_long r)
      else inl (line, MkStream rest (failure s))
  end.

(** One line as a header: the banner has no colon. *)
Definition parse_header (line : string) : amiHeader + ami_error :=
  match cut line ":"%char with
  | (_, None) => inl (MkHeader line EmptyString)
  | (key, Some value) =>
      let key := trim_space key in
      if is_empty key then
        inr (ErrMalformedPacket ("header line " +:+ quote line +:+ " has an empty key"))
      else inl (MkHeader key (drop_space value))
  end.

(** The loop of [next]; every round consumes a line, so the length of the data
    is enough fuel. *)
Fixpoint next_from (r : amiReader) (fuel : nat) (pkt : amiPacket) (s : Stream)
    : amiPacket * Stream + ami_error :=
  match fuel with
  | O => inr StreamEOF
  | S fuel =>
      match readLine r s with
      | inr StreamEOF =>
          inr (match pkt with [] => StreamEOF | _ => ErrMalformedPacket "stream ended mid-packet" end)
      | inr err => inr err
      | inl (line, s) =>
          if is_empty line then
            match pkt with [] => next_from r fuel [] s | _ => inl (pkt, s) end
          else
          match parse_header line with
          | inr err => inr err
          | inl h =>
              let pkt := pkt ++ [h] in
              if (maxHeaders r <? length pkt)%nat then
                inr (ErrPacketTooLarge ("more than " +:+ itoa (Z.of_nat (maxHeaders r)) +:+ " headers"))
              else if maxPacket r <? size pkt then
                inr (ErrPacketTooLarge ("packet exceeds " +:+ itoa (maxPacket r) +:+ " bytes"))
              else next_from r fuel pkt s
          end
      end
  end.

Definition next (r : amiReader) (s : Stream) : amiPacket * Stream + ami_error :=
  next_from r (S (String.length (data s))) [] s.

(** [cleanWireValue]: control bytes dropped, at most [limit] bytes. *)
Fixpoint clean_bytes (limit : nat) (s : string) : string :=
  match s with
  | EmptyString => EmptyString
  | String c s' =>
      if (code c <? 32) || (code c =? 127) then clean_bytes limit s'
      else match limit with
           | O => EmptyString
           | S n => String c (clean_bytes n s')
           end
  end.

Definition cleanWireValue (s : string) (limit : Z) : string :=
  clean_bytes (if limit <=? 0 then DefaultMaxLineLen else Z.to_nat limit) s.

Example encode_demo :
  encode (withActionID (MkRequest "Originate" [MkHeader "Channel" "PJSIP/1"]) "a1")
  = inl ("Action: Originate" +:+ CRLF +:+ "ActionID: a1" +:+ CRLF +:+ "Channel: PJSIP/1"
         +:+ CRLF +:+ CRLF).
Proof. reflexivity. Qed.

(** ** Properties of the AMI codec

    What a request puts on the wire is read back as that one packet, whatever
    its values hold; whatever the peer sends, an accepted packet is within the
    protocol bounds. *)

(** The packet a request is meant as. *)
Definition meant (r : amiRequest) : amiPacket := MkHeader "Action" (Action r) :: Headers r.

(** A header's line without its terminator. *)
Definition header_text (h : amiHeader) : string := Key h +:+ ": " +:+ Value h.

Definition line_fits (rd : amiReader) (h : amiHeader) : Prop :=
  (String.length (header_text h) <= maxLine rd)%nat
  /\ (S (String.length (header_text h)) < bufSize rd)%nat.

(** A packet within the bounds of a reader. *)
Definition fits (rd : amiReader) (p : amiPacket) : Prop :=
  Forall (line_fits rd) p /\ (length p <= maxHeaders rd)%nat /\ size p <= maxPacket rd.

(** ** Lemmas *)

Lemma size_from n p : fold_left (fun n h => n + header_size h) p n = n + size p.
Proof.
  unfold size. revert n. induction p as [|h p IH]; intros n; cbn [fold_left]; [lia|].
  rewrite (IH (n + _)), (IH (0 + _)). lia.
Qed.

Lemma size_app p q : size (p ++ q) = size p + size q.
Proof. unfold size at 1. rewrite fold_left_app, size_from. reflexivity. Qed.

Lemma size_cons h p : size (h :: p) = header_size h + size p.
Proof. unfold size at 1. cbn [fold_left]. rewrite size_from. lia. Qed.

Lemma size_nonneg p : 0 <= size p.
Proof. induction p as [|h p IH]; [done|]. rewrite size_cons. unfold header_size. lia. Qed.

Lemma check_ok key value :
  checkHeaderToken key value = None ->
  key <> "" /\ (forall c, c ∈ [CR; LF; NUL] -> has_byte value c = false)
  /\ (forall c, c ∈ [CR; LF; NUL; ":"%char; " "%char] -> has_byte key c = false).
Proof.
  unfold checkHeaderToken. destruct (is_empty key) eqn:E1; [done|].
  destruct (contains_any value _) eqn:E2; [done|]. destruct (contains_any key _) eqn:E3; [done|].
  intros _. split; [by apply is_empty_false|].
  split; intros c Hc; by eapply contains_any_false.
Qed.

(** A header the writer accepts and the reader does not trim. *)
Definition clean (h : amiHeader) : Prop :=
  checkHeaderToken (Key h) (Value h) = None /\ trim_space (Key h) = Key h.

Lemma header_text_no_byte h c :
  clean h -> c ∈ [CR; LF; NUL] -> has_byte (header_text h) c = false.
Proof.
  intros [H _] Hc. apply check_ok in H as (_ & Hv & Hk). unfold header_text.
  rewrite !has_byte_app, (Hv c Hc), (Hk c) by set_solver.
  assert (has_byte ": " c = false) as ->; [|done].
  repeat (apply elem_of_cons in Hc as [->|Hc]; [reflexivity|]). by apply not_elem_of_nil in Hc.
Qed.

Lemma header_line_text h t :
  header_line h +:+ t = (header_text h +:+ String CR EmptyString) +:+ String LF t.
Proof.
  unfold header_line, header_text, CRLF. rewrite !sapp_assoc. reflexivity.
Qed.

Lemma header_text_nonempty h : clean h -> header_text h <> "".
Proof.
  intros [H _] E. apply check_ok in H as (H & _ & _). unfold header_text in E. by destruct (Key h).
Qed.

Lemma parse_header_text h : clean h -> parse_header (header_text h) = inl h.
Proof.
  intros [H Ht]. apply check_ok in H as (Hne & _ & Hk). unfold parse_header, header_text.
  change (Key h +:+ ": " +:+ Value h) with (Key h +:+ String ":" (String " " (Value h))).
  rewrite cut_app by (apply Hk; set_solver). rewrite Ht, (proj2 (is_empty_false _)) by done.
  rewrite drop_space_sep. by destruct h.
Qed.

(** Reading one header line. *)
Lemma readLine_header rd h t f :
  clean h ->
  (line_fits rd h /\ readLine rd (MkStream (header_line h +:+ t) f) = inl (header_text h, MkStream t f))
  \/ (~ line_fits rd h /\ readLine rd (MkStream (header_line h +:+ t) f) = inr (too_long rd)).
Proof.
  intros Hc. unfold readLine, line_fits. cbn [data failure]. rewrite header_line_text.
  set (x := header_text h) in *.
  assert (has_byte (x +:+ String CR "") LF = false) as Hx.
  { rewrite has_byte_app. unfold x. rewrite header_text_no_byte by (done || set_solver). reflexivity. }
  assert (String.length (x +:+ String CR "") = S (String.length x)) as Hl
    by (rewrite length_sapp; simpl; lia).
  unfold ReadSlice. rewrite cut_app by done. rewrite Hl.
  destruct (Nat.ltb_spec (S (String.length x)) (bufSize rd)); [|right; split; [lia|done]].
  rewrite drop_cr_app. destruct (Nat.ltb_spec (maxLine rd) (String.length x)).
  - right. split; [lia|done].
  - left. split; [lia|done].
Qed.

Lemma readLine_blank rd t f :
  (1 < bufSize rd)%nat -> readLine rd (MkStream (CRLF +:+ t) f) = inl ("", MkStream t f).
Proof.
  intros Hb. unfold readLine. cbn [data failure].
  change (CRLF +:+ t) with (String CR "" +:+ String LF t). rewrite ReadSlice_line by done. reflexivity.
Qed.

(** Writing headers and reading them back, from any packet already read. *)
Lemma next_from_headers rd f t hs pkt fuel b :
  Forall clean hs -> encode_headers hs = inl b -> pkt ++ hs <> [] -> (1 < bufSize rd)%nat ->
  (length hs < fuel)%nat ->
  (length pkt <= maxHeaders rd)%nat -> size pkt <= maxPacket rd ->
  next_from rd fuel pkt (MkStream (b +:+ CRLF +:+ t) f) = inl (pkt ++ hs, MkStream t f)
  \/ (~ fits rd (pkt ++ hs)
      /\ exists w, next_from rd fuel pkt (MkStream (b +:+ CRLF +:+ t) f) = inr (ErrPacketTooLarge w)).
Proof.
  intros Hcl. revert pkt fuel b. induction Hcl as [|h hs Hh _ IH]; intros pkt fuel b Hb Hne Hbuf Hf Hn Hs.
  - injection Hb as <-. destruct fuel as [|fuel]; [simpl in Hf; lia|]. cbn [next_from].
    change (EmptyString +:+ CRLF +:+ t) with (CRLF +:+ t). rewrite readLine_blank by done.
    cbn [is_empty String.eqb]. rewrite app_nil_r in *. left. by destruct pkt.
  - cbn [encode_headers] in Hb. rewrite (proj1 Hh) in Hb.
    destruct (encode_headers hs) as [b'|]; [|done]. injection Hb as <-.
    destruct fuel as [|fuel]; [simpl in Hf; lia|]. cbn [next_from]. rewrite sapp_assoc.
    destruct (readLine_header rd h (b' +:+ CRLF +:+ t) f Hh) as [[Hl ->]|[Hl ->]].
    2: { right. split; [|by eexists]. intros [HF _]. apply Hl. by apply Forall_app in HF as [_ [HF _]%Forall_cons_1]. }
    rewrite (proj2 (is_empty_false _)) by (by apply header_text_nonempty).
    rewrite parse_header_text by done.
    assert (pkt ++ h :: hs = (pkt ++ [h]) ++ hs) as Eapp by (by rewrite <- app_assoc).
    destruct (Nat.ltb_spec (maxHeaders rd) (length (pkt ++ [h]))) as [Hm|Hm].
    { right. split; [|by eexists]. rewrite Eapp. intros (_ & HL & _). rewrite length_app in HL. lia. }
    destruct (Z.ltb_spec (maxPacket rd) (size (pkt ++ [h]))) as [Hz|Hz].
    { right. split; [|by eexists]. rewrite Eapp. intros (_ & _ & HS). rewrite size_app in HS.
      pose proof (size_nonneg hs). lia. }
    rewrite Eapp. apply IH; [done|by destruct pkt|done|simpl in Hf; lia|done|done].
Qed.

Lemma encode_inv r b :
  encode r = inl b ->
  exists b', encode_headers (meant r) = inl b' /\ b = b' +:+ CRLF /\ checkHeaderToken "Action" (Action r) = None.
Proof.
  unfold encode, meant. destruct (is_empty (Action r)); [done|]. cbn [encode_headers Key Value].
  destruct (checkHeaderToken "Action" (Action r)); [done|].
  destruct (encode_headers (Headers r)) as [b'|]; [|done]. intros [= <-].
  eexists. split; [done|]. split; [|done]. by rewrite sapp_assoc.
Qed.

Lemma encode_headers_clean hs b :
  encode_headers hs = inl b -> Forall (fun h => trim_space (Key h) = Key h) hs -> Forall clean hs.
Proof.
  revert b. induction hs as [|h hs IH]; intros b; [constructor|]. cbn [encode_headers].
  destruct (checkHeaderToken _ _) eqn:E; [done|].
  destruct (encode_headers hs) eqn:Eh; [|done]. intros _ HF. apply Forall_cons in HF as [Hk HF].
  constructor; [by split|eauto].
Qed.

Lemma encode_headers_length hs b : encode_headers hs = inl b -> (length hs <= String.length b)%nat.
Proof.
  revert b. induction hs as [|h hs IH]; intros b; cbn [encode_headers]; [simpl; lia|].
  destruct (checkHeaderToken _ _); [done|]. destruct (encode_headers hs) as [b'|]; [|done].
  intros [= <-]. specialize (IH b' eq_refl). unfold header_line. rewrite !length_sapp. simpl. lia.
Qed.

(** ** What the reader accepts *)

Lemma length_of_list l : String.length (string_of_list_ascii l) = length l.
Proof. induction l as [|a l IH]; simpl; [done|]. by rewrite IH. Qed.

Lemma length_to_list s : length (list_ascii_of_string s) = String.length s.
Proof. induction s as [|a s IH]; simpl; [done|]. by rewrite IH. Qed.

Lemma trim_with_length f n l : (length (trim_with f n l) <= length l)%nat.
Proof.
  revert l. induction n as [|n IH]; intros l; simpl; [done|]. destruct (f l); [done|].
  etransitivity; [apply IH|]. rewrite length_drop. lia.
Qed.

Lemma trim_space_length s : (String.length (trim_space s) <= String.length s)%nat.
Proof.
  unfold trim_space. rewrite length_of_list, length_rev. etransitivity; [apply trim_with_length|].
  rewrite length_rev. etransitivity; [apply trim_with_length|]. by rewrite length_to_list.
Qed.

Definition header_bytes (h : amiHeader) : nat := (String.length (Key h) + String.length (Value h))%nat.

Lemma parse_header_bytes line h :
  parse_header line = inl h -> (header_bytes h <= String.length line)%nat.
Proof.
  unfold parse_header, header_bytes. destruct (cut line _) as [k [v|]] eqn:E.
  - destruct (is_empty (trim_space k)); [done|]. intros [= <-]. simpl. apply cut_length in E.
    pose proof (trim_space_length k). unfold drop_space, trim_prefix.
    destruct (has_prefix v " "); [|lia]. pose proof (sdrop_shorter (String.length " ") v). lia.
  - intros [= <-]. simpl. lia.
Qed.

Lemma readLine_inl rd s line s' :
  readLine rd s = inl (line, s') ->
  (String.length line <= maxLine rd)%nat /\ (String.length (data s') < String.length (data s))%nat
  /\ failure s' = failure s.
Proof.
  unfold readLine. destruct (ReadSlice _ _) as [frag rest|frag rest|frag] eqn:E; [|done|].
  - apply ReadSlice_rest in E as [E _].
    destruct (Nat.ltb_spec (maxLine rd) (String.length (drop_cr frag))); [done|].
    intros [= <- <-]. done.
  - destruct (failure s); [done|]. by destruct (is_empty frag).
Qed.

(** Every accepted packet is bounded, and reading consumes input. *)
Lemma next_from_bounds rd fuel pkt s p s' :
  next_from rd fuel pkt s = inl (p, s') ->
  (length pkt <= maxHeaders rd)%nat -> size pkt <= maxPacket rd ->
  Forall (fun h => header_bytes h <= maxLine rd)%nat pkt ->
  p <> [] /\ (length p <= maxHeaders rd)%nat /\ size p <= maxPacket rd
  /\ Forall (fun h => header_bytes h <= maxLine rd)%nat p
  /\ (String.length (data s') < String.length (data s))%nat /\ failure s' = failure s.
Proof.
  revert pkt s. induction fuel as [|fuel IH]; intros pkt s H Hn Hs Hl; cbn [next_from] in H; [done|].
  destruct (readLine rd s) as [[line s1]|err] eqn:Er; [|by destruct err].
  apply readLine_inl in Er as (Hline & Hlen & Hfail). destruct (is_empty line).
  - destruct pkt as [|h pkt].
    + destruct (IH _ _ H Hn Hs Hl) as (? & ? & ? & ? & ? & ?). split_and!; [done..|lia|congruence].
    + injection H as <- <-. done.
  - destruct (parse_header line) as [h|] eqn:Eh; [|done]. apply parse_header_bytes in Eh.
    destruct (Nat.ltb_spec (maxHeaders rd) (length (pkt ++ [h]))); [done|].
    destruct (Z.ltb_spec (maxPacket rd) (size (pkt ++ [h]))); [done|].
    destruct (IH _ _ H) as (? & ? & ? & ? & ? & ?); [done|done| |split_and!; [done..|lia|congruence]].
    apply Forall_app. split; [done|]. constructor; [lia|constructor].
Qed.

(** More fuel than bytes makes no difference. *)
Lemma next_from_fuel rd fuel fuel' pkt s :
  (String.length (data s) < fuel)%nat -> (String.length (data s) < fuel')%nat ->
  next_from rd fuel pkt s = next_from rd fuel' pkt s.
Proof.
  revert fuel' pkt s. induction fuel as [|fuel IH]; intros [|fuel'] pkt s H H'; try lia. cbn [next_from].
  destruct (readLine rd s) as [[line s1]|err] eqn:Er; [|done].
  apply readLine_inl in Er as (_ & Hlen & _). destruct (is_empty line).
  - destruct pkt; [|done]. apply IH; lia.
  - destruct (parse_header line); [|done]. destruct (_ <? _)%nat; [done|]. destruct (_ <? _); [done|].
    apply IH; lia.
Qed.

(** ** Properties *)

(** C26. No smuggling: whatever the values of an accepted request, its bytes
    read back, in front of any further bytes, either as exactly the packet it
    was meant as, leaving exactly those bytes, or, precisely when that packet
    exceeds the reader's bounds, as a size error; never as another packet. A
    request stamped with an action id carries that one id. *)
Theorem ami_request_roundtrip rd r b t f :
  encode r = inl b -> Forall (fun h => trim_space (Key h) = Key h) (Headers r) -> (1 < bufSize rd)%nat ->
  0 <= maxPacket rd ->
  (next rd (MkStream (b +:+ t) f) = inl (meant r, MkStream t f)
   \/ (~ fits rd (meant r)
       /\ exists w, next rd (MkStream (b +:+ t) f) = inr (ErrPacketTooLarge w)))
  /\ forall r0 id, r = withActionID r0 id -> getAll (meant r) "ActionID" = [id] /\ actionID (meant r) = id.
Proof.
  intros He Ht Hb Hz. apply encode_inv in He as (b' & He & -> & _). split.
  - unfold next. cbn [data]. rewrite sapp_assoc.
    assert (Forall clean (meant r)) as Hcl by (eapply encode_headers_clean; [exact He|by constructor]).
    pose proof (encode_headers_length _ _ He) as Hlen.
    assert (length (meant r) < S (String.length (b' +:+ CRLF +:+ t)))%nat as Hfuel
      by (rewrite length_sapp; lia).
    exact (next_from_headers rd f t (meant r) [] _ b' Hcl He ltac:(discriminate) Hb Hfuel (Nat.le_0_l _) Hz).
  - intros r0 id ->. unfold getAll, actionID, meant, withActionID. cbn [Headers Action get List.filter Key].
    change (equal_fold "Action" "ActionID") with false. change (equal_fold "ActionID" "ActionID") with true.
    cbn [map Value]. split; [|done]. f_equal.
    induction (Headers r0) as [|h l IH]; [done|]. cbn [List.filter].
    destruct (equal_fold (Key h) "ActionID") eqn:E; cbn [negb List.filter]; [done|by rewrite E].
Qed.

Definition originate : amiRequest :=
  withActionID (MkRequest "Originate" [MkHeader "Channel" "PJSIP/100"; MkHeader "ActionId" "forged";
    MkHeader "Variable" "note=a: b"]) "act-1".

Lemma ami_request_roundtrip_witness :
  exists b, encode originate = inl b
  /\ next newAMIReader (MkStream (b +:+ "Event: Hangup") None) = inl (meant originate, MkStream "Event: Hangup" None)
  /\ getAll (meant originate) "ActionID" = ["act-1"].
Proof.
  eexists. split; [vm_compute; reflexivity|].
  destruct (ami_request_roundtrip newAMIReader originate _ "Event: Hangup" None
    ltac:(vm_compute; reflexivity) ltac:(repeat (apply Forall_cons; split; [reflexivity|]); apply Forall_nil; exact I) ltac:(unfold newAMIReader, DefaultMaxLineLen; simpl; lia)
    ltac:(discriminate)) as [[H|[H _]] Hid].
  - split; [exact H|]. exact (proj1 (Hid _ _ eq_refl)).
  - exfalso. apply H. split; [|split; [apply Nat.leb_le; vm_compute; reflexivity|vm_compute; discriminate]].
    repeat (apply Forall_cons; split; [split; apply Nat.leb_le; vm_compute; reflexivity|]). apply Forall_nil.
    exact I.
Defined.

(** Bounded reads: whatever bytes the peer sends, a packet is accepted only
    within the reader's header count, packet size and line length, is never
    empty, and consumes input; the reader never needs more rounds than there
    are bytes. *)
Lemma ami_packet_bounds rd s :
  0 <= maxPacket rd ->
  (forall p s', next rd s = inl (p, s') ->
     p <> [] /\ (length p <= maxHeaders rd)%nat /\ size p <= maxPacket rd
     /\ Forall (fun h => String.length (Key h) + String.length (Value h) <= maxLine rd)%nat p
     /\ (String.length (data s') < String.length (data s))%nat /\ failure s' = failure s)
  /\ forall fuel, (String.length (data s) < fuel)%nat -> next_from rd fuel [] s = next rd s.
Proof.
  intros Hz. split.
  - intros p s' H. apply next_from_bounds in H; [done|simpl; lia|done|constructor].
  - intros fuel Hf. apply next_from_fuel; lia.
Qed.

Lemma ami_packet_bounds_witness :
  exists p s', next newAMIReader (MkStream ("Asterisk Call Manager/8.0.0" +:+ CRLF +:+ CRLF) None) = inl (p, s')
  /\ size p <= maxPacket newAMIReader.
Proof.
  eexists _, _. split; [vm_compute; reflexivity|].
  refine (proj1 (proj2 (proj2 (proj1 (ami_packet_bounds newAMIReader
    (MkStream ("Asterisk Call Manager/8.0.0" +:+ CRLF +:+ CRLF) None) _) _ (MkStream "" None) _)))).
  - discriminate.
  - vm_compute. reflexivity.
Defined.
