(* ===== verification/FsFrame.v ===== *)
(** * internal/telephony/adapters/freeswitch/frame.go: ESL frames

    The frame reader over a byte stream, the event parser, and the
    serializers of the same file. *)

From Stdlib Require Import String Ascii.
From S2P Require Import Prelude GoStd Wire.

Local Open Scope Z_scope.

Definition ctAuthRequest := "auth/request".
Definition ctCommandReply := "command/reply".
Definition ctAPIResponse := "api/response".
Definition ctEventPlain := "text/event-plain".
Definition ctDisconnectNotic := "text/disconnect-notice".
Definition ctRudeRejection := "text/rude-rejection".

Definition hdrContentType := "content-type".
Definition hdrContentLen := "content-length".
Definition hdrReplyText := "reply-text".
Definition hdrChallenge := "challenge".
Definition hdrJobUUID := "job-uuid".

Definition maxFrameBytes : Z := Z.shiftl 8 20.
Definition maxHeaderBytes : Z := Z.shiftl 4 10.
Definition maxHeaders : nat := 128.

(** The sentinels with the text that follows them, and the stream's errors. *)
Inductive fs_error :=
| errFrameTooLarge
| errMalformedFrame (what : string)
| errShortFrame (what : string)
| StreamEOF
| StreamError (err : string).

Record hkv := MkHkv { name : string; val : string }.

Record Frame := MkFrame {
  ContentType : string;
  Body : string;
  headers : list hkv;
}.

(** [Header] on a header list; the names looked up are ASCII. *)
Fixpoint Header (hs : list hkv) (n : string) : string :=
  match hs with
  | [] => EmptyString
  | h :: hs => if equal_fold (name h) n then val h else Header hs n
  end.

Definition ReplyText (f : Frame) : string := Header (headers f) hdrReplyText.

(** [strings.TrimRight(s, "\n")] *)
Fixpoint trim_right_lf (s : string) : string :=
  match s with
  | EmptyString => EmptyString
  | String a s' =>
      match trim_right_lf s' with
      | EmptyString => if Ascii.eqb a LF then EmptyString else String a EmptyString
      | r => String a r
      end
  end.

Definition Result (f : Frame) : string :=
  if String.eqb (ContentType f) ctAPIResponse then trim_right_lf (Body f) else ReplyText f.

(** ** The reader *)

(** The default window of [bufio.NewReader]. *)
Definition bufio_size : nat := 4096.

Definition newFrameReader (limit : Z) : Z := if limit <=? 0 then maxFrameBytes else limit.

(** The length of [buf] with its newline. *)
Definition trimLine (buf : string) (limit : Z) : string + fs_error :=
  if limit <? Z.of_nat (S (String.length buf)) then inr errFrameTooLarge else inl (drop_cr buf).

(** The loop of [readLine] after the bytes [buf]; every round consumes bytes, so
    the length of the data is enough fuel. *)
Fixpoint readLine_from (limit : Z) (fuel : nat) (buf : string) (s : Stream)
    : string * Stream + fs_error :=
  match fuel with
  | O => inr StreamEOF
  | S fuel =>
      match ReadSlice bufio_size (data s) with
      | Line frag rest =>
          match trimLine (buf +:+ frag) limit with
          | inl line => inl (line, MkStream rest (failure s))
          | inr err => inr err
          end
      | BufferFull frag rest =>
          let buf := buf +:+ frag in
          if limit <? Z.of_nat (String.length buf) then inr errFrameTooLarge
          else readLine_from limit fuel buf (MkStream rest (failure s))
      | AtEnd frag =>
          match failure s with
          | Some err => inr (StreamError err)
          | None =>
              if is_empty (buf +:+ frag) then inr StreamEOF
              else inr (errShortFrame "EOF inside a frame")
          end
      end
  end.

Definition readLine (limit : Z) (s : Stream) : string * Stream + fs_error :=
  readLine_from limit (S (String.length (data s))) "" s.

Definition splitHeader (line : string) : option hkv :=
  match cut line ":"%char with
  | (_, None) => None
  | (n, Some v) =>
      if is_empty n then None
      else if is_empty (trim_space n) then None
      else Some (MkHkv n (drop_space v))
  end.

(** The header loop: [n] is how many more lines may be read before the count
    [i] passes [maxHeaders]; [acc] are the headers so far. *)
Fixpoint read_headers (limit : Z) (n : nat) (acc : list hkv) (s : Stream)
    : list hkv * Stream + fs_error :=
  match n with
  | O => inr (errMalformedFrame "too many headers")
  | S n =>
      match readLine limit s with
      | inr err => inr err
      | inl (line, s) =>
          if is_empty line then inl (acc, s) else
          match splitHeader line with
          | None => inr (errMalformedFrame ("bad header line " +:+ quote line))
          | Some h =>
              if match acc with [] => negb (equal_fold (name h) hdrContentType) | _ => false end then
                inr (errMalformedFrame ("first header must be Content-Type, got " +:+ quote (name h)))
              else read_headers limit n (acc ++ [h]) s
          end
      end
  end.

(** [f.ContentType] after the loop: the last Content-Type header. *)
Definition content_type (hs : list hkv) : option string :=
  fold_left (fun ct h => if equal_fold (name h) hdrContentType then Some (val h) else ct) hs None.

(** [io.ReadFull] of [n] bytes. *)
Definition ReadFull (n : nat) (s : Stream) : string * Stream + fs_error :=
  if (n <=? String.length (data s))%nat then
    inl (stake n (data s), MkStream (sdrop n (data s)) (failure s))
  else inr (errShortFrame ("body: " +:+ match failure s with
                                        | Some err => err
                                        | None => if is_empty (data s) then "EOF" else "unexpected EOF"
                                        end)).

Definition ReadFrame (limit : Z) (s : Stream) : Frame * Stream + fs_error :=
  match read_headers limit (S maxHeaders) [] s with
  | inr err => inr err
  | inl (hs, s) =>
      match content_type hs with
      | None => inr (errMalformedFrame "missing Content-Type")
      | Some ct =>
          let cl := Header hs hdrContentLen in
          if is_empty cl then inl (MkFrame ct "" hs, s) else
          let bad := inr (errMalformedFrame ("bad Content-Length " +:+ quote cl)) in
          match atoi cl with
          | None => bad
          | Some n =>
              if n <? 0 then bad
              else if limit <? n then inr errFrameTooLarge
              else match ReadFull (Z.to_nat n) s with
                   | inr err => inr err
                   | inl (body, s) => inl (MkFrame ct body hs, s)
                   end
          end
      end
  end.

(** ** Events *)

Fixpoint parse_fields (fuel : nat) (fields : gmap string string) (rest : string)
    : gmap string string * string + fs_error :=
  match fuel with
  | O => inl (fields, rest)
  | S fuel =>
      if is_empty rest then inl (fields, "") else
      let '(line, rest) := match cut rest LF with
                           | (l, Some r) => (l, r)
                           | (l, None) => (l, "")
                           end in
      let trimmed := drop_cr line in
      if is_empty trimmed then inl (fields, rest) else
      match splitHeader trimmed with
      | None => inr (errMalformedFrame ("bad event line " +:+ quote trimmed))
      | Some h => parse_fields fuel (<[to_lower (name h) := val h]> fields) rest
      end
  end.

Definition ParseEvent (body : string) : gmap string string * string + fs_error :=
  parse_fields (S (String.length body)) ∅ body.

Definition EventField (fields : gmap string string) (n : string) : string :=
  default "" (fields !! to_lower n).

(** ** Serializers *)

Definition LFs : string := String LF EmptyString.

Definition command (text : string) : string := text +:+ LFs.

Definition sortedKeys (m : gmap string string) : list string :=
  stable_sort String.ltb (map fst (map_to_list m)).

Definition field_line (k v : string) : string := k +:+ ": " +:+ v +:+ LFs.

(** The lines of a map's entries, by key. *)
Definition field_lines (fields : gmap string string) : string :=
  fold_right (fun k s => field_line k (default "" (fields !! k)) +:+ s) "" (sortedKeys fields).

Definition payloadBody (fields : gmap string string) (payload : string) : string :=
  let body := field_lines fields in
  if is_empty payload then body else body +:+ LFs +:+ payload.

(** Content-Type and Content-Length lines, blank line, body. *)
Definition sized_frame (ct body : string) : string :=
  field_line "Content-Type" ct
  +:+ field_line "Content-Length" (itoa (Z.of_nat (String.length body))) +:+ LFs +:+ body.

Definition eventFrame (fields : gmap string string) (payload : string) : string :=
  sized_frame ctEventPlain (payloadBody fields payload).

Definition replyFrame (replyText : string) (extra : gmap string string) : string :=
  field_line "Content-Type" ctCommandReply +:+ field_line "Reply-Text" replyText
  +:+ field_lines extra +:+ LFs.

Definition apiResponseFrame (body : string) : string := sized_frame ctAPIResponse body.

Definition bareFrame (contentType : string) (extra : gmap string string) : string :=
  field_line "Content-Type" contentType +:+ field_lines extra +:+ LFs.

Example event_demo :
  let fields := {["event-name" := "CHANNEL_ANSWER"; "unique-id" := "u: 1"]} in
  match ReadFrame maxFrameBytes (MkStream (eventFrame fields "hi" +:+ "next") None) with
  | inl (f, s) => (ContentType f, data s, ParseEvent (Body f))
  | inr _ => ("", "", inr StreamEOF)
  end = (ctEventPlain, "next", inl (fields, "hi")).
Proof. vm_compute. reflexivity. Qed.

(** ** Properties of the ESL frame codec

    Frames the serializers write are read back exactly, whatever follows them
    and however long their lines are; accepted frames are bounded header by
    header. *)

(** ** Lines *)

Lemma readLine_from_ok limit f t fuel buf x :
  has_byte x LF = false -> Z.of_nat (String.length buf + S (String.length x)) <= limit ->
  (String.length x < fuel)%nat ->
  readLine_from limit fuel buf (MkStream (x +:+ String LF t) f)
  = inl (drop_cr (buf +:+ x), MkStream t f).
Proof.
  revert buf x. induction fuel as [|fuel IH]; intros buf x Hx Hl Hf; [lia|]. cbn [readLine_from data failure].
  destruct (Nat.ltb_spec (String.length x) bufio_size) as [Hs|Hs].
  - rewrite ReadSlice_line by done. unfold trimLine. rewrite length_sapp.
    rewrite (proj2 (Z.ltb_ge _ _)) by lia. done.
  - unfold ReadSlice. rewrite cut_app by done. rewrite (proj2 (Nat.ltb_ge _ _)) by lia.
    rewrite stake_app, sdrop_app by lia. rewrite length_sapp, length_stake by lia.
    rewrite (proj2 (Z.ltb_ge _ _)) by lia. destruct (has_byte_parts bufio_size x LF Hx) as [_ Hd].
    rewrite IH; [by rewrite sapp_assoc, stake_sdrop|done|..];
      rewrite ?length_sapp, ?length_stake, ?length_sdrop by lia; unfold bufio_size in *; lia.
Qed.

Lemma readLine_ok limit f t x :
  has_byte x LF = false -> Z.of_nat (S (String.length x)) <= limit ->
  readLine limit (MkStream (x +:+ String LF t) f) = inl (drop_cr x, MkStream t f).
Proof.
  intros Hx Hl. unfold readLine. rewrite (readLine_from_ok limit f t _ "" x); [done|done|simpl; lia|].
  simpl. rewrite length_sapp. lia.
Qed.

(** ** Headers *)

Definition header_text (h : hkv) : string := name h +:+ ": " +:+ val h.

Record hdr_ok (limit : Z) (h : hkv) : Prop := {
  ok_name : name h <> "";
  ok_trim : trim_space (name h) <> "";
  ok_colon : has_byte (name h) ":"%char = false;
  ok_line : forall c, c ∈ [LF; CR] -> has_byte (header_text h) c = false;
  ok_length : Z.of_nat (S (String.length (header_text h))) <= limit;
}.

Lemma field_line_text h t : field_line (name h) (val h) +:+ t = header_text h +:+ String LF t.
Proof. unfold field_line, header_text, LFs. rewrite !sapp_assoc. reflexivity. Qed.

Lemma splitHeader_text h :
  name h <> "" -> trim_space (name h) <> "" -> has_byte (name h) ":"%char = false ->
  splitHeader (header_text h) = Some h.
Proof.
  intros H1 H2 H3. unfold splitHeader, header_text.
  change (name h +:+ ": " +:+ val h) with (name h +:+ String ":" (String " " (val h))).
  rewrite cut_app by done. rewrite !(proj2 (is_empty_false _)) by done. rewrite drop_space_sep.
  by destruct h.
Qed.

Lemma frame_header_nonempty h : name h <> "" -> header_text h <> "".
Proof. unfold header_text. by destruct (name h). Qed.

Definition lines (hs : list hkv) : string :=
  fold_right (fun h s => field_line (name h) (val h) +:+ s) "" hs.

Lemma read_headers_ok limit f t hs acc n :
  Forall (hdr_ok limit) hs -> 1 <= limit -> (length hs < n)%nat ->
  (acc = [] -> match hs with h :: _ => equal_fold (name h) hdrContentType = true | [] => True end) ->
  read_headers limit n acc (MkStream (lines hs +:+ LFs +:+ t) f) = inl (acc ++ hs, MkStream t f).
Proof.
  intros Hok Hlim. revert acc n. induction Hok as [|h hs Hh _ IH]; intros acc n Hn Hfirst;
    (destruct n as [|n]; [simpl in Hn; lia|]); cbn [read_headers lines fold_right].
  - change (EmptyString +:+ LFs +:+ t) with ("" +:+ String LF t).
    rewrite readLine_ok by (done || simpl; lia). simpl. by rewrite app_nil_r.
  - rewrite sapp_assoc, field_line_text.
    rewrite readLine_ok by (apply Hh; set_solver).
    rewrite drop_cr_id by (apply (ok_line _ _ Hh); set_solver).
    rewrite (proj2 (is_empty_false _)) by (apply frame_header_nonempty, Hh).
    rewrite splitHeader_text by apply Hh.
    replace (match acc with [] => negb (equal_fold (name h) hdrContentType) | _ => false end) with false
      by (destruct acc; [by rewrite Hfirst|done]).
    fold (lines hs). rewrite (IH (acc ++ [h]) n).
    + by rewrite <- app_assoc.
    + simpl in Hn. lia.
    + by destruct acc.
Qed.

(** ** Sized frames *)

Lemma crlf_cases (P : ascii -> Prop) : P LF -> P CR -> forall c, c ∈ [LF; CR] -> P c.
Proof. intros H1 H2 c [->|[->|Hc%not_elem_of_nil]%elem_of_cons]%elem_of_cons; done. Qed.

Lemma itoa_bytes n c : 0 <= n <= int64_max -> c ∈ [LF; CR] -> has_byte (itoa n) c = false.
Proof.
  intros Hn Hc. apply itoa_no_byte; [lia|]. left. revert c Hc. by apply crlf_cases.
Qed.

Lemma itoa_length n : (String.length (itoa n) <= 21)%nat.
Proof.
  assert (forall fuel m acc, String.length (dec_digits fuel m acc) <= fuel + String.length acc)%nat as H.
  { induction fuel as [|fuel IH]; intros m acc; simpl; [lia|]. destruct (m <? 10); simpl; [lia|].
    etransitivity; [apply IH|]. simpl. lia. }
  unfold itoa. destruct (n <? 0); [apply (le_n_S _ 20), (H 20%nat (- n) ""%string)|].
  etransitivity; [apply (H 20%nat n ""%string)|simpl; lia].
Qed.

Definition sized_headers (ct body : string) : list hkv :=
  [MkHkv "Content-Type" ct; MkHkv "Content-Length" (itoa (Z.of_nat (String.length body)))].

Lemma ReadFrame_sized limit ct body f t :
  ct = ctEventPlain \/ ct = ctAPIResponse -> 64 <= limit -> Z.of_nat (String.length body) <= limit ->
  limit <= int64_max ->
  ReadFrame limit (MkStream (sized_frame ct body +:+ t) f)
  = inl (MkFrame ct body (sized_headers ct body), MkStream t f).
Proof.
  intros Hct Hlim Hb Hmax. set (n := Z.of_nat (String.length body)) in *.
  assert (sized_frame ct body +:+ t = lines (sized_headers ct body) +:+ LFs +:+ (body +:+ t)) as ->.
  { unfold sized_frame, lines, sized_headers. cbn [fold_right name val]. by rewrite !sapp_assoc. }
  assert (Forall (hdr_ok limit) (sized_headers ct body)) as Hok.
  { pose proof (itoa_length n) as Hi. apply Forall_cons. split; [|apply Forall_cons; split; [|by apply Forall_nil]].
    - destruct Hct as [->| ->]; (split; [done|done|reflexivity|by apply crlf_cases|etransitivity; [|exact Hlim]; vm_compute; discriminate]).
    - split; [done|done|reflexivity| |].
      + intros c Hc. unfold header_text. cbn [name val]. rewrite !has_byte_app, itoa_bytes by (done || lia).
        rewrite orb_false_r. revert c Hc. by apply crlf_cases.
      + unfold header_text. cbn [name val]. rewrite !length_sapp. fold n.
        change (String.length "Content-Length") with 14%nat. change (String.length ": ") with 2%nat. lia. }
  unfold ReadFrame. rewrite (read_headers_ok limit f (body +:+ t) _ [] (S maxHeaders)).
  2: exact Hok. 2: lia. 2: (unfold maxHeaders; simpl; lia). 2: reflexivity.
  cbn [app]. change (content_type (sized_headers ct body)) with (Some ct).
  change (Header (sized_headers ct body) hdrContentLen) with (itoa n).
  assert (itoa n <> "") as Hne.
  { unfold itoa. rewrite (proj2 (Z.ltb_ge n 0)) by lia. destruct (dec_digits_cons 20 n "") as (d & r & _ & ->);
      [done|lia|done]. }
  rewrite (proj2 (is_empty_false _)) by done. rewrite itoa_atoi by lia.
  rewrite (proj2 (Z.ltb_ge n 0)), (proj2 (Z.ltb_ge limit n)) by lia.
  unfold ReadFull. cbn [data failure]. unfold n. rewrite Nat2Z.id, length_sapp.
  rewrite (proj2 (Nat.leb_le _ _)) by lia. by rewrite stake_all, sdrop_all.
Qed.

(** ** Events *)

(** Names the parser's lower-casing keeps, and values without line breaks. *)
Definition key_char (a : ascii) : bool :=
  plain a && negb (Ascii.eqb a ":") && Ascii.eqb (lower a) a.

Definition key_ok (k : string) : Prop := k <> "" /\ sforallb key_char k = true.

Definition value_ok (v : string) : Prop := forall c, c ∈ [LF; CR] -> has_byte v c = false.

Lemma value_ok_intro v : has_byte v LF = false -> has_byte v CR = false -> value_ok v.
Proof. intros H1 H2 c. revert c. by apply crlf_cases. Qed.

Lemma sforallb_has_byte f s c : sforallb f s = true -> f c = false -> has_byte s c = false.
Proof.
  intros Hs Hc. induction s as [|a s IH]; [done|]. simpl in *. apply andb_prop in Hs as [Ha Hs].
  rewrite (IH Hs), orb_false_r. destruct (Ascii.eqb_spec a c) as [->|]; [congruence|done].
Qed.

Lemma key_ok_facts k :
  key_ok k -> trim_space k = k /\ has_byte k ":"%char = false
  /\ (forall c, c ∈ [LF; CR] -> has_byte k c = false) /\ to_lower k = k.
Proof.
  intros [_ Hk]. split_and!.
  - apply trim_space_plain. revert Hk. apply sforallb_impl. unfold key_char.
    by intros a [[? _]%andb_prop _]%andb_prop.
  - by eapply sforallb_has_byte.
  - apply crlf_cases; by eapply sforallb_has_byte.
  - clear -Hk. induction k as [|a k IH]; [done|]. simpl in *. unfold key_char in Hk.
    apply andb_prop in Hk as [[_ Ha%Ascii.eqb_eq]%andb_prop Hk]. by rewrite Ha, IH.
Qed.

Definition value_of (fields : gmap string string) (k : string) : string := default "" (fields !! k).

Definition entry_lines (fields : gmap string string) (ks : list string) : string :=
  fold_right (fun k s => field_line k (value_of fields k) +:+ s) "" ks.

Definition read_entries (fields : gmap string string) (ks : list string) (acc : gmap string string)
    : gmap string string := fold_left (fun m k => <[k := value_of fields k]> m) ks acc.

(** What follows the entries: nothing, or a blank line and a payload. *)
Definition tail_of (payload : string) : string :=
  if is_empty payload then "" else String LF payload.

Lemma parse_fields_ok fields payload ks acc fuel :
  Forall (fun k => key_ok k /\ value_ok (value_of fields k)) ks -> (S (length ks) < fuel)%nat ->
  parse_fields fuel acc (entry_lines fields ks +:+ tail_of payload)
  = inl (read_entries fields ks acc, payload).
Proof.
  intros Hks. revert acc fuel. induction Hks as [|k ks [Hk Hv] _ IH]; intros acc fuel Hf;
    (destruct fuel as [|fuel]; [lia|]); cbn [parse_fields entry_lines fold_right read_entries fold_left].
  - change (EmptyString +:+ tail_of payload) with (tail_of payload). unfold tail_of.
    destruct (is_empty payload) eqn:E; [apply is_empty_true in E as ->; reflexivity|].
    cbn [is_empty String.eqb cut]. change (Ascii.eqb LF LF) with true. reflexivity.
  - pose proof (key_ok_facts k Hk) as (Ht & Hcolon & Hbr & Hlow). destruct Hk as [Hne _].
    rewrite sapp_assoc. rewrite (field_line_text (MkHkv k (value_of fields k))).
    set (h := MkHkv k (value_of fields k)).
    assert (forall c, c ∈ [LF; CR] -> has_byte (header_text h) c = false) as Hb.
    { intros c Hc. unfold header_text. cbn [name val h]. rewrite !has_byte_app, Hbr, Hv by done.
      rewrite orb_false_r. revert c Hc. by apply crlf_cases. }
    rewrite (proj2 (is_empty_false _)) by (unfold header_text; cbn [name h]; by destruct k).
    rewrite cut_app by (apply Hb; set_solver). rewrite drop_cr_id by (apply Hb; set_solver).
    rewrite (proj2 (is_empty_false _)) by (by apply frame_header_nonempty).
    rewrite splitHeader_text by (cbn [name h]; rewrite ?Ht; done). cbn [name val h]. rewrite Hlow.
    fold (entry_lines fields ks). rewrite IH by (simpl in Hf; lia). reflexivity.
Qed.

Lemma read_entries_lookup fields ks acc k :
  read_entries fields ks acc !! k = if decide (k ∈ ks) then Some (value_of fields k) else acc !! k.
Proof.
  unfold read_entries. revert acc. induction ks as [|k' ks IH]; intros acc; cbn [fold_left].
  - by rewrite decide_False by apply not_elem_of_nil.
  - rewrite IH. destruct (decide (k = k')) as [->|Hne].
    + rewrite (decide_True (P := k' ∈ k' :: ks)) by (apply elem_of_cons; by left).
      destruct (decide _); [done|]. by rewrite lookup_insert_eq.
    + rewrite lookup_insert_ne by done. destruct (decide (k ∈ ks)), (decide (k ∈ k' :: ks)) as [H|H];
        try done; [exfalso; apply H, elem_of_cons; by right|].
      apply elem_of_cons in H as [?|?]; done.
Qed.

Lemma elem_of_sortedKeys fields k : k ∈ sortedKeys fields <-> is_Some (fields !! k).
Proof.
  unfold sortedKeys. rewrite stable_sort_Permutation. rewrite list_elem_of_fmap. split.
  - intros ([k' v] & -> & H%elem_of_map_to_list). by exists v.
  - intros [v H]. exists (k, v). split; [done|]. by apply elem_of_map_to_list.
Qed.

Lemma read_all_entries fields : read_entries fields (sortedKeys fields) ∅ = fields.
Proof.
  apply map_eq. intros k. rewrite read_entries_lookup, lookup_empty. unfold value_of.
  destruct (decide _) as [[v H]%elem_of_sortedKeys|H]; [by rewrite H|].
  symmetry. apply eq_None_not_Some. by rewrite elem_of_sortedKeys in H.
Qed.

Lemma payloadBody_lines fields payload :
  payloadBody fields payload = entry_lines fields (sortedKeys fields) +:+ tail_of payload.
Proof.
  unfold payloadBody, tail_of, field_lines, entry_lines, value_of.
  destruct (is_empty payload); [by rewrite sapp_nil_r|reflexivity].
Qed.

Lemma entry_lines_length fields ks : (2 * length ks <= String.length (entry_lines fields ks))%nat.
Proof.
  induction ks as [|k ks IH]; [done|]. cbn [entry_lines fold_right]. fold (entry_lines fields ks).
  rewrite length_sapp. unfold field_line. rewrite !length_sapp. simpl. lia.
Qed.

Lemma ParseEvent_body fields payload :
  map_Forall (fun k v => key_ok k /\ value_ok v) fields ->
  ParseEvent (payloadBody fields payload) = inl (fields, payload).
Proof.
  intros Hf. unfold ParseEvent. rewrite payloadBody_lines.
  assert (Forall (fun k => key_ok k /\ value_ok (value_of fields k)) (sortedKeys fields)) as Hk.
  { apply Forall_forall. intros k [v Hv]%elem_of_sortedKeys. unfold value_of. rewrite Hv. by apply Hf. }
  pose proof (entry_lines_length fields (sortedKeys fields)) as Hl.
  destruct (sortedKeys fields) as [|k ks] eqn:Ek.
  - change (entry_lines fields [] +:+ tail_of payload) with (tail_of payload).
    rewrite <- (read_all_entries fields), Ek. unfold tail_of.
    destruct (is_empty payload) eqn:Ep; [apply is_empty_true in Ep as ->; reflexivity|].
    cbn [parse_fields is_empty String.eqb cut]. change (Ascii.eqb LF LF) with true. reflexivity.
  - rewrite parse_fields_ok; [by rewrite <- Ek, read_all_entries|done|].
    rewrite length_sapp. simpl in Hl |- *. lia.
Qed.

(** ** What the reader accepts *)

Lemma readLine_from_bound limit fuel buf s line s' :
  readLine_from limit fuel buf s = inl (line, s') ->
  Z.of_nat (S (String.length line)) <= limit /\ (String.length (data s') < String.length (data s))%nat.
Proof.
  revert buf s. induction fuel as [|fuel IH]; intros buf s; cbn [readLine_from]; [done|].
  destruct (ReadSlice bufio_size (data s)) as [frag rest|frag rest|frag] eqn:E.
  - apply ReadSlice_rest in E as [E _]. unfold trimLine.
    destruct (Z.ltb_spec limit (Z.of_nat (S (String.length (buf +:+ frag))))); [done|].
    intros [= <- <-]. pose proof (drop_cr_length (buf +:+ frag)). split; [lia|done].
  - destruct (_ <? _); [done|]. intros [H1 H2]%IH. split; [done|]. cbn [data] in H2.
    pose proof (ReadSlice_full _ _ _ _ E). lia.
  - destruct (failure s); [done|]. by destruct (is_empty _).
Qed.

Definition header_bytes (h : hkv) : Z := Z.of_nat (String.length (name h) + String.length (val h)).

Lemma splitHeader_bytes line h : splitHeader line = Some h -> header_bytes h < Z.of_nat (S (String.length line)).
Proof.
  unfold splitHeader, header_bytes. destruct (cut line _) as [n [v|]] eqn:E; [|done].
  destruct (is_empty n); [done|]. destruct (is_empty _); [done|]. intros [= <-]. cbn [name val].
  apply cut_length in E. unfold drop_space, trim_prefix. destruct (has_prefix v " "); [|lia].
  rewrite length_sdrop. lia.
Qed.

Lemma read_headers_bound limit n acc s hs s' :
  read_headers limit n acc s = inl (hs, s') -> Forall (fun h => header_bytes h < limit) acc ->
  Forall (fun h => header_bytes h < limit) hs /\ (length hs < length acc + n)%nat
  /\ (String.length (data s') < String.length (data s))%nat.
Proof.
  revert acc s. induction n as [|n IH]; intros acc s H Ha; cbn [read_headers] in H; [done|].
  destruct (readLine limit s) as [[line s1]|] eqn:E; [|done].
  apply readLine_from_bound in E as [El Es]. destruct (is_empty line).
  - injection H as <- <-. split; [done|]. split; [lia|done].
  - destruct (splitHeader line) as [h|] eqn:Eh; [|done]. apply splitHeader_bytes in Eh.
    destruct (match acc with [] => _ | _ => _ end); [done|].
    apply IH in H as (H1 & H2 & H3).
    + rewrite length_app in H2. simpl in H2. split; [done|]. lia.
    + apply Forall_app. split; [done|]. constructor; [lia|constructor].
Qed.

(** ** Properties *)

(** Frames survive the wire: an event frame, whatever its payload and the
    bytes after it, is read back as one frame whose body parses to exactly the
    fields and the payload it was made from; an api/response frame is read
    back with its body, which is the result up to trailing newlines. *)
Lemma fs_frame_roundtrip limit fields payload body f t :
  map_Forall (fun k v => key_ok k /\ value_ok v) fields ->
  64 <= limit <= int64_max ->
  Z.of_nat (String.length (payloadBody fields payload)) <= limit ->
  Z.of_nat (String.length body) <= limit ->
  (exists fr, ReadFrame limit (MkStream (eventFrame fields payload +:+ t) f) = inl (fr, MkStream t f)
     /\ ContentType fr = ctEventPlain /\ ParseEvent (Body fr) = inl (fields, payload))
  /\ (exists fr, ReadFrame limit (MkStream (apiResponseFrame body +:+ t) f) = inl (fr, MkStream t f)
     /\ Body fr = body /\ Result fr = trim_right_lf body).
Proof.
  intros Hf [Hl Hm] Hp Hb. split; eexists.
  - split; [apply ReadFrame_sized; auto|]. split; [done|]. by apply ParseEvent_body.
  - split; [apply ReadFrame_sized; auto|]. done.
Qed.

Definition demo_fields : gmap string string :=
  {["event-name" := "CHANNEL_ANSWER"; "unique-id" := "leg: 1"]}.

Lemma demo_fields_ok : map_Forall (fun k v => key_ok k /\ value_ok v) demo_fields.
Proof.
  intros k v H. unfold demo_fields in H. apply lookup_insert_Some in H as [[<- <-]|[_ H]].
  - split; [split; [done|reflexivity]|by apply value_ok_intro].
  - apply lookup_singleton_Some in H as [<- <-]. split; [split; [done|reflexivity]|by apply value_ok_intro].
Qed.

Lemma fs_frame_roundtrip_witness :
  exists fr, ReadFrame 128 (MkStream (eventFrame demo_fields "+OK" +:+ "tail") None) = inl (fr, MkStream "tail" None)
  /\ ContentType fr = ctEventPlain /\ ParseEvent (Body fr) = inl (demo_fields, "+OK").
Proof.
  refine (proj1 (fs_frame_roundtrip 128 demo_fields "+OK" "" None "tail" demo_fields_ok _ _ _));
    [split|..]; vm_compute; discriminate.
Defined.

(** Bounds of the frame reader: whatever the peer sends, an accepted frame
    has a Content-Type, at most 128 headers, each shorter than the frame
    limit, a body within the limit, and reading it consumed bytes. *)
Lemma fs_frame_bounds limit s fr s' :
  ReadFrame limit s = inl (fr, s') ->
  content_type (headers fr) = Some (ContentType fr)
  /\ (length (headers fr) <= maxHeaders)%nat
  /\ Forall (fun h => Z.of_nat (String.length (name h) + String.length (val h)) < limit) (headers fr)
  /\ (Body fr <> "" -> Z.of_nat (String.length (Body fr)) <= limit)
  /\ (String.length (data s') < String.length (data s))%nat.
Proof.
  unfold ReadFrame. destruct (read_headers limit (S maxHeaders) [] s) as [[hs s1]|] eqn:E; [|done].
  apply read_headers_bound in E as (Hh & Hn & Hs); [|constructor].
  destruct (content_type hs) as [ct|] eqn:Ec; [|done]. destruct (is_empty (Header hs hdrContentLen)).
  { intros [= <- <-]. cbn [headers Body ContentType]. split_and!; try done. unfold maxHeaders in *. simpl in Hn. lia. }
  destruct (atoi _) as [n|]; [|done]. destruct (Z.ltb_spec n 0); [done|].
  destruct (Z.ltb_spec limit n); [done|]. unfold ReadFull.
  destruct (Nat.leb_spec (Z.to_nat n) (String.length (data s1))); [|done]. intros [= <- <-].
  cbn [headers Body ContentType data]. split_and!; try done.
  - unfold maxHeaders in *. simpl in Hn. lia.
  - intros _. rewrite length_stake by done. lia.
  - pose proof (sdrop_shorter (Z.to_nat n) (data s1)). lia.
Qed.

Definition auth_frame : Frame :=
  MkFrame ctAuthRequest "" [MkHkv "Content-Type" ctAuthRequest].

Lemma fs_frame_bounds_witness :
  ReadFrame 64 (MkStream (bareFrame ctAuthRequest ∅) None) = inl (auth_frame, MkStream "" None)
  /\ content_type (headers auth_frame) = Some (ContentType auth_frame).
Proof.
  assert (ReadFrame 64 (MkStream (bareFrame ctAuthRequest ∅) None) = inl (auth_frame, MkStream "" None)) as H
    by (vm_compute; reflexivity).
  split; [exact H|]. pose proof (fs_frame_bounds _ _ _ _ H) as Hb. exact (proj1 Hb).
Defined.

(** The limit is per line and per body: a frame may exceed it in total. *)
Lemma frame_exceeds_limit :
  let frame := field_line "Content-Type" "text/plain" +:+ field_line "X-Padding" "0123456789"
               +:+ field_line "Content-Length" "24" +:+ LFs +:+ "abcdefghijklmnopqrstuvwx" in
  match ReadFrame 32 (MkStream frame None) with
  | inl (fr, s) => data s = "" /\ (32 < String.length frame)%nat
  | inr _ => False
  end.
Proof. vm_compute. split; [reflexivity|]. repeat constructor. Qed.
