(* ===== verification/FsClient.v ===== *)
(** * internal/telephony/adapters/freeswitch/conn.go: the ESL session

    The reconnect ladder, the handshake and the subscription over the byte
    stream, and the client as atomic steps of its goroutines: the loop that
    dials, establishes a session, reads its frames and retires it, and any
    number of callers of [Do]. A connection is its number; its reply channel
    has capacity one. A step is a critical section of [mu] or a channel
    operation with the code up to the next one; where Go's [select] chooses,
    every enabled branch is a step, and deadlines and cancellations may fire at
    any moment. *)

From Stdlib Require Import String Ascii.
From S2P Require Import Prelude GoStd Text AppErrors Wire FsFrame.

Local Open Scope Z_scope.

(** ** Configuration *)

(** [clientConfig] but for the logger and the hook. *)
Record clientConfig := MkClientConfig {
  addr : string;
  password : string;
  events : list string;
  dialTimeout : Z;
  hsTimeout : Z;
  cmdTimeout : Z;
  idleTimeout : Z;
  backoffBase : Z;
  backoffMax : Z;
  maxFrame : Z;
}.

(** The defaults of [newESLClient]. *)
Definition effective (c : clientConfig) : clientConfig :=
  let base := positive_or (backoffBase c) (50 * Millisecond) in
  MkClientConfig (addr c) (password c) (events c)
    (positive_or (dialTimeout c) (5 * Second)) (positive_or (hsTimeout c) (10 * Second))
    (positive_or (cmdTimeout c) (10 * Second)) (positive_or (idleTimeout c) (60 * Second))
    base (if backoffMax c <? base then 2 * Second else backoffMax c) (positive_or (maxFrame c) maxFrameBytes).

(** ** The reconnect ladder *)

(** How one round of [loop] ends: the dial fails, or the session ran, reaching
    readiness or not. *)
Inductive Round :=
| DialFailed
| SessionRan (established : bool).

(** What the round sleeps, and the delay the next one starts with. *)
Definition round_delay (c : clientConfig) (delay : Z) (r : Round) : Z * Z :=
  match r with
  | DialFailed => (delay, Z.min (wrap64 (delay * 2)) (backoffMax c))
  | SessionRan established => let delay := if established then backoffBase c else delay in (delay, delay)
  end.

(** What the rounds sleep, from a delay on. *)
Fixpoint delays (c : clientConfig) (delay : Z) (rs : list Round) : list Z :=
  match rs with
  | [] => []
  | r :: rs => let '(d, next) := round_delay c delay r in d :: delays c next rs
  end.

(** ** Errors *)

(** An error of the client, with what [errors.Is] says of [errAuthRejected]. *)
Record cerror := MkCerror {
  ce_text : string;
  ce_auth : bool;
}.

Definition errClientClosed : cerror := MkCerror "freeswitch: client closed" false.
Definition conn_lost (what : string) : cerror := MkCerror ("freeswitch: esl connection lost" +:+ what) false.
Definition auth_rejected (what : string) : cerror :=
  MkCerror ("freeswitch: esl authentication rejected: " +:+ what) true.
Definition plain_error (text : string) : cerror := MkCerror text false.

Definition fs_error_text (err : fs_error) : string :=
  match err with
  | errFrameTooLarge => "freeswitch: esl frame exceeds the size limit"
  | errMalformedFrame what => "freeswitch: malformed esl frame: " +:+ what
  | errShortFrame what => "freeswitch: short esl frame: " +:+ what
  | StreamEOF => "EOF"
  | StreamError err => err
  end.

(** ** Handshake and subscription *)

(** What they run on: the bytes the server sends, the result of each write by
    its number, and the writes made. *)
Record Link := MkLink {
  input : Stream;
  write_result : nat -> option string;
  written : list string;
}.

Section Session.
(** hex-encoded MD5 *)
Variable md5_hex : string -> string.
Variable cfg : clientConfig.

Definition read_frame (l : Link) : (Frame * Link) + string :=
  match ReadFrame (newFrameReader (maxFrame cfg)) (input l) with
  | inl (f, rest) => inl (f, MkLink rest (write_result l) (written l))
  | inr err => inr (fs_error_text err)
  end.

Definition write_line (text : string) (l : Link) : option string * Link :=
  (write_result l (length (written l)), MkLink (input l) (write_result l) (written l ++ [command text])).

(** The line that authenticates. *)
Definition auth_line (first : Frame) : string :=
  let challenge := Header (headers first) hdrChallenge in
  if is_empty challenge then "auth " +:+ password cfg else "auth md5:" +:+ md5_hex (password cfg +:+ challenge).

Definition handshake (l : Link) : option cerror * Link :=
  match read_frame l with
  | inr err => (Some (plain_error ("reading auth request: " +:+ err)), l)
  | inl (first, l) =>
      if negb (String.eqb (ContentType first) ctAuthRequest) then
        (Some (plain_error ("expected " +:+ ctAuthRequest +:+ ", got " +:+ quote (ContentType first))), l)
      else
      let '(w, l) := write_line (auth_line first) l in
      match w with
      | Some err => (Some (plain_error ("sending auth: " +:+ err)), l)
      | None =>
          match read_frame l with
          | inr err => (Some (plain_error ("reading auth reply: " +:+ err)), l)
          | inl (reply, l) =>
              if negb (String.eqb (ContentType reply) ctCommandReply) || negb (has_prefix (ReplyText reply) "+OK") then
                (Some (auth_rejected (ReplyText reply)), l)
              else (None, l)
          end
      end
  end.

Definition subscribe (l : Link) : option cerror * Link :=
  let '(w, l) := write_line ("events plain " +:+ Join (events cfg) " ") l in
  match w with
  | Some err => (Some (plain_error ("sending events subscription: " +:+ err)), l)
  | None =>
      match read_frame l with
      | inr err => (Some (conn_lost (" during events subscription: " +:+ err)), l)
      | inl (reply, l) =>
          if negb (String.eqb (ContentType reply) ctCommandReply) || negb (has_prefix (Result reply) "+OK") then
            (Some (plain_error ("events subscription rejected: " +:+ Result reply)), l)
          else (None, l)
      end
  end.

(** [runConn] up to readiness. *)
Definition establish (l : Link) : option cerror * Link :=
  match handshake l with
  | (Some err, l) => (Some err, l)
  | (None, l) => match events cfg with [] => (None, l) | _ => subscribe l end
  end.
End Session.

(** ** The client *)

(** What [dispatchEvent] hands to [onEvent]. *)
Record Event := MkEvent {
  ev_name : string;
  ev_fields : gmap string string;
  ev_payload : string;
}.

(** The undecodable bodies are dropped. *)
Definition dispatchEvent (f : Frame) : list Event :=
  match ParseEvent (Body f) with
  | inr _ => []
  | inl (fields, payload) => [MkEvent (EventField fields "Event-Name") fields payload]
  end.

(** [clientConn]: alive, the reply channel; and for the statements the link the
    session was established over, the commands written and the replies read
    after that. *)
Record clientConn := MkConn {
  alive : bool;
  resp : list Frame;
  auth : option Link;
  sent : list string;
  replies : list Frame;
}.

Definition newConn : clientConn := MkConn true [] None [] [].

(** Where a caller of [Do] is: waiting for the command slot, for a ready
    session (by the [notify] channel and the last error it saw), holding a
    connection before and after the drain, waiting for the reply; returned. *)
Inductive Phase :=
| WaitSlot
| WaitReady (seen : option (nat * option cerror))
| Holding (st : nat)
| Drained (st : nat)
| AwaitReply (st : nat)
| Returned (r : Frame + cerror).

Record Caller := MkCaller {
  cmd : string;
  phase : Phase;
}.

(** Where the loop is: dialling or asleep; in [runConn] before readiness, in
    [demux], and before the deferred [detach]; gone. *)
Inductive Loop :=
| Between
| Handshaking (st : nat)
| Demuxing (st : nat)
| Retiring (st : nat)
| Stopped.

Record eslClient := MkClient {
  closed : bool;
  conns : list clientConn;
  conn : option nat;
  ready : bool;
  lastErr : option cerror;
  notify : nat;
  (** the command slot: who holds it *)
  cmdCh : option nat;
  callers : list Caller;
  loop : Loop;
  (** what [onEvent] got *)
  dispatched : list Event;
}.

Definition newESLClient : eslClient := MkClient false [] None false None 0 None [] Between [].

Definition with_conns (c : eslClient) (cs : list clientConn) : eslClient :=
  MkClient (closed c) cs (conn c) (ready c) (lastErr c) (notify c) (cmdCh c) (callers c) (loop c) (dispatched c).

Definition on_conn (st : nat) (f : clientConn -> clientConn) (c : eslClient) : eslClient :=
  with_conns c (alter f st (conns c)).

Definition set_phase (i : nat) (p : Phase) (c : eslClient) : eslClient :=
  MkClient (closed c) (conns c) (conn c) (ready c) (lastErr c) (notify c) (cmdCh c)
    (alter (fun x => MkCaller (cmd x) p) i (callers c)) (loop c) (dispatched c).

Definition set_slot (o : option nat) (c : eslClient) : eslClient :=
  MkClient (closed c) (conns c) (conn c) (ready c) (lastErr c) (notify c) o (callers c) (loop c) (dispatched c).

Definition set_loop (l : Loop) (c : eslClient) : eslClient :=
  MkClient (closed c) (conns c) (conn c) (ready c) (lastErr c) (notify c) (cmdCh c) (callers c) l (dispatched c).

(** The current connection and its readiness. *)
Definition set_conn (cur : option nat) (r : bool) (c : eslClient) : eslClient :=
  MkClient (closed c) (conns c) cur r (lastErr c) (notify c) (cmdCh c) (callers c) (loop c) (dispatched c).

Definition wake (c : eslClient) : eslClient :=
  MkClient (closed c) (conns c) (conn c) (ready c) (lastErr c) (S (notify c)) (cmdCh c) (callers c) (loop c)
    (dispatched c).

Definition kill (st : nat) : eslClient -> eslClient :=
  on_conn st (fun x => MkConn false (resp x) (auth x) (sent x) (replies x)).

Definition isLive (c : eslClient) (st : nat) : bool :=
  match conns c !! st with Some x => alive x | None => false end.

Definition readyLocked (c : eslClient) : option nat :=
  match conn c with
  | Some st => if ready c && isLive c st then Some st else None
  | None => None
  end.

Definition fail (err : cerror) (c : eslClient) : eslClient :=
  wake (MkClient (closed c) (conns c) (conn c) (ready c) (Some err) (notify c) (cmdCh c) (callers c) (loop c)
          (dispatched c)).

Definition detach (st : nat) (c : eslClient) : eslClient :=
  let c := kill st c in
  wake (if decide (conn c = Some st) then set_conn None false c else c).

Definition setReady (st : nat) (c : eslClient) : eslClient :=
  wake (if decide (conn c = Some st) then if closed c then c else set_conn (conn c) true c else c).

(** [Close] up to the wait for the loop. *)
Definition Close (c : eslClient) : eslClient :=
  if closed c then c
  else
    let c := match conn c with Some st => kill st c | None => c end in
    MkClient true (conns c) (conn c) (ready c) (lastErr c) (notify c) (cmdCh c) (callers c) (loop c) (dispatched c).

(** The start of [runConn]: the connection is installed unless the client is
    closed. *)
Definition install (c : eslClient) : eslClient :=
  if closed c then c
  else
    let st := length (conns c) in
    set_loop (Handshaking st) (set_conn (Some st) (ready c) (with_conns c (conns c ++ [newConn]))).

(** The handshake and the subscription of [runConn] over a link. *)
Definition runConn (md5_hex : string -> string) (cfg : clientConfig) (st : nat) (l : Link) (c : eslClient)
  : eslClient :=
  match fst (establish md5_hex cfg l) with
  | Some err => set_loop (Retiring st) (fail err c)
  | None =>
      set_loop (Demuxing st)
        (setReady st (on_conn st (fun x => MkConn (alive x) (resp x) (Some l) (sent x) (replies x)) c))
  end.

Definition is_reply (f : Frame) : bool :=
  String.eqb (ContentType f) ctCommandReply || String.eqb (ContentType f) ctAPIResponse.

(** One frame in [demux]; the error that ends it, if it does. *)
Definition demux_frame (st : nat) (f : Frame) (c : eslClient) : option cerror * eslClient :=
  let ct := ContentType f in
  if is_reply f then
    (None, on_conn st (fun x => MkConn (alive x) (match resp x with [] => [f] | r => r end) (auth x) (sent x)
                                  (replies x ++ [f])) c)
  else if String.eqb ct ctEventPlain then
    (None, MkClient (closed c) (conns c) (conn c) (ready c) (lastErr c) (notify c) (cmdCh c) (callers c) (loop c)
             (dispatched c ++ dispatchEvent f))
  else if String.eqb ct ctDisconnectNotic || String.eqb ct ctRudeRejection then
    (Some (conn_lost (": " +:+ ct)), c)
  else if String.eqb ct ctAuthRequest then (Some (conn_lost (": unexpected " +:+ ctAuthRequest +:+ " mid-session")), c)
  else (None, c).

(** One round of [demux]. *)
Definition demux (st : nat) (r : Frame + string) (c : eslClient) : eslClient :=
  match r with
  | inr err => set_loop (Retiring st) (fail (conn_lost (": read: " +:+ err)) c)
  | inl f =>
      match demux_frame st f c with
      | (None, c) => c
      | (Some err, c) => set_loop (Retiring st) (fail err c)
      end
  end.

(** The text before the first space. *)
Definition firstWord (s : string) : string := fst (cut s " ").

(** The end of [Do]: the slot is given back. *)
Definition return_with (i : nat) (r : Frame + cerror) (c : eslClient) : eslClient :=
  set_slot None (set_phase i (Returned r) c).

(** The entry of [Do]. *)
Definition Do (text : string) (c : eslClient) : eslClient :=
  let p := if is_empty text then Returned (inr (plain_error "freeswitch: empty command")) else WaitSlot in
  MkClient (closed c) (conns c) (conn c) (ready c) (lastErr c) (notify c) (cmdCh c) (callers c ++ [MkCaller text p])
    (loop c) (dispatched c).

(** The locked part of one round of [ensureReady]. *)
Definition ensureReady (i : nat) (c : eslClient) : eslClient :=
  if closed c then return_with i (inr errClientClosed) c
  else match readyLocked c with
       | Some st => set_phase i (Holding st) c
       | None => set_phase i (WaitReady (Some (notify c, lastErr c))) c
       end.

(** The error of a caller whose context ends in [ensureReady]. *)
Definition not_ready (ctx : string) (last : option cerror) : cerror :=
  match last with
  | Some err => MkCerror (ctx +:+ " (last provider error: " +:+ ce_text err +:+ ")") (ce_auth err)
  | None => plain_error ctx
  end.

(** The defensive drain of [Do]. *)
Definition drain (i st : nat) (c : eslClient) : eslClient :=
  set_phase i (Drained st)
    (on_conn st (fun y => MkConn (alive y) (drop 1 (resp y)) (auth y) (sent y) (replies y)) c).

(** The write of [Do] with the result of the socket. *)
Definition write_command (i st : nat) (x : Caller) (result : option string) (c : eslClient) : eslClient :=
  match result with
  | Some err =>
      let lost := conn_lost (": write: " +:+ err) in
      return_with i (inr lost) (fail lost (detach st c))
  | None =>
      set_phase i (AwaitReply st)
        (on_conn st (fun y => MkConn (alive y) (resp y) (auth y) (sent y ++ [cmd x]) (replies y)) c)
  end.

(** The reply of [Do] is taken from the channel. *)
Definition take_reply (i st : nat) (f : Frame) (c : eslClient) : eslClient :=
  return_with i (inl f)
    (on_conn st (fun y => MkConn (alive y) (drop 1 (resp y)) (auth y) (sent y) (replies y)) c).

(** The connection dies under a caller, and the context ends. *)
Definition reply_lost (i : nat) (x : Caller) (c : eslClient) : eslClient :=
  return_with i (inr (conn_lost (" while awaiting reply to " +:+ quote (firstWord (cmd x))))) c.

Definition reply_late (i st : nat) (x : Caller) (ctx : string) (c : eslClient) : eslClient :=
  return_with i (inr (plain_error ("freeswitch: command " +:+ quote (firstWord (cmd x)) +:+ " timed out: " +:+ ctx)))
    (detach st c).

Inductive Step :=
(** the loop: a dial; the session established, or not, over a link; a frame or
    a read error; the deferred [detach]; the loop seeing [doneCh] *)
| DialFails (err : string)
| Connects
| Establishes (l : Link)
| Reads (r : Frame + string)
| Retires
| LoopEnds
(** the owner *)
| Closes
(** callers *)
| Calls (text : string)
| Acquires (i : nat)
| Looks (i : nat)
| Drains (i : nat)
| Writes (i : nat) (result : option string)
| Receives (i : nat)
| SeesDead (i : nat)
| SeesClosed (i : nat)
| Expires (i : nat) (ctx : string).

Definition with_caller (i : nat) (c : eslClient) (f : Caller -> option eslClient) : option eslClient :=
  match callers c !! i with Some x => f x | None => None end.

Section Client.
Variable md5_hex : string -> string.
Variable cfg : clientConfig.

Definition step (ev : Step) (c : eslClient) : option eslClient :=
  match ev with
  | DialFails err =>
      match loop c with
      | Between => Some (fail (conn_lost (": dial " +:+ addr cfg +:+ ": " +:+ err)) c)
      | _ => None
      end
  | Connects => match loop c with Between => Some (install c) | _ => None end
  | Establishes l => match loop c with Handshaking st => Some (runConn md5_hex cfg st l c) | _ => None end
  | Reads r => match loop c with Demuxing st => Some (demux st r c) | _ => None end
  | Retires => match loop c with Retiring st => Some (set_loop Between (detach st c)) | _ => None end
  | LoopEnds =>
      match loop c with Between => if closed c then Some (set_loop Stopped c) else None | _ => None end
  | Closes => Some (Close c)
  | Calls text => Some (Do text c)
  | Acquires i =>
      with_caller i c (fun x =>
        match phase x, cmdCh c with
        | WaitSlot, None => Some (set_slot (Some i) (set_phase i (WaitReady None) c))
        | _, _ => None
        end)
  | Looks i =>
      with_caller i c (fun x =>
        match phase x with
        | WaitReady None => Some (ensureReady i c)
        | WaitReady (Some (g, _)) => if decide (g = notify c) then None else Some (ensureReady i c)
        | _ => None
        end)
  | Drains i => with_caller i c (fun x => match phase x with Holding st => Some (drain i st c) | _ => None end)
  | Writes i result =>
      with_caller i c (fun x =>
        match phase x with
        | Drained st =>
            if isLive c st || negb (match result with None => true | _ => false end)
            then Some (write_command i st x result c) else None
        | _ => None
        end)
  | Receives i =>
      with_caller i c (fun x =>
        match phase x with
        | AwaitReply st =>
            match conns c !! st with
            | Some y => match resp y with f :: _ => Some (take_reply i st f c) | [] => None end
            | None => None
            end
        | _ => None
        end)
  | SeesDead i =>
      with_caller i c (fun x =>
        match phase x with
        | AwaitReply st => if isLive c st then None else Some (reply_lost i x c)
        | _ => None
        end)
  | SeesClosed i =>
      with_caller i c (fun x =>
        if negb (closed c) then None
        else match phase x with
             | WaitSlot => Some (set_phase i (Returned (inr errClientClosed)) c)
             | WaitReady (Some _) => Some (return_with i (inr errClientClosed) c)
             | _ => None
             end)
  | Expires i ctx =>
      with_caller i c (fun x =>
        match phase x with
        | WaitSlot => Some (set_phase i (Returned (inr (plain_error ctx))) c)
        | WaitReady (Some (_, last)) => Some (return_with i (inr (not_ready ctx last)) c)
        | AwaitReply st => Some (reply_late i st x ctx c)
        | _ => None
        end)
  end.

Fixpoint run (evs : list Step) (c : eslClient) : option eslClient :=
  match evs with
  | [] => Some c
  | ev :: evs => match step ev c with Some c => run evs c | None => None end
  end.

(** The server answers commands: a reply is read only on a session with more
    commands written than replies read. *)
Definition solicited (ev : Step) (c : eslClient) : bool :=
  match ev, loop c with
  | Reads (inl f), Demuxing st =>
      match conns c !! st with
      | Some x => negb (is_reply f) || (length (replies x) <? length (sent x))%nat
      | None => true
      end
  | _, _ => true
  end.

Inductive reachable : eslClient -> Prop :=
| reach_new : reachable newESLClient
| reach_step ev c c' : reachable c -> solicited ev c = true -> step ev c = Some c' -> reachable c'.

(** A run that asks [solicited] of every step. *)
Fixpoint fair_run (evs : list Step) (c : eslClient) : option eslClient :=
  match evs with
  | [] => Some c
  | ev :: evs => if solicited ev c then match step ev c with Some c => fair_run evs c | None => None end else None
  end.

(** *** The invariant *)

Definition busy (p : Phase) : bool :=
  match p with WaitReady _ | Holding _ | Drained _ | AwaitReply _ => true | _ => false end.

(** Nothing is owed on the connection. *)
Definition idle (x : clientConn) : Prop := length (replies x) = length (sent x) /\ resp x = [].

(** The last command written is [text], and its reply has not come, or is in
    the channel. *)
Definition in_flight (x : clientConn) (text : string) : Prop :=
  exists pre, sent x = pre ++ [text]
    /\ (length (replies x) = length pre /\ resp x = []
        \/ exists rs f, replies x = rs ++ [f] /\ length rs = length pre /\ resp x = [f]).

Definition awaits (c : eslClient) (st : nat) (text : string) : Prop :=
  exists i k, callers c !! i = Some k /\ phase k = AwaitReply st /\ cmd k = text.

(** The session was established over a link. *)
Definition established (x : clientConn) : Prop := exists l, auth x = Some l /\ fst (establish md5_hex cfg l) = None.

(** The reply to a command is the one at its place. *)
Definition answered (c : eslClient) (text : string) (f : Frame) : Prop :=
  exists st x n, conns c !! st = Some x /\ established x /\ sent x !! n = Some text /\ replies x !! n = Some f.

(** The connection a caller is on. *)
Definition on_of (p : Phase) : option nat :=
  match p with Holding st | Drained st | AwaitReply st => Some st | _ => None end.

Record conn_ok (c : eslClient) (st : nat) (x : clientConn) : Prop := {
  c_len : (length (replies x) <= length (sent x))%nat;
  c_wait text : awaits c st text -> in_flight x text;
  c_free : alive x = true -> (forall text, ~ awaits c st text) -> idle x;
  c_auth : sent x <> [] -> established x;
}.

Record caller_ok (c : eslClient) (i : nat) (k : Caller) : Prop := {
  k_slot : busy (phase k) = true -> cmdCh c = Some i;
  k_on st : on_of (phase k) = Some st -> exists x, conns c !! st = Some x /\ established x;
  k_done f : phase k = Returned (inl f) -> answered c (cmd k) f;
}.

(** The loop's connection is the current one, unless a caller detached it. *)
Definition current_ok (c : eslClient) : Prop :=
  match loop c with
  | Between | Stopped => conn c = None
  | Handshaking st => (conn c = None \/ conn c = Some st) /\ ready c = false /\ (st < length (conns c))%nat
  | Demuxing st | Retiring st => (conn c = None \/ conn c = Some st)
  end.

Record inv (c : eslClient) : Prop := {
  i_conn st x : conns c !! st = Some x -> conn_ok c st x;
  i_caller i k : callers c !! i = Some k -> caller_ok c i k;
  i_cur : current_ok c;
  i_ready : ready c = true -> exists st x, conn c = Some st /\ conns c !! st = Some x /\ established x;
}.

(** Connections evolve: what was written and read stays. *)
Definition grows (c c' : eslClient) : Prop :=
  forall st x, conns c !! st = Some x ->
    exists x', conns c' !! st = Some x' /\ (established x -> established x')
      /\ sent x `prefix_of` sent x' /\ replies x `prefix_of` replies x'.

Lemma grows_refl c c' : conns c' = conns c -> grows c c'.
Proof. intros E st x Hx. exists x. rewrite E. by split_and!. Qed.

Lemma grows_on c c' st f :
  conns c' = alter f st (conns c) ->
  (forall x, conns c !! st = Some x ->
     (established x -> established (f x)) /\ sent x `prefix_of` sent (f x) /\ replies x `prefix_of` replies (f x)) ->
  grows c c'.
Proof.
  intros E Hf t x Hx. rewrite E. destruct (decide (t = st)) as [->|Hne].
  - rewrite list_lookup_alter_eq, Hx. exists (f x). split; [done|]. by apply Hf.
  - rewrite list_lookup_alter_ne by done. exists x. by split_and!.
Qed.

Lemma answered_grows c c' text f : grows c c' -> answered c text f -> answered c' text f.
Proof.
  intros Hg (st & x & n & Hx & He & Hs & Hr). destruct (Hg _ _ Hx) as (x' & Hx' & He' & Hs' & Hr').
  exists st, x', n. split_and!; [done|by apply He'|by eapply prefix_lookup_Some..].
Qed.

Lemma caller_ok_grows c c' i k :
  grows c c' -> (busy (phase k) = true -> cmdCh c' = Some i) -> caller_ok c i k -> caller_ok c' i k.
Proof.
  intros Hg Hs [H1 H2 H3]. split; [done| |].
  - intros st Hst. destruct (H2 _ Hst) as (x & Hx & He). destruct (Hg _ _ Hx) as (x' & Hx' & He' & _).
    exists x'. by split; [|apply He'].
  - intros f Hf. by apply (answered_grows c); [|apply H3].
Qed.

Lemma conn_ok_callers c c' st x :
  (forall text, awaits c' st text <-> awaits c st text) -> conn_ok c st x -> conn_ok c' st x.
Proof. intros E [H1 H2 H3 H4]. split; [done| | |done]; naive_solver. Qed.

(** The caller awaited for is the one that holds the slot. *)
Lemma awaits_one c i k st text :
  inv c -> callers c !! i = Some k -> busy (phase k) = true -> awaits c st text ->
  phase k = AwaitReply st /\ cmd k = text.
Proof.
  intros [_ H2 _ _] Hk Hb (j & l & Hl & Hp & Ht).
  pose proof (k_slot _ _ _ (H2 _ _ Hk) Hb) as E1.
  pose proof (k_slot _ _ _ (H2 _ _ Hl) ltac:(by rewrite Hp)) as E2.
  rewrite E1 in E2. injection E2 as ->. rewrite Hk in Hl. injection Hl as ->. done.
Qed.

(** *** Steps that leave the connections alone *)

(** The state moves in what the invariant does not read. *)
Lemma inv_same c c' :
  conns c' = conns c -> callers c' = callers c -> cmdCh c' = cmdCh c -> current_ok c' ->
  (ready c' = true -> exists st x, conn c' = Some st /\ conns c !! st = Some x /\ established x) -> inv c -> inv c'.
Proof.
  intros E1 E2 E3 Hcur Hr [H1 H2 H3 H4]. split.
  - intros st x Hx. rewrite E1 in Hx. eapply conn_ok_callers; [|by apply H1].
    intros text. unfold awaits. by rewrite E2.
  - intros i k Hk. rewrite E2 in Hk. pose proof (H2 _ _ Hk) as Hok.
    apply (caller_ok_grows c); [by apply grows_refl|rewrite E3; apply Hok|done].
  - done.
  - by rewrite E1.
Qed.

(** The caller that holds the slot moves to [p]; what remains is what [p] says
    of the connections. *)
Lemma inv_busy c c' i k p :
  inv c -> callers c !! i = Some k -> busy (phase k) = true ->
  callers c' = alter (fun x => MkCaller (cmd x) p) i (callers c) ->
  cmdCh c' = (if busy p then Some i else None) -> grows c c' ->
  (forall st x, conns c' !! st = Some x ->
     (length (replies x) <= length (sent x))%nat /\ (sent x <> [] -> established x)
     /\ (p = AwaitReply st -> in_flight x (cmd k)) /\ (alive x = true -> p <> AwaitReply st -> idle x)) ->
  (forall st, on_of p = Some st -> exists x, conns c' !! st = Some x /\ established x) ->
  (forall f, p = Returned (inl f) -> answered c' (cmd k) f) ->
  current_ok c' ->
  (ready c' = true -> exists st x, conn c' = Some st /\ conns c' !! st = Some x /\ established x) ->
  inv c'.
Proof.
  intros Hi Hk Hb Hcs Hslot Hg Hconn Hon Hret Hcur Hr.
  assert (forall st text, awaits c' st text <-> p = AwaitReply st /\ cmd k = text) as Haw.
  { intros st text. split.
    - intros (j & l & Hl & Hp & Ht). rewrite Hcs in Hl. destruct (decide (j = i)) as [->|Hne].
      + rewrite list_lookup_alter_eq, Hk in Hl. by injection Hl as <-.
      + rewrite list_lookup_alter_ne in Hl by done.
        pose proof (k_slot _ _ _ (i_caller _ Hi _ _ Hl) ltac:(by rewrite Hp)) as E1.
        pose proof (k_slot _ _ _ (i_caller _ Hi _ _ Hk) Hb) as E2. congruence.
    - intros [-> <-]. exists i, (MkCaller (cmd k) (AwaitReply st)). rewrite Hcs. by rewrite list_lookup_alter_eq, Hk. }
  split; [| |done|done].
  - intros st x Hx. destruct (Hconn _ _ Hx) as (G1 & G2 & G3 & G4). split; [done| | |done].
    + intros text [Hp <-]%Haw. by apply G3.
    + intros Ha Hno. apply G4; [done|]. intros Hp. apply (Hno (cmd k)). by apply Haw.
  - intros j l Hl. rewrite Hcs in Hl. destruct (decide (j = i)) as [->|Hne].
    + rewrite list_lookup_alter_eq, Hk in Hl. injection Hl as <-. split; simpl; [|done|done]. intros Hp. by rewrite Hslot, Hp.
    + rewrite list_lookup_alter_ne in Hl by done. eapply caller_ok_grows; [done| |by apply (i_caller _ Hi)].
      intros Hlb. pose proof (k_slot _ _ _ (i_caller _ Hi _ _ Hl) Hlb) as E1.
      pose proof (k_slot _ _ _ (i_caller _ Hi _ _ Hk) Hb) as E2. congruence.
Qed.

(** While the holder of the slot does not await, live connections are idle. *)
Lemma free_idle c i k st x :
  inv c -> callers c !! i = Some k -> busy (phase k) = true -> phase k <> AwaitReply st ->
  conns c !! st = Some x -> alive x = true -> idle x.
Proof.
  intros Hi Hk Hb Hp Hx Ha. apply (c_free _ _ _ (i_conn _ Hi _ _ Hx) Ha).
  intros text Hw. by destruct (awaits_one _ _ _ _ _ Hi Hk Hb Hw).
Qed.

(** It moves away from the connections, or to one that is established. *)
Lemma inv_moves c i k p :
  inv c -> callers c !! i = Some k -> busy (phase k) = true ->
  (forall st, phase k <> AwaitReply st) -> (forall st, p <> AwaitReply st) -> (forall f, p <> Returned (inl f)) ->
  (forall st, on_of p = Some st -> exists x, conns c !! st = Some x /\ established x) ->
  inv (set_slot (if busy p then Some i else None) (set_phase i p c)).
Proof.
  intros Hi Hk Hb Hold Hnew Hret Hon.
  eapply inv_busy; [exact Hi|exact Hk|done|done|done|by apply grows_refl| |done| |apply Hi|apply Hi].
  - intros st x Hx. destruct (i_conn _ Hi _ _ Hx) as [G1 _ _ G4]. split_and!; [done|done|by intros ?%Hnew|].
    intros Ha _. by eapply free_idle.
  - by intros f ?%Hret.
Qed.

(** A caller that does not hold the slot moves, taking the free slot or not. *)
Lemma inv_waiting c i k p slot :
  inv c -> callers c !! i = Some k -> phase k = WaitSlot -> on_of p = None -> (forall f, p <> Returned (inl f)) ->
  (if busy p then cmdCh c = None /\ slot = Some i else slot = cmdCh c) -> inv (set_slot slot (set_phase i p c)).
Proof.
  intros [H1 H2 H3 H4] Hk Hw Hp Hret Hslot. assert (forall st, p <> AwaitReply st) as Hnew by by intros st ->.
  split; [| |exact H3|exact H4].
  - intros st x Hx. eapply conn_ok_callers; [|by apply H1]. intros text. unfold awaits. cbn [set_slot set_phase callers].
    split; intros (j & l & Hl & Hlp & Ht); exists j, l; (destruct (decide (j = i)) as [->|Hne];
      [|by rewrite list_lookup_alter_ne in * by done]).
    + rewrite list_lookup_alter_eq, Hk in Hl. injection Hl as <-. by destruct (Hnew st).
    + congruence.
  - intros j l Hl. cbn [set_slot set_phase callers] in Hl. destruct (decide (j = i)) as [->|Hne].
    + rewrite list_lookup_alter_eq, Hk in Hl. injection Hl as <-. split; simpl.
      * intros Hb. rewrite Hb in Hslot. apply Hslot.
      * by rewrite Hp.
      * by intros f ?%Hret.
    + rewrite list_lookup_alter_ne in Hl by done. apply (caller_ok_grows c); [by apply grows_refl| |by apply H2].
      intros Hlb. pose proof (k_slot _ _ _ (H2 _ _ Hl) Hlb) as E. cbn [set_slot cmdCh].
      destruct (busy p); [|congruence]. destruct Hslot. congruence.
Qed.

(** *** The connections change *)

(** A connection changes under nobody's hand but the loop's. *)
Lemma inv_on_conn c st f :
  inv c ->
  (forall x, conns c !! st = Some x ->
     (established x -> established (f x)) /\ sent (f x) = sent x /\ replies x `prefix_of` replies (f x)
     /\ (length (replies (f x)) <= length (sent x))%nat
     /\ (alive (f x) = true -> alive x = true) /\ (idle x -> alive x = true -> idle (f x))
     /\ (forall text, in_flight x text -> in_flight (f x) text)) ->
  inv (on_conn st f c).
Proof.
  intros Hi Hf. assert (grows c (on_conn st f c)) as Hg.
  { apply (grows_on c _ st f); [done|]. intros x Hx. destruct (Hf _ Hx) as (? & -> & ? & _). by split_and!. }
  destruct Hi as [H1 H2 H3 H4]. split.
  - intros t y Hy. cbn [on_conn with_conns conns] in Hy. destruct (decide (t = st)) as [->|Hne].
    + rewrite list_lookup_alter_eq in Hy. destruct (conns c !! st) as [x|] eqn:Hx; [|done]. injection Hy as <-.
      destruct (Hf _ eq_refl) as (F1 & F2 & F3 & F4 & F5 & F6 & F7). destruct (H1 _ _ Hx) as [G1 G2 G3 G4].
      split; rewrite ?F2; [lia|by intros text ?%G2%F7| |by intros ?%G4%F1].
      intros Ha Hno. apply F6; [|by apply F5]. apply G3; [by apply F5|done].
    + rewrite list_lookup_alter_ne in Hy by done. destruct (H1 _ _ Hy) as [G1 G2 G3 G4]. by split.
  - intros i k Hk. eapply caller_ok_grows; [done| |by apply H2]. apply (H2 _ _ Hk).
  - unfold current_ok in *. cbn [on_conn with_conns loop conn ready conns]. by rewrite length_alter.
  - intros Hr. destruct (H4 Hr) as (t & x & Hc & Hx & He). destruct (Hg _ _ Hx) as (x' & Hx' & He' & _).
    exists t, x'. split_and!; [done..|by apply He'].
Qed.

Lemma inv_kill c st : inv c -> inv (kill st c).
Proof. intros Hi. apply inv_on_conn; [done|]. intros x Hx. pose proof (c_len _ _ _ (i_conn _ Hi _ _ Hx)). by split_and!. Qed.

Lemma inv_detach c st : inv c -> inv (detach st c).
Proof.
  intros Hi%(inv_kill c st). unfold detach. destruct (decide _) as [E|E].
  - eapply (inv_same (kill st c)); [done..| |done|done]. pose proof (i_cur _ Hi) as H3. unfold current_ok in *.
    cbn [wake set_conn loop conn ready conns]. destruct (loop (kill st c)); try done; naive_solver.
  - by eapply (inv_same (kill st c)); [done..|apply Hi|apply Hi|].
Qed.

Lemma inv_fail c err : inv c -> inv (fail err c).
Proof. intros Hi. by eapply (inv_same c); [done..|apply Hi|apply Hi|]. Qed.

(** The loop leaves a connection it was on. *)
Lemma inv_retiring c st : inv c -> conn c = None \/ conn c = Some st -> inv (set_loop (Retiring st) c).
Proof. intros Hi E. apply (inv_same c); try done. apply Hi. Qed.

(** *** The steps *)

Lemma inv_install c : inv c -> loop c = Between -> inv (install c).
Proof.
  intros [H1 H2 H3 H4] Hl. unfold install. destruct (closed c); [done|]. unfold current_ok in H3. rewrite Hl in H3.
  assert (ready c = false) as Hr.
  { destruct (ready c); [|done]. destruct (H4 eq_refl) as (? & ? & ? & _). congruence. }
  match goal with |- inv ?d => set (c' := d) end.
  assert (grows c c') as Hg.
  { intros st x Hx. exists x. split_and!; [|done..]. by apply lookup_app_l_Some. }
  split.
  - intros st x [Hx|[E Hx]]%lookup_app_Some.
    + destruct (H1 _ _ Hx) as [G1 G2 G3 G4]. by split.
    + apply list_lookup_singleton_Some in Hx as [E' <-].
      assert (st = length (conns c)) as -> by lia. split; [done| |done|done].
      intros text (i & k & Hk & Hp & _). destruct (k_on _ _ _ (H2 _ _ Hk) (length (conns c))) as (x & Hx & _); [by rewrite Hp|].
      by rewrite lookup_ge_None_2 in Hx.
  - intros i k Hk. eapply caller_ok_grows; [done| |by apply H2]. apply (H2 _ _ Hk).
  - unfold current_ok, c'. simpl. rewrite length_app. simpl. split_and!; [by right|done|lia].
  - unfold c'. simpl. by rewrite Hr.
Qed.

Lemma inv_establishes c st l : inv c -> loop c = Handshaking st -> inv (runConn md5_hex cfg st l c).
Proof.
  intros Hi Hl. pose proof (i_cur _ Hi) as H3. unfold current_ok in H3. rewrite Hl in H3. destruct H3 as (Hc & Hr & Hlt).
  unfold runConn. destruct (fst (establish md5_hex cfg l)) as [err|] eqn:E; [by apply inv_retiring; [apply inv_fail|]|].
  set (f := fun x => MkConn (alive x) (resp x) (Some l) (sent x) (replies x)).
  assert (inv (on_conn st f c)) as Hi1.
  { apply inv_on_conn; [done|]. intros x Hx. pose proof (c_len _ _ _ (i_conn _ Hi _ _ Hx)).
    split_and!; [|done..]. intros _. by exists l. }
  destruct (lookup_lt_is_Some_2 _ _ Hlt) as [x Hx].
  set (c1 := on_conn st f c) in *. unfold setReady.
  destruct (decide (conn c1 = Some st)) as [Ec|Ec]; [destruct (closed c1)|];
    (apply (inv_same c1); [done..|exact Hc| |done]); simpl; try by rewrite Hr.
  intros _. exists st, (f x). split_and!; [done| |by exists l]. by rewrite list_lookup_alter_eq, Hx.
Qed.

Lemma in_flight_reply x text f (r := match resp x with [] => [f] | r => r end) :
  (length (replies x) < length (sent x))%nat -> in_flight x text ->
  in_flight (MkConn (alive x) r (auth x) (sent x) (replies x ++ [f])) text.
Proof.
  intros Hlt (pre & Hs & [[Hr Hq]|(rs & g & Hr & Hl & Hq)]).
  - exists pre. subst r. rewrite Hq. split; [done|]. right. by exists (replies x), f.
  - rewrite Hs, Hr, !length_app in Hlt. simpl in Hlt. lia.
Qed.

Lemma inv_demux c st r :
  inv c -> loop c = Demuxing st -> solicited (Reads r) c = true -> inv (demux st r c).
Proof.
  intros Hi Hl Hsol. pose proof (i_cur _ Hi) as Hc. unfold current_ok in Hc. rewrite Hl in Hc.
  unfold demux, solicited in *. rewrite Hl in Hsol. destruct r as [f|err]; [|by apply inv_retiring; [apply inv_fail|]].
  unfold demux_frame. destruct (is_reply f) eqn:Er;
    [|destruct (String.eqb _ _); [|destruct (_ || _); [|destruct (String.eqb _ _)]]].
  - apply inv_on_conn; [done|]. intros x Hx. rewrite Hx in Hsol. cbn [negb orb] in Hsol.
    apply Nat.ltb_lt in Hsol. split_and!; simpl; try done.
    + by apply prefix_app_r.
    + rewrite length_app. simpl. lia.
    + intros [E _]. lia.
    + intros text. by apply in_flight_reply.
  - apply (inv_same c); try done; apply Hi.
  - by apply inv_retiring; [apply inv_fail|].
  - by apply inv_retiring; [apply inv_fail|].
  - done.
Qed.

(** The caller on connection [st] moves to [p] and changes the connection. *)
Lemma inv_busy_on c i k st f p :
  inv c -> callers c !! i = Some k -> on_of (phase k) = Some st -> (on_of p = None \/ on_of p = Some st) ->
  (forall x, conns c !! st = Some x ->
     auth (f x) = auth x /\ sent x `prefix_of` sent (f x) /\ replies (f x) = replies x
     /\ (p = AwaitReply st -> in_flight (f x) (cmd k)) /\ (alive (f x) = true -> p <> AwaitReply st -> idle (f x))) ->
  (forall g, p = Returned (inl g) -> answered (on_conn st f c) (cmd k) g) ->
  inv (set_slot (if busy p then Some i else None) (set_phase i p (on_conn st f c))).
Proof.
  intros Hi Hk Ho Hpo Hf Hret. pose proof (k_on _ _ _ (i_caller _ Hi _ _ Hk) _ Ho) as (x & Hx & He).
  assert (busy (phase k) = true) as Hb by by destruct (phase k).
  assert (grows c (on_conn st f c)) as Hg.
  { apply (grows_on c _ st f); [done|]. intros y Hy. destruct (Hf _ Hy) as (E1 & E2 & E3 & _).
    split_and!; [by unfold established; rewrite E1|done|by rewrite E3]. }
  eapply inv_busy; [exact Hi|exact Hk|done|done|done|exact Hg| | |exact Hret| |].
  - intros t y Hy. cbn [set_slot set_phase on_conn with_conns conns] in Hy. destruct (decide (t = st)) as [->|Hne].
    + rewrite list_lookup_alter_eq, Hx in Hy. injection Hy as <-. destruct (Hf _ Hx) as (E1 & E2 & E3 & E4 & E5).
      pose proof (c_len _ _ _ (i_conn _ Hi _ _ Hx)). apply prefix_length in E2. rewrite E3.
      split_and!; [lia|by unfold established; rewrite E1|done|done].
    + rewrite list_lookup_alter_ne in Hy by done. destruct (i_conn _ Hi _ _ Hy) as [F1 _ _ F4].
      split_and!; [done|done|intros ->; destruct Hpo as [[=]|[= ->]]; done|].
      intros Ha _. eapply free_idle; [done..| |done|done]. intros E. rewrite E in Ho. by injection Ho as ->.
  - intros t Ht. destruct Hpo as [E|E]; [by rewrite E in Ht|]. rewrite E in Ht. injection Ht as <-.
    destruct (Hg _ _ Hx) as (x' & Hx' & He' & _). exists x'. by split; [|apply He'].
  - pose proof (i_cur _ Hi) as Hc. unfold current_ok in *. cbn. by rewrite length_alter.
  - intros Hr. destruct (i_ready _ Hi Hr) as (t & y & Hc & Hy & Hey). destruct (Hg _ _ Hy) as (y' & Hy' & He' & _).
    exists t, y'. split_and!; [done..|by apply He'].
Qed.

Lemma slot_held c i k p : inv c -> callers c !! i = Some k -> busy (phase k) = true -> forall d,
  cmdCh d = cmdCh c -> set_phase i p d = set_slot (Some i) (set_phase i p d).
Proof. intros Hi Hk Hb d E. rewrite (k_slot _ _ _ (i_caller _ Hi _ _ Hk) Hb) in E. destruct d. cbn in *. by rewrite E. Qed.

Lemma inv_drain c i k st : inv c -> callers c !! i = Some k -> phase k = Holding st -> inv (drain i st c).
Proof.
  intros Hi Hk Hp. unfold drain. rewrite (slot_held c i k _ Hi Hk) by by rewrite ?Hp.
  apply (inv_busy_on c i k st _ (Drained st)); [done|done|by rewrite Hp|by right| |done].
  intros x Hx. split_and!; try done. intros Ha _.
  destruct (free_idle _ _ _ _ _ Hi Hk ltac:(by rewrite Hp) ltac:(by rewrite Hp) Hx Ha) as [E1 E2].
  split; [done|]. simpl. by rewrite E2.
Qed.

Lemma esl_inv_write c i k st result :
  inv c -> callers c !! i = Some k -> phase k = Drained st ->
  isLive c st || negb (match result with None => true | _ => false end) = true ->
  inv (write_command i st k result c).
Proof.
  intros Hi Hk Hp Hl. destruct result as [err|]; cbn [write_command].
  - apply (inv_moves _ i k (Returned (inr _))); try done; [by apply inv_fail, inv_detach| | |].
    + unfold detach. by destruct (decide _).
    + by rewrite Hp.
    + by rewrite Hp.
  - rewrite orb_false_r in Hl. rewrite (slot_held c i k _ Hi Hk) by by rewrite ?Hp.
    apply (inv_busy_on c i k st _ (AwaitReply st)); [done|done|by rewrite Hp|by right| |done].
    intros x Hx. unfold isLive in Hl. rewrite Hx in Hl.
    destruct (free_idle _ _ _ _ _ Hi Hk ltac:(by rewrite Hp) ltac:(by rewrite Hp) Hx Hl) as [E1 E2].
    split_and!; [done|by apply prefix_app_r|done| |done]. intros _. exists (sent x). split; [done|]. by left.
Qed.

Lemma inv_take c i k st x f q :
  inv c -> callers c !! i = Some k -> phase k = AwaitReply st -> conns c !! st = Some x -> resp x = f :: q ->
  inv (take_reply i st f c).
Proof.
  intros Hi Hk Hp Hx Hq. pose proof (k_on _ _ _ (i_caller _ Hi _ _ Hk) st ltac:(by rewrite Hp)) as (x' & Hx' & He).
  rewrite Hx in Hx'. injection Hx' as <-.
  destruct (c_wait _ _ _ (i_conn _ Hi _ _ Hx) (cmd k)) as (pre & Hs & [[_ E]|(rs & g & Hr & Hl & E)]);
    [by exists i, k|by rewrite E in Hq|]. rewrite E in Hq. injection Hq as -> <-.
  apply (inv_busy_on c i k st _ (Returned (inl f))); [done|done|by rewrite Hp|by left| |].
  - intros y Hy. rewrite Hx in Hy. injection Hy as <-. split_and!; try done. intros _ _. split; simpl.
    + rewrite Hs, Hr, !length_app. simpl. lia.
    + by rewrite E.
  - intros g [= <-]. eexists st, _, (length pre). split_and!.
    + cbn. by rewrite list_lookup_alter_eq, Hx.
    + done.
    + simpl. rewrite Hs. by rewrite list_lookup_middle.
    + simpl. rewrite Hr, <- Hl. by rewrite list_lookup_middle.
Qed.

(** A caller stops waiting on a dead connection. *)
Lemma inv_gives_up c i k st err :
  inv c -> callers c !! i = Some k -> phase k = AwaitReply st -> isLive c st = false ->
  inv (return_with i (inr err) c).
Proof.
  intros Hi Hk Hp Hl. unfold return_with.
  assert (set_phase i (Returned (inr err)) c = set_phase i (Returned (inr err)) (on_conn st (fun x => x) c)) as ->.
  { f_equal. destruct c. unfold on_conn, with_conns. cbn. f_equal. symmetry. by apply list_alter_id. }
  apply (inv_busy_on c i k st _ (Returned (inr err))); [done|done|by rewrite Hp|by left| |done].
  intros x Hx. unfold isLive in Hl. rewrite Hx in Hl. split_and!; try done. congruence.
Qed.

Lemma detach_dead c st : isLive (detach st c) st = false.
Proof.
  unfold detach. assert (isLive (kill st c) st = false) as E.
  { unfold isLive, kill. cbn. rewrite list_lookup_alter_eq. by destruct (conns c !! st). }
  by destruct (decide _).
Qed.

Lemma inv_Do c text : inv c -> inv (Do text c).
Proof.
  intros [H1 H2 H3 H4].
  set (k := MkCaller text (if is_empty text then Returned (inr (plain_error "freeswitch: empty command")) else WaitSlot)).
  assert (forall st, phase k <> AwaitReply st) as Hn by (intros st; simpl; by destruct (is_empty text)).
  split; [| |exact H3|exact H4].
  - intros st x Hx. eapply conn_ok_callers; [|by apply H1]. intros t. split; intros (i & l & Hl & Hp & Ht); exists i, l.
    + apply lookup_app_Some in Hl as [Hl|[_ Hl]]; [done|]. apply list_lookup_singleton_Some in Hl as [_ <-].
      by destruct (Hn st).
    + by split; [apply lookup_app_l_Some|].
  - intros i l [Hl|[_ Hl]]%lookup_app_Some.
    + apply (caller_ok_grows c); [by apply grows_refl|apply (H2 _ _ Hl)|by apply H2].
    + apply list_lookup_singleton_Some in Hl as [_ <-]. split; simpl; by destruct (is_empty text).
Qed.

Lemma inv_ensureReady c i k seen :
  inv c -> callers c !! i = Some k -> phase k = WaitReady seen -> inv (ensureReady i c).
Proof.
  intros Hi Hk Hp. unfold ensureReady.
  assert (forall p, (forall st, p <> AwaitReply st) -> (forall f, p <> Returned (inl f)) ->
    (forall st, on_of p = Some st -> exists x, conns c !! st = Some x /\ established x) ->
    inv (set_slot (if busy p then Some i else None) (set_phase i p c))) as Hmove.
  { intros p P1 P2 P3. by apply (inv_moves c i k p Hi Hk); rewrite ?Hp. }
  destruct (closed c); [by apply (Hmove (Returned (inr errClientClosed)))|].
  destruct (readyLocked c) as [st|] eqn:Er; rewrite (slot_held c i k _ Hi Hk) by by rewrite ?Hp.
  - apply (Hmove (Holding st)); [done..|]. intros t [= <-]. unfold readyLocked in Er.
    destruct (conn c) as [s|] eqn:Ec; [|done]. destruct (ready c) eqn:E; [|done]. cbn [andb] in Er.
    destruct (isLive c s); [|done]. injection Er as ->. destruct (i_ready _ Hi E) as (t & x & Hc & Hx & He).
    rewrite Ec in Hc. injection Hc as <-. by exists x.
  - by apply (Hmove (WaitReady (Some (notify c, lastErr c)))).
Qed.

Lemma inv_Close c : inv c -> inv (Close c).
Proof.
  intros Hi. unfold Close. destruct (closed c); [done|].
  assert (inv (match conn c with Some st => kill st c | None => c end)) as H1
    by (destruct (conn c); [by apply inv_kill|done]).
  eapply inv_same; [..|exact H1]; try done; apply H1.
Qed.

Lemma esl_inv_step ev c c' : inv c -> solicited ev c = true -> step ev c = Some c' -> inv c'.
Proof.
  intros Hi Hs. pose proof (i_cur _ Hi) as Hcur. unfold current_ok in Hcur.
  destruct ev; cbn [step]; unfold with_caller;
    try (destruct (callers c !! i) as [k|] eqn:Hk; [|done]).
  - destruct (loop c); try done. intros [= <-]. by apply inv_fail.
  - destruct (loop c) eqn:Hl; try done. intros [= <-]. by apply inv_install.
  - destruct (loop c) eqn:Hl; try done. intros [= <-]. by apply inv_establishes.
  - destruct (loop c) eqn:Hl; try done. intros [= <-]. by apply inv_demux.
  - destruct (loop c) eqn:Hl; try done. intros [= <-]. pose proof (inv_detach c st Hi) as H1.
    apply (inv_same (detach st c)); try done; [|apply H1]. unfold current_ok. cbn. unfold detach.
    destruct (decide _) as [E|E]; [done|]. cbn in *. by destruct Hcur.
  - destruct (loop c) eqn:Hl; try done. destruct (closed c); [|done]. intros [= <-].
    apply (inv_same c); try done. apply Hi.
  - intros [= <-]. by apply inv_Close.
  - intros [= <-]. by apply inv_Do.
  - destruct (phase k) eqn:Hp; try done. destruct (cmdCh c) eqn:Hslot; [done|]. intros [= <-].
    by apply (inv_waiting c i k).
  - destruct (phase k) as [|[[g e]|]| | | |] eqn:Hp; try done; [destruct (decide _); [done|]|]; intros [= <-];
      by eapply inv_ensureReady.
  - destruct (phase k) eqn:Hp; try done. intros [= <-]. by eapply inv_drain.
  - destruct (phase k) eqn:Hp; try done. destruct (_ || _) eqn:Hl; [|done]. intros [= <-]. by apply esl_inv_write.
  - destruct (phase k) eqn:Hp; try done. destruct (conns c !! st) as [x|] eqn:Hx; [|done].
    destruct (resp x) as [|f q] eqn:Hq; [done|]. intros [= <-]. by eapply inv_take.
  - destruct (phase k) eqn:Hp; try done. destruct (isLive c st) eqn:Hl; [done|]. intros [= <-]. by eapply inv_gives_up.
  - destruct (closed c); [|done]. destruct (phase k) as [|[seen|]| | | |] eqn:Hp; try done; intros [= <-].
    + assert (set_phase i (Returned (inr errClientClosed)) c
        = set_slot (cmdCh c) (set_phase i (Returned (inr errClientClosed)) c)) as -> by by destruct c.
      by apply (inv_waiting c i k).
    + by apply (inv_moves c i k (Returned (inr errClientClosed))); rewrite ?Hp.
  - destruct (phase k) as [|[[g e]|]| | | |] eqn:Hp; try done; intros [= <-].
    + assert (set_phase i (Returned (inr (plain_error ctx))) c
        = set_slot (cmdCh c) (set_phase i (Returned (inr (plain_error ctx))) c)) as -> by by destruct c.
      by apply (inv_waiting c i k).
    + by apply (inv_moves c i k (Returned (inr _))); rewrite ?Hp.
    + apply (inv_gives_up (detach st c) i k st); [by apply inv_detach| |done|apply detach_dead].
      unfold detach. by destruct (decide _).
Qed.

Lemma esl_reachable_inv c : reachable c -> inv c.
Proof.
  induction 1 as [|ev c c' _ IH Hs E]; [|by eapply esl_inv_step].
  by split; [intros ? ? E; discriminate E..| |].
Qed.

Lemma fair_run_reachable evs c c' : reachable c -> fair_run evs c = Some c' -> reachable c'.
Proof.
  revert c. induction evs as [|ev evs IH]; intros c Hc; cbn [fair_run]; [by intros [= <-]|].
  destruct (solicited ev c) eqn:Hs; [|done]. destruct (step ev c) as [c1|] eqn:E; [|done]. apply IH. by eapply reach_step.
Qed.

Definition awaiting (p : Phase) : bool := match p with AwaitReply _ => true | _ => false end.

(** At most one command is without its reply on a live session. *)
Lemma one_in_flight c st x :
  inv c -> conns c !! st = Some x -> alive x = true -> (length (sent x) <= S (length (replies x)))%nat.
Proof.
  intros Hi Hx Ha. destruct (i_conn _ Hi _ _ Hx) as [_ Hw Hf _].
  assert (forall text, in_flight x text -> (length (sent x) <= S (length (replies x)))%nat) as Hin.
  { intros text (pre & Hs & [[E _]|(rs & f & E & El & _)]); rewrite Hs, ?E, !length_app; simpl; lia. }
  destruct (existsb (fun k => bool_decide (on_of (phase k) = Some st /\ awaiting (phase k) = true)) (callers c)) eqn:E.
  - apply existsb_exists in E as (k & [i Hk]%list_elem_of_In%list_elem_of_lookup & [Hp Hq]%bool_decide_eq_true).
    apply (Hin (cmd k)), Hw. exists i, k. destruct (phase k); simplify_eq/=. done.
  - destruct (Hf Ha) as [El _]; [|lia]. intros text (i & k & Hk & Hp & _). apply not_true_iff_false in E. apply E.
    apply existsb_exists. exists k. split; [by eapply list_elem_of_In, list_elem_of_lookup_2|].
    apply bool_decide_eq_true. by rewrite Hp.
Qed.

(** C37. Over every interleaving of callers, deadlines, deaths and reconnects,
    when the server only replies to commands: a caller that gets a frame gets
    the reply at the place of its own command on one session, although replies
    carry no id; commands go out one at a time, at most one without its reply
    on a live session; and only on sessions whose authentication and
    subscription the server accepted. *)
Theorem fs_replies_in_order c :
  reachable c ->
  (forall i k f, callers c !! i = Some k -> phase k = Returned (inl f) ->
     exists st x n, conns c !! st = Some x /\ sent x !! n = Some (cmd k) /\ replies x !! n = Some f)
  /\ (forall i j k l, callers c !! i = Some k -> callers c !! j = Some l ->
        busy (phase k) = true -> busy (phase l) = true -> i = j)
  /\ (forall st x, conns c !! st = Some x -> alive x = true -> (length (sent x) <= S (length (replies x)))%nat)
  /\ (forall st x, conns c !! st = Some x -> sent x <> [] ->
        exists l, auth x = Some l /\ fst (establish md5_hex cfg l) = None).
Proof.
  intros Hi%esl_reachable_inv. split_and!.
  - intros i k f Hk Hp. destruct (k_done _ _ _ (i_caller _ Hi _ _ Hk) f Hp) as (st & x & n & Hx & _ & Hs & Hr).
    by exists st, x, n.
  - intros i j k l Hk Hl Hbk Hbl. pose proof (k_slot _ _ _ (i_caller _ Hi _ _ Hk) Hbk).
    pose proof (k_slot _ _ _ (i_caller _ Hi _ _ Hl) Hbl). congruence.
  - intros st x Hx Ha. by eapply one_in_flight.
  - intros st x Hx. apply (c_auth _ _ _ (i_conn _ Hi _ _ Hx)).
Qed.
End Client.

(** ** The session is authenticated *)

Lemma read_frame_written cfg l f l' : read_frame cfg l = inl (f, l') -> written l' = written l.
Proof. unfold read_frame. destruct (ReadFrame _ _) as [[? ?]|]; [|done]. by intros [= _ <-]. Qed.

(** An established link: the server asked for authentication, accepted the
    line that answers it, and accepted the subscription. *)
Lemma establish_accepted md5_hex cfg l l' :
  establish md5_hex cfg l = (None, l') ->
  exists first reply l1,
    read_frame cfg l = inl (first, l1) /\ ContentType first = ctAuthRequest
    /\ ContentType reply = ctCommandReply /\ has_prefix (ReplyText reply) "+OK" = true
    /\ written l' = written l1 ++ command (auth_line md5_hex cfg first)
         :: match events cfg with [] => [] | evs => [command ("events plain " +:+ Join evs " ")] end.
Proof.
  unfold establish. destruct (handshake md5_hex cfg l) as [[err|] l2] eqn:Eh; [done|].
  unfold handshake in Eh. destruct (read_frame cfg l) as [[first l1]|]; [|done].
  destruct (String.eqb _ _) eqn:Ef; [|done]. apply String.eqb_eq in Ef. cbn [negb write_line] in Eh.
  destruct (write_result l1 _); [done|].
  destruct (read_frame cfg (MkLink _ _ _)) as [[reply l3]|] eqn:Er; [|done].
  destruct (String.eqb (ContentType reply) _) eqn:Ec; [|done]. apply String.eqb_eq in Ec.
  destruct (has_prefix _ _) eqn:Ep; [|done]. injection Eh as ->.
  pose proof (read_frame_written _ _ _ _ Er) as Ew. cbn [written] in Ew.
  intros Hs. exists first, reply, l1. split_and!; [done..|].
  destruct (events cfg) as [|e evs] eqn:Ev; [by injection Hs as <-|].
  unfold subscribe in Hs. rewrite Ev in Hs. cbn [write_line] in Hs. destruct (write_result l2 _); [done|].
  destruct (read_frame cfg (MkLink (input l2) _ _)) as [[ack l4]|] eqn:Ea; [|done].
  destruct (negb _ || _); [done|]. injection Hs as <-. apply read_frame_written in Ea. cbn [written] in Ea.
  by rewrite Ea, Ew, <- app_assoc.
Qed.

(** ** The reconnect ladder *)

(** No wait is longer than the larger of base and cap. *)
Lemma delays_bounded cfg rs delay :
  0 < backoffBase cfg -> 0 < backoffMax cfg <= int64_max -> 0 < delay <= Z.max (backoffBase cfg) (backoffMax cfg) ->
  2 * Z.max (backoffBase cfg) (backoffMax cfg) <= int64_max ->
  Forall (fun d => 0 < d <= Z.max (backoffBase cfg) (backoffMax cfg)) (delays cfg delay rs).
Proof.
  intros Hb Hm Hd Hmax. revert delay Hd. induction rs as [|r rs IH]; intros delay Hd; cbn [delays]; [constructor|].
  destruct r as [|[]]; cbn [round_delay]; constructor; try done; try lia; apply IH; try lia.
  unfold int64_max in *. rewrite wrap64_id by (unfold in_int64, int64_min, int64_max; lia). lia.
Qed.

(** Dials that fail double the wait up to the cap. *)
Lemma dial_failures_back_off :
  delays (effective (MkClientConfig "h" "p" [] 0 0 0 0 0 0 0)) (50 * Millisecond) (replicate 8 DialFailed)
  = map (fun n => n * Millisecond) [50; 100; 200; 400; 800; 1600; 2000; 2000].
Proof. vm_compute. reflexivity. Qed.

(** Sessions that fail their handshake never do, after any number of rounds:
    bad credentials are tried again at the base rate. *)
Lemma rejected_sessions_never_back_off cfg n :
  delays cfg (backoffBase cfg) (replicate n (SessionRan false)) = replicate n (backoffBase cfg).
Proof. induction n as [|n IH]; [done|]. cbn. by rewrite IH. Qed.

(** ** Runs *)

Definition demo_config : clientConfig :=
  effective (MkClientConfig "pbx:8021" "ClueCon" ["CHANNEL_ANSWER"; "CHANNEL_HANGUP"] 0 0 0 0 0 0 0).

Definition ok_frame (text : string) : string := replyFrame ("+OK " +:+ text) ∅.

Definition demo_link : Link :=
  MkLink (MkStream (bareFrame ctAuthRequest ∅ +:+ ok_frame "accepted" +:+ ok_frame "event listener enabled") None)
    (fun _ => None) [].

Definition reply (text : string) : Frame := 
  MkFrame ctCommandReply "" [MkHkv "Content-Type" ctCommandReply; MkHkv "Reply-Text" text].

Definition no_md5 (s : string) : string := s.

Definition gets_through (i : nat) : list Step := [Acquires i; Looks i; Drains i; Writes i None].

Definition two_calls : list Step :=
  [Connects; Establishes demo_link; Calls "api status"; Calls "api version"] ++ gets_through 0
  ++ [Reads (inl (reply "+OK one")); Receives 0] ++ gets_through 1 ++ [Reads (inl (reply "+OK two")); Receives 1].

Definition after (evs : list Step) : eslClient := default newESLClient (fair_run no_md5 demo_config evs newESLClient).

Lemma fs_replies_in_order_witness :
  let c := after two_calls in
  map phase (callers c) = [Returned (inl (reply "+OK one")); Returned (inl (reply "+OK two"))]
  /\ (forall i k f, callers c !! i = Some k -> phase k = Returned (inl f) ->
     exists st x n, conns c !! st = Some x /\ sent x !! n = Some (cmd k) /\ replies x !! n = Some f)
  /\ (forall i j k l, callers c !! i = Some k -> callers c !! j = Some l ->
        busy (phase k) = true -> busy (phase l) = true -> i = j)
  /\ (forall st x, conns c !! st = Some x -> alive x = true -> (length (sent x) <= S (length (replies x)))%nat)
  /\ (forall st x, conns c !! st = Some x -> sent x <> [] ->
        exists l, auth x = Some l /\ fst (establish no_md5 demo_config l) = None).
Proof.
  cbv zeta. split; [vm_compute; reflexivity|].
  apply fs_replies_in_order. apply (fair_run_reachable no_md5 demo_config two_calls newESLClient); [constructor|].
  vm_compute. reflexivity.
Defined.

(** A frame nobody asked for, read between the drain and the write, is taken
    for the command's reply. *)
Lemma unsolicited_reply_misattributed :
  exists c, run no_md5 demo_config ([Connects; Establishes demo_link; Calls "api status"; Acquires 0; Looks 0; Drains 0;
              Reads (inl (reply "-ERR stray")); Writes 0 None; Receives 0]) newESLClient = Some c
    /\ map phase (callers c) = [Returned (inl (reply "-ERR stray"))].
Proof. eexists. split; vm_compute; reflexivity. Qed.

(** A reply that comes after its caller gave up goes to nobody: the session is
    dead, and the next command waits for a new one. *)
Example late_reply_is_dropped :
  let c := after ([Connects; Establishes demo_link; Calls "api status"] ++ gets_through 0
             ++ [Expires 0 "context deadline exceeded"; Reads (inl (reply "+OK late")); Calls "api version";
                 Acquires 1; Looks 1]) in
  map phase (callers c)
  = [Returned (inr (plain_error
       ("freeswitch: command " +:+ quote "api" +:+ " timed out: context deadline exceeded")));
     WaitReady (Some (2%nat, None))]
  /\ isLive c 0 = false.
Proof. vm_compute. done. Qed.
