(* ===== verification/UrlQuery.v ===== *)
(** * net/url: form-encoded bodies

    [url.ParseQuery] and [Values.Get]: a parsed query is the list of its pairs
    in order of appearance, or a parse error. *)

From Stdlib Require Import String Ascii.
From S2P Require Import Prelude GoStd.
From S2P Require Import Text.

Local Open Scope Z_scope.

(** The value of a hexadecimal digit. *)
Definition unhex (a : ascii) : option Z :=
  let c := code a in
  if (48 <=? c) && (c <=? 57) then Some (c - 48)
  else if (97 <=? c) && (c <=? 102) then Some (c - 87)
  else if (65 <=? c) && (c <=? 70) then Some (c - 55)
  else None.

(** [url.EscapeError] of the escape a text starts with. *)
Definition EscapeError (s : string) : string := "invalid URL escape " +:+ quote (stake 3 s).

(** [url.QueryUnescape] *)
Fixpoint QueryUnescape (s : string) : string + string :=
  match s with
  | EmptyString => inl EmptyString
  | String a s' =>
      if Ascii.eqb a "%" then
        match s' with
        | String h (String l s'') =>
            match unhex h, unhex l with
            | Some x, Some y =>
                match QueryUnescape s'' with
                | inl r => inl (String (ascii_of_N (Z.to_N (16 * x + y))) r)
                | inr err => inr err
                end
            | _, _ => inr (EscapeError s)
            end
        | _ => inr (EscapeError s)
        end
      else
        match QueryUnescape s' with
        | inl r => inl (String (if Ascii.eqb a "+" then " "%char else a) r)
        | inr err => inr err
        end
  end.

(** [strings.Split(s, sep)] on a byte. *)
Fixpoint split (s : string) (sep : ascii) : list string :=
  match s with
  | EmptyString => [EmptyString]
  | String a s' =>
      if Ascii.eqb a sep then EmptyString :: split s' sep
      else match split s' sep with
           | h :: t => String a h :: t
           | [] => [String a EmptyString]
           end
  end.

(** One setting: at most one pair, or an error. *)
Definition parse_setting (kv : string) : list (string * string) + string :=
  if is_empty kv then inl []
  else
    let '(k, v) := cut kv "="%char in
    match QueryUnescape k with
    | inr err => inr err
    | inl k =>
        match QueryUnescape (default EmptyString v) with
        | inr err => inr err
        | inl v => inl [(k, v)]
        end
    end.

Fixpoint parse_settings (kvs : list string) : list (string * string) + string :=
  match kvs with
  | [] => inl []
  | kv :: kvs =>
      match parse_setting kv with
      | inr err => inr err
      | inl p =>
          match parse_settings kvs with
          | inl ps => inl (p ++ ps)
          | inr err => inr err
          end
      end
  end.

(** [url.ParseQuery]: a semicolon anywhere is an error of its own, otherwise the
    first bad escape is. Callers drop the values that come with an error. *)
Definition ParseQuery (query : string) : list (string * string) + string :=
  if has_byte query ";" then inr "invalid semicolon separator in query"
  else parse_settings (split query "&").

(** [Values.Get]: the first value. *)
Definition values_get (ps : list (string * string)) (key : string) : string :=
  match List.find (fun p => String.eqb p.1 key) ps with
  | Some p => p.2
  | None => EmptyString
  end.

Example parse_query_demo :
  ParseQuery "sessionId=s%201&text=a+b&empty&&x=" =
  inl [("sessionId", "s 1"); ("text", "a b"); ("empty", ""); ("x", "")].
Proof. reflexivity. Qed.

Example parse_query_bad :
  ParseQuery "a=1;b=2" = inr "invalid semicolon separator in query"
  /\ exists msg, ParseQuery "x=1&a=%zz" = inr msg.
Proof. split; [reflexivity|]. eexists. reflexivity. Qed.

(** ** net/url: building queries

    [url.Values] as a finite map, [url.QueryEscape] and [url.PathEscape],
    [Values.Encode], the lenient reading of [URL.Query]; and that reading an
    encoded query gives its values back. *)

(** [url.Values] *)
Notation Values := (gmap string (list string)).

Definition Values_Get (v : Values) (key : string) : string :=
  match v !! key with Some (x :: _) => x | _ => "" end.

Definition Values_Set (v : Values) (key value : string) : Values := <[key := [value]]> v.

Definition Values_Add (v : Values) (key value : string) : Values :=
  <[key := default [] (v !! key) ++ [value]]> v.

(** ** Escaping *)

Definition unreserved (a : ascii) : bool :=
  let c := code a in
  ((48 <=? c) && (c <=? 57)) || ((65 <=? c) && (c <=? 90)) || ((97 <=? c) && (c <=? 122))
  || Ascii.eqb a "-" || Ascii.eqb a "_" || Ascii.eqb a "." || Ascii.eqb a "~".

Definition upper_hex (n : Z) : ascii :=
  ascii_of_N (Z.to_N (if n <? 10 then 48 + n else 55 + n)).

Definition percent (a : ascii) (rest : string) : string :=
  String "%" (String (upper_hex (code a / 16)) (String (upper_hex (code a mod 16)) rest)).

Definition query_byte (a : ascii) (rest : string) : string :=
  if unreserved a then String a rest
  else if Ascii.eqb a " " then String "+" rest
  else percent a rest.

Fixpoint QueryEscape (s : string) : string :=
  match s with
  | EmptyString => EmptyString
  | String a s => query_byte a (QueryEscape s)
  end.

(** A path segment keeps ["$&+=:@"] too. *)
Definition segment_byte (a : ascii) (rest : string) : string :=
  if unreserved a || existsb (Ascii.eqb a) ["$"; "&"; "+"; "="; ":"; "@"]%char then String a rest
  else percent a rest.

Fixpoint PathEscape (s : string) : string :=
  match s with
  | EmptyString => EmptyString
  | String a s => segment_byte a (PathEscape s)
  end.

(** ** Encoding and reading *)

Definition key_le (a b : string * list string) : Prop := String.leb a.1 b.1 = true.

#[export] Instance key_le_dec a b : Decision (key_le a b).
Proof. unfold key_le. apply _. Defined.

Definition pairs_of (kv : string * list string) : list (string * string) :=
  map (fun x => (kv.1, x)) kv.2.

Definition encode_pair (p : string * string) : string := QueryEscape p.1 +:+ "=" +:+ QueryEscape p.2.

(** [Values.Encode]: by key. *)
Definition Encode (v : Values) : string :=
  Join (map encode_pair (flat_map pairs_of (merge_sort key_le (map_to_list v)))) "&".

(** A setting of [ParseQuery]; what does not parse is left out. *)
Definition add_setting (v : Values) (kv : string) : Values :=
  if has_byte kv ";" || is_empty kv then v
  else
    let '(k, x) := cut kv "="%char in
    match QueryUnescape k, QueryUnescape (default EmptyString x) with
    | inl k, inl x => Values_Add v k x
    | _, _ => v
    end.

(** [URL.Query] of the raw query. *)
Definition URL_Query (raw : string) : Values := fold_left add_setting (split raw "&") ∅.

(** ** Lemmas *)

Lemma query_byte_unescape a s r :
  QueryUnescape s = inl r -> QueryUnescape (query_byte a s) = inl (String a r).
Proof.
  intros H. destruct a as [[] [] [] [] [] [] [] []];
    cbv -[QueryUnescape]; cbn [QueryUnescape Ascii.eqb Bool.eqb]; by rewrite H.
Qed.

Lemma QueryUnescape_QueryEscape s : QueryUnescape (QueryEscape s) = inl s.
Proof. induction s as [|a s IH]; [done|]. by apply query_byte_unescape. Qed.

(** The bytes that separate keys, values and settings. *)
Definition separator (a : ascii) : Prop := a = "&"%char \/ a = "="%char \/ a = ";"%char.

Lemma query_byte_has a s c : separator c -> has_byte (query_byte a s) c = has_byte s c.
Proof. intros [->|[->| ->]]; by destruct a as [[] [] [] [] [] [] [] []]. Qed.

Lemma QueryEscape_has s c : separator c -> has_byte (QueryEscape s) c = false.
Proof. intros Hc. induction s as [|a s IH]; [done|]. simpl. by rewrite query_byte_has. Qed.

Lemma split_app a b c : has_byte a c = false -> split (a ++ String c b) c = a :: split b c.
Proof.
  induction a as [|x a IH]; simpl; [by rewrite Ascii.eqb_refl|].
  intros [-> Ha]%orb_false_iff. by rewrite IH.
Qed.

Lemma split_none a c : has_byte a c = false -> split a c = [a].
Proof.
  induction a as [|x a IH]; cbn [split has_byte]; [done|]. intros [Hx Ha]%orb_false_iff.
  by rewrite Hx, IH.
Qed.

Lemma split_Join l :
  Forall (fun s => has_byte s "&" = false) l -> split (Join l "&") "&" = match l with [] => [""] | _ => l end.
Proof.
  induction 1 as [|s l Hs Hl IH]; [done|]. destruct l as [|s' l]; [by apply split_none|].
  change (Join (s :: s' :: l) "&") with (s +:+ String "&" (Join (s' :: l) "&")).
  by rewrite split_app, IH.
Qed.

Lemma encode_pair_has p c : separator c -> c <> "="%char -> has_byte (encode_pair p) c = false.
Proof.
  intros Hc Hne. unfold encode_pair. rewrite !has_byte_app, !QueryEscape_has by done.
  destruct Hc as [->|[->| ->]]; done.
Qed.

Lemma add_setting_encode_pair v p : add_setting v (encode_pair p) = Values_Add v p.1 p.2.
Proof.
  unfold add_setting. rewrite encode_pair_has by (by (right; right) || done).
  assert (is_empty (encode_pair p) = false) as ->.
  { unfold encode_pair. by destruct (QueryEscape p.1). }
  change (encode_pair p) with (QueryEscape p.1 ++ String "=" (QueryEscape p.2))%string.
  rewrite cut_app by (apply QueryEscape_has; by right; left). cbn [orb from_option id].
  by rewrite !QueryUnescape_QueryEscape.
Qed.

Lemma fold_settings ps v :
  fold_left add_setting (map encode_pair ps) v = fold_left (fun v p => Values_Add v p.1 p.2) ps v.
Proof. revert v. induction ps as [|p ps IH]; intros v; [done|]. simpl. by rewrite add_setting_encode_pair. Qed.

(** The values a list of pairs has for a key. *)
Definition values_of (k : string) (ps : list (string * string)) : list string :=
  map snd (List.filter (fun p => String.eqb p.1 k) ps).

Definition some_values (l : list string) : option (list string) :=
  match l with [] => None | _ => Some l end.

Lemma fold_Add_lookup ps v k :
  fold_left (fun v p => Values_Add v p.1 p.2) ps v !! k
  = match values_of k ps with [] => v !! k | l => Some (default [] (v !! k) ++ l) end.
Proof.
  revert v. induction ps as [|[k' x] ps IH]; intros v; [done|]. simpl. rewrite IH.
  unfold values_of, Values_Add. cbn [List.filter fst]. destruct (String.eqb_spec k' k) as [->|Hne].
  - rewrite lookup_insert_eq. cbn [map snd from_option id]. destruct (map snd _) as [|y l]; [done|].
    by rewrite <- app_assoc.
  - by rewrite lookup_insert_ne.
Qed.

Lemma values_of_app k ps qs : values_of k (ps ++ qs) = values_of k ps ++ values_of k qs.
Proof. unfold values_of. by rewrite List.filter_app, map_app. Qed.

Lemma values_of_pairs k kv : values_of k (pairs_of kv) = if String.eqb kv.1 k then kv.2 else [].
Proof.
  destruct kv as [k' l]. unfold values_of, pairs_of. simpl. induction l as [|x l IH]; simpl.
  - by destruct (String.eqb k' k).
  - destruct (String.eqb k' k); simpl in *; by rewrite ?IH.
Qed.

Lemma values_of_rows k (l : list (string * list string)) :
  NoDup l.*1 -> values_of k (flat_map pairs_of l) = default [] (snd <$> List.find (fun kv => String.eqb kv.1 k) l).
Proof.
  induction l as [|kv l IH]; cbn [fmap list_fmap flat_map List.find]; [done|].
  intros [Hn Hnd]%NoDup_cons. rewrite values_of_app, values_of_pairs, IH by done.
  destruct (String.eqb_spec kv.1 k) as [Hk|Hk]; [|done].
  destruct (List.find _ l) as [kv'|] eqn:E; simpl; [|by rewrite app_nil_r].
  apply List.find_some in E as [Hin Heq%String.eqb_eq]. exfalso. apply Hn.
  rewrite Hk, <- Heq. apply list_elem_of_fmap. exists kv'. split; [done|]. by apply list_elem_of_In.
Qed.

(** A value map in which no key is without values reads back. *)
Lemma Query_Encode v :
  (forall k l, v !! k = Some l -> l <> []) -> URL_Query (Encode v) = v.
Proof.
  intros Hne. unfold URL_Query, Encode. rewrite split_Join.
  2: { apply Forall_map, Forall_forall. intros p _. simpl. apply encode_pair_has; [by left|done]. }
  set (l := merge_sort key_le (map_to_list v)).
  transitivity (fold_left add_setting (map encode_pair (flat_map pairs_of l)) ∅).
  { by destruct (map encode_pair (flat_map pairs_of l)). }
  rewrite fold_settings. apply map_eq. intros k. rewrite fold_Add_lookup, lookup_empty.
  assert (Hp : l ≡ₚ map_to_list v) by apply merge_sort_Permutation.
  rewrite values_of_rows by (rewrite Hp; apply NoDup_fst_map_to_list).
  destruct (List.find _ l) as [kv|] eqn:E; simpl.
  - apply List.find_some in E as [Hin Heq%String.eqb_eq]. subst k.
    apply list_elem_of_In in Hin. rewrite Hp in Hin. destruct kv as [k' xs].
    apply elem_of_map_to_list in Hin. simpl. rewrite Hin. apply Hne in Hin. by destruct xs.
  - symmetry. apply eq_None_not_Some. intros [xs Hx].
    apply elem_of_map_to_list in Hx. rewrite <- Hp in Hx. apply list_elem_of_In in Hx.
    apply (List.find_none _ _ E) in Hx. simpl in Hx. by rewrite String.eqb_refl in Hx.
Qed.

Example url_encode_demo :
  Encode {[ "b" := ["2&=;"]; "a" := ["x y"; "~"] ]} = "a=x+y&a=~&b=2%26%3D%3B"
  /\ PathEscape "AC 1/2;x@y" = "AC%201%2F2%3Bx@y".
Proof. by vm_compute. Qed.

Lemma Values_Add_nonempty v k x : forall k' l, Values_Add v k x !! k' = Some l -> l <> [] \/ v !! k' = Some l.
Proof.
  intros k' l. unfold Values_Add. destruct (decide (k' = k)) as [->|Hne].
  - rewrite lookup_insert_eq. intros [= <-]. left. by destruct (default [] (v !! k)).
  - rewrite lookup_insert_ne by done. by right.
Qed.

(** A query that was read has no key without values. *)
Lemma URL_Query_nonempty raw k l : URL_Query raw !! k = Some l -> l <> [].
Proof.
  unfold URL_Query. assert (forall (v : Values) kvs,
    (forall k l, v !! k = Some l -> l <> []) ->
    forall k l, fold_left add_setting kvs v !! k = Some l -> l <> []) as H.
  { intros v kvs. revert v. induction kvs as [|kv kvs IH]; intros v Hv; [exact Hv|]. simpl. apply IH.
    intros k' l'. unfold add_setting. destruct (_ || _); [by apply Hv|].
    destruct (cut kv "="%char) as [x y]. destruct (QueryUnescape x) as [x'|]; [|by apply Hv].
    destruct (QueryUnescape (default EmptyString y)) as [y'|]; [|by apply Hv].
    intros [?|?%Hv]%Values_Add_nonempty; done. }
  apply H. intros ? ? Hk. by rewrite lookup_empty in Hk.
Qed.
