(* ===== verification/Sha1.v ===== *)
(** * crypto/sha1 and its HMAC

    FIPS 180-4 SHA-1 on byte lists, over the padding and the word codec of
    Sha256; the digest of Twilio's request signatures. *)

From Stdlib Require Import String.
From S2P Require Import Prelude GoStd Sha256.
From S2P Require Webhooks.

Local Open Scope Z_scope.

Definition rotl (x n : Z) : Z := rotr x (32 - n).

Record sha1_state := MkS1 { s1a : Z; s1b : Z; s1c : Z; s1d : Z; s1e : Z }.

Definition H1 : sha1_state :=
  MkS1 1732584193 4023233417 2562383102 271733878 3285377520.

(** The function and the constant of round [t]. *)
Definition f1 (t : nat) (b c d : Z) : Z * Z :=
  if (t <? 20)%nat then (ch b c d, 1518500249)
  else if (t <? 40)%nat then (xor3 b c d, 1859775393)
  else if (t <? 60)%nat then (maj b c d, 2400959708)
  else (xor3 b c d, 3395469782).

Definition round1 (s : sha1_state) (tw : nat * Z) : sha1_state :=
  let '(f, k) := f1 tw.1 (s1b s) (s1c s) (s1d s) in
  MkS1 (w32 (rotl (s1a s) 5 + f + s1e s + k + tw.2)) (s1a s) (rotl (s1b s) 30) (s1c s) (s1d s).

(** The message schedule, most recent word first. *)
Fixpoint extend1 (n : nat) (rw : list Z) : list Z :=
  match n with
  | O => rw
  | S m =>
      let at_ i := nth i rw 0 in
      extend1 m (rotl (Z.lxor (Z.lxor (at_ 2%nat) (at_ 7%nat)) (Z.lxor (at_ 13%nat) (at_ 15%nat))) 1 :: rw)
  end.

Definition compress1 (s : sha1_state) (block : list Z) : sha1_state :=
  let w := rev (extend1 64 (rev block)) in
  let r := fold_left round1 (combine (seq 0 80) w) s in
  MkS1 (w32 (s1a s + s1a r)) (w32 (s1b s + s1b r)) (w32 (s1c s + s1c r)) (w32 (s1d s + s1d r))
    (w32 (s1e s + s1e r)).

Fixpoint blocks1 (fuel : nat) (ws : list Z) (s : sha1_state) : sha1_state :=
  match fuel, ws with
  | S f, _ :: _ => blocks1 f (drop 16 ws) (compress1 s (take 16 ws))
  | _, _ => s
  end.

(** [sha1.Sum] *)
Definition Sum1 (msg : list Z) : list Z :=
  let ws := be_words (pad msg) in
  let s := blocks1 (length ws) ws H1 in
  be32 (s1a s) ++ be32 (s1b s) ++ be32 (s1c s) ++ be32 (s1d s) ++ be32 (s1e s).

(** FIPS 180 test vectors. *)
Example sum1_abc : hex_encode (Sum1 (str_bytes "abc")) = "a9993e364706816aba3e25717850c26c9cd0d89d"%string.
Proof. vm_compute. reflexivity. Qed.

Example sum1_two_blocks :
  hex_encode (Sum1 (str_bytes "abcdbcdecdefdefgefghfghighijhijkijkljklmklmnlmnomnopnopq"))
  = "84983e441c3bd26ebaae4aa1f95129e5e54670f1"%string.
Proof. vm_compute. reflexivity. Qed.

Lemma length_Sum1 msg : length (Sum1 msg) = 20%nat.
Proof. reflexivity. Qed.

Lemma Sum1_bytes msg : Forall (fun b => 0 <= b < 256) (Sum1 msg).
Proof. unfold Sum1. rewrite !Forall_app. repeat split; apply Webhooks.be32_bytes. Qed.

(** [hmac.New(sha1.New, key)] *)
Definition hmac_sha1 (key msg : list Z) : list Z :=
  let k := if (64 <? length key)%nat then Sum1 key else key in
  let k := k ++ replicate (64 - length k) 0 in
  Sum1 (map (Z.lxor 92) k ++ Sum1 (map (Z.lxor 54) k ++ msg)).

(** RFC 2202, test case 2. *)
Example hmac_rfc2202_2 :
  hex_encode (hmac_sha1 (str_bytes "Jefe") (str_bytes "what do ya want for nothing?"))
  = "effcdf6ae5eb2fa2d27416d5f184df9c259a7c79"%string.
Proof. vm_compute. reflexivity. Qed.
