(* ===== verification/NetIP.v ===== *)
(** * net/netip: addresses and prefixes

    [ParseAddr], [ParsePrefix], [Masked], [Contains], [Unmap] as far as the
    peer allowlist uses them: an address is a number of 32 or 128 bits, with
    the zone of an IPv6 address; errors carry no text here. *)

From Stdlib Require Import String Ascii.
From S2P Require Import Prelude GoStd.

Local Open Scope Z_scope.

Inductive Addr :=
| Addr4 (ip : Z)
| Addr6 (ip : Z) (zone : string).

#[export] Instance Addr_eq_dec : EqDecision Addr.
Proof. solve_decision. Defined.

Definition Zone (a : Addr) : string := match a with Addr4 _ => "" | Addr6 _ z => z end.

(** The fields of a dotted address so far, the value and the number of digits
    of the current one. *)
Fixpoint parse_v4 (s : string) (fields : list Z) (val : Z) (digits : nat) : option (list Z) :=
  match s with
  | EmptyString => match digits with O => None | _ => Some (fields ++ [val]) end
  | String a s' =>
      match digit_val a with
      | Some d =>
          if (digits =? 1)%nat && (val =? 0) then None
          else
            let val := val * 10 + d in
            if 255 <? val then None else parse_v4 s' fields val (S digits)
      | None =>
          if Ascii.eqb a "."%char then
            match digits with
            | O => None
            | _ => if (length fields =? 3)%nat then None else parse_v4 s' (fields ++ [val]) 0 0
            end
          else None
      end
  end.

Definition v4_fields (s : string) : option (list Z) :=
  match parse_v4 s [] 0 0 with
  | Some l => if (length l =? 4)%nat then Some l else None
  | None => None
  end.

Definition of_fields (base : Z) (l : list Z) : Z := fold_left (fun n b => n * base + b) l 0.

Definition hex_digit_val (a : ascii) : option Z :=
  let c := code a in
  if (48 <=? c) && (c <=? 57) then Some (c - 48)
  else if (97 <=? c) && (c <=? 102) then Some (c - 87)
  else if (65 <=? c) && (c <=? 70) then Some (c - 55)
  else None.

(** The leading hexadecimal digits: their value, their number, the rest. *)
Fixpoint hex_run (s : string) (acc : Z) (n : nat) : Z * nat * string :=
  match s with
  | String a s' =>
      match hex_digit_val a with
      | Some v => hex_run s' (acc * 16 + v) (S n)
      | None => (acc, n, s)
      end
  | EmptyString => (acc, n, s)
  end.

(** The loop over the fields of an IPv6 address: [words] so far, where the
    [::] stands. A round consumes bytes, so their number is enough fuel. *)
Fixpoint parse_v6 (fuel : nat) (s : string) (words : list Z) (ellipsis : option nat)
    : option (list Z * option nat) :=
  match fuel with
  | O => None
  | S fuel =>
      if (8 <=? length words)%nat then (if is_empty s then Some (words, ellipsis) else None) else
      let '(acc, off, rest) := hex_run s 0 0 in
      if (off =? 0)%nat || (4 <? off)%nat then None else
      let dotted := match rest with String a _ => Ascii.eqb a "."%char | EmptyString => false end in
      if dotted then
        if match ellipsis with None => negb (length words =? 6)%nat | Some _ => false end then None
        else if (6 <? length words)%nat then None
        else
          match v4_fields s with
          | Some [a; b; c; d] => Some (words ++ [a * 256 + b; c * 256 + d], ellipsis)
          | _ => None
          end
      else
      let words := words ++ [acc] in
      match rest with
      | EmptyString => Some (words, ellipsis)
      | String a s1 =>
          if negb (Ascii.eqb a ":"%char) then None
          else
          match s1 with
          | EmptyString => None
          | String b s2 =>
              if Ascii.eqb b ":"%char then
                match ellipsis with
                | Some _ => None
                | None =>
                    if is_empty s2 then Some (words, Some (length words))
                    else parse_v6 fuel s2 words (Some (length words))
                end
              else parse_v6 fuel s1 words ellipsis
          end
      end
  end.

(** The eight words, with the zeros the [::] stands for. *)
Definition expand (words : list Z) (ellipsis : option nat) : option (list Z) :=
  let missing := (8 - length words)%nat in
  match ellipsis with
  | None => if (missing =? 0)%nat then Some words else None
  | Some i => if (missing =? 0)%nat then None
              else Some (take i words ++ replicate missing 0 ++ drop i words)
  end.

Definition parse_ip6 (s : string) : option Z :=
  match
    (if has_prefix s "::" then
       if is_empty (sdrop 2 s) then Some ([], Some 0%nat)
       else parse_v6 (S (String.length s)) (sdrop 2 s) [] (Some 0%nat)
     else parse_v6 (S (String.length s)) s [] None)
  with
  | Some (words, ellipsis) => of_fields 65536 <$> expand words ellipsis
  | None => None
  end.

(** The first of the bytes that decide the kind of address. *)
Fixpoint addr_kind (s : string) : option ascii :=
  match s with
  | EmptyString => None
  | String a s' =>
      if Ascii.eqb a "."%char || Ascii.eqb a ":"%char || Ascii.eqb a "%"%char then Some a
      else addr_kind s'
  end.

Definition ParseAddr (s : string) : option Addr :=
  match addr_kind s with
  | Some a =>
      if Ascii.eqb a "."%char then (fun l => Addr4 (of_fields 256 l)) <$> v4_fields s
      else if Ascii.eqb a ":"%char then
        match cut s "%"%char with
        | (h, None) => (fun ip => Addr6 ip "") <$> parse_ip6 h
        | (h, Some zone) => if is_empty zone then None else (fun ip => Addr6 ip zone) <$> parse_ip6 h
        end
      else None
  | None => None
  end.

(** [Unmap]: an IPv4-mapped IPv6 address without a zone as the IPv4 one. *)
Definition Unmap (a : Addr) : Addr :=
  match a with
  | Addr6 ip _ => if ip / 2 ^ 32 =? 65535 then Addr4 (ip mod 2 ^ 32) else a
  | Addr4 _ => a
  end.

Record Prefix := MkPrefix { pfx_addr : Addr; pfx_bits : Z }.

#[export] Instance Prefix_eq_dec : EqDecision Prefix.
Proof. solve_decision. Defined.

Definition bit_len (a : Addr) : Z := match a with Addr4 _ => 32 | Addr6 _ _ => 128 end.

(** [strings.LastIndexByte] *)
Fixpoint split_last (s : string) (c : ascii) : option (string * string) :=
  match s with
  | EmptyString => None
  | String a s' =>
      match split_last s' c with
      | Some (h, t) => Some (String a h, t)
      | None => if Ascii.eqb a c then Some (EmptyString, s') else None
      end
  end.

Definition ParsePrefix (s : string) : option Prefix :=
  match split_last s "/"%char with
  | None => None
  | Some (h, bits) =>
      match ParseAddr h with
      | None => None
      | Some a =>
          if negb (is_empty (Zone a)) then None
          else if (1 <? String.length bits)%nat
                  && match bits with
                     | String b _ => (code b <? 49) || (57 <? code b)
                     | EmptyString => false
                     end then None
          else
            match atoi bits with
            | None => None
            | Some n => if (n <? 0) || (bit_len a <? n) then None else Some (MkPrefix a n)
            end
      end
  end.

(** The network part of an address. *)
Definition network (w bits ip : Z) : Z := Z.shiftr ip (w - bits).

Definition Masked (p : Prefix) : Prefix :=
  let clear w ip := Z.shiftl (network w (pfx_bits p) ip) (w - pfx_bits p) in
  MkPrefix (match pfx_addr p with
            | Addr4 ip => Addr4 (clear 32 ip)
            | Addr6 ip _ => Addr6 (clear 128 ip) ""
            end) (pfx_bits p).

Definition Contains (p : Prefix) (a : Addr) : bool :=
  match pfx_addr p, a with
  | Addr4 x, Addr4 y => network 32 (pfx_bits p) x =? network 32 (pfx_bits p) y
  | Addr6 x _, Addr6 y "" => network 128 (pfx_bits p) x =? network 128 (pfx_bits p) y
  | _, _ => false
  end.

Example parse_addr_demo :
  ParseAddr "196.201.214.7" = Some (Addr4 3301561863)
  /\ ParseAddr "2001:db8::1" = Some (Addr6 42540766411282592856903984951653826561 "")
  /\ Unmap (Addr6 (65535 * 2 ^ 32 + 7) "") = Addr4 7
  /\ ParseAddr "::ffff:10.0.0.7" = Some (Addr6 281470849515527 "")
  /\ ParseAddr "fe80::1%eth0" = Some (Addr6 338288524927261089654018896841347694593 "eth0")
  /\ map ParseAddr ["1.2.3"; "1.2.3.4.5"; "01.2.3.4"; "256.1.1.1"; "1..2.3"; "::1::"; "1:2:3:4:5:6:7:8:9"; ""; "x"]
     = replicate 9 None.
Proof. vm_compute. done. Qed.

Example contains_demo :
  option_map (fun p => (Contains p (Addr4 3301561863), bool_decide (Masked p = p))) (ParsePrefix "196.201.214.0/24")
  = Some (true, true)
  /\ option_map (fun p => bool_decide (Masked p = p)) (ParsePrefix "10.0.0.1/8") = Some false
  /\ map ParsePrefix ["10.0.0.0"; "10.0.0.0/33"; "10.0.0.0/08"; "fe80::%1/64"] = replicate 4 None.
Proof. vm_compute. done. Qed.
