(* ===== verification/Verifiers.v ===== *)
(** * internal/webhooks: the Twilio and Africa's Talking verifiers

    verify_twilio.go, verify_africastalking.go and the default registry.
    Logging is left out. *)

From Stdlib Require Import String Ascii.
From S2P Require Import Prelude GoStd AppErrors Sha256 Sha1 UrlQuery NetIP Webhooks.
From S2P Require Pagination.

Local Open Scope Z_scope.

(** ** encoding/base64: StdEncoding *)

Definition std_char (a : ascii) : option Z :=
  if Ascii.eqb a "+"%char then Some 62
  else if Ascii.eqb a "/"%char then Some 63
  else if Ascii.eqb a "-"%char || Ascii.eqb a "_"%char then None
  else Pagination.dec_char a.

(** Up to [n] padding characters off the end, given reversed. *)
Fixpoint unpad (n : nat) (l : list ascii) : list ascii :=
  match n, l with
  | S n, a :: l' => if Ascii.eqb a "="%char then unpad n l' else l
  | _, _ => l
  end.

(** [base64.StdEncoding.DecodeString]: CR and LF are skipped, the rest comes in
    quanta of four, the last of which may be padded. *)
Definition StdDecodeString (s : string) : option (list Z) :=
  let l := List.filter (fun a => negb (Pagination.is_crlf a)) (list_ascii_of_string s) in
  if negb (length l mod 4 =? 0)%nat then None
  else
    match mapM std_char (rev (unpad 2 (rev l))) with
    | Some v => Pagination.b64_decode v
    | None => None
    end.

(** ** verify_twilio.go *)

Definition ProviderTwilio := "twilio".
Definition ProviderWhatsAppCloud := "whatsappcloud".
Definition ProviderAfricasTalking := "africastalking".

Definition TwilioSignatureHeader := "X-Twilio-Signature".
Definition twilioCodeMisconfigured := "webhook.twilio_misconfigured".
Definition twilioCodeInvalidSignature := "webhook.twilio_invalid_signature".

(** By key, ties broken by value. *)
Definition pair_before (p q : string * string) : bool :=
  if String.eqb p.1 q.1 then String.ltb p.2 q.2 else String.ltb p.1 q.1.

(** The text Twilio signs: the URL and the sorted parameters. *)
Definition twilio_text (externalURL : string) (params : list (string * string)) : string :=
  fold_left (fun b p => b +:+ p.1 +:+ p.2) (stable_sort pair_before params) externalURL.

Definition VerifyTwilio : VerifyFunc := fun cfg rawBody header externalURL =>
  let misconfigured := Some (Unauth twilioCodeMisconfigured "signature validation failed") in
  let invalid := Some (Unauth twilioCodeInvalidSignature "signature validation failed") in
  if is_empty externalURL then misconfigured else
  let tokens := List.filter (fun t => negb (is_empty t)) (TwilioAuthTokens cfg) in
  match tokens with
  | [] => misconfigured
  | _ =>
      match StdDecodeString (trim_space (header_get header TwilioSignatureHeader)) with
      | None => invalid
      | Some provided =>
          if negb (length provided =? 20)%nat then invalid
          else
          match ParseQuery (Pagination.of_bytes rawBody) with
          | inr _ => invalid
          | inl params =>
              let signed := str_bytes (twilio_text externalURL params) in
              if existsb (fun token => bool_decide (hmac_sha1 (str_bytes token) signed = provided)) tokens
              then None else invalid
          end
      end
  end.

(** ** verify_africastalking.go *)

Definition atCodePeerNotAllowed := "webhook.at_peer_not_allowed".
Definition atCodePeerUnverifiable := "webhook.at_peer_unverifiable".

Definition peerAddr (cfg : VerifierConfig) (header : gmap string string) : option Addr :=
  let v := header_get header (peerIPHeaderName cfg) in
  if is_empty v then None else
  let v := match split_last v ","%char with Some (_, t) => t | None => v end in
  match ParseAddr (trim_space v) with
  | Some addr => if is_empty (Zone addr) then Some (Unmap addr) else None
  | None => None
  end.

(** An entry of the allowlist admits the peer; an entry that does not parse, or
    has host bits set, is disabled. *)
Definition entry_allows (peer : Addr) (entry : string) : bool :=
  match ParsePrefix (trim_space entry) with
  | Some prefix => bool_decide (prefix = Masked prefix) && Contains prefix peer
  | None => false
  end.

Definition VerifyAfricasTalking : VerifyFunc := fun cfg _ header _ =>
  match ATAllowedCIDRs cfg with
  | [] => None
  | entries =>
      match peerAddr cfg header with
      | None => Some (Unauth atCodePeerUnverifiable "callback rejected")
      | Some peer =>
          if existsb (entry_allows peer) entries then None
          else Some (Unauth atCodePeerNotAllowed "callback rejected")
      end
  end.

(** ** verify_registry.go *)

Definition DefaultRegistry : list (string * option VerifyFunc) :=
  [(ProviderTwilio, Some VerifyTwilio); (ProviderWhatsAppCloud, Some VerifyWhatsAppCloud);
   (ProviderAfricasTalking, Some VerifyAfricasTalking)].

(** The request of Twilio's own validator tests. *)
Example twilio_published :
  let params := [("CallSid", "CA1234567890ABCDE"); ("Caller", "+14158675309"); ("Digits", "1234");
                 ("From", "+14158675309"); ("To", "+18005551212")] in
  option_map hex_encode (StdDecodeString "RSOYDt4T1cUTdK1PDd93/VVr8B8=")
  = Some (hex_encode (hmac_sha1 (str_bytes "12345")
      (str_bytes (twilio_text "https://mycompany.com/myapp.php?foo=1&bar=2" params)))).
Proof. vm_compute. reflexivity. Qed.
