(* ===== verification/VerifiersProps.v ===== *)
(** * Properties of the webhook verifiers

    Behind the default registry a delivery counts only when its provider's
    scheme says so. *)

From Stdlib Require Import String Ascii.
From S2P Require Import Prelude GoStd Text AppErrors Store Wp Sha256 Sha1 UrlQuery NetIP Webhooks Verifiers.
From S2P Require Pagination.

Local Open Scope Z_scope.

(** The signature header decodes to the HMAC-SHA1, under one of the account's
    tokens, of the configured URL followed by the sorted form parameters. *)
Definition twilio_signed (cfg : VerifierConfig) (body : list Z) (header : gmap string string) (url : string) : Prop :=
  url <> "" /\ exists token params, token ∈ TwilioAuthTokens cfg /\ token <> ""
    /\ ParseQuery (Pagination.of_bytes body) = inl params
    /\ StdDecodeString (trim_space (header_get header TwilioSignatureHeader))
       = Some (hmac_sha1 (str_bytes token) (str_bytes (twilio_text url params))).

Lemma VerifyTwilio_exact cfg body header url :
  VerifyTwilio cfg body header url = None <-> twilio_signed cfg body header url.
Proof.
  unfold VerifyTwilio, twilio_signed. split.
  - destruct (is_empty url) eqn:Eu; [done|]. apply is_empty_false in Eu. split; [done|].
    destruct (List.filter _ (TwilioAuthTokens cfg)) as [|t ts] eqn:Ef; [done|].
    destruct (StdDecodeString _) as [provided|] eqn:Ed; [|done].
    destruct (negb (length provided =? 20)%nat); [done|].
    destruct (ParseQuery _) as [params|] eqn:Ep; [|done].
    destruct (existsb _ _) eqn:Ex; [|done]. apply existsb_exists in Ex as (token & Hin & Hb).
    apply bool_decide_eq_true in Hb. rewrite <- Ef in Hin. apply filter_In in Hin as [Hin Hne].
    exists token, params. rewrite Hb. apply negb_true_iff, is_empty_false in Hne.
    by rewrite list_elem_of_In.
  - intros (Hu & token & params & Hin & Hne & Hp & Hd). rewrite (proj2 (is_empty_false _) Hu), Hd, Hp.
    assert (In token (List.filter (fun t => negb (is_empty t)) (TwilioAuthTokens cfg))) as Hin'.
    { apply filter_In. split; [by apply list_elem_of_In|]. by apply negb_true_iff, is_empty_false. }
    destruct (List.filter _ (TwilioAuthTokens cfg)) as [|t ts] eqn:Ef; [done|].
    unfold hmac_sha1 at 1. rewrite length_Sum1. cbn [Nat.eqb negb].
    rewrite (proj2 (existsb_exists _ _)); [done|]. exists token. split; [done|]. by apply bool_decide_eq_true.
Qed.

(** The order of the form's parameters does not matter. *)
Definition pair_le (p q : string * string) : Prop :=
  p.1 <> q.1 /\ string_le p.1 q.1 \/ p.1 = q.1 /\ string_le p.2 q.2.

Lemma string_le_antisym a b : string_le a b -> string_le b a -> a = b.
Proof.
  unfold string_le, String.leb. rewrite (String.compare_antisym a b).
  destruct (String.compare b a) eqn:E; [|done..]. intros _ _. symmetry. by apply String.compare_eq_iff.
Qed.

Lemma not_less_pair p q : not_less pair_before p q <-> pair_le p q.
Proof.
  unfold not_less, pair_before, pair_le. rewrite String.eqb_sym.
  destruct (String.eqb_spec p.1 q.1) as [->|Hne]; rewrite string_ltb_false; naive_solver.
Qed.

Lemma pair_le_trans p q r : pair_le p q -> pair_le q r -> pair_le p r.
Proof.
  unfold pair_le. intros [[Hn H1]|[E1 H1]] [[Hn' H2]|[E2 H2]].
  - left. split; [|by eapply string_le_trans]. intros E. rewrite <- E in H2. by apply Hn, string_le_antisym.
  - left. rewrite <- E2. done.
  - left. rewrite E1. done.
  - right. split; [congruence|by eapply string_le_trans].
Qed.

Lemma pair_le_antisym p q : pair_le p q -> pair_le q p -> p = q.
Proof.
  destruct p as [a b], q as [c d]. unfold pair_le. simpl. intros [[Hn H1]|[E1 H1]] [[Hn' H2]|[E2 H2]]; subst; try done.
  - by destruct Hn; apply string_le_antisym.
  - f_equal. by apply string_le_antisym.
Qed.

Lemma twilio_text_perm url l l' : Permutation l l' -> twilio_text url l = twilio_text url l'.
Proof.
  intros Hp. unfold twilio_text. f_equal.
  assert (forall l, StronglySorted (not_less pair_before) (stable_sort pair_before l)) as Hs.
  { intros x. apply stable_sort_Sorted.
    - intros p q r. rewrite !not_less_pair. apply pair_le_trans.
    - intros p q. unfold pair_before. rewrite (String.eqb_sym q.1). destruct (String.eqb p.1 q.1); apply string_ltb_asym. }
  apply (StronglySorted_unique_strong (not_less pair_before)); [|apply Hs..|].
  - intros p q _ _. rewrite !not_less_pair. apply pair_le_antisym.
  - by rewrite !stable_sort_Permutation.
Qed.

(** The peer the trusted edge saw is in an entry of the allowlist that names a
    network. *)
Definition peer_allowed (cfg : VerifierConfig) (header : gmap string string) : Prop :=
  exists peer entry prefix, peerAddr cfg header = Some peer /\ entry ∈ ATAllowedCIDRs cfg
    /\ ParsePrefix (trim_space entry) = Some prefix /\ prefix = Masked prefix /\ Contains prefix peer = true.

Lemma VerifyAfricasTalking_exact cfg body header url :
  VerifyAfricasTalking cfg body header url = None
  <-> ATAllowedCIDRs cfg = [] \/ peer_allowed cfg header.
Proof.
  unfold VerifyAfricasTalking, peer_allowed. destruct (ATAllowedCIDRs cfg) as [|x l] eqn:El.
  { split; [by left|done]. }
  destruct (peerAddr cfg header) as [peer|].
  2:{ split; [done|]. intros [?|(? & ? & ? & ? & _)]; done. }
  destruct (existsb (entry_allows peer) (x :: l)) eqn:Ex.
  - split; [intros _; right|done]. apply existsb_exists in Ex as (entry & Hin & Ha).
    unfold entry_allows in Ha. destruct (ParsePrefix _) as [prefix|] eqn:Ep; [|done].
    apply andb_true_iff in Ha as [Hm Hc]. apply bool_decide_eq_true in Hm.
    exists peer, entry, prefix. by rewrite list_elem_of_In.
  - split; [done|]. intros [?|(peer' & entry & prefix & [= <-] & Hin & Hp & Hm & Hc)]; [done|].
    apply not_true_iff_false in Ex. destruct Ex. apply existsb_exists. exists entry.
    split; [by apply list_elem_of_In|]. unfold entry_allows. rewrite Hp, Hc.
    by rewrite bool_decide_eq_true_2.
Qed.

(** What a caller writes before the last comma changes nothing. *)
Lemma forged_prefix_ignored cfg header v junk :
  has_byte v "," = false -> v <> "" ->
  header_get header (peerIPHeaderName cfg) = junk +:+ "," +:+ v ->
  peerAddr cfg header = peerAddr cfg (<[peerIPHeaderName cfg := v]> header).
Proof.
  intros Hv Hne Hh. unfold peerAddr. rewrite Hh. unfold header_get. rewrite lookup_insert_eq. cbn [default].
  change (id v) with v. rewrite (proj2 (is_empty_false v) Hne).
  assert (is_empty (junk +:+ "," +:+ v) = false) as -> by (by destruct junk).
  assert (forall t, has_byte t "," = false -> split_last t "," = None) as Hnone.
  { induction t as [|a t IH]; [done|]. cbn [has_byte split_last]. intros [Ha Ht]%orb_false_iff.
    by rewrite (IH Ht), Ha. }
  rewrite (Hnone v Hv).
  clear Hh. assert (split_last (junk +:+ "," +:+ v) "," = Some (junk, v)) as ->; [|done].
  induction junk as [|a junk IH].
  - change ("" +:+ "," +:+ v) with (String "," v). cbn [split_last]. rewrite (Hnone v Hv). reflexivity.
  - change (String a junk +:+ "," +:+ v) with (String a (junk +:+ "," +:+ v)). cbn [split_last]. by rewrite IH.
Qed.

(** What authenticates a delivery behind the default registry. *)
Definition genuine `{Unicode} (secret : string) (cfg : VerifierConfig) (provider body : string)
    (header : gmap string string) : Prop :=
  let p := normalizeProvider provider in
  if String.eqb p ProviderTwilio then
    twilio_signed cfg (str_bytes body) header (externalURLFor cfg provider)
  else if String.eqb p ProviderWhatsAppCloud then
    WhatsAppAppSecret cfg <> ""
    /\ to_lower (stake 7 (header_get header WhatsAppSignatureHeader)) = whatsappSigPrefix
    /\ hex_decode (sdrop 7 (header_get header WhatsAppSignatureHeader))
       = Some (hmac_sha256 (str_bytes (WhatsAppAppSecret cfg)) (str_bytes body))
  else if String.eqb p ProviderAfricasTalking then ATAllowedCIDRs cfg = [] \/ peer_allowed cfg header
  else secret <> "" /\ header_get header SignatureHeader = ComputeSignature secret body.

Lemma registry_lookup `{U : Unicode} secret cfg p :
  g_verifiers (NewGatewayWithVerifiers secret DefaultRegistry cfg) !! p
  = if String.eqb p ProviderTwilio then Some VerifyTwilio
    else if String.eqb p ProviderWhatsAppCloud then Some VerifyWhatsAppCloud
    else if String.eqb p ProviderAfricasTalking then Some VerifyAfricasTalking
    else None.
Proof.
  change (g_verifiers (NewGatewayWithVerifiers secret DefaultRegistry cfg))
    with (<[ProviderAfricasTalking := VerifyAfricasTalking]>
           (<[ProviderWhatsAppCloud := VerifyWhatsAppCloud]>
             (<[ProviderTwilio := VerifyTwilio]> (∅ : gmap string VerifyFunc)))).
  destruct (String.eqb_spec p ProviderTwilio) as [->|]; [done|].
  destruct (String.eqb_spec p ProviderWhatsAppCloud) as [->|]; [done|].
  destruct (String.eqb_spec p ProviderAfricasTalking) as [->|]; [done|].
  by rewrite !lookup_insert_ne.
Qed.

Lemma authorized_genuine `{U : Unicode} secret cfg provider body header :
  authorized (NewGatewayWithVerifiers secret DefaultRegistry cfg) provider body header = true
  <-> genuine secret cfg provider body header.
Proof.
  unfold authorized, genuine. rewrite registry_lookup.
  assert (forall (r : option Error) (P : Prop), (r = None <-> P) ->
    match r with None => true | Some _ => false end = true <-> P) as Hr by (intros []; naive_solver).
  destruct (String.eqb _ ProviderTwilio); [apply Hr, VerifyTwilio_exact|].
  destruct (String.eqb _ ProviderWhatsAppCloud).
  { apply Hr, whatsapp_verifier_exact. }
  destruct (String.eqb _ ProviderAfricasTalking); [apply Hr, VerifyAfricasTalking_exact|].
  unfold ValidateSignature. cbn [g_secret NewGatewayWithVerifiers SetVerifiers NewGateway].
  destruct (is_empty secret) eqn:Es.
  - apply is_empty_true in Es. naive_solver.
  - apply is_empty_false in Es. rewrite String.eqb_eq. naive_solver.
Qed.

(** C13. Every provider behind its own scheme. With the default registry, a
    delivery changes the ledger or is acknowledged exactly under its
    provider's proof: for Twilio the HMAC-SHA1 of the configured URL and the
    sorted form parameters under a non-empty token, in whatever order the form
    lists them; for WhatsApp the HMAC-SHA256 of the body under the app secret;
    for Africa's Talking a peer in a well-formed entry of the allowlist, read
    from the header's last entry whatever a caller wrote before it, or no
    allowlist at all; for everyone else the platform's signature. *)
Theorem registry_fails_closed `{U : Unicode} secret cfg json_valid provider body header e s :
  let g := NewGatewayWithVerifiers secret DefaultRegistry cfg in
  (let '(res, s') := IngestHeaders g json_valid provider body header e s in
   (committed s' <> committed s \/ exists r, res = Ok r) -> genuine secret cfg provider body header)
  /\ (authorized g provider body header = true <-> genuine secret cfg provider body header)
  /\ (forall url l l', Permutation l l' -> twilio_text url l = twilio_text url l')
  /\ (forall v junk, has_byte v "," = false -> v <> "" ->
        header_get header (peerIPHeaderName cfg) = junk +:+ "," +:+ v ->
        peerAddr cfg header = peerAddr cfg (<[peerIPHeaderName cfg := v]> header)).
Proof.
  intros g. split; [|split; [apply authorized_genuine|split; [apply twilio_text_perm|]]].
  - enough (wp (IngestHeaders g json_valid provider body header) e s (fun res s' =>
      (committed s' <> committed s \/ exists r, res = Ok r) -> genuine secret cfg provider body header)) as Hw
      by exact Hw.
    apply wp_IngestHeaders.
    + intros x s' -> [?|[r ?]]; done.
    + intros r s' Ha _ _ _ _ _. by apply authorized_genuine.
  - intros v junk. apply forged_prefix_ignored.
Qed.
