(* ===== verification/WaCloud.v ===== *)
(** * internal/messaging/adapters/whatsappcloud: the WhatsApp Cloud adapter

    provider.go (construction, payloads, sends), client.go (the bounded retry
    loop over the Graph API), errors.go (Graph failures as application
    errors), webhook.go (status receipts) and ledger.go (message ids back to
    interactions).

    [encoding/json], [net/url], time formatting, the HTTP client and the sleep
    are parameters ([WaPorts]); the last two answer by everything the adapter
    did before, so a theorem over all of them covers every carrier. A success
    envelope is the list of its message ids, a status body the statuses of its
    entries and changes. *)

From Stdlib Require Import String Ascii.
From S2P Require Import Prelude GoStd AppErrors Store Comms Text NetIP Planes.

Local Open Scope Z_scope.

(** ** ledger.go *)

Record msgRef := MkMsgRef {
  interactionID : string;
  tenantID : string;
}.

(** [byWAMID] *)
Notation msgLedger := (gmap string msgRef).

Definition remember (wamid interactionID tenantID : string) (l : msgLedger) : msgLedger :=
  if is_empty wamid then l else <[wamid := MkMsgRef interactionID tenantID]> l.

(** ** errors.go *)

Record graphError := MkGraphError {
  ge_Message : string;
  ge_Type : string;
  ge_Code : Z;
  ge_ErrorSubcode : Z;
  ge_FBTraceID : string;
  (** [error_data]: product and details *)
  ge_ErrorData : option (string * string);
}.

Definition details (g : graphError) : string :=
  match ge_ErrorData g with Some d => d.2 | None => "" end.

Definition codeWindowClosed : Z := 131047.
Definition codeRateLimitHit : Z := 130429.
Definition codeRateLimitLegacy : Z := 80007.
Definition codeUndeliverable : Z := 131026.
Definition codeAuthFailed : Z := 190.

(** The typed errors, without the application error each carries. *)
Inductive graphFailure :=
| ProviderError (HTTPStatus Code : Z) (ErrType Message Details FBTraceID : string)
| WindowClosedError (ProviderCode : Z) (Detail FBTraceID : string)
| RateLimitedError (ProviderCode RetryAfter : Z) (FBTraceID : string)
| UndeliverableError (ProviderCode : Z) (Detail FBTraceID : string)
| AuthFailedError (ProviderCode : Z) (FBTraceID : string).

(** [appErr], but for the cause [providerError] puts into it. *)
Definition appErr (f : graphFailure) : Error :=
  match f with
  | ProviderError _ _ _ _ _ _ => Internal "whatsapp.provider_error" "provider rejected the request"
  | WindowClosedError _ _ _ =>
      Conflict "whatsapp.window_closed"
        "free-form messaging is only allowed within 24 hours of the customer's last message; send an approved template instead (SendTemplate)"
  | RateLimitedError _ _ _ =>
      RateLimited "whatsapp.rate_limited" "provider rate limit exceeded; retry with backoff"
  | UndeliverableError _ _ _ =>
      Invalid "whatsapp.undeliverable"
        "recipient cannot receive WhatsApp messages; verify the number before retrying"
  | AuthFailedError _ _ =>
      Unauth "whatsapp.auth_failed" "provider rejected the access token; rotate the credential"
  end.

(** The [Error] methods. *)
Definition failure_text (f : graphFailure) : string :=
  match f with
  | ProviderError status code type message _ trace =>
      "whatsapp.provider_error: graph status=" +:+ itoa status +:+ " code=" +:+ itoa code
        +:+ " type=" +:+ quote type +:+ " trace=" +:+ trace +:+ ": " +:+ message
  | f => error_text (AppErr (appErr f))
  end.

(** An error the adapter returns. *)
Inductive sendError :=
| Typed (f : graphFailure)
| Plain (err : error).

(** ** The chain of an error

    The objects [errors.As] and [errors.Is] walk over: a typed error, the
    application error it carries, any other error. *)
Inductive node :=
| NTyped (f : graphFailure)
| NApp (f : graphFailure)
| NOther (err : error).

Definition err_node (e : sendError) : node :=
  match e with Typed f => NTyped f | Plain err => NOther err end.

(** [errors.Unwrap]. [providerError] makes the typed error the cause of the
    application error it unwraps to. *)
Definition node_Unwrap (n : node) : option node :=
  match n with
  | NTyped f => Some (NApp f)
  | NApp (ProviderError s c t m d tr) => Some (NTyped (ProviderError s c t m d tr))
  | NApp _ => None
  | NOther (OtherErr _ c) => option_map NOther c
  | NOther (AppErr e) => option_map NOther (wrapped e)
  end.

(** The loop of [errors.As]: [None] when [fuel] turns were not enough. *)
Fixpoint find_in_chain (fuel : nat) (is_target : node -> bool) (n : node) : option (option node) :=
  match fuel with
  | O => None
  | S fuel =>
      if is_target n then Some (Some n)
      else match node_Unwrap n with
           | None => Some None
           | Some n' => find_in_chain fuel is_target n'
           end
  end.

Definition is_app_error (n : node) : bool :=
  match n with NApp _ | NOther (AppErr _) => true | _ => false end.

Definition is_window_closed (n : node) : bool :=
  match n with NTyped (WindowClosedError _ _ _) => true | _ => false end.

(** The value a caller outside the package sees; the chain of a [ProviderError]
    is cut where it comes back to itself. *)
Definition to_error (e : sendError) : error :=
  match e with
  | Typed f => OtherErr (failure_text f) (Some (AppErr (appErr f)))
  | Plain err => err
  end.

(** ** client.go *)

Definition maxResponseBodyBytes : Z := 64 * 1024.

(** [RetryPolicy] without the sleep, which is a port. *)
Record RetryPolicy := MkRetryPolicy {
  MaxAttempts : Z;
  BaseDelay : Z;
  MaxDelay : Z;
}.

Definition withDefaults (r : RetryPolicy) : RetryPolicy :=
  MkRetryPolicy (if MaxAttempts r <=? 0 then 3 else MaxAttempts r)
    (if BaseDelay r <=? 0 then 200 * Millisecond else BaseDelay r)
    (if MaxDelay r <=? 0 then 2 * Second else MaxDelay r).

Record graphClient := MkGraphClient {
  baseURL : string;
  phoneNumberID : string;
  token : string;
  retry : RetryPolicy;
}.

Definition endpoint (c : graphClient) : string :=
  trim_suffix (baseURL c) "/" +:+ "/" +:+ phoneNumberID c +:+ "/messages".

Record graphAttempt := MkGraphAttempt {
  ga_err : sendError;
  ga_retryable : bool;
  ga_retryAfter : Z;
}.

(** The ids of [messages]. *)
Definition sendResponse := list string.

Definition messageID (r : sendResponse) : string + sendError :=
  match r with
  | id :: _ =>
      if is_empty id then
        inr (Plain (AppErr (Internal "whatsapp.malformed_send_response"
               "provider accepted the message but returned no message id")))
      else inl id
  | [] =>
      inr (Plain (AppErr (Internal "whatsapp.malformed_send_response"
             "provider accepted the message but returned no message id")))
  end.

Definition maxSeconds : Z := int64_max / Second.

Definition retryAfterSeconds (v : string) : Z :=
  match atoi (trim_space v) with
  | None => 0
  | Some secs =>
      if secs <=? 0 then 0
      else if maxSeconds <? secs then int64_max
      else secs * Second
  end.

(** The wait before attempt number [attempt]. *)
Definition backoff (r : RetryPolicy) (attempt retryAfter : Z) : Z :=
  if 0 <? retryAfter then
    if MaxDelay r <? retryAfter then MaxDelay r else retryAfter
  else
    let d := wrap64 (Z.shiftl (BaseDelay r) (attempt - 1)) in
    if (d <=? 0) || (MaxDelay r <? d) then MaxDelay r else d.

(** One HTTP exchange: building the request, [http.Client.Do], reading the
    body. *)
Inductive Outcome :=
| BuildFailed (err : error)
| TransportFailed (err : error)
| ReadFailed (err : error)
| Response (status : Z) (retryAfterHeader body : string).

(** What the adapter did, oldest first. *)
Inductive Act :=
| Slept (d : Z)
| Posted (url body : string).

(** ** webhook.go: the receipts *)

Record graphStatusError := MkGraphStatusError {
  gse_Code : Z;
  gse_Title : string;
  gse_Message : string;
  gse_ErrorData : option (string * string);
}.

Record graphStatus := MkGraphStatus {
  gs_ID : string;
  gs_Status : string;
  gs_Timestamp : string;
  gs_Errors : list graphStatusError;
}.

(** [Entry], [Changes], [Statuses] *)
Definition statusWebhook := list (list (list graphStatus)).

(** ** Ports *)

(** The parts of a [url.URL] the adapter looks at. *)
Record URL := MkURL {
  Scheme : string;
  Host : string;
  has_User : bool;
  Path : string;
}.

Class WaPorts := {
  json_payload : dict -> string + error;
  wa_events :: EventJSON;
  json_sendResponse : string -> sendResponse + error;
  (** the [error] member of a failed response, when it parses *)
  parseGraphError : string -> option graphError;
  json_statusWebhook : string -> statusWebhook + error;
  url_Parse : string -> option URL;
  (** [time.Unix(secs, 0).UTC().Format(time.RFC3339)] *)
  rfc3339 : Z -> string;
  http_Do : list Act -> string -> string -> Outcome;
  retry_Sleep : list Act -> Z -> option error;
}.

(** ** errors.go: classification *)

Definition nonEmpty (v fallback : string) : string := if is_empty v then fallback else v.

Definition providerError (status : Z) (ge : option graphError) : graphFailure :=
  match ge with
  | Some ge =>
      ProviderError status (ge_Code ge) (nonEmpty (ge_Type ge) "unknown") (ge_Message ge) (details ge)
        (nonEmpty (ge_FBTraceID ge) "unknown")
  | None =>
      ProviderError status 0 "unknown"
        ("provider returned HTTP " +:+ itoa status +:+ " with a non-Graph error body") "" "unknown"
  end.

Definition newRateLimitedError (ge : option graphError) (after : Z) : graphFailure :=
  match ge with
  | Some ge => RateLimitedError (ge_Code ge) after (ge_FBTraceID ge)
  | None => RateLimitedError 0 after ""
  end.

Definition newAuthFailedError (ge : option graphError) : graphFailure :=
  match ge with
  | Some ge => AuthFailedError (ge_Code ge) (ge_FBTraceID ge)
  | None => AuthFailedError 0 ""
  end.

(** [mapGraphError], over the parsed body and the Retry-After header. *)
Definition mapGraphError (status : Z) (ge : option graphError) (header : string) : graphAttempt :=
  let after := retryAfterSeconds header in
  match ge with
  | Some g =>
      if ge_Code g =? codeWindowClosed then
        MkGraphAttempt (Typed (WindowClosedError (ge_Code g) (details g) (ge_FBTraceID g))) false 0
      else if (ge_Code g =? codeRateLimitHit) || (ge_Code g =? codeRateLimitLegacy) then
        MkGraphAttempt (Typed (newRateLimitedError ge after)) true after
      else if ge_Code g =? codeUndeliverable then
        MkGraphAttempt (Typed (UndeliverableError (ge_Code g) (details g) (ge_FBTraceID g))) false 0
      else if (ge_Code g =? codeAuthFailed) || (status =? 401) then
        MkGraphAttempt (Typed (newAuthFailedError ge)) false 0
      else if status =? 429 then
        MkGraphAttempt (Typed (newRateLimitedError ge after)) true after
      else MkGraphAttempt (Typed (providerError status ge)) (500 <=? status) 0
  | None =>
      if status =? 401 then MkGraphAttempt (Typed (newAuthFailedError ge)) false 0
      else if status =? 429 then
        MkGraphAttempt (Typed (newRateLimitedError ge after)) true after
      else MkGraphAttempt (Typed (providerError status ge)) (500 <=? status) 0
  end.

(** ** provider.go: construction *)

Definition DefaultAPIBaseURL := "https://graph.facebook.com/v21.0".
Definition ProviderName := "whatsappcloud".

(** [Config]; the ingest hook and the signer are wired or not. *)
Record Config := MkConfig {
  PhoneNumberID : string;
  AccessToken : string;
  APIBaseURL : string;
  has_Ingest : bool;
  has_Signer : bool;
  Retry : RetryPolicy;
}.

(** [New]: the client of the provider; its ledger starts empty. *)
Definition New (cfg : Config) : graphClient + Error :=
  if is_empty (trim_space (PhoneNumberID cfg)) then
    inr (Invalid "whatsapp.phone_number_id_required"
           "WhatsApp Cloud phone number id is required (ORVEXA_WHATSAPP_PHONE_NUMBER_ID)")
  else if is_empty (AccessToken cfg) then
    inr (Invalid "whatsapp.access_token_required"
           "WhatsApp Cloud access token is required (ORVEXA_WHATSAPP_ACCESS_TOKEN)")
  else if negb (has_Ingest cfg) then
    inr (Invalid "whatsapp.ingest_required"
           "webhook ingest hook is required: status receipts must flow through the signed delivery path")
  else if negb (has_Signer cfg) then
    inr (Invalid "whatsapp.signer_required"
           "webhook signer is required: every delivery must be signed (fail-closed gateway)")
  else inl (MkGraphClient (APIBaseURL cfg) (PhoneNumberID cfg) (AccessToken cfg) (withDefaults (Retry cfg))).

(** ** provider.go: payloads *)

Definition normalizeRecipient (to : string) : string := trim_prefix (trim_space to) "+".

Definition mediaExtensions : list (string * string) :=
  [(".jpg", "image"); (".jpeg", "image"); (".png", "image"); (".webp", "image");
   (".mp4", "video"); (".3gp", "video");
   (".mp3", "audio"); (".m4a", "audio"); (".aac", "audio"); (".amr", "audio"); (".ogg", "audio")].

Definition captionCapable (mediaType : string) : bool :=
  String.eqb mediaType "image" || String.eqb mediaType "video" || String.eqb mediaType "document".

(** [path.Ext] *)
Definition path_Ext (p : string) : string :=
  let segment := match split_last p "/" with Some (_, t) => t | None => p end in
  match split_last segment "." with Some (_, t) => String "." t | None => "" end.

Definition media_scheme (msg : string) : Error := Invalid "whatsapp.media_scheme" msg.

Section Adapter.
Context `{WaPorts}.

(** Lower-casing is ASCII: no other character becomes a letter of a known
    extension. *)
Definition classifyMediaURL (raw : string) : string + Error :=
  match url_Parse (trim_space raw) with
  | None => inr (media_scheme "media URL must be an absolute https URL")
  | Some u =>
      if is_empty (Scheme u) then inr (media_scheme "media URL must be an absolute https URL")
      else if negb (String.eqb (Scheme u) "https") then
        inr (media_scheme "media URL scheme must be https (Meta fetches the link server-side)")
      else if is_empty (Host u) then inr (media_scheme "media URL must carry a host")
      else if has_User u then
        inr (media_scheme "media URL must not embed credentials (user:pass)")
      else
        match List.find (fun kv => String.eqb kv.1 (to_lower (path_Ext (Path u)))) mediaExtensions with
        | Some kv => inl kv.2
        | None => inl "document"
        end
  end.

Definition buildMessagePayload (msg : Message) : dict + Error :=
  let base := [("messaging_product", VStr "whatsapp"); ("recipient_type", VStr "individual");
               ("to", VStr (normalizeRecipient (msg_To msg)))] in
  match msg_MediaURLs msg with
  | [] => inl (base ++ [("type", VStr "text"); ("text", VMap [("body", VStr (msg_Body msg))])])
  | [link] =>
      match classifyMediaURL link with
      | inr err => inr err
      | inl mediaType =>
          let media caption := base ++ [("type", VStr mediaType);
                                        (mediaType, VMap (("link", VStr link) :: caption))] in
          if is_empty (msg_Body msg) then inl (media [])
          else if negb (captionCapable mediaType) then
            inr (Invalid "whatsapp.media_caption_unsupported"
                   ("message body cannot ride along as a caption on a " +:+ mediaType
                      +:+ " attachment; send the text separately"))
          else inl (media [("caption", VStr (msg_Body msg))])
      end
  | _ =>
      inr (Invalid "whatsapp.media_single"
             "WhatsApp Cloud carries one media attachment per message; send additional attachments as separate messages")
  end.

(** [Components] are raw JSON values. *)
Record TemplateRequest := MkTemplateRequest {
  t_InteractionID : string;
  t_TenantID : string;
  t_To : string;
  t_TemplateName : string;
  t_LanguageCode : string;
  t_BodyParams : list string;
  t_Components : list any;
}.

Definition templateObject (t : TemplateRequest) : dict :=
  let params := map (fun v => VMap [("type", VStr "text"); ("text", VStr v)]) (t_BodyParams t) in
  let body := if no_items (t_BodyParams t) then []
              else [VMap [("type", VStr "body"); ("parameters", VList params)]] in
  let components := body ++ t_Components t in
  [("name", VStr (t_TemplateName t)); ("language", VMap [("code", VStr (t_LanguageCode t))])]
    ++ (if no_items components then [] else [("components", VList components)]).

Definition template_checks (t : TemplateRequest) : option Error :=
  if is_empty (t_TenantID t) then
    Some (Invalid "whatsapp.tenant_required"
            "tenant context is required: receipts must be scoped to a tenant")
  else if is_empty (trim_space (t_InteractionID t)) then
    Some (Invalid "whatsapp.interaction_required" "interaction id is required for template sends")
  else if is_empty (trim_space (t_To t)) then
    Some (Invalid "whatsapp.to_required" "destination is required")
  else if is_empty (trim_space (t_TemplateName t)) then
    Some (Invalid "whatsapp.template_name_required"
            "template name is required (approved template from Meta Business Manager)")
  else if is_empty (trim_space (t_LanguageCode t)) then
    Some (Invalid "whatsapp.template_language_required"
            "template language code is required (Graph rejects language-less template sends)")
  else None.

(** ** client.go: requests *)

(** What is read of a response body. *)
Definition limit_body (body : string) : string := stake (Z.to_nat maxResponseBodyBytes) body.

Definition app_attempt (code msg : string) (cause : error) : graphAttempt :=
  MkGraphAttempt (Plain (AppErr (WithCause (Internal code msg) cause))) false 0.

(** The answer to one attempt. *)
Definition classify (o : Outcome) : sendResponse + graphAttempt :=
  match o with
  | BuildFailed err => inr (app_attempt "whatsapp.request_build_failed" "request could not be built" err)
  | TransportFailed err => inr (MkGraphAttempt (Plain err) false 0)
  | ReadFailed err => inr (app_attempt "whatsapp.response_read_failed" "provider response could not be read" err)
  | Response status header body =>
      let body := limit_body body in
      if (200 <=? status) && (status <? 300) then
        match json_sendResponse body with
        | inl out => inl out
        | inr err =>
            inr (app_attempt "whatsapp.malformed_send_response"
                   "provider returned an unparsable success envelope" err)
        end
      else inr (mapGraphError status (parseGraphError body) header)
  end.

Definition postOnce (c : graphClient) (body : string) (log : list Act)
    : (sendResponse + graphAttempt) * list Act :=
  (classify (http_Do log (endpoint c) body), log ++ [Posted (endpoint c) body]).

(** The loop of [post] from attempt number [attempt] on, with [more] attempts
    after this one. *)
Fixpoint attempts (more : nat) (c : graphClient) (body : string) (attempt : Z) (log : list Act)
    : (sendResponse + sendError) * list Act :=
  let '(r, log) := postOnce c body log in
  match r with
  | inl resp => (inl resp, log)
  | inr last =>
      if negb (ga_retryable last) then (inr (ga_err last), log)
      else
        match more with
        | O => (inr (ga_err last), log)
        | S more =>
            let d := backoff (retry c) (attempt + 1) (ga_retryAfter last) in
            match retry_Sleep log d with
            | Some err => (inr (Plain err), log ++ [Slept d])
            | None => attempts more c body (attempt + 1) (log ++ [Slept d])
            end
        end
  end.

(** [post]; [MaxAttempts] is at least one ([withDefaults]). *)
Definition post (c : graphClient) (payload : dict) (log : list Act) : (sendResponse + sendError) * list Act :=
  match json_payload payload with
  | inr err =>
      (inr (Plain (AppErr (WithCause (Internal "whatsapp.payload_marshal_failed"
                                       "request could not be encoded") err))), log)
  | inl body => attempts (Z.to_nat (MaxAttempts (retry c) - 1)) c body 0 log
  end.

(** ** provider.go: sends *)

(** The adapter's state: the ledger and what it did. *)
Record Provider := MkProvider {
  ledger : msgLedger;
  trace : list Act;
}.

(** Post a payload and remember the message id. *)
Definition send_payload (c : graphClient) (payload : dict) (interactionID tenantID : string) (p : Provider)
    : option sendError * Provider :=
  let '(r, log) := post c payload (trace p) in
  match r with
  | inr err => (Some err, MkProvider (ledger p) log)
  | inl resp =>
      match messageID resp with
      | inr err => (Some err, MkProvider (ledger p) log)
      | inl wamid => (None, MkProvider (remember wamid interactionID tenantID (ledger p)) log)
      end
  end.

Definition Send (c : graphClient) (msg : Message) (p : Provider) : option sendError * Provider :=
  if is_empty (msg_TenantID msg) then
    (Some (Plain (AppErr (Invalid "whatsapp.tenant_required"
                            "tenant context is required: receipts must be scoped to a tenant"))), p)
  else
  match ValidateMessage msg with
  | Some err => (Some (Plain (AppErr err)), p)
  | None =>
      match buildMessagePayload msg with
      | inr err => (Some (Plain (AppErr err)), p)
      | inl payload => send_payload c payload (msg_InteractionID msg) (msg_TenantID msg) p
      end
  end.

Definition SendTemplate (c : graphClient) (t : TemplateRequest) (p : Provider) : option sendError * Provider :=
  match template_checks t with
  | Some err => (Some (Plain (AppErr err)), p)
  | None =>
      send_payload c
        [("messaging_product", VStr "whatsapp"); ("recipient_type", VStr "individual");
         ("to", VStr (normalizeRecipient (t_To t))); ("type", VStr "template");
         ("template", VMap (templateObject t))]
        (t_InteractionID t) (t_TenantID t) p
  end.

(** ** webhook.go *)

Definition statusEventNames : list (string * string) :=
  [("sent", "message.sent"); ("delivered", "message.delivered"); ("read", "message.read");
   ("failed", "message.failed")].

Definition event_name (status : string) : option string :=
  option_map snd (List.find (fun kv => String.eqb kv.1 status) statusEventNames).

Definition statusTimestamp (raw : string) : string :=
  let raw := trim_space raw in
  if is_empty raw then "" else
  match atoi raw with
  | None => ""
  | Some secs => if secs <? 0 then "" else rfc3339 secs
  end.

Definition failureDetail (errs : list graphStatusError) : string :=
  match errs with
  | [] => "provider reported failure without error details"
  | e :: _ =>
      let title := gse_Title e in
      let message := gse_Message e in
      "graph code " +:+ itoa (gse_Code e)
        +:+ (if negb (is_empty title) && negb (is_empty message) && negb (String.eqb title message) then
               ": " +:+ title +:+ ": " +:+ message
             else if negb (is_empty title) then ": " +:+ title
             else if negb (is_empty message) then ": " +:+ message
             else "")
        +:+ match gse_ErrorData e with
            | Some d => if is_empty d.2 then "" else " (" +:+ d.2 +:+ ")"
            | None => ""
            end
  end.

(** [StatusResolver] *)
Definition StatusResolver := string -> option (string * string).

Definition translateStatus (st : graphStatus) (resolve : StatusResolver) : ProviderEvent + Error :=
  if is_empty (gs_ID st) then
    inr (Invalid "whatsapp.webhook_status_missing_id"
           "statuses entry carries no message id; receipts cannot be correlated")
  else
  match event_name (gs_Status st) with
  | None => inr (Invalid "whatsapp.webhook_unknown_status" ("unsupported Graph status " +:+ quote (gs_Status st)))
  | Some event =>
      let unknown := NotFound "whatsapp.unknown_message_id"
                       "status references a message id this adapter never sent; refusing to attribute it" in
      match resolve (gs_ID st) with
      | None => inr unknown
      | Some (interactionID, tenantID) =>
          if is_empty interactionID || is_empty tenantID then inr unknown
          else
            inl (MkProviderEvent event interactionID tenantID (statusTimestamp (gs_Timestamp st))
                   (if String.eqb event "message.failed" then failureDetail (gs_Errors st) else ""))
      end
  end.

(** The loop of [TranslateStatus]: the events and the errors it joins. *)
Fixpoint translate_all (sts : list graphStatus) (resolve : StatusResolver) : list ProviderEvent * list error :=
  match sts with
  | [] => ([], [])
  | x :: sts =>
      let '(events, errs) := translate_all sts resolve in
      match translateStatus x resolve with
      | inr err => (events, AppErr err :: errs)
      | inl ev => (ev :: events, errs)
      end
  end.

Definition TranslateStatus (body : string) (resolve : StatusResolver) : list ProviderEvent * list error :=
  match json_statusWebhook body with
  | inr err =>
      ([], [AppErr (WithCause (Invalid "whatsapp.webhook_malformed"
                       "webhook body is not a parsable Graph statuses payload") err)])
  | inl wh => translate_all (concat (concat wh)) resolve
  end.

Definition resolver (l : msgLedger) : StatusResolver := fun wamid =>
  match l !! wamid with
  | Some ref => Some (interactionID ref, tenantID ref)
  | None => None
  end.

Section Delivery.
(** [cfg.Ingest], over the platform's state, and [cfg.Signer] *)
Variable Ingest : string -> string -> string -> env -> st -> option error * st.
Variable Signer : string -> string.

(** The delivery loop of [HandleWebhook]: the errors it joins. *)
Fixpoint deliver (events : list ProviderEvent) (e : env) (s : st) : list error * st :=
  match events with
  | [] => ([], s)
  | ev :: events =>
      let '(wire, s) := EncodeEvent ev e s in
      let '(errs, s) :=
        match wire with
        | inr err =>
            ([AppErr (WithCause (Internal "whatsapp.receipt_encode_failed"
                        "translated receipt could not be encoded") err)], s)
        | inl wire =>
            let '(r, s) := Ingest ProviderName wire (Signer wire) e s in
            (match r with Some err => [err] | None => [] end, s)
        end in
      let '(errs', s) := deliver events e s in
      (errs ++ errs', s)
  end.

(** [HandleWebhook]: the joined errors; none is success. *)
Definition HandleWebhook (p : Provider) (body : string) (e : env) (s : st) : list error * st :=
  let '(events, terrs) := TranslateStatus body (resolver (ledger p)) in
  let '(errs, s) := deliver events e s in
  (terrs ++ errs, s).
End Delivery.

(** The adapter behind the messaging port. *)
#[export] Instance whatsapp_messaging (c : graphClient) : MessagingProvider Provider := {
  mp_Send msg := fun _ w =>
    let '(r, p) := Send c msg w.1 in (option_map to_error r, (p, w.2));
}.
End Adapter.
