(* ===== verification/WaCloudProps.v ===== *)
(** * Properties of the WhatsApp Cloud adapter

    Sends are bounded and remembered exactly when the carrier accepted them;
    Graph failures are classified; receipts are attributed to sends; what the
    wiring makes of it. *)

From Stdlib Require Import String Ascii.
From S2P Require Import Prelude GoStd Text AppErrors Store Wp Sha256 Idempotency Webhooks Verifiers VerifiersProps.
From S2P Require Import Comms Planes WaCloud.

Local Open Scope Z_scope.

Lemma New_client cfg c : New cfg = inl c ->
  c = MkGraphClient (APIBaseURL cfg) (PhoneNumberID cfg) (AccessToken cfg) (withDefaults (Retry cfg)).
Proof.
  unfold New. destruct (is_empty (trim_space _)); [done|]. destruct (is_empty (AccessToken cfg)); [done|].
  destruct (negb (has_Ingest cfg)); [done|]. destruct (negb (has_Signer cfg)); [done|]. by intros [= <-].
Qed.

Lemma withDefaults_pos r :
  0 < MaxAttempts (withDefaults r) /\ 0 < BaseDelay (withDefaults r) /\ 0 < MaxDelay (withDefaults r).
Proof.
  unfold withDefaults, Second, Millisecond. cbn [MaxAttempts BaseDelay MaxDelay].
  repeat split; match goal with |- context [?a <=? 0] => destruct (Z.leb_spec a 0) end; lia.
Qed.

Lemma backoff_range r attempt after : 0 < MaxDelay r -> 0 < backoff r attempt after <= MaxDelay r.
Proof.
  intros Hm. unfold backoff. cbv zeta. destruct (Z.ltb_spec 0 after).
  - destruct (Z.ltb_spec (MaxDelay r) after); lia.
  - destruct (Z.leb_spec (wrap64 (Z.shiftl (BaseDelay r) (attempt - 1))) 0); [simpl; lia|].
    destruct (Z.ltb_spec (MaxDelay r) (wrap64 (Z.shiftl (BaseDelay r) (attempt - 1)))); simpl; lia.
Qed.

Section Props.
Context `{WaPorts} `{Unicode}.

(** ** The retry loop *)

Definition is_post (a : Act) : bool := match a with Posted _ _ => true | Slept _ => false end.

Definition posts (acts : list Act) : Z := Z.of_nat (length (List.filter is_post acts)).

(** An answer after which the loop goes on. *)
Definition transient (o : Outcome) : bool :=
  match classify o with inr a => ga_retryable a | inl _ => false end.

(** Only the one request is made, to the endpoint; it is repeated only after a
    transient answer; waits are positive and capped. *)
Fixpoint well_behaved (c : graphClient) (body : string) (log acts : list Act) : Prop :=
  match acts with
  | [] => True
  | a :: rest =>
      match a with
      | Slept d => 0 < d <= MaxDelay (retry c)
      | Posted url b =>
          url = endpoint c /\ b = body /\ (rest <> [] -> transient (http_Do log url b) = true)
      end
      /\ well_behaved c body (log ++ [a]) rest
  end.

Lemma attempts_spec more c body attempt log :
  0 < MaxDelay (retry c) ->
  let '(r, log') := attempts more c body attempt log in
  exists acts, log' = log ++ acts /\ well_behaved c body log acts
    /\ posts acts <= Z.of_nat more + 1
    /\ (forall resp, r = inl resp -> exists l, acts = l ++ [Posted (endpoint c) body]
          /\ classify (http_Do (log ++ l) (endpoint c) body) = inl resp).
Proof.
  intros Hm. revert attempt log. induction more as [|more IH]; intros attempt log; simpl.
  all: destruct (classify (http_Do log (endpoint c) body)) as [resp|last] eqn:Ec.
  1,3: exists [Posted (endpoint c) body]; split; [done|]; split; [done|]; split; [unfold posts; simpl; lia|];
    intros ? [= <-]; exists []; by rewrite app_nil_r.
  all: destruct (ga_retryable last) eqn:Er; simpl;
    [|exists [Posted (endpoint c) body]; split; [done|]; split; [done|]; split; [unfold posts; simpl; lia|done]].
  { exists [Posted (endpoint c) body]. split; [done|]. split; [done|]. split; [unfold posts; simpl; lia|done]. }
  assert (transient (http_Do log (endpoint c) body) = true) as Ht by (unfold transient; by rewrite Ec).
  set (d := backoff (retry c) (attempt + 1) (ga_retryAfter last)).
  pose proof (backoff_range (retry c) (attempt + 1) (ga_retryAfter last) Hm) as Hd. fold d in Hd.
  destruct (retry_Sleep _ d).
  { exists [Posted (endpoint c) body; Slept d]. split; [by rewrite <- app_assoc|].
    split; [done|]. split; [unfold posts; simpl; lia|done]. }
  specialize (IH (attempt + 1) ((log ++ [Posted (endpoint c) body]) ++ [Slept d])).
  destruct (attempts more c body (attempt + 1) _) as [r log'].
  destruct IH as (acts & -> & Hw & Hp & Hr). exists (Posted (endpoint c) body :: Slept d :: acts).
  split; [by rewrite <- !app_assoc|]. split; [done|]. split; [unfold posts in *; simpl; lia|].
  intros resp Hresp. destruct (Hr _ Hresp) as (l & -> & Hl).
  exists (Posted (endpoint c) body :: Slept d :: l). split; [done|].
  rewrite <- Hl. by rewrite <- !app_assoc.
Qed.

(** A send of either kind, with what its receipts are attributed to. *)
Inductive op :=
| OSend (msg : Message)
| OTemplate (t : TemplateRequest).

Definition do_op (c : graphClient) (o : op) (p : Provider) : option sendError * Provider :=
  match o with OSend msg => Send c msg p | OTemplate t => SendTemplate c t p end.

Definition op_ref (o : op) : msgRef :=
  match o with
  | OSend msg => MkMsgRef (msg_InteractionID msg) (msg_TenantID msg)
  | OTemplate t => MkMsgRef (t_InteractionID t) (t_TenantID t)
  end.

(** What one send does: the bounded run of the loop, then the ledger. *)
Definition send_outcome (c : graphClient) (ref : msgRef) (p : Provider) (r : option sendError) (p' : Provider)
    : Prop :=
  exists acts body, trace p' = trace p ++ acts
    /\ well_behaved c body (trace p) acts
    /\ posts acts <= MaxAttempts (retry c)
    /\ match r with
       | Some _ => ledger p' = ledger p
       | None => exists l id ids, acts = l ++ [Posted (endpoint c) body]
           /\ classify (http_Do (trace p ++ l) (endpoint c) body) = inl (id :: ids)
           /\ id <> "" /\ tenantID ref <> "" /\ interactionID ref <> ""
           /\ ledger p' = <[id := ref]> (ledger p)
       end.

Lemma send_outcome_refused c ref p err : 0 < MaxAttempts (retry c) -> send_outcome c ref p (Some err) p.
Proof.
  intros Hm. exists [], "". rewrite app_nil_r. split; [done|]. split; [done|]. split; [unfold posts; simpl; lia|done].
Qed.

Lemma send_payload_outcome c payload i t p :
  0 < MaxAttempts (retry c) -> 0 < MaxDelay (retry c) -> i <> "" -> t <> "" ->
  let '(r, p') := send_payload c payload i t p in send_outcome c (MkMsgRef i t) p r p'.
Proof.
  intros Ha Hm Hi Ht. unfold send_payload, post. destruct (json_payload payload) as [body|err].
  2:{ destruct p. by apply send_outcome_refused. }
  pose proof (attempts_spec (Z.to_nat (MaxAttempts (retry c) - 1)) c body 0 (trace p) Hm) as Hs.
  destruct (attempts _ c body 0 (trace p)) as [r log']. destruct Hs as (acts & -> & Hw & Hp & Hr).
  rewrite Z2Nat.id in Hp by lia.
  assert (forall err, send_outcome c (MkMsgRef i t) p (Some err) (MkProvider (ledger p) (trace p ++ acts))) as He.
  { intros err. exists acts, body. split; [done|]. split; [done|]. split; [lia|done]. }
  destruct r as [resp|err]; [|apply He]. destruct resp as [|id ids]; [apply He|]. unfold messageID.
  destruct (is_empty id) eqn:Eid; [apply He|]. destruct (Hr _ eq_refl) as (l & -> & Hl).
  exists (l ++ [Posted (endpoint c) body]), body. split; [done|]. split; [done|]. split; [lia|].
  exists l, id, ids. unfold remember. rewrite Eid. apply is_empty_false in Eid. done.
Qed.

Lemma ValidateMessage_interaction msg : ValidateMessage msg = None -> msg_InteractionID msg <> "".
Proof. unfold ValidateMessage. destruct (is_empty (msg_InteractionID msg)) eqn:E; [done|]. by apply is_empty_false in E. Qed.

Lemma template_checks_ids t : template_checks t = None -> t_TenantID t <> "" /\ t_InteractionID t <> "".
Proof.
  unfold template_checks. destruct (is_empty (t_TenantID t)) eqn:E; [done|]. apply is_empty_false in E.
  destruct (is_empty (trim_space (t_InteractionID t))) eqn:E2; [done|]. intros _. split; [done|].
  intros Hi. by rewrite Hi in E2.
Qed.

Lemma do_op_outcome c o p :
  0 < MaxAttempts (retry c) -> 0 < MaxDelay (retry c) ->
  let '(r, p') := do_op c o p in send_outcome c (op_ref o) p r p'.
Proof.
  intros Ha Hm. destruct o as [msg|t]; cbn [do_op op_ref].
  - unfold Send. destruct (is_empty (msg_TenantID msg)) eqn:Et; [by apply send_outcome_refused|].
    destruct (ValidateMessage msg) eqn:Ev; [by apply send_outcome_refused|].
    destruct (buildMessagePayload msg); [|by apply send_outcome_refused].
    apply send_payload_outcome; try done; [by apply ValidateMessage_interaction|by apply is_empty_false].
  - unfold SendTemplate. destruct (template_checks t) eqn:Ec; [by apply send_outcome_refused|].
    apply template_checks_ids in Ec as [Ht Hi]. by apply send_payload_outcome.
Qed.

(** ** Graph failures *)

Definition code_of (ge : option graphError) : Z := match ge with Some g => ge_Code g | None => 0 end.

Definition rate_code (code : Z) : bool := (code =? codeRateLimitHit) || (code =? codeRateLimitLegacy).

(** The class of a failed response by its HTTP status and Graph code (0 when
    the body carried none): kind, machine code, and whether it is tried again. *)
Definition graph_class (status code : Z) : Kind * string * bool :=
  if code =? codeWindowClosed then (KindConflict, "whatsapp.window_closed", false)
  else if rate_code code then (KindRateLimited, "whatsapp.rate_limited", true)
  else if code =? codeUndeliverable then (KindInvalid, "whatsapp.undeliverable", false)
  else if (code =? codeAuthFailed) || (status =? 401) then (KindUnauth, "whatsapp.auth_failed", false)
  else if status =? 429 then (KindRateLimited, "whatsapp.rate_limited", true)
  else (KindInternal, "whatsapp.provider_error", 500 <=? status).

Lemma mapGraphError_class status ge header :
  exists f, ga_err (mapGraphError status ge header) = Typed f
    /\ (ErrKind (appErr f), Code (appErr f), ga_retryable (mapGraphError status ge header))
       = graph_class status (code_of ge).
Proof.
  unfold mapGraphError, graph_class, rate_code. destruct ge as [g|]; cbn [code_of].
  - destruct (ge_Code g =? codeWindowClosed); [by eexists|].
    destruct (_ || (ge_Code g =? codeRateLimitLegacy)); [by eexists|].
    destruct (ge_Code g =? codeUndeliverable); [by eexists|].
    destruct (_ || (status =? 401)); [by eexists|]. destruct (status =? 429); by eexists.
  - simpl. destruct (status =? 401); [by eexists|]. destruct (status =? 429); by eexists.
Qed.

(** The chain of a [ProviderError] never ends. *)
Lemma chain_endless is_target status code type message det tr fuel :
  let f := ProviderError status code type message det tr in
  is_target (NTyped f) = false -> is_target (NApp f) = false ->
  find_in_chain fuel is_target (NTyped f) = None /\ find_in_chain fuel is_target (NApp f) = None.
Proof.
  intros f H1 H2. induction fuel as [|fuel [IH1 IH2]]; [done|]. cbn [find_in_chain].
  rewrite H1, H2. split; [exact IH2|exact IH1].
Qed.

(** Graph failures as application errors. Every failed response becomes a
    typed error of the class its status and Graph code have in [graph_class]:
    the 24-hour window, an undeliverable number and a refused token are never
    tried again, rate limits and 5xx are. [errors.As] reaches the application
    error in two steps. A search for any other target ends after two objects,
    except on a [ProviderError], whose chain comes back to itself: looking for
    the window error there, as the contract of that error invites to, never
    returns. *)
Lemma graph_errors_classified status header body :
  let a := mapGraphError status (parseGraphError body) header in
  exists f, ga_err a = Typed f
    /\ (ErrKind (appErr f), Code (appErr f), ga_retryable a)
       = graph_class status (code_of (parseGraphError body))
    /\ find_in_chain 2 is_app_error (NTyped f) = Some (Some (NApp f))
    /\ match f with
       | ProviderError _ _ _ _ _ _ => forall fuel, find_in_chain fuel is_window_closed (NTyped f) = None
       | _ => forall is_target, exists r, find_in_chain 2 is_target (NTyped f) = Some r
       end.
Proof.
  intros a. destruct (mapGraphError_class status (parseGraphError body) header) as (f & Hf & Hc).
  exists f. split; [exact Hf|]. split; [exact Hc|]. split; [by destruct f|].
  destruct f; [intros fuel; by apply chain_endless|..].
  all: intros is_target; simpl; repeat case_match; eauto.
Qed.

(** Bounded sends. On an adapter [New] accepted, a send of either kind, for
    every carrier, makes at most [MaxAttempts] requests, all the same request
    to the same endpoint, repeats it only after a transient answer, and waits
    a positive time of at most [MaxDelay] in between. It succeeds exactly when
    the last answer is a success envelope with a message id, and then the
    ledger maps that id to the send's interaction and tenant, both non-empty;
    a send that fails leaves the ledger as it was. *)
Lemma wa_send_bounded cfg c o p :
  New cfg = inl c ->
  let '(r, p') := do_op c o p in
  exists acts body, trace p' = trace p ++ acts
    /\ well_behaved c body (trace p) acts
    /\ posts acts <= (if MaxAttempts (Retry cfg) <=? 0 then 3 else MaxAttempts (Retry cfg))
    /\ match r with
       | Some _ => ledger p' = ledger p
       | None => exists l id ids, acts = l ++ [Posted (endpoint c) body]
           /\ classify (http_Do (trace p ++ l) (endpoint c) body) = inl (id :: ids)
           /\ id <> "" /\ tenantID (op_ref o) <> "" /\ interactionID (op_ref o) <> ""
           /\ ledger p' = <[id := op_ref o]> (ledger p)
       end.
Proof.
  intros ->%New_client. destruct (withDefaults_pos (Retry cfg)) as (Ha & _ & Hm).
  by apply do_op_outcome.
Qed.

(** ** Receipts *)

Definition run_ops (c : graphClient) (ops : list op) : Provider :=
  fold_left (fun p o => (do_op c o p).2) ops (MkProvider ∅ []).

Lemma run_ops_snoc c ops o : run_ops c (ops ++ [o]) = (do_op c o (run_ops c ops)).2.
Proof. unfold run_ops. by rewrite fold_left_app. Qed.

(** The send of the history that put the message id where it is. *)
Definition accepted_as (c : graphClient) (ops : list op) (wamid : string) (ref : msgRef) : Prop :=
  exists before o after, ops = before ++ o :: after /\ op_ref o = ref
    /\ (do_op c o (run_ops c before)).1 = None
    /\ exists log body ids, classify (http_Do log (endpoint c) body) = inl (wamid :: ids).

Lemma ledger_origin c ops wamid ref :
  0 < MaxAttempts (retry c) -> 0 < MaxDelay (retry c) ->
  ledger (run_ops c ops) !! wamid = Some ref ->
  accepted_as c ops wamid ref /\ interactionID ref <> "" /\ tenantID ref <> "".
Proof.
  intros Ha Hm. induction ops as [|o ops IH] using rev_ind; [by intros [=]|].
  rewrite run_ops_snoc. pose proof (do_op_outcome c o (run_ops c ops) Ha Hm) as Ho.
  destruct (do_op c o (run_ops c ops)) as [r p'] eqn:Ed. destruct Ho as (acts & body & _ & _ & _ & Hr). cbn [snd].
  assert (ledger (run_ops c ops) !! wamid = Some ref ->
    accepted_as c (ops ++ [o]) wamid ref /\ interactionID ref <> "" /\ tenantID ref <> "") as Hold.
  { intros (Hacc & Hne)%IH. split; [|done]. destruct Hacc as (before & o' & after & -> & Hacc).
    exists before, o', (after ++ [o]). by rewrite <- app_assoc. }
  destruct r as [err|]; [by rewrite Hr|]. destruct Hr as (l & id & ids & _ & Hc & _ & Ht & Hi & ->).
  destruct (decide (id = wamid)) as [->|Hne]; [|by rewrite lookup_insert_ne].
  rewrite lookup_insert_eq. intros [= <-]. split; [|done]. exists ops, o, []. split; [done|]. split; [done|].
  split; [by rewrite Ed|]. by eexists _, _, _.
Qed.

Definition good (resolve : StatusResolver) (x : graphStatus) : option ProviderEvent :=
  match translateStatus x resolve with inl ev => Some ev | inr _ => None end.

Lemma translate_all_good sts resolve :
  (translate_all sts resolve).1 = omap (good resolve) sts
  /\ length (translate_all sts resolve).2 = (length sts - length (omap (good resolve) sts))%nat
  /\ (length (omap (good resolve) sts) <= length sts)%nat.
Proof.
  induction sts as [|x sts (IH1 & IH2 & IH3)]; [done|]. cbn [translate_all].
  destruct (translate_all sts resolve) as [events errs]. cbn [fst snd] in IH1, IH2.
  assert (omap (good resolve) (x :: sts) = match translateStatus x resolve with
    inl ev => ev :: omap (good resolve) sts | inr _ => omap (good resolve) sts end) as ->
    by (cbn; unfold good at 1; by destruct (translateStatus x resolve)).
  rewrite IH1. destruct (translateStatus x resolve); cbn [fst snd length]; repeat split; lia.
Qed.

(** The event of a receipt: the status and the message id are in the body, and
    the interaction and tenant are those of the send the id was returned for. *)
Definition attributed (c : graphClient) (ops : list op) (body : string) (ev : ProviderEvent) : Prop :=
  exists wh x, json_statusWebhook body = inl wh /\ x ∈ concat (concat wh)
    /\ event_name (gs_Status x) = Some (ev_Event ev)
    /\ accepted_as c ops (gs_ID x) (MkMsgRef (ev_InteractionID ev) (ev_TenantID ev)).

Lemma events_attributed c ops body ev :
  0 < MaxAttempts (retry c) -> 0 < MaxDelay (retry c) ->
  ev ∈ (TranslateStatus body (resolver (ledger (run_ops c ops)))).1 -> attributed c ops body ev.
Proof.
  intros Ha Hm. unfold TranslateStatus. destruct (json_statusWebhook body) as [wh|] eqn:Ew; [|by intros ?%elem_of_nil].
  rewrite (proj1 (translate_all_good _ _)). rewrite list_elem_of_omap. intros (x & Hx & Hg).
  exists wh, x. split; [done|]. split; [done|]. unfold good, translateStatus in Hg.
  destruct (is_empty (gs_ID x)); [done|]. destruct (event_name (gs_Status x)) as [event|]; [|done].
  unfold resolver in Hg. destruct (ledger (run_ops c ops) !! gs_ID x) as [ref|] eqn:El; [|done].
  destruct (is_empty (interactionID ref) || is_empty (tenantID ref)); [done|]. injection Hg as <-.
  split; [done|]. apply ledger_origin in El as [Hacc _]; [|done..]. by destruct ref.
Qed.

(** The wiring of the ingest hook: the gateway's [Ingest]. *)
Definition gateway_ingest (g : Gateway) (json_valid : string -> bool) (provider body sig : string)
    (e : env) (s : st) : option error * st :=
  match Ingest g json_valid provider body sig e s with
  | (Ok _, s') => (None, s')
  | (Err x, s') => (Some (AppErr x), s')
  end.

Definition stamped (ev : ProviderEvent) (ts : string) : ProviderEvent :=
  MkProviderEvent (ev_Event ev) (ev_InteractionID ev) (ev_TenantID ev) ts (ev_Detail ev).

(** The ledger's key of a receipt. *)
Definition receipt_key (wire : string) : string := Derive ["webhook"; ProviderName; wire].

Definition recorded (d : DB) (ev : ProviderEvent) : Prop :=
  exists ts wire, json_event (stamped ev ts) = inl wire
    /\ existsb (same_event ProviderName (receipt_key wire)) (d_provider_events d) = true.

Definition receipt_row (P : ProviderEvent -> Prop) (row : ProviderEventRow) : Prop :=
  pe_Provider row = ProviderName
  /\ exists ev ts, P ev /\ json_event (stamped ev ts) = inl (pe_Payload row).

Lemma gateway_ingest_spec g jv wire sig e s :
  let '(r, s') := gateway_ingest g jv ProviderName wire sig e s in
  match r with
  | Some _ => committed s' = committed s
  | None => (committed s' = committed s
             \/ exists id now, committed s' = set_provider_events
                  (fun l => l ++ [MkProviderEventRow id ProviderName (receipt_key wire) wire now None]) (committed s))
            /\ existsb (same_event ProviderName (receipt_key wire)) (d_provider_events (committed s')) = true
  end.
Proof.
  unfold gateway_ingest.
  assert (wp (Ingest g jv ProviderName wire sig) e s (fun r s' => match r with
    | Err _ => committed s' = committed s
    | Ok _ => (committed s' = committed s
             \/ exists id now, committed s' = set_provider_events
                  (fun l => l ++ [MkProviderEventRow id ProviderName (receipt_key wire) wire now None]) (committed s))
            /\ existsb (same_event ProviderName (receipt_key wire)) (d_provider_events (committed s')) = true
    end)) as Hw.
  { unfold Ingest. apply wp_IngestHeaders; [done|].
    intros r s' _ _ _ _ [(Hs & _ & Hex)|(id & now & _ & _ & Hs)].
    - split; [by left|]. rewrite Hs. exact Hex.
    - split; [right; by exists id, now|]. rewrite Hs. cbn. rewrite existsb_app. apply orb_true_intro. right.
      cbn [existsb]. rewrite (proj2 (same_event_spec _ _ _)); done. }
  unfold wp in Hw. by destruct (Ingest g jv ProviderName wire sig e s) as [[?|?] s'].
Qed.

Lemma committed_nochange d : d = set_provider_events (fun l => l ++ []) d.
Proof. unfold set_provider_events. rewrite app_nil_r. by destruct d. Qed.

Lemma deliver_spec g jv signer events e s :
  let '(errs, s') := deliver (gateway_ingest g jv) signer events e s in
  exists new, committed s' = set_provider_events (fun l => l ++ new) (committed s)
    /\ Forall (receipt_row (fun ev => ev ∈ events)) new
    /\ (errs = [] -> forall ev, ev ∈ events -> recorded (committed s') ev).
Proof.
  revert s. induction events as [|ev events IH]; intros s.
  { exists []. split; [apply committed_nochange|]. split; [done|]. by intros _ ev ?%elem_of_nil. }
  cbn [deliver].
  assert (exists ts, (EncodeEvent ev e s).1 = json_event (stamped ev ts)
    /\ committed (EncodeEvent ev e s).2 = committed s) as (ts & He & Hs).
  { unfold EncodeEvent. destruct (is_empty (ev_Timestamp ev)); cbn [fst snd]; [by eexists|].
    exists (ev_Timestamp ev). by destruct ev. }
  destruct (EncodeEvent ev e s) as [wire s1]. cbn [fst snd] in He, Hs. subst wire.
  destruct (json_event (stamped ev ts)) as [wire|err] eqn:Ew.
  2:{ specialize (IH s1). destruct (deliver _ _ events e s1) as [errs s'].
      destruct IH as (new & Hn & Hf & _). rewrite Hs in Hn. exists new. split; [done|]. split; [|done].
      eapply Forall_impl; [exact Hf|]. intros row (Hp & ev' & t' & Hin & Hj). split; [done|].
      exists ev', t'. split; [by apply elem_of_cons; right|done]. }
  pose proof (gateway_ingest_spec g jv wire (signer wire) e s1) as Hg.
  destruct (gateway_ingest g jv ProviderName wire (signer wire) e s1) as [r s2].
  specialize (IH s2). destruct (deliver _ _ events e s2) as [errs s'].
  destruct IH as (new & Hn & Hf & Hr).
  assert (exists one, committed s2 = set_provider_events (fun l => l ++ one) (committed s)
    /\ Forall (receipt_row (fun x => x ∈ ev :: events)) one) as (one & H1 & Hone).
  { destruct r; [exists []; rewrite Hg, Hs; split; [apply committed_nochange|done]|].
    destruct Hg as [[Hg|(id & now & Hg)] _]; rewrite Hg, Hs; [exists []; split; [apply committed_nochange|done]|].
    eexists. split; [done|]. constructor; [|done]. split; [done|]. exists ev, ts. split; [by apply elem_of_cons; left|done]. }
  exists (one ++ new). split; [|split].
  - rewrite Hn, H1. unfold set_provider_events. cbn. by rewrite app_assoc.
  - apply Forall_app. split; [done|]. eapply Forall_impl; [exact Hf|].
    intros row (Hp & ev' & t' & Hin & Hj). split; [done|]. exists ev', t'. split; [by apply elem_of_cons; right|done].
  - destruct r; [done|]. intros He x [->|Hx]%elem_of_cons; [|by apply Hr].
    exists ts, wire. split; [done|]. rewrite Hn. cbn. rewrite existsb_app. destruct Hg as [_ Hg]. by rewrite Hg.
Qed.

Lemma no_signature_refused vcfg body header url :
  header_get header WhatsAppSignatureHeader = "" -> VerifyWhatsAppCloud vcfg body header url <> None.
Proof. intros Hh. unfold VerifyWhatsAppCloud. rewrite Hh. by destruct (is_empty (WhatsAppAppSecret vcfg)). Qed.

(** With the default registry the gateway asks the adapter's own deliveries for
    Meta's signature. *)
Lemma registry_refuses secret vcfg jv wire sig e s :
  let '(r, s') := gateway_ingest (NewGatewayWithVerifiers secret DefaultRegistry vcfg) jv ProviderName wire sig e s in
  committed s' = committed s /\ r <> None.
Proof.
  unfold gateway_ingest.
  assert (wp (Ingest (NewGatewayWithVerifiers secret DefaultRegistry vcfg) jv ProviderName wire sig) e s
    (fun r s' => committed s' = committed s /\ exists x, r = Err x)) as Hw.
  { unfold Ingest. apply wp_IngestHeaders; [naive_solver|]. intros r s' Ha _ _ _ _. exfalso.
    unfold authorized in Ha. rewrite registry_lookup in Ha.
    set (hdr := if is_empty sig then ∅ else {[SignatureHeader := sig]}) in Ha.
    assert (header_get hdr WhatsAppSignatureHeader = "") as Hh.
    { unfold header_get, hdr. by destruct (is_empty sig). }
    change (match VerifyWhatsAppCloud vcfg (str_bytes wire) hdr (externalURLFor vcfg ProviderName)
            with None => true | Some _ => false end = true) in Ha.
    by destruct (VerifyWhatsAppCloud vcfg _ _ _) eqn:Ev; [|apply no_signature_refused in Ev]. }
  unfold wp in Hw. destruct (Ingest _ jv ProviderName wire sig e s) as [[?|?] s']; naive_solver.
Qed.

Lemma registry_refuses_all secret vcfg jv signer events e s :
  let '(errs, s') := deliver (gateway_ingest (NewGatewayWithVerifiers secret DefaultRegistry vcfg) jv) signer events e s in
  committed s' = committed s /\ length errs = length events.
Proof.
  revert s. induction events as [|ev events IH]; intros s; [done|]. cbn [deliver].
  assert (committed (EncodeEvent ev e s).2 = committed s) as Hs.
  { unfold EncodeEvent. by destruct (is_empty (ev_Timestamp ev)). }
  destruct (EncodeEvent ev e s) as [[wire|err] s1]; cbn [snd] in Hs.
  - pose proof (registry_refuses secret vcfg jv wire (signer wire) e s1) as Hg.
    destruct (gateway_ingest _ jv ProviderName wire (signer wire) e s1) as [r s2]. destruct Hg as [Hg Hne].
    specialize (IH s2). destruct (deliver _ signer events e s2) as [errs s']. destruct IH as [H1 H2].
    destruct r; [|done]. cbn. split; [congruence|lia].
  - specialize (IH s1). destruct (deliver _ signer events e s1) as [errs s']. destruct IH as [H1 H2].
    cbn. split; [congruence|lia].
Qed.

(** C27. Receipts. After any history of sends by an adapter [New] accepted, a
    status webhook is translated status by status, a bad one blocking no
    other. Behind the webhook gateway it only appends rows to the ledger of
    deliveries, under every failure, and each carries an event whose status and
    message id are in the body, for the interaction and the tenant of the send
    the carrier answered with that id; when no error is reported every receipt
    of the body is in the ledger. With the default verifier registry, where the
    adapter's own name asks for Meta's signature, none ever is: every event
    comes back as an error. *)
Theorem receipts_attributed cfg c ops jv signer body e s :
  New cfg = inl c ->
  let p := run_ops c ops in
  let events := (TranslateStatus body (resolver (ledger p))).1 in
  (forall wh, json_statusWebhook body = inl wh ->
     events = omap (good (resolver (ledger p))) (concat (concat wh)))
  /\ (forall g, let '(errs, s') := HandleWebhook (gateway_ingest g jv) signer p body e s in
       exists new, committed s' = set_provider_events (fun l => l ++ new) (committed s)
         /\ Forall (receipt_row (attributed c ops body)) new
         /\ (errs = [] -> forall ev, ev ∈ events -> recorded (committed s') ev))
  /\ (forall secret vcfg,
       let g := NewGatewayWithVerifiers secret DefaultRegistry vcfg in
       let '(errs, s') := HandleWebhook (gateway_ingest g jv) signer p body e s in
       committed s' = committed s /\ (length events <= length errs)%nat).
Proof.
  intros ->%New_client p events. destruct (withDefaults_pos (Retry cfg)) as (Ha & _ & Hm).
  unfold events, HandleWebhook. split; [|split].
  - intros wh Hw. unfold TranslateStatus. rewrite Hw. apply translate_all_good.
  - intros g. destruct (TranslateStatus body (resolver (ledger p))) as [evs terrs] eqn:Et.
    pose proof (deliver_spec g jv signer evs e s) as Hd.
    destruct (deliver _ signer evs e s) as [errs s']. destruct Hd as (new & Hn & Hf & Hr).
    exists new. split; [done|]. split.
    + eapply Forall_impl; [exact Hf|]. intros row (Hp & ev & ts & Hin & Hj). split; [done|].
      exists ev, ts. split; [|done]. apply events_attributed; [done|done|]. fold p. by rewrite Et.
    + intros [_ ->]%app_eq_nil. by apply Hr.
  - intros secret vcfg. cbv zeta. destruct (TranslateStatus body (resolver (ledger p))) as [evs terrs].
    pose proof (registry_refuses_all secret vcfg jv signer evs e s) as Hd.
    destruct (deliver _ signer evs e s) as [errs s']. destruct Hd as [H1 H2].
    split; [done|]. rewrite length_app. cbn. lia.
Qed.

(** The policy of a client [New] built. *)
Lemma retry_defaults r :
  0 < MaxAttempts (withDefaults r) /\ 0 < MaxDelay (withDefaults r).
Proof. destruct (withDefaults_pos r) as (? & _ & ?). done. Qed.

(** A client on an empty base URL sends nothing: [New] does not put the default
    in, and the HTTP client refuses a URL without scheme and host. *)
Lemma unset_base_never_sends c ops :
  baseURL c = "" -> 0 < MaxAttempts (retry c) /\ 0 < MaxDelay (retry c) ->
  (forall log url body, has_prefix url "/" = true -> exists err, http_Do log url body = TransportFailed err) ->
  endpoint c = "/" +:+ phoneNumberID c +:+ "/messages"
  /\ ledger (run_ops c ops) = ∅
  /\ forall o, (do_op c o (run_ops c ops)).1 <> None.
Proof.
  intros Hb [Ha Hm] Hno. assert (endpoint c = "/" +:+ phoneNumberID c +:+ "/messages") as He
    by (unfold endpoint; by rewrite Hb).
  split; [done|].
  assert (forall o p, (do_op c o p).1 <> None /\ ledger (do_op c o p).2 = ledger p) as Hop.
  { intros o p. pose proof (do_op_outcome c o p Ha Hm) as Ho. destruct (do_op c o p) as [r p'].
    destruct Ho as (acts & body & _ & _ & _ & Hr). destruct r; [done|]. exfalso.
    destruct Hr as (l & id & ids & _ & Hc & _). rewrite He in Hc.
    destruct (Hno (trace p ++ l) ("/" +:+ phoneNumberID c +:+ "/messages") body) as [err Herr];
      [by apply has_prefix_spec; eexists|].
    by rewrite Herr in Hc. }
  split; [|by intros o; apply Hop].
  induction ops as [|o ops IH] using rev_ind; [done|]. rewrite run_ops_snoc, (proj2 (Hop o _)). exact IH.
Qed.
End Props.

(** ** Concrete runs *)

#[local] Instance demo_unicode : Unicode := {| unicode_ToLower := fun s => s |}.

(** A carrier that accepts what reaches a host. *)
Definition demo_ports : WaPorts := {|
  json_payload := fun _ => inl "{}";
  wa_events := {| json_event := fun ev => inl (ev_Event ev +:+ " " +:+ ev_InteractionID ev +:+ " " +:+ ev_TenantID ev); rfc3339nano := itoa |};
  json_sendResponse := fun _ => inl ["wamid.1"];
  parseGraphError := fun _ => None;
  json_statusWebhook := fun _ => inl [[[MkGraphStatus "wamid.1" "read" "1664268184" [];
                                        MkGraphStatus "wamid.2" "read" "" []]]];
  url_Parse := fun _ => None;
  rfc3339 := itoa;
  http_Do := fun log url _ =>
    if has_prefix url "/" then TransportFailed (OtherErr "unsupported protocol scheme" None)
    else if no_items log then Response 503 "1" "" else Response 200 "" "{}";
  retry_Sleep := fun _ _ => None;
|}.

Definition demo_config (base : string) : Config :=
  MkConfig "109876" "token" base true true (MkRetryPolicy 0 0 0).

Definition demo_client (base : string) : graphClient :=
  MkGraphClient base "109876" "token" (withDefaults (MkRetryPolicy 0 0 0)).

Definition demo_msg : op := OSend (MkMessage "i1" "t1" "whatsapp" "" "+254700000001" "hello" []).

Lemma wa_send_bounded_witness :
  exists acts : list Act, length acts = 3%nat
    /\ trace (do_op (H := demo_ports) (demo_client DefaultAPIBaseURL) demo_msg (MkProvider ∅ [])).2 = acts
    /\ exists acts' body, acts = [] ++ acts'
         /\ well_behaved (H := demo_ports) (demo_client DefaultAPIBaseURL) body [] acts'.
Proof.
  eexists. split; [|split; [vm_compute; reflexivity|]]; [reflexivity|].
  pose proof (wa_send_bounded (H := demo_ports) (demo_config DefaultAPIBaseURL) (demo_client DefaultAPIBaseURL)
    demo_msg (MkProvider ∅ []) eq_refl) as Hw.
  destruct (do_op (H := demo_ports) (demo_client DefaultAPIBaseURL) demo_msg (MkProvider ∅ [])) as [r p'] eqn:E.
  vm_compute in E. injection E as <- <-. destruct Hw as (acts & body & H1 & H2 & _).
  exists acts, body. split; [exact H1|exact H2].
Defined.

Definition demo_provider : Provider := run_ops (H := demo_ports) (demo_client DefaultAPIBaseURL) [demo_msg].

Definition demo_webhook : list error * st :=
  HandleWebhook (H := demo_ports) (gateway_ingest (NewGateway "s3cret") (fun _ => true))
    (ComputeSignature "s3cret") demo_provider "{}" env0 (MkSt empty_db None 0).

Definition demo_receipt : ProviderEventRow -> Prop :=
  receipt_row (H := demo_ports) (attributed (H := demo_ports) (demo_client DefaultAPIBaseURL) [demo_msg] "{}").

Lemma receipts_attributed_witness :
  length (TranslateStatus (H := demo_ports) "{}" (resolver (ledger demo_provider))).1 = 1%nat
  /\ exists new, committed (snd demo_webhook) = set_provider_events (fun l => l ++ new) empty_db
       /\ Forall demo_receipt new.
Proof.
  split; [vm_compute; reflexivity|].
  pose proof (proj1 (proj2 (receipts_attributed (H := demo_ports) (demo_config DefaultAPIBaseURL)
    (demo_client DefaultAPIBaseURL) [demo_msg] (fun _ => true) (ComputeSignature "s3cret") "{}" env0
    (MkSt empty_db None 0) eq_refl)) (NewGateway "s3cret")) as Hr.
  fold demo_provider in Hr. fold demo_webhook in Hr. destruct demo_webhook as [errs s'].
  destruct Hr as (new & H1 & H2 & _). exists new. split; [exact H1|exact H2].
Defined.
