(* ===== verification/CommsRegistry.v ===== *)
(** * internal/comms/registry: the communications providers

    provider.go (the closed set of providers and their credential shapes),
    env.go, telephony.go and messaging.go (a plane's configuration out of the
    environment, validated), secret.go and the renderings (no credential
    material), resolver.go.

    A struct of credentials is a record; [fieldRef] is a view of one of its
    fields, as in fields.go. *)

From Stdlib Require Import String Ascii.
From S2P Require Import Prelude GoStd AppErrors Text Planes.

Local Open Scope Z_scope.

Definition ProviderName := string.
Definition Secret := string.

Definition ProviderSimulator : ProviderName := "simulator".
Definition ProviderTwilio : ProviderName := "twilio".
Definition ProviderWhatsAppCloud : ProviderName := "whatsappcloud".
Definition ProviderAfricasTalking : ProviderName := "africastalking".
Definition ProviderFreeSwitch : ProviderName := "freeswitch".
Definition ProviderAsterisk : ProviderName := "asterisk".

(** ** provider.go *)

Definition PlaneVoice : Z := 1.
Definition PlaneMessaging : Z := 2.

Definition has_plane (planes p : Z) : bool := negb (Z.land planes p =? 0).

Definition Plane_String (p : Z) : string :=
  let parts := (if has_plane p PlaneVoice then ["voice"] else [])
               ++ (if has_plane p PlaneMessaging then ["messaging"] else []) in
  match parts with [] => "none" | _ => Join parts "+" end.

Record FieldSpec := MkFieldSpec {
  Env : string;
  Required : bool;
  is_Secret : bool;
}.

Record ProviderSpec := MkProviderSpec {
  Name : ProviderName;
  sp_Planes : Z;
  Summary : string;
  Telephony : list FieldSpec;
  Messaging : list FieldSpec;
}.

Definition secret_var (env : string) : FieldSpec := MkFieldSpec env true true.
Definition plain_var (env : string) (required : bool) : FieldSpec := MkFieldSpec env required false.

Definition twilio_vars : list FieldSpec :=
  map secret_var ["ORVEXA_TWILIO_ACCOUNT_SID"; "ORVEXA_TWILIO_AUTH_TOKEN"; "ORVEXA_TWILIO_FROM_NUMBER"].

Definition providerRegistry : list ProviderSpec :=
  [MkProviderSpec ProviderSimulator (Z.lor PlaneVoice PlaneMessaging)
     "built-in deterministic carrier; no network I/O; no credentials" [] [];
   MkProviderSpec ProviderTwilio (Z.lor PlaneVoice PlaneMessaging)
     "Twilio Programmable Voice and Messaging" twilio_vars twilio_vars;
   MkProviderSpec ProviderWhatsAppCloud PlaneMessaging "WhatsApp Cloud API (Meta Graph)" []
     (map secret_var ["ORVEXA_WHATSAPP_PHONE_NUMBER_ID"; "ORVEXA_WHATSAPP_ACCESS_TOKEN";
                      "ORVEXA_WHATSAPP_APP_SECRET"; "ORVEXA_WHATSAPP_VERIFY_TOKEN"]);
   MkProviderSpec ProviderAfricasTalking (Z.lor PlaneVoice PlaneMessaging)
     "Africa's Talking voice and messaging"
     (map secret_var ["ORVEXA_AT_USERNAME"; "ORVEXA_AT_API_KEY"; "ORVEXA_AT_VOICE_PRODUCT_CODE"])
     (map secret_var ["ORVEXA_AT_USERNAME"; "ORVEXA_AT_API_KEY"; "ORVEXA_AT_SENDER_ID"]);
   MkProviderSpec ProviderFreeSwitch PlaneVoice "self-hosted FreeSWITCH (Event Socket)"
     [plain_var "ORVEXA_FREESWITCH_HOST" true; plain_var "ORVEXA_FREESWITCH_PORT" false;
      secret_var "ORVEXA_FREESWITCH_PASSWORD"] [];
   MkProviderSpec ProviderAsterisk PlaneVoice "self-hosted Asterisk (Manager Interface)"
     [plain_var "ORVEXA_ASTERISK_HOST" true; plain_var "ORVEXA_ASTERISK_PORT" false;
      secret_var "ORVEXA_ASTERISK_USERNAME"; secret_var "ORVEXA_ASTERISK_SECRET"] []].

Definition Lookup (name : ProviderName) : option ProviderSpec :=
  List.find (fun s => String.eqb (Name s) name) providerRegistry.

Definition Names : list ProviderName := stable_sort String.ltb (map Name providerRegistry).

Definition unknownProviderError (label raw : string) : Error :=
  Invalid "comms.unknown_provider"
    ("unknown " +:+ label +:+ " " +:+ quote raw +:+ " (registered providers: " +:+ Join Names ", " +:+ ")").

Definition unsupportedPlaneError (name : ProviderName) (p : Z) : Error :=
  Invalid "comms.unsupported_plane"
    ("provider " +:+ quote name +:+ " does not support the " +:+ Plane_String p +:+ " plane (supports: "
       +:+ Plane_String (match Lookup name with Some s => sp_Planes s | None => 0 end) +:+ ")").

Definition missingCredentialsError (name : ProviderName) (plane : string) (missing : list string) : Error :=
  Invalid "comms.missing_credentials"
    ("provider " +:+ quote name +:+ " (" +:+ plane +:+ ") is missing required environment variable(s): "
       +:+ Join missing ", ").

Definition Validate (name : ProviderName) : option Error :=
  match Lookup name with
  | None => Some (unknownProviderError "provider" name)
  | Some _ => None
  end.

Definition ValidateForPlane (name : ProviderName) (p : Z) : option Error :=
  match Lookup name with
  | None => Some (unknownProviderError "provider" name)
  | Some spec => if has_plane (sp_Planes spec) p then None else Some (unsupportedPlaneError name p)
  end.

(** ** fields.go *)

Record fieldRef (C : Type) := MkFieldRef {
  fr_get : C -> string;
  fr_set : string -> C -> C;
}.
Arguments MkFieldRef {C} fr_get fr_set.
Arguments fr_get {C} f c.
Arguments fr_set {C} f v c.

(** ** env.go *)

Definition EnvTelephonyProvider := "ORVEXA_TELEPHONY_PROVIDER".
Definition EnvMessagingProvider := "ORVEXA_MESSAGING_PROVIDER".
Definition defaultProvider : ProviderName := ProviderSimulator.

Definition envGetter := string -> string.

Definition selectedProvider (get : envGetter) (envKey planeLabel : string) (p : Z) : ProviderName + Error :=
  let raw := trim_space (get envKey) in
  if is_empty raw then inl defaultProvider else
  match Lookup raw with
  | None => inr (unknownProviderError (planeLabel +:+ " provider") raw)
  | Some spec => if has_plane (sp_Planes spec) p then inl (Name spec) else inr (unsupportedPlaneError (Name spec) p)
  end.

(** ** The loops over a plane's variables

    A variable without a field would be a nil reference; there is none
    ([targets_cover]). *)
Section Vars.
Context {C : Type}.
Variable targets : list (string * fieldRef C).

Definition target (env : string) : option (fieldRef C) :=
  option_map snd (List.find (fun t => String.eqb t.1 env) targets).

Definition read_var (get : envGetter) (c : C) (fs : FieldSpec) : C :=
  let v := trim_space (get (Env fs)) in
  if is_empty v then c
  else match target (Env fs) with Some f => fr_set f v c | None => c end.

Definition read_vars (get : envGetter) (vars : list FieldSpec) (c : C) : C := fold_left (read_var get) vars c.

Definition missing_vars (vars : list FieldSpec) (c : C) : list string :=
  map Env (List.filter (fun fs =>
    Required fs && match target (Env fs) with Some f => is_empty (fr_get f c) | None => false end) vars).
End Vars.

(** ** telephony.go *)

Record TelephonyConfig := MkTelephonyConfig {
  t_Provider : ProviderName;
  t_TwilioAccountSID : Secret;
  t_TwilioAuthToken : Secret;
  t_TwilioFromNumber : Secret;
  t_ATUsername : Secret;
  t_ATAPIKey : Secret;
  t_ATVoiceProductCode : Secret;
  t_FreeSwitchHost : string;
  t_FreeSwitchPort : string;
  t_FreeSwitchPassword : Secret;
  t_AsteriskHost : string;
  t_AsteriskPort : string;
  t_AsteriskUsername : Secret;
  t_AsteriskSecret : Secret;
}.

(** The fields in their order, and the struct with one of them replaced. *)
Definition t_fields (c : TelephonyConfig) : list string :=
  [t_TwilioAccountSID c;
   t_TwilioAuthToken c; t_TwilioFromNumber c; t_ATUsername c; t_ATAPIKey c;
   t_ATVoiceProductCode c; t_FreeSwitchHost c; t_FreeSwitchPort c; t_FreeSwitchPassword c;
   t_AsteriskHost c; t_AsteriskPort c; t_AsteriskUsername c; t_AsteriskSecret c].

Definition t_of_fields (name : ProviderName) (l : list string) : TelephonyConfig :=
  MkTelephonyConfig name
    (nth 0 l "") (nth 1 l "") (nth 2 l "") (nth 3 l "") (nth 4 l "") (nth 5 l "") (nth 6 l "")
    (nth 7 l "") (nth 8 l "") (nth 9 l "") (nth 10 l "") (nth 11 l "") (nth 12 l "").

Definition t_ref (get : TelephonyConfig -> string) (i : nat) : fieldRef TelephonyConfig :=
  MkFieldRef get (fun v c => t_of_fields (t_Provider c) (<[i := v]> (t_fields c))).

(** [envTargets]: every variable and the field it feeds. *)
Definition t_envTargets : list (string * fieldRef TelephonyConfig) :=
  [("ORVEXA_TWILIO_ACCOUNT_SID", t_ref t_TwilioAccountSID 0);
   ("ORVEXA_TWILIO_AUTH_TOKEN", t_ref t_TwilioAuthToken 1);
   ("ORVEXA_TWILIO_FROM_NUMBER", t_ref t_TwilioFromNumber 2);
   ("ORVEXA_AT_USERNAME", t_ref t_ATUsername 3);
   ("ORVEXA_AT_API_KEY", t_ref t_ATAPIKey 4);
   ("ORVEXA_AT_VOICE_PRODUCT_CODE", t_ref t_ATVoiceProductCode 5);
   ("ORVEXA_FREESWITCH_HOST", t_ref t_FreeSwitchHost 6);
   ("ORVEXA_FREESWITCH_PORT", t_ref t_FreeSwitchPort 7);
   ("ORVEXA_FREESWITCH_PASSWORD", t_ref t_FreeSwitchPassword 8);
   ("ORVEXA_ASTERISK_HOST", t_ref t_AsteriskHost 9);
   ("ORVEXA_ASTERISK_PORT", t_ref t_AsteriskPort 10);
   ("ORVEXA_ASTERISK_USERNAME", t_ref t_AsteriskUsername 11);
   ("ORVEXA_ASTERISK_SECRET", t_ref t_AsteriskSecret 12)].

Definition new_TelephonyConfig (name : ProviderName) : TelephonyConfig := t_of_fields name [].

Definition defaultFreeSwitchPort := "8021".
Definition defaultAsteriskPort := "5038".

Definition set_t_field (i : nat) (v : string) (c : TelephonyConfig) : TelephonyConfig :=
  t_of_fields (t_Provider c) (<[i := v]> (t_fields c)).

Definition applyTelephonyDefaults (c : TelephonyConfig) : TelephonyConfig :=
  if String.eqb (t_Provider c) ProviderFreeSwitch then
    if is_empty (t_FreeSwitchPort c) then set_t_field 7 defaultFreeSwitchPort c else c
  else if String.eqb (t_Provider c) ProviderAsterisk then
    if is_empty (t_AsteriskPort c) then set_t_field 10 defaultAsteriskPort c else c
  else c.

Definition ValidateTelephony (c : option TelephonyConfig) : option Error :=
  match c with
  | None => Some (Invalid "comms.config_required" "telephony configuration is required")
  | Some c =>
      match Lookup (t_Provider c) with
      | None => Some (unknownProviderError "telephony provider" (t_Provider c))
      | Some spec =>
          if negb (has_plane (sp_Planes spec) PlaneVoice) then
            Some (unsupportedPlaneError (t_Provider c) PlaneVoice)
          else
            match missing_vars t_envTargets (Telephony spec) c with
            | [] => None
            | missing => Some (missingCredentialsError (t_Provider c) "telephony" missing)
            end
      end
  end.

Definition vars_of (vars : ProviderSpec -> list FieldSpec) (name : ProviderName) : list FieldSpec :=
  match Lookup name with Some spec => vars spec | None => [] end.

Definition telephonyFromLookup (get : envGetter) : TelephonyConfig + Error :=
  match selectedProvider get EnvTelephonyProvider "telephony" PlaneVoice with
  | inr err => inr err
  | inl name =>
      let c := read_vars t_envTargets get (vars_of Telephony name) (new_TelephonyConfig name) in
      let c := applyTelephonyDefaults c in
      match ValidateTelephony (Some c) with
      | Some err => inr err
      | None => inl c
      end
  end.

(** ** messaging.go *)

Record MessagingConfig := MkMessagingConfig {
  m_Provider : ProviderName;
  m_TwilioAccountSID : Secret;
  m_TwilioAuthToken : Secret;
  m_TwilioFromNumber : Secret;
  m_WhatsAppPhoneNumberID : Secret;
  m_WhatsAppAccessToken : Secret;
  m_WhatsAppAppSecret : Secret;
  m_WhatsAppVerifyToken : Secret;
  m_ATUsername : Secret;
  m_ATAPIKey : Secret;
  m_ATSenderID : Secret;
}.

(** The fields in their order, and the struct with one of them replaced. *)
Definition m_fields (c : MessagingConfig) : list string :=
  [m_TwilioAccountSID c;
   m_TwilioAuthToken c; m_TwilioFromNumber c; m_WhatsAppPhoneNumberID c;
   m_WhatsAppAccessToken c; m_WhatsAppAppSecret c; m_WhatsAppVerifyToken c; m_ATUsername c;
   m_ATAPIKey c; m_ATSenderID c].

Definition m_of_fields (name : ProviderName) (l : list string) : MessagingConfig :=
  MkMessagingConfig name
    (nth 0 l "") (nth 1 l "") (nth 2 l "") (nth 3 l "") (nth 4 l "") (nth 5 l "") (nth 6 l "")
    (nth 7 l "") (nth 8 l "") (nth 9 l "").

Definition m_ref (get : MessagingConfig -> string) (i : nat) : fieldRef MessagingConfig :=
  MkFieldRef get (fun v c => m_of_fields (m_Provider c) (<[i := v]> (m_fields c))).

(** [envTargets]: every variable and the field it feeds. *)
Definition m_envTargets : list (string * fieldRef MessagingConfig) :=
  [("ORVEXA_TWILIO_ACCOUNT_SID", m_ref m_TwilioAccountSID 0);
   ("ORVEXA_TWILIO_AUTH_TOKEN", m_ref m_TwilioAuthToken 1);
   ("ORVEXA_TWILIO_FROM_NUMBER", m_ref m_TwilioFromNumber 2);
   ("ORVEXA_WHATSAPP_PHONE_NUMBER_ID", m_ref m_WhatsAppPhoneNumberID 3);
   ("ORVEXA_WHATSAPP_ACCESS_TOKEN", m_ref m_WhatsAppAccessToken 4);
   ("ORVEXA_WHATSAPP_APP_SECRET", m_ref m_WhatsAppAppSecret 5);
   ("ORVEXA_WHATSAPP_VERIFY_TOKEN", m_ref m_WhatsAppVerifyToken 6);
   ("ORVEXA_AT_USERNAME", m_ref m_ATUsername 7);
   ("ORVEXA_AT_API_KEY", m_ref m_ATAPIKey 8);
   ("ORVEXA_AT_SENDER_ID", m_ref m_ATSenderID 9)].

Definition new_MessagingConfig (name : ProviderName) : MessagingConfig := m_of_fields name [].

Definition ValidateMessaging (c : option MessagingConfig) : option Error :=
  match c with
  | None => Some (Invalid "comms.config_required" "messaging configuration is required")
  | Some c =>
      match Lookup (m_Provider c) with
      | None => Some (unknownProviderError "messaging provider" (m_Provider c))
      | Some spec =>
          if negb (has_plane (sp_Planes spec) PlaneMessaging) then
            Some (unsupportedPlaneError (m_Provider c) PlaneMessaging)
          else
            match missing_vars m_envTargets (Messaging spec) c with
            | [] => None
            | missing => Some (missingCredentialsError (m_Provider c) "messaging" missing)
            end
      end
  end.

Definition messagingFromLookup (get : envGetter) : MessagingConfig + Error :=
  match selectedProvider get EnvMessagingProvider "messaging" PlaneMessaging with
  | inr err => inr err
  | inl name =>
      let c := read_vars m_envTargets get (vars_of Messaging name) (new_MessagingConfig name) in
      match ValidateMessaging (Some c) with
      | Some err => inr err
      | None => inl c
      end
  end.

(** [LoadFromEnv], over the environment. *)
Definition LoadFromEnv (get : envGetter) : (TelephonyConfig * MessagingConfig) + Error :=
  match telephonyFromLookup get with
  | inr err => inr err
  | inl tel =>
      match messagingFromLookup get with
      | inr err => inr err
      | inl msg => inl (tel, msg)
      end
  end.

(** ** secret.go and the renderings *)

Definition redactRevealMin : Z := 12.

Fixpoint valid_runes (fuel : nat) (l : list ascii) : bool :=
  match fuel, l with
  | S n, a :: _ => ((code a <? 128) || (1 <? rune_size l)%nat) && valid_runes n (drop (rune_size l) l)
  | _, _ => true
  end.

(** [utf8.ValidString] *)
Definition ValidString (s : string) : bool :=
  let l := list_ascii_of_string s in valid_runes (length l) l.

Definition last4 (v : string) : string := sdrop (String.length v - 4) v.

Definition Redacted (v : string) : string :=
  if is_empty v then ""
  else if Z.of_nat (String.length v) <? redactRevealMin then "****"
  else if ValidString (last4 v) then "****" +:+ last4 v
  else "****".

Definition renderKV (kind : string) (fields : list (string * string)) : string :=
  kind +:+ "(" +:+ Join (map (fun f => f.1 +:+ "=" +:+ f.2) fields) " " +:+ ")".

(** The closures of [redactedFields]. *)
Definition secret_field (key : string) (v : Secret) : list (string * string) :=
  if is_empty v then [] else [(key, Redacted v)].

Definition plain_field (key v : string) : list (string * string) :=
  if is_empty v then [] else [(key, v)].

Definition t_redactedFields (c : TelephonyConfig) : list (string * string) :=
  [("provider", t_Provider c)]
    ++ secret_field "twilio.account_sid" (t_TwilioAccountSID c)
    ++ secret_field "twilio.auth_token" (t_TwilioAuthToken c)
    ++ secret_field "twilio.from_number" (t_TwilioFromNumber c)
    ++ secret_field "at.username" (t_ATUsername c)
    ++ secret_field "at.api_key" (t_ATAPIKey c)
    ++ secret_field "at.voice_product_code" (t_ATVoiceProductCode c)
    ++ plain_field "freeswitch.host" (t_FreeSwitchHost c)
    ++ plain_field "freeswitch.port" (t_FreeSwitchPort c)
    ++ secret_field "freeswitch.password" (t_FreeSwitchPassword c)
    ++ plain_field "asterisk.host" (t_AsteriskHost c)
    ++ plain_field "asterisk.port" (t_AsteriskPort c)
    ++ secret_field "asterisk.username" (t_AsteriskUsername c)
    ++ secret_field "asterisk.secret" (t_AsteriskSecret c).

Definition m_redactedFields (c : MessagingConfig) : list (string * string) :=
  [("provider", m_Provider c)]
    ++ secret_field "twilio.account_sid" (m_TwilioAccountSID c)
    ++ secret_field "twilio.auth_token" (m_TwilioAuthToken c)
    ++ secret_field "twilio.from_number" (m_TwilioFromNumber c)
    ++ secret_field "whatsapp.phone_number_id" (m_WhatsAppPhoneNumberID c)
    ++ secret_field "whatsapp.access_token" (m_WhatsAppAccessToken c)
    ++ secret_field "whatsapp.app_secret" (m_WhatsAppAppSecret c)
    ++ secret_field "whatsapp.verify_token" (m_WhatsAppVerifyToken c)
    ++ secret_field "at.username" (m_ATUsername c)
    ++ secret_field "at.api_key" (m_ATAPIKey c)
    ++ secret_field "at.sender_id" (m_ATSenderID c).

Definition t_String (c : TelephonyConfig) : string := renderKV "telephony" (t_redactedFields c).
Definition m_String (c : MessagingConfig) : string := renderKV "messaging" (m_redactedFields c).

(** ** resolver.go: a copy of a value is the value *)

Definition NewGlobalResolver (tel : option TelephonyConfig) (msg : option MessagingConfig) (tenantID : string)
    : (option TelephonyConfig * option MessagingConfig) + Error :=
  if is_empty (trim_space tenantID) then
    inr (Invalid "comms.tenant_required" "tenant id is required to resolve provider configuration")
  else inl (tel, msg).

Example names_sorted :
  Names = ["africastalking"; "asterisk"; "freeswitch"; "simulator"; "twilio"; "whatsappcloud"].
Proof. reflexivity. Qed.

Example redacted_demo :
  Redacted "waf4ket0ken000000ff66" = "****ff66" /\ Redacted "short" = "****"
  /\ t_String (t_of_fields ProviderTwilio ["AC12345678900aa1"; "s3cret"]) =
     "telephony(provider=twilio twilio.account_sid=****0aa1 twilio.auth_token=****)".
Proof. split; [reflexivity|]. split; reflexivity. Qed.
