(* ===== verification/TwilioSms.v ===== *)
(** * internal/messaging/adapters/twilio: the Twilio messaging adapter

    twilio.go (construction, the send with its claim of the interaction, the
    bounded retry loop, errors), translate.go and callback.go (status
    callbacks). URL parsing, JSON, the HTTP client, the context and the random
    jitter are parameters ([TwPorts]); those that can change from call to call
    answer by everything the adapter did before. Logging is left out. *)

From Stdlib Require Import String Ascii.
From S2P Require Import Prelude GoStd AppErrors Store Comms Text Regexp UrlQuery Customers Planes.
From S2P Require Import CommsRegistry.

Local Open Scope Z_scope.

Definition ProviderName := "twilio".
Definition defaultAPIBase := "https://api.twilio.com".
Definition QueryInteractionID := "interaction_id".
Definition QueryTenantID := "tenant_id".

Definition maxRetriesCeiling : Z := 3.
Definition defaultMaxRetries : Z := 3.
Definition defaultRetryBase : Z := 250 * Millisecond.
Definition defaultRetryCeiling : Z := 2 * Second.
Definition errBodyLimit : Z := Z.shiftl 8 10.
Definition twilioMsgLimit : Z := 256.

(** [Config]; the ingest hook and the signer are wired or not. *)
Record Config := MkConfig {
  AccountSID : Secret;
  AuthToken : Secret;
  FromNumber : Secret;
  APIBaseURL : string;
  StatusCallbackBase : string;
  has_Ingest : bool;
  has_Signer : bool;
  MaxRetries : Z;
  RetryBackoff : Z;
  RetryMaxBackoff : Z;
}.

Record Adapter := MkAdapter {
  accountSID : Secret;
  authToken : Secret;
  fromNumber : Secret;
  apiBase : string;
  statusBase : string;
  ingest : bool;
  signer : bool;
  maxRetries : Z;
  retryBase : Z;
  retryCeil : Z;
}.

Definition New (cfg : Config) : Adapter + Error :=
  if is_empty (AccountSID cfg) || is_empty (AuthToken cfg) then
    inr (Invalid "twilio.credentials_required"
           "ORVEXA_TWILIO_ACCOUNT_SID and ORVEXA_TWILIO_AUTH_TOKEN are required")
  else if negb (Bool.eqb (negb (has_Ingest cfg)) (negb (has_Signer cfg))) then
    inr (Invalid "twilio.ingest_not_wired"
           "Config.Ingest and Config.Signer must be set together (status callback delivery)")
  else
  let retryBase := if RetryBackoff cfg <=? 0 then defaultRetryBase else RetryBackoff cfg in
  let retryCeil := if RetryMaxBackoff cfg <=? 0 then defaultRetryCeiling else RetryMaxBackoff cfg in
  let retryCeil := if retryCeil <? retryBase then retryBase else retryCeil in
  let maxRetries :=
    if MaxRetries cfg <? 0 then 0
    else if maxRetriesCeiling <? MaxRetries cfg then maxRetriesCeiling
    else if 0 <? MaxRetries cfg then MaxRetries cfg
    else defaultMaxRetries in
  inl (MkAdapter (AccountSID cfg) (AuthToken cfg) (FromNumber cfg) (trim_suffix (APIBaseURL cfg) "/")
         (StatusCallbackBase cfg) (has_Ingest cfg) (has_Signer cfg) maxRetries retryBase retryCeil).

(** ** Renderings *)

Definition shown (key val : string) : list string := if is_empty val then [] else [key +:+ "=" +:+ val].

(** [Config.String] *)
Definition Config_String (c : Config) : string :=
  "twilio.Config("
    +:+ Join (shown "account_sid" (Redacted (AccountSID c)) ++ shown "auth_token" (Redacted (AuthToken c))
              ++ shown "from_number" (Redacted (FromNumber c)) ++ shown "api_base_url" (APIBaseURL c)
              ++ shown "status_callback_base" (StatusCallbackBase c)
              ++ (if MaxRetries c =? 0 then [] else ["max_retries=" +:+ itoa (MaxRetries c)])) " "
    +:+ ")".

(** [Adapter.String] *)
Definition Adapter_String (a : Adapter) : string :=
  "twilio.Adapter("
    +:+ Join (["account_sid=" +:+ Redacted (accountSID a); "auth_token=" +:+ Redacted (authToken a);
               "from_number=" +:+ Redacted (fromNumber a)]
              ++ shown "api_base" (apiBase a) ++ shown "status_callback_base" (statusBase a)) " "
    +:+ ")".

Definition GoString (a : Adapter) : string := Adapter_String a.
Definition LogValue (a : Adapter) : string := Adapter_String a.

(** The map [MarshalJSON] encodes. *)
Definition MarshalJSON (a : Adapter) : dict :=
  [("account_sid", VStr (Redacted (accountSID a))); ("auth_token", VStr (Redacted (authToken a)));
   ("from_number", VStr (Redacted (fromNumber a))); ("api_base", VStr (apiBase a))].

(** ** Errors *)

Record twilioError := MkTwilioError {
  tw_Code : Z;
  tw_Message : string;
  tw_Status : Z;
}.

Definition truncate (s : string) (n : Z) : string :=
  if Z.of_nat (String.length s) <=? n then s else stake (Z.to_nat n) s.

Definition twilioDetails (status : Z) (tw : twilioError) : dict :=
  [("http_status", VInt status)]
    ++ (if tw_Code tw =? 0 then [] else [("twilio_code", VInt (tw_Code tw))])
    ++ (if is_empty (tw_Message tw) then [] else [("twilio_message", VStr (tw_Message tw))]).

Definition terminalError (status : Z) (tw : twilioError) : Error :=
  let e := if status =? 401 then Unauth "twilio.auth_failed" "twilio rejected the credentials"
           else if status =? 403 then Forbidden "twilio.forbidden" "twilio refused the operation"
           else if (status =? 404) || (status =? 410) then
             NotFound "twilio.not_found" "twilio resource not found"
           else Invalid "twilio.request_rejected" "twilio rejected the request" in
  WithDetails e (VMap (twilioDetails status tw)).

(** [h.Get("Retry-After")] as a duration; the product wraps. *)
Definition retryAfter (header : string) (ceil : Z) : Z :=
  let v := trim_space header in
  if is_empty v then 0 else
  match atoi v with
  | None => 0
  | Some secs =>
      if secs <? 0 then 0
      else let d := wrap64 (secs * Second) in if ceil <? d then ceil else d
  end.

(** The text before and after the first occurrence of a marker. *)
Fixpoint cut_at (s marker : string) : option (string * string) :=
  if has_prefix s marker then Some ("", sdrop (String.length marker) s)
  else match s with
       | EmptyString => None
       | String a s => option_map (fun p => (String a p.1, p.2)) (cut_at s marker)
       end.

Definition redactEndpoint (u : string) : string :=
  match cut_at u "/Accounts/" with
  | None => u
  | Some (before, rest) =>
      before +:+ "/Accounts/[redacted]"
        +:+ match cut_at rest "/" with None => "" | Some (_, tail) => "/" +:+ tail end
  end.

Definition sanitizeTransport (t : transportError) : transportError :=
  match t with
  | UrlError op url err => UrlError op (redactEndpoint url) err
  | OtherTransport err => OtherTransport err
  end.

(** ** Ports *)

(** The parts of a [url.URL] the adapter touches. *)
Record URL := MkURL {
  Scheme : string;
  Host : string;
  RawQuery : string;
  others : list string;
}.

Inductive Outcome :=
| TransportFailed (err : transportError)
| Response (status : Z) (retryAfterHeader body : string).

(** What the adapter did, oldest first: the endpoint, the user and password,
    the form. *)
Inductive Act :=
| Slept (d : Z)
| Posted (url user password form : string).

Class TwPorts := {
  url_Parse : string -> option URL;
  url_String : URL -> string;
  json_twilioError : string -> option twilioError;
  http_NewRequest : string -> option error;
  http_Do : list Act -> Outcome;
  ctx_Err : list Act -> option error;
  rand_Int64N : list Act -> Z -> Z;
}.

(** [QueryEscape]d pairs by key, as the request carries them. *)
Definition form_Encode (form : Values) : string := Encode form.

Section Adapter.
Context `{Unicode} `{TwPorts}.

Definition parseTwilioError (body : string) : twilioError :=
  if is_empty body then MkTwilioError 0 "" 0 else
  match json_twilioError body with
  | None => MkTwilioError 0 "" 0
  | Some tw => MkTwilioError (tw_Code tw) (truncate (tw_Message tw) twilioMsgLimit) (tw_Status tw)
  end.

Definition fullJitter (log : list Act) (d : Z) : Z := if d <=? 0 then 0 else rand_Int64N log d.

(** The time slept before the next attempt; none once the context is done. *)
Definition pause (a : Adapter) (attempt serverDelay : Z) (log : list Act) : list Act :=
  match ctx_Err log with
  | Some _ => log
  | None =>
      let delay :=
        if serverDelay <=? 0 then
          let ceil := wrap64 (Z.shiftl (retryBase a) attempt) in
          let ceil := if retryCeil a <? ceil then retryCeil a else ceil in
          fullJitter log ceil
        else serverDelay in
      log ++ [Slept delay]
  end.

Definition endpoint (a : Adapter) : string :=
  apiBase a +:+ "/2010-04-01/Accounts/" +:+ PathEscape (accountSID a) +:+ "/Messages.json".

(** The loop of [postMessage] from attempt number [attempt] on, with [more]
    retries left. *)
Fixpoint post_loop (more : nat) (a : Adapter) (form : Values) (attempt : Z) (log : list Act)
    : option error * list Act :=
  match ctx_Err log with
  | Some err => (Some err, log)
  | None =>
      match http_NewRequest (endpoint a) with
      | Some err =>
          (Some (AppErr (WithCause (Internal "twilio.request_build_failed" "twilio request could not be built") err)), log)
      | None =>
          let log := log ++ [Posted (endpoint a) (accountSID a) (authToken a) (form_Encode form)] in
          match http_Do log with
          | TransportFailed err =>
              (Some (AppErr (WithCause (Internal "twilio.transport_error" "twilio request could not be delivered")
                               (transport_text (sanitizeTransport err)))), log)
          | Response status header body =>
              let tw := parseTwilioError (stake (Z.to_nat errBodyLimit) body) in
              if (200 <=? status) && (status <? 300) then (None, log)
              else
              let retry lastErr :=
                match more with
                | O => (Some (AppErr lastErr), log)
                | S more => post_loop more a form (attempt + 1) (pause a attempt (retryAfter header (retryCeil a)) log)
                end in
              if status =? 429 then
                retry (RateLimited "twilio.rate_limited" "twilio rate limited the request")
              else if 500 <=? status then retry (Internal "twilio.upstream_error" "twilio request failed")
              else (Some (AppErr (terminalError status tw)), log)
          end
      end
  end.

Definition postMessage (a : Adapter) (form : Values) (log : list Act) : option error * list Act :=
  post_loop (Z.to_nat (maxRetries a)) a form 0 log.

Definition normalizePhone (v : string) : string + Error :=
  match NormalizeIdentifier IdentPhone v with
  | inr err =>
      inr (Wrap (AppErr err) KindInvalid "twilio.invalid_phone" "phone number must be 7-15 digits (E.164)")
  | inl n => inl n
  end.

(** The URL [buildStatusCallback] renders. *)
Definition status_callback_url (base tenantID interactionID : string) : URL + Error :=
  let bad := Invalid "twilio.invalid_status_callback_base"
               "StatusCallbackBase must be an absolute http(s) URL" in
  match url_Parse base with
  | None => inr bad
  | Some u =>
      if is_empty (Scheme u) || is_empty (Host u) then inr bad
      else
      let q := URL_Query (RawQuery u) in
      let q := Values_Set q QueryInteractionID interactionID in
      let q := Values_Set q QueryTenantID tenantID in
      inl (MkURL (Scheme u) (Host u) (Encode q) (others u))
  end.

Definition buildStatusCallback (base tenantID interactionID : string) : string + Error :=
  match status_callback_url base tenantID interactionID with
  | inr err => inr err
  | inl u => inl (url_String u)
  end.

(** The check of a media URL. *)
Definition media_ok (mu : string) : bool :=
  match url_Parse mu with
  | None => false
  | Some u => String.eqb (Scheme u) "http" || String.eqb (Scheme u) "https"
  end.

(** The sending number: the message's, else the configured one. *)
Definition sender (a : Adapter) (msg : Message) : string :=
  let from := trim_space (msg_From msg) in
  if is_empty from then trim_space (fromNumber a) else from.

Definition message_form (fromN toN : string) (msg : Message) : Values :=
  let form := Values_Set ∅ "From" fromN in
  let form := Values_Set form "To" toN in
  let form := if is_empty (trim_space (msg_Body msg)) then form else Values_Set form "Body" (msg_Body msg) in
  fold_left (fun form mu => Values_Add form "MediaUrl" mu) (msg_MediaURLs msg) form.

(** [Send] up to the claim: the form to post. *)
Definition prepare (a : Adapter) (msg : Message) : Values + Error :=
  match ValidateMessage msg with
  | Some err => inr err
  | None =>
  if is_empty (msg_TenantID msg) then inr (Invalid "comms.tenant_required" "tenant context is required")
  else if is_empty (sender a msg) then
    inr (Invalid "twilio.from_required" "from is required (message From or ORVEXA_TWILIO_FROM_NUMBER)")
  else
  match normalizePhone (sender a msg) with
  | inr err => inr err
  | inl fromN =>
  match normalizePhone (msg_To msg) with
  | inr err => inr err
  | inl toN =>
  if negb (forallb media_ok (msg_MediaURLs msg)) then
    inr (Invalid "twilio.invalid_media" "media URLs must be http(s)")
  else
  let form := message_form fromN toN msg in
  if is_empty (statusBase a) then inl form
  else
  match buildStatusCallback (statusBase a) (msg_TenantID msg) (msg_InteractionID msg) with
  | inr err => inr err
  | inl cb => inl (Values_Set form "StatusCallback" cb)
  end
  end
  end
  end.

(** ** The claim of an interaction *)

Notation SentIDs := (gset string).

(** [true]: this caller owns the send. *)
Definition claimInteraction (id : string) (sent : SentIDs) : bool * SentIDs :=
  if decide (id ∈ sent) then (false, sent) else (true, {[id]} ∪ sent).

Definition releaseInteraction (id : string) (sent : SentIDs) : SentIDs := sent ∖ {[id]}.

(** What [Send] does once its post is over. *)
Definition settle (id : string) (r : option error) (sent : SentIDs) : SentIDs :=
  match r with Some _ => releaseInteraction id sent | None => sent end.

Record State := MkState {
  sentIDs : SentIDs;
  trace : list Act;
}.

Definition Send (a : Adapter) (msg : Message) (s : State) : option error * State :=
  match prepare a msg with
  | inr err => (Some (AppErr err), s)
  | inl form =>
      let '(own, sent) := claimInteraction (msg_InteractionID msg) (sentIDs s) in
      if own then
        let '(r, log) := postMessage a form (trace s) in
        (r, MkState (settle (msg_InteractionID msg) r sent) log)
      else (None, s)
  end.

(** The adapter behind the messaging port. *)
#[export] Instance twilio_messaging (a : Adapter) : MessagingProvider State := {
  mp_Send msg := fun _ w => let '(r, s) := Send a msg w.1 in (r, (s, w.2));
}.

(** ** translate.go *)

Definition evMessageSent := "message.sent".
Definition evMessageDelivered := "message.delivered".
Definition evMessageFailed := "message.failed".

Definition twilioStatusEvent : gmap string string :=
  list_to_map [("queued", evMessageSent); ("sent", evMessageSent); ("delivered", evMessageDelivered);
               ("undelivered", evMessageFailed); ("failed", evMessageFailed)].

Definition failureReason (status : string) (form : Values) : string :=
  if negb (String.eqb status "undelivered") && negb (String.eqb status "failed") then ""
  else
  let code := trim_space (Values_Get form "ErrorCode") in
  let msg := trim_space (Values_Get form "ErrorMessage") in
  if negb (is_empty code) && negb (is_empty msg) then "twilio " +:+ code +:+ ": " +:+ truncate msg 200
  else if negb (is_empty code) then "twilio error " +:+ truncate code 32
  else if negb (is_empty msg) then truncate msg 200
  else "twilio " +:+ status.

(** [status] of [TranslateStatus] *)
Definition callback_status (form : Values) : string :=
  let status := ToLower (trim_space (Values_Get form "MessageStatus")) in
  if is_empty status then ToLower (trim_space (Values_Get form "SmsStatus")) else status.

Definition TranslateStatus (uuid_valid : string -> bool) (form : Values) : ProviderEvent + Error :=
  let status := callback_status form in
  let sid := trim_space (Values_Get form "MessageSid") in
  let interactionID := trim_space (Values_Get form QueryInteractionID) in
  let tenantID := trim_space (Values_Get form QueryTenantID) in
  if is_empty status || is_empty sid || is_empty interactionID || is_empty tenantID then
    inr (Invalid "comms.malformed_callback"
           "MessageStatus, MessageSid, interaction_id and tenant_id are required")
  else if negb (uuid_valid interactionID) then
    inr (Invalid "comms.malformed_callback" "interaction_id must be a platform interaction id")
  else
  match twilioStatusEvent !! status with
  | None =>
      inr (Invalid "comms.unknown_event" ("unsupported Twilio MessageStatus " +:+ quote (truncate status 64)))
  | Some event => inl (MkProviderEvent event interactionID tenantID "" (failureReason status form))
  end.

(** The inner loop of [MergeCallbackForm] on a missing key: the first value. *)
Definition merge_key (post query : option (list string)) : option (list string) :=
  match post, query with
  | Some vs, _ => Some vs
  | None, Some (v :: _) => Some [v]
  | None, _ => None
  end.

Definition MergeCallbackForm (postForm query : Values) : Values := merge merge_key postForm query.

(** ** callback.go *)

Section Delivery.
Context `{EventJSON}.
(** [comms.IngestFunc] over the platform's state, and the signer *)
Variable Ingest : string -> string -> string -> env -> st -> option error * st.
Variable Signer : string -> string.

Definition HandleStatusCallback (a : Adapter) (form : Values) (e : env) (s : st) : option error * st :=
  if negb (ingest a) || negb (signer a) then
    (Some (AppErr (Invalid "twilio.ingest_not_wired"
                     "status callback delivery requires Config.Ingest and Config.Signer")), s)
  else
  match TranslateStatus (uuid_valid e) form with
  | inr err => (Some (AppErr err), s)
  | inl ev =>
      let '(wire, s) := EncodeEvent ev e s in
      match wire with
      | inr err =>
          (Some (AppErr (WithCause (Internal "twilio.event_encode_failed" "status callback could not be encoded") err)), s)
      | inl body => Ingest ProviderName body (Signer body) e s
      end
  end.
End Delivery.
End Adapter.

(** ** Properties of the Twilio messaging adapter

    Sends are bounded, a message is accepted at most once under any
    interleaving of its senders, the callback URL of a send routes the
    carrier's status back to it, and error texts hide the account. *)

(** ** The requests of a send *)

Definition is_post (x : Act) : bool := match x with Posted _ _ _ _ => true | _ => false end.

Section props.
Context `{Unicode} `{TwPorts}.

(** A policy [New] makes. *)
Record sane (a : Adapter) : Prop := {
  sane_retries : 0 <= maxRetries a <= 3;
  sane_base : 0 < retryBase a;
  sane_ceil : retryBase a <= retryCeil a;
}.

Lemma New_sane cfg a : New cfg = inl a -> sane a.
Proof.
  unfold New. destruct (_ || _); [done|]. destruct (negb _); [done|]. intros [= <-].
  unfold defaultRetryBase, defaultRetryCeiling, defaultMaxRetries, maxRetriesCeiling, Second, Millisecond.
  split; simpl; repeat match goal with |- context [if ?b then _ else _] => destruct b eqn:? end; lia.
Qed.

Lemma retryAfter_le h c : 0 <= c -> retryAfter h c <= c.
Proof.
  intros Hc. unfold retryAfter. destruct (is_empty _); [done|]. destruct (atoi _) as [z|]; [|done].
  destruct (_ <? 0); [done|]. cbv zeta. destruct (_ <? _) eqn:E; lia.
Qed.

Hypothesis Int64N_range : forall log d, 0 < d -> 0 <= rand_Int64N log d < d.

Lemma pause_acts a attempt d log :
  sane a -> d <= retryCeil a ->
  exists l, pause a attempt d log = log ++ l /\ requests is_post l = 0%nat
    /\ Forall (fun x => exists t, x = Slept t /\ 0 <= t <= retryCeil a) l.
Proof.
  intros [_ Hb Hc] Hd. unfold pause. destruct (ctx_Err log); [exists []; by rewrite app_nil_r|].
  eexists. split; [done|]. split; [done|]. apply Forall_singleton. eexists. split; [done|].
  destruct (d <=? 0) eqn:Ed; [|lia]. unfold fullJitter.
  set (c := if _ <? _ then _ else _). assert (c <= retryCeil a).
  { subst c. destruct (_ <? _) eqn:E; lia. }
  destruct (c <=? 0) eqn:E; [lia|]. pose proof (Int64N_range log c). lia.
Qed.

(** The trace of the loop. *)
Definition request (a : Adapter) (form : Values) : Act :=
  Posted (endpoint a) (accountSID a) (authToken a) (Encode form).

Definition act_ok (a : Adapter) (form : Values) (x : Act) : Prop :=
  x = request a form \/ exists t, x = Slept t /\ 0 <= t <= retryCeil a.

(** What a send of at most [n] requests does. *)
Definition sends (a : Adapter) (form : Values) (n : nat) (log : list Act) (res : option error * list Act) : Prop :=
  adds (act_ok a form) is_post n (res.1 = None) log res.2.

Lemma post_loop_ok a form more attempt log :
  sane a -> sends a form (S more) log (post_loop more a form attempt log).
Proof.
  intros Ha. assert (act_ok a form (request a form)) as Hreq by by left.
  assert (forall n log r, sends a form (S n) log (r, log ++ [request a form])) as Hlast
    by (intros; by apply adds_last).
  revert attempt log. induction more as [|more IH]; intros attempt log; cbn [post_loop];
    (destruct (ctx_Err log); [by apply adds_nothing|]); (destruct (http_NewRequest _); [by apply adds_nothing|]);
    fold (request a form); (destruct (http_Do _) as [err|status header body]; [apply Hlast|]);
    (destruct ((200 <=? status) && (status <? 300)); [apply Hlast|]);
    (destruct (status =? 429); [|destruct (500 <=? status); [|apply Hlast]]); try apply Hlast.
  all: edestruct pause_acts as (p & -> & Hp & Hf); [done|apply retryAfter_le; destruct Ha; lia|].
  all: eapply adds_request; [done|done|]; eapply adds_others; [|exact Hp|apply IH].
  all: eapply Forall_impl; [exact Hf|]; by right.
Qed.

(** A send makes at most one request more than the configured retries, all
    equal; pauses are within the configured ceiling; a send that succeeds
    either posted or repeats a claimed interaction. *)
Lemma twilio_send_bounded cfg a msg s r s' :
  New cfg = inl a -> Send a msg s = (r, s') ->
  s' = s /\ (r = None -> msg_InteractionID msg ∈ sentIDs s)
  \/ exists form, prepare a msg = inl form /\ sends a form 4 (trace s) (r, trace s').
Proof.
  intros Ha%New_sane. unfold Send. destruct (prepare a msg) as [form|err]; [|intros [= <- <-]; by left].
  unfold claimInteraction. destruct (decide _) as [Hin|Hin]; [intros [= <- <-]; by left|].
  pose proof (post_loop_ok a form (Z.to_nat (maxRetries a)) 0 (trace s) Ha) as (l & E & Hl & Hn & Hr).
  unfold postMessage. destruct (post_loop _ a form 0 (trace s)) as [r0 log] eqn:Ep. cbn [fst snd] in *. subst log.
  intros [= <- <-]. right. exists form. split; [done|]. exists l. cbn [trace fst snd]. destruct Ha.
  split_and!; [done|done|lia|done].
Qed.
End props.

(** ** Senders at the same time *)

(** The claims, the sends under way by sender, the interactions the carrier
    accepted, and what each caller was told. *)
Record Senders := MkSenders {
  claimed : gset string;
  under_way : gmap nat string;
  accepted : list string;
  told : list (nat * string * option error);
}.

Inductive sstep : Senders -> Senders -> Prop :=
| s_claim n id c' s :
    under_way s !! n = None -> claimInteraction id (claimed s) = (true, c') ->
    sstep s (MkSenders c' (<[n := id]> (under_way s)) (accepted s) (told s))
| s_duplicate n id c' s :
    under_way s !! n = None -> claimInteraction id (claimed s) = (false, c') ->
    sstep s (MkSenders c' (under_way s) (accepted s) (told s ++ [(n, id, None)]))
| s_finish n id r s :
    under_way s !! n = Some id ->
    sstep s (MkSenders (settle id r (claimed s)) (delete n (under_way s))
               (accepted s ++ (if r then [] else [id])) (told s ++ [(n, id, r)])).

Definition no_senders : Senders := MkSenders ∅ ∅ [] [].

Record senders_ok (s : Senders) : Prop := {
  so_nodup : NoDup (accepted s);
  so_accepted : forall id, id ∈ accepted s -> id ∈ claimed s;
  so_under_way : forall n id, under_way s !! n = Some id -> id ∈ claimed s /\ id ∉ accepted s;
  so_single : forall n m id, under_way s !! n = Some id -> under_way s !! m = Some id -> n = m;
}.

Lemma sstep_ok s s' : sstep s s' -> senders_ok s -> senders_ok s'.
Proof.
  intros Hst [H1 H2 H3 H4]. destruct Hst as [n id c' s Hn Hc|n id c' s Hn Hc|n id r s Hn];
    unfold claimInteraction in *.
  - destruct (decide (id ∈ claimed s)) as [|Hid]; [done|]. injection Hc as <-.
    split; simpl; [done|set_solver| |].
    + intros m k Hk. destruct (decide (m = n)) as [->|Hne].
      * rewrite lookup_insert_eq in Hk. injection Hk as <-. split; [set_solver|]. by intros ?%H2.
      * rewrite lookup_insert_ne in Hk by done. apply H3 in Hk. set_solver.
    + intros m m' k. destruct (decide (m = n)) as [->|Hm], (decide (m' = n)) as [->|Hm'];
        rewrite ?lookup_insert_eq, ?lookup_insert_ne by done; [done|..].
      * intros [= <-] Hk. by apply H3 in Hk as [? _].
      * intros Hk [= <-]. by apply H3 in Hk as [? _].
      * apply H4.
  - destruct (decide (id ∈ claimed s)); [|done]. injection Hc as <-. by split.
  - destruct (H3 _ _ Hn) as [Hc Ha].
    assert (forall m k, delete n (under_way s) !! m = Some k -> k <> id /\ under_way s !! m = Some k) as Hd.
    { intros m k [Hne Hk]%lookup_delete_Some. split; [|done]. intros ->. by apply Hne, (H4 n m id). }
    destruct r as [err|]; simpl.
    + rewrite app_nil_r. unfold releaseInteraction. split; simpl; [done| | |].
      * intros k Hk. pose proof (H2 _ Hk). set_solver.
      * intros m k [Hne Hk]%Hd. apply H3 in Hk. set_solver.
      * intros m m' k [_ Hk]%Hd [_ Hk']%Hd. by eapply H4.
    + split; simpl.
      * apply NoDup_app. split_and!; [done| |apply NoDup_singleton].
        intros k Hk ->%list_elem_of_singleton. done.
      * intros k [Hk| ->%list_elem_of_singleton]%elem_of_app; [by apply H2|done].
      * intros m k [Hne Hk]%Hd. apply H3 in Hk as [Hk1 Hk2]. split; [done|].
        by intros [?|?%list_elem_of_singleton]%elem_of_app.
      * intros m m' k [_ Hk]%Hd [_ Hk']%Hd. by eapply H4.
Qed.

(** Under every interleaving of the callers the carrier accepts an interaction
    at most once. *)
Lemma twilio_single_accept s : rtc sstep no_senders s -> NoDup (accepted s).
Proof.
  intros Hr. cut (senders_ok s); [by intros []|].
  revert Hr. assert (senders_ok no_senders) as H0.
  { split; simpl; [constructor|set_solver|by intros ? ? ?%lookup_empty_Some|by intros ? ? ? ?%lookup_empty_Some]. }
  revert H0. generalize no_senders. intros s0 H0 Hr. induction Hr as [|s0 s1 s2 Hst _ IH]; [done|].
  by eapply IH, sstep_ok.
Qed.

(** A caller that finds the claim of a send under way is told the message is
    sent; when that send fails, no one sends it and the caller never learns. *)
Lemma duplicate_told_sent : exists s,
  rtc sstep no_senders s /\ under_way s = ∅ /\ accepted s = [] /\ (2%nat, "i1", None) ∈ told s.
Proof.
  eexists. split; [|split; [|split]].
  - eapply rtc_l; [apply (s_claim 1 "i1" ({["i1"]} ∪ ∅)); vm_compute; reflexivity|].
    eapply rtc_l; [apply (s_duplicate 2 "i1" ({["i1"]} ∪ ∅)); vm_compute; reflexivity|].
    eapply rtc_l; [apply (s_finish 1 "i1" (Some (OtherErr "connection reset" None))); vm_compute; reflexivity|].
    apply rtc_refl.
  - reflexivity.
  - reflexivity.
  - simpl. set_solver.
Qed.

(** ** Status callbacks find their send *)

Section callbacks.
Context `{Unicode} `{TwPorts}.

(** What is read of the carrier's form. *)
Definition carrier_keys : list string := ["MessageSid"; "MessageStatus"; "SmsStatus"; "ErrorCode"; "ErrorMessage"].

(** The keys the adapter put on a callback URL read back from it, beside those
    of the base. *)
Lemma status_callback_query base t i u :
  status_callback_url base t i = inl u -> exists b, url_Parse base = Some b
  /\ URL_Query (RawQuery u) = <[QueryTenantID := [t]]> (<[QueryInteractionID := [i]]> (URL_Query (RawQuery b))).
Proof.
  unfold status_callback_url. destruct (url_Parse base) as [b|]; [|done]. destruct (_ || _); [done|].
  intros [= <-]. exists b. split; [done|]. apply Query_Encode.
  intros k l. unfold Values_Set. rewrite !lookup_insert_Some.
  intros [[_ <-]|[_ [[_ <-]|[_ Hk]]]]; [done..|]. by eapply URL_Query_nonempty.
Qed.

(** The carrier posts a status to the callback URL of a send; whatever the ids
    and the base URL, as long as its query is not mistaken for the carrier's
    form, the merged form translates to an event of that very interaction and
    tenant. *)
Lemma status_callback_routes base t i u post event uv :
  status_callback_url base t i = inl u ->
  (forall b k, url_Parse base = Some b -> k ∈ carrier_keys -> URL_Query (RawQuery b) !! k = None) ->
  post !! QueryInteractionID = None -> post !! QueryTenantID = None ->
  trim_space i = i -> i <> "" -> uv i = true -> trim_space t = t -> t <> "" ->
  trim_space (Values_Get post "MessageSid") <> "" ->
  twilioStatusEvent !! callback_status post = Some event ->
  TranslateStatus uv (MergeCallbackForm post (URL_Query (RawQuery u)))
  = inl (MkProviderEvent event i t "" (failureReason (callback_status post) post)).
Proof.
  intros Hu Hb Hi Ht Hit Hin Huv Htt Htn Hsid Hev.
  destruct (status_callback_query _ _ _ _ Hu) as (b & Eb & Hq).
  set (form := MergeCallbackForm post (URL_Query (RawQuery u))).
  assert (forall k, k ∈ carrier_keys -> Values_Get form k = Values_Get post k) as Hk.
  { intros k Hk. unfold form, Values_Get, MergeCallbackForm. rewrite lookup_merge, Hq.
    rewrite !lookup_insert_ne, (Hb b k) by (done || (intros <-; unfold carrier_keys in Hk; set_solver)).
    by destruct (post !! k). }
  assert (Values_Get form QueryInteractionID = i /\ Values_Get form QueryTenantID = t) as [Hgi Hgt].
  { unfold form, Values_Get, MergeCallbackForm. rewrite !lookup_merge, Hi, Ht, Hq.
    by rewrite lookup_insert_ne, !lookup_insert_eq. }
  assert (callback_status form = callback_status post) as Hst.
  { unfold callback_status. by rewrite !Hk by (unfold carrier_keys; set_solver). }
  assert (is_empty (callback_status post) = false) as Hne.
  { apply is_empty_false. intros E. by rewrite E in Hev. }
  unfold TranslateStatus. rewrite Hst, Hk, Hgi, Hgt, Hit, Htt, Hne by (unfold carrier_keys; set_solver).
  apply is_empty_false in Hin, Htn, Hsid. rewrite Hin, Htn, Hsid, Huv, Hev. cbn [orb negb].
  unfold failureReason. by rewrite !Hk by (unfold carrier_keys; set_solver).
Qed.
End callbacks.

(** ** Error texts *)

Lemma cut_at_marker x y :
  has_byte x "A" = false -> cut_at (x ++ "/Accounts/" ++ y)%string "/Accounts/" = Some (x, y).
Proof.
  induction x as [|a x IH]; [by destruct y|]. cbn [has_byte]. intros [Ha Hx]%orb_false_iff.
  change ((String a x ++ "/Accounts/" ++ y)%string) with (String a (x ++ "/Accounts/" ++ y)).
  assert (has_prefix (String a (x ++ "/Accounts/" ++ y)) "/Accounts/" = false) as Hp.
  { destruct x as [|b x]; simpl; [apply andb_false_r|].
    cbn [has_byte] in Hx. apply orb_false_iff in Hx as [-> _]. apply andb_false_r. }
  unfold cut_at at 1. rewrite Hp. fold cut_at. by rewrite (IH Hx).
Qed.

Lemma PathEscape_slash s : has_byte (PathEscape s) "/" = false.
Proof.
  induction s as [|a s IH]; [done|]. simpl. unfold segment_byte, percent.
  by destruct a as [[] [] [] [] [] [] [] []].
Qed.

Lemma cut_at_slash x y : has_byte x "/" = false -> cut_at (x ++ "/" ++ y)%string "/" = Some (x, y).
Proof.
  induction x as [|a x IH]; [by destruct y|]. cbn [has_byte]. intros [Ha Hx]%orb_false_iff.
  simpl. rewrite Ha. simpl. by rewrite (IH Hx).
Qed.

(** Over a base URL without a capital A the account is not in the URL of a
    transport error. *)
Lemma endpoint_redacted a :
  has_byte (apiBase a) "A" = false ->
  redactEndpoint (endpoint a) = (apiBase a ++ "/2010-04-01/Accounts/[redacted]/Messages.json")%string.
Proof.
  intros Ha. unfold redactEndpoint, endpoint.
  assert ((apiBase a +:+ "/2010-04-01/Accounts/" +:+ PathEscape (accountSID a) +:+ "/Messages.json")
          = ((apiBase a ++ "/2010-04-01") ++ "/Accounts/" ++ (PathEscape (accountSID a) ++ "/" ++ "Messages.json"))%string) as ->.
  { rewrite !sapp_assoc. reflexivity. }
  rewrite cut_at_marker by (rewrite has_byte_app, Ha; done).
  rewrite cut_at_slash by apply PathEscape_slash.
  rewrite !sapp_assoc. reflexivity.
Qed.

(** Behind a proxy path with a segment [Accounts] of its own the first marker
    is redacted and the account stays. *)
Lemma redaction_misses_account :
  redactEndpoint "https://proxy/Accounts/eu/2010-04-01/Accounts/AC123/Messages.json"
  = "https://proxy/Accounts/[redacted]/2010-04-01/Accounts/AC123/Messages.json".
Proof. reflexivity. Qed.

(** A Retry-After beyond 292 years in nanoseconds wraps: it is not clamped to
    the ceiling, it is no guidance at all. *)
Lemma large_retry_after_wraps :
  retryAfter "9223372036" 2000000000 = 2000000000 /\ retryAfter "9223372037" 2000000000 < 0.
Proof. by vm_compute. Qed.

(** ** Without a base URL *)

Section unset_base.
Context `{Unicode} `{TwPorts}.
Variable a : Adapter.
Hypothesis unset : apiBase a = "".
(** A URL without scheme is refused by the HTTP client. *)
Hypothesis no_scheme : forall log url user pass form, has_prefix url "/" = true ->
  exists err, http_Do (log ++ [Posted url user pass form]) = TransportFailed err.

Lemma unset_post_fails more form attempt log : (post_loop more a form attempt log).1 <> None.
Proof.
  destruct more as [|more]; cbn [post_loop];
    (destruct (ctx_Err log); [done|]); (destruct (http_NewRequest _); [done|]);
    (edestruct (no_scheme log (endpoint a)) as [err ->]; [unfold endpoint; by rewrite unset|done]).
Qed.

Lemma unset_send_fails msg s : sentIDs s = ∅ -> (Send a msg s).1 <> None /\ sentIDs (Send a msg s).2 = ∅.
Proof.
  intros Hs. unfold Send. destruct (prepare a msg) as [form|err]; [|done].
  unfold claimInteraction. rewrite Hs. destruct (decide _) as [Hin|_]; [set_solver|].
  pose proof (unset_post_fails (Z.to_nat (maxRetries a)) form 0 (trace s)) as Hf. unfold postMessage.
  destruct (post_loop _ a form 0 (trace s)) as [[err|] log]; [|done]. split; [done|].
  simpl. unfold releaseInteraction. set_solver.
Qed.

Definition send_all (msgs : list Message) : State :=
  fold_left (fun s msg => (Send a msg s).2) msgs (MkState ∅ []).

(** Every send of every history fails. *)
Lemma unset_base_never_delivers msgs msg : (Send a msg (send_all msgs)).1 <> None.
Proof.
  apply unset_send_fails. unfold send_all.
  assert (sentIDs (MkState ∅ []) = ∅) as Hs0 by done. revert Hs0. generalize (MkState ∅ []).
  induction msgs as [|m msgs IH]; intros s Hs; [done|]. simpl. apply IH. by apply unset_send_fails.
Qed.
End unset_base.

(** ** Examples *)

#[local] Instance ascii_tables : Unicode := {| unicode_ToLower := to_lower |}.

(** A carrier that accepts every message; a URL parser that knows one base. *)
#[local] Instance demo_twilio : TwPorts := {|
  url_Parse s := if String.eqb s "https://orvexa.example/hooks?env=prod"
                 then Some (MkURL "https" "orvexa.example" "env=prod" ["/hooks"]) else None;
  url_String u := Scheme u +:+ "://" +:+ Host u +:+ Join (others u) "" +:+ "?" +:+ RawQuery u;
  json_twilioError _ := None;
  http_NewRequest _ := None;
  http_Do _ := Response 201 "" "";
  ctx_Err _ := None;
  rand_Int64N _ _ := 0;
|}.

Definition demo_post : Values :=
  {[ "MessageSid" := ["SM1"]; "MessageStatus" := ["Undelivered"]; "ErrorCode" := ["30003"] ]}.

Definition demo_callback : URL :=
  MkURL "https" "orvexa.example" "env=prod&interaction_id=i%261&tenant_id=t1" ["/hooks"].

Lemma status_callback_routes_witness :
  status_callback_url "https://orvexa.example/hooks?env=prod" "t1" "i&1" = inl demo_callback
  /\ TranslateStatus (fun _ => true) (MergeCallbackForm demo_post (URL_Query (RawQuery demo_callback)))
     = inl (MkProviderEvent evMessageFailed "i&1" "t1" "" "twilio error 30003").
Proof.
  assert (status_callback_url "https://orvexa.example/hooks?env=prod" "t1" "i&1" = inl demo_callback) as Hu
    by (vm_compute; reflexivity).
  split; [exact Hu|].
  etransitivity; [apply (status_callback_routes _ _ _ _ demo_post evMessageFailed (fun _ => true) Hu)|].
  - intros b k Hb Hk. change (url_Parse _) with (Some (MkURL "https" "orvexa.example" "env=prod" ["/hooks"])) in Hb.
    injection Hb as <-. revert k Hk. apply (Forall_forall _ _). vm_compute. repeat constructor.
  - vm_compute. reflexivity.
  - vm_compute. reflexivity.
  - vm_compute. reflexivity.
  - discriminate.
  - reflexivity.
  - vm_compute. reflexivity.
  - discriminate.
  - vm_compute. discriminate.
  - vm_compute. reflexivity.
  - vm_compute. reflexivity.
Defined.

(** A send, its duplicate, and the request on the wire. *)
Example twilio_send_demo :
  exists a, New (MkConfig "AC1" "tok" "+254700000001" "https://api.twilio.com/" "" false false 0 0 0) = inl a
  /\ let m := MkMessage "i1" "t1" "sms" "" "0712 345678901" "hi there" [] in
     let s := (Send a m (MkState ∅ [])).2 in
     (Send a m (MkState ∅ [])).1 = None /\ Send a m s = (None, s)
     /\ trace s = [Posted "https://api.twilio.com/2010-04-01/Accounts/AC1/Messages.json" "AC1" "tok"
                     "Body=hi+there&From=%2B254700000001&To=%2B0712345678901"].
Proof. eexists. split; [reflexivity|]. by vm_compute. Qed.
