(* ===== verification/AmiClient.v ===== *)
(** * internal/telephony/adapters/asterisk/conn.go: the AMI session layer

    The supervisor's backoff, the handshake over the byte stream, and the
    client as atomic steps of its goroutines: the supervisor that installs and
    retires sessions, the reader that fans replies out to waiters, and any
    number of callers in [call], [callOnce] and [doAction]. A session is its
    number; a channel is a list of at most its capacity. Where Go's [select]
    chooses, every enabled branch is a step; deadlines and cancellations may
    fire at any moment. *)

From Stdlib Require Import String Ascii.
From S2P Require Import Prelude GoStd AppErrors Wire Ami.

Local Open Scope Z_scope.

Definition codeUnavailable := "asterisk.unavailable".
Definition codeAuthFailed := "asterisk.auth_failed".
Definition codeActionTimeout := "asterisk.action_timeout".
Definition codeActionFailed := "asterisk.action_failed".
Definition codeDisconnected := "asterisk.disconnected".
Definition codeWriteFailed := "asterisk.write_failed".
Definition codeActionIDBusy := "asterisk.action_id_busy".
Definition codeHeaderInj := "asterisk.header_injection".

(** ** The reconnect schedule *)

(** The loop from one wait, with [n] doublings to go; the product wraps. *)
Fixpoint double_wait (n : nat) (wait max : Z) : Z :=
  match n with
  | O => wait
  | S n => if wait <? max then double_wait n (wrap64 (wait * 2)) max else wait
  end.

Definition boundedBackoff (base max n : Z) : Z :=
  let n := if n <? 1 then 1 else n in
  let wait := double_wait (Z.to_nat (n - 1)) base max in
  if max <? wait then max else wait.

(** ** Errors *)

(** The first value that is not empty. *)
Definition firstNonEmpty (a b : string) : string := if is_empty a then b else a.

Definition ami_error_text (err : ami_error) : string :=
  match err with
  | ErrPacketTooLarge what => "asterisk: AMI packet exceeds protocol bounds: " +:+ what
  | ErrMalformedPacket what => "asterisk: malformed AMI packet: " +:+ what
  | StreamEOF => "EOF"
  | StreamError err => err
  end.

Definition ami_cause (err : ami_error) : error := OtherErr (ami_error_text err) None.

(** [fmt.Errorf(what + ": %w", err)] *)
Definition wrapf (what : string) (err : error) : error := OtherErr (what +:+ ": " +:+ error_text err) (Some err).

Definition actionError (action response message : string) : Error :=
  Internal codeActionFailed
    ("asterisk: AMI " +:+ action +:+ " action failed: " +:+ cleanWireValue (firstNonEmpty message response) 0).

(** [unavailable], over the last session error. *)
Definition unavailable (lastErr : option error) : Error :=
  let auth := match lastErr with
              | Some err => match errors_As err with Some ae => String.eqb (Code ae) codeAuthFailed | None => false end
              | None => false
              end in
  if auth then Unauth codeAuthFailed "asterisk: AMI rejected the configured credentials"
  else
    let e := Internal codeUnavailable "asterisk: no AMI session is available" in
    match lastErr with Some err => WithCause e err | None => e end.

Definition disconnected : error :=
  AppErr (Internal codeDisconnected "asterisk: AMI session dropped before the action was answered").

(** ** The handshake *)

(** What the handshake runs on: the bytes the server sends, the result of each
    write by its number, and the writes made. *)
Record Wire := MkWire {
  input : Stream;
  write_result : nat -> option error;
  written : list string;
}.

Section Handshake.
(** hex-encoded MD5 *)
Variable md5_hex : string -> string.
Variables (Username Secret : string).

Definition amiMD5Key (secret challenge : string) : string := md5_hex (secret +:+ challenge).

Definition response (p : amiPacket) : string := get p "Response".

(** [exchange], minting the id from the sequence number. *)
Definition exchange (req : amiRequest) (seq : Z) (w : Wire) : (amiPacket + error) * Z * Wire :=
  let seq := seq + 1 in
  match encode (withActionID req ("ovx-hs-" +:+ itoa seq)) with
  | inr err =>
      (inr (AppErr (Invalid codeHeaderInj ("asterisk: handshake request invalid: " +:+ ami_error_text err))), seq, w)
  | inl buf =>
      match write_result w (length (written w)) with
      | Some err =>
          (inr (AppErr (WithCause (Internal codeWriteFailed "asterisk: handshake request could not be written") err)), seq,
           MkWire (input w) (write_result w) (written w ++ [buf]))
      | None =>
          let w := MkWire (input w) (write_result w) (written w ++ [buf]) in
          match next newAMIReader (input w) with
          | inr err => (inr (wrapf "read AMI handshake reply" (ami_cause err)), seq, w)
          | inl (pkt, rest) => (inl pkt, seq, MkWire rest (write_result w) (written w))
          end
      end
  end.

Definition rejected (what : string) (pkt : amiPacket) : error :=
  AppErr (Unauth codeAuthFailed
            ("asterisk: AMI rejected the " +:+ what +:+ ": "
               +:+ cleanWireValue (firstNonEmpty (get pkt "Message") (response pkt)) 0)).

Definition challenge_request : amiRequest := MkRequest "Challenge" [MkHeader "AuthType" "MD5"].

Definition login_request (seed : string) : amiRequest :=
  MkRequest "Login" [MkHeader "Username" Username; MkHeader "Key" (amiMD5Key Secret seed)].

(** The banner: what is read before the login, and the stream after it. A
    missing banner is no failure. *)
Definition read_banner (s : Stream) : Stream + error :=
  match next newAMIReader s with
  | inl (banner, rest) =>
      if isResponse banner then
        inr (AppErr (Internal codeActionFailed "asterisk: unexpected response instead of the AMI banner"))
      else inl rest
  | inr StreamEOF => inl (MkStream "" (failure s))
  | inr err => inr (wrapf "read AMI banner" (ami_cause err))
  end.

Definition handshake (seq : Z) (w : Wire) : option error * Z * Wire :=
  match read_banner (input w) with
  | inr err => (Some err, seq, w)
  | inl rest =>
      let w := MkWire rest (write_result w) (written w) in
      let '(r, seq, w) := exchange challenge_request seq w in
      match r with
      | inr err => (Some err, seq, w)
      | inl challenge =>
          if negb (String.eqb (response challenge) "Success") then (Some (rejected "Challenge request" challenge), seq, w)
          else
          let '(r, seq, w) := exchange (login_request (get challenge "Challenge")) seq w in
          match r with
          | inr err => (Some err, seq, w)
          | inl login =>
              if negb (String.eqb (response login) "Success") then (Some (rejected "credentials" login), seq, w)
              else (None, seq, w)
          end
      end
  end.
End Handshake.

(** ** The client *)

(** *** The event hook

    [Voice.enqueueEvent] (events.go) is the client's [onEvent]: a queue of
    [eventQueueSize] packets towards [deliverLoop]. *)

Definition eventQueueSize : nat := 256.

(** The packets given to the hook, the one it holds while the reader is inside
    it, the queue, whether the adapter is closed, and what [deliverLoop] took. *)
Record eventSink := MkSink {
  es_offered : list amiPacket;
  es_blocked : option amiPacket;
  es_queue : list amiPacket;
  es_stopped : bool;
  es_handled : list amiPacket;
}.

Definition newSink : eventSink := MkSink [] None [] false [].

(** The reader enters [enqueueEvent]. *)
Definition offer (pkt : amiPacket) (q : eventSink) : eventSink :=
  MkSink (es_offered q ++ [pkt]) (Some pkt) (es_queue q) (es_stopped q) (es_handled q).

(** The branches of its [select]: a place in the queue; the adapter closed. *)
Definition enqueue (q : eventSink) : option eventSink :=
  match es_blocked q with
  | Some pkt =>
      if (length (es_queue q) <? eventQueueSize)%nat
      then Some (MkSink (es_offered q) None (es_queue q ++ [pkt]) (es_stopped q) (es_handled q)) else None
  | None => None
  end.

Definition abandon (q : eventSink) : option eventSink :=
  match es_blocked q with
  | Some _ => if es_stopped q then Some (MkSink (es_offered q) None (es_queue q) true (es_handled q)) else None
  | None => None
  end.

(** [deliverLoop] takes the next packet. *)
Definition take_event (q : eventSink) : option eventSink :=
  match es_queue q with
  | pkt :: rest => Some (MkSink (es_offered q) (es_blocked q) rest (es_stopped q) (es_handled q ++ [pkt]))
  | [] => None
  end.

(** [Close] closes [stop]. *)
Definition stop_events (q : eventSink) : eventSink :=
  MkSink (es_offered q) (es_blocked q) (es_queue q) true (es_handled q).

(** [amiSession]: the closed channels and the reply waiters. *)
Record amiSession := MkSession {
  dead : bool;
  ready : bool;
  pending : gmap string nat;
}.

Definition newAMISession : amiSession := MkSession false false ∅.

(** Where a caller is: at the top of the loop of [call]; in
    [waitSessionChange] on one [changed] channel; waiting for a session to be
    ready; between registration and write; waiting for the reply; about to
    remove its waiter as [doAction] returns; returned. *)
Inductive Outcome :=
| SessionDead
| Result (r : amiPacket + error).

Inductive Phase :=
| Choosing
| AwaitChange (gen : nat)
| AwaitReady (s : nat)
| Writing (s ch : nat)
| AwaitReply (s ch : nat)
| Leaving (s ch : nat) (o : Outcome)
| Returned (r : amiPacket + error).

(** One run of [call], or of [callOnce] when [once]. *)
Record Caller := MkCaller {
  cl_id : string;
  cl_buf : string;
  once : bool;
  phase : Phase;
}.

Record amiClient := MkClient {
  sess_tab : list amiSession;
  sess : option nat;
  (** the number of session changes: the identity of [changed] *)
  changed : nat;
  seqno : Z;
  lastErr : option error;
  callers : list Caller;
  (** the reply channels, of capacity one *)
  chans : list (list amiPacket);
  (** what was written after the handshakes, and the replies read *)
  wire : list (nat * string);
  replies : list (nat * amiPacket);
  (** the event hook *)
  events : eventSink;
}.

Definition newClient : amiClient := MkClient [] None 0 0 None [] [] [] [] newSink.

Definition set_sess (c : amiClient) (t : list amiSession) (cur : option nat) (g : nat) : amiClient :=
  MkClient t cur g (seqno c) (lastErr c) (callers c) (chans c) (wire c) (replies c) (events c).

Definition on_session (s : nat) (f : amiSession -> amiSession) (c : amiClient) : amiClient :=
  set_sess c (alter f s (sess_tab c)) (sess c) (changed c).

Definition set_lastErr (err : option error) (c : amiClient) : amiClient :=
  MkClient (sess_tab c) (sess c) (changed c) (seqno c) err (callers c) (chans c) (wire c) (replies c) (events c).

Definition set_phase (i : nat) (p : Phase) (c : amiClient) : amiClient :=
  MkClient (sess_tab c) (sess c) (changed c) (seqno c) (lastErr c)
    (alter (fun x => MkCaller (cl_id x) (cl_buf x) (once x) p) i (callers c)) (chans c) (wire c) (replies c) (events c).

(** *** Sessions *)

Definition install (c : amiClient) : amiClient :=
  set_sess c (sess_tab c ++ [newAMISession]) (Some (length (sess_tab c))) (S (changed c)).

Definition uninstall (s : nat) (c : amiClient) : amiClient :=
  if decide (sess c = Some s) then set_sess c (sess_tab c) None (S (changed c)) else c.

(** [die]: the waiters are dropped with the map. *)
Definition die (s : nat) : amiClient -> amiClient := on_session s (fun x => MkSession true (ready x) ∅).

Definition is_dead (c : amiClient) (s : nat) : bool :=
  match sess_tab c !! s with Some x => dead x | None => false end.

Definition is_ready (c : amiClient) (s : nat) : bool :=
  match sess_tab c !! s with Some x => ready x | None => false end.

Definition clearLastErr : amiClient -> amiClient := set_lastErr None.

Definition recordLastErr (err : option error) (c : amiClient) : amiClient :=
  match err with Some _ => set_lastErr err c | None => c end.

(** The end of a successful handshake. *)
Definition session_ready (s : nat) (c : amiClient) : amiClient :=
  clearLastErr (on_session s (fun x => MkSession (dead x) true (pending x)) c).

Definition addPending (s : nat) (id : string) (ch : nat) (c : amiClient) : option amiClient :=
  match sess_tab c !! s with
  | Some x =>
      match pending x !! id with
      | Some _ => None
      | None => Some (on_session s (fun x => MkSession (dead x) (ready x) (<[id := ch]> (pending x))) c)
      end
  | None => None
  end.

Definition removePending (s : nat) (id : string) : amiClient -> amiClient :=
  on_session s (fun x => MkSession (dead x) (ready x) (delete id (pending x))).

Definition takePending (s : nat) (id : string) (c : amiClient) : option nat * amiClient :=
  match sess_tab c !! s with
  | Some x => (pending x !! id, removePending s id c)
  | None => (None, c)
  end.

Definition with_events (q : eventSink) (c : amiClient) : amiClient :=
  MkClient (sess_tab c) (sess c) (changed c) (seqno c) (lastErr c) (callers c) (chans c) (wire c) (replies c) q.

(** [serve] on one packet; with an event the reader is then inside the hook. *)
Definition serve_packet (s : nat) (pkt : amiPacket) (c : amiClient) : amiClient :=
  if isEvent pkt then with_events (offer pkt (events c)) c
  else if isResponse pkt then
    let c := MkClient (sess_tab c) (sess c) (changed c) (seqno c) (lastErr c) (callers c) (chans c) (wire c)
               (replies c ++ [(s, pkt)]) (events c) in
    if is_empty (actionID pkt) then c
    else
      let '(ch, c) := takePending s (actionID pkt) c in
      match ch with
      | None => c
      | Some ch =>
          MkClient (sess_tab c) (sess c) (changed c) (seqno c) (lastErr c) (callers c)
            (alter (fun q => q ++ [pkt]) ch (chans c)) (wire c) (replies c) (events c)
      end
  else c.

(** *** Callers *)

(** The first lines of [call] and of [callOnce]. *)
Definition start_call (one : bool) (prefix aid : string) (req : amiRequest) (c : amiClient) : amiClient :=
  let mint := is_empty aid in
  let seq := if mint then seqno c + 1 else seqno c in
  let aid := if mint then prefix +:+ itoa seq else aid in
  let '(buf, ph) :=
    match encode (withActionID req aid) with
    | inr err => ("", Returned (inr (AppErr (Invalid codeHeaderInj ("asterisk: request invalid: " +:+ ami_error_text err)))))
    | inl buf => (buf, Choosing)
    end in
  MkClient (sess_tab c) (sess c) (changed c) seq (lastErr c) (callers c ++ [MkCaller aid buf one ph]) (chans c) (wire c)
    (replies c) (events c).

Definition call (aid : string) (req : amiRequest) : amiClient -> amiClient := start_call false "ovx-" aid req.
Definition callOnce (req : amiRequest) : amiClient -> amiClient := start_call true "ovx-ping-" "" req.

(** The session of a caller at the top of the loop. *)
Definition choose_session (i : nat) (x : Caller) (c : amiClient) : amiClient :=
  if once x then
    set_phase i (match sess c with
                 | None => Returned (inr (AppErr (unavailable (lastErr c))))
                 | Some s => AwaitReady s
                 end) c
  else
    set_phase i (match sess c with
                 | Some s => if is_dead c s then AwaitChange (changed c) else AwaitReady s
                 | None => AwaitChange (changed c)
                 end) c.

(** The deferred removal of [doAction], and what its caller makes of the
    outcome; [retry] when the deadline has not passed and the context is not
    done. *)
Definition leave_action (i s : nat) (x : Caller) (o : Outcome) (retry : bool) (c : amiClient) : amiClient :=
  set_phase i (match o with
               | Result r => Returned r
               | SessionDead => if negb (once x) && retry then Choosing else Returned (inr disconnected)
               end) (removePending s (cl_id x) c).

(** [doAction] up to the registration of the waiter. *)
Definition register_waiter (i s : nat) (x : Caller) (c : amiClient) : amiClient :=
  let ch := length (chans c) in
  match addPending s (cl_id x) ch c with
  | None =>
      set_phase i (Returned (inr (AppErr (Conflict codeActionIDBusy
                     "asterisk: an action with this ActionID is already in flight")))) c
  | Some c =>
      set_phase i (Writing s ch)
        (MkClient (sess_tab c) (sess c) (changed c) (seqno c) (lastErr c) (callers c) (chans c ++ [[]]) (wire c)
           (replies c) (events c))
  end.

(** The write of [doAction] with the result of the socket. *)
Definition write_request (i s ch : nat) (x : Caller) (result : option error) (c : amiClient) : amiClient :=
  if is_dead c s then set_phase i (Leaving s ch SessionDead) c
  else match result with
       | Some err =>
           set_phase i (Leaving s ch (Result (inr (AppErr (WithCause
             (Internal codeWriteFailed "asterisk: AMI request could not be written") err))))) c
       | None =>
           set_phase i (AwaitReply s ch)
             (MkClient (sess_tab c) (sess c) (changed c) (seqno c) (lastErr c) (callers c) (chans c)
                (wire c ++ [(s, cl_buf x)]) (replies c) (events c))
       end.

Definition action_timeout : error :=
  AppErr (Internal codeActionTimeout "asterisk: AMI action timed out waiting for a reply").

(** What can happen next. *)
Inductive Step :=
(** the supervisor: a connection is dialled; its handshake succeeds; it dies;
    it is retired; the error of its run is recorded *)
| Dialled
| Ready (s : nat)
| Dies (s : nat)
| Retired (s : nat)
| RunEnded (err : option error)
(** the reader: one goroutine, which reads the next packet once the hook has let
    it go; the hook's queue *)
| Packet (s : nat) (pkt : amiPacket)
| Enqueued
| Abandoned
| Taken
| Closing
(** callers *)
| Calls (aid : string) (req : amiRequest)
| CallsOnce (req : amiRequest)
| Chooses (i : nat)
| Wakes (i : nat)
| Proceeds (i : nat)
| SeesDead (i : nat)
| Writes (i : nat) (result : option error)
| Receives (i : nat)
| Leaves (i : nat) (retry : bool)
| TimesOut (i : nat)
| Canceled (i : nat) (err : error).

Definition with_caller (i : nat) (c : amiClient) (f : Caller -> option amiClient) : option amiClient :=
  match callers c !! i with Some x => f x | None => None end.

(** A step, when it is enabled. *)
Definition step (ev : Step) (c : amiClient) : option amiClient :=
  match ev with
  | Dialled => Some (install c)
  | Ready s => Some (session_ready s c)
  | Dies s => Some (die s c)
  | Retired s => Some (uninstall s c)
  | RunEnded err => Some (recordLastErr err c)
  | Packet s pkt => match es_blocked (events c) with None => Some (serve_packet s pkt c) | Some _ => None end
  | Enqueued => (fun q => with_events q c) <$> enqueue (events c)
  | Abandoned => (fun q => with_events q c) <$> abandon (events c)
  | Taken => (fun q => with_events q c) <$> take_event (events c)
  | Closing => Some (with_events (stop_events (events c)) c)
  | Calls aid req => Some (call aid req c)
  | CallsOnce req => Some (callOnce req c)
  | Chooses i =>
      with_caller i c (fun x => match phase x with Choosing => Some (choose_session i x c) | _ => None end)
  | Wakes i =>
      with_caller i c (fun x =>
        match phase x with
        | AwaitChange g => if decide (g = changed c) then None else Some (set_phase i Choosing c)
        | _ => None
        end)
  | Proceeds i =>
      with_caller i c (fun x =>
        match phase x with
        | AwaitReady s => if is_ready c s then Some (register_waiter i s x c) else None
        | _ => None
        end)
  | SeesDead i =>
      with_caller i c (fun x =>
        match phase x with
        | AwaitReady s =>
            if is_dead c s then
              Some (if once x then set_phase i (Returned (inr disconnected)) c else set_phase i Choosing c)
            else None
        | AwaitReply s ch => if is_dead c s then Some (set_phase i (Leaving s ch SessionDead) c) else None
        | _ => None
        end)
  | Writes i result =>
      with_caller i c (fun x =>
        match phase x with Writing s ch => Some (write_request i s ch x result c) | _ => None end)
  | Receives i =>
      with_caller i c (fun x =>
        match phase x with
        | AwaitReply s ch =>
            match chans c !! ch with
            | Some (pkt :: _) => Some (set_phase i (Leaving s ch (Result (inl pkt))) c)
            | _ => None
            end
        | _ => None
        end)
  | Leaves i retry =>
      with_caller i c (fun x =>
        match phase x with Leaving s ch o => Some (leave_action i s x o retry c) | _ => None end)
  | TimesOut i =>
      with_caller i c (fun x =>
        match phase x with
        | AwaitChange _ | AwaitReady _ => Some (set_phase i (Returned (inr (AppErr (unavailable (lastErr c))))) c)
        | AwaitReply s ch => Some (set_phase i (Leaving s ch (Result (inr action_timeout))) c)
        | _ => None
        end)
  | Canceled i err =>
      with_caller i c (fun x =>
        match phase x with
        | Choosing => if once x then None else Some (set_phase i (Returned (inr err)) c)
        | AwaitChange _ => Some (set_phase i (Returned (inr (AppErr (unavailable (lastErr c))))) c)
        | AwaitReady _ => Some (set_phase i (Returned (inr err)) c)
        | AwaitReply s ch => Some (set_phase i (Leaving s ch (Result (inr err))) c)
        | _ => None
        end)
  end.

(** The states the client can be in. *)
Inductive reachable : amiClient -> Prop :=
| reach_new : reachable newClient
| reach_step ev c c' : reachable c -> step ev c = Some c' -> reachable c'.

Fixpoint run (evs : list Step) (c : amiClient) : option amiClient :=
  match evs with
  | [] => Some c
  | ev :: evs => match step ev c with Some c => run evs c | None => None end
  end.

(** ** The schedule is the capped doubling *)

Lemma double_wait_spec n wait max :
  0 < wait <= max -> max <= 2 ^ 62 -> Z.min (double_wait n wait max) max = Z.min (wait * 2 ^ Z.of_nat n) max.
Proof.
  intros Hw Hm. revert wait Hw. induction n as [|n IH]; intros wait Hw; cbn [double_wait].
  { by rewrite Z.mul_1_r. }
  assert (wait * 2 ^ Z.of_nat (S n) = wait * 2 * 2 ^ Z.of_nat n) as E
    by (rewrite Nat2Z.inj_succ, Z.pow_succ_r by lia; lia).
  assert (0 < 2 ^ Z.of_nat n) by (apply Z.pow_pos_nonneg; lia).
  destruct (Z.ltb_spec wait max) as [Hlt|Hge]; [|rewrite E; nia].
  rewrite wrap64_id by (unfold in_int64, int64_min, int64_max; lia). rewrite E.
  destruct (Z.le_gt_cases (wait * 2) max) as [Hle|Hgt]; [apply IH; lia|].
  assert (forall m, max < wait * 2 -> double_wait m (wait * 2) max = wait * 2) as Hstop.
  { intros [|m] Hd; cbn [double_wait]; [done|]. by rewrite (proj2 (Z.ltb_ge _ _)) by lia. }
  rewrite Hstop by lia. nia.
Qed.

(** The wait before attempt [n] is the base doubled [n - 1] times, capped, for
    every cap below 2^62 ns (146 years). *)
Lemma boundedBackoff_spec base max n :
  0 < base <= max -> max <= 2 ^ 62 -> 1 <= n ->
  boundedBackoff base max n = Z.min (base * 2 ^ (n - 1)) max.
Proof.
  intros Hb Hm Hn. unfold boundedBackoff. rewrite (proj2 (Z.ltb_ge n 1)) by lia.
  pose proof (double_wait_spec (Z.to_nat (n - 1)) base max Hb Hm) as E. rewrite Z2Nat.id in E by lia. rewrite <- E.
  cbv zeta. destruct (Z.ltb_spec max (double_wait (Z.to_nat (n - 1)) base max)); lia.
Qed.

(** ** A handshake that succeeds *)

(** What the server was sent and answered: the challenge, then the key made of
    its seed; nothing else, and not the secret. *)
Lemma handshake_ok md5_hex Username Secret seq w seq' w' :
  handshake md5_hex Username Secret seq w = (None, seq', w') ->
  exists b1 b2 seed, seq' = seq + 2 /\ written w' = written w ++ [b1; b2]
    /\ encode (withActionID challenge_request ("ovx-hs-" +:+ itoa (seq + 1))) = inl b1
    /\ encode (withActionID (MkRequest "Login" [MkHeader "Username" Username; MkHeader "Key" (md5_hex (Secret +:+ seed))])
                 ("ovx-hs-" +:+ itoa (seq + 2))) = inl b2.
Proof.
  unfold handshake. destruct (read_banner _) as [rest|]; [|done]. unfold exchange at 1.
  destruct (encode _) as [b1|] eqn:E1; [|done]. cbn [write_result written input].
  destruct (write_result w _); [done|]. destruct (next _ _) as [[chal rest1]|]; [|done].
  destruct (negb _); [done|]. unfold exchange. destruct (encode (withActionID (login_request _ _ _ _) _)) as [b2|] eqn:E2; [|done].
  cbn [write_result written input]. destruct (write_result w _); [done|]. destruct (next _ _) as [[login rest2]|]; [|done].
  destruct (negb _); [done|]. intros [= <- <-]. exists b1, b2, (get chal "Challenge"). cbn [written].
  split_and!; [lia|by rewrite <- app_assoc|done|]. rewrite <- E2. unfold login_request, amiMD5Key.
  by replace (seq + 1 + 1) with (seq + 2) by lia.
Qed.

(** ** Replies reach their callers *)

(** The session and the channel of a caller inside [doAction]. *)
Definition slot_of (p : Phase) : option (nat * nat) :=
  match p with Writing s ch | AwaitReply s ch | Leaving s ch _ => Some (s, ch) | _ => None end.

Definition slot_ok (c : amiClient) (k : Caller) (s ch : nat) : Prop :=
  exists q, chans c !! ch = Some q
    /\ forall pkt, pkt ∈ q -> actionID pkt = cl_id k /\ isResponse pkt = true /\ (s, pkt) ∈ replies c.

(** A caller's request was written on a session that answered it. *)
Definition answered (c : amiClient) (k : Caller) (pkt : amiPacket) : Prop :=
  actionID pkt = cl_id k /\ isResponse pkt = true
  /\ exists s, (s, cl_buf k) ∈ wire c /\ (s, pkt) ∈ replies c.

Record caller_ok (c : amiClient) (k : Caller) : Prop := {
  co_slot : forall s ch, slot_of (phase k) = Some (s, ch) -> slot_ok c k s ch;
  co_wire : forall s ch, phase k = AwaitReply s ch -> (s, cl_buf k) ∈ wire c;
  co_left : forall s ch pkt, phase k = Leaving s ch (Result (inl pkt)) -> answered c k pkt;
  co_done : forall pkt, phase k = Returned (inl pkt) -> answered c k pkt;
}.

Record inv (c : amiClient) : Prop := {
  i_caller : forall i k, callers c !! i = Some k -> caller_ok c k;
  i_uniq : forall i j k l s t ch, callers c !! i = Some k -> callers c !! j = Some l ->
    slot_of (phase k) = Some (s, ch) -> slot_of (phase l) = Some (t, ch) -> i = j;
  i_pend : forall s x id ch, sess_tab c !! s = Some x -> pending x !! id = Some ch ->
    chans c !! ch = Some [] /\ exists i k, callers c !! i = Some k /\ cl_id k = id /\ slot_of (phase k) = Some (s, ch);
  i_cap : Forall (fun q => length q <= 1)%nat (chans c);
}.

(** Two waiters are never on one channel. *)
Lemma pending_inj c s x id t y id' ch :
  inv c -> sess_tab c !! s = Some x -> pending x !! id = Some ch ->
  sess_tab c !! t = Some y -> pending y !! id' = Some ch -> s = t /\ id = id'.
Proof.
  intros [_ Hu Hp _] Hs Hx Ht Hy. destruct (Hp _ _ _ _ Hs Hx) as (_ & i & k & Hi & <- & Hk).
  destruct (Hp _ _ _ _ Ht Hy) as (_ & j & l & Hj & <- & Hl). pose proof (Hu _ _ _ _ _ _ _ Hi Hj Hk Hl) as ->.
  rewrite Hi in Hj. injection Hj as <-. rewrite Hk in Hl. by injection Hl as <-.
Qed.

(** Logs only grow: a caller that was fine stays fine. *)
Lemma caller_ok_mono c c' k :
  caller_ok c k -> chans c' = chans c ->
  (forall x, x ∈ wire c -> x ∈ wire c') -> (forall x, x ∈ replies c -> x ∈ replies c') -> caller_ok c' k.
Proof.
  intros [H1 H2 H3 H4] Hc Hw Hr.
  assert (forall pkt, answered c k pkt -> answered c' k pkt) as Ha.
  { intros pkt (? & ? & s & ? & ?). split_and!; [done..|]. exists s. auto. }
  split; eauto. intros s ch (q & Hq & Hall)%H1. exists q. rewrite Hc. split; [done|].
  intros pkt (? & ? & ?)%Hall. auto.
Qed.

(** Session tables may only lose waiters. *)
Lemma inv_sessions c t cur g :
  inv c -> (forall s x id ch, t !! s = Some x -> pending x !! id = Some ch ->
            exists y, sess_tab c !! s = Some y /\ pending y !! id = Some ch) ->
  inv (set_sess c t cur g).
Proof.
  intros [H1 H2 H3 H4] Ht. split; simpl; [|done| |done].
  - intros i k Hk. by apply (caller_ok_mono c); [apply (H1 i)|..].
  - intros s x id ch Hs Hx. destruct (Ht _ _ _ _ Hs Hx) as (y & Hy & Hp). by eapply H3.
Qed.

Lemma inv_on_session c s f :
  inv c -> (forall x id ch, pending (f x) !! id = Some ch -> pending x !! id = Some ch) -> inv (on_session s f c).
Proof.
  intros Hi Hf. apply inv_sessions; [done|]. intros t x id ch Ht Hx.
  destruct (decide (t = s)) as [->|Hne].
  - rewrite list_lookup_alter_eq in Ht. destruct (sess_tab c !! s) as [y|]; [|done]. injection Ht as <-. eauto.
  - rewrite list_lookup_alter_ne in Ht by done. eauto.
Qed.

Lemma inv_removePending c s id : inv c -> inv (removePending s id c).
Proof. intros Hi. apply inv_on_session; [done|]. intros x k ch. simpl. by intros [_ ?]%lookup_delete_Some. Qed.

Lemma inv_set_lastErr c err : inv c -> inv (set_lastErr err c).
Proof. intros [H1 H2 H3 H4]. split; [|done..]. intros i k Hk. by apply (caller_ok_mono c); [apply (H1 i)|..]. Qed.

Definition at_phase (p : Phase) (x : Caller) : Caller := MkCaller (cl_id x) (cl_buf x) (once x) p.

Lemma lookup_set_phase i p c j :
  callers (set_phase i p c) !! j
  = (if decide (j = i) then at_phase p <$> callers c !! j else callers c !! j).
Proof.
  unfold set_phase. simpl. destruct (decide (j = i)) as [->|Hne]; [apply list_lookup_alter_eq|by apply list_lookup_alter_ne].
Qed.

(** A caller moves on with the same channel, or with none and no waiter left. *)
Lemma inv_set_phase c i k p :
  inv c -> callers c !! i = Some k -> caller_ok c (at_phase p k) ->
  (slot_of p = slot_of (phase k)
   \/ slot_of p = None /\ forall s ch x, slot_of (phase k) = Some (s, ch) -> sess_tab c !! s = Some x -> pending x !! cl_id k = None) ->
  inv (set_phase i p c).
Proof.
  intros [H1 H2 H3 H4] Hk Hok Hslot.
  assert (forall j l s ch, callers (set_phase i p c) !! j = Some l -> slot_of (phase l) = Some (s, ch) ->
    exists l', callers c !! j = Some l' /\ slot_of (phase l') = Some (s, ch) /\ cl_id l' = cl_id l) as Hback.
  { intros j l s ch. rewrite lookup_set_phase. destruct (decide (j = i)) as [->|Hne]; [|eauto].
    rewrite Hk. intros [= <-]. simpl. intros Hp. exists k. split_and!; [done| |done].
    destruct Hslot as [<-|[Hn _]]; congruence. }
  split; [| | |done].
  - intros j l. rewrite lookup_set_phase. destruct (decide (j = i)) as [->|Hne].
    + rewrite Hk. intros [= <-]. by apply (caller_ok_mono c).
    + intros Hl. by apply (caller_ok_mono c); [apply (H1 j)|..].
  - intros j1 j2 l1 l2 s t ch Hj1 Hj2 Hl1 Hl2. destruct (Hback _ _ _ _ Hj1 Hl1) as (? & ? & ? & _).
    destruct (Hback _ _ _ _ Hj2 Hl2) as (? & ? & ? & _). by eapply H2.
  - intros s x id ch Hs Hx. destruct (H3 _ _ _ _ Hs Hx) as (Hc & j & l & Hj & <- & Hl). split; [done|].
    destruct (decide (j = i)) as [->|Hne].
    + rewrite Hk in Hj. injection Hj as <-. exists i, (at_phase p k). rewrite lookup_set_phase, decide_True, Hk by done.
      split_and!; [done..|]. simpl. destruct Hslot as [->|[_ Hno]]; [done|]. simpl in Hs. rewrite (Hno _ _ _ Hl Hs) in Hx. done.
    + exists j, l. by rewrite lookup_set_phase, decide_False.
Qed.

(** A new caller is outside [doAction]. *)
Lemma inv_start_call one prefix aid req c : inv c -> inv (start_call one prefix aid req c).
Proof.
  intros [H1 H2 H3 H4]. unfold start_call. cbv zeta.
  set (id := if is_empty aid then _ else aid). clearbody id. set (seq := if is_empty aid then _ else _). clearbody seq.
  set (res := match encode _ with inl _ => _ | inr _ => _ end).
  assert (slot_of res.2 = None /\ forall pkt, res.2 <> Returned (inl pkt)) as [Hns Hnr].
  { subst res. by destruct (encode _). }
  assert (forall s ch o, res.2 <> Leaving s ch o) as Hnl by (intros s ch o E; by rewrite E in Hns).
  assert (forall s ch, res.2 <> AwaitReply s ch) as Hna by (intros s ch E; by rewrite E in Hns).
  clearbody res. destruct res as [buf ph]. simpl in *.
  assert (forall j l s ch, (callers c ++ [MkCaller id buf one ph]) !! j = Some l -> slot_of (phase l) = Some (s, ch) ->
    callers c !! j = Some l) as Hback.
  { intros j l s ch [Hj|[_ Hj]]%lookup_app_Some Hl; [done|].
    apply list_lookup_singleton_Some in Hj as [_ <-]. simpl in Hl. congruence. }
  split; simpl; [|intros; by eapply H2; eauto| |done].
  - intros i k [Hk|[_ Hk]]%lookup_app_Some; [by apply (caller_ok_mono c); [apply (H1 i)|..]|].
    apply list_lookup_singleton_Some in Hk as [_ <-]. split; simpl; intros; exfalso; naive_solver congruence.
  - intros s x i ch Hs Hx. destruct (H3 _ _ _ _ Hs Hx) as (Hc & j & l & Hj & Hl). split; [done|].
    exists j, l. split; [by apply lookup_app_l_Some|done].
Qed.


(** Registering a waiter: a fresh channel, for this caller only. *)
Lemma inv_register c i k s :
  inv c -> callers c !! i = Some k -> slot_of (phase k) = None -> inv (register_waiter i s k c).
Proof.
  intros Hi Hk Hn. unfold register_waiter, addPending.
  assert (forall r, inv (set_phase i (Returned (inr r)) c)) as Hfail.
  { intros r. eapply inv_set_phase; [done|done|by split|]. right. split; [done|]. intros t ch x E. congruence. }
  destruct (sess_tab c !! s) as [x|] eqn:Hs; [|apply Hfail]. destruct (pending x !! cl_id k) eqn:Hx; [apply Hfail|].
  destruct Hi as [H1 H2 H3 H4]. set (ch := length (chans c)).
  assert (chans c !! ch = None) as Hch by by apply lookup_ge_None.
  assert (forall j l t, callers c !! j = Some l -> slot_of (phase l) = Some (t, ch) -> False) as Hold.
  { intros j l t Hj Hl. destruct (co_slot _ _ (H1 _ _ Hj) _ _ Hl) as (q & Hq & _). congruence. }
  match goal with |- inv ?d => set (c' := d) end.
  assert (forall j, callers c' !! j = if decide (j = i) then Some (at_phase (Writing s ch) k) else callers c !! j) as Hcs.
  { intros j. subst c'. rewrite lookup_set_phase. simpl. destruct (decide (j = i)) as [->|]; [by rewrite Hk|done]. }
  assert (forall d q, chans c !! d = Some q -> chans c' !! d = Some q) as Hchs
    by (intros d q Hq; by apply lookup_app_l_Some).
  assert (chans c' !! ch = Some []) as Hnew by by apply list_lookup_middle.
  split.
  - intros j l. rewrite Hcs. destruct (decide (j = i)) as [->|Hne].
    + intros [= <-]. split; try done. intros t d [= <- <-]. exists []. split; [done|]. intros pkt Hp. by apply not_elem_of_nil in Hp.
    + intros Hl. destruct (H1 _ _ Hl) as [G1 G2 G3 G4]. split; [|done..].
      intros t d (q & Hq & Hall)%G1. exists q. split; [by apply Hchs|done].
  - intros j1 j2 l1 l2 t1 t2 d. rewrite !Hcs.
    destruct (decide (j1 = i)) as [->|N1], (decide (j2 = i)) as [->|N2]; [done|..].
    + intros [= <-] Hl2 [= <- <-] E2. exfalso. by eapply Hold.
    + intros Hl1 [= <-] E1 [= <- <-]. exfalso. by eapply Hold.
    + apply H2.
  - intros t y id d Ht Hy. assert (exists y', sess_tab c !! t = Some y'
      /\ (pending y' !! id = Some d \/ (t = s /\ id = cl_id k /\ d = ch))) as (y' & Hy' & Hd).
    { change (alter (fun x => MkSession (dead x) (ready x) (<[cl_id k := ch]> (pending x))) s (sess_tab c) !! t = Some y) in Ht.
      destruct (decide (t = s)) as [->|Hne].
      - rewrite list_lookup_alter_eq, Hs in Ht. injection Ht as <-. simpl in Hy. exists x. split; [done|].
        apply lookup_insert_Some in Hy as [[<- <-]|[_ Hy]]; auto.
      - rewrite list_lookup_alter_ne in Ht by done. eauto. }
    destruct Hd as [Hd|(-> & -> & ->)].
    + destruct (H3 _ _ _ _ Hy' Hd) as (Hc & j & l & Hj & Hid & Hl). split; [by apply Hchs|]. exists j, l. rewrite Hcs, decide_False; [done|].
      intros ->. congruence.
    + split; [done|]. exists i, (at_phase (Writing s ch) k). by rewrite Hcs, decide_True.
  - apply Forall_app_2; [done|]. apply Forall_singleton. simpl. lia.
Qed.

(** The write of a request. *)
Lemma inv_write c i k s ch result :
  inv c -> callers c !! i = Some k -> phase k = Writing s ch -> inv (write_request i s ch k result c).
Proof.
  intros Hi Hk Hp. assert (caller_ok c k) as [Hs _ _ _] by by apply (i_caller _ Hi i).
  unfold write_request. destruct (is_dead c s).
  { eapply inv_set_phase; [done|done| |left; by rewrite Hp]. split; try done. simpl. rewrite Hp in Hs. exact Hs. }
  destruct result as [err|].
  { eapply inv_set_phase; [done|done| |left; by rewrite Hp]. split; try done. simpl. rewrite Hp in Hs. exact Hs. }
  eapply inv_set_phase; [|exact Hk| |left; by rewrite Hp].
  - destruct Hi as [H1 H2 H3 H4]. split; [|done..]. intros j l Hl. apply (caller_ok_mono c); [by apply (H1 j)|done| |done].
    intros x Hx. apply elem_of_app. by left.
  - split; try done; simpl; [rewrite Hp in Hs; exact Hs|]. intros t d [= <- <-]. apply elem_of_app. right.
    by apply list_elem_of_singleton.
Qed.

(** The deferred removal. *)
Lemma inv_leave c i k s ch o retry :
  inv c -> callers c !! i = Some k -> phase k = Leaving s ch o -> inv (leave_action i s k o retry c).
Proof.
  intros Hi Hk Hp. assert (caller_ok c k) as [_ _ Hl _] by by apply (i_caller _ Hi i).
  unfold leave_action. eapply inv_set_phase; [by apply inv_removePending|exact Hk| |].
  - destruct o as [|[pkt|err]]; [by destruct (negb _ && _)| |by split].
    split; try done. simpl. intros p [= <-]. by eapply Hl.
  - right. split; [by destruct o; [destruct (negb _ && _)|]|]. rewrite Hp. intros t d x [= <- <-] Hx.
    unfold removePending, on_session in Hx. simpl in Hx. rewrite list_lookup_alter_eq in Hx.
    destruct (sess_tab c !! s); [|done]. injection Hx as <-. apply lookup_delete_eq.
Qed.

Lemma inv_events c q : inv c -> inv (with_events q c).
Proof. intros [H1 H2 H3 H4]. split; [|done..]. intros j l Hl. by apply (caller_ok_mono c); [apply (H1 j)|..]. Qed.

(** A reply goes to the channel of its waiter, which was empty. *)
Lemma inv_serve c s pkt : inv c -> inv (serve_packet s pkt c).
Proof.
  intros Hi. unfold serve_packet. destruct (isEvent pkt); [by apply inv_events|].
  destruct (isResponse pkt) eqn:Hr; [|done]. cbv zeta.
  match goal with |- context [takePending s _ ?d] => set (c1 := d) end.
  assert (inv c1) as Hi1.
  { destruct Hi as [H1 H2 H3 H4]. split; [|done..]. intros j l Hl. apply (caller_ok_mono c); [by apply (H1 j)|done|done|].
    intros x Hx. apply elem_of_app. by left. }
  destruct (is_empty (actionID pkt)); [done|]. unfold takePending.
  destruct (sess_tab c1 !! s) as [x|] eqn:Hs; [|done]. destruct (pending x !! actionID pkt) as [ch|] eqn:Hx;
    [|by apply inv_removePending].
  pose proof (i_pend _ Hi1 _ _ _ _ Hs Hx) as (Hch & i & k & Hk & Hid & Hslot).
  pose proof (inv_removePending c1 s (actionID pkt) Hi1) as [H1 H2 H3 H4].
  set (c2 := removePending s (actionID pkt) c1) in *.
  match goal with |- inv ?d => set (c3 := d) end.
  assert (forall d, chans c3 !! d = if decide (d = ch) then Some [pkt] else chans c1 !! d) as Hchs.
  { intros d. change (chans c3) with (alter (fun q => q ++ [pkt]) ch (chans c1)). destruct (decide (d = ch)) as [->|Hne].
    - by rewrite list_lookup_alter_eq, Hch.
    - by apply list_lookup_alter_ne. }
  split.
  - intros j l Hl. destruct (H1 _ _ Hl) as [G1 G2 G3 G4]. split; [|done..].
    intros t d Hd. unfold slot_ok. rewrite Hchs. destruct (decide (d = ch)) as [->|Hne]; [|by apply G1].
    exists [pkt]. split; [done|]. intros q ->%list_elem_of_singleton.
    pose proof (H2 _ _ _ _ _ _ _ Hl Hk Hd Hslot) as ->. change (callers c2 !! i = Some l) in Hl.
    assert (l = k) as -> by (change (callers c2) with (callers c1) in Hl; congruence).
    rewrite Hslot in Hd. injection Hd as <-. split_and!; [done|done|]. apply elem_of_app. right.
    by apply list_elem_of_singleton.
  - exact H2.
  - intros t y id d Ht Hy. destruct (H3 _ _ _ _ Ht Hy) as (Hc & Hex). split; [|exact Hex].
    rewrite Hchs, decide_False; [exact Hc|]. intros ->.
    change (alter (fun x => MkSession (dead x) (ready x) (delete (actionID pkt) (pending x))) s (sess_tab c1) !! t = Some y) in Ht.
    assert (exists y', sess_tab c1 !! t = Some y' /\ pending y' !! id = Some ch /\ (t = s -> id <> actionID pkt))
      as (y' & Hy' & Hp' & Hne).
    { destruct (decide (t = s)) as [->|Hn].
      - rewrite list_lookup_alter_eq, Hs in Ht. injection Ht as <-. simpl in Hy. apply lookup_delete_Some in Hy as [Hne Hy]. exists x. naive_solver.
      - rewrite list_lookup_alter_ne in Ht by done. by exists y. }
    destruct (pending_inj c1 t y' id s x (actionID pkt) ch) as [-> ->]; try done. by apply Hne.
  - apply Forall_lookup. intros d q. rewrite Hchs. destruct (decide (d = ch)); [by intros [= <-]|].
    intros Hq. by eapply (Forall_lookup_1 _ _ _ _ H4).
Qed.

Lemma ami_inv_step ev c c' : inv c -> step ev c = Some c' -> inv c'.
Proof.
  intros Hi. assert (forall i k p, callers c !! i = Some k -> slot_of (phase k) = None -> slot_of p = None ->
    (forall pkt, p <> Returned (inl pkt)) -> inv (set_phase i p c)) as Hfree.
  { intros i k p Hk Hn Hp Hr. assert (forall s ch o, p <> Leaving s ch o) by by intros ??? ->.
    assert (forall s ch, p <> AwaitReply s ch) by by intros ?? ->.
    eapply inv_set_phase; [done|done|split; simpl; intros; congruence|]. left. congruence. }
  assert (forall i k s ch o, callers c !! i = Some k -> phase k = AwaitReply s ch ->
    (forall pkt, o = Result (inl pkt) -> answered c k pkt) -> inv (set_phase i (Leaving s ch o) c)) as Hleave.
  { intros i k s ch o Hk Hp Ho. eapply inv_set_phase; [done|done| |left; by rewrite Hp].
    destruct (i_caller _ Hi _ _ Hk) as [G1 _ _ _]. rewrite Hp in G1. split; try done; simpl. intros ??? [= -> -> ->]. by apply Ho. }
  destruct ev; cbn [step]; unfold with_caller;
    try (destruct (callers c !! i) as [k|] eqn:Hk; [|done]; destruct (phase k) eqn:Hp; try done).
  - intros [= <-]. apply inv_sessions; [done|]. intros s x id ch [Hs|[_ Hs]]%lookup_app_Some Hx; [eauto|].
    apply list_lookup_singleton_Some in Hs as [_ <-]. simpl in Hx. by rewrite lookup_empty in Hx.
  - intros [= <-]. by apply inv_set_lastErr, inv_on_session.
  - intros [= <-]. apply inv_on_session; [done|]. intros x id ch. simpl. by rewrite lookup_empty.
  - intros [= <-]. unfold uninstall. destruct (decide _); [|done]. apply inv_sessions; eauto.
  - intros [= <-]. destruct err; [by apply inv_set_lastErr|done].
  - destruct (es_blocked _); [done|]. intros [= <-]. by apply inv_serve.
  - intros (q & _ & ->)%fmap_Some. by apply inv_events.
  - intros (q & _ & ->)%fmap_Some. by apply inv_events.
  - intros (q & _ & ->)%fmap_Some. by apply inv_events.
  - intros [= <-]. by apply inv_events.
  - intros [= <-]. by apply inv_start_call.
  - intros [= <-]. by apply inv_start_call.
  - intros [= <-]. unfold choose_session. destruct (once k); (eapply Hfree; [done|by rewrite Hp|..]);
      destruct (sess c) as [s|]; try done; by destruct (is_dead c s).
  - destruct (decide _); [done|]. intros [= <-]. by eapply Hfree; [|rewrite Hp|..].
  - destruct (is_ready c s); [|done]. intros [= <-]. by apply inv_register; [| |rewrite Hp].
  - destruct (is_dead c s); [|done]. intros [= <-]. destruct (once k); by eapply Hfree; [|rewrite Hp|..].
  - destruct (is_dead c s); [|done]. intros [= <-]. by eapply Hleave.
  - intros [= <-]. by eapply inv_write.
  - destruct (chans c !! ch) as [[|pkt q]|] eqn:Hc; [done| |done]. intros [= <-]. eapply Hleave; [done..|].
    intros p [= <-]. destruct (i_caller _ Hi _ _ Hk) as [G1 G2 _ _]. specialize (G2 _ _ Hp).
    rewrite Hp in G1. destruct (G1 s ch eq_refl) as (q' & Hq & Hall). rewrite Hc in Hq. injection Hq as <-.
    destruct (Hall pkt) as (? & ? & ?); [apply elem_of_cons; by left|]. split_and!; [done..|]. by exists s.
  - intros [= <-]. by eapply inv_leave.
  - intros [= <-]. by eapply Hfree; [|rewrite Hp|..].
  - intros [= <-]. by eapply Hfree; [|rewrite Hp|..].
  - intros [= <-]. by eapply Hleave.
  - destruct (once k); [done|]. intros [= <-]. by eapply Hfree; [|rewrite Hp|..].
  - intros [= <-]. by eapply Hfree; [|rewrite Hp|..].
  - intros [= <-]. by eapply Hfree; [|rewrite Hp|..].
  - intros [= <-]. by eapply Hleave.
Qed.

Lemma ami_reachable_inv c : reachable c -> inv c.
Proof.
  induction 1 as [|ev c c' _ IH E]; [|by eapply ami_inv_step].
  by split; simpl; [intros ? ?|intros ? ? ? ? ? ? ?|intros ? ? ? ?|constructor]; rewrite ?lookup_nil.
Qed.

(** The queue stays within its bound, and what was given to the hook is handled
    in its order: all of it, but for what waits, until the adapter is closed. *)
Record sink_ok (q : eventSink) : Prop := {
  so_bound : (length (es_queue q) <= eventQueueSize)%nat;
  so_order : es_handled q ++ es_queue q ++ option_list (es_blocked q) `sublist_of` es_offered q;
  so_all : es_stopped q = false -> es_handled q ++ es_queue q ++ option_list (es_blocked q) = es_offered q;
}.

Lemma sink_offer pkt q : es_blocked q = None -> sink_ok q -> sink_ok (offer pkt q).
Proof.
  intros Hb [H1 H2 H3]. rewrite Hb in H2, H3. cbn [option_list option_rect] in H2, H3. rewrite app_nil_r in H2, H3.
  split; cbn [offer es_queue es_handled es_blocked es_offered es_stopped option_list option_rect]; [done| |];
    rewrite (assoc_L (++)); [by apply sublist_app|]. intros Hs. by rewrite (H3 Hs).
Qed.

Lemma sink_enqueue q q' : enqueue q = Some q' -> sink_ok q -> sink_ok q'.
Proof.
  intros E [H1 H2 H3]. unfold enqueue in E. destruct (es_blocked q) as [pkt|]; [|done].
  destruct (Nat.ltb_spec (length (es_queue q)) eventQueueSize); [|done]. apply (inj Some) in E as <-.
  split; cbn [es_queue es_handled es_blocked es_offered es_stopped option_list option_rect] in *; rewrite ?app_nil_r; [|done..].
  rewrite length_app. simpl. lia.
Qed.

Lemma sink_abandon q q' : abandon q = Some q' -> sink_ok q -> sink_ok q'.
Proof.
  intros E [H1 H2 H3]. unfold abandon in E. destruct (es_blocked q) as [pkt|]; [|done].
  destruct (es_stopped q); [|done]. apply (inj Some) in E as <-.
  split; cbn [es_queue es_handled es_blocked es_offered es_stopped option_list option_rect] in *; rewrite ?app_nil_r; [done| |done].
  etrans; [|exact H2]. rewrite (assoc_L (++)). by apply sublist_inserts_r.
Qed.

Lemma sink_take q q' : take_event q = Some q' -> sink_ok q -> sink_ok q'.
Proof.
  intros E [H1 H2 H3]. unfold take_event in E. destruct (es_queue q) as [|pkt rest]; [done|]. apply (inj Some) in E as <-.
  split; cbn [es_queue es_handled es_blocked es_offered es_stopped] in *; [simpl in H1; lia| |]; by rewrite <- (assoc_L (++)).
Qed.

(** Only these steps touch the hook. *)
Lemma step_events ev c c' : step ev c = Some c' ->
  events c' = events c \/ (exists pkt, es_blocked (events c) = None /\ events c' = offer pkt (events c))
  \/ enqueue (events c) = Some (events c') \/ abandon (events c) = Some (events c')
  \/ take_event (events c) = Some (events c') \/ events c' = stop_events (events c).
Proof.
  destruct ev; cbn [step]; unfold with_caller;
    try (destruct (callers c !! i) as [k|]; [|done]; destruct (phase k); try done).
  5:{ intros [= <-]. left. by destruct err. }
  5:{ destruct (es_blocked (events c)) eqn:Hb; [done|]. intros [= <-]. unfold serve_packet.
      destruct (isEvent pkt); [right; left; by eexists|]. left. destruct (isResponse pkt); [|done]. cbv zeta.
      destruct (is_empty _); [done|]. unfold takePending. cbn [sess_tab]. by repeat case_match; simplify_eq. }
  5-7: (intros (q & E & ->)%fmap_Some; right; right; cbn [with_events events]; auto).
  5: (intros [= <-]; do 5 right; done).
  all: intros E; left; unfold install, session_ready, die, uninstall, call, callOnce, start_call, choose_session,
    register_waiter, addPending, write_request, leave_action in E;
    repeat case_match; simplify_eq; done.
Qed.

Lemma sink_reachable c : reachable c -> sink_ok (events c).
Proof.
  induction 1 as [|ev c c' _ IH E]; [split; cbn; [unfold eventQueueSize; lia|done|done]|].
  destruct (step_events ev c c' E) as [-> |[(pkt & Hb & ->)|[H|[H|[H| ->]]]]];
    [done|by apply sink_offer|by eapply sink_enqueue|by eapply sink_abandon|by eapply sink_take|].
  destruct IH as [H1 H2 H3]. by split.
Qed.

(** C35. Over every interleaving of callers, the reader, deaths and reconnects, the
    packet a caller gets is a reply with its own action id, read on a session
    on which its request was written. The reader never waits for a caller: each
    reply channel holds one packet at most, a registered waiter's is empty, and
    after a reply the next packet can be read. It waits inside the event hook
    only while the queue's 256 places are taken: then until [deliverLoop] takes
    one or the adapter is closed. Events are handled in the order they were
    read, and until the adapter is closed none is lost. *)
Theorem ami_replies_correlated c :
  reachable c ->
  (forall i k pkt, callers c !! i = Some k -> phase k = Returned (inl pkt) ->
     actionID pkt = cl_id k /\ isResponse pkt = true
     /\ exists s, (s, cl_buf k) ∈ wire c /\ (s, pkt) ∈ replies c)
  /\ (forall ch q, chans c !! ch = Some q -> (length q <= 1)%nat)
  /\ (forall s x id ch, sess_tab c !! s = Some x -> pending x !! id = Some ch -> chans c !! ch = Some [])
  /\ (forall s pkt, es_blocked (events c) = None -> isEvent pkt = false ->
       exists c', step (Packet s pkt) c = Some c' /\ es_blocked (events c') = None)
  /\ (is_Some (es_blocked (events c)) -> length (es_queue (events c)) <> 256%nat -> is_Some (step Enqueued c))
  /\ (length (es_queue (events c)) <= 256)%nat
  /\ es_handled (events c) ++ es_queue (events c) `sublist_of` es_offered (events c)
  /\ (es_stopped (events c) = false ->
      es_handled (events c) ++ es_queue (events c) ++ option_list (es_blocked (events c)) = es_offered (events c)).
Proof.
  intros Hr. pose proof (sink_reachable c Hr) as [S1 S2 S3]. apply ami_reachable_inv in Hr as [H1 H2 H3 H4]. split_and!.
  - intros i k pkt Hk Hp. by eapply co_done; [eapply H1|].
  - intros ch q. by apply (Forall_lookup_1 _ _ _ _ H4).
  - intros s x id ch Hs Hx. by eapply (proj1 (H3 _ _ _ _ Hs Hx)).
  - intros s pkt Hb He. cbn [step]. rewrite Hb. eexists. split; [done|].
    destruct (step_events (Packet s pkt) c (serve_packet s pkt c)) as [-> |Hq]; [cbn [step]; by rewrite Hb|done|].
    unfold serve_packet in *. rewrite He in *. destruct (isResponse pkt); [|done]. cbv zeta.
    destruct (is_empty _); [done|]. unfold takePending. cbn [sess_tab]. by repeat case_match; simplify_eq.
  - intros [pkt Hb] Hn. cbn [step]. unfold enqueue. rewrite Hb. unfold eventQueueSize in *.
    rewrite (proj2 (Nat.ltb_lt _ _)) by lia. by eexists.
  - exact S1.
  - etrans; [|exact S2]. rewrite (assoc_L (++)). by apply sublist_inserts_r.
  - exact S3.
Qed.

Lemma run_reachable evs c c' : reachable c -> run evs c = Some c' -> reachable c'.
Proof.
  revert c. induction evs as [|ev evs IH]; intros c Hc; cbn [run]; [by intros [= <-]|].
  destruct (step ev c) as [c1|] eqn:E; [|done]. apply IH. by eapply reach_step.
Qed.

(** ** Runs *)

Definition originate : amiRequest := MkRequest "Originate" [MkHeader "Channel" "Local/1001@from-internal"].
Definition reply_to (id : string) : amiPacket := [MkHeader "Response" "Success"; MkHeader "ActionID" id].

(** A caller up to its write on session [s]. *)
Definition gets_through (i s : nat) : list Step := [Chooses i; Proceeds i; Writes i None].

Definition hangup_event : amiPacket := [MkHeader "Event" "Hangup"; MkHeader "Channel" "c"].

(** With an event between the request and its reply. *)
Definition one_call : list Step :=
  [Dialled; Ready 0; Calls "i1" originate] ++ gets_through 0 0
  ++ [Packet 0 hangup_event; Enqueued; Packet 0 (reply_to "i1"); Receives 0; Taken; Leaves 0 false].

Lemma ami_replies_correlated_witness :
  let c := default newClient (run one_call newClient) in
  phase <$> callers c !! 0%nat = Some (Returned (inl (reply_to "i1")))
  /\ es_handled (events c) = [hangup_event]
  /\ (forall i k pkt, callers c !! i = Some k -> phase k = Returned (inl pkt) ->
       actionID pkt = cl_id k /\ isResponse pkt = true
       /\ exists s, (s, cl_buf k) ∈ wire c /\ (s, pkt) ∈ replies c)
  /\ (length (es_queue (events c)) <= 256)%nat.
Proof.
  cbv zeta. split; [vm_compute; reflexivity|]. split; [vm_compute; reflexivity|].
  edestruct ami_replies_correlated as (H1 & _ & _ & _ & _ & H6 & _); [|split; [exact H1|exact H6]].
  apply (run_reachable one_call newClient); [constructor|]. vm_compute. reflexivity.
Defined.

(** A hook that is not drained stops the reader: with the queue full, the next
    event is held, and no reply is read behind it. *)
Lemma full_queue_holds_reader :
  let burst := concat (repeat [Packet 0 hangup_event; Enqueued] 256) in
  exists c, run ([Dialled; Ready 0; Calls "i1" originate] ++ gets_through 0 0 ++ burst ++ [Packet 0 hangup_event]) newClient = Some c
    /\ step Enqueued c = None /\ step (Packet 0 (reply_to "i1")) c = None /\ phase <$> callers c !! 0%nat = Some (AwaitReply 0 0).
Proof. eexists. split; [vm_compute; reflexivity|]. by vm_compute. Qed.

(** An action whose session dies before the answer is written again on the
    next one: an Originate the switch had taken dials twice. *)
Lemma originate_submitted_twice :
  exists b, wire <$> run ([Dialled; Ready 0; Calls "i1" originate] ++ gets_through 0 0
                  ++ [Dies 0; SeesDead 0; Leaves 0 true; Retired 0; Dialled; Ready 1] ++ gets_through 0 1) newClient
            = Some [(0%nat, b); (1%nat, b)].
Proof. eexists. vm_compute. reflexivity. Qed.

(** The removal deferred by an answered action deletes the waiter a second
    action registered meanwhile under the same id: its answer is lost. *)
Lemma late_removal_drops_waiter :
  exists c, run ([Dialled; Ready 0; Calls "i1" originate] ++ gets_through 0 0
                 ++ [Packet 0 (reply_to "i1"); Receives 0; Calls "i1" originate] ++ gets_through 1 0
                 ++ [Leaves 0 false; Packet 0 (reply_to "i1")]) newClient = Some c
    /\ phase <$> callers c !! 1%nat = Some (AwaitReply 0 1) /\ chans c !! 1%nat = Some [] /\ step (Receives 1) c = None.
Proof. eexists. split; [vm_compute; reflexivity|]. by vm_compute. Qed.
