(* ===== verification/Asterisk.v ===== *)
(** * internal/telephony/adapters/asterisk: the Asterisk voice adapter

    config.go (defaults and renderings), voice.go (commands as AMI actions over
    the session layer, the leg registry) and events.go (packets to provider
    events). Legs are shared by pointer from three indexes: they live in a heap
    and the indexes hold addresses. A command waits for the switch between the
    two halves it is written in; [during] is what other goroutines do to the
    registry meanwhile. A packet is processed in one step: its critical
    sections after the lookup act on the leg found and commute with those of
    other goroutines. *)

From Stdlib Require Import String Ascii.
From S2P Require Import Prelude GoStd AppErrors Store Comms Text Planes.
From S2P Require Import CommsRegistry Wire Ami AmiClient.

Local Open Scope Z_scope.

(** ** config.go *)

Definition DefaultPort := "5038".
Definition DefaultDialContext := "from-internal".
Definition DefaultMOHContext := "orvexa-hold".
Definition defaultDialTimeout : Z := 3 * 1000 * Millisecond.
Definition defaultActionTime : Z := 5 * 1000 * Millisecond.
Definition defaultOriginateTTL : Z := 30 * 1000 * Millisecond.
Definition defaultBackoffBase : Z := 500 * Millisecond.
Definition defaultBackoffMax : Z := 15 * 1000 * Millisecond.

(** [Config] but for the logger. *)
Record Config := MkConfig {
  Host : string;
  Port : string;
  Username : string;
  Secret : string;
  DialContext : string;
  MOHContext : string;
  Ingest : option (string -> string -> string -> env -> st -> option error * st);
  Signer : option (string -> string);
  DialTimeout : Z;
  ActionTimeout : Z;
  OriginateTimeout : Z;
  BackoffBase : Z;
  BackoffMax : Z;
  PingInterval : Z;
}.

Definition withDefaults (c : Config) : Config :=
  let base := positive_or (BackoffBase c) defaultBackoffBase in
  MkConfig (Host c) (or_default (Port c) DefaultPort) (Username c) (Secret c)
    (or_default (DialContext c) DefaultDialContext) (or_default (MOHContext c) DefaultMOHContext)
    (Ingest c) (Signer c)
    (positive_or (DialTimeout c) defaultDialTimeout) (positive_or (ActionTimeout c) defaultActionTime)
    (positive_or (OriginateTimeout c) defaultOriginateTTL) base
    (if BackoffMax c <? base then defaultBackoffMax else BackoffMax c) (PingInterval c).

Definition validate (c : Config) : option Error :=
  if is_empty (Host c) then Some (Invalid "asterisk.host_required" "asterisk: AMI host is required")
  else if is_empty (Username c) then Some (Invalid "asterisk.username_required" "asterisk: AMI username is required")
  else if is_empty (Secret c) then Some (Invalid "asterisk.secret_required" "asterisk: AMI secret is required")
  else None.

(** [net.JoinHostPort] *)
Definition joinHostPort (host port : string) : string :=
  if has_byte host ":" then "[" +:+ host +:+ "]:" +:+ port else host +:+ ":" +:+ port.

Definition addr (c : Config) : string := joinHostPort (Host c) (Port c).

Definition Config_String (c : Config) : string :=
  "asterisk(addr=" +:+ addr c +:+ " dial_context=" +:+ DialContext c +:+ " moh_context=" +:+ MOHContext c
    +:+ " username=" +:+ Redacted (Username c) +:+ " secret=" +:+ Redacted (Secret c) +:+ ")".

(** ** voice.go: the leg registry *)

Definition providerLabel := "asterisk".

Definition codeTenantRequired := "asterisk.tenant_required".
Definition codeInteractionRequired := "asterisk.interaction_required".
Definition codeDestinationRequired := "asterisk.destination_required".
Definition codeOriginRequired := "asterisk.origin_required".
Definition codeLegUnknown := "asterisk.leg_unknown".
Definition codeChannelPending := "asterisk.channel_pending".
Definition codeLegDestination := "asterisk.leg_destination_unknown".

Definition errUnknownLeg : error :=
  AppErr (NotFound codeLegUnknown "asterisk: no live leg for this provider reference").

Record leg := MkLeg {
  interactionID : string;
  tenantID : string;
  channel : string;
  uniqueid : string;
  exten : string;
  transferTo : string;
}.

(** The registry: the legs by address, the indexes, and the queue of packets. *)
Record Voice := MkVoice {
  heap : list leg;
  legs : gmap string nat;
  byChannel : gmap string nat;
  byUniqueid : gmap string nat;
  queue : list amiPacket;
}.

Definition newVoice : Voice := MkVoice [] ∅ ∅ ∅ [].

(** A write to the leg at an address, under the lock. *)
Definition on_leg (a : nat) (f : leg -> leg) (v : Voice) : Voice :=
  MkVoice (alter f a (heap v)) (legs v) (byChannel v) (byUniqueid v) (queue v).

Definition with_channel (ch : string) (l : leg) : leg :=
  MkLeg (interactionID l) (tenantID l) ch (uniqueid l) (exten l) (transferTo l).
Definition with_uniqueid (uid : string) (l : leg) : leg :=
  MkLeg (interactionID l) (tenantID l) (channel l) uid (exten l) (transferTo l).
Definition with_exten (dest : string) (l : leg) : leg :=
  MkLeg (interactionID l) (tenantID l) (channel l) (uniqueid l) dest (transferTo l).
Definition with_transferTo (dest : string) (l : leg) : leg :=
  MkLeg (interactionID l) (tenantID l) (channel l) (uniqueid l) (exten l) dest.

(** [registerLeg]: the address of the new leg, unless its id is taken. *)
Definition registerLeg (l : leg) (v : Voice) : option (nat * Voice) :=
  match legs v !! interactionID l with
  | Some _ => None
  | None =>
      let a := length (heap v) in
      Some (a, MkVoice (heap v ++ [l]) (<[interactionID l := a]> (legs v)) (byChannel v) (byUniqueid v) (queue v))
  end.

(** Drop an entry if it is this leg's. *)
Definition drop_entry (k : string) (a : nat) (m : gmap string nat) : gmap string nat :=
  if decide (m !! k = Some a) then delete k m else m.

Definition removeLeg (a : nat) (v : Voice) : Voice :=
  match heap v !! a with
  | None => v
  | Some l =>
      MkVoice (heap v) (drop_entry (interactionID l) a (legs v))
        (if is_empty (channel l) then byChannel v else drop_entry (channel l) a (byChannel v))
        (if is_empty (uniqueid l) then byUniqueid v else drop_entry (uniqueid l) a (byUniqueid v)) (queue v)
  end.

Definition legByID (id : string) (v : Voice) : option nat := legs v !! id.

Definition leg_field (f : leg -> string) (a : nat) (v : Voice) : string :=
  match heap v !! a with Some l => f l | None => "" end.

Definition extenOf : nat -> Voice -> string := leg_field exten.

Definition stageTransfer (a : nat) (dest : string) : Voice -> Voice := on_leg a (with_transferTo dest).

Definition clearStagedTransfer (a : nat) (dest : string) : Voice -> Voice :=
  on_leg a (fun l => if String.eqb (transferTo l) dest then with_transferTo "" l else l).

Definition commitTransfer (a : nat) (dest : string) : Voice -> Voice := on_leg a (with_exten dest).

(** [awaitChannel], by what its last look finds; [expired] is why it stops
    waiting otherwise: the context's error, or the deadline. *)
Definition awaitChannel (a : nat) (expired : option error) (v : Voice) : string + error :=
  let ch := leg_field channel a v in
  if is_empty ch then
    inr (match expired with
         | Some err => err
         | None => AppErr (Conflict codeChannelPending "asterisk: the PBX has not confirmed the leg's channel yet")
         end)
  else inl ch.

(** ** voice.go: commands *)

(** What an action came to: the reply of [call], or its error. *)
Definition action_result (action : string) (reply : amiPacket + error) : option error :=
  match reply with
  | inr err => Some err
  | inl pkt =>
      if String.eqb (response pkt) "Success" then None
      else Some (AppErr (actionError action (response pkt) (get pkt "Message")))
  end.

Section Commands.
Variable cfg : Config.
(** What other goroutines do to the registry while a command waits. *)
Variable during : Voice -> Voice.
(** Why [awaitChannel] stops waiting, and what [call] returns. *)
Variable expired : option error.
Variable reply : amiPacket + error.

Definition place_checks (cmd : CallCommand) : option Error :=
  if is_empty (trim_space (dict_str (cc_ProviderOptions cmd) "tenant_id")) then
    Some (Invalid codeTenantRequired "asterisk: place-call requires a string tenant_id provider option")
  else if is_empty (trim_space (cc_InteractionID cmd)) then
    Some (Invalid codeInteractionRequired "asterisk: place-call requires an interaction id")
  else if is_empty (trim_space (cc_To cmd)) then
    Some (Invalid codeDestinationRequired "asterisk: place-call requires a destination (To)")
  else if is_empty (trim_space (cc_From cmd)) then
    Some (Invalid codeOriginRequired "asterisk: place-call requires an origin (From)")
  else None.

Definition originate (cmd : CallCommand) : amiRequest :=
  MkRequest "Originate"
    [MkHeader "Channel" ("Local/" +:+ cc_To cmd +:+ "@" +:+ DialContext cfg); MkHeader "Context" (DialContext cfg);
     MkHeader "Exten" (cc_To cmd); MkHeader "Priority" "1"; MkHeader "CallerID" (cc_From cmd); MkHeader "Async" "true";
     MkHeader "Timeout" (itoa (Z.quot (OriginateTimeout cfg) Millisecond))].

Definition redirect (ch context ext : string) : amiRequest :=
  MkRequest "Redirect" [MkHeader "Channel" ch; MkHeader "Context" context; MkHeader "Exten" ext].

Definition hangup_request (ch : string) : amiRequest := MkRequest "Hangup" [MkHeader "Channel" ch].

(** The first half of [PlaceCall]: the leg registered, or the error. *)
Definition place_begin (cmd : CallCommand) (v : Voice) : (nat * Voice) + error :=
  match place_checks cmd with
  | Some err => inr (AppErr err)
  | None =>
      match registerLeg (MkLeg (cc_InteractionID cmd) (dict_str (cc_ProviderOptions cmd) "tenant_id") "" ""
                           (cc_To cmd) "") v with
      | None => inr (AppErr (Conflict codeActionIDBusy "asterisk: an action with this ActionID is already in flight"))
      | Some r => inl r
      end
  end.

(** The second half: a leg whose action failed is dropped. *)
Definition place_finish (a : nat) (v : Voice) : option error * Voice :=
  match action_result "Originate" reply with
  | Some err => (Some err, removeLeg a v)
  | None => (None, v)
  end.

(** A command: its result, the request it made with its action id, the
    registry. *)
Definition PlaceCall (cmd : CallCommand) (v : Voice) : option error * option (string * amiRequest) * Voice :=
  match place_begin cmd v with
  | inr err => (Some err, None, v)
  | inl (a, v) =>
      let '(r, v) := place_finish a (during v) in
      (r, Some (cc_InteractionID cmd, originate cmd), v)
  end.

(** The shape of the commands on a leg: find it, wait for its channel, act. *)
Definition on_channel (ref : string) (v : Voice)
    (act : nat -> string -> Voice -> option error * option (string * amiRequest) * Voice)
    : option error * option (string * amiRequest) * Voice :=
  match legByID ref v with
  | None => (Some errUnknownLeg, None, v)
  | Some a =>
      let v := during v in
      match awaitChannel a expired v with
      | inr err => (Some err, None, v)
      | inl ch => act a ch v
      end
  end.

Definition Hangup (ref : string) (v : Voice) : option error * option (string * amiRequest) * Voice :=
  on_channel ref v (fun _ ch v => (action_result "Hangup" reply, Some ("", hangup_request ch), during v)).

(** What [Transfer] does once the answer to its redirect is there. *)
Definition transfer_finish (a : nat) (destination : string) (v : Voice) : option error * Voice :=
  match action_result "Redirect" reply with
  | Some err => (Some err, clearStagedTransfer a destination v)
  | None => (None, commitTransfer a destination v)
  end.

Definition Transfer (ref destination : string) (v : Voice) : option error * option (string * amiRequest) * Voice :=
  if is_empty (trim_space destination) then
    (Some (AppErr (Invalid codeDestinationRequired "asterisk: transfer requires a destination")), None, v)
  else
  on_channel ref v (fun a ch v =>
    let '(r, v) := transfer_finish a destination (during (stageTransfer a destination v)) in
    (r, Some ("", redirect ch (DialContext cfg) destination), v)).

Definition Hold (ref : string) (v : Voice) : option error * option (string * amiRequest) * Voice :=
  on_channel ref v (fun _ ch v =>
    (action_result "Redirect" reply, Some ("", redirect ch (MOHContext cfg) "s"), during v)).

Definition Resume (ref : string) (v : Voice) : option error * option (string * amiRequest) * Voice :=
  match legByID ref v with
  | None => (Some errUnknownLeg, None, v)
  | Some a =>
      let ext := extenOf a v in
      if is_empty ext then
        (Some (AppErr (Conflict codeLegDestination
                         "asterisk: the leg's current dialplan destination is unknown; cannot resume")), None, v)
      else
      on_channel ref v (fun _ ch v =>
        (action_result "Redirect" reply, Some ("", redirect ch (DialContext cfg) ext), during v))
  end.
End Commands.

(** ** events.go *)

(** [enqueueEvent] once there is room; the reader waits while the queue is full
    (AmiClient has the waiting). *)
Definition enqueueEvent (pkt : amiPacket) (v : Voice) : option Voice :=
  if (length (queue v) <? eventQueueSize)%nat
  then Some (MkVoice (heap v) (legs v) (byChannel v) (byUniqueid v) (queue v ++ [pkt])) else None.

(** The address an index holds. *)
Definition find (m : gmap string nat) (k : string) : option nat := m !! k.

(** Bind a channel to a leg. *)
Definition bind_channel (a : nat) (ch : string) (v : Voice) : Voice :=
  let v := on_leg a (fun l => if is_empty (channel l) then with_channel ch l else l) v in
  MkVoice (heap v) (legs v) (<[ch := a]> (byChannel v)) (byUniqueid v) (queue v).

Definition bind_uniqueid (a : nat) (uid : string) (v : Voice) : Voice :=
  if is_empty uid then v
  else
    let v := on_leg a (with_uniqueid uid) v in
    MkVoice (heap v) (legs v) (byChannel v) (<[uid := a]> (byUniqueid v)) (queue v).

Definition onNewchannel (pkt : amiPacket) (v : Voice) : Voice :=
  let ch := get pkt "Channel" in
  if is_empty ch then v else
  match option_or (legs v !! actionID pkt) (byChannel v !! ch) with
  | None => v
  | Some a => bind_channel a ch (bind_uniqueid a (get pkt "Uniqueid") v)
  end.

Definition bindFromResponse (pkt : amiPacket) (v : Voice) : Voice :=
  let ch := get pkt "Channel" in
  if is_empty ch || is_empty (actionID pkt) then v else
  match legs v !! actionID pkt with
  | None => v
  | Some a => bind_channel a ch v
  end.

(** A lookup that an empty key skips. *)
Definition by_key (m : gmap string nat) (k : string) : option nat := if is_empty k then None else m !! k.

Definition legForEvent (pkt : amiPacket) (v : Voice) : option nat :=
  option_or (by_key (byUniqueid v) (get pkt "Uniqueid"))
    (option_or (by_key (byChannel v) (get pkt "Channel")) (by_key (legs v) (actionID pkt))).

Definition hangupCause (pkt : amiPacket) : string :=
  let txt := cleanWireValue (get pkt "Cause-txt") 120 in
  if negb (is_empty txt) then txt
  else let n := cleanWireValue (get pkt "Cause") 12 in
       if negb (is_empty n) then "cause " +:+ n else "hangup".

(** A provider event to deliver: event, interaction, tenant, detail. *)
Definition delivery : Type := string * string * string * string.

Definition event_for (a : nat) (v : Voice) (event detail : string) : delivery :=
  (event, leg_field interactionID a v, leg_field tenantID a v, detail).

Definition onNewstate (pkt : amiPacket) (v : Voice) : option delivery * Voice :=
  match legForEvent pkt v with
  | None => (None, v)
  | Some a =>
      let desc := get pkt "ChannelStateDesc" in
      let code := get pkt "ChannelState" in
      if String.eqb desc "Ringing" || String.eqb code "4" then
        let dest := leg_field transferTo a v in
        let v := on_leg a (with_transferTo "") v in
        (Some (event_for a v "call.ringing" (if is_empty dest then "" else "transfer:" +:+ dest)), v)
      else if String.eqb desc "Up" || String.eqb code "6" then (Some (event_for a v "call.connected" ""), v)
      else (None, v)
  end.

Definition onHangup (pkt : amiPacket) (v : Voice) : option delivery * Voice :=
  match legForEvent pkt v with
  | None => (None, v)
  | Some a => (Some (event_for a v "call.ended" (hangupCause pkt)), removeLeg a v)
  end.

Definition processPacket (pkt : amiPacket) (v : Voice) : option delivery * Voice :=
  let ev := get pkt "Event" in
  if String.eqb ev "Newchannel" then (None, onNewchannel pkt v)
  else if String.eqb ev "Newstate" then onNewstate pkt v
  else if String.eqb ev "Hangup" then onHangup pkt v
  else (None, v).

(** One round of [deliverLoop]. *)
Definition deliver_next (v : Voice) : option (option delivery * Voice) :=
  match queue v with
  | [] => None
  | pkt :: q => Some (processPacket pkt (MkVoice (heap v) (legs v) (byChannel v) (byUniqueid v) q))
  end.

(** [deliver]: what goes wrong is logged. *)
Definition deliver `{EventJSON} (cfg : Config) (d : delivery) (e : env) (s : st) : st :=
  let '(event, id, tenant, detail) := d in
  let '(wire, s) := EncodeEvent (MkProviderEvent event id tenant "" detail) e s in
  match wire, Signer cfg, Ingest cfg with
  | inl body, Some sign, Some ingest =>
      let sig := sign body in
      if is_empty sig then s else (ingest providerLabel body sig e s).2
  | _, _, _ => s
  end.

(** [New]: the configuration the adapter runs with. *)
Definition New (cfg : Config) : Config + Error :=
  match Ingest cfg, Signer cfg with
  | None, _ => inr (Invalid "asterisk.ingest_required" "asterisk: Ingest delivery hook is required")
  | _, None => inr (Invalid "asterisk.signer_required" "asterisk: Signer is required")
  | Some _, Some _ => match validate cfg with Some err => inr err | None => inl (withDefaults cfg) end
  end.

(** ** The adapter as steps *)

(** What can happen to the registry: a call is placed and its action answered;
    a transfer is staged and its redirect answered; a reply or an event is read;
    the next packet is processed. *)
Inductive Step :=
| Placed (cmd : CallCommand)
| PlaceAnswered (a : nat) (reply : amiPacket + error)
| TransferStaged (a : nat) (destination : string)
| TransferAnswered (a : nat) (destination : string) (reply : amiPacket + error)
| ReplyRead (pkt : amiPacket)
| EventRead (pkt : amiPacket)
| Processed.

(** What the adapter was told, in order: a transfer staged for a call, a reply, a
    packet taken from the queue. *)
Inductive Fact :=
| FStaged (id dest : string)
| FReply (pkt : amiPacket)
| FPacket (pkt : amiPacket).

(** The registry, the commands that registered a leg, what was delivered, and
    the history. *)
Record System := MkSystem {
  sy_voice : Voice;
  sy_placed : list CallCommand;
  sy_delivered : list delivery;
  sy_log : list Fact;
}.

Definition step (ev : Step) (y : System) : System :=
  let v := sy_voice y in
  let tables v := MkSystem v (sy_placed y) (sy_delivered y) (sy_log y) in
  let told f v := MkSystem v (sy_placed y) (sy_delivered y) (sy_log y ++ [f]) in
  match ev with
  | Placed cmd =>
      match place_begin cmd v with
      | inl (_, v) => MkSystem v (sy_placed y ++ [cmd]) (sy_delivered y) (sy_log y)
      | inr _ => y
      end
  | PlaceAnswered a reply => tables (place_finish reply a v).2
  | TransferStaged a dest => told (FStaged (leg_field interactionID a v) dest) (stageTransfer a dest v)
  | TransferAnswered a dest reply => tables (transfer_finish reply a dest v).2
  | ReplyRead pkt => told (FReply pkt) (bindFromResponse pkt v)
  | EventRead pkt => match enqueueEvent pkt v with Some v => tables v | None => y end
  | Processed =>
      match deliver_next v with
      | Some (d, v') =>
          MkSystem v' (sy_placed y) (sy_delivered y ++ match d with Some d => [d] | None => [] end)
            (sy_log y ++ map FPacket (take 1 (queue v)))
      | None => y
      end
  end.

Definition run (evs : list Step) (y : System) : System := fold_left (fun y ev => step ev y) evs y.

(** ** Events belong to the calls placed *)

(** A command a leg stands for. *)
Definition stands_for (placed : list CallCommand) (id tenant : string) : Prop :=
  exists cmd, cmd ∈ placed /\ cc_InteractionID cmd = id /\ dict_str (cc_ProviderOptions cmd) "tenant_id" = tenant
    /\ trim_space tenant <> "" /\ trim_space id <> "".

Definition addresses (m : gmap string nat) (n : nat) : Prop := forall k a, m !! k = Some a -> (a < n)%nat.

Record wf (y : System) : Prop := {
  wf_legs : addresses (legs (sy_voice y)) (length (heap (sy_voice y)));
  wf_channels : addresses (byChannel (sy_voice y)) (length (heap (sy_voice y)));
  wf_uniqueids : addresses (byUniqueid (sy_voice y)) (length (heap (sy_voice y)));
  wf_key : forall id a, legs (sy_voice y) !! id = Some a -> leg_field interactionID a (sy_voice y) = id;
  wf_heap : forall a l, heap (sy_voice y) !! a = Some l -> stands_for (sy_placed y) (interactionID l) (tenantID l);
  wf_queue : (length (queue (sy_voice y)) <= eventQueueSize)%nat;
  wf_delivered : forall event id tenant detail, (event, id, tenant, detail) ∈ sy_delivered y ->
    event ∈ ["call.ringing"; "call.connected"; "call.ended"] /\ stands_for (sy_placed y) id tenant;
}.

(** A write that keeps who the leg is. *)
Definition keeps (f : leg -> leg) : Prop := forall l, interactionID (f l) = interactionID l /\ tenantID (f l) = tenantID l.

Lemma heap_on_leg a f v b :
  heap (on_leg a f v) !! b = if decide (b = a) then f <$> heap v !! b else heap v !! b.
Proof. unfold on_leg. simpl. destruct (decide (b = a)) as [->|]; [apply list_lookup_alter_eq|by apply list_lookup_alter_ne]. Qed.

Lemma identity_on_leg a f v b :
  keeps f -> leg_field interactionID b (on_leg a f v) = leg_field interactionID b v
  /\ leg_field tenantID b (on_leg a f v) = leg_field tenantID b v.
Proof.
  intros Hf. unfold leg_field. rewrite heap_on_leg. destruct (decide (b = a)) as [->|]; [|done].
  destruct (heap v !! a); [|done]. apply Hf.
Qed.

(** The registry changed, keeping who every leg is; the indexes gained valid
    addresses at most, [legs] none. *)
Record evolves (v v' : Voice) : Prop := {
  ev_length : length (heap v') = length (heap v);
  ev_who : forall a, leg_field interactionID a v' = leg_field interactionID a v
                     /\ leg_field tenantID a v' = leg_field tenantID a v;
  ev_legs : forall k a, legs v' !! k = Some a -> legs v !! k = Some a;
  ev_channels : addresses (byChannel v) (length (heap v)) -> addresses (legs v) (length (heap v)) ->
                addresses (byChannel v') (length (heap v));
  ev_uniqueids : addresses (byUniqueid v) (length (heap v)) -> addresses (legs v) (length (heap v)) ->
                 addresses (byChannel v) (length (heap v)) -> addresses (byUniqueid v') (length (heap v));
  ev_queue : (length (queue v') <= length (queue v))%nat;
}.

#[local] Instance evolves_refl : Reflexive evolves.
Proof. intros v. by split. Qed.

Lemma evolves_on_leg a f v : keeps f -> evolves v (on_leg a f v).
Proof.
  intros Hf. split; try done; [apply length_alter|]. intros b. by apply identity_on_leg.
Qed.

Lemma keeps_fields :
  (forall x, keeps (with_channel x)) /\ (forall x, keeps (with_uniqueid x)) /\ (forall x, keeps (with_exten x))
  /\ (forall x, keeps (with_transferTo x))
  /\ (forall x, keeps (fun l => if is_empty (channel l) then with_channel x l else l))
  /\ (forall x y, keeps (fun l => if String.eqb (transferTo l) x then with_transferTo y l else l)).
Proof.
  split_and!; intros; intros l; try done; [destruct (is_empty (channel l))|destruct (String.eqb _ _)]; done.
Qed.

Lemma evolves_bind_channel a ch v :
  (a < length (heap v))%nat -> evolves v (bind_channel a ch v).
Proof.
  intros Ha. destruct keeps_fields as (_ & _ & _ & _ & Hk & _). destruct (evolves_on_leg a _ v (Hk ch)) as [H1 H2 H3 H4 H5 H6].
  split; try done. intros Hb _ k b. unfold bind_channel. simpl. intros [[_ <-]|[_ ?]]%lookup_insert_Some; [done|]. by eapply Hb.
Qed.

Lemma evolves_bind_uniqueid a uid v :
  (a < length (heap v))%nat -> evolves v (bind_uniqueid a uid v).
Proof.
  intros Ha. unfold bind_uniqueid. destruct (is_empty uid); [done|]. destruct keeps_fields as (_ & Hk & _).
  destruct (evolves_on_leg a _ v (Hk uid)) as [H1 H2 H3 H4 H5 H6].
  split; try done. intros Hb _ _ k b. simpl. intros [[_ <-]|[_ ?]]%lookup_insert_Some; [done|]. by eapply Hb.
Qed.

Lemma evolves_trans v1 v2 v3 : evolves v1 v2 -> evolves v2 v3 -> evolves v1 v3.
Proof.
  intros [L1 W1 G1 C1 U1 Q1] [L2 W2 G2 C2 U2 Q2]. rewrite L1 in *. split; [congruence| |eauto| | |lia].
  - intros a. destruct (W1 a) as [<- <-]. apply W2.
  - intros Hc Hl. apply C2; [by apply C1|]. intros k a Hk. by eapply Hl, G1.
  - intros Hu Hl Hc. apply U2; [by apply U1| |by apply C1]. intros k a Hk. by eapply Hl, G1.
Qed.

Lemma drop_entry_sub k a m j b : drop_entry k a m !! j = Some b -> m !! j = Some b.
Proof. unfold drop_entry. destruct (decide _); [|done]. by intros [_ ?]%lookup_delete_Some. Qed.

Lemma evolves_removeLeg a v : evolves v (removeLeg a v).
Proof.
  unfold removeLeg. destruct (heap v !! a) as [l|]; [|done]. split; simpl; try done.
  - intros k b. apply drop_entry_sub.
  - intros Hc _ k b. destruct (is_empty _); [apply Hc|]. intros H%drop_entry_sub. by eapply Hc.
  - intros Hu _ _ k b. destruct (is_empty _); [apply Hu|]. intros H%drop_entry_sub. by eapply Hu.
Qed.

(** Evolving keeps the system well formed, whatever it delivers for a leg. *)
Lemma wf_evolves y v ds log :
  wf y -> evolves (sy_voice y) v ->
  (forall d, d ∈ ds -> exists event detail a, d = event_for a (sy_voice y) event detail
    /\ event ∈ ["call.ringing"; "call.connected"; "call.ended"] /\ (a < length (heap (sy_voice y)))%nat) ->
  wf (MkSystem v (sy_placed y) (sy_delivered y ++ ds) log).
Proof.
  intros [H1 H2 H3 H4 H5 H6 H7] [L W G C U Q] Hds. split; simpl; rewrite ?L.
  - intros k a Hk. by eapply H1, G.
  - by apply C.
  - by apply U.
  - intros id a Hid. rewrite (proj1 (W a)). by apply H4, G.
  - intros a l Hl. destruct (W a) as [Hi Ht]. unfold leg_field in Hi, Ht. rewrite Hl in Hi, Ht.
    destruct (heap (sy_voice y) !! a) as [l0|] eqn:E; [|apply lookup_ge_None in E; apply lookup_lt_Some in Hl; lia].
    rewrite Hi, Ht. by eapply H5.
  - lia.
  - intros event id tenant detail [Hd|Hd]%elem_of_app; [by eapply H7|].
    destruct (Hds _ Hd) as (ev & det & a & [= -> -> -> ->] & Hev & Ha). split; [done|].
    apply lookup_lt_is_Some in Ha as [l Hl]. unfold leg_field. rewrite Hl. by eapply H5.
Qed.

Lemma legForEvent_valid y pkt a : wf y -> legForEvent pkt (sy_voice y) = Some a -> (a < length (heap (sy_voice y)))%nat.
Proof.
  intros Hy. unfold legForEvent, by_key, option_or.
  destruct (is_empty (get pkt "Uniqueid")), (is_empty (get pkt "Channel")), (is_empty (actionID pkt));
    repeat case_match; simplify_eq; intros; simplify_eq;
    first [by eapply (wf_uniqueids _ Hy)|by eapply (wf_channels _ Hy)|by eapply (wf_legs _ Hy)].
Qed.

Lemma processPacket_ok y pkt d v :
  wf y -> processPacket pkt (sy_voice y) = (d, v) ->
  evolves (sy_voice y) v
  /\ forall x, d = Some x -> exists event detail a, x = event_for a (sy_voice y) event detail
       /\ event ∈ ["call.ringing"; "call.connected"; "call.ended"] /\ (a < length (heap (sy_voice y)))%nat.
Proof.
  intros Hy. unfold processPacket. destruct (String.eqb _ "Newchannel").
  { intros [= <- <-]. split; [|done]. unfold onNewchannel. destruct (is_empty _); [done|].
    destruct (option_or _ _) as [a|] eqn:E; [|done].
    assert (a < length (heap (sy_voice y)))%nat as Ha.
    { unfold option_or in E. destruct (legs _ !! _) eqn:El; [injection E as ->; by eapply (wf_legs _ Hy)|by eapply (wf_channels _ Hy)]. }
    pose proof (evolves_bind_uniqueid a (get pkt "Uniqueid") _ Ha) as Hu.
    eapply evolves_trans; [exact Hu|]. apply evolves_bind_channel. by rewrite (ev_length _ _ Hu). }
  destruct (String.eqb _ "Newstate").
  { unfold onNewstate. destruct (legForEvent pkt (sy_voice y)) as [a|] eqn:E; [|by intros [= <- <-]].
    pose proof (legForEvent_valid _ _ _ Hy E) as Ha. destruct keeps_fields as (_ & _ & _ & Hk & _).
    destruct (_ || _); [|destruct (_ || _); [|by intros [= <- <-]]]; intros [= <- <-].
    - split; [by apply evolves_on_leg|]. intros x [= <-]. eexists "call.ringing", _, a. split_and!; [|set_solver|done].
      unfold event_for. by destruct (identity_on_leg a (with_transferTo "") (sy_voice y) a (Hk "")) as [-> ->].
    - split; [done|]. intros x [= <-]. eexists "call.connected", _, a. split_and!; [done|set_solver|done]. }
  destruct (String.eqb _ "Hangup"); [|by intros [= <- <-]].
  unfold onHangup. destruct (legForEvent pkt (sy_voice y)) as [a|] eqn:E; [|by intros [= <- <-]]. intros [= <- <-].
  split; [apply evolves_removeLeg|]. intros x [= <-]. eexists "call.ended", _, a.
  split_and!; [done|set_solver|by eapply legForEvent_valid].
Qed.

Lemma wf_tables y v l : wf y -> evolves (sy_voice y) v -> wf (MkSystem v (sy_placed y) (sy_delivered y) l).
Proof.
  intros Hy He. rewrite <- (app_nil_r (sy_delivered y)). apply wf_evolves; [done|done|].
  intros d Hd. by apply not_elem_of_nil in Hd.
Qed.

Lemma place_begin_ok cmd v a v' :
  place_begin cmd v = inl (a, v') ->
  trim_space (dict_str (cc_ProviderOptions cmd) "tenant_id") <> "" /\ trim_space (cc_InteractionID cmd) <> ""
  /\ legs v !! cc_InteractionID cmd = None /\ a = length (heap v)
  /\ v' = MkVoice (heap v ++ [MkLeg (cc_InteractionID cmd) (dict_str (cc_ProviderOptions cmd) "tenant_id") "" ""
                                (cc_To cmd) ""])
            (<[cc_InteractionID cmd := a]> (legs v)) (byChannel v) (byUniqueid v) (queue v).
Proof.
  unfold place_begin, place_checks, registerLeg. cbn [interactionID].
  destruct (is_empty (trim_space (dict_str _ _))) eqn:E1; [done|].
  destruct (is_empty (trim_space (cc_InteractionID _))) eqn:E2; [done|].
  destruct (is_empty (trim_space (cc_To _))); [done|]. destruct (is_empty (trim_space (cc_From _))); [done|].
  destruct (legs v !! _) eqn:El; [done|]. intros [= <- <-]. by apply is_empty_false in E1, E2.
Qed.

Lemma wf_placed y cmd a v :
  wf y -> place_begin cmd (sy_voice y) = inl (a, v) -> wf (MkSystem v (sy_placed y ++ [cmd]) (sy_delivered y) (sy_log y)).
Proof.
  intros [H1 H2 H3 H4 H5 H6 H7] (Ht & Hi & Hn & -> & ->)%place_begin_ok.
  assert (forall id tenant, stands_for (sy_placed y) id tenant -> stands_for (sy_placed y ++ [cmd]) id tenant) as Hs.
  { intros id tenant (c & Hc & Hr). exists c. split; [|done]. apply elem_of_app. by left. }
  assert (forall m, addresses m (length (heap (sy_voice y))) -> addresses m (length (heap (sy_voice y)) + 1)) as Hm.
  { intros m Ha k a Hk. specialize (Ha _ _ Hk). lia. }
  split; simpl; rewrite ?length_app; simpl; [|by apply Hm..| | |done|].
  - intros k a [[_ <-]|[_ Hk]]%lookup_insert_Some; [lia|]. by eapply (Hm (legs (sy_voice y))).
  - intros id a [[<- <-]|[_ Hk]]%lookup_insert_Some; unfold leg_field; simpl.
    + by rewrite list_lookup_middle.
    + specialize (H4 _ _ Hk). unfold leg_field in H4. destruct (heap (sy_voice y) !! a) as [l|] eqn:E.
      * by rewrite (lookup_app_l_Some _ _ _ _ E).
      * apply lookup_ge_None in E. specialize (H1 _ _ Hk). lia.
  - intros a l [Hl|[_ Hl]]%lookup_app_Some; [by eapply Hs, H5|].
    apply list_lookup_singleton_Some in Hl as [_ <-]. exists cmd. simpl. split_and!; [|done..].
    apply elem_of_app. right. by apply list_elem_of_singleton.
  - intros event id tenant detail Hd. destruct (H7 _ _ _ _ Hd). auto.
Qed.

Lemma wf_step ev y : wf y -> wf (step ev y).
Proof.
  intros Hy. destruct keeps_fields as (_ & _ & Hx & Ht & _ & Hc). destruct ev; cbn [step].
  - destruct (place_begin cmd (sy_voice y)) as [[a v]|] eqn:E; [by eapply wf_placed|done].
  - apply wf_tables; [done|]. unfold place_finish. destruct (action_result _ _); [apply evolves_removeLeg|done].
  - apply wf_tables; [done|]. by apply evolves_on_leg.
  - apply wf_tables; [done|]. unfold transfer_finish. destruct (action_result _ _); by apply evolves_on_leg.
  - apply wf_tables; [done|]. unfold bindFromResponse. destruct (_ || _); [done|].
    destruct (legs (sy_voice y) !! _) as [a|] eqn:E; [|done]. apply evolves_bind_channel. by eapply (wf_legs _ Hy).
  - unfold enqueueEvent. destruct (Nat.ltb_spec (length (queue (sy_voice y))) eventQueueSize); [|done].
    destruct Hy. split; simpl; try done. rewrite length_app. simpl. lia.
  - unfold deliver_next. destruct (queue (sy_voice y)) as [|pkt q] eqn:Eq; [done|].
    set (v0 := MkVoice _ _ _ _ q). assert (wf (MkSystem v0 (sy_placed y) (sy_delivered y) (sy_log y))) as Hy0.
    { apply wf_tables; [done|]. split; simpl; try done. rewrite Eq. simpl. lia. }
    destruct (processPacket pkt v0) as [d v] eqn:Ep. destruct (processPacket_ok _ _ _ _ Hy0 Ep) as [He Hd].
    apply (wf_evolves _ _ _ _ Hy0 He). intros x Hin. destruct d as [d0|]; [|by apply not_elem_of_nil in Hin].
    apply list_elem_of_singleton in Hin as ->. by apply Hd.
Qed.

Definition newSystem : System := MkSystem newVoice [] [] [].

Lemma wf_run evs y : wf y -> wf (run evs y).
Proof. revert y. induction evs as [|ev evs IH]; intros y Hy; [done|]. apply IH. by apply wf_step. Qed.

Lemma wf_new : wf newSystem.
Proof.
  split; simpl; try (intros k a Hk; by rewrite lookup_empty in Hk); [|lia|].
  - intros a l Hl. by rewrite lookup_nil in Hl.
  - intros ? ? ? ? Hd. by apply not_elem_of_nil in Hd.
Qed.

(** *** Whose packet it is *)

(** A reply or a Newchannel event that announced the channel under the call's
    action id. *)
Definition announced_channel (l : list Fact) (ch id : string) : Prop :=
  exists pkt, (FReply pkt ∈ l \/ FPacket pkt ∈ l /\ get pkt "Event" = "Newchannel")
    /\ get pkt "Channel" = ch /\ actionID pkt = id.

(** A Newchannel event that announced the unique id under the call's action id,
    or on a channel announced for the call. *)
Definition announced_uniqueid (l : list Fact) (uid id : string) : Prop :=
  exists pkt, FPacket pkt ∈ l /\ get pkt "Event" = "Newchannel" /\ get pkt "Uniqueid" = uid
    /\ (actionID pkt = id \/ announced_channel l (get pkt "Channel") id).

Lemma announced_channel_mono l l' ch id : announced_channel l ch id -> announced_channel (l ++ l') ch id.
Proof. intros (pkt & Hp & H). exists pkt. split; [|done]. rewrite !elem_of_app. naive_solver. Qed.

Lemma announced_uniqueid_mono l l' uid id : announced_uniqueid l uid id -> announced_uniqueid (l ++ l') uid id.
Proof.
  intros (pkt & Hp & He & Hu & Ho). exists pkt. split_and!; [apply elem_of_app; by left|done|done|].
  destruct Ho; [by left|right; by apply announced_channel_mono].
Qed.

(** The indexes lead where the history says, and a leg's staged transfer was
    staged for it. *)
Record told (l : list Fact) (v : Voice) : Prop := {
  td_channel : forall ch a, byChannel v !! ch = Some a -> announced_channel l ch (leg_field interactionID a v);
  td_uniqueid : forall u a, byUniqueid v !! u = Some a -> announced_uniqueid l u (leg_field interactionID a v);
  td_staged : forall a, leg_field transferTo a v <> "" -> FStaged (leg_field interactionID a v) (leg_field transferTo a v) ∈ l;
}.

Lemma told_mono l l' v : told l v -> told (l ++ l') v.
Proof.
  intros [H1 H2 H3]. split; [intros; by apply announced_channel_mono, H1|intros; by apply announced_uniqueid_mono, H2|].
  intros a Ha. apply elem_of_app. left. by apply H3.
Qed.

(** Fewer entries, the same legs, staged transfers kept or gone. *)
Lemma told_sub l v v' :
  told l v -> (forall ch a, byChannel v' !! ch = Some a -> byChannel v !! ch = Some a) ->
  (forall u a, byUniqueid v' !! u = Some a -> byUniqueid v !! u = Some a) ->
  (forall a, leg_field interactionID a v' = leg_field interactionID a v) ->
  (forall a, leg_field transferTo a v' = leg_field transferTo a v \/ leg_field transferTo a v' = "") -> told l v'.
Proof.
  intros [H1 H2 H3] Hc Hu Hw Ht. split.
  - intros ch a Ha. rewrite Hw. by apply H1, Hc.
  - intros u a Ha. rewrite Hw. by apply H2, Hu.
  - intros a Ha. rewrite Hw. destruct (Ht a) as [E|E]; [|done]. rewrite E in Ha |- *. by apply H3.
Qed.

Lemma leg_field_on_leg {f} a g v b :
  leg_field f b (on_leg a g v) = if decide (b = a) then match heap v !! b with Some l => f (g l) | None => "" end
                                 else leg_field f b v.
Proof. unfold leg_field. rewrite heap_on_leg. destruct (decide _); [|done]. by destruct (heap v !! b). Qed.

(** A write that keeps who the leg is, and its staged transfer or drops it. *)
Lemma told_on_leg l a g v :
  keeps g -> (forall x, transferTo (g x) = transferTo x \/ transferTo (g x) = "") -> told l v -> told l (on_leg a g v).
Proof.
  intros Hk Ht Hv. apply (told_sub l v); [done..|intros b; by apply identity_on_leg|].
  intros b. rewrite leg_field_on_leg. destruct (decide _); [|by left]. unfold leg_field. destruct (heap v !! b); [apply Ht|by left].
Qed.

Lemma told_bind_channel l a ch v :
  told l v -> announced_channel l ch (leg_field interactionID a v) -> told l (bind_channel a ch v).
Proof.
  intros Hv Ha. destruct keeps_fields as (_ & _ & _ & _ & Hk & _). unfold bind_channel.
  pose proof (told_on_leg l a _ v (Hk ch) (fun x => ltac:(left; by destruct (is_empty (channel x)))) Hv) as Hv'.
  set (v' := on_leg a _ v) in *. pose proof (fun b => proj1 (identity_on_leg a _ v b (Hk ch))) as Hw. fold v' in Hw.
  destruct Hv' as [H1 H2 H3]. split; cbn [byChannel byUniqueid]; [|exact H2|exact H3].
  intros ch' b [[<- <-]|[_ Hb]]%lookup_insert_Some; [|by apply H1].
  change (announced_channel l ch (leg_field interactionID a v')). by rewrite Hw.
Qed.

Lemma told_bind_uniqueid l a u v :
  told l v -> (u <> "" -> announced_uniqueid l u (leg_field interactionID a v)) -> told l (bind_uniqueid a u v).
Proof.
  intros Hv Ha. unfold bind_uniqueid. destruct (is_empty u) eqn:E; [done|]. apply is_empty_false in E.
  destruct keeps_fields as (_ & Hk & _).
  pose proof (told_on_leg l a _ v (Hk u) (fun x => or_introl eq_refl) Hv) as Hv'.
  set (v' := on_leg a _ v) in *. pose proof (fun b => proj1 (identity_on_leg a _ v b (Hk u))) as Hw. fold v' in Hw.
  destruct Hv' as [H1 H2 H3]. split; cbn [byChannel byUniqueid]; [exact H1| |exact H3].
  intros u' b [[<- <-]|[_ Hb]]%lookup_insert_Some; [|by apply H2].
  change (announced_uniqueid l u (leg_field interactionID a v')). rewrite Hw. by apply Ha.
Qed.

Lemma told_removeLeg l a v : told l v -> told l (removeLeg a v).
Proof.
  intros Hv. unfold removeLeg. destruct (heap v !! a) as [x|]; [|done].
  apply (told_sub l v); [done|intros k b; cbn [byChannel]|intros k b; cbn [byUniqueid]|done|by left];
    destruct (is_empty _); try done; apply drop_entry_sub.
Qed.

(** The key of [legs] is the call's id. *)
Definition keyed (v : Voice) : Prop := forall id a, legs v !! id = Some a -> leg_field interactionID a v = id.

Lemma told_onNewchannel l pkt v :
  get pkt "Event" = "Newchannel" -> FPacket pkt ∈ l -> keyed v -> told l v -> told l (onNewchannel pkt v).
Proof.
  intros He Hl Hk Hv. unfold onNewchannel. destruct (is_empty (get pkt "Channel")); [done|].
  destruct (option_or (legs v !! actionID pkt) (byChannel v !! get pkt "Channel")) as [a|] eqn:E; [|done].
  assert (actionID pkt = leg_field interactionID a v \/ announced_channel l (get pkt "Channel") (leg_field interactionID a v)) as Ho.
  { unfold option_or in E. destruct (legs v !! actionID pkt) eqn:El; [injection E as ->; left; symmetry; by apply Hk|].
    right. by apply (td_channel _ _ Hv). }
  assert (announced_channel l (get pkt "Channel") (leg_field interactionID a v)) as Hc
    by (destruct Ho as [Ho|Ho]; [exists pkt; auto|done]).
  apply told_bind_channel; [apply told_bind_uniqueid; [done|]|].
  - intros _. exists pkt. by split_and!.
  - destruct keeps_fields as (_ & Hku & _). unfold bind_uniqueid. destruct (is_empty (get pkt "Uniqueid")); [done|].
    pose proof (proj1 (identity_on_leg a (with_uniqueid (get pkt "Uniqueid")) v a (Hku _))) as Hw.
    unfold leg_field in *. cbn [heap]. by rewrite Hw.
Qed.

Lemma told_processPacket l pkt v d v' :
  keyed v -> told l v -> processPacket pkt v = (d, v') -> told (l ++ [FPacket pkt]) v'.
Proof.
  intros Hk Hv. unfold processPacket. destruct (String.eqb_spec (get pkt "Event") "Newchannel") as [He|_].
  { intros [= <- <-]. apply told_onNewchannel; [done| |done|by apply told_mono]. apply elem_of_app. right. by left. }
  apply (told_mono _ [FPacket pkt]) in Hv. destruct (String.eqb (get pkt "Event") "Newstate").
  { destruct keeps_fields as (_ & _ & _ & Ht & _). unfold onNewstate. destruct (legForEvent pkt v); [|by intros [= <- <-]].
    destruct (_ || _); [|destruct (_ || _); by intros [= <- <-]]. intros [= <- <-].
    apply told_on_leg; [apply Ht|by right|done]. }
  destruct (String.eqb (get pkt "Event") "Hangup"); [|by intros [= <- <-]].
  unfold onHangup. destruct (legForEvent pkt v); intros [= <- <-]; [by apply told_removeLeg|done].
Qed.

Lemma told_place l cmd v a v' : place_begin cmd v = inl (a, v') ->
  addresses (byChannel v) (length (heap v)) -> addresses (byUniqueid v) (length (heap v)) -> told l v -> told l v'.
Proof.
  intros (_ & _ & _ & -> & ->)%place_begin_ok Hc Hu [H1 H2 H3].
  assert (forall f b, (b < length (heap v))%nat -> leg_field f b (MkVoice (heap v ++ [MkLeg (cc_InteractionID cmd)
    (dict_str (cc_ProviderOptions cmd) "tenant_id") "" "" (cc_To cmd) ""]) (<[cc_InteractionID cmd := length (heap v)]> (legs v))
    (byChannel v) (byUniqueid v) (queue v)) = leg_field f b v) as Hold.
  { intros f b Hb. unfold leg_field. cbn [heap]. by rewrite lookup_app_l. }
  split; cbn [byChannel byUniqueid].
  - intros ch b Hb. rewrite Hold by by eapply Hc. by apply H1.
  - intros u b Hb. rewrite Hold by by eapply Hu. by apply H2.
  - intros b. destruct (decide (b < length (heap v))%nat) as [Hb|Hb]; [rewrite !Hold by done; apply H3|].
    unfold leg_field at 1. cbn [heap]. destruct (decide (b = length (heap v))) as [->|Hne]; [by rewrite list_lookup_middle|].
    by rewrite (proj2 (lookup_ge_None _ _)) by (rewrite length_app; simpl; lia).
Qed.

Lemma told_step ev y : wf y -> told (sy_log y) (sy_voice y) -> told (sy_log (step ev y)) (sy_voice (step ev y)).
Proof.
  intros Hy Hv. destruct keeps_fields as (_ & _ & Hx & Ht & _ & Hc). destruct ev; cbn [step sy_log sy_voice].
  - destruct (place_begin cmd (sy_voice y)) as [[a v]|] eqn:E; [|done]. cbn [sy_log sy_voice].
    eapply told_place; [exact E|apply Hy|apply Hy|done].
  - unfold place_finish. destruct (action_result _ _); [by apply told_removeLeg|done].
  - apply (told_mono _ [FStaged (leg_field interactionID a (sy_voice y)) destination]) in Hv as [H1 H2 H3].
    unfold stageTransfer. split; cbn [on_leg byChannel byUniqueid].
    + intros ch b Hb. rewrite (proj1 (identity_on_leg a _ _ b (Ht destination))). by apply H1.
    + intros u b Hb. rewrite (proj1 (identity_on_leg a _ _ b (Ht destination))). by apply H2.
    + intros b. rewrite (proj1 (identity_on_leg a _ _ b (Ht destination))), leg_field_on_leg.
      destruct (decide (b = a)) as [->|]; [|apply H3]. destruct (heap (sy_voice y) !! a) as [x|] eqn:E; [|done].
      cbn [with_transferTo transferTo]. intros _. apply elem_of_app. right. unfold leg_field. rewrite E. by left.
  - unfold transfer_finish. destruct (action_result _ _).
    + apply told_on_leg; [apply Hc| |done]. intros x. destruct (String.eqb _ _); [by right|by left].
    + apply told_on_leg; [apply Hx|by left|done].
  - apply (told_mono _ [FReply pkt]) in Hv. unfold bindFromResponse. destruct (_ || _); [done|].
    destruct (legs (sy_voice y) !! actionID pkt) as [a|] eqn:E; [|done]. apply told_bind_channel; [done|].
    exists pkt. split; [left; apply elem_of_app; right; by left|]. split; [done|]. symmetry. by apply (wf_key _ Hy).
  - unfold enqueueEvent. destruct (_ <? _)%nat; [|done]. by destruct Hv.
  - unfold deliver_next. destruct (queue (sy_voice y)) as [|pkt q] eqn:Eq; [done|].
    set (v0 := MkVoice _ _ _ _ q). assert (told (sy_log y) v0) as Hv0 by by destruct Hv.
    destruct (processPacket pkt v0) as [d v] eqn:Ep. cbn [sy_log sy_voice take map]. eapply told_processPacket; [|exact Hv0|exact Ep].
    intros id a. apply (wf_key _ Hy).
Qed.

Lemma told_run evs y : wf y -> told (sy_log y) (sy_voice y) -> told (sy_log (run evs y)) (sy_voice (run evs y)).
Proof.
  revert y. induction evs as [|ev evs IH]; intros y Hy Hv; [done|]. apply IH; [by apply wf_step|by apply told_step].
Qed.

Lemma told_new : told [] newVoice.
Proof.
  split; cbn [newVoice byChannel byUniqueid]; [intros ch a Ha; by rewrite lookup_empty in Ha|intros u a Ha; by rewrite lookup_empty in Ha|].
  intros a. unfold leg_field. cbn [newVoice heap]. by rewrite lookup_nil.
Qed.

(** What a packet says happened. *)
Definition says (pkt : amiPacket) (event : string) : Prop :=
  let desc := get pkt "ChannelStateDesc" in
  let code := get pkt "ChannelState" in
  (event = "call.ringing" /\ get pkt "Event" = "Newstate" /\ (desc = "Ringing" \/ code = "4"))
  \/ (event = "call.connected" /\ get pkt "Event" = "Newstate" /\ (desc = "Up" \/ code = "6"))
  \/ (event = "call.ended" /\ get pkt "Event" = "Hangup").

(** Whose the packet is: the call its unique id was announced for; if no leg is
    known under that, the call its channel was announced for; else the call its
    action id names. *)
Definition belongs (l : list Fact) (v : Voice) (pkt : amiPacket) (id : string) : Prop :=
  match by_key (byUniqueid v) (get pkt "Uniqueid") with
  | Some _ => announced_uniqueid l (get pkt "Uniqueid") id
  | None =>
      match by_key (byChannel v) (get pkt "Channel") with
      | Some _ => announced_channel l (get pkt "Channel") id
      | None => actionID pkt = id
      end
  end.

Lemma legForEvent_belongs l v pkt a :
  keyed v -> told l v -> legForEvent pkt v = Some a -> belongs l v pkt (leg_field interactionID a v).
Proof.
  intros Hk [H1 H2 _]. unfold legForEvent, belongs, by_key, option_or.
  destruct (is_empty (get pkt "Uniqueid")); [|destruct (byUniqueid v !! _) eqn:Eu; [intros [= ->]; by apply H2|]];
    (destruct (is_empty (get pkt "Channel")); [|destruct (byChannel v !! _) eqn:Ec; [intros [= ->]; by apply H1|]]);
    (destruct (is_empty (actionID pkt)); [done|]; intros Ha%Hk; done).
Qed.

(** C36. Every event is the right one, for the right call. Over every
    interleaving of commands, answers and PBX packets: the event handed over for
    the next packet is the one the packet says, for the call the packet's unique
    id was announced for by a Newchannel event with this call's action id or
    channel, else the call its channel was announced for, else the call its
    action id names; an end carries the packet's cause, a ringing the
    destination of a transfer staged for that very call, or nothing. The call is
    one a command placed, with the tenant of that command; the event queue stays
    within its bound. *)
Theorem asterisk_events_belong evs :
  let y := run evs newSystem in
  (forall pkt q event id tenant detail v', queue (sy_voice y) = pkt :: q ->
     deliver_next (sy_voice y) = Some (Some (event, id, tenant, detail), v') ->
     says pkt event /\ belongs (sy_log y) (sy_voice y) pkt id
     /\ (event = "call.ended" -> detail = hangupCause pkt)
     /\ (event = "call.ringing" -> detail = "" \/ exists dest, detail = "transfer:" +:+ dest /\ FStaged id dest ∈ sy_log y)
     /\ exists cmd, cmd ∈ sy_placed y /\ cc_InteractionID cmd = id
          /\ dict_str (cc_ProviderOptions cmd) "tenant_id" = tenant)
  /\ (forall event id tenant detail, (event, id, tenant, detail) ∈ sy_delivered y ->
       exists cmd, cmd ∈ sy_placed y /\ cc_InteractionID cmd = id
          /\ dict_str (cc_ProviderOptions cmd) "tenant_id" = tenant)
  /\ (length (queue (sy_voice y)) <= 256)%nat.
Proof.
  intros y. pose proof (wf_run evs _ wf_new) as Hy. assert (told (sy_log y) (sy_voice y)) as Hv
    by (apply told_run; [apply wf_new|apply told_new]).
  fold y in Hy. clearbody y. split_and!; [|intros event id tenant detail Hd; destruct (wf_delivered _ Hy _ _ _ _ Hd) as (_ & cmd & ? & ? & ? & _); by exists cmd|apply (wf_queue _ Hy)].
  intros pkt q event id tenant detail v' Hq. unfold deliver_next. rewrite Hq.
  set (v0 := MkVoice _ _ _ _ q). intros [= Hp].
  assert (keyed v0) as Hk0 by (intros k a; apply (wf_key _ Hy)).
  assert (told (sy_log y) v0) as Hv0 by (by destruct Hv).
  assert (forall a, legForEvent pkt v0 = Some a -> belongs (sy_log y) (sy_voice y) pkt (leg_field interactionID a v0)
    /\ exists cmd, cmd ∈ sy_placed y /\ cc_InteractionID cmd = leg_field interactionID a v0
         /\ dict_str (cc_ProviderOptions cmd) "tenant_id" = leg_field tenantID a v0) as Hleg.
  { intros a Ha. split; [by apply (legForEvent_belongs (sy_log y) v0)|].
    assert (wf (MkSystem v0 (sy_placed y) (sy_delivered y) [])) as Hy0
      by (apply wf_tables; [done|]; split; simpl; try done; rewrite Hq; simpl; lia).
    apply (legForEvent_valid _ _ _ Hy0) in Ha as Hl. cbn [sy_voice] in Hl. apply lookup_lt_is_Some in Hl as [l Hl].
    destruct (wf_heap _ Hy0 _ _ Hl) as (cmd & Hc & Hi & Ht & _). exists cmd. unfold leg_field. rewrite Hl. done. }
  unfold processPacket in Hp. destruct (String.eqb_spec (get pkt "Event") "Newchannel") as [|_]; [done|].
  destruct (String.eqb_spec (get pkt "Event") "Newstate") as [En|_].
  { unfold onNewstate in Hp. destruct (legForEvent pkt v0) as [a|] eqn:El; [|done]. destruct (Hleg a eq_refl) as [Hb Hcmd].
    destruct keeps_fields as (_ & _ & _ & Hk & _).
    destruct (String.eqb_spec (get pkt "ChannelStateDesc") "Ringing") as [Ed|Ed], (String.eqb_spec (get pkt "ChannelState") "4") as [Ec|Ec];
      cbn [orb] in Hp.
    1-3: unfold event_for in Hp; destruct (identity_on_leg a (with_transferTo "") v0 a (Hk "")) as [Hi1 Ht1];
      rewrite Hi1, Ht1 in Hp; injection Hp as <- <- <- <- _;
      (split_and!; [left; auto|done|done| |done]); intros _; destruct (is_empty (leg_field transferTo a v0)) eqn:Et; [by left|right];
      eexists; (split; [done|]); apply (td_staged _ _ Hv0); by apply is_empty_false.
    destruct (String.eqb_spec (get pkt "ChannelStateDesc") "Up") as [Ed'|Ed'], (String.eqb_spec (get pkt "ChannelState") "6") as [Ec'|Ec'];
      cbn [orb] in Hp; try done; injection Hp as <- <- <- <- _; split_and!; try done; right; left; auto. }
  destruct (String.eqb_spec (get pkt "Event") "Hangup") as [Eh|_]; [|done].
  unfold onHangup in Hp. destruct (legForEvent pkt v0) as [a|] eqn:El; [|done]. destruct (Hleg a eq_refl) as [Hb Hcmd].
  injection Hp as <- <- <- <- _. split_and!; [right; right; auto|done|done|done|done].
Qed.

(** ** A leg that ended is silent *)

(** Some index leads to the leg. *)
Definition indexed (v : Voice) (a : nat) : Prop :=
  exists k, legs v !! k = Some a \/ byChannel v !! k = Some a \/ byUniqueid v !! k = Some a.

(** No index leads to a leg of the interaction. *)
Definition silent (id : string) (v : Voice) : Prop := forall a, indexed v a -> leg_field interactionID a v <> id.

(** Legs keep who they are, and the indexes lead to no others than before. *)
Lemma silent_evolves id v v' :
  silent id v -> (forall a, leg_field interactionID a v' = leg_field interactionID a v) ->
  (forall a, indexed v' a -> indexed v a) -> silent id v'.
Proof. intros Hs Hw Hi a Ha. rewrite Hw. by apply Hs, Hi. Qed.

Lemma indexed_on_leg a f v b : indexed (on_leg a f v) b <-> indexed v b.
Proof. done. Qed.

Lemma silent_on_leg id a f v : keeps f -> silent id v -> silent id (on_leg a f v).
Proof. intros Hf Hs. eapply silent_evolves; [done|intros b; by apply identity_on_leg|done]. Qed.

Lemma indexed_bind_channel a ch v b : indexed v a -> indexed (bind_channel a ch v) b -> indexed v b.
Proof.
  intros Ha (k & [Hk|[Hk|Hk]]); simpl in Hk; [exists k; auto| |exists k; auto].
  apply lookup_insert_Some in Hk as [[_ <-]|[_ Hk]]; [done|]. exists k. auto.
Qed.

Lemma indexed_bind_uniqueid a uid v b : indexed v a -> indexed (bind_uniqueid a uid v) b -> indexed v b.
Proof.
  intros Ha. unfold bind_uniqueid. destruct (is_empty uid); [done|]. intros (k & [Hk|[Hk|Hk]]); simpl in Hk; [exists k; auto..|].
  apply lookup_insert_Some in Hk as [[_ <-]|[_ Hk]]; [done|]. exists k. auto.
Qed.

Lemma bind_uniqueid_indexed a uid v : indexed v a -> indexed (bind_uniqueid a uid v) a.
Proof.
  unfold bind_uniqueid. destruct (is_empty uid); [done|]. intros _. exists uid. right. right. simpl. apply lookup_insert_eq.
Qed.

Lemma silent_bind_channel id a ch v : indexed v a -> silent id v -> silent id (bind_channel a ch v).
Proof.
  intros Ha Hs. destruct keeps_fields as (_ & _ & _ & _ & Hk & _).
  eapply silent_evolves; [exact Hs|intros b; by apply (identity_on_leg a _ v b (Hk ch))|].
  intros b. by apply indexed_bind_channel.
Qed.

Lemma silent_bind_uniqueid id a uid v : indexed v a -> silent id v -> silent id (bind_uniqueid a uid v).
Proof.
  intros Ha Hs. destruct keeps_fields as (_ & Hk & _).
  eapply silent_evolves; [exact Hs| |intros b; by apply indexed_bind_uniqueid].
  intros b. unfold bind_uniqueid. destruct (is_empty uid); [done|]. by apply (identity_on_leg a _ v b (Hk uid)).
Qed.

Lemma indexed_removeLeg a v b : indexed (removeLeg a v) b -> indexed v b.
Proof.
  unfold removeLeg. destruct (heap v !! a) as [l|]; [|done]. intros (k & [Hk|[Hk|Hk]]); simpl in Hk; exists k.
  - left. by eapply drop_entry_sub.
  - right. left. destruct (is_empty _); [done|by eapply drop_entry_sub].
  - right. right. destruct (is_empty _); [done|by eapply drop_entry_sub].
Qed.

Lemma removeLeg_who a v b : leg_field interactionID b (removeLeg a v) = leg_field interactionID b v.
Proof. apply (evolves_removeLeg a v). Qed.

Lemma silent_removeLeg id a v : silent id v -> silent id (removeLeg a v).
Proof. intros Hs. eapply silent_evolves; [exact Hs|intros b; apply removeLeg_who|intros b; apply indexed_removeLeg]. Qed.

Lemma legForEvent_indexed pkt v a : legForEvent pkt v = Some a -> indexed v a.
Proof.
  unfold legForEvent, by_key, option_or, indexed.
  destruct (is_empty (get pkt "Uniqueid")), (is_empty (get pkt "Channel")), (is_empty (actionID pkt));
    repeat case_match; intros; simplify_eq; eauto.
Qed.

Lemma wf_indexed y a : wf y -> indexed (sy_voice y) a -> (a < length (heap (sy_voice y)))%nat.
Proof. intros [H1 H2 H3 _ _ _ _] (k & [Hk|[Hk|Hk]]); eauto. Qed.

(** Deliveries that are not an interaction's. *)
Definition spares (id : string) (ds : list delivery) : Prop :=
  forall event i tenant detail, (event, i, tenant, detail) ∈ ds -> i <> id.

Lemma processPacket_silent id pkt v d v' :
  silent id v -> processPacket pkt v = (d, v') -> silent id v' /\ spares id match d with Some d => [d] | None => [] end.
Proof.
  intros Hs. destruct keeps_fields as (_ & _ & _ & Ht & _).
  assert (spares id []) as Hnil by (intros ? ? ? ? Hd; by apply not_elem_of_nil in Hd).
  assert (forall a event detail, legForEvent pkt v = Some a -> spares id [event_for a v event detail]) as Hev.
  { intros a event detail Hf ev i tenant det Hd. apply list_elem_of_singleton in Hd. injection Hd as -> -> -> ->.
    apply Hs. by eapply legForEvent_indexed. }
  unfold processPacket. destruct (String.eqb _ "Newchannel").
  { intros [= <- <-]. split; [|done]. unfold onNewchannel. destruct (is_empty _); [done|].
    destruct (option_or _ _) as [a|] eqn:E; [|done].
    assert (indexed v a) as Ha.
    { unfold option_or in E. destruct (legs v !! _) eqn:El; [injection E as ->|]; eexists; eauto. }
    apply silent_bind_channel; [by apply bind_uniqueid_indexed|]. by apply silent_bind_uniqueid. }
  destruct (String.eqb _ "Newstate").
  { unfold onNewstate. destruct (legForEvent pkt v) as [a|] eqn:E; [|by intros [= <- <-]].
    destruct (_ || _); [|destruct (_ || _); [|by intros [= <- <-]]]; intros [= <- <-]; (split; [|]); try done; try by apply Hev.
    - by apply silent_on_leg.
    - unfold event_for. destruct (identity_on_leg a (with_transferTo "") v a (Ht "")) as [-> ->]. by apply Hev. }
  destruct (String.eqb _ "Hangup"); [|by intros [= <- <-]].
  unfold onHangup. destruct (legForEvent pkt v) as [a|] eqn:E; intros [= <- <-]; [|done].
  split; [by apply silent_removeLeg|by apply Hev].
Qed.

Lemma silent_step ev y id :
  silent id (sy_voice y) -> wf y -> (forall cmd, ev = Placed cmd -> cc_InteractionID cmd <> id) ->
  silent id (sy_voice (step ev y)) /\ exists ds, sy_delivered (step ev y) = sy_delivered y ++ ds /\ spares id ds.
Proof.
  intros Hs Hy Hp. destruct keeps_fields as (_ & _ & Hx & Ht & _ & Hc).
  assert (forall ds', ds' = sy_delivered y -> exists ds, ds' = sy_delivered y ++ ds /\ spares id ds) as Hnone.
  { intros ds' ->. exists []. rewrite app_nil_r. split; [done|]. intros ? ? ? ? Hd. by apply not_elem_of_nil in Hd. }
  destruct ev; cbn [step]; try (split; [|by apply Hnone]); cbn [sy_voice].
  - destruct (place_begin cmd (sy_voice y)) as [[a v]|] eqn:E; [|by split; [|apply Hnone]].
    split; [|by apply Hnone]. apply place_begin_ok in E as (_ & _ & _ & -> & ->). cbn [sy_voice].
    intros b (k & Hk). unfold leg_field. simpl.
    assert (b = length (heap (sy_voice y)) \/ indexed (sy_voice y) b) as [->|Hb].
    { destruct Hk as [Hk|Hk]; [|right; exists k; auto]. simpl in Hk.
      apply lookup_insert_Some in Hk as [[_ <-]|[_ Hk]]; [by left|right; exists k; auto]. }
    + rewrite list_lookup_middle by done. by apply Hp.
    + rewrite lookup_app_l by by eapply wf_indexed. by apply Hs.
  - unfold place_finish. destruct (action_result _ _); [by apply silent_removeLeg|done].
  - by apply silent_on_leg.
  - unfold transfer_finish. destruct (action_result _ _); by apply silent_on_leg.
  - unfold bindFromResponse. destruct (_ || _); [done|].
    destruct (legs (sy_voice y) !! _) as [a|] eqn:E; [|done]. apply silent_bind_channel; [|done]. by exists (actionID pkt); left.
  - unfold enqueueEvent. destruct (_ <? _)%nat; by split; [|apply Hnone].
  - unfold deliver_next. destruct (queue (sy_voice y)) as [|pkt q]; [by split; [|apply Hnone]|].
    set (v0 := MkVoice _ _ _ _ q). destruct (processPacket pkt v0) as [d v] eqn:E.
    destruct (processPacket_silent id pkt v0 d v Hs E). split; [done|]. by eexists.
Qed.

Lemma silent_run evs y id :
  silent id (sy_voice y) -> wf y -> (forall cmd, Placed cmd ∈ evs -> cc_InteractionID cmd <> id) ->
  exists ds, sy_delivered (run evs y) = sy_delivered y ++ ds /\ spares id ds.
Proof.
  revert y. induction evs as [|ev evs IH]; intros y Hs Hy Hp.
  { exists []. rewrite app_nil_r. split; [done|]. intros ? ? ? ? Hd. by apply not_elem_of_nil in Hd. }
  destruct (silent_step ev y id Hs Hy) as (Hs1 & ds1 & E1 & Hd1); [intros cmd ->; apply Hp; by left|].
  destruct (IH (step ev y) Hs1 (wf_step _ _ Hy)) as (ds2 & E2 & Hd2); [intros cmd Hc; apply Hp; by right|].
  exists (ds1 ++ ds2). change (run (ev :: evs) y) with (run evs (step ev y)). rewrite E2, E1, <- app_assoc. split; [done|].
  intros event i tenant detail [Hd|Hd]%elem_of_app; eauto.
Qed.

(** A leg found by its one channel and its one unique id, and the only leg of
    its interaction the indexes lead to. *)
Record sole_leg (v : Voice) (a : nat) (l : leg) : Prop := {
  sl_heap : heap v !! a = Some l;
  sl_named : channel l <> "" /\ uniqueid l <> "";
  sl_channel : forall k b, byChannel v !! k = Some b -> leg_field interactionID b v = interactionID l -> b = a /\ k = channel l;
  sl_uniqueid : forall k b, byUniqueid v !! k = Some b -> leg_field interactionID b v = interactionID l -> b = a /\ k = uniqueid l;
  sl_legs : forall k b, legs v !! k = Some b -> leg_field interactionID b v = interactionID l -> b = a /\ k = interactionID l;
}.

Lemma sole_leg_removed v a l : sole_leg v a l -> silent (interactionID l) (removeLeg a v).
Proof.
  intros [Hh [Hc Hu] H1 H2 H3] b Hb Hid. rewrite removeLeg_who in Hid.
  assert (forall k m, drop_entry k a m !! k = Some b -> b = a -> False) as Hdrop.
  { intros k m Hk ->. unfold drop_entry in Hk. destruct (decide _) as [|Hne]; [by rewrite lookup_delete_eq in Hk|done]. }
  unfold removeLeg in Hb. rewrite Hh in Hb. destruct Hb as (k & [Hk|[Hk|Hk]]); simpl in Hk.
  - destruct (H3 k b) as [-> ->]; [by eapply drop_entry_sub|done|]. by eapply Hdrop.
  - rewrite (proj2 (is_empty_false _)) in Hk by done.
    destruct (H1 k b) as [-> ->]; [by eapply drop_entry_sub|done|]. by eapply Hdrop.
  - rewrite (proj2 (is_empty_false _)) in Hk by done.
    destruct (H2 k b) as [-> ->]; [by eapply drop_entry_sub|done|]. by eapply Hdrop.
Qed.

(** The hangup of a leg known under one channel and one unique id is the last
    the platform hears of its interaction until it is placed again. *)
Lemma ended_leg_is_silent evs1 evs2 a l :
  let y := run evs1 newSystem in
  sole_leg (sy_voice y) a l -> (forall cmd, Placed cmd ∈ evs2 -> cc_InteractionID cmd <> interactionID l) ->
  let y' := MkSystem (removeLeg a (sy_voice y)) (sy_placed y) (sy_delivered y) (sy_log y) in
  exists ds, sy_delivered (run evs2 y') = sy_delivered y ++ ds /\ spares (interactionID l) ds.
Proof.
  intros y Hl Hp y'. apply (silent_run evs2 y'); [by apply sole_leg_removed| |done].
  apply wf_tables; [apply wf_run, wf_new|apply evolves_removeLeg].
Qed.

(** ** Runs *)

Definition demo_call : CallCommand := MkCallCommand "i1" "1000" "2000" [("tenant_id", VStr "t1")].

Definition packet (kvs : list (string * string)) : amiPacket := map (fun kv => MkHeader kv.1 kv.2) kvs.

Definition read (kvs : list (string * string)) : list Step := [EventRead (packet kvs); Processed].

Definition queued : amiPacket + error := inl (packet [("Response", "Success"); ("ActionID", "i1")]).

(** A Local channel has two halves. When the switch announces both under the
    call's action id, the second half's hangup ends the interaction again. *)
Lemma second_channel_ends_twice :
  sy_delivered (run ([Placed demo_call; PlaceAnswered 0 queued]
     ++ read [("Event", "Newchannel"); ("Channel", "Local/2000@x;1"); ("Uniqueid", "u1"); ("ActionID", "i1")]
     ++ read [("Event", "Newchannel"); ("Channel", "Local/2000@x;2"); ("Uniqueid", "u2"); ("ActionID", "i1")]
     ++ read [("Event", "Hangup"); ("Channel", "Local/2000@x;1"); ("Uniqueid", "u1")]
     ++ read [("Event", "Hangup"); ("Channel", "Local/2000@x;2"); ("Uniqueid", "u2")]) newSystem)
  = [("call.ended", "i1", "t1", "hangup"); ("call.ended", "i1", "t1", "hangup")].
Proof. vm_compute. reflexivity. Qed.

(** A call whose answer is late is forgotten while the switch connects it: the
    platform hears nothing of a live call. *)
Lemma live_call_forgotten :
  let y := run ([Placed demo_call; PlaceAnswered 0 (inr action_timeout)]
     ++ read [("Event", "Newchannel"); ("Channel", "Local/2000@x;1"); ("Uniqueid", "u1"); ("ActionID", "i1")]
     ++ read [("Event", "Newstate"); ("Channel", "Local/2000@x;1"); ("Uniqueid", "u1"); ("ChannelStateDesc", "Up")]) newSystem in
  sy_delivered y = [] /\ legs (sy_voice y) = ∅.
Proof. vm_compute. done. Qed.

(** Two calls; the second one's hangup waits. *)
Definition hangup_waits : list (string * string) :=
  [("Event", "Hangup"); ("Channel", "c1"); ("Uniqueid", "u2"); ("Cause", "16")].

Definition two_calls : list Step :=
  [Placed demo_call; PlaceAnswered 0 queued; Placed (MkCallCommand "i2" "1000" "2001" [("tenant_id", VStr "t2")])]
  ++ read [("Event", "Newchannel"); ("Channel", "c1"); ("Uniqueid", "u1"); ("ActionID", "i1")]
  ++ read [("Event", "Newchannel"); ("Channel", "c2"); ("Uniqueid", "u2"); ("ActionID", "i2")]
  ++ [EventRead (packet hangup_waits)].

Lemma two_calls_next :
  queue (sy_voice (run two_calls newSystem)) = [packet hangup_waits]
  /\ exists v, deliver_next (sy_voice (run two_calls newSystem)) = Some (Some ("call.ended", "i2", "t2", "cause 16"), v).
Proof. split; [vm_compute; reflexivity|]. eexists. vm_compute. reflexivity. Qed.

(** Its unique id decides, not the channel of the first call. *)
Lemma asterisk_events_belong_witness :
  says (packet hangup_waits) "call.ended"
  /\ belongs (sy_log (run two_calls newSystem)) (sy_voice (run two_calls newSystem)) (packet hangup_waits) "i2".
Proof.
  destruct two_calls_next as (Hq & v & Hd).
  destruct (proj1 (asterisk_events_belong two_calls) _ _ _ _ _ _ _ Hq Hd) as (Hs & Hb & _). exact (conj Hs Hb).
Defined.

(** A transfer rings with its destination, once. *)
Example transfer_rings :
  sy_delivered (run ([Placed demo_call; PlaceAnswered 0 queued]
     ++ read [("Event", "Newchannel"); ("Channel", "c"); ("Uniqueid", "u1"); ("ActionID", "i1")]
     ++ [TransferStaged 0 "3000"]
     ++ read [("Event", "Newstate"); ("Channel", "c"); ("ChannelState", "4")]
     ++ [TransferAnswered 0 "3000" queued]
     ++ read [("Event", "Newstate"); ("Channel", "c"); ("ChannelState", "4")]) newSystem)
  = [("call.ringing", "i1", "t1", "transfer:3000"); ("call.ringing", "i1", "t1", "")].
Proof. vm_compute. reflexivity. Qed.

(** The destination goes unchecked into the dial string: with an at sign in it
    the call leaves the configured context. *)
Lemma destination_escapes_context cfg :
  DialContext cfg = "from-internal" ->
  get (Headers (originate cfg (MkCallCommand "i1" "1000" "9@admin/n&Local/1" [("tenant_id", VStr "t1")]))) "Channel"
  = "Local/9@admin/n&Local/1@from-internal"
  /\ place_checks (MkCallCommand "i1" "1000" "9@admin/n&Local/1" [("tenant_id", VStr "t1")]) = None.
Proof. intros E. unfold originate. rewrite E. by vm_compute. Qed.
