(* ===== verification/FreeSwitch.v ===== *)
(** * internal/telephony/adapters/freeswitch: the FreeSWITCH voice adapter

    voice.go (the voice port as ESL command lines over the session layer, the
    answers and their errors) and events.go (the leg registry, events to
    provider events). A command waits for the switch between two halves; what
    [client.Do] answers, and what other goroutines do to the registry
    meanwhile, is [execute]. In [Step] every critical section of the registry
    is a step of its own, and so is every hand-over to [Ingest]: a transfer's
    ringing is handed over after the lock is given back, and an event handler
    takes the lock up to four times. *)

From Stdlib Require Import String Ascii.
From S2P Require Import Prelude GoStd AppErrors Store Comms Text Planes Sha256 Wire FsFrame FsClient.

Local Open Scope Z_scope.

Definition providerName := "freeswitch".
Definition cmdOriginate := "originate".
Definition cmdUUIDKill := "uuid_kill".
Definition cmdUUIDTransfer := "uuid_transfer".
Definition cmdUUIDHold := "uuid_hold".
Definition defaultTransferDialplan := "XML".
Definition defaultTransferContext := "default".

Definition evChannelAnswer := "CHANNEL_ANSWER".
Definition evChannelHangup := "CHANNEL_HANGUP".
Definition evBackgroundJob := "BACKGROUND_JOB".
Definition subscribedEvents : list string := [evChannelAnswer; evChannelHangup; evBackgroundJob].

Definition hdrUniqueID := "Unique-ID".
Definition hdrHangupCause := "Hangup-Cause".

Definition evCallRinging := "call.ringing".
Definition evCallConnected := "call.connected".
Definition evCallEnded := "call.ended".
Definition evCallFailed := "call.failed".

(** ** voice.go: configuration *)

(** [Config] but for the logger. *)
Record Config := MkConfig {
  Addr : string;
  Password : string;
  Ingest : option (string -> string -> string -> env -> st -> option error * st);
  Signer : option (string -> string);
  TransferDialplan : string;
  TransferContext : string;
  DialTimeout : Z;
  HandshakeTimeout : Z;
  CommandTimeout : Z;
  IdleTimeout : Z;
  BackoffBase : Z;
  BackoffMax : Z;
}.

(** The signer an adapter without one gets. *)
Definition digest_signer (body : string) : string := "sha256:" +:+ hex_encode (Sum256 (str_bytes body)).

(** [New]: the configuration the adapter keeps. *)
Definition New (cfg : Config) : Config + Error :=
  if is_empty (trim_space (Addr cfg)) then
    inr (Invalid "freeswitch.addr_required" "FreeSWITCH event socket address is required")
  else match Ingest cfg with
  | None => inr (Invalid "freeswitch.ingest_required" "webhook delivery function (Ingest) is required")
  | Some _ =>
      inl (MkConfig (Addr cfg) (Password cfg) (Ingest cfg) (Some (default digest_signer (Signer cfg)))
             (or_default (TransferDialplan cfg) defaultTransferDialplan)
             (or_default (TransferContext cfg) defaultTransferContext)
             (DialTimeout cfg) (HandshakeTimeout cfg) (CommandTimeout cfg) (IdleTimeout cfg) (BackoffBase cfg)
             (BackoffMax cfg))
  end.

(** The session layer [New] starts. *)
Definition client_config (cfg : Config) : clientConfig :=
  effective (MkClientConfig (Addr cfg) (Password cfg) subscribedEvents (DialTimeout cfg) (HandshakeTimeout cfg)
               (CommandTimeout cfg) (IdleTimeout cfg) (BackoffBase cfg) (BackoffMax cfg) 0).

(** ** events.go: the leg registry *)

Record leg := MkLeg {
  tenantID : string;
  jobUUID : string;
}.

Record legRegistry := MkRegistry {
  legs : gmap string leg;
  jobs : gmap string string;
}.

Definition newLegRegistry : legRegistry := MkRegistry ∅ ∅.

Definition trackLeg (id tenant : string) (r : legRegistry) : legRegistry :=
  MkRegistry (<[id := MkLeg tenant ""]> (legs r)) (jobs r).

Definition trackJob (job id : string) (r : legRegistry) : legRegistry :=
  MkRegistry (alter (fun l => MkLeg (tenantID l) job) id (legs r)) (<[job := id]> (jobs r)).

Definition legOf (id : string) (r : legRegistry) : option leg := legs r !! id.

Definition resolveJob (job : string) (r : legRegistry) : option string * legRegistry :=
  match jobs r !! job with
  | Some id => (Some id, MkRegistry (legs r) (delete job (jobs r)))
  | None => (None, r)
  end.

Definition endLeg (id : string) (r : legRegistry) : option string * legRegistry :=
  match legs r !! id with
  | None => (None, r)
  | Some l =>
      (Some (tenantID l),
       MkRegistry (delete id (legs r)) (if is_empty (jobUUID l) then jobs r else delete (jobUUID l) (jobs r)))
  end.

Definition legTenant (id : string) (r : legRegistry) : option string := option_map tenantID (legOf id r).

(** ** events.go: events *)

(** A provider event to deliver: event, interaction, tenant, detail. *)
Definition delivery : Type := string * string * string * string.

(** The rest of a payload that starts with [+OK]. *)
Definition splitOK (payload : string) : option string :=
  if has_prefix payload "+OK" then Some (trim_space (trim_prefix payload "+OK")) else None.

(** The dial a finished job is about: by its uuid, or by the payload. *)
Definition job_leg (job payload : string) (r : legRegistry) : option string * legRegistry :=
  match resolveJob job r with
  | (Some id, r) => (Some id, r)
  | (None, r) =>
      (match splitOK payload with
       | Some res => match legOf res r with Some _ => Some res | None => None end
       | None => None
       end, r)
  end.

Definition onBackgroundJob (job payload : string) (r : legRegistry) : option delivery * legRegistry :=
  if is_empty job then (None, r)
  else
  match job_leg job payload r with
  | (None, r) => (None, r)
  | (Some id, r) =>
      match legTenant id r with
      | None => (None, r)
      | Some tenant =>
          if has_prefix payload "+OK" then (Some (evCallRinging, id, tenant, ""), r)
          else if has_prefix payload "-ERR" then
            (Some (evCallFailed, id, tenant, trim_space (trim_prefix payload "-ERR")), snd (endLeg id r))
          else (None, r)
      end
  end.

Definition onChannelAnswer (id : string) (r : legRegistry) : option delivery * legRegistry :=
  (match legTenant id r with Some tenant => Some (evCallConnected, id, tenant, "") | None => None end, r).

Definition onChannelHangup (id cause : string) (r : legRegistry) : option delivery * legRegistry :=
  match endLeg id r with
  | (None, r) => (None, r)
  | (Some tenant, r) => (Some (evCallEnded, id, tenant, if is_empty (trim_space cause) then "UNKNOWN" else cause), r)
  end.

Definition handleEvent (ev : Event) (r : legRegistry) : option delivery * legRegistry :=
  let field := EventField (ev_fields ev) in
  if String.eqb (ev_name ev) evBackgroundJob then onBackgroundJob (field hdrJobUUID) (ev_payload ev) r
  else if String.eqb (ev_name ev) evChannelAnswer then onChannelAnswer (field hdrUniqueID) r
  else if String.eqb (ev_name ev) evChannelHangup then onChannelHangup (field hdrUniqueID) (field hdrHangupCause) r
  else (None, r).

(** [emit]: what goes wrong is logged. *)
Definition emit `{EventJSON} (cfg : Config) (d : delivery) (e : env) (s : st) : st :=
  let '(event, id, tenant, detail) := d in
  let '(wire, s) := EncodeEvent (MkProviderEvent event id tenant "" detail) e s in
  match wire, Signer cfg, Ingest cfg with
  | inl body, Some sign, Some ingest => (ingest providerName body (sign body) e s).2
  | _, _, _ => s
  end.

(** ** voice.go: helpers *)

(** The text after the first occurrence of [p]. *)
Fixpoint after_first (s p : string) : option string :=
  if has_prefix s p then Some (sdrop (String.length p) s)
  else match s with EmptyString => None | String _ s => after_first s p end.

(** [strings.Contains] *)
Definition contains (s p : string) : bool := match after_first s p with Some _ => true | None => false end.

(** The bytes up to the first white space. *)
Fixpoint word (fuel : nat) (l : list ascii) : list ascii :=
  match fuel, l with
  | S n, _ :: _ =>
      match lead_space l with
      | O => take (rune_size l) l ++ word n (drop (rune_size l) l)
      | S _ => []
      end
  | _, _ => []
  end.

(** The first field of a text, as [strings.Fields] splits it. *)
Definition first_field (s : string) : string :=
  let l := list_ascii_of_string (trim_space s) in string_of_list_ascii (word (length l) l).

Definition jobUUIDFromReply (replyText : string) : string :=
  match after_first replyText "Job-UUID:" with
  | None => ""
  | Some rest => first_field rest
  end.

Definition blanks : list ascii := [" "%char; "009"%char; CR; LF].

Definition sanitizeDialString (field emptyCode : string) (forbidden : list ascii) (s : string) : string + Error :=
  let s := trim_space s in
  if is_empty s then inr (Invalid emptyCode (field +:+ " is required"))
  else if contains_any s (blanks ++ forbidden) then
    inr (Invalid "freeswitch.dial_string_invalid" (field +:+ " contains characters that are illegal in a dial string"))
  else inl s.

Definition errUnknownLeg : error :=
  AppErr (NotFound "freeswitch.unknown_leg" "no provider leg is tracked for this reference").

Definition wrapCommandErr (err : cerror) (cmd : string) : error :=
  let cause := OtherErr (ce_text err) None in
  AppErr (if ce_auth err
          then Wrap cause KindUnauth "freeswitch.auth_rejected"
                 "FreeSWITCH event socket rejected the platform's credentials"
          else Wrap cause KindInternal "freeswitch.command_failed" ("FreeSWITCH command " +:+ cmd +:+ " failed")).

Definition replyErr `{Unicode} (result cmd ref : string) (r : legRegistry) : error * legRegistry :=
  if contains (ToLower result) "no such channel" then
    (AppErr (NotFound "freeswitch.leg_not_found" "FreeSWITCH reports no such channel for this leg"), snd (endLeg ref r))
  else (AppErr (Internal "freeswitch.command_rejected" ("FreeSWITCH rejected " +:+ cmd +:+ ": " +:+ result)), r).

(** ** voice.go: the voice port *)

Section Commands.
Context `{Unicode} `{EventJSON}.
Variable cfg : Config.

Definition originate_line (id to from : string) : string :=
  "bgapi originate {origination_uuid=" +:+ id +:+ "}" +:+ to +:+ " &bridge(" +:+ from +:+ ")".

(** [PlaceCall] up to the command: the leg tracked and the line. *)
Definition place_begin (uuid_ok : string -> bool) (cmd : CallCommand) (r : legRegistry)
  : (string * legRegistry) + Error :=
  let tenant := dict_str (cc_ProviderOptions cmd) "tenant_id" in
  let id := cc_InteractionID cmd in
  if is_empty tenant then inr (Invalid "freeswitch.tenant_required" "tenant_id provider option is required")
  else if is_empty id then inr (Invalid "freeswitch.interaction_id_required" "interaction id is required")
  else if negb (uuid_ok id) then
    inr (Invalid "freeswitch.interaction_id_invalid"
           "interaction id must be a UUID: FreeSWITCH carries it as the origination_uuid")
  else match sanitizeDialString "destination" "freeswitch.destination_required" [" "; "&"; "("]%char (cc_To cmd) with
  | inr err => inr err
  | inl to =>
      match sanitizeDialString "origin" "freeswitch.origin_required" [" "; "("; ")"; ","]%char (cc_From cmd) with
      | inr err => inr err
      | inl from => inl (originate_line id to from, trackLeg id tenant r)
      end
  end.

(** [PlaceCall] from the answer on. *)
Definition place_finish (id : string) (answer : Frame + cerror) (r : legRegistry) : option error * legRegistry :=
  match answer with
  | inr err => (Some (wrapCommandErr err cmdOriginate), snd (endLeg id r))
  | inl reply =>
      if negb (has_prefix (Result reply) "+OK") then
        (Some (AppErr (Internal "freeswitch.originate_rejected" ("FreeSWITCH rejected the dial: " +:+ Result reply))),
         snd (endLeg id r))
      else
      let job := Header (headers reply) hdrJobUUID in
      let job := if is_empty job then jobUUIDFromReply (ReplyText reply) else job in
      if is_empty job then
        (Some (AppErr (Internal "freeswitch.job_uuid_missing"
                 "bgapi originate reply carried no Job-UUID: the dial cannot be correlated")), snd (endLeg id r))
      else (None, trackJob job id r)
  end.

(** A command on a leg from the answer on. *)
Definition command_finish (cmd ref : string) (answer : Frame + cerror) (r : legRegistry)
  : option error * legRegistry :=
  match answer with
  | inr err => (Some (wrapCommandErr err cmd), r)
  | inl reply =>
      if has_prefix (Result reply) "+OK" then (None, r)
      else let '(err, r) := replyErr (Result reply) cmd ref r in (Some err, r)
  end.

(** [Transfer] from the answer on. *)
Definition transfer_finish (ref dest : string) (answer : Frame + cerror) (r : legRegistry)
  : option error * option delivery * legRegistry :=
  match command_finish cmdUUIDTransfer ref answer r with
  | (Some err, r) => (Some err, None, r)
  | (None, r) =>
      match legTenant ref r with
      | None => (Some errUnknownLeg, None, r)
      | Some tenant => (None, Some (evCallRinging, ref, tenant, "transfer:" +:+ dest), r)
      end
  end.

Definition kill_line (ref : string) : string := "api " +:+ cmdUUIDKill +:+ " " +:+ ref.
Definition hold_line (onOff ref : string) : string := "api " +:+ cmdUUIDHold +:+ " " +:+ onOff +:+ " " +:+ ref.
Definition transfer_line (ref dest : string) : string :=
  "api " +:+ cmdUUIDTransfer +:+ " " +:+ ref +:+ " " +:+ TransferDialplan cfg +:+ " " +:+ TransferContext cfg
    +:+ " " +:+ dest.

Variable execute : string -> legRegistry -> (Frame + cerror) * legRegistry.

Definition PlaceCall (cmd : CallCommand) : port legRegistry := fun e w =>
  match place_begin (uuid_valid e) cmd w.1 with
  | inr err => (Some (AppErr err), w)
  | inl (line, r) =>
      let '(answer, r) := execute line r in
      let '(err, r) := place_finish (cc_InteractionID cmd) answer r in
      (err, (r, w.2))
  end.

(** A command that reads the answer and no more. *)
Definition simple_command (cmd ref line : string) : port legRegistry := fun e w =>
  match legOf ref w.1 with
  | None => (Some errUnknownLeg, w)
  | Some _ =>
      let '(answer, r) := execute line w.1 in
      let '(err, r) := command_finish cmd ref answer r in
      (err, (r, w.2))
  end.

Definition Hangup (ref : string) : port legRegistry := simple_command cmdUUIDKill ref (kill_line ref).

Definition hold (ref onOff : string) : port legRegistry := simple_command cmdUUIDHold ref (hold_line onOff ref).
Definition Hold (ref : string) : port legRegistry := hold ref "on".
Definition Resume (ref : string) : port legRegistry := hold ref "off".

Definition Transfer (ref destination : string) : port legRegistry := fun e w =>
  match legOf ref w.1 with
  | None => (Some errUnknownLeg, w)
  | Some _ =>
      match sanitizeDialString "destination" "freeswitch.destination_required" [] destination with
      | inr err => (Some (AppErr err), w)
      | inl dest =>
          let '(answer, r) := execute (transfer_line ref dest) w.1 in
          let '(err, d, r) := transfer_finish ref dest answer r in
          (err, (r, match d with Some d => emit cfg d e w.2 | None => w.2 end))
      end
  end.

Definition freeswitch_voice : VoiceProvider legRegistry := {|
  vp_PlaceCall := PlaceCall;
  vp_Hangup := Hangup;
  vp_Transfer := Transfer;
  vp_Hold := Hold;
  vp_Resume := Resume;
|}.

End Commands.

(** ** The adapter as steps *)

Section Steps.
Context `{Unicode}.
Variable uuid_ok : string -> bool.

(** Where the event handler stands, on the reader's goroutine: a finished job
    is looked up by its uuid, by its payload, and its leg's tenant read; a
    failed dial ends its leg; an answer reads the tenant, a hangup ends the
    leg; the event is handed over. *)
Inductive Handler :=
| Resolving (job payload : string)
| Looking (id payload : string)
| Found (id payload : string)
| Failing (id tenant cause : string)
| Answering (id : string)
| HangingUp (id cause : string)
| Emitting (d : delivery).

(** The handler an event starts. *)
Definition handler_of (ev : Event) : option Handler :=
  let field := EventField (ev_fields ev) in
  if String.eqb (ev_name ev) evBackgroundJob then
    if is_empty (field hdrJobUUID) then None else Some (Resolving (field hdrJobUUID) (ev_payload ev))
  else if String.eqb (ev_name ev) evChannelAnswer then Some (Answering (field hdrUniqueID))
  else if String.eqb (ev_name ev) evChannelHangup then Some (HangingUp (field hdrUniqueID) (field hdrHangupCause))
  else None.

(** One critical section of a handler: where it stands after it. *)
Definition handler_step (h : Handler) (r : legRegistry) : option Handler * legRegistry :=
  match h with
  | Resolving job payload =>
      match resolveJob job r with
      | (Some id, r) => (Some (Found id payload), r)
      | (None, r) => (option_map (fun res => Looking res payload) (splitOK payload), r)
      end
  | Looking id payload => (option_map (fun _ => Found id payload) (legOf id r), r)
  | Found id payload =>
      (match legTenant id r with
       | None => None
       | Some tenant =>
           if has_prefix payload "+OK" then Some (Emitting (evCallRinging, id, tenant, ""))
           else if has_prefix payload "-ERR" then Some (Failing id tenant (trim_space (trim_prefix payload "-ERR")))
           else None
       end, r)
  | Failing id tenant cause => (Some (Emitting (evCallFailed, id, tenant, cause)), snd (endLeg id r))
  | Answering id => (option_map (fun tenant => Emitting (evCallConnected, id, tenant, "")) (legTenant id r), r)
  | HangingUp id cause =>
      let '(tenant, r) := endLeg id r in
      (option_map (fun tenant => Emitting (evCallEnded, id, tenant, if is_empty (trim_space cause) then "UNKNOWN" else cause))
         tenant, r)
  | Emitting _ => (None, r)
  end.

(** What happens: a call is placed and its command answered; a hangup or hold
    is answered; a transfer is answered, and the [n]-th ringing whose leg was
    found is handed over; an event comes, and its handler goes on. *)
Inductive Step :=
| Placed (cmd : CallCommand)
| PlaceAnswered (id : string) (answer : Frame + cerror)
| Answered (cmd ref : string) (answer : Frame + cerror)
| TransferAnswered (ref dest : string) (answer : Frame + cerror)
| TransferEmits (n : nat)
| EventSeen (ev : Event)
| EventMoves.

(** The registry, the commands that tracked a leg, the handler that runs, the
    ringings of transfers past the registry, and what was handed over. *)
Record System := MkSystem {
  sy_legs : legRegistry;
  sy_placed : list CallCommand;
  sy_handler : option Handler;
  sy_ringing : list delivery;
  sy_delivered : list delivery;
}.

Definition newSystem : System := MkSystem newLegRegistry [] None [] [].

Definition with_legs (r : legRegistry) (y : System) : System :=
  MkSystem r (sy_placed y) (sy_handler y) (sy_ringing y) (sy_delivered y).

(** What an emitting handler hands over. *)
Definition emits (h : Handler) : list delivery := match h with Emitting d => [d] | _ => [] end.

Definition step (ev : Step) (y : System) : System :=
  match ev with
  | Placed cmd =>
      match place_begin uuid_ok cmd (sy_legs y) with
      | inl (_, r) => MkSystem r (sy_placed y ++ [cmd]) (sy_handler y) (sy_ringing y) (sy_delivered y)
      | inr _ => y
      end
  | PlaceAnswered id answer => with_legs (snd (place_finish id answer (sy_legs y))) y
  | Answered cmd ref answer => with_legs (snd (command_finish cmd ref answer (sy_legs y))) y
  | TransferAnswered ref dest answer =>
      let '(_, d, r) := transfer_finish ref dest answer (sy_legs y) in
      MkSystem r (sy_placed y) (sy_handler y) (sy_ringing y ++ option_list d) (sy_delivered y)
  | TransferEmits n =>
      match sy_ringing y !! n with
      | Some d => MkSystem (sy_legs y) (sy_placed y) (sy_handler y) (delete n (sy_ringing y)) (sy_delivered y ++ [d])
      | None => y
      end
  | EventSeen ev =>
      match sy_handler y with
      | None => MkSystem (sy_legs y) (sy_placed y) (handler_of ev) (sy_ringing y) (sy_delivered y)
      | Some _ => y
      end
  | EventMoves =>
      match sy_handler y with
      | None => y
      | Some h =>
          let '(h', r) := handler_step h (sy_legs y) in
          MkSystem r (sy_placed y) h' (sy_ringing y) (sy_delivered y ++ emits h)
      end
  end.

Definition run (evs : list Step) (y : System) : System := fold_left (fun y ev => step ev y) evs y.

(** An event handled while nothing else happens. *)
Definition handle_whole (ev : Event) : list Step := EventSeen ev :: repeat EventMoves 5.

(** Uninterrupted, the handler's sections are [handleEvent] and its hand-over. *)
Lemma handler_uninterrupted ev y :
  sy_handler y = None ->
  run (handle_whole ev) y
  = let '(d, r) := handleEvent ev (sy_legs y) in
    MkSystem r (sy_placed y) None (sy_ringing y) (sy_delivered y ++ option_list d).
Proof.
  destruct y as [r placed h ringing delivered]. intros E. cbn in E. subst h.
  change (run (handle_whole ev) _)
    with (run (repeat EventMoves 5) (MkSystem r placed (handler_of ev) ringing delivered)).
  unfold run, handleEvent, handler_of, onBackgroundJob, onChannelAnswer, onChannelHangup, job_leg.
  cbn [sy_legs sy_placed sy_ringing sy_delivered].
  destruct (String.eqb (ev_name ev) evBackgroundJob).
  - destruct (is_empty _); [by cbn; rewrite app_nil_r|]. cbn. unfold resolveJob.
    destruct (jobs r !! _) as [id|]; cbn.
    + unfold legTenant, legOf. cbn. destruct (legs r !! id) as [l|]; cbn; [|by rewrite ?app_nil_r].
      destruct (has_prefix _ "+OK"); cbn; [by rewrite ?app_nil_r|].
      destruct (has_prefix _ "-ERR"); cbn; by rewrite ?app_nil_r.
    + destruct (splitOK (ev_payload ev)) as [res|]; cbn; [|by rewrite ?app_nil_r].
      unfold legTenant, legOf. destruct (legs r !! res) as [l|] eqn:El; cbn; [|by rewrite ?app_nil_r].
      unfold legTenant, legOf. rewrite El. cbn.
      destruct (has_prefix _ "+OK"); cbn; [by rewrite ?app_nil_r|].
      destruct (has_prefix _ "-ERR"); cbn; by rewrite ?app_nil_r.
  - destruct (String.eqb _ evChannelAnswer); [|destruct (String.eqb _ evChannelHangup)]; cbn.
    + destruct (legTenant _ r); cbn; by rewrite ?app_nil_r.
    + destruct (endLeg _ r) as [[t|] r']; cbn; by rewrite ?app_nil_r.
    + by rewrite app_nil_r.
Qed.

(** ** Events belong to the calls placed *)

(** A command that placed a call. *)
Definition stands_for (placed : list CallCommand) (id tenant : string) : Prop :=
  exists cmd, cmd ∈ placed /\ cc_InteractionID cmd = id /\ dict_str (cc_ProviderOptions cmd) "tenant_id" = tenant
    /\ tenant <> "" /\ uuid_ok id = true.

(** The legs of [r'] are legs of [r], of the same tenants. *)
Definition keeps_legs (r r' : legRegistry) : Prop :=
  forall id l', legs r' !! id = Some l' -> exists l, legs r !! id = Some l /\ tenantID l = tenantID l'.

Lemma keeps_refl r : keeps_legs r r.
Proof. intros id l Hl. by exists l. Qed.

Lemma keeps_trans r1 r2 r3 : keeps_legs r1 r2 -> keeps_legs r2 r3 -> keeps_legs r1 r3.
Proof. intros H1 H2 id l (l2 & Hl2 & E2)%H2. destruct (H1 _ _ Hl2) as (l1 & Hl1 & E1). exists l1. split; congruence. Qed.

Lemma keeps_endLeg id r : keeps_legs r (snd (endLeg id r)).
Proof.
  unfold endLeg. destruct (legs r !! id); [|apply keeps_refl]. intros id' l' Hl. cbn in Hl.
  apply lookup_delete_Some in Hl as [_ Hl]. by exists l'.
Qed.

Lemma keeps_trackJob job id r : keeps_legs r (trackJob job id r).
Proof.
  intros id' l' Hl. cbn in Hl. destruct (decide (id = id')) as [<-|Hne].
  - rewrite lookup_alter_eq in Hl. destruct (legs r !! id) as [l|]; [|done]. injection Hl as <-. by exists l.
  - rewrite lookup_alter_ne in Hl by done. by exists l'.
Qed.

Lemma endLeg_gone id r : legs (snd (endLeg id r)) !! id = None.
Proof. unfold endLeg. destruct (legs r !! id) eqn:E; [apply lookup_delete_eq|done]. Qed.

Lemma endLeg_tenant id r tenant r' :
  endLeg id r = (Some tenant, r') -> exists l, legs r !! id = Some l /\ tenantID l = tenant.
Proof. unfold endLeg. destruct (legs r !! id) as [l|]; [|done]. intros [= <- _]. by exists l. Qed.

Lemma legTenant_leg id r tenant : legTenant id r = Some tenant -> exists l, legs r !! id = Some l /\ tenantID l = tenant.
Proof. unfold legTenant, legOf. destruct (legs r !! id) as [l|]; [|done]. intros [= <-]. by exists l. Qed.

Lemma job_leg_legs job payload r : legs (snd (job_leg job payload r)) = legs r.
Proof. unfold job_leg, resolveJob. by destruct (jobs r !! job). Qed.

#[local] Hint Resolve keeps_refl keeps_endLeg keeps_trackJob legTenant_leg : core.

Definition vocabulary : list string := [evCallRinging; evCallConnected; evCallEnded; evCallFailed].
Definition terminal (event : string) : Prop := event = evCallEnded \/ event = evCallFailed.

#[local] Instance terminal_dec event : Decision (terminal event).
Proof. unfold terminal. apply _. Defined.

(** The delivery a handler is bound to make. *)
Definition owed (h : Handler) : list delivery :=
  match h with
  | Failing id tenant cause => [(evCallFailed, id, tenant, cause)]
  | Emitting d => [d]
  | _ => []
  end.

(** What is decided and not yet handed over, and everything decided so far. *)
Definition due (y : System) : list delivery := match sy_handler y with Some h => owed h | None => [] end ++ sy_ringing y.
Definition said (y : System) : list delivery := due y ++ sy_delivered y.

(** An event of the vocabulary for a leg of [r]. *)
Definition of_leg (r : legRegistry) (d : delivery) : Prop :=
  d.1.1.1 ∈ vocabulary /\ exists l, legs r !! d.1.1.2 = Some l /\ tenantID l = d.1.2.

(** The delivery the handler's next section decides, when there is one. *)
Definition news (h : Handler) (r : legRegistry) : list delivery :=
  match h with
  | Failing _ _ _ | Emitting _ => []
  | _ => match fst (handler_step h r) with Some h' => owed h' | None => [] end
  end.

(** A section of the handler keeps what was decided, and decides for legs it
    finds. *)
Lemma handler_step_ok h r :
  keeps_legs r (snd (handler_step h r))
  /\ Forall (of_leg r) (news h r)
  /\ match fst (handler_step h r) with Some h' => owed h' | None => [] end ++ emits h = news h r ++ owed h.
Proof.
  destruct h; cbn.
  - unfold resolveJob. destruct (jobs r !! job) as [id|] eqn:E; cbn; [by split_and!; [intros i l Hl; exists l|..]|].
    by destruct (splitOK payload).
  - by destruct (legOf id r).
  - destruct (legTenant id r) as [tenant|] eqn:E; cbn; [|done]. apply legTenant_leg in E.
    destruct (has_prefix _ "+OK"); [|destruct (has_prefix _ "-ERR"); [|done]].
    all: split_and!; [done| |done]; apply Forall_singleton; (split; [unfold vocabulary; cbn; set_solver|exact E]).
  - split_and!; [apply keeps_endLeg|done..].
  - destruct (legTenant id r) as [tenant|] eqn:E; cbn; [|done]. apply legTenant_leg in E.
    split_and!; [done| |done]. apply Forall_singleton; (split; [unfold vocabulary; cbn; set_solver|exact E]).
  - pose proof (keeps_endLeg id r) as Hk. destruct (endLeg id r) as [[tenant|] r'] eqn:E; cbn; [|done].
    apply endLeg_tenant in E. split_and!; [done| |done]. apply Forall_singleton; (split; [unfold vocabulary; cbn; set_solver|exact E]).
  - done.
Qed.

Lemma command_keeps cmd ref answer r : keeps_legs r (snd (command_finish cmd ref answer r)).
Proof.
  unfold command_finish, replyErr. destruct answer as [reply|err]; [|done]. destruct (has_prefix _ _); [done|].
  destruct (contains _ _); [apply keeps_endLeg|apply keeps_refl].
Qed.

Lemma place_keeps id answer r : keeps_legs r (snd (place_finish id answer r)).
Proof.
  unfold place_finish. destruct answer as [reply|err]; [|apply keeps_endLeg].
  destruct (has_prefix _ _); [|apply keeps_endLeg].
  cbn [negb]. destruct (is_empty (Header _ _)), (is_empty _); first [apply keeps_endLeg|apply keeps_trackJob].
Qed.

Lemma fs_place_begin_ok cmd r line r' :
  place_begin uuid_ok cmd r = inl (line, r') ->
  let tenant := dict_str (cc_ProviderOptions cmd) "tenant_id" in
  tenant <> "" /\ uuid_ok (cc_InteractionID cmd) = true /\ r' = trackLeg (cc_InteractionID cmd) tenant r
  /\ exists to from, line = originate_line (cc_InteractionID cmd) to from
       /\ contains_any to (blanks ++ [" "; "&"; "("]%char) = false
       /\ contains_any from (blanks ++ [" "; "("; ")"; ","]%char) = false.
Proof.
  unfold place_begin. destruct (is_empty (dict_str _ _)) eqn:Et; [done|].
  destruct (is_empty (cc_InteractionID cmd)); [done|].
  destruct (uuid_ok _) eqn:Eu; cbn [negb]; [|discriminate]. unfold sanitizeDialString.
  destruct (is_empty (trim_space (cc_To cmd))); [done|]. destruct (contains_any (trim_space (cc_To cmd)) _) eqn:E1; [done|].
  destruct (is_empty (trim_space (cc_From cmd))); [done|].
  destruct (contains_any (trim_space (cc_From cmd)) _) eqn:E2; [done|]. intros [= <- <-].
  split_and!; [by apply is_empty_false|done|done|]. by exists (trim_space (cc_To cmd)), (trim_space (cc_From cmd)).
Qed.

(** The ringing a transfer's answer decides is of a leg it found. *)
Lemma transfer_finish_ok ref dest answer r :
  let '(_, d, r') := transfer_finish ref dest answer r in
  keeps_legs r r'
  /\ forall x, d = Some x -> of_leg r x /\ ~ terminal x.1.1.1.
Proof.
  unfold transfer_finish. pose proof (command_keeps cmdUUIDTransfer ref answer r) as Hk.
  destruct (command_finish cmdUUIDTransfer ref answer r) as [[err|] r']; [done|]. cbn [snd] in Hk.
  destruct (legTenant ref r') as [tenant|] eqn:El; [|done]. split; [done|]. intros x [= <-].
  destruct (legTenant_leg _ _ _ El) as (l' & Hl' & <-). destruct (Hk _ _ Hl') as (l & Hl & Et).
  split; [|by intros [|]]. split; [unfold vocabulary; cbn; set_solver|by exists l].
Qed.

(** What a step decides. *)
Definition decided (ev : Step) (y : System) : list delivery :=
  match ev with
  | TransferAnswered ref dest answer => option_list (transfer_finish ref dest answer (sy_legs y)).1.2
  | EventMoves => match sy_handler y with Some h => news h (sy_legs y) | None => [] end
  | _ => []
  end.

Lemma handler_of_owes ev : match handler_of ev with Some h => owed h | None => [] end = [].
Proof. unfold handler_of. by repeat case_match; simplify_eq. Qed.

(** A step hands over what was due, and adds what it decides for legs it
    finds. *)
Lemma step_said ev y : said (step ev y) ≡ₚ decided ev y ++ said y /\ Forall (of_leg (sy_legs y)) (decided ev y).
Proof.
  unfold said, due. destruct ev as [cmd|id answer|cmd ref answer|ref dest answer|n|ev|]; cbn.
  - by destruct (place_begin uuid_ok cmd (sy_legs y)) as [[line r]|].
  - done.
  - done.
  - pose proof (transfer_finish_ok ref dest answer (sy_legs y)) as Ht.
    destruct (transfer_finish ref dest answer (sy_legs y)) as [[err d] r]; cbn. destruct Ht as [_ Ht]. split.
    + solve_Permutation.
    + destruct d as [d|]; cbn; [|done]. constructor; [by apply (Ht d)|done].
  - split; [|done]. destruct (sy_ringing y !! n) as [d|] eqn:E; [|done]. cbn.
    set (o := match sy_handler y with Some h => owed h | None => [] end).
    trans ((o ++ d :: delete n (sy_ringing y)) ++ sy_delivered y); [solve_Permutation|].
    by rewrite <- (delete_Permutation _ _ _ E).
  - split; [|done]. destruct (sy_handler y) as [h|] eqn:E; [by rewrite E|]. cbn. by rewrite handler_of_owes.
  - destruct (sy_handler y) as [h|] eqn:E; [|by rewrite E].
    destruct (handler_step_ok h (sy_legs y)) as (_ & Hn & Ho).
    destruct (handler_step h (sy_legs y)) as [h' r]; cbn in Ho |- *. split; [|done].
    trans (((match h' with Some h' => owed h' | None => [] end) ++ emits h) ++ sy_ringing y ++ sy_delivered y);
      [solve_Permutation|]. rewrite Ho. solve_Permutation.
Qed.

(** The legs after a step were there, or it placed them. *)
Lemma step_legs ev y id l' :
  legs (sy_legs (step ev y)) !! id = Some l' ->
  (exists l, legs (sy_legs y) !! id = Some l /\ tenantID l = tenantID l')
  \/ exists cmd, ev = Placed cmd /\ cc_InteractionID cmd = id /\ sy_placed (step ev y) = sy_placed y ++ [cmd]
       /\ dict_str (cc_ProviderOptions cmd) "tenant_id" = tenantID l' /\ tenantID l' <> "" /\ uuid_ok id = true.
Proof.
  destruct ev as [cmd|i answer|cmd ref answer|ref dest answer|n|ev|]; cbn; intros Hl.
  - destruct (place_begin uuid_ok cmd (sy_legs y)) as [[line r]|] eqn:E; [|left; by exists l'].
    destruct (fs_place_begin_ok _ _ _ _ E) as (Ht & Hu & -> & _). cbn in Hl.
    apply lookup_insert_Some in Hl as [[<- <-]|[Hne Hl]]; [|left; by exists l']. right. by exists cmd.
  - left. by apply (place_keeps i answer).
  - left. by apply (command_keeps cmd ref answer).
  - left. pose proof (transfer_finish_ok ref dest answer (sy_legs y)) as Ht.
    destruct (transfer_finish ref dest answer (sy_legs y)) as [[err d] r]. by apply (proj1 Ht).
  - left. destruct (sy_ringing y !! n); by exists l'.
  - left. destruct (sy_handler y); by exists l'.
  - left. destruct (sy_handler y) as [h|]; [|by exists l'].
    pose proof (proj1 (handler_step_ok h (sy_legs y))) as Hk. destruct (handler_step h (sy_legs y)) as [h' r]. by apply Hk.
Qed.

Lemma step_placed ev y : exists new, sy_placed (step ev y) = sy_placed y ++ new.
Proof.
  destruct ev; cbn; repeat case_match; cbn; first [by exists []; rewrite app_nil_r|by eexists].
Qed.

Lemma step_delivered ev y : exists new, sy_delivered (step ev y) = sy_delivered y ++ new.
Proof.
  destruct ev; cbn; repeat case_match; cbn; first [by exists []; rewrite app_nil_r|by eexists].
Qed.

Lemma fs_run_delivered evs y : exists new, sy_delivered (run evs y) = sy_delivered y ++ new.
Proof.
  revert y. induction evs as [|ev evs IH]; intros y; [exists []; by rewrite app_nil_r|].
  destruct (step_delivered ev y) as [n1 E1], (IH (step ev y)) as [n2 E2]. exists (n1 ++ n2).
  change (run (ev :: evs) y) with (run evs (step ev y)). by rewrite E2, E1, app_assoc.
Qed.

Record wf (y : System) : Prop := {
  wf_legs id l : legs (sy_legs y) !! id = Some l -> stands_for (sy_placed y) id (tenantID l);
  wf_said d : d ∈ said y -> d.1.1.1 ∈ vocabulary /\ stands_for (sy_placed y) d.1.1.2 d.1.2;
}.

Lemma stands_more placed placed' id tenant : placed ⊆ placed' -> stands_for placed id tenant -> stands_for placed' id tenant.
Proof. intros Hs (cmd & Hc & Hr). exists cmd. split; [by apply Hs|done]. Qed.

Lemma fs_wf_step ev y : wf y -> wf (step ev y).
Proof.
  intros [H1 H2]. destruct (step_said ev y) as [Hp Hd]. destruct (step_placed ev y) as [new En].
  assert (sy_placed y ⊆ sy_placed (step ev y)) as Hs by (rewrite En; set_solver).
  split.
  - intros id l' [(l & Hl & <-)|(cmd & _ & Hid & E & Ht & Hne & Hu)]%step_legs; [by apply (stands_more _ _ _ _ Hs), H1|].
    exists cmd. rewrite E. split_and!; [set_solver|done..].
  - intros d. rewrite Hp. intros [Hin|Hin]%elem_of_app.
    + rewrite Forall_forall in Hd. destruct (Hd _ Hin) as (Hv & l & Hl & <-). split; [done|].
      by apply (stands_more _ _ _ _ Hs), H1.
    + destruct (H2 _ Hin). split; [done|]. by apply (stands_more _ _ _ _ Hs).
Qed.

Lemma fs_wf_run evs y : wf y -> wf (run evs y).
Proof. revert y. induction evs as [|ev evs IH]; intros y Hy; [done|]. by apply IH, fs_wf_step. Qed.

Lemma fs_wf_new : wf newSystem.
Proof.
  split; cbn.
  - intros id l Hl. by rewrite lookup_empty in Hl.
  - intros d Hin. by apply not_elem_of_nil in Hin.
Qed.

(** ** After an end *)

Definition of_id (id : string) (ds : list delivery) : list delivery := filter (fun d => d.1.1.2 = id) ds.

Lemma of_id_app id ds ds' : of_id id (ds ++ ds') = of_id id ds ++ of_id id ds'.
Proof. apply filter_app. Qed.

#[local] Instance of_id_perm id : Proper (Permutation ==> Permutation) (of_id id).
Proof. intros ds ds' Hp. unfold of_id. by rewrite Hp. Qed.

(** An interaction without a leg: until it is placed again nothing is decided
    for it, and what was due is handed over once each. *)
Lemma fs_silent_run evs y id :
  legs (sy_legs y) !! id = None -> (forall cmd, Placed cmd ∈ evs -> cc_InteractionID cmd <> id) ->
  of_id id (said (run evs y)) ≡ₚ of_id id (said y).
Proof.
  revert y. induction evs as [|ev evs IH]; intros y Hy Hp; [done|].
  change (run (ev :: evs) y) with (run evs (step ev y)). rewrite IH.
  - destruct (step_said ev y) as [-> Hd].
    enough (of_id id (decided ev y) = []) as E by by rewrite of_id_app, E.
    unfold of_id. induction Hd as [|d ds (_ & l & Hl & _) _ IHd]; [done|]. rewrite filter_cons_False; [done|].
    intros <-. congruence.
  - destruct (legs (sy_legs (step ev y)) !! id) as [l'|] eqn:El; [|done].
    destruct (step_legs _ _ _ _ El) as [(l & Hl & _)|(cmd & -> & Hid & _)]; [congruence|].
    exfalso. apply (Hp cmd); [by left|done].
  - intros cmd Hc. apply Hp. by right.
Qed.

(** The end or the failure the handler's next section settles: the leg goes,
    and the event is due. *)
Definition ending (y : System) : option delivery :=
  match sy_handler y with
  | Some (HangingUp id cause) =>
      option_map (fun tenant => (evCallEnded, id, tenant, if is_empty (trim_space cause) then "UNKNOWN" else cause))
        (legTenant id (sy_legs y))
  | Some (Failing id tenant cause) => Some (evCallFailed, id, tenant, cause)
  | _ => None
  end.

Lemma ending_step y d :
  ending y = Some d ->
  let y' := step EventMoves y in
  legs (sy_legs y') !! d.1.1.2 = None /\ sy_delivered y' = sy_delivered y /\ due y' = d :: sy_ringing y.
Proof.
  unfold ending, due. cbn. destruct (sy_handler y) as [[]|]; cbn; try done.
  - intros [= <-]. cbn. split_and!; [apply endLeg_gone|by rewrite app_nil_r|done].
  - unfold legTenant, legOf, endLeg. destruct (legs (sy_legs y) !! id) as [l|]; cbn; [|done]. intros [= <-]. cbn.
    split_and!; [apply lookup_delete_eq|by rewrite app_nil_r|done].
Qed.

(** ** Ends are no more than calls *)

Definition ends_of (id : string) (ds : list delivery) : nat :=
  length (filter (fun d => d.1.1.2 = id /\ terminal d.1.1.1) ds).

#[local] Arguments ends_of : simpl never.

Definition calls_of (id : string) (placed : list CallCommand) : nat :=
  length (filter (fun cmd => cc_InteractionID cmd = id) placed).

#[local] Arguments calls_of : simpl never.

(** A leg whose end is not decided. *)
Definition open_legs (id : string) (y : System) : nat :=
  match sy_handler y with
  | Some (Failing i _ _) => if decide (i = id) then O else match legs (sy_legs y) !! id with Some _ => 1%nat | None => O end
  | _ => match legs (sy_legs y) !! id with Some _ => 1%nat | None => O end
  end.

Lemma open_le1 id y : (open_legs id y <= 1)%nat.
Proof. unfold open_legs. repeat case_match; lia. Qed.

Lemma ends_app id ds ds' : ends_of id (ds ++ ds') = (ends_of id ds + ends_of id ds')%nat.
Proof. unfold ends_of. by rewrite filter_app, length_app. Qed.

Lemma ends_perm id ds ds' : ds ≡ₚ ds' -> ends_of id ds = ends_of id ds'.
Proof. intros Hp. unfold ends_of. by rewrite Hp. Qed.

Lemma ends_one id event i tenant detail :
  ends_of id [(event, i, tenant, detail)] = if decide (i = id /\ terminal event) then 1%nat else O.
Proof. unfold ends_of. rewrite filter_cons. cbn. by destruct (decide _). Qed.

Lemma ends_nil id : ends_of id [] = O.
Proof. done. Qed.

Lemma calls_app id p p' : calls_of id (p ++ p') = (calls_of id p + calls_of id p')%nat.
Proof. unfold calls_of. by rewrite filter_app, length_app. Qed.

Lemma open_le id y y' :
  sy_handler y' = sy_handler y -> keeps_legs (sy_legs y) (sy_legs y') -> (open_legs id y' <= open_legs id y)%nat.
Proof.
  intros E Hk. unfold open_legs. rewrite E.
  assert ((match legs (sy_legs y') !! id with Some _ => 1 | None => O end
           <= match legs (sy_legs y) !! id with Some _ => 1 | None => O end)%nat).
  { destruct (legs (sy_legs y') !! id) as [l'|] eqn:El; [|lia]. destruct (Hk _ _ El) as (l & -> & _). lia. }
  destruct (sy_handler y) as [[]|]; try done. by destruct (decide _).
Qed.

(** A section of the handler settles an end by closing its leg. *)
Lemma handler_ends id h y :
  sy_handler y = Some h ->
  (ends_of id (news h (sy_legs y)) + open_legs id (step EventMoves y) <= open_legs id y)%nat.
Proof.
  intros E. unfold open_legs. cbn. rewrite E. destruct h as [job payload|i payload|i payload|i tenant cause|i|i cause|d]; cbn.
  - unfold resolveJob. destruct (jobs (sy_legs y) !! job); cbn; [rewrite ends_nil; lia|]. destruct (splitOK payload); cbn; rewrite ends_nil; lia.
  - destruct (legOf i (sy_legs y)); cbn; rewrite ends_nil; lia.
  - unfold legTenant, legOf. destruct (legs (sy_legs y) !! i) as [l|] eqn:El; cbn; [|rewrite ends_nil; lia].
    destruct (has_prefix payload "+OK"); cbn; [rewrite ends_one; destruct (decide _) as [[_ [|]]|]; [done..|lia]|].
    destruct (has_prefix payload "-ERR"); cbn; [|rewrite ends_nil; lia]. rewrite ends_one.
    destruct (decide (i = id)) as [->|]; [rewrite El|]; destruct (decide _); naive_solver lia.
  - unfold endLeg. destruct (decide (i = id)) as [->|].
    + destruct (legs (sy_legs y) !! id) eqn:El; cbn; [by rewrite lookup_delete_eq, ends_nil|by rewrite El, ends_nil].
    + destruct (legs (sy_legs y) !! i) eqn:El; cbn; [by rewrite lookup_delete_ne, ends_nil by done|rewrite ends_nil; lia].
  - destruct (legTenant i (sy_legs y)); cbn; [rewrite ends_one; destruct (decide _) as [[_ [|]]|]; [done..|lia]|rewrite ends_nil; lia].
  - unfold endLeg. destruct (legs (sy_legs y) !! i) as [l|] eqn:El; cbn; [|rewrite ends_nil; lia]. rewrite ends_one.
    destruct (decide (i = id)) as [->|].
    + rewrite El, lookup_delete_eq. destruct (decide _); lia.
    + rewrite lookup_delete_ne by done. destruct (decide _) as [[? _]|]; [done|lia].
  - rewrite ends_nil. lia.
Qed.

Lemma ends_step id ev y :
  (ends_of id (said y) + open_legs id y <= calls_of id (sy_placed y))%nat ->
  (ends_of id (said (step ev y)) + open_legs id (step ev y) <= calls_of id (sy_placed (step ev y)))%nat.
Proof.
  intros Hy. rewrite (ends_perm _ _ _ (proj1 (step_said ev y))), ends_app.
  destruct ev as [cmd|i answer|cmd ref answer|ref dest answer|n|ev|]; cbn [decided]; rewrite ?ends_nil.
  - cbn. destruct (place_begin uuid_ok cmd (sy_legs y)) as [[line r]|] eqn:E; [|done].
    destruct (fs_place_begin_ok _ _ _ _ E) as (_ & _ & -> & _). cbn [sy_placed]. rewrite calls_app.
    unfold calls_of at 2. rewrite filter_cons. destruct (decide (cc_InteractionID cmd = id)) as [Hid|Hid]; cbn.
    + pose proof (open_le1 id (MkSystem (trackLeg (cc_InteractionID cmd) (dict_str (cc_ProviderOptions cmd) "tenant_id")
        (sy_legs y)) (sy_placed y ++ [cmd]) (sy_handler y) (sy_ringing y) (sy_delivered y))). lia.
    + unfold open_legs in Hy |- *. cbn. rewrite lookup_insert_ne by done. lia.
  - pose proof (open_le id y (step (PlaceAnswered i answer) y) eq_refl (place_keeps i answer _)) as Ho.
    change (sy_placed (step _ y)) with (sy_placed y). lia.
  - pose proof (open_le id y (step (Answered cmd ref answer) y) eq_refl (command_keeps cmd ref answer _)) as Ho.
    change (sy_placed (step _ y)) with (sy_placed y). lia.
  - pose proof (transfer_finish_ok ref dest answer (sy_legs y)) as Ht. cbn.
    destruct (transfer_finish ref dest answer (sy_legs y)) as [[err d] r]; destruct Ht as [Hk Ht]. cbn.
    pose proof (open_le id y (MkSystem r (sy_placed y) (sy_handler y) (sy_ringing y ++ option_list d) (sy_delivered y))
                  eq_refl Hk) as Ho.
    generalize dependent (open_legs id (MkSystem r (sy_placed y) (sy_handler y) (sy_ringing y ++ option_list d)
      (sy_delivered y))). intros o Ho. destruct d as [[[[event i] tenant] detail]|]; cbn; [|rewrite ends_nil; lia]. rewrite ends_one.
    destruct (Ht _ eq_refl) as [_ Hn]. destruct (decide _) as [[_ Hc]|]; [by destruct (Hn Hc)|lia].
  - cbn. by destruct (sy_ringing y !! n).
  - cbn. unfold open_legs in Hy |- *. destruct (sy_handler y) as [h|] eqn:E; [by rewrite E|]. cbn.
    unfold handler_of. repeat case_match; cbn in *; simplify_eq; lia.
  - cbn [decided]. destruct (sy_handler y) as [h|] eqn:E; [|unfold step; by rewrite E].
    pose proof (handler_ends id h y E) as Hh.
    assert (sy_placed (step EventMoves y) = sy_placed y) as ->
      by (cbn; rewrite E; by destruct (handler_step h (sy_legs y))).
    lia.
Qed.

Lemma ends_run id evs y :
  (ends_of id (said y) + open_legs id y <= calls_of id (sy_placed y))%nat ->
  (ends_of id (said (run evs y)) + open_legs id (run evs y) <= calls_of id (sy_placed (run evs y)))%nat.
Proof. revert y. induction evs as [|ev evs IH]; intros y Hy; [done|]. by apply IH, ends_step. Qed.

(** C38. Over every interleaving of commands, answers, the critical sections
    of the event handler and hand-overs: what is delivered is an event of the
    vocabulary for the interaction and the tenant of a command that placed a
    call; an interaction is ended no more often than it was placed; and from
    the section that ends a call until it is placed again, all that is still
    delivered or due for it is that end, once, and the ringings of transfers
    that had already found the leg. A ringing may follow the end, then, and
    nothing else does. *)
Theorem fs_events_belong evs1 evs2 d :
  let y1 := run evs1 newSystem in
  let y := run evs2 (step EventMoves y1) in
  (forall event id tenant detail, (event, id, tenant, detail) ∈ sy_delivered y ->
     event ∈ vocabulary /\ stands_for (sy_placed y) id tenant)
  /\ (forall id, (ends_of id (sy_delivered y) <= calls_of id (sy_placed y))%nat)
  /\ (ending y1 = Some d -> (forall cmd, Placed cmd ∈ evs2 -> cc_InteractionID cmd <> d.1.1.2) ->
      exists ds, sy_delivered y = sy_delivered y1 ++ ds
        /\ of_id d.1.1.2 ds ++ of_id d.1.1.2 (due y) ≡ₚ d :: of_id d.1.1.2 (sy_ringing y1)).
Proof.
  intros y1 y. split_and!.
  - intros event id tenant detail Hin.
    assert (wf y) as Hw by by apply fs_wf_run, fs_wf_step, fs_wf_run, fs_wf_new.
    apply (wf_said y Hw (event, id, tenant, detail)). unfold said. set_solver.
  - intros id. pose proof (ends_run id evs2 _ (ends_step id EventMoves _ (ends_run id evs1 newSystem (le_n _)))) as Hb.
    fold y1 y in Hb. unfold said in Hb. rewrite ends_app in Hb. lia.
  - intros He Hp. destruct (ending_step _ _ He) as (Hl & Ed & Eu).
    destruct (fs_run_delivered evs2 (step EventMoves y1)) as [ds E]. rewrite Ed in E. exists ds. split; [done|].
    pose proof (fs_silent_run _ _ _ Hl Hp) as Hs. unfold said in Hs. fold y in Hs. rewrite Eu, Ed in Hs.
    fold y in E. rewrite E in Hs. rewrite !of_id_app in Hs. unfold of_id in Hs at 4. rewrite filter_cons_True in Hs by done.
    apply (Permutation_app_inv_l (of_id d.1.1.2 (sy_delivered y1))).
    etrans; [|etrans; [apply Hs|]]; [solve_Permutation|]. cbn. solve_Permutation.
Qed.

(** The dial is one command line, when uuids hold no line feed. *)
Lemma dial_is_one_line cmd r line r' :
  (forall id, uuid_ok id = true -> has_byte id LF = false) ->
  place_begin uuid_ok cmd r = inl (line, r') -> has_byte line LF = false.
Proof.
  intros Hid Hb. apply fs_place_begin_ok in Hb as (_ & Hu & _ & to & from & -> & Hto & Hfrom).
  assert (LF ∈ blanks ++ [" "; "&"; "("]%char) as H1 by (unfold blanks; set_solver).
  assert (LF ∈ blanks ++ [" "; "("; ")"; ","]%char) as H2 by (unfold blanks; set_solver).
  unfold originate_line. rewrite !has_byte_app, (Hid _ Hu).
  by rewrite (contains_any_false _ _ _ Hto H1), (contains_any_false _ _ _ Hfrom H2).
Qed.
End Steps.

(** ** Runs *)

#[local] Instance plain_case : Unicode := {| unicode_ToLower := to_lower |}.

Definition any_id (s : string) : bool := negb (is_empty s).

Definition demo_call : CallCommand := MkCallCommand "i1" "1000" "user/2000" [("tenant_id", VStr "t1")].

Definition ok_reply (job : string) : Frame :=
  MkFrame ctCommandReply "" [MkHkv "Reply-Text" ("+OK Job-UUID: " +:+ job); MkHkv "Job-UUID" job].

Definition job_done (job result : string) : Event :=
  MkEvent evBackgroundJob (<["job-uuid" := job]> ∅) result.

Definition channel_event (name id : string) : Event := MkEvent name (<["unique-id" := id]> ∅) "".

Definition demo_dial : list Step :=
  [Placed demo_call; PlaceAnswered "i1" (inl (ok_reply "j1"))] ++ handle_whole (job_done "j1" "+OK i1")
  ++ handle_whole (channel_event evChannelAnswer "i1").

Definition hangup_event : Event := channel_event evChannelHangup "i1".
Definition transfer_answered : Step := TransferAnswered "i1" "3000" (inl (ok_reply "")).

(** A hangup is seen while a transfer's ringing is due; the ringing is handed
    over last, and what the switch says afterwards changes nothing. *)
Definition demo_race : list Step := demo_dial ++ [transfer_answered; EventSeen hangup_event].
Definition history : list Step :=
  [EventMoves; TransferEmits 0] ++ handle_whole (job_done "j1" "-ERR NO_ANSWER") ++ handle_whole hangup_event.

Lemma history_places_none cmd : Placed cmd ∉ history.
Proof.
  unfold history, handle_whole. cbn [app repeat].
  repeat first [apply not_elem_of_nil|apply not_elem_of_cons; split; [discriminate|]].
Qed.

Lemma fs_events_belong_witness :
  ending (run any_id demo_race newSystem) = Some (evCallEnded, "i1", "t1", "UNKNOWN")
  /\ exists ds,
       sy_delivered (run any_id history (step any_id EventMoves (run any_id demo_race newSystem)))
       = sy_delivered (run any_id demo_race newSystem) ++ ds
       /\ of_id "i1" ds
            ++ of_id "i1" (due (run any_id history (step any_id EventMoves (run any_id demo_race newSystem))))
          ≡ₚ (evCallEnded, "i1", "t1", "UNKNOWN") :: of_id "i1" (sy_ringing (run any_id demo_race newSystem)).
Proof.
  assert (ending (run any_id demo_race newSystem) = Some (evCallEnded, "i1", "t1", "UNKNOWN")) as He
    by (vm_compute; reflexivity).
  split; [exact He|].
  destruct (fs_events_belong any_id demo_race history (evCallEnded, "i1", "t1", "UNKNOWN")) as (_ & _ & Hend).
  cbn [fst snd] in Hend. apply Hend; [exact He|].
  intros cmd Hc. by destruct (history_places_none cmd).
Defined.

(** [Transfer] reads the leg's tenant, gives the lock back and then hands its
    ringing over: the call's end goes in between, and the ringing follows it. *)
Lemma ringing_after_end :
  sy_delivered (run any_id (demo_race ++ EventMoves :: history) newSystem)
  = [(evCallRinging, "i1", "t1", ""); (evCallConnected, "i1", "t1", "");
     (evCallEnded, "i1", "t1", "UNKNOWN"); (evCallRinging, "i1", "t1", "transfer:3000")].
Proof. vm_compute. done. Qed.

(** A call placed again while it is live takes its leg over; the switch refuses
    the second dial of the uuid, and the live call is reported failed and
    forgotten. *)
Lemma second_dial_ends_live_call :
  let y := run any_id (demo_dial ++ [Placed demo_call; PlaceAnswered "i1" (inl (ok_reply "j2"))]
             ++ handle_whole (job_done "j2" "-ERR CHAN_NOT_IMPLEMENTED") ++ handle_whole hangup_event) newSystem in
  sy_delivered y = [(evCallRinging, "i1", "t1", ""); (evCallConnected, "i1", "t1", "");
                    (evCallFailed, "i1", "t1", "CHAN_NOT_IMPLEMENTED")]
  /\ legs (sy_legs y) = ∅.
Proof. vm_compute. done. Qed.

(** A dial that fails before [trackJob] has run is never reported: the event is
    dropped, and the leg and its job stay. *)
Lemma fast_failure_lost :
  let y := run any_id ([Placed demo_call] ++ handle_whole (job_done "j1" "-ERR USER_NOT_REGISTERED")
             ++ [PlaceAnswered "i1" (inl (ok_reply "j1"))]) newSystem in
  sy_delivered y = [] /\ legs (sy_legs y) !! "i1" = Some (MkLeg "t1" "j1") /\ jobs (sy_legs y) !! "j1" = Some "i1".
Proof. vm_compute. done. Qed.

(** The payload of a job never stands in for a reply that was lost: the error
    of the command has ended the leg. *)
Lemma lost_reply_defeats_fallback id err job payload r :
  jobs r !! job = None -> splitOK payload = Some id ->
  fst (job_leg job payload (snd (place_finish id (inr err) r))) = None.
Proof.
  intros Hj Hp. cbn [place_finish snd]. unfold job_leg, resolveJob.
  assert (jobs (snd (endLeg id r)) !! job = None) as ->.
  { unfold endLeg. destruct (legs r !! id) as [l|]; [|done]. cbn. destruct (is_empty _); [done|].
    apply lookup_delete_None. by right. }
  cbn. rewrite Hp. unfold legOf. by rewrite endLeg_gone.
Qed.

(** Channel variables pass in the destination. *)
Lemma dial_string_sets_variables :
  exists r, place_begin any_id (MkCallCommand "i1" "1000" "{api_on_answer=hupall}[leg_timeout=1]user/2000"
                                  [("tenant_id", VStr "t1")]) newLegRegistry
    = inl ("bgapi originate {origination_uuid=i1}{api_on_answer=hupall}[leg_timeout=1]user/2000 &bridge(1000)", r).
Proof. eexists. vm_compute. reflexivity. Qed.

(** [uuid.Parse] looks at the middle of a 38-byte text only: with a line feed
    around it an interaction id breaks the command line. *)
Lemma interaction_id_breaks_line (uuid_ok : string -> bool) u :
  (forall a b, uuid_ok (String a (u +:+ String b "")) = true) ->
  exists line r, place_begin uuid_ok (MkCallCommand (String LF (u +:+ "}")) "1000" "user/2000" [("tenant_id", VStr "t1")])
                   newLegRegistry = inl (line, r)
    /\ has_byte line LF = true.
Proof.
  intros Hu. eexists _, _. split.
  - unfold place_begin. cbn [cc_ProviderOptions cc_InteractionID cc_To cc_From]. rewrite Hu.
    cbn [negb is_empty String.eqb dict_str dict_get].
    change (sanitizeDialString "destination" _ _ "user/2000") with (inl (B := Error) "user/2000").
    by change (sanitizeDialString "origin" _ _ "1000") with (inl (B := Error) "1000").
  - unfold originate_line. by rewrite !has_byte_app.
Qed.
