(* ===== verification/TwilioVoice.v ===== *)
(** * internal/telephony/adapters/twilio: the Twilio voice adapter

    client.go (the REST transport with its retry loop and error classes),
    voice.go (the voice port over it) and events.go (status callbacks). JSON,
    the HTTP client, the context and the random jitter are parameters
    ([VoicePorts]); those that can change from call to call answer by
    everything the adapter did before. The delivery hook runs over the
    platform's state. *)

From Stdlib Require Import String Ascii.
From S2P Require Import Prelude GoStd AppErrors Store Comms Text Regexp Sha256 UrlQuery Planes.
From S2P Require Import CommsRegistry.

Local Open Scope Z_scope.

(** ** client.go *)

Definition ProviderName := "twilio".
Definition defaultBaseURL := "https://api.twilio.com".
Definition responseCapByte : Z := Z.shiftl 1 20.

Definition maxRetries : Z := 3.
Definition defaultRetryBase : Z := 100 * Millisecond.
Definition maxBackoffDelay : Z := 2 * Second.
Definition maxRetryAfter : Z := 5 * Second.

(** [Config] but for the hooks and the HTTP client. *)
Record Config := MkConfig {
  AccountSID : Secret;
  AuthToken : Secret;
  BaseURL : string;
  TwiMLBaseURL : string;
  CallbackBaseURL : string;
  HoldTwiMLURL : string;
  ResumeURL : string;
  RetryBaseDelay : Z;
}.

Definition shown (key val : string) : list string := if is_empty val then [] else [key +:+ "=" +:+ val].

(** [Config.String] *)
Definition Config_String (c : Config) : string :=
  "twilio("
    +:+ Join (["account_sid=" +:+ Redacted (AccountSID c); "auth_token=" +:+ Redacted (AuthToken c)]
              ++ shown "base_url" (BaseURL c) ++ shown "twiml_base_url" (TwiMLBaseURL c)
              ++ shown "callback_base_url" (CallbackBaseURL c) ++ shown "hold_twiml_url" (HoldTwiMLURL c)
              ++ shown "resume_url" (ResumeURL c)) " "
    +:+ ")".

Definition GoString (c : Config) : string := Config_String c.

Record client := MkClient {
  baseURL : string;
  accountSID : string;
  authToken : string;
  retryBase : Z;
}.

(** [strings.TrimRight(s, "/")] *)
Fixpoint trim_right_slash (s : string) : string :=
  match s with
  | EmptyString => EmptyString
  | String a s' =>
      match trim_right_slash s' with
      | EmptyString => if Ascii.eqb a "/" then EmptyString else String a EmptyString
      | r => String a r
      end
  end.

Definition newClient (cfg : Config) : client :=
  let base := if is_empty (BaseURL cfg) then defaultBaseURL else BaseURL cfg in
  let retryBase := if RetryBaseDelay cfg <=? 0 then defaultRetryBase else RetryBaseDelay cfg in
  MkClient (trim_right_slash base) (AccountSID cfg) (AuthToken cfg) retryBase.

Record callResource := MkCallResource {
  SID : string;
  cr_Status : string;
}.

Record apiError := MkApiError {
  ae_Code : Z;
  ae_Message : string;
  ae_MoreInfo : string;
  ae_Status : Z;
}.

Definition retryableStatus (status : Z) : bool := (status =? 429) || (500 <=? status).

(** The hint and whether it is one; the product wraps. *)
Definition parseRetryAfter (header : string) : option Z :=
  let header := trim_space header in
  if is_empty header then None else
  match atoi header with
  | None => None
  | Some secs =>
      if secs <=? 0 then None
      else let d := wrap64 (secs * Second) in
           Some (if maxRetryAfter <? d then maxRetryAfter else d)
  end.

(** [mapTwilioError] *)
Definition mapTwilioError (httpStatus : Z) (apiErr : option apiError) : Kind * string :=
  let tc := match apiErr with Some a => ae_Code a | None => 0 end in
  if (20001 <=? tc) && (tc <=? 20005) then (KindUnauth, "twilio.auth_failed")
  else if (20006 <=? tc) && (tc <=? 20099) then (KindForbidden, "twilio.forbidden")
  else if tc =? 20404 then (KindNotFound, "twilio.resource_not_found")
  else if (tc =? 20429) || (httpStatus =? 429) then (KindRateLimited, "twilio.rate_limited")
  else if (21200 <=? tc) && (tc <=? 21999) then (KindInvalid, "twilio.validation_failed")
  else if (30000 <=? tc) && (tc <=? 39999) then (KindConflict, "twilio.call_state")
  else if (50000 <=? tc) && (tc <=? 69999) then (KindInternal, "twilio.provider_error")
  else if httpStatus =? 400 then (KindInvalid, "twilio.request_invalid")
  else if httpStatus =? 401 then (KindUnauth, "twilio.auth_failed")
  else if httpStatus =? 403 then (KindForbidden, "twilio.forbidden")
  else if httpStatus =? 404 then (KindNotFound, "twilio.resource_not_found")
  else if httpStatus =? 409 then (KindConflict, "twilio.call_state")
  else if httpStatus =? 429 then (KindRateLimited, "twilio.rate_limited")
  else (KindInternal, "twilio.provider_error").

Definition classify (httpStatus : Z) (apiErr : option apiError) : Error :=
  let '(kind, code) := mapTwilioError httpStatus apiErr in
  let msg := match apiErr with
             | Some a => if is_empty (trim_space (ae_Message a)) then "twilio request failed"
                         else trim_space (ae_Message a)
             | None => "twilio request failed"
             end in
  WithDetails (AppErrors.New kind code msg)
    (VMap (match apiErr with
           | Some a => [("twilio_code", VInt (ae_Code a)); ("http_status", VInt httpStatus)]
           | None => [("http_status", VInt httpStatus)]
           end)).

(** [asAppError] walks the chain as [errors.As] does. *)
Definition asAppError (err : error) : option Error := errors_As err.

Definition wrapTransport (err : option error) : Error :=
  match err with
  | None => Internal "twilio.request_failed" "twilio request failed"
  | Some err =>
      match asAppError err with
      | Some ae => ae
      | None => Wrap err KindInternal "twilio.request_failed" "twilio request failed after retries"
      end
  end.

(** [defaultSigner]: SHA-256 of key, zero byte and body. *)
Definition defaultSigner (key body : string) : string :=
  "sha256=" +:+ hex_encode (Sum256 (str_bytes (key +:+ String "000" body))).

(** The answer to one request. *)
Inductive Outcome :=
| TransportFailed (err : error)
| ReadFailed (err : error)
| Response (status : Z) (retryAfterHeader body : string).

(** What the adapter did, oldest first: the URL, user and password, the form. *)
Inductive Act :=
| Slept (d : Z)
| Posted (url user password form : string).

Class VoicePorts := {
  json_callResource : string -> callResource + error;
  json_apiError : string -> option apiError;
  http_NewRequest : string -> option error;
  http_Do : list Act -> Outcome;
  (** the context's error when it is done before the timer *)
  interrupted : list Act -> option error;
  (** a number below the bound, or 0 when the source fails *)
  rand_Int : list Act -> Z -> Z;
}.

Section Client.
Context `{VoicePorts}.

Definition parseAPIError (body : string) : option apiError :=
  if is_empty body then None else json_apiError body.

Definition randIntn (log : list Act) (n : Z) : Z := if n <=? 0 then 0 else rand_Int log n.

Definition sleepBackoff (base attempt : Z) (hint : option Z) (log : list Act) : option error * list Act :=
  let d := wrap64 (base * 2 ^ attempt) in
  let d := wrap64 (d + randIntn log (wrap64 (base + 1))) in
  let d := if maxBackoffDelay <? d then maxBackoffDelay else d in
  let d := default d hint in
  match interrupted log with
  | Some err => (Some err, log)
  | None => (None, log ++ [Slept d])
  end.

(** The successful response. *)
Definition decode_call (body : string) : callResource + error :=
  if is_empty body then inl (MkCallResource "" "")
  else match json_callResource body with
       | inl cr => inl cr
       | inr err =>
           inr (AppErr (WithCause (Internal "twilio.bad_response" "twilio returned an unparseable response") err))
       end.

(** The loop of [post] from attempt number [attempt] on, with [more] attempts
    after this one. *)
Fixpoint post_loop (more : nat) (c : client) (path : string) (form : Values) (attempt : Z) (log : list Act)
    : (callResource + error) * list Act :=
  let endpoint := baseURL c +:+ path in
  match http_NewRequest endpoint with
  | Some err =>
      (inr (AppErr (WithCause (Internal "twilio.request_build_failed" "could not build the provider request") err)), log)
  | None =>
      let log := log ++ [Posted endpoint (accountSID c) (authToken c) (Encode form)] in
      let again (lastErr : error) (hint : option Z) :=
        match more with
        | O => (inr (AppErr (wrapTransport (Some lastErr))), log)
        | S more =>
            let '(r, log) := sleepBackoff (retryBase c) attempt hint log in
            match r with
            | Some err => (inr err, log)
            | None => post_loop more c path form (attempt + 1) log
            end
        end in
      match http_Do log with
      | TransportFailed err => again err None
      | ReadFailed err => again err None
      | Response status header body =>
          let body := stake (Z.to_nat responseCapByte) body in
          if (200 <=? status) && (status <? 300) then (decode_call body, log)
          else
          let lastErr := AppErr (classify status (parseAPIError body)) in
          if negb (retryableStatus status) then (inr lastErr, log)
          else again lastErr (parseRetryAfter header)
      end
  end.

Definition post (c : client) (path : string) (form : Values) (log : list Act) : (callResource + error) * list Act :=
  post_loop (Z.to_nat maxRetries) c path form 0 log.
End Client.

(** ** voice.go *)

Record leg := MkLeg {
  callSID : string;
  l_tenantID : string;
  twimlURL : string;
  callbackURL_of : string;
}.

(** [legs] and what the adapter did. *)
Record State := MkState {
  legs : gmap string leg;
  trace : list Act;
}.

Definition optTwiMLURL := "twilio_url".
Definition optRecord := "record".

(** [^\+?[0-9]{3,15}$] *)
Definition e164ish : regex := Cat (Opt (Byte "+")) (Between 3 15 (Class is_digit)).

Definition errUnknownLeg : Error := NotFound "twilio.unknown_leg" "unknown provider leg reference".

Definition querySep (u : string) : string := if has_byte u "?" then "&" else "?".

Definition callbackURL (base interactionID tenantID : string) : string :=
  base +:+ querySep base +:+ QueryEscape "interaction" +:+ "=" +:+ QueryEscape interactionID
    +:+ "&" +:+ QueryEscape "tenant" +:+ "=" +:+ QueryEscape tenantID.

Definition xml_byte (a : ascii) : string :=
  if Ascii.eqb a "&" then "&amp;" else if Ascii.eqb a "<" then "&lt;" else if Ascii.eqb a ">" then "&gt;"
  else if Ascii.eqb a "034" then "&quot;" else if Ascii.eqb a "'" then "&apos;" else String a "".

Fixpoint xmlText (v : string) : string :=
  match v with
  | EmptyString => EmptyString
  | String a v => xml_byte a +:+ xmlText v
  end.

Definition callsPath (c : client) : string := "/2010-04-01/Accounts/" +:+ accountSID c +:+ "/Calls.json".

Definition callPath (c : client) (sid : string) : string :=
  "/2010-04-01/Accounts/" +:+ accountSID c +:+ "/Calls/" +:+ PathEscape sid +:+ ".json".

Definition option_bool (m : dict) (k : string) : bool :=
  match dict_get m k with Some (VBool b) => b | _ => false end.

(** The TwiML entry document of a call. *)
Definition entry_document (cfg : Config) (opts : dict) : string :=
  let v := trim_space (dict_str opts optTwiMLURL) in
  if is_empty v then trim_space (TwiMLBaseURL cfg) else v.

(** The checks of [PlaceCall]. *)
Definition place_checks (cfg : Config) (cmd : CallCommand) : option Error :=
  let tenantID := dict_str (cc_ProviderOptions cmd) "tenant_id" in
  if is_empty (trim_space tenantID) then
    Some (Invalid "twilio.tenant_required" "PlaceCall requires tenant context (ProviderOptions tenant_id)")
  else if is_empty (trim_space (cc_InteractionID cmd)) then
    Some (Invalid "twilio.interaction_required" "PlaceCall requires an interaction id")
  else if negb (matches e164ish (trim_space (cc_From cmd))) then
    Some (Invalid "twilio.invalid_phone_number" "from must be an E.164 number or numeric extension")
  else if negb (matches e164ish (trim_space (cc_To cmd))) then
    Some (Invalid "twilio.invalid_phone_number" "to must be an E.164 number or numeric extension")
  else if is_empty (entry_document cfg (cc_ProviderOptions cmd)) then
    Some (Invalid "twilio.twiml_url_required"
            "PlaceCall requires a TwiML entry document (Config.TwiMLBaseURL or ProviderOptions twilio_url)")
  else if is_empty (trim_space (CallbackBaseURL cfg)) then
    Some (Invalid "twilio.callback_url_required"
            "PlaceCall requires a status callback endpoint (Config.CallbackBaseURL)")
  else None.

Definition call_form (cfg : Config) (cmd : CallCommand) : Values :=
  let form : Values := list_to_map
    [("To", [trim_space (cc_To cmd)]); ("From", [trim_space (cc_From cmd)]);
     ("Url", [entry_document cfg (cc_ProviderOptions cmd)]); ("Method", ["POST"]);
     ("StatusCallback", [callbackURL (CallbackBaseURL cfg) (cc_InteractionID cmd)
                           (dict_str (cc_ProviderOptions cmd) "tenant_id")]);
     ("StatusCallbackMethod", ["POST"]); ("StatusCallbackEvent", ["ringing"; "answered"; "completed"])] in
  if option_bool (cc_ProviderOptions cmd) optRecord then Values_Set form "Record" "true" else form.

Section Adapter.
Context `{VoicePorts}.

(** The adapter: its configuration, the client and the signer [New] builds, and
    the delivery hook, when it is wired. *)
Record Adapter := MkAdapter {
  cfg : Config;
  cl : client;
  signer : string -> string;
  Ingest : option (string -> string -> string -> env -> st -> option error * st);
}.

Definition New (c : Config) (Signer : option (string -> string))
    (hook : option (string -> string -> string -> env -> st -> option error * st)) : Adapter :=
  MkAdapter c (newClient c) (match Signer with Some f => f | None => defaultSigner (AuthToken c) end) hook.

Context `{EventJSON}.

Definition deliver (a : Adapter) (ev : ProviderEvent) (e : env) (s : st) : option error * st :=
  match Ingest a with
  | None => (None, s)
  | Some ingest =>
      let '(wire, s) := EncodeEvent ev e s in
      match wire with
      | inr err =>
          (Some (AppErr (WithCause (Internal "twilio.event_encode_failed" "could not encode the provider event") err)), s)
      | inl body => ingest ProviderName body (signer a body) e s
      end
  end.

Definition PlaceCall (a : Adapter) (cmd : CallCommand) (s : State) : option error * State :=
  match place_checks (cfg a) cmd with
  | Some err => (Some (AppErr err), s)
  | None =>
      let form := call_form (cfg a) cmd in
      let '(r, log) := post (cl a) (callsPath (cl a)) form (trace s) in
      match r with
      | inr err => (Some err, MkState (legs s) log)
      | inl cr =>
          (None, MkState (<[cc_InteractionID cmd :=
                    MkLeg (SID cr) (dict_str (cc_ProviderOptions cmd) "tenant_id")
                      (entry_document (cfg a) (cc_ProviderOptions cmd)) (Values_Get form "StatusCallback")]> (legs s)) log)
      end
  end.

Definition leg_unaddressable : Error :=
  Internal "twilio.leg_unaddressable"
    "the provider accepted the call without returning a call sid; the leg cannot be managed".

(** [a.leg(providerRef)] with the check every operation on a leg starts with. *)
Definition addressed_leg (ref : string) (s : State) : leg + Error :=
  match legs s !! ref with
  | None => inr errUnknownLeg
  | Some l => if is_empty (callSID l) then inr leg_unaddressable else inl l
  end.

(** The request of an operation on a leg. *)
Definition post_call (a : Adapter) (l : leg) (key value : string) (s : State) : option error * State :=
  let '(r, log) := post (cl a) (callPath (cl a) (callSID l)) {[ key := [value] ]} (trace s) in
  (match r with inr err => Some err | inl _ => None end, MkState (legs s) log).

Definition Hangup (a : Adapter) (ref : string) (s : State) : option error * State :=
  match addressed_leg ref s with
  | inr err => (Some (AppErr err), s)
  | inl l => post_call a l "Status" "completed" s
  end.

Definition dial_document (dest : string) : string :=
  "<Response><Dial><Number>" +:+ xmlText dest +:+ "</Number></Dial></Response>".

(** An attribute value in double quotes. *)
Definition dq : string := String "034" "".

Definition redirect_tag (target : string) : string :=
  "<Redirect method=" +:+ dq +:+ "POST" +:+ dq +:+ ">" +:+ xmlText target +:+ "</Redirect>".

Definition hold_document (holdURL : string) : string :=
  "<Response><Pause length=" +:+ dq +:+ "3600" +:+ dq +:+ "/>" +:+ redirect_tag holdURL +:+ "</Response>".

Definition resume_document (target : string) : string :=
  "<Response>" +:+ redirect_tag target +:+ "</Response>".

Definition Transfer (a : Adapter) (ref destination : string) : port State := fun e w =>
  match addressed_leg ref w.1 with
  | inr err => (Some (AppErr err), w)
  | inl l =>
      let dest := trim_space destination in
      if negb (matches e164ish dest) then
        (Some (AppErr (Invalid "twilio.invalid_transfer_destination"
                         "transfer destination must be an E.164 number or numeric extension")), w)
      else
      let '(r, s) := post_call a l "Twiml" (dial_document dest) w.1 in
      match r with
      | Some err => (Some err, (s, w.2))
      | None =>
          let '(r, p) := deliver a (MkProviderEvent "call.ringing" ref (l_tenantID l) "" ("transfer:" +:+ dest)) e w.2 in
          (r, (s, p))
      end
  end.

Definition Hold (a : Adapter) (ref : string) (s : State) : option error * State :=
  match addressed_leg ref s with
  | inr err => (Some (AppErr err), s)
  | inl l =>
      let holdURL := trim_space (HoldTwiMLURL (cfg a)) in
      if is_empty holdURL then
        (Some (AppErr (Internal "twilio.hold_not_configured"
                         "hold requires a configured hold TwiML document (Config.HoldTwiMLURL)")), s)
      else post_call a l "Twiml" (hold_document holdURL) s
  end.

Definition Resume (a : Adapter) (ref : string) (s : State) : option error * State :=
  match addressed_leg ref s with
  | inr err => (Some (AppErr err), s)
  | inl l =>
      let target := trim_space (ResumeURL (cfg a)) in
      let target := if is_empty target then twimlURL l else target in
      if is_empty target then
        (Some (AppErr (Invalid "twilio.resume_target_required"
                         "resume requires a continuation document (Config.ResumeURL or the leg's entry TwiML)")), s)
      else post_call a l "Twiml" (resume_document target) s
  end.

(** An operation that does not touch the platform. *)
Definition rest (f : State -> option error * State) : port State := fun _ w =>
  let '(r, s) := f w.1 in (r, (s, w.2)).

(** The adapter behind the voice port. *)
Definition twilio_voice (a : Adapter) : VoiceProvider State := {|
  vp_PlaceCall cmd := rest (PlaceCall a cmd);
  vp_Hangup ref := rest (Hangup a ref);
  vp_Transfer ref destination := Transfer a ref destination;
  vp_Hold ref := rest (Hold a ref);
  vp_Resume ref := rest (Resume a ref);
|}.

(** ** events.go *)

Definition fieldCallStatus := "CallStatus".
Definition fieldInteraction := "interaction".
Definition fieldTenant := "tenant".
Definition fieldCallbackTime := "Timestamp".

(** The first value that is not blank, as it is. *)
Fixpoint firstNonEmpty (values : list string) : string :=
  match values with
  | [] => ""
  | v :: values => if negb (is_empty (trim_space v)) then v else firstNonEmpty values
  end.

(** The event and the detail of a native status. *)
Definition native_event (status : string) : option (string * string) :=
  if existsb (String.eqb status) ["queued"; "ringing"] then Some ("call.ringing", "")
  else if String.eqb status "in-progress" then Some ("call.connected", "")
  else if String.eqb status "completed" then Some ("call.ended", "completed")
  else if existsb (String.eqb status) ["no-answer"; "busy"; "failed"; "canceled"] then Some ("call.ended", status)
  else None.

Context `{Unicode}.

Definition TranslateStatusCallback (form : Values) : option ProviderEvent :=
  let status := ToLower (trim_space (Values_Get form fieldCallStatus)) in
  if is_empty status then None else
  match native_event status with
  | None => None
  | Some (event, detail) =>
      Some (MkProviderEvent event (firstNonEmpty [Values_Get form fieldInteraction; Values_Get form "InteractionID"])
              (trim_space (Values_Get form fieldTenant)) (trim_space (Values_Get form fieldCallbackTime)) detail)
  end.

(** [mergeForm] on one key: the query first. *)
Definition merge_key (query form : option (list string)) : option (list string) :=
  match query, form with
  | Some q, Some f => Some (q ++ f)
  | Some q, None => Some q
  | None, f => f
  end.

Definition mergeForm (query form : Values) : Values := merge merge_key query form.

Definition HandleStatusCallback (a : Adapter) (query form : Values) (s : State) (e : env) (p : st)
    : option error * st :=
  match TranslateStatusCallback (mergeForm query form) with
  | None => (None, p)
  | Some ev =>
      if is_empty (ev_InteractionID ev) then
        (Some (AppErr (Invalid "twilio.callback_unscoped"
                 "voice status callback carries no interaction id (missing self-scoping passthrough)")), p)
      else
      let ev := match legs s !! ev_InteractionID ev with
                | Some l => MkProviderEvent (ev_Event ev) (ev_InteractionID ev) (l_tenantID l) (ev_Timestamp ev)
                              (ev_Detail ev)
                | None => ev
                end in
      deliver a ev e p
  end.

(** [ServeStatusCallback] over a parsed form: the status answered. *)
Definition ServeStatusCallback (a : Adapter) (parsed : option (Values * Values)) (s : State) (e : env) (p : st)
    : Z * st :=
  match parsed with
  | None => (400, p)
  | Some (query, form) =>
      let '(err, p) := HandleStatusCallback a query form s e p in
      match err with
      | None => (204, p)
      | Some err =>
          match asAppError err with
          | Some ae => (match ErrKind ae with KindInvalid => 400 | _ => 502 end, p)
          | None => (502, p)
          end
      end
  end.
End Adapter.
