(* ===== verification/AtVoice.v ===== *)
(** * internal/telephony/adapters/africastalking: the Africa's Talking voice adapter

    client.go (construction, renderings, the make-call request with its retry
    loop), events.go (the status vocabulary) and voice.go (the voice port over
    the leg and session tables, the callback exchange). [PlaceCall] looks for a
    duplicate and registers the leg in two critical sections with the request
    between them; each is a definition of its own, so that calls can be
    interleaved. JSON, the HTTP client, the context and the jitter are
    parameters ([AtVoicePorts]). *)

From Stdlib Require Import String Ascii.
From S2P Require Import Prelude GoStd AppErrors Store Comms Text Regexp UrlQuery Customers Planes.
From S2P Require Import CommsRegistry CustomersProps Wp.

Local Open Scope Z_scope.

(** ** client.go *)

Definition ProviderName := "africastalking".
Definition DefaultAPIBaseURL := "https://voice.africastalking.com".
Definition SandboxAPIBaseURL := "https://voice.sandbox.africastalking.com".
Definition callPath := "/call".

Definition maxRetriesCeiling : Z := 3.
Definition defaultMaxRetries : Z := 3.
Definition defaultRetryBase : Z := 250 * Millisecond.
Definition defaultRetryCeiling : Z := 2 * Second.
Definition errBodyLimit : Z := Z.shiftl 8 10.
Definition atMsgLimit : Z := 256.
Definition atErrorMessageNone := "None".

Definition ErrUnsupportedOperation : Error :=
  Conflict "at.unsupported_operation" "operation unsupported by the Africa's Talking voice surface".

(** The delivery hook, over the platform's state. *)
Definition IngestFunc : Type := string -> string -> string -> env -> st -> option error * st.

(** [Config] but for the HTTP client and the logger. *)
Record Config := MkConfig {
  c_Username : Secret;
  c_APIKey : Secret;
  APIBaseURL : string;
  c_Ingest : option IngestFunc;
  c_Signer : option (string -> string);
  MaxRetries : Z;
  RetryBackoff : Z;
  RetryMaxBackoff : Z;
}.

(** The part of [Adapter] that [New] fixes; the tables are in [State]. *)
Record Adapter := MkAdapter {
  username : Secret;
  apiKey : Secret;
  apiBase : string;
  ingest : IngestFunc;
  signer : string -> string;
  maxRetries : Z;
  retryBase : Z;
  retryCeil : Z;
}.

(** The retry budget of a configuration. *)
Definition retry_budget (n : Z) : Z :=
  if n <? 0 then 0 else if maxRetriesCeiling <? n then maxRetriesCeiling
  else if 0 <? n then n else defaultMaxRetries.

Definition New (cfg : Config) : Adapter + Error :=
  if is_empty (c_Username cfg) || is_empty (c_APIKey cfg) then
    inr (Invalid "at.credentials_required" "ORVEXA_AT_USERNAME and ORVEXA_AT_API_KEY are required")
  else
  match c_Ingest cfg, c_Signer cfg with
  | Some _, None | None, Some _ =>
      inr (Invalid "at.ingest_not_wired"
             "Config.Ingest and Config.Signer must be set together (status callback delivery)")
  | None, None =>
      inr (Invalid "at.ingest_required"
             "Config.Ingest is required: status callbacks must flow through the signed delivery path")
  | Some ing, Some sig =>
      let base := if RetryBackoff cfg <=? 0 then defaultRetryBase else RetryBackoff cfg in
      let ceil := if RetryMaxBackoff cfg <=? 0 then defaultRetryCeiling else RetryMaxBackoff cfg in
      let ceil := if ceil <? base then base else ceil in
      let api := trim_suffix (APIBaseURL cfg) "/" in
      inl (MkAdapter (c_Username cfg) (c_APIKey cfg) (if is_empty api then DefaultAPIBaseURL else api) ing sig
             (retry_budget (MaxRetries cfg)) base ceil)
  end.

(** [Adapter.String] *)
Definition Adapter_String (a : Adapter) : string :=
  "africastalking.Adapter("
    +:+ Join (["username=" +:+ Redacted (username a); "api_key=" +:+ Redacted (apiKey a)]
              ++ (if is_empty (apiBase a) then [] else ["api_base=" +:+ apiBase a])) " "
    +:+ ")".

Definition GoString (a : Adapter) : string := Adapter_String a.
Definition LogValue (a : Adapter) : string := Adapter_String a.

(** The fields [MarshalJSON] writes. *)
Definition MarshalJSON (a : Adapter) : list (string * string) :=
  [("username", Redacted (username a)); ("api_key", Redacted (apiKey a)); ("api_base", apiBase a)].

Record callEntry := MkCallEntry {
  en_PhoneNumber : string;
  en_SessionID : string;
  en_Status : string;
  en_ErrorMessage : string;
  en_ClientRequestID : string;
}.

Record callResponse := MkCallResponse {
  ErrorMessage : string;
  Entries : list callEntry;
}.

Definition truncate (s : string) (n : Z) : string :=
  if Z.of_nat (String.length s) <=? n then s else stake (Z.to_nat n) s.

Definition cleanMsg (s : string) : string :=
  let s := trim_space s in
  if is_empty s || String.eqb s atErrorMessageNone then "" else truncate s atMsgLimit.

Fixpoint first_entry_message (es : list callEntry) : string :=
  match es with
  | [] => ""
  | e :: es => if is_empty (cleanMsg (en_ErrorMessage e)) then first_entry_message es else cleanMsg (en_ErrorMessage e)
  end.

Definition entryMessage (env : callResponse) : string := first_entry_message (Entries env).

Definition statusDetails (status : Z) (env : callResponse) : dict :=
  let top := cleanMsg (ErrorMessage env) in
  let entry := cleanMsg (entryMessage env) in
  [("http_status", VInt status)]
    ++ (if is_empty top then [] else [("at_message", VStr top)])
    ++ (if is_empty entry || String.eqb entry top then [] else [("at_entry_message", VStr entry)]).

Definition terminalError (status : Z) (env : callResponse) : Error :=
  let e := if status =? 401 then Unauth "at.auth_failed" "africastalking rejected the credentials"
           else if status =? 403 then Forbidden "at.forbidden" "africastalking refused the operation"
           else if (status =? 404) || (status =? 410) then NotFound "at.not_found" "africastalking resource not found"
           else Invalid "at.request_rejected" "africastalking rejected the request" in
  WithDetails e (VMap (statusDetails status env)).

(** The header's seconds, clamped; the product wraps. *)
Definition retryAfter (header : string) (ceil : Z) : Z :=
  let v := trim_space header in
  if is_empty v then 0 else
  match atoi v with
  | None => 0
  | Some secs =>
      if secs <? 0 then 0
      else let d := wrap64 (secs * Second) in if ceil <? d then ceil else d
  end.

Definition sanitizeTransport (t : transportError) : transportError :=
  match t with
  | UrlError op url err => UrlError op (truncate url 128) err
  | OtherTransport err => OtherTransport err
  end.

(** The answer to one request; an unreadable body counts as what was read. *)
Inductive Outcome :=
| TransportFailed (err : transportError)
| Response (status : Z) (retryAfterHeader body : string).

(** What the adapter did, oldest first: looked at the context, slept, sent the
    form with the key to the URL. *)
Inductive Act :=
| Checked
| Slept (d : Z)
| Posted (url key form : string).

(** The decoded body of a status callback. *)
Record StatusCallback := MkStatusCallback {
  cb_SessionID : string;
  cb_ClientRequestID : string;
  cb_PhoneNumber : string;
  cb_Status : string;
  cb_HangupCause : string;
  cb_DurationSecs : Z;
  cb_Timestamp : string;
}.

Class AtVoicePorts := {
  json_callResponse : string -> callResponse + error;
  (** the fields decoded before an error, if any *)
  json_callResponse_loose : string -> callResponse;
  json_StatusCallback : string -> StatusCallback + error;
  http_NewRequest : string -> option error;
  http_Do : list Act -> Outcome;
  ctx_Err : list Act -> option error;
  (** a number below the bound *)
  rand_Int64N : list Act -> Z -> Z;
  (** [time.Parse(time.RFC3339, v)] succeeds *)
  rfc3339_valid : string -> bool;
}.

Section Client.
Context `{AtVoicePorts}.

Definition parseCallResponse (body : string) : callResponse + error :=
  match json_callResponse body with
  | inl env => inl env
  | inr err =>
      inr (AppErr (WithCause (Internal "at.envelope_invalid" "africastalking returned an unreadable response") err))
  end.

Definition parseCallResponseLoose (body : string) : callResponse := json_callResponse_loose body.

Definition fullJitter (log : list Act) (d : Z) : Z := if d <=? 0 then 0 else rand_Int64N log d.

(** The time slept before the next attempt; none once the context is done. *)
Definition pause (a : Adapter) (attempt serverDelay : Z) (log : list Act) : list Act :=
  match ctx_Err log with
  | Some _ => log ++ [Checked]
  | None =>
      let delay :=
        if serverDelay <=? 0 then
          let ceil := wrap64 (Z.shiftl (retryBase a) attempt) in
          fullJitter log (if retryCeil a <? ceil then retryCeil a else ceil)
        else serverDelay in
      log ++ [Checked; Slept delay]
  end.

(** The errors of the statuses that are tried again. *)
Definition transient (status : Z) : option Error :=
  if status =? 409 then Some (Conflict "at.conflict" "africastalking reported a conflicting request")
  else if status =? 429 then Some (RateLimited "at.rate_limited" "africastalking rate limited the request")
  else if 500 <=? status then Some (Internal "at.upstream_error" "africastalking request failed")
  else None.

(** The loop of [postCall] from attempt number [attempt] on, with [more]
    retries left. *)
Fixpoint post_loop (more : nat) (a : Adapter) (form : Values) (attempt : Z) (log : list Act)
    : (callResponse + error) * list Act :=
  let endpoint := apiBase a +:+ callPath in
  match ctx_Err log with
  | Some err => (inr err, log ++ [Checked])
  | None =>
      let log := log ++ [Checked] in
      match http_NewRequest endpoint with
      | Some err =>
          (inr (AppErr (WithCause (Internal "at.request_build_failed" "africastalking request could not be built") err)),
           log)
      | None =>
          let log := log ++ [Posted endpoint (apiKey a) (Encode form)] in
          match http_Do log with
          | TransportFailed err =>
              (inr (AppErr (WithCause (Internal "at.transport_error" "africastalking request could not be delivered")
                              (transport_text (sanitizeTransport err)))), log)
          | Response status header body =>
              let body := stake (Z.to_nat errBodyLimit) body in
              if (200 <=? status) && (status <? 300) then (parseCallResponse body, log)
              else
              match transient status with
              | None => (inr (AppErr (terminalError status (parseCallResponseLoose body))), log)
              | Some lastErr =>
                  match more with
                  | O => (inr (AppErr (WithDetails lastErr (VMap (statusDetails status (parseCallResponseLoose body))))), log)
                  | S more =>
                      post_loop more a form (attempt + 1) (pause a attempt (retryAfter header (retryCeil a)) log)
                  end
              end
          end
      end
  end.

Definition postCall (a : Adapter) (form : Values) (log : list Act) : (callResponse + error) * list Act :=
  post_loop (Z.to_nat (maxRetries a)) a form 0 log.
End Client.

(** ** events.go *)

Definition StatusQueued := "Queued".
Definition StatusInProgress := "InProgress".
Definition StatusCompleted := "Completed".
Definition StatusFailed := "Failed".
Definition StatusBusy := "Busy".
Definition StatusNoAnswer := "NoAnswer".

Definition endReason (status : string) : string :=
  if String.eqb status StatusCompleted then "completed"
  else if String.eqb status StatusFailed then "failed"
  else if String.eqb status StatusBusy then "busy"
  else if String.eqb status StatusNoAnswer then "no_answer"
  else "".

Definition IsTerminal (status : string) : bool :=
  existsb (String.eqb status) [StatusCompleted; StatusFailed; StatusBusy; StatusNoAnswer].

(** The event and the detail of a callback, by its status. *)
Definition status_event (cb : StatusCallback) : option (string * string) :=
  let status := cb_Status cb in
  if String.eqb status StatusQueued then Some ("call.ringing", "")
  else if String.eqb status StatusInProgress then Some ("call.connected", "")
  else if IsTerminal status then
    let reason := endReason status in
    let cause := cleanMsg (cb_HangupCause cb) in
    Some ("call.ended",
          if negb (is_empty cause) && negb (String.eqb cause reason) then reason +:+ " (" +:+ cause +:+ ")" else reason)
  else None.

Definition callbackTimestamp `{AtVoicePorts} (v : string) : string :=
  if is_empty v then "" else if rfc3339_valid v then v else "".

Definition TranslateStatus `{AtVoicePorts} (cb : option StatusCallback) (interactionID tenantID : string)
    : ProviderEvent + Error :=
  match cb with
  | None => inr (Invalid "at.callback_malformed" "status callback payload is required")
  | Some cb =>
      if is_empty interactionID || is_empty tenantID then
        inr (NotFound "at.callback_unroutable"
               "status callback could not be routed to an interaction (no clientRequestId or known sessionId)")
      else
      match status_event cb with
      | None =>
          inr (Invalid "at.unknown_status" ("unsupported Africa's Talking status " +:+ truncate (cb_Status cb) 64))
      | Some (event, detail) =>
          inl (MkProviderEvent event interactionID tenantID (callbackTimestamp (cb_Timestamp cb)) detail)
      end
  end.

(** ** voice.go *)

Definition callbackBodyLimit : Z := Z.shiftl 8 10.

Definition actionHangup := "hangup".
Definition actionTransfer := "transfer".

Record controlAction := MkControlAction {
  ac_kind : string;
  ac_destination : string;
}.

Record atLeg := MkAtLeg {
  interactionID : string;
  tenantID : string;
  sessionID : string;
  ended : bool;
  held : bool;
  transferred : string;
  action : option controlAction;
}.

(** The tables of the adapter and what it did. A leg is shared by its key: the
    table never takes another leg for a key it holds but when two calls of one
    interaction overlap. *)
Record State := MkState {
  legs : gmap string atLeg;
  sessions : gmap string string;
  trace : list Act;
}.

Definition lookupLeg (ref : string) (s : State) : option atLeg := legs s !! ref.

(** A write to a leg under the lock. *)
Definition on_leg (ref : string) (f : atLeg -> atLeg) (s : State) : State :=
  MkState (alter f ref (legs s)) (sessions s) (trace s).

Definition set_ended (l : atLeg) : atLeg :=
  MkAtLeg (interactionID l) (tenantID l) (sessionID l) true false (transferred l) (action l).
Definition set_held (h : bool) (l : atLeg) : atLeg :=
  MkAtLeg (interactionID l) (tenantID l) (sessionID l) (ended l) h (transferred l) (action l).
Definition set_transferred (dest : string) (l : atLeg) : atLeg :=
  MkAtLeg (interactionID l) (tenantID l) (sessionID l) (ended l) (held l) dest (action l).
Definition set_action (act : option controlAction) (l : atLeg) : atLeg :=
  MkAtLeg (interactionID l) (tenantID l) (sessionID l) (ended l) (held l) (transferred l) act.

Definition markEnded (ref : string) : State -> State := on_leg ref set_ended.
Definition queueAction (ref : string) (act : controlAction) : State -> State := on_leg ref (set_action (Some act)).

(** [drainAction]: the pending action of the leg, which is cleared. *)
Definition drainAction (ref : string) (s : State) : option controlAction * State :=
  (match legs s !! ref with Some l => action l | None => None end, on_leg ref (set_action None) s).

Definition dq : string := String "034" "".

Definition renderAction (act : option controlAction) : string :=
  let open := "<?xml version=" +:+ dq +:+ "1.0" +:+ dq +:+ " encoding=" +:+ dq +:+ "UTF-8" +:+ dq +:+ "?><Response>" in
  match act with
  | None => open +:+ "</Response>"
  | Some act =>
      if String.eqb (ac_kind act) actionTransfer then
        open +:+ "<Dial phoneNumbers=" +:+ dq +:+ ac_destination act +:+ dq +:+ "/></Response>"
      else open +:+ "</Response>"
  end.

(** The digits of a number. *)
Fixpoint normalizeLoose (v : string) : string :=
  match v with
  | EmptyString => EmptyString
  | String a v => if is_digit a then String a (normalizeLoose v) else normalizeLoose v
  end.

Fixpoint find_entry (to : string) (es : list callEntry) : option callEntry :=
  match es with
  | [] => None
  | e :: es => if String.eqb (normalizeLoose (en_PhoneNumber e)) (normalizeLoose to) then Some e else find_entry to es
  end.

Definition selectEntry (env : callResponse) (to : string) : option callEntry :=
  match find_entry to (Entries env) with
  | Some e => Some e
  | None => match Entries env with [e] => Some e | _ => None end
  end.

Definition unknown_leg : error := AppErr (NotFound "at.unknown_leg" "unknown provider leg reference").

Section Voice.
Context `{AtVoicePorts} `{Unicode} `{EventJSON}.
Variable a : Adapter.

Definition normalizePhone (v : string) : string + Error :=
  match NormalizeIdentifier IdentPhone v with
  | inl n => inl n
  | inr err => inr (Wrap (AppErr err) KindInvalid "at.invalid_phone" "phone number must be 7-15 digits (E.164)")
  end.

(** [deliver]: a failed delivery is tried once more. *)
Definition deliver (ev : ProviderEvent) (e : env) (s : st) : option error * st :=
  let '(wire, s) := EncodeEvent ev e s in
  match wire with
  | inr err =>
      (Some (AppErr (WithCause (Internal "at.event_encode_failed" "lifecycle event could not be encoded") err)), s)
  | inl body =>
      let sig := signer a body in
      match ingest a ProviderName body sig e s with
      | (Some _, s) => ingest a ProviderName body sig e s
      | r => r
      end
  end.

(** What a call is placed with: interaction, tenant, from and to. *)
Definition place_input (cmd : CallCommand) : (string * string * string * string) + Error :=
  let tenant := dict_str (cc_ProviderOptions cmd) "tenant_id" in
  if is_empty (trim_space (cc_InteractionID cmd)) then
    inr (Invalid "at.interaction_required" "interaction id is required")
  else if is_empty tenant then inr (Invalid "comms.tenant_required" "tenant context is required")
  else if is_empty (trim_space (cc_From cmd)) then inr (Invalid "at.caller_required" "from (callerId) is required")
  else if is_empty (trim_space (cc_To cmd)) then
    inr (Invalid "at.destination_required" "to (destination) is required")
  else
  match normalizePhone (cc_From cmd) with
  | inr err => inr err
  | inl fromN =>
      match normalizePhone (cc_To cmd) with
      | inr err => inr err
      | inl toN => inl (cc_InteractionID cmd, tenant, fromN, toN)
      end
  end.

Definition call_form (id fromN toN : string) : Values :=
  Values_Set (Values_Set (Values_Set (Values_Set ∅ "username" (username a)) "to" toN) "from" fromN)
    "clientRequestId" id.

(** [PlaceCall] up to the request: the checks and the lookup of a duplicate. *)
Definition place_begin (cmd : CallCommand) (s : State) : (string * string * string * string) + Error :=
  match place_input cmd with
  | inr err => inr err
  | inl (id, tenant, fromN, toN) =>
      match legs s !! id with
      | Some _ => inr (Conflict "at.interaction_already_placed" "a call leg already exists for this interaction")
      | None => inl (id, tenant, fromN, toN)
      end
  end.

(** What the carrier's answer to the request means: the session, or the error. *)
Definition accepted (env : callResponse) (toN : string) : string + Error :=
  let msg := cleanMsg (ErrorMessage env) in
  if negb (is_empty msg) then
    inr (WithDetails (Conflict "at.call_rejected" "africastalking did not queue the call")
           (VMap [("at_message", VStr msg)]))
  else
  match selectEntry env toN with
  | None => inr (Internal "at.envelope_invalid" "africastalking returned no call entry for the dialed number")
  | Some entry =>
      let entryMsg := cleanMsg (en_ErrorMessage entry) in
      if negb (is_empty entryMsg) || negb (String.eqb (en_Status entry) StatusQueued) then
        inr (WithDetails (Conflict "at.call_not_queued" "africastalking did not queue the call")
               (VMap [("entry_status", VStr (en_Status entry)); ("at_entry_message", VStr entryMsg)]))
      else inl (en_SessionID entry)
  end.

(** The second critical section: the leg and its session are registered. *)
Definition register_leg (id tenant session : string) (s : State) : State :=
  MkState (<[id := MkAtLeg id tenant session false false "" None]> (legs s))
    (if is_empty session then sessions s else <[session := id]> (sessions s)) (trace s).

(** The request and what follows it. *)
Definition place_finish (p : string * string * string * string) (s : State) : option error * State :=
  let '(id, tenant, fromN, toN) := p in
  let '(r, log) := postCall a (call_form id fromN toN) (trace s) in
  let s := MkState (legs s) (sessions s) log in
  match r with
  | inr err => (Some err, s)
  | inl env =>
      match accepted env toN with
      | inr err => (Some (AppErr err), s)
      | inl session => (None, register_leg id tenant session s)
      end
  end.

Definition PlaceCall (cmd : CallCommand) (s : State) : option error * State :=
  match place_begin cmd s with
  | inr err => (Some (AppErr err), s)
  | inl p => place_finish p s
  end.

Definition Hangup (ref : string) : port State := fun e w =>
  match lookupLeg ref w.1 with
  | None => (Some unknown_leg, w)
  | Some leg =>
      if ended leg then (None, w) else
      let s := queueAction ref (MkControlAction actionHangup "") (markEnded ref w.1) in
      let '(r, p) := deliver (MkProviderEvent "call.ended" (interactionID leg) (tenantID leg) "" "hangup") e w.2 in
      (r, (s, p))
  end.

Definition Transfer (ref destination : string) : port State := fun e w =>
  if is_empty (trim_space destination) then
    (Some (AppErr (Invalid "at.transfer_destination_required" "transfer requires destination")), w)
  else
  match normalizePhone destination with
  | inr err => (Some (AppErr err), w)
  | inl destN =>
      match lookupLeg ref w.1 with
      | None => (Some unknown_leg, w)
      | Some leg =>
          if ended leg then (Some (AppErr ErrUnsupportedOperation), w) else
          let s := queueAction ref (MkControlAction actionTransfer destN) (on_leg ref (set_transferred destN) w.1) in
          let '(r, p) := deliver (MkProviderEvent "call.ringing" (interactionID leg) (tenantID leg) ""
                                    ("transfer:" +:+ destN)) e w.2 in
          (r, (s, p))
      end
  end.

(** [Hold] and [Resume] differ in what they write. *)
Definition flip_held (h : bool) (ref : string) (s : State) : option error * State :=
  match lookupLeg ref s with
  | None => (Some unknown_leg, s)
  | Some leg => if ended leg then (Some (AppErr ErrUnsupportedOperation), s) else (None, on_leg ref (set_held h) s)
  end.

Definition Hold : string -> State -> option error * State := flip_held true.
Definition Resume : string -> State -> option error * State := flip_held false.

(** [routeCallback]: the leg of a callback. *)
Definition routeCallback (cb : StatusCallback) (s : State) : option (string * atLeg) :=
  let by_session :=
    if is_empty (cb_SessionID cb) then None
    else match sessions s !! cb_SessionID cb with
         | Some id => match legs s !! id with Some l => Some (id, l) | None => None end
         | None => None
         end in
  if is_empty (cb_ClientRequestID cb) then by_session
  else match legs s !! cb_ClientRequestID cb with
       | Some l => Some (cb_ClientRequestID cb, l)
       | None => by_session
       end.

Definition HandleStatusCallback (body : string) : port State := fun e w =>
  match json_StatusCallback body with
  | inr err =>
      (Some (AppErr (WithCause (Invalid "at.callback_malformed" "status callback payload is not valid JSON") err)), w)
  | inl cb =>
      let route := routeCallback cb w.1 in
      match TranslateStatus (Some cb) (match route with Some (_, l) => interactionID l | None => "" end)
              (match route with Some (_, l) => tenantID l | None => "" end) with
      | inr err => (Some (AppErr err), w)
      | inl ev =>
          let s := match route with
                   | Some (id, _) => if IsTerminal (cb_Status cb) then markEnded id w.1 else w.1
                   | None => w.1
                   end in
          let '(r, p) := deliver ev e w.2 in
          (r, (s, p))
      end
  end.

(** The text [http.Error] writes. *)
Definition error_body (text : string) : string :=
  "{" +:+ dq +:+ "error" +:+ dq +:+ ":" +:+ dq +:+ text +:+ dq +:+ "}" +:+ String "010" "".

(** [StatusCallbackHandler] on a body that was read, [None] when it could not:
    the status and the text answered. *)
Definition StatusCallbackHandler (body : option string) (e : env) (w : State * st)
    : (Z * string) * (State * st) :=
  match body with
  | None => ((400, error_body "callback unreadable"), w)
  | Some body =>
      let body := stake (Z.to_nat callbackBodyLimit) body in
      let '(err, w) := HandleStatusCallback body e w in
      match err with
      | Some err =>
          ((match errors_As err with Some ae => AppErrors.HTTPStatus ae | None => 500 end,
            error_body "callback rejected"), w)
      | None =>
          let '(act, s) :=
            match json_StatusCallback body with
            | inl cb =>
                match routeCallback cb w.1 with
                | Some (id, _) => drainAction id w.1
                | None => (None, w.1)
                end
            | inr _ => (None, w.1)
            end in
          ((200, renderAction act), (s, w.2))
      end
  end.

(** The adapter behind the voice port. *)
Definition at_voice : VoiceProvider State := {|
  vp_PlaceCall cmd := fun _ w => let '(r, s) := PlaceCall cmd w.1 in (r, (s, w.2));
  vp_Hangup := Hangup;
  vp_Transfer := Transfer;
  vp_Hold ref := fun _ w => let '(r, s) := Hold ref w.1 in (r, (s, w.2));
  vp_Resume ref := fun _ w => let '(r, s) := Resume ref w.1 in (r, (s, w.2));
|}.
End Voice.

(** ** The request of a call *)

Definition is_post (x : Act) : bool := match x with Posted _ _ _ => true | _ => false end.

Section requests.
Context `{AtVoicePorts}.
Hypothesis Int64N_range : forall log d, 0 < d -> 0 <= rand_Int64N log d < d.

(** A policy [New] makes. *)
Record sane (a : Adapter) : Prop := {
  sane_retries : 0 <= maxRetries a <= maxRetriesCeiling;
  sane_base : 0 < retryBase a <= retryCeil a;
}.

Lemma at_New_sane cfg a : New cfg = inl a -> sane a.
Proof.
  unfold New. destruct (_ || _); [done|]. destruct (c_Ingest cfg), (c_Signer cfg); try done. intros [= <-].
  unfold retry_budget, defaultRetryBase, defaultRetryCeiling, defaultMaxRetries, maxRetriesCeiling, Second, Millisecond.
  split; unfold maxRetriesCeiling; simpl;
    repeat match goal with
      | |- context [if ?b then _ else _] =>
          lazymatch b with context [if _ then _ else _] => fail | _ => destruct b eqn:? end
      end; lia.
Qed.

Lemma at_retryAfter_le h c : 0 <= c -> retryAfter h c <= c.
Proof.
  intros Hc. unfold retryAfter. destruct (is_empty _); [done|]. destruct (atoi _) as [z|]; [|done].
  destruct (_ <? 0); [done|]. cbv zeta. destruct (_ <? _) eqn:E; lia.
Qed.

Definition request (a : Adapter) (form : Values) : Act := Posted (apiBase a +:+ callPath) (apiKey a) (Encode form).

Definition act_ok (a : Adapter) (form : Values) (x : Act) : Prop :=
  x = request a form \/ x = Checked \/ exists t, x = Slept t /\ 0 <= t <= retryCeil a.

Lemma at_pause_acts a form attempt d log :
  sane a -> d <= retryCeil a ->
  exists l, pause a attempt d log = log ++ l /\ requests is_post l = 0%nat /\ Forall (act_ok a form) l.
Proof.
  intros [_ Hb] Hd. assert (act_ok a form Checked) by (right; by left).
  unfold pause. destruct (ctx_Err log); eexists; (split; [done|]); (split; [done|]); [by apply Forall_singleton|].
  apply Forall_cons_2; [done|]. apply Forall_singleton. right. right. eexists. split; [done|]. destruct (d <=? 0) eqn:Ed; [|lia]. unfold fullJitter.
  set (c := if _ <? _ then _ else _). assert (c <= retryCeil a).
  { subst c. destruct (_ <? _) eqn:E; lia. }
  destruct (c <=? 0) eqn:E; [lia|]. pose proof (Int64N_range log c). lia.
Qed.

Definition posts_at_most (a : Adapter) (form : Values) (n : nat) (log : list Act)
    (res : (callResponse + error) * list Act) : Prop :=
  adds (act_ok a form) is_post n (exists env, res.1 = inl env) log res.2.

Lemma post_loop_bounded a form more attempt log :
  sane a -> posts_at_most a form (S more) log (post_loop more a form attempt log).
Proof.
  intros Ha. assert (Forall (act_ok a form) [Checked]) by (apply Forall_singleton; right; by left).
  revert attempt log. induction more as [|more IH]; intros attempt log; cbn [post_loop]; cbv zeta;
    (destruct (ctx_Err log);
      [apply (adds_others _ _ _ _ _ [Checked]); [done|done|apply adds_nothing; by intros []]|]);
    (apply (adds_others _ _ _ _ _ [Checked]); [done|done|]);
    (destruct (http_NewRequest _); [apply adds_nothing; by intros []|]); fold (request a form);
    (destruct (http_Do _) as [err|status header body]; [by apply adds_last; [left|]|]);
    (destruct (_ && _); [by apply adds_last; [left|]|]);
    (destruct (transient status); [|by apply adds_last; [left|]]).
  { by apply adds_last; [left|]. }
  edestruct (at_pause_acts a form) as (p & -> & Hp & Hf); [done|apply at_retryAfter_le; destruct Ha; lia|].
  eapply adds_request; [by left|done|]. eapply adds_others; [exact Hf|exact Hp|apply IH].
Qed.

(** Placing a call makes at most four requests, all equal, with pauses within
    the configured ceiling. *)
Lemma at_call_bounded cfg a form log :
  New cfg = inl a -> posts_at_most a form 4 log (postCall a form log).
Proof.
  intros Ha%at_New_sane. pose proof (post_loop_bounded a form (Z.to_nat (maxRetries a)) 0 log Ha) as (l & E & Hl & Hn & Hm).
  exists l. split_and!; [done|done| |done]. destruct Ha as [Ha _]. unfold maxRetriesCeiling in Ha. lia.
Qed.
End requests.

(** ** Histories of calls and callbacks *)

Section histories.
Context `{AtVoicePorts} `{Unicode} `{EventJSON}.
Variable a : Adapter.

Inductive call :=
| Place (cmd : CallCommand)
| Hang (ref : string)
| Move (ref destination : string)
| SetHeld (h : bool) (ref : string)
| Report (body : option string).

(** A call on the adapter, and the tables and platform state it leaves. *)
Definition run_call (c : call) (e : env) (w : State * st) : State * st :=
  match c with
  | Place cmd => ((PlaceCall a cmd w.1).2, w.2)
  | Hang ref => (Hangup a ref e w).2
  | Move ref dest => (Transfer a ref dest e w).2
  | SetHeld h ref => ((flip_held h ref w.1).2, w.2)
  | Report body => (StatusCallbackHandler a body e w).2
  end.

(** A carrier action that is safe to render: hangup, or a transfer to a plain number. *)
Definition plain_action (act : controlAction) : Prop :=
  ac_kind act = actionHangup
  \/ ac_kind act = actionTransfer
     /\ exists d, ac_destination act = "+" +:+ d /\ sforallb is_digit d = true /\ (7 <= String.length d <= 15)%nat.

Record leg_ok (k : string) (l : atLeg) : Prop := {
  lo_id : interactionID l = k;
  lo_named : trim_space k <> "";
  lo_tenant : tenantID l <> "";
  lo_held : ended l = true -> held l = false;
  lo_action : forall act, action l = Some act -> plain_action act;
}.

(** The tables after the calls [placed] were accepted. *)
Record tables_ok (placed : list CallCommand) (s : State) : Prop := {
  to_legs : forall k l, legs s !! k = Some l -> leg_ok k l
    /\ exists cmd, cmd ∈ placed /\ cc_InteractionID cmd = k /\ dict_str (cc_ProviderOptions cmd) "tenant_id" = tenantID l;
  to_sessions : forall sid id, sessions s !! sid = Some id -> is_Some (legs s !! id);
}.

(** What a leg keeps: its identity, and that it ended. *)
Definition same_leg (l l' : atLeg) : Prop :=
  interactionID l' = interactionID l /\ tenantID l' = tenantID l /\ sessionID l' = sessionID l
  /\ (ended l = true -> ended l' = true).

Definition legs_kept (s s' : State) : Prop :=
  forall k l, legs s !! k = Some l -> exists l', legs s' !! k = Some l' /\ same_leg l l'.

#[local] Instance legs_kept_refl : Reflexive legs_kept.
Proof. intros s k l Hl. by exists l. Qed.

#[local] Instance legs_kept_trans : Transitive legs_kept.
Proof.
  intros s1 s2 s3 H12 H23 k l Hl. destruct (H12 k l Hl) as (l' & Hl' & E1). destruct (H23 k l' Hl') as (l'' & Hl'' & E2).
  exists l''. split; [done|]. destruct E1 as (?&?&?&?), E2 as (?&?&?&?). split_and!; try congruence. auto.
Qed.

(** A write to a leg that keeps its identity and its shape. *)
Lemma on_leg_ok placed ref f s :
  (forall l, same_leg l (f l)) -> (forall k l, leg_ok k l -> leg_ok k (f l)) -> tables_ok placed s ->
  tables_ok placed (on_leg ref f s) /\ legs_kept s (on_leg ref f s).
Proof.
  intros Hsame Hok [Hl Hs]. split; [split|]; unfold on_leg; simpl.
  - intros k l. destruct (decide (k = ref)) as [->|Hne].
    + rewrite lookup_alter_eq. destruct (legs s !! ref) as [l0|] eqn:E; [|done]. simpl. intros [= <-].
      destruct (Hl _ _ E) as (Ho & cmd & Hp & Hi & Ht). split; [by apply Hok|]. exists cmd.
      destruct (Hsame l0) as (_ & -> & _). done.
    + rewrite lookup_alter_ne by done. apply Hl.
  - intros sid id Hid. apply lookup_alter_is_Some. by eapply Hs.
  - intros k l E. simpl. destruct (decide (k = ref)) as [->|Hne].
    + rewrite lookup_alter_eq, E. simpl. eauto.
    + rewrite lookup_alter_ne by done. by exists l.
Qed.

Lemma same_leg_refl l : same_leg l l.
Proof. done. Qed.

Lemma markEnded_ok placed ref s :
  tables_ok placed s -> tables_ok placed (markEnded ref s) /\ legs_kept s (markEnded ref s).
Proof.
  apply on_leg_ok; [done|]. intros k l []. by split.
Qed.

Lemma set_action_ok placed ref act s :
  (forall x, act = Some x -> plain_action x) -> tables_ok placed s ->
  tables_ok placed (on_leg ref (set_action act) s) /\ legs_kept s (on_leg ref (set_action act) s).
Proof. intros Ha. apply on_leg_ok; [done|]. intros k l []. by split. Qed.

Lemma set_transferred_ok placed ref dest s :
  tables_ok placed s -> tables_ok placed (on_leg ref (set_transferred dest) s) /\ legs_kept s (on_leg ref (set_transferred dest) s).
Proof. apply on_leg_ok; [done|]. intros k l []. by split. Qed.

Lemma flip_held_ok placed h ref s :
  tables_ok placed s -> tables_ok placed (flip_held h ref s).2 /\ legs_kept s (flip_held h ref s).2.
Proof.
  intros Hs. unfold flip_held, lookupLeg. destruct (legs s !! ref) as [l|] eqn:E; [|done].
  destruct (ended l) eqn:Ee; [done|]. cbn [snd]. destruct Hs as [Hl Hse]. split; [split|]; unfold on_leg; simpl.
  - intros k l'. destruct (decide (k = ref)) as [->|Hne]; [|rewrite lookup_alter_ne by done; apply Hl].
    rewrite lookup_alter_eq, E. intros [= <-]. destruct (Hl _ _ E) as ([] & Hp). split; [|done].
    split; try done. simpl. by rewrite Ee.
  - intros sid id Hid. apply lookup_alter_is_Some. by eapply Hse.
  - intros k l' El. simpl. destruct (decide (k = ref)) as [->|Hne].
    + rewrite lookup_alter_eq, El. simpl. eexists. by split.
    + rewrite lookup_alter_ne by done. by exists l'.
Qed.

Lemma normalizePhone_plain v n : normalizePhone v = inl n -> plain_action (MkControlAction actionTransfer n).
Proof.
  unfold normalizePhone. destruct (NormalizeIdentifier IdentPhone v) as [n'|] eqn:E; [|done]. intros [= ->].
  right. split; [done|]. eapply normalize_phone_shape; [by left|exact E].
Qed.

Lemma place_input_ok cmd id tenant fromN toN :
  place_input cmd = inl (id, tenant, fromN, toN) ->
  id = cc_InteractionID cmd /\ tenant = dict_str (cc_ProviderOptions cmd) "tenant_id"
  /\ trim_space id <> "" /\ tenant <> "".
Proof.
  unfold place_input. cbv zeta. destruct (is_empty (trim_space (cc_InteractionID cmd))) eqn:E1; [done|].
  destruct (is_empty (dict_str _ _)) eqn:E2; [done|]. destruct (is_empty (trim_space (cc_From _))); [done|].
  destruct (is_empty (trim_space (cc_To _))); [done|].
  destruct (normalizePhone (cc_From cmd)); [|done]. destruct (normalizePhone (cc_To cmd)); [|done].
  intros [= <- <- <- <-]. apply is_empty_false in E1, E2. done.
Qed.

Lemma place_ok placed cmd s r s' :
  PlaceCall a cmd s = (r, s') -> tables_ok placed s ->
  tables_ok (match r with None => placed ++ [cmd] | Some _ => placed end) s' /\ legs_kept s s'.
Proof.
  unfold PlaceCall, place_begin. destruct (place_input cmd) as [[[[id tenant] fromN] toN]|err] eqn:Ei;
    [|by intros [= <- <-]].
  destruct (legs s !! id) as [l0|] eqn:El; [by intros [= <- <-]|]. unfold place_finish.
  assert (forall log, legs_kept s (MkState (legs s) (sessions s) log)) as Hlog by (intros log k l Hk; by exists l).
  destruct (postCall _ _ _) as [[env|err] log]; [|intros [= <- <-] []; split; [by split|done]].
  destruct (accepted env toN) as [session|err]; intros [= <- <-] [Hl Hs]; [|split; [by split|done]].
  apply place_input_ok in Ei as (Hid & Ht & Hn & Hn').
  split; [split|]; unfold register_leg; simpl.
  - intros k l. destruct (decide (k = id)) as [->|Hne].
    + rewrite lookup_insert_eq. intros [= <-]. split; [by split|]. exists cmd. simpl. split_and!; [|done..].
      apply elem_of_app. right. by apply list_elem_of_singleton.
    + rewrite lookup_insert_ne by done. intros (Ho & c & Hc & Hi & Hte)%Hl. split; [done|]. exists c.
      split_and!; [|done..]. apply elem_of_app. by left.
  - intros sid k Hk. destruct (decide (k = id)) as [->|Hne]; [rewrite lookup_insert_eq; by eexists|].
    rewrite lookup_insert_ne by done. apply (Hs sid). destruct (is_empty session); [done|].
    destruct (decide (sid = session)) as [->|Hs']; [rewrite lookup_insert_eq in Hk; congruence|].
    by rewrite lookup_insert_ne in Hk.
  - intros k l Hk. simpl. destruct (decide (k = id)) as [->|Hne]; [congruence|].
    rewrite lookup_insert_ne by done. by exists l.
Qed.

Lemma route_leg cb s id l :
  routeCallback cb s = Some (id, l) ->
  legs s !! id = Some l /\ (cb_ClientRequestID cb = id \/ sessions s !! cb_SessionID cb = Some id).
Proof.
  unfold routeCallback. set (by_session := if is_empty (cb_SessionID cb) then None else _).
  assert (by_session = Some (id, l) ->
    legs s !! id = Some l /\ (cb_ClientRequestID cb = id \/ sessions s !! cb_SessionID cb = Some id)) as Hb.
  { subst by_session. destruct (is_empty (cb_SessionID cb)); [done|].
    destruct (sessions s !! cb_SessionID cb) as [k|]; [|done]. destruct (legs s !! k) eqn:E; [|done].
    intros [= <- <-]. auto. }
  destruct (is_empty (cb_ClientRequestID cb)); [done|].
  destruct (legs s !! cb_ClientRequestID cb) eqn:E; [|done]. intros [= <- <-]. auto.
Qed.

(** A write to a leg does not change where callbacks go. *)
Lemma route_on_leg k f cb s :
  routeCallback cb (on_leg k f s)
  = (fun p => (p.1, if decide (p.1 = k) then f p.2 else p.2)) <$> routeCallback cb s.
Proof.
  assert (forall i, alter f k (legs s) !! i = (fun l => if decide (i = k) then f l else l) <$> legs s !! i) as Halt.
  { intros i. destruct (decide (i = k)) as [->|Hne]; [by rewrite lookup_alter_eq|].
    rewrite lookup_alter_ne by done. by destruct (legs s !! i). }
  unfold routeCallback, on_leg. cbn [legs sessions].
  destruct (is_empty (cb_ClientRequestID cb)); rewrite ?Halt; [|destruct (legs s !! cb_ClientRequestID cb); [done|]; simpl];
    (destruct (is_empty (cb_SessionID cb)); [done|]); (destruct (sessions s !! cb_SessionID cb) as [i|]; [|done]);
    rewrite Halt; by destruct (legs s !! i).
Qed.

(** A callback is refused and nothing happens, or it is a leg's: its event is
    delivered, and a terminal status ends the leg. *)
Lemma callback_cases body e w r w' :
  HandleStatusCallback a body e w = (r, w') ->
  (w' = w /\ is_Some r)
  \/ exists cb id l ev, json_StatusCallback body = inl cb /\ routeCallback cb w.1 = Some (id, l)
     /\ TranslateStatus (Some cb) (interactionID l) (tenantID l) = inl ev /\ (r, w'.2) = deliver a ev e w.2
     /\ w'.1 = if IsTerminal (cb_Status cb) then markEnded id w.1 else w.1.
Proof.
  unfold HandleStatusCallback. destruct (json_StatusCallback body) as [cb|err]; [|intros [= <- <-]; left; by split].
  destruct (routeCallback cb w.1) as [[id l]|] eqn:Er; [|intros [= <- <-]; left; by split].
  destruct (TranslateStatus _ _ _) as [ev|err] eqn:Et; [|intros [= <- <-]; left; by split].
  destruct (deliver a ev e w.2) as [r0 p] eqn:Ed. intros [= <- <-]. right. by exists cb, id, l, ev.
Qed.

Lemma run_call_ok placed c e w :
  tables_ok placed w.1 ->
  tables_ok (match c with
             | Place cmd => match (PlaceCall a cmd w.1).1 with None => placed ++ [cmd] | Some _ => placed end
             | _ => placed
             end) (run_call c e w).1
  /\ legs_kept w.1 (run_call c e w).1.
Proof.
  intros Hw. destruct c as [cmd|ref|ref dest|h ref|body]; cbn [run_call].
  - destruct (PlaceCall a cmd w.1) as [r s'] eqn:E. by eapply place_ok.
  - unfold Hangup. destruct (lookupLeg ref w.1) as [l|]; [|done]. destruct (ended l); [done|].
    destruct (markEnded_ok placed ref w.1 Hw) as [Hm Hk]. unfold queueAction.
    destruct (set_action_ok placed ref (Some (MkControlAction actionHangup "")) (markEnded ref w.1)) as [Hm' Hk'].
    { intros x [= <-]. by left. } { done. }
    destruct (deliver _ _ _ _). simpl. split; [done|]. by etrans.
  - unfold Transfer. destruct (is_empty _); [done|]. destruct (normalizePhone dest) as [n|] eqn:En; [|done].
    destruct (lookupLeg ref w.1) as [l|]; [|done]. destruct (ended l); [done|].
    destruct (set_transferred_ok placed ref n w.1 Hw) as [Hm Hk]. unfold queueAction.
    destruct (set_action_ok placed ref (Some (MkControlAction actionTransfer n)) (on_leg ref (set_transferred n) w.1)) as [Hm' Hk'].
    { intros x [= <-]. by eapply normalizePhone_plain. } { done. }
    destruct (deliver _ _ _ _). simpl. split; [done|]. by etrans.
  - by apply flip_held_ok.
  - unfold StatusCallbackHandler. destruct body as [body|]; [|done].
    destruct (HandleStatusCallback _ _ _ _) as [err w'] eqn:Eh.
    assert (tables_ok placed w'.1 /\ legs_kept w.1 w'.1) as [Hm Hk].
    { destruct (callback_cases _ _ _ _ _ Eh) as [[-> _]|(cb & id & l & ev & _ & _ & _ & _ & ->)]; [done|].
      destruct (IsTerminal _); [by apply markEnded_ok|done]. }
    destruct err; [done|]. destruct (json_StatusCallback _) as [cb|]; [|done].
    destruct (routeCallback cb w'.1) as [[id l]|]; [|done]. cbn [drainAction snd fst].
    destruct (set_action_ok placed id None w'.1) as [Hm' Hk']; [done..|]. split; [done|]. by etrans.
Qed.

(** A history: the commands accepted so far, and the tables. *)
Fixpoint run (cs : list (call * env)) (placed : list CallCommand) (w : State * st) : list CallCommand * (State * st) :=
  match cs with
  | [] => (placed, w)
  | (c, e) :: cs =>
      run cs (match c with
              | Place cmd => match (PlaceCall a cmd w.1).1 with None => placed ++ [cmd] | Some _ => placed end
              | _ => placed
              end) (run_call c e w)
  end.

Lemma run_ok cs placed w placed' w' :
  run cs placed w = (placed', w') -> tables_ok placed w.1 -> tables_ok placed' w'.1 /\ legs_kept w.1 w'.1.
Proof.
  revert placed w. induction cs as [|[c e] cs IH]; intros placed w; cbn [run]; [by intros [= <- <-]|].
  intros E Hw. destruct (run_call_ok placed c e w Hw) as [Hm Hk].
  destruct (IH _ _ E Hm) as [Hm' Hk']. split; [done|]. by etrans.
Qed.

Lemma tables_ok_empty log : tables_ok [] (MkState ∅ ∅ log).
Proof. split; simpl; intros ? ?; by rewrite lookup_empty. Qed.

(** C34. A report of the carrier reaches the interaction and the tenant of a call
    that was accepted, or nothing at all: after every history of calls, actions
    and callbacks, whatever the carrier answered, a callback is refused without
    any effect, or it names the interaction or the session of an accepted
    command, the event delivered carries that command's interaction and tenant
    and the translated status, and a terminal status ends that leg. *)
Theorem at_callbacks_belong cs log p0 placed w body e r w' :
  run cs [] (MkState ∅ ∅ log, p0) = (placed, w) -> HandleStatusCallback a body e w = (r, w') ->
  (w' = w /\ is_Some r)
  \/ exists cb cmd ev, json_StatusCallback body = inl cb /\ cmd ∈ placed
     /\ (cb_ClientRequestID cb = cc_InteractionID cmd \/ sessions w.1 !! cb_SessionID cb = Some (cc_InteractionID cmd))
     /\ ev_InteractionID ev = cc_InteractionID cmd
     /\ ev_TenantID ev = dict_str (cc_ProviderOptions cmd) "tenant_id"
     /\ status_event cb = Some (ev_Event ev, ev_Detail ev) /\ (r, w'.2) = deliver a ev e w.2
     /\ (IsTerminal (cb_Status cb) = true ->
         exists l, legs w'.1 !! cc_InteractionID cmd = Some l /\ ended l = true /\ held l = false).
Proof.
  intros Er Eh. destruct (run_ok _ _ _ _ _ Er (tables_ok_empty log)) as [Hw _].
  destruct (callback_cases _ _ _ _ _ Eh) as [Hn|(cb & id & l & ev & Hj & Hr & Ht & Hd & Hs)]; [by left|right].
  apply route_leg in Hr as [Hl Hkey]. destruct (to_legs _ _ Hw _ _ Hl) as (Ho & cmd & Hc & Hi & Hte).
  exists cb, cmd, ev. destruct Ho as [Hid Hnm Htn Hh Ha].
  unfold TranslateStatus in Ht. destruct (_ || _); [done|].
  destruct (status_event cb) as [[event detail]|]; [|done]. injection Ht as <-. simpl.
  split_and!; [done|done|by rewrite Hi|congruence|done|done|done|].
  intros Hterm. rewrite Hterm in Hs. rewrite Hs, Hi. unfold markEnded, on_leg. simpl. rewrite lookup_alter_eq, Hl.
  by eexists.
Qed.

(** The action queued on a leg rides the answer to its next accepted callback,
    once: the answer is rendered from it, and the leg has none afterwards. *)
Lemma action_rides_next_callback body e w text w' :
  StatusCallbackHandler a (Some body) e w = ((200, text), w') ->
  (exists err w1, HandleStatusCallback a (stake (Z.to_nat callbackBodyLimit) body) e w = (Some err, w1))
  \/ exists id l l', legs w.1 !! id = Some l /\ legs w'.1 !! id = Some l'
     /\ text = renderAction (action l) /\ action l' = None.
Proof.
  unfold StatusCallbackHandler. destruct (HandleStatusCallback _ _ _ _) as [err w1] eqn:Eh.
  destruct err as [err|]; [intros _; left; eauto|]. intros E. right.
  destruct (callback_cases _ _ _ _ _ Eh) as [[_ []]|(cb & id & l & ev & Hj & Hr & Ht & Hd & Hs)]; [done|].
  rewrite Hj in E. pose proof Hr as Hr0. apply route_leg in Hr0 as [Hl _].
  assert (exists l1, routeCallback cb w1.1 = Some (id, l1) /\ legs w1.1 !! id = Some l1 /\ action l1 = action l) as (l1 & Er & El1 & Ea).
  { rewrite Hs. destruct (IsTerminal _); [|by exists l].
    exists (set_ended l). split_and!; [|unfold markEnded, on_leg; simpl; by rewrite lookup_alter_eq, Hl|done].
    unfold markEnded. rewrite route_on_leg, Hr. simpl. by rewrite decide_True. }
  rewrite Er in E. cbn [drainAction] in E. injection E as <- <-. exists id, l, (set_action None l1).
  split_and!; [done| |by rewrite El1, Ea|done]. unfold on_leg. simpl. by rewrite lookup_alter_eq, El1.
Qed.

(** The document of a transfer dials the normalized number and nothing else. *)
Lemma transfer_document dest n :
  normalizePhone dest = inl n ->
  exists d, n = "+" +:+ d /\ sforallb is_digit d = true
    /\ renderAction (Some (MkControlAction actionTransfer n))
       = renderAction (Some (MkControlAction actionTransfer ("+" +:+ d))).
Proof.
  intros Hn. apply normalizePhone_plain in Hn as [Hk|(_ & d & Hd & Hf & _)]; [done|]. simpl in Hd. subst n. by exists d.
Qed.

(** When the ended event of a hangup could not be delivered, hanging up again
    succeeds without delivering it. *)
Lemma hangup_event_lost ref e w err w' e' :
  Hangup a ref e w = (Some err, w') -> is_Some (lookupLeg ref w.1) -> Hangup a ref e' w' = (None, w').
Proof.
  unfold Hangup, lookupLeg. intros E [l Hl]. rewrite Hl in E. destruct (ended l); [done|].
  destruct (deliver _ _ _ _) as [r p]. injection E as -> <-. unfold queueAction, markEnded, on_leg. simpl.
  rewrite !lookup_alter_eq, Hl. done.
Qed.

End histories.

(** ** Examples *)

(** A carrier that queues every call under one session and reports it
    completed. *)
Definition at_ports : AtVoicePorts := {|
  json_callResponse _ := inl (MkCallResponse "None" [MkCallEntry "+254700000002" "S1" "Queued" "None" ""]);
  json_callResponse_loose _ := MkCallResponse "" [];
  json_StatusCallback _ := inl (MkStatusCallback "S1" "" "" "Completed" "NORMAL_CLEARING" 0 "");
  http_NewRequest _ := None;
  http_Do _ := Response 201 "" "{}";
  ctx_Err _ := None;
  rand_Int64N _ _ := 0;
  rfc3339_valid _ := true;
|}.

Definition demo_at : Adapter :=
  MkAdapter "orvexa" "key" "https://voice.africastalking.com" (fun _ _ _ _ s => (None, s)) (fun _ => "sig") 3 1 1.

#[local] Instance demo_json : EventJSON := {| json_event ev := inl (ev_Event ev); rfc3339nano := itoa |}.
#[local] Instance demo_lower : Unicode := {| unicode_ToLower := to_lower |}.

Definition demo_call : CallCommand := MkCallCommand "i1" "+254700000001" "0700 000 002" [("tenant_id", VStr "t1")].

Definition demo_db : st := MkSt empty_db None 0.

Lemma at_callbacks_belong_witness :
  let w := (run (H := at_ports) demo_at [(Place demo_call, env0)] [] (MkState ∅ ∅ [], demo_db)) in
  let h := HandleStatusCallback (H := at_ports) demo_at "{}" env0 w.2 in
  w.1 = [demo_call]
  /\ ((h.2 = w.2 /\ is_Some h.1)
     \/ exists cb cmd ev, json_StatusCallback (AtVoicePorts := at_ports) "{}" = inl cb /\ cmd ∈ w.1
     /\ (cb_ClientRequestID cb = cc_InteractionID cmd \/ sessions w.2.1 !! cb_SessionID cb = Some (cc_InteractionID cmd))
     /\ ev_InteractionID ev = cc_InteractionID cmd
     /\ ev_TenantID ev = dict_str (cc_ProviderOptions cmd) "tenant_id"
     /\ status_event cb = Some (ev_Event ev, ev_Detail ev) /\ (h.1, h.2.2) = deliver demo_at ev env0 w.2.2
     /\ (IsTerminal (cb_Status cb) = true ->
         exists l, legs h.2.1 !! cc_InteractionID cmd = Some l /\ ended l = true /\ held l = false)).
Proof.
  cbv zeta. split; [vm_compute; reflexivity|].
  apply (at_callbacks_belong (H := at_ports) demo_at [(Place demo_call, env0)] [] demo_db _ _ "{}" env0);
    [apply surjective_pairing|apply surjective_pairing].
Defined.

(** The lookup of a duplicate and the registration are apart: two calls of one
    interaction that both passed the lookup both reach the carrier, although
    one after the other the second is refused. *)
Lemma concurrent_calls_both_dial :
  let begin := place_begin demo_call in
  let finish := place_finish (H := at_ports) demo_at in
  exists p, begin (MkState ∅ ∅ []) = inl p
    /\ (let s := (finish p (finish p (MkState ∅ ∅ [])).2) in s.1 = None /\ requests is_post (trace s.2) = 2%nat)
    /\ (PlaceCall (H := at_ports) demo_at demo_call (finish p (MkState ∅ ∅ [])).2).1 <> None.
Proof. eexists. split; [vm_compute; reflexivity|]. by vm_compute. Qed.

(** A report that comes before the call is registered is refused for good. *)
Lemma early_report_refused :
  exists err, HandleStatusCallback (H := at_ports) demo_at "{}" env0 (MkState ∅ ∅ [], demo_db)
              = (Some (AppErr err), (MkState ∅ ∅ [], demo_db)) /\ ErrKind err = KindNotFound.
Proof. by eexists. Qed.
