(* ===== verification/TwilioVoiceProps.v ===== *)
(** * Properties of the Twilio voice adapter

    Requests are bounded; the sender the planes fill in is refused by both
    Twilio adapters; the callback URL of a call routes its statuses. *)

From Stdlib Require Import String Ascii.
From S2P Require Import Prelude GoStd AppErrors Events Store Sql Wp Comms Text Regexp UrlQuery Interactions.
From S2P Require Import CommsRegistry Planes TwilioVoice.
From S2P Require TwilioSms AtVoice.

Local Open Scope Z_scope.

(** ** The sender the planes fill in *)

Lemma wpw_lift_any {P A} (m : M A) e (p : P) s (Q : A + error -> P * st -> Prop) :
  (forall a s', Q (inl a) (p, s')) -> (forall x s', Q (inr x) (p, s')) -> wpw (lift m) e (p, s) Q.
Proof. intros H1 H2. apply wpw_lift. unfold wp. destruct (m e s) as [[a|x] s']; auto. Qed.

(** A failure that left the carrier's adapter alone. *)
Definition failed_untouched {P A} (p : P) (r : A + error) (w : P * st) : Prop :=
  (exists x, r = inr x) /\ w.1 = p.

(** A carrier that fails commands of some kind without doing anything. *)
Definition refuses_calls `{VoiceProvider P} (K : CallCommand -> Prop) : Prop :=
  forall cmd e w, K cmd -> exists err, vp_PlaceCall cmd e w = (Some err, w).

Definition refuses_messages `{MessagingProvider P} (K : Message -> Prop) : Prop :=
  forall msg e w, K msg -> exists err, mp_Send msg e w = (Some err, w).

Lemma default_call_fails `{VoiceProvider P} source tenant i e (p : P) db :
  refuses_calls (fun cmd => cc_From cmd = "orvexa-voice") -> pc_From i = "" ->
  wpw (Planes.PlaceCall source tenant i) e (p, db) (failed_untouched p).
Proof.
  intros Hr Hi. unfold Planes.PlaceCall. rewrite Hi. wpw_step; [by wpw_step; split; [eexists|]|].
  wpw_step; [by wpw_step; split; [eexists|]|]. cbn [is_empty]. cbv zeta. wpw_step.
  apply wpw_lift_any; [intros rec s1|by intros; split; [eexists|]]. wpw_step.
  match goal with |- wpw ?x _ _ ?Q => enough (forall rec s', Q (inl rec) (p, s') /\ forall y, Q (inr y) (p, s')) as HQ end.
  { wpw_step; [apply wpw_lift_any|wpw_step]; intros; by apply HQ. }
  intros rec' s2. split; [|by intros y; split; [eexists|]].
  wpw_step. wpw_step.
  match goal with |- context [vp_PlaceCall ?c ?e ?w] => destruct (Hr c e w) as [err ->]; [done|] end.
  wpw_step. wpw_step. apply wpw_lift_any; intros; wpw_step; by split; [eexists|].
Qed.

Lemma default_message_fails `{Unicode} `{MessagingProvider P} source tenant j e (p : P) db :
  refuses_messages (fun msg => msg_From msg = defaultSender) -> trim_space (si_From j) = "" ->
  wpw (Planes.Send source tenant j) e (p, db) (failed_untouched p).
Proof.
  intros Hr Hj. unfold Planes.Send, effectiveSender. rewrite Hj. cbn [is_empty String.eqb]. cbv zeta. wpw_step.
  apply wpw_lift_any; [intros rec s1|by intros; split; [eexists|]].
  wpw_step; wpw_step.
  { wpw_step. apply wpw_lift_any; intros; wpw_step; by split; [eexists|]. }
  apply wpw_lift_any; [intros rec' s2|by intros; split; [eexists|]].
  wpw_step. wpw_step.
  match goal with |- context [mp_Send ?c ?e ?w] => destruct (Hr c e w) as [err ->]; [done|] end.
  wpw_step. wpw_step. apply wpw_lift_any; intros; wpw_step; by split; [eexists|].
Qed.

Section default_sender.
Context `{Unicode} `{VoicePorts} `{TwilioSms.TwPorts} `{AtVoice.AtVoicePorts} `{EventJSON}.

Lemma twilio_refuses_default_caller a :
  refuses_calls (H := twilio_voice a) (fun cmd => cc_From cmd = "orvexa-voice").
Proof.
  intros cmd e [s db] Hf. cbn [vp_PlaceCall twilio_voice]. unfold rest, PlaceCall, place_checks. rewrite Hf. cbn [fst snd].
  destruct (is_empty _); [by eexists|]. destruct (is_empty _); [by eexists|]. by eexists.
Qed.

Lemma at_refuses_default_caller a :
  refuses_calls (H := AtVoice.at_voice a) (fun cmd => cc_From cmd = "orvexa-voice").
Proof.
  intros cmd e [s db] Hf. cbn [vp_PlaceCall AtVoice.at_voice]. unfold AtVoice.PlaceCall, AtVoice.place_begin.
  cbn [fst snd]. enough (exists err, AtVoice.place_input cmd = inr err) as [err ->] by by eexists.
  unfold AtVoice.place_input. rewrite Hf. repeat (destruct (is_empty _); [by eexists|]).
  by eexists.
Qed.

Lemma twilio_refuses_default_sender a :
  refuses_messages (H := TwilioSms.twilio_messaging a) (fun msg => msg_From msg = defaultSender).
Proof.
  intros msg e [s db] Hf. cbn [mp_Send TwilioSms.twilio_messaging fst snd].
  enough (exists err, TwilioSms.Send a msg s = (Some (AppErr err), s)) as [err ->] by by eexists.
  unfold TwilioSms.Send, TwilioSms.prepare, TwilioSms.sender. rewrite Hf.
  destruct (ValidateMessage msg) as [err|]; [by eexists|]. destruct (is_empty _); [by eexists|]. by eexists.
Qed.

(** C33. Calls and messages that name no sender fail on three of the four
    adapters. The planes put a word of their own in its place ("orvexa-voice",
    "orvexa-messaging"), which neither Twilio adapter nor the Africa's Talking
    voice adapter takes for a number: every call placed over these two voice
    adapters and every message sent over Twilio without a From fails, in every
    environment and whatever the adapter's configuration, and no request is
    made; the configured sending number is not used. Africa's Talking SMS is not
    among them: it hands the word to the carrier as the sender
    ([AtSms.default_sender_handed_on]). *)
Theorem carriers_refuse_default_sender source tenant a b (i : PlaceCallInput) m (j : SendInput) e sa sb sm db :
  pc_From i = "" -> trim_space (si_From j) = "" ->
  wpw (Planes.PlaceCall source (H := twilio_voice a) tenant i) e (sa, db) (failed_untouched sa)
  /\ wpw (Planes.PlaceCall source (H := AtVoice.at_voice b) tenant i) e (sb, db) (failed_untouched sb)
  /\ wpw (Planes.Send source (H := TwilioSms.twilio_messaging m) tenant j) e (sm, db) (failed_untouched sm).
Proof.
  intros Hi Hj. split_and!; [apply default_call_fails..|apply default_message_fails];
    auto using twilio_refuses_default_caller, at_refuses_default_caller, twilio_refuses_default_sender.
Qed.
End default_sender.

(** ** The requests of an operation *)

Definition is_post (x : Act) : bool := match x with Posted _ _ _ _ => true | _ => false end.

Section requests.
Context `{VoicePorts}.

Definition request (c : client) (path : string) (form : Values) : Act :=
  Posted (baseURL c +:+ path) (accountSID c) (authToken c) (Encode form).

Definition act_ok (c : client) (path : string) (form : Values) (x : Act) : Prop :=
  x = request c path form \/ exists t, x = Slept t /\ t <= maxRetryAfter.

Lemma parseRetryAfter_le h d : parseRetryAfter h = Some d -> d <= maxRetryAfter.
Proof.
  unfold parseRetryAfter. destruct (is_empty _); [done|]. destruct (atoi _) as [z|]; [|done].
  destruct (_ <=? 0); [done|]. cbv zeta. destruct (_ <? _) eqn:E; intros [= <-]; [done|lia].
Qed.

Lemma sleepBackoff_le base attempt hint log r log' :
  (forall d, hint = Some d -> d <= maxRetryAfter) -> sleepBackoff base attempt hint log = (r, log') ->
  (exists err, r = Some err /\ log' = log) \/ exists d, r = None /\ log' = log ++ [Slept d] /\ d <= maxRetryAfter.
Proof.
  intros Hd. unfold sleepBackoff. cbv zeta. destruct (interrupted log) as [err|]; intros [= <- <-]; [left; eauto|].
  right. eexists. split_and!; [done..|]. destruct hint as [d|]; [by apply Hd|]. simpl.
  unfold maxRetryAfter, maxBackoffDelay, Second, Millisecond. destruct (_ <? _) eqn:E; lia.
Qed.

(** What an operation of at most [n] requests does. *)
Definition sends c path form (n : nat) (log : list Act) (res : (callResource + error) * list Act) : Prop :=
  adds (act_ok c path form) is_post n (exists cr, res.1 = inl cr) log res.2.

Lemma voice_post_loop_ok c path form more attempt log :
  sends c path form (S more) log (post_loop more c path form attempt log).
Proof.
  assert (act_ok c path form (request c path form)) as Hreq by by left.
  assert (forall n log r, sends c path form (S n) log (r, log ++ [request c path form])) as Hlast
    by (intros; by apply adds_last).
  revert attempt log. induction more as [|more IH]; intros attempt log; cbn [post_loop]; cbv zeta;
    (destruct (http_NewRequest _); [apply adds_nothing; by intros []|]); fold (request c path form).
  { destruct (http_Do _) as [err|err|status header body]; [apply Hlast..|].
    destruct (_ && _); [apply Hlast|]. destruct (negb _); apply Hlast. }
  assert (forall hint, (forall d, hint = Some d -> d <= maxRetryAfter) ->
    sends c path form (S (S more)) log
      (let '(r, log0) := sleepBackoff (retryBase c) attempt hint (log ++ [request c path form]) in
       match r with
       | Some err => (inr err, log0)
       | None => post_loop more c path form (attempt + 1) log0
       end)) as Hagain.
  { intros hint Hh. destruct (sleepBackoff _ _ _ _) as [r log0] eqn:E.
    destruct (sleepBackoff_le _ _ _ _ _ _ Hh E) as [(err & -> & ->)|(d & -> & -> & Hd)]; [apply Hlast|].
    eapply adds_request; [done|done|]. eapply (adds_others _ _ _ _ _ [Slept d]); [|done|apply IH].
    apply Forall_singleton. right. by exists d. }
  destruct (http_Do _) as [err|err|status header body]; [by apply Hagain..|].
  destruct (_ && _); [apply Hlast|]. destruct (negb _); [apply Hlast|].
  apply Hagain, parseRetryAfter_le.
Qed.

(** An operation makes at most four requests, all equal, and pauses five
    seconds at most before each retry; it has made one when it succeeds. *)
Lemma voice_requests_bounded c path form log : sends c path form 4 log (post c path form log).
Proof. apply voice_post_loop_ok. Qed.
End requests.

(** ** Status callbacks find their call *)

(** The raw query of a callback URL over a base with raw query [q0]. *)
Definition callback_query (q0 : option string) (i t : string) : string :=
  match q0 with Some q => q +:+ "&" | None => "" end
    +:+ encode_pair ("interaction", i) +:+ "&" +:+ encode_pair ("tenant", t).

Lemma split_ne s c : split s c <> [].
Proof. destruct s as [|a s]; simpl; [done|]. destruct (Ascii.eqb a c); [done|]. by destruct (split s c). Qed.

Lemma split_cat a b c : split (a ++ String c b) c = split a c ++ split b c.
Proof.
  induction a as [|x a IH]; simpl; [by rewrite Ascii.eqb_refl|].
  destruct (Ascii.eqb x c); [by rewrite IH|]. rewrite IH.
  pose proof (split_ne a c). by destruct (split a c).
Qed.

Lemma callback_query_values q0 i t :
  URL_Query (callback_query q0 i t)
  = Values_Add (Values_Add (URL_Query (default "" q0)) "interaction" i) "tenant" t.
Proof.
  set (p1 := encode_pair ("interaction", i)). set (p2 := encode_pair ("tenant", t)).
  assert (split (p1 ++ String "&" p2) "&" = [p1; p2]) as Hs.
  { rewrite split_app by (apply encode_pair_has; [by left|done]).
    by rewrite split_none by (apply encode_pair_has; [by left|done]). }
  unfold URL_Query, callback_query. fold p1 p2. change (p1 +:+ "&" +:+ p2) with (p1 ++ String "&" p2)%string.
  assert (forall v, fold_left add_setting [p1; p2] v = Values_Add (Values_Add v "interaction" i) "tenant" t) as Hf.
  { intros v. cbn [fold_left]. unfold p1, p2. by rewrite !add_setting_encode_pair. }
  destruct q0 as [q|].
  - rewrite sapp_assoc. change ("&" +:+ (p1 ++ String "&" p2))%string with (String "&" (p1 ++ String "&" p2)).
    change (q +:+ String "&" (p1 ++ String "&" p2)) with (q ++ String "&" (p1 ++ String "&" p2))%string.
    rewrite split_cat, fold_left_app, Hs. apply Hf.
  - change ("" +:+ (p1 ++ String "&" p2))%string with (p1 ++ String "&" p2)%string. rewrite Hs. apply Hf.
Qed.

Lemma cut_Some_eq s c h t : cut s c = (h, Some t) -> s = (h ++ String c t)%string /\ has_byte s c = true.
Proof.
  revert h t. induction s as [|a s IH]; simpl; [done|]. intros h t. destruct (Ascii.eqb_spec a c) as [->|Hne].
  - by intros [= <- <-].
  - destruct (cut s c) as [h' [t'|]]; [|done]. intros [= <- <-]. destruct (IH h' t' eq_refl) as [-> ->]. done.
Qed.

Lemma cut_None_eq s c h : cut s c = (h, None) -> s = h /\ has_byte s c = false.
Proof.
  revert h. induction s as [|a s IH]; simpl; [by intros h [= <-]|]. intros h. destruct (Ascii.eqb a c); [done|].
  destruct (cut s c) as [h' [t'|]]; [done|]. intros [= <-]. destruct (IH h' eq_refl) as [-> ->]. done.
Qed.

Lemma callbackURL_query base p q0 i t :
  cut base "?" = (p, q0) -> callbackURL base i t = (p ++ "?" ++ callback_query q0 i t)%string.
Proof.
  intros E. unfold callbackURL, querySep, callback_query. destruct q0 as [q|].
  - apply cut_Some_eq in E as [-> ->]. unfold encode_pair. cbn [fst snd].
    change (String "?" q) with ("?" ++ q)%string. rewrite !sapp_assoc. reflexivity.
  - apply cut_None_eq in E as [-> ->]. unfold encode_pair. cbn [fst snd]. rewrite !sapp_assoc. reflexivity.
Qed.

(** A status the carrier posts to the callback URL of a call translates to an
    event of that call and tenant, whatever the form carries under those names
    and whatever the base URL, as long as its query does not use them. *)
Lemma call_callback_routes `{Unicode} base p q0 i t form event detail :
  cut base "?" = (p, q0) ->
  (forall k, k ∈ ["interaction"; "tenant"; fieldCallStatus; fieldCallbackTime] -> URL_Query (default "" q0) !! k = None) ->
  trim_space i <> "" -> trim_space t = t ->
  native_event (ToLower (trim_space (Values_Get form fieldCallStatus))) = Some (event, detail) ->
  callbackURL base i t = (p ++ "?" ++ callback_query q0 i t)%string
  /\ TranslateStatusCallback (mergeForm (URL_Query (callback_query q0 i t)) form)
     = Some (MkProviderEvent event i t (trim_space (Values_Get form fieldCallbackTime)) detail).
Proof.
  unfold fieldCallStatus, fieldCallbackTime. intros Hc Hb Hi Ht Hev. split; [by apply callbackURL_query|].
  rewrite callback_query_values. set (q := URL_Query (default "" q0)) in *.
  set (m := mergeForm _ form).
  assert (forall k, k ∈ ["CallStatus"; "Timestamp"] -> Values_Get m k = Values_Get form k) as Hk.
  { intros k Hk. unfold m, Values_Get, mergeForm, Values_Add.
    assert (q !! k = None) as Hq by (apply Hb; set_solver).
    rewrite lookup_merge, !lookup_insert_ne, Hq by (intros <-; set_solver). by destruct (form !! k). }
  assert (Values_Get m fieldInteraction = i /\ Values_Get m fieldTenant = t) as [Hgi Hgt].
  { unfold m, Values_Get, mergeForm, Values_Add. rewrite !lookup_merge. unfold fieldInteraction, fieldTenant.
    rewrite (lookup_insert_ne _ "tenant" "interaction") by done. rewrite !lookup_insert_eq.
    rewrite lookup_insert_ne by done. rewrite (Hb "interaction"), (Hb "tenant") by set_solver. simpl.
    by destruct (form !! "interaction"), (form !! "tenant"). }
  unfold TranslateStatusCallback, fieldCallStatus, fieldCallbackTime. rewrite (Hk "CallStatus"), (Hk "Timestamp"), Hgi, Hgt, Ht by set_solver.
  destruct (is_empty (ToLower _)) eqn:Ee.
  { apply String.eqb_eq in Ee. by rewrite Ee in Hev. }
  rewrite Hev. cbn [firstNonEmpty]. by rewrite (proj2 (is_empty_false (trim_space i)) Hi).
Qed.

(** ** Examples *)

(** A carrier that accepts every call and message; parsing fails. *)
Definition voice_ports (answer : list Act -> Outcome) : VoicePorts := {|
  json_callResource _ := inl (MkCallResource "CA1" "queued");
  json_apiError _ := None;
  http_NewRequest _ := None;
  http_Do := answer;
  interrupted _ := None;
  rand_Int _ _ := 0;
|}.

Definition message_ports : TwilioSms.TwPorts := {|
  TwilioSms.url_Parse _ := None;
  TwilioSms.url_String _ := "";
  TwilioSms.json_twilioError _ := None;
  TwilioSms.http_NewRequest _ := None;
  TwilioSms.http_Do _ := TwilioSms.Response 201 "" "";
  TwilioSms.ctx_Err _ := None;
  TwilioSms.rand_Int64N _ _ := 0;
|}.

#[local] Instance latin : Unicode := {| unicode_ToLower := to_lower |}.

Definition demo_voice : Adapter :=
  New (MkConfig "AC1" "tok" "" "https://orvexa.example/twiml" "https://orvexa.example/cb?env=prod" "" "" 0) None None.

Definition demo_message : TwilioSms.Adapter :=
  TwilioSms.MkAdapter "AC1" "tok" "+254700000001" "https://api.twilio.com" "" false false 3 1 1.


#[local] Instance no_json : EventJSON := {| json_event _ := inl ""; rfc3339nano := itoa |}.

Definition silent_call : PlaceCallInput := MkPlaceCallInput "c1" "" "+254700000002" "" "" [].
Definition silent_message : SendInput := MkSendInput "c1" "sms" " " "+254700000002" "hello" [].

Lemma carriers_refuse_default_sender_witness :
  trim_space " " = ""
  /\ wpw (Planes.PlaceCall "orvexa" (H := twilio_voice (H := voice_ports (fun _ => Response 201 "" "{}")) demo_voice)
           "t1" silent_call) env0 (MkState ∅ [], MkSt empty_db None 0) (failed_untouched (MkState ∅ []))
  /\ wpw (Planes.PlaceCall "orvexa" (H := AtVoice.at_voice (H := AtVoice.at_ports) AtVoice.demo_at) "t1" silent_call) env0
       (AtVoice.MkState ∅ ∅ [], MkSt empty_db None 0) (failed_untouched (AtVoice.MkState ∅ ∅ []))
  /\ wpw (Planes.Send "orvexa" (H := TwilioSms.twilio_messaging (H0 := message_ports) demo_message)
           "t1" silent_message) env0
       (TwilioSms.MkState ∅ [], MkSt empty_db None 0) (failed_untouched (TwilioSms.MkState ∅ [])).
Proof.
  split; [reflexivity|].
  apply (carriers_refuse_default_sender (H0 := voice_ports (fun _ => Response 201 "" "{}")) (H1 := message_ports)
    (H2 := AtVoice.at_ports) "orvexa" "t1" demo_voice AtVoice.demo_at silent_call demo_message silent_message); reflexivity.
Defined.

Definition demo_call : CallCommand :=
  MkCallCommand "i1" "1001" "+254700000002" [("tenant_id", VStr "t1")].

Definition place_with (answer : list Act -> Outcome) (a : Adapter) : option error * State :=
  PlaceCall (H := voice_ports answer) a demo_call (MkState ∅ []).

(** When the answers of the carrier are lost, one call command asks for four
    calls. *)
Lemma place_call_redials :
  let '(r, s) := place_with (fun _ => TransportFailed (OtherErr "connection reset" None)) demo_voice in
  is_Some r /\ requests is_post (trace s) = 4%nat /\ legs s = ∅.
Proof. vm_compute. by split; [eexists|]. Qed.

(** A leg stays after its hangup: it can be hung up again. *)
Lemma hung_up_leg_remains :
  let s := (place_with (fun _ => Response 201 "" "{}") demo_voice).2 in
  let hang := Hangup (H := voice_ports (fun _ => Response 200 "" "{}")) demo_voice "i1" in
  (hang s).1 = None /\ legs (hang s).2 = legs s /\ (hang (hang s).2).1 = None.
Proof. by vm_compute. Qed.

(** A hint beyond 292 years wraps to a negative pause: the retry is
    immediate. *)
Lemma large_hint_wraps : exists d, parseRetryAfter "9223372037" = Some d /\ d < 0.
Proof. eexists. split; [reflexivity|]. by vm_compute. Qed.
