(* ===== verification/Factory.v ===== *)
(** * internal/comms/factory: from configuration to live providers

    [Build], with the constructors it calls as far as they validate: which
    provider serves each plane, with which settings. A provider is described
    by the configuration its adapter keeps; the simulator serves both planes
    from one instance. The HTTP clients, loggers and background loops of the
    adapters are left out. *)

From Stdlib Require Import String Ascii.
From S2P Require Import Prelude GoStd AppErrors Text CommsRegistry.
From S2P Require WaCloud TwilioSms.

Local Open Scope Z_scope.

(** [net.JoinHostPort] *)
Definition JoinHostPort (host port : string) : string :=
  if has_byte host ":" then "[" +:+ host +:+ "]:" +:+ port else host +:+ ":" +:+ port.

(** ** Constructors *)

(** telephony/adapters/africastalking: [New]; both hooks are wired or not. *)
Definition at_voice_New (username apiKey : Secret) (has_Ingest has_Signer : bool) : option Error :=
  if is_empty username || is_empty apiKey then
    Some (Invalid "at.credentials_required" "ORVEXA_AT_USERNAME and ORVEXA_AT_API_KEY are required")
  else if negb (Bool.eqb (negb has_Ingest) (negb has_Signer)) then
    Some (Invalid "at.ingest_not_wired"
            "Config.Ingest and Config.Signer must be set together (status callback delivery)")
  else if negb has_Ingest then
    Some (Invalid "at.ingest_required"
            "Config.Ingest is required: status callbacks must flow through the signed delivery path")
  else None.

(** telephony/adapters/freeswitch: [New] *)
Definition freeswitch_New (addr : string) (has_Ingest : bool) : option Error :=
  if is_empty (trim_space addr) then
    Some (Invalid "freeswitch.addr_required" "FreeSWITCH event socket address is required")
  else if negb has_Ingest then
    Some (Invalid "freeswitch.ingest_required" "webhook delivery function (Ingest) is required")
  else None.

(** telephony/adapters/asterisk/config.go *)
Record AsteriskConfig := MkAsteriskConfig {
  ast_Host : string;
  ast_Port : string;
  ast_Username : string;
  ast_Secret : string;
}.

Definition asterisk_validate (c : AsteriskConfig) : option Error :=
  if is_empty (ast_Host c) then Some (Invalid "asterisk.host_required" "asterisk: AMI host is required")
  else if is_empty (ast_Username c) then
    Some (Invalid "asterisk.username_required" "asterisk: AMI username is required")
  else if is_empty (ast_Secret c) then
    Some (Invalid "asterisk.secret_required" "asterisk: AMI secret is required")
  else None.

Definition FromRegistry (tc : option TelephonyConfig) : AsteriskConfig + Error :=
  match tc with
  | None => inr (Invalid "asterisk.config_required" "asterisk: telephony configuration is required")
  | Some tc =>
      match ValidateForPlane (t_Provider tc) PlaneVoice with
      | Some err => inr err
      | None =>
          if negb (String.eqb (t_Provider tc) ProviderAsterisk) then
            inr (Invalid "asterisk.provider_mismatch"
                   ("asterisk: configuration is for provider " +:+ quote (t_Provider tc) +:+ ", not "
                      +:+ quote ProviderAsterisk))
          else
            match ValidateTelephony (Some tc) with
            | Some err => inr err
            | None =>
                inl (MkAsteriskConfig (t_AsteriskHost tc) (t_AsteriskPort tc) (t_AsteriskUsername tc)
                       (t_AsteriskSecret tc))
            end
      end
  end.

(** telephony/adapters/asterisk/voice.go: [New] *)
Definition asterisk_New (c : AsteriskConfig) (has_Ingest has_Signer : bool) : option Error :=
  if negb has_Ingest then
    Some (Invalid "asterisk.ingest_required" "asterisk: Ingest delivery hook is required")
  else if negb has_Signer then Some (Invalid "asterisk.signer_required" "asterisk: Signer is required")
  else asterisk_validate c.

(** messaging/adapters/africastalking: [New] *)
Definition at_msg_New (username apiKey senderID : Secret) (has_Ingest has_Signer : bool) : option Error :=
  let missing := (if is_empty username then ["ORVEXA_AT_USERNAME"] else [])
                 ++ (if is_empty apiKey then ["ORVEXA_AT_API_KEY"] else [])
                 ++ (if is_empty senderID then ["ORVEXA_AT_SENDER_ID"] else []) in
  match missing with
  | _ :: _ =>
      Some (Invalid "at.missing_credentials"
              ("Africa's Talking adapter is missing required credential variable(s): " +:+ Join missing ", "))
  | [] =>
      if negb has_Ingest then
        Some (Invalid "at.ingest_required" "the signed-webhook delivery hook (Ingest) is required")
      else if negb has_Signer then
        Some (Invalid "at.signer_required" "the webhook body signer (Signer) is required")
      else None
  end.

(** ** Build *)

Record Config := MkConfig {
  f_Telephony : option TelephonyConfig;
  f_Messaging : option MessagingConfig;
  f_Ingest : bool;
  f_Signer : bool;
  TwilioVoiceTwiMLBaseURL : string;
  TwilioVoiceCallbackBaseURL : string;
  TwilioVoiceHoldTwiMLURL : string;
  TwilioVoiceResumeURL : string;
  TwilioMsgStatusCallbackBase : string;
}.

Inductive Voice :=
| VoiceSimulator
| VoiceTwilio (sid token : Secret) (twiml callback hold resume : string)
| VoiceAfricasTalking (username apiKey : Secret)
| VoiceFreeSwitch (addr : string) (password : Secret)
| VoiceAsterisk (c : AsteriskConfig).

Inductive Messenger :=
| MessengerSimulator
| MessengerTwilio (a : TwilioSms.Adapter)
| MessengerWhatsApp (c : WaCloud.graphClient)
| MessengerAfricasTalking (username apiKey senderID : Secret).

(** [fmt.Errorf("... provider %q: %w", ...)] *)
Definition wrap_provider (plane name : string) (err : Error) : error :=
  OtherErr (plane +:+ " provider " +:+ quote name +:+ ": " +:+ error_text (AppErr err)) (Some (AppErr err)).

Definition no_constructor (plane name : string) : error :=
  AppErr (Invalid "comms.unknown_provider"
    ("no " +:+ plane +:+ " constructor for provider " +:+ quote name +:+ " (registered providers: ["
       +:+ Join Names " " +:+ "])")).

(** The result of a constructor that returned [err]. *)
Definition built {A} (plane name : string) (err : option Error) (a : A) : A + error :=
  match err with Some err => inr (wrap_provider plane name err) | None => inl a end.

Section Build.
Variable cfg : Config.

(** A selected plane, validated. *)
Definition build_voice (tc : TelephonyConfig) : Voice + error :=
  let name := t_Provider tc in
  if String.eqb name ProviderSimulator then inl VoiceSimulator
  else if String.eqb name ProviderTwilio then
    inl (VoiceTwilio (t_TwilioAccountSID tc) (t_TwilioAuthToken tc) (TwilioVoiceTwiMLBaseURL cfg)
           (TwilioVoiceCallbackBaseURL cfg) (TwilioVoiceHoldTwiMLURL cfg) (TwilioVoiceResumeURL cfg))
  else if String.eqb name ProviderAfricasTalking then
    built "telephony" name (at_voice_New (t_ATUsername tc) (t_ATAPIKey tc) (f_Ingest cfg) (f_Signer cfg))
      (VoiceAfricasTalking (t_ATUsername tc) (t_ATAPIKey tc))
  else if String.eqb name ProviderFreeSwitch then
    let port := if is_empty (t_FreeSwitchPort tc) then defaultFreeSwitchPort else t_FreeSwitchPort tc in
    let addr := JoinHostPort (t_FreeSwitchHost tc) port in
    built "telephony" name (freeswitch_New addr (f_Ingest cfg)) (VoiceFreeSwitch addr (t_FreeSwitchPassword tc))
  else if String.eqb name ProviderAsterisk then
    match FromRegistry (Some tc) with
    | inr err => inr (wrap_provider "telephony" name err)
    | inl ac => built "telephony" name (asterisk_New ac (f_Ingest cfg) (f_Signer cfg)) (VoiceAsterisk ac)
    end
  else inr (no_constructor "telephony" name).

(** The whatsappcloud configuration: no [APIBaseURL]. *)
Definition whatsapp_config (mc : MessagingConfig) : WaCloud.Config :=
  WaCloud.MkConfig (m_WhatsAppPhoneNumberID mc) (m_WhatsAppAccessToken mc) "" (f_Ingest cfg) (f_Signer cfg)
    (WaCloud.MkRetryPolicy 0 0 0).

(** The twilio configuration: no [APIBaseURL], the default retries. *)
Definition twilio_msg_config (mc : MessagingConfig) : TwilioSms.Config :=
  TwilioSms.MkConfig (m_TwilioAccountSID mc) (m_TwilioAuthToken mc) (m_TwilioFromNumber mc) ""
    (TwilioMsgStatusCallbackBase cfg) (f_Ingest cfg) (f_Signer cfg) 0 0 0.

Definition build_messenger (mc : MessagingConfig) : Messenger + error :=
  let name := m_Provider mc in
  if String.eqb name ProviderSimulator then inl MessengerSimulator
  else if String.eqb name ProviderTwilio then
    match TwilioSms.New (twilio_msg_config mc) with
    | inr err => inr (wrap_provider "messaging" name err)
    | inl a => inl (MessengerTwilio a)
    end
  else if String.eqb name ProviderWhatsAppCloud then
    match WaCloud.New (whatsapp_config mc) with
    | inr err => inr (wrap_provider "messaging" name err)
    | inl c => inl (MessengerWhatsApp c)
    end
  else if String.eqb name ProviderAfricasTalking then
    built "messaging" name
      (at_msg_New (m_ATUsername mc) (m_ATAPIKey mc) (m_ATSenderID mc) (f_Ingest cfg) (f_Signer cfg))
      (MessengerAfricasTalking (m_ATUsername mc) (m_ATAPIKey mc) (m_ATSenderID mc))
  else inr (no_constructor "messaging" name).

(** The third component is what [teardown] closes, last built first. *)
Definition Build : (Voice * Messenger * list Voice) + error :=
  if negb (f_Ingest cfg) || negb (f_Signer cfg) then
    inr (AppErr (Invalid "comms.ingest_not_wired"
      "provider factory requires Ingest (comms.IngestFunc) and Signer (comms.Signer): every provider, including the simulator, delivers signed webhooks through the fail-closed gateway"))
  else
  let voice :=
    match f_Telephony cfg with
    | None => inl VoiceSimulator
    | Some tc =>
        match ValidateTelephony (Some tc) with
        | Some err => inr (AppErr err)
        | None => build_voice tc
        end
    end in
  match voice with
  | inr err => inr err
  | inl voice =>
      let messenger :=
        match f_Messaging cfg with
        | None => inl MessengerSimulator
        | Some mc =>
            match ValidateMessaging (Some mc) with
            | Some err => inr (AppErr err)
            | None => build_messenger mc
            end
        end in
      match messenger with
      | inr err => inr err
      | inl messenger =>
          let teardowns := match voice with
                           | VoiceFreeSwitch _ _ | VoiceAsterisk _ => [voice]
                           | _ => []
                           end in
          inl (voice, messenger, rev teardowns)
      end
  end.
End Build.

(** The names the selections are logged under. *)
Definition voice_name (v : Voice) : ProviderName :=
  match v with
  | VoiceSimulator => ProviderSimulator
  | VoiceTwilio _ _ _ _ _ _ => ProviderTwilio
  | VoiceAfricasTalking _ _ => ProviderAfricasTalking
  | VoiceFreeSwitch _ _ => ProviderFreeSwitch
  | VoiceAsterisk _ => ProviderAsterisk
  end.

Definition messenger_name (m : Messenger) : ProviderName :=
  match m with
  | MessengerSimulator => ProviderSimulator
  | MessengerTwilio _ => ProviderTwilio
  | MessengerWhatsApp _ => ProviderWhatsAppCloud
  | MessengerAfricasTalking _ _ _ => ProviderAfricasTalking
  end.
