(* ===== verification/FactoryProps.v ===== *)
(** * Properties of the provider registry and the factory

    What the environment configures, what the renderings show, what gets
    built. *)

From Stdlib Require Import String Ascii.
From S2P Require Import Prelude GoStd AppErrors Text Planes CommsRegistry Factory.
From S2P Require TwilioSms WaCloud WaCloudProps.

Local Open Scope Z_scope.

(** ** Trimming around a colon *)

(** A colon is no part of a space rune. *)
Lemma space2_colon b : space2 b ":" = false /\ space2 ":" b = false.
Proof. unfold space2. change (code ":") with 58. cbn. by rewrite andb_false_r. Qed.

Lemma space3_colon b c : space3 b ":" c = false /\ space3 b c ":" = false.
Proof. unfold space3. change (code ":") with 58. cbn. by rewrite !andb_false_r. Qed.

Lemma lead_colon l1 l2 : (lead_space (l1 ++ ":"%char :: l2) <= length l1)%nat.
Proof.
  destruct l1 as [|b [|c [|d l1]]]; cbn [app lead_space length].
  - change (ascii_space ":") with false. cbv iota. destruct l2 as [|b l2]; [lia|].
    rewrite (proj2 (space2_colon b)). destruct l2 as [|c l2]; [lia|].
    assert (space3 ":" b c = false) as -> by (unfold space3; by change (code ":") with 58). lia.
  - rewrite (proj1 (space2_colon b)). destruct (ascii_space b); [lia|]. destruct l2 as [|c l2]; [lia|].
    rewrite (proj1 (space3_colon b c)). lia.
  - rewrite (proj2 (space3_colon b c)). repeat case_match; lia.
  - repeat case_match; lia.
Qed.

Lemma trail_colon l1 l2 : (trail_space (l1 ++ ":"%char :: l2) <= length l1)%nat.
Proof.
  destruct l1 as [|c [|b [|a l1]]]; cbn [app trail_space length].
  - change (ascii_space ":") with false. cbv iota. destruct l2 as [|b l2]; [lia|].
    rewrite (proj1 (space2_colon b)). destruct l2 as [|a l2]; [lia|].
    rewrite (proj2 (space3_colon a b)). lia.
  - rewrite (proj2 (space2_colon c)). destruct (ascii_space c); [lia|]. destruct l2 as [|a l2]; [lia|].
    rewrite (proj1 (space3_colon a c)). lia.
  - assert (space3 ":" b c = false) as -> by (unfold space3; by change (code ":") with 58).
    repeat case_match; lia.
  - repeat case_match; lia.
Qed.

Lemma trim_with_colon f n l1 l2 :
  (forall l1 l2, f (l1 ++ ":"%char :: l2) <= length l1)%nat ->
  exists p, trim_with f n (l1 ++ ":"%char :: l2) = p ++ ":"%char :: l2.
Proof.
  intros Hf. revert l1. induction n as [|n IH]; intros l1; cbn [trim_with]; [by exists l1|].
  pose proof (Hf l1 l2). destruct (f _) as [|k]; [by exists l1|].
  rewrite drop_app_le by lia. apply IH.
Qed.

Lemma trim_space_colon h p : trim_space (h +:+ ":" +:+ p) <> "".
Proof.
  assert (forall a b, list_ascii_of_string (a +:+ b) = list_ascii_of_string a ++ list_ascii_of_string b) as Happ.
  { induction a as [|x a IH]; intros b; [done|]. exact (f_equal (cons x) (IH b)). }
  unfold trim_space. rewrite !Happ. change (list_ascii_of_string ":") with [":"%char]. cbn [app].
  set (l := list_ascii_of_string h ++ ":"%char :: list_ascii_of_string p).
  destruct (trim_with_colon lead_space (length l) (list_ascii_of_string h) (list_ascii_of_string p) lead_colon)
    as [q Hq]. fold l in Hq. rewrite Hq.
  rewrite rev_app_distr. cbn [rev]. rewrite <- app_assoc. cbn [app].
  destruct (trim_with_colon trail_space (length (q ++ ":"%char :: list_ascii_of_string p))
    (rev (list_ascii_of_string p)) (rev q) trail_colon) as [r ->].
  rewrite rev_app_distr. cbn [rev]. by destruct ((rev (rev q) ++ [":"%char]) ++ rev r) eqn:E; [destruct (rev (rev q))|].
Qed.

(** ** A plane's variables *)

Section Vars.
Context {C : Type}.
Variable targets : list (string * fieldRef C).

(** A field is what was last written to it. *)
Definition fields_independent : Prop :=
  forall k f k' f', (k, f) ∈ targets -> (k', f') ∈ targets ->
  forall v c, fr_get f (fr_set f' v c) = if String.eqb k k' then v else fr_get f c.

Hypothesis independent : fields_independent.

(** What the environment says of a variable. *)
Definition env_value (get : envGetter) (vars : list FieldSpec) (k : string) : string :=
  if existsb (fun fs => String.eqb (Env fs) k) vars then trim_space (get k) else "".

Lemma target_in k f : target targets k = Some f -> (k, f) ∈ targets.
Proof.
  unfold target. destruct (List.find _ targets) as [[k' f']|] eqn:E; [|done]. intros [= ->].
  apply find_some in E as [Hin Hk%String.eqb_eq]. simpl in Hk. subst. by apply list_elem_of_In.
Qed.

Lemma read_vars_get get vars c k f :
  target targets k = Some f ->
  fr_get f (read_vars targets get vars c)
  = if is_empty (env_value get vars k) then fr_get f c else env_value get vars k.
Proof.
  intros Hf. unfold read_vars, env_value. revert c. induction vars as [|fs vars IH]; intros c; [done|].
  cbn [fold_left existsb]. rewrite IH. clear IH. unfold read_var.
  destruct (String.eqb_spec (Env fs) k) as [->|Hne]; cbn [orb].
  - rewrite Hf. destruct (is_empty (trim_space (get k))) eqn:Ee.
    { by destruct (existsb _ vars); [rewrite Ee|]. }
    rewrite (independent k f k f), String.eqb_refl by by apply target_in.
    destruct (existsb _ vars); [by rewrite Ee|done].
  - destruct (is_empty (trim_space (get (Env fs)))); [done|].
    destruct (target targets (Env fs)) as [f'|] eqn:Ef'; [|done].
    rewrite (independent k f (Env fs) f') by by apply target_in.
    by rewrite (proj2 (String.eqb_neq k (Env fs))) by congruence.
Qed.
End Vars.

Lemma t_independent : fields_independent t_envTargets.
Proof.
  assert (Forall (fun a => Forall (fun b => forall v c,
    fr_get a.2 (fr_set b.2 v c) = if String.eqb a.1 b.1 then v else fr_get a.2 c) t_envTargets) t_envTargets) as H
    by (repeat (constructor; [repeat (constructor; [by intros v []|]); constructor|]); constructor).
  intros k f k' f' Hk Hk'. rewrite Forall_forall in H. specialize (H _ Hk). rewrite Forall_forall in H.
  exact (H _ Hk').
Qed.

Lemma m_independent : fields_independent m_envTargets.
Proof.
  assert (Forall (fun a => Forall (fun b => forall v c,
    fr_get a.2 (fr_set b.2 v c) = if String.eqb a.1 b.1 then v else fr_get a.2 c) m_envTargets) m_envTargets) as H
    by (repeat (constructor; [repeat (constructor; [by intros v []|]); constructor|]); constructor).
  intros k f k' f' Hk Hk'. rewrite Forall_forall in H. specialize (H _ Hk). rewrite Forall_forall in H.
  exact (H _ Hk').
Qed.

Lemma t_target k f : (k, f) ∈ t_envTargets -> target t_envTargets k = Some f.
Proof.
  intros H. assert (Forall (fun t => target t_envTargets t.1 = Some t.2) t_envTargets) as Hf
    by (repeat (constructor; [reflexivity|]); constructor).
  rewrite Forall_forall in Hf. exact (Hf _ H).
Qed.

Lemma m_target k f : (k, f) ∈ m_envTargets -> target m_envTargets k = Some f.
Proof.
  intros H. assert (Forall (fun t => target m_envTargets t.1 = Some t.2) m_envTargets) as Hf
    by (repeat (constructor; [reflexivity|]); constructor).
  rewrite Forall_forall in Hf. exact (Hf _ H).
Qed.

Lemma read_vars_keeps {C D} (targets : list (string * fieldRef C)) (p : C -> D) get vars c :
  (forall k f, target targets k = Some f -> forall v c, p (fr_set f v c) = p c) ->
  p (read_vars targets get vars c) = p c.
Proof.
  intros Hp. unfold read_vars. revert c. induction vars as [|fs vars IH]; intros c; [done|].
  cbn [fold_left]. rewrite IH. unfold read_var. destruct (is_empty _); [done|].
  destruct (target targets (Env fs)) eqn:E; [by eapply Hp|done].
Qed.

Lemma t_set_provider k f : target t_envTargets k = Some f -> forall v c, t_Provider (fr_set f v c) = t_Provider c.
Proof.
  intros H%target_in. assert (Forall (fun t => forall v c, t_Provider (fr_set t.2 v c) = t_Provider c) t_envTargets)
    as Hf by (repeat (constructor; [by intros|]); constructor).
  rewrite Forall_forall in Hf. exact (Hf _ H).
Qed.

Lemma m_set_provider k f : target m_envTargets k = Some f -> forall v c, m_Provider (fr_set f v c) = m_Provider c.
Proof.
  intros H%target_in. assert (Forall (fun t => forall v c, m_Provider (fr_set t.2 v c) = m_Provider c) m_envTargets)
    as Hf by (repeat (constructor; [by intros|]); constructor).
  rewrite Forall_forall in Hf. exact (Hf _ H).
Qed.

(** The optional ports. *)
Definition port_default (name : ProviderName) (k : string) : string :=
  if String.eqb name ProviderFreeSwitch && String.eqb k "ORVEXA_FREESWITCH_PORT" then defaultFreeSwitchPort
  else if String.eqb name ProviderAsterisk && String.eqb k "ORVEXA_ASTERISK_PORT" then defaultAsteriskPort
  else "".

Lemma defaults_get c k f :
  target t_envTargets k = Some f ->
  fr_get f (applyTelephonyDefaults c)
  = if is_empty (fr_get f c) then port_default (t_Provider c) k else fr_get f c.
Proof.
  intros Hf. pose proof (target_in _ _ _ Hf) as Hin. unfold applyTelephonyDefaults, port_default.
  assert (forall x, x = if is_empty x then "" else x) as Hx by (by intros []).
  destruct (String.eqb_spec (t_Provider c) ProviderFreeSwitch) as [->|]; cbn [andb].
  - destruct (is_empty (t_FreeSwitchPort c)) eqn:Ee.
    + change (set_t_field 7 defaultFreeSwitchPort c) with (fr_set (t_ref t_FreeSwitchPort 7) defaultFreeSwitchPort c).
      rewrite (t_independent k f "ORVEXA_FREESWITCH_PORT" (t_ref t_FreeSwitchPort 7)) by (done || by apply target_in).
      destruct (String.eqb_spec k "ORVEXA_FREESWITCH_PORT") as [->|]; [|apply Hx].
      injection Hf as <-. change (fr_get _ c) with (t_FreeSwitchPort c). by rewrite Ee.
    + destruct (String.eqb_spec k "ORVEXA_FREESWITCH_PORT") as [->|]; [|apply Hx].
      injection Hf as <-. change (fr_get _ c) with (t_FreeSwitchPort c). by rewrite Ee.
  - destruct (String.eqb_spec (t_Provider c) ProviderAsterisk) as [_|]; cbn [andb]; [|apply Hx].
    destruct (is_empty (t_AsteriskPort c)) eqn:Ee.
    + change (set_t_field 10 defaultAsteriskPort c) with (fr_set (t_ref t_AsteriskPort 10) defaultAsteriskPort c).
      rewrite (t_independent k f "ORVEXA_ASTERISK_PORT" (t_ref t_AsteriskPort 10)) by (done || by apply target_in).
      destruct (String.eqb_spec k "ORVEXA_ASTERISK_PORT") as [->|]; [|apply Hx].
      injection Hf as <-. change (fr_get _ c) with (t_AsteriskPort c). by rewrite Ee.
    + destruct (String.eqb_spec k "ORVEXA_ASTERISK_PORT") as [->|]; [|apply Hx].
      injection Hf as <-. change (fr_get _ c) with (t_AsteriskPort c). by rewrite Ee.
Qed.

(** ** A plane out of the environment *)

Definition t_value (get : envGetter) (name : ProviderName) (k : string) : string :=
  let v := env_value get (vars_of Telephony name) k in
  if is_empty v then port_default name k else v.

Definition m_value (get : envGetter) (name : ProviderName) (k : string) : string :=
  env_value get (vars_of Messaging name) k.

(** The configuration [telephonyFromLookup] validates. *)
Definition t_parsed (get : envGetter) (name : ProviderName) : TelephonyConfig :=
  applyTelephonyDefaults (read_vars t_envTargets get (vars_of Telephony name) (new_TelephonyConfig name)).

Definition m_parsed (get : envGetter) (name : ProviderName) : MessagingConfig :=
  read_vars m_envTargets get (vars_of Messaging name) (new_MessagingConfig name).

Lemma t_parsed_provider get name : t_Provider (t_parsed get name) = name.
Proof.
  unfold t_parsed. set (c := read_vars _ _ _ _).
  assert (t_Provider c = name) as Hc by (unfold c; by rewrite (read_vars_keeps _ _ _ _ _ t_set_provider)).
  unfold applyTelephonyDefaults. rewrite Hc. by repeat case_match.
Qed.

Lemma m_parsed_provider get name : m_Provider (m_parsed get name) = name.
Proof. unfold m_parsed. by rewrite (read_vars_keeps _ _ _ _ _ m_set_provider). Qed.

Lemma t_parsed_get get name k f :
  target t_envTargets k = Some f -> fr_get f (t_parsed get name) = t_value get name k.
Proof.
  intros Hf. unfold t_parsed, t_value. rewrite (defaults_get _ k) by done.
  rewrite (read_vars_keeps _ _ _ _ _ t_set_provider), (read_vars_get _ t_independent) with (k := k) by done.
  assert (fr_get f (new_TelephonyConfig name) = "") as ->.
  { apply target_in in Hf. assert (Forall (fun t => fr_get t.2 (new_TelephonyConfig name) = "") t_envTargets) as H
      by (repeat (constructor; [done|]); constructor). rewrite Forall_forall in H. exact (H _ Hf). }
  cbv zeta. destruct (is_empty (env_value _ _ k)) eqn:E; [done|by rewrite E].
Qed.

Lemma m_parsed_get get name k f :
  target m_envTargets k = Some f -> fr_get f (m_parsed get name) = m_value get name k.
Proof.
  intros Hf. unfold m_parsed, m_value. rewrite (read_vars_get _ m_independent) with (k := k) by done.
  assert (fr_get f (new_MessagingConfig name) = "") as ->.
  { apply target_in in Hf. assert (Forall (fun t => fr_get t.2 (new_MessagingConfig name) = "") m_envTargets) as H
      by (repeat (constructor; [done|]); constructor). rewrite Forall_forall in H. exact (H _ Hf). }
  destruct (is_empty (env_value _ _ k)) eqn:E; [|done]. by apply is_empty_true in E.
Qed.

(** The required variables that are blank. *)
Definition blank_required (get : envGetter) (vars : list FieldSpec) : list string :=
  map Env (List.filter (fun fs => Required fs && is_empty (trim_space (get (Env fs)))) vars).

(** Every variable of a plane has a field; a required one has no default. *)
Definition covered {C} (targets : list (string * fieldRef C)) (name : ProviderName) (vars : list FieldSpec) : Prop :=
  Forall (fun fs => is_Some (target targets (Env fs)) /\ (Required fs = true -> port_default name (Env fs) = "")) vars.

Lemma Lookup_in name spec : Lookup name = Some spec -> spec ∈ providerRegistry /\ Name spec = name.
Proof.
  unfold Lookup. intros [Hin Hn%String.eqb_eq]%find_some. split; [by apply list_elem_of_In|done].
Qed.

Lemma t_targets_cover name : covered t_envTargets name (vars_of Telephony name).
Proof.
  unfold vars_of. destruct (Lookup name) as [spec|] eqn:E; [|constructor]. apply Lookup_in in E as [Hin <-].
  assert (Forall (fun spec => covered t_envTargets (Name spec) (Telephony spec)) providerRegistry) as H.
  { repeat (constructor; [repeat (constructor; [by split; [eexists|]|]); constructor|]); constructor. }
  rewrite Forall_forall in H. exact (H _ Hin).
Qed.

Lemma m_targets_cover name : covered m_envTargets name (vars_of Messaging name).
Proof.
  unfold vars_of. destruct (Lookup name) as [spec|] eqn:E; [|constructor]. apply Lookup_in in E as [Hin <-].
  assert (Forall (fun spec => covered m_envTargets (Name spec) (Messaging spec)) providerRegistry) as H.
  { repeat (constructor; [repeat (constructor; [by split; [eexists|]|]); constructor|]); constructor. }
  rewrite Forall_forall in H. exact (H _ Hin).
Qed.

Lemma env_value_in get vars fs : In fs vars -> env_value get vars (Env fs) = trim_space (get (Env fs)).
Proof.
  intros Hin. unfold env_value. rewrite (proj2 (existsb_exists _ _)); [done|].
  exists fs. split; [done|apply String.eqb_refl].
Qed.

Lemma filter_ext_in' {A} (f g : A -> bool) l :
  (forall x, In x l -> f x = g x) -> List.filter f l = List.filter g l.
Proof. apply List.filter_ext_in. Qed.

Lemma t_missing get name :
  missing_vars t_envTargets (vars_of Telephony name) (t_parsed get name)
  = blank_required get (vars_of Telephony name).
Proof.
  unfold missing_vars, blank_required. f_equal. apply filter_ext_in'. intros fs Hin.
  pose proof (t_targets_cover name) as Hc. unfold covered in Hc. rewrite List.Forall_forall in Hc.
  destruct (Hc _ Hin) as [[f Hf] Hd]. rewrite Hf, (t_parsed_get _ _ (Env fs)) by done.
  destruct (Required fs); [|done]. cbn [andb]. unfold t_value. rewrite env_value_in by done. cbv zeta.
  destruct (is_empty (trim_space _)) eqn:E; [by rewrite Hd|done].
Qed.

Lemma m_missing get name :
  missing_vars m_envTargets (vars_of Messaging name) (m_parsed get name)
  = blank_required get (vars_of Messaging name).
Proof.
  unfold missing_vars, blank_required. f_equal. apply filter_ext_in'. intros fs Hin.
  pose proof (m_targets_cover name) as Hc. unfold covered in Hc. rewrite List.Forall_forall in Hc.
  destruct (Hc _ Hin) as [[f Hf] _]. rewrite Hf, (m_parsed_get _ _ (Env fs)) by done.
  unfold m_value. by rewrite env_value_in.
Qed.

Lemma selected_serves get key label p name :
  has_plane 3 p = true -> selectedProvider get key label p = inl name ->
  exists spec, Lookup name = Some spec /\ has_plane (sp_Planes spec) p = true
    /\ (name = trim_space (get key) \/ is_empty (trim_space (get key)) = true /\ name = ProviderSimulator).
Proof.
  intros Hp. unfold selectedProvider. destruct (is_empty (trim_space (get key))) eqn:Ee.
  { intros [= <-]. eexists. split; [reflexivity|]. split; [done|by right]. }
  destruct (Lookup _) as [spec|] eqn:El; [|done]. destruct (has_plane (sp_Planes spec) p) eqn:Ep; [|done].
  intros [= <-]. destruct (Lookup_in _ _ El) as [_ Hn]. rewrite Hn. exists spec. auto.
Qed.

(** A plane, decided by the selection and by which variables are blank. *)
Lemma telephonyFromLookup_eq get :
  telephonyFromLookup get =
  match selectedProvider get EnvTelephonyProvider "telephony" PlaneVoice with
  | inr err => inr err
  | inl name =>
      match blank_required get (vars_of Telephony name) with
      | [] => inl (t_parsed get name)
      | missing => inr (missingCredentialsError name "telephony" missing)
      end
  end.
Proof.
  unfold telephonyFromLookup. destruct (selectedProvider _ _ _ _) as [name|] eqn:Es; [|done].
  apply selected_serves in Es as (spec & Hl & Hp & _); [|done]. fold (t_parsed get name). cbv zeta.
  unfold ValidateTelephony. rewrite t_parsed_provider, Hl, Hp. cbn [negb].
  pose proof (t_missing get name) as Hm. unfold vars_of in Hm |- *. rewrite Hl in Hm |- *. rewrite Hm.
  by destruct (blank_required get (Telephony spec)).
Qed.

Lemma messagingFromLookup_eq get :
  messagingFromLookup get =
  match selectedProvider get EnvMessagingProvider "messaging" PlaneMessaging with
  | inr err => inr err
  | inl name =>
      match blank_required get (vars_of Messaging name) with
      | [] => inl (m_parsed get name)
      | missing => inr (missingCredentialsError name "messaging" missing)
      end
  end.
Proof.
  unfold messagingFromLookup. destruct (selectedProvider _ _ _ _) as [name|] eqn:Es; [|done].
  apply selected_serves in Es as (spec & Hl & Hp & _); [|done]. fold (m_parsed get name). cbv zeta.
  unfold ValidateMessaging. rewrite m_parsed_provider, Hl, Hp. cbn [negb].
  pose proof (m_missing get name) as Hm. unfold vars_of in Hm |- *. rewrite Hl in Hm |- *. rewrite Hm.
  by destruct (blank_required get (Messaging spec)).
Qed.

Lemma blank_required_nil get vars :
  blank_required get vars = [] ->
  forall fs, In fs vars -> Required fs = true -> trim_space (get (Env fs)) <> "".
Proof.
  unfold blank_required. intros Hb fs Hin Hr. apply map_eq_nil in Hb.
  destruct (is_empty (trim_space (get (Env fs)))) eqn:E; [|by apply is_empty_false].
  assert (In fs []) as []. rewrite <- Hb. apply filter_In. by rewrite Hr, E.
Qed.

(** Two environments that agree on the selections and on which variables are
    blank. *)
Definition same_shape (get get' : envGetter) : Prop :=
  (forall key, key = EnvTelephonyProvider \/ key = EnvMessagingProvider -> get key = get' key)
  /\ forall k, is_empty (trim_space (get k)) = is_empty (trim_space (get' k)).

Lemma blank_required_shape get get' vars :
  same_shape get get' -> blank_required get vars = blank_required get' vars.
Proof. intros [_ H]. unfold blank_required. f_equal. apply filter_ext_in'. intros fs _. by rewrite H. Qed.

(** What a plane is configured to. *)
Definition plane_configured {C} (targets : list (string * fieldRef C)) (vars : ProviderSpec -> list FieldSpec)
    (p : Z) (key : string) (value : ProviderName -> string -> string) (get : envGetter) (name : ProviderName)
    (c : C) : Prop :=
  (exists spec, Lookup name = Some spec /\ has_plane (sp_Planes spec) p = true)
  /\ (name = trim_space (get key) \/ is_empty (trim_space (get key)) = true /\ name = ProviderSimulator)
  /\ (forall fs, In fs (vars_of vars name) -> Required fs = true -> trim_space (get (Env fs)) <> "")
  /\ (forall k f, (k, f) ∈ targets -> fr_get f c = value name k).

Lemma LoadFromEnv_configured get tel msg :
  LoadFromEnv get = inl (tel, msg) ->
  plane_configured t_envTargets Telephony PlaneVoice EnvTelephonyProvider (t_value get) get (t_Provider tel) tel
  /\ plane_configured m_envTargets Messaging PlaneMessaging EnvMessagingProvider (m_value get) get (m_Provider msg) msg.
Proof.
  unfold LoadFromEnv. rewrite telephonyFromLookup_eq, messagingFromLookup_eq.
  destruct (selectedProvider get EnvTelephonyProvider _ _) as [tn|] eqn:Et; [|done].
  destruct (blank_required get (vars_of Telephony tn)) eqn:Ebt; [|done].
  destruct (selectedProvider get EnvMessagingProvider _ _) as [mn|] eqn:Em; [|done].
  destruct (blank_required get (vars_of Messaging mn)) eqn:Ebm; [|done]. intros [= <- <-].
  rewrite t_parsed_provider, m_parsed_provider.
  apply selected_serves in Et as (ts & H1 & H2 & H3); [|done].
  apply selected_serves in Em as (ms & H4 & H5 & H6); [|done].
  split; (split; [eauto|split; [done|split; [by apply blank_required_nil|]]]); intros k f Hin.
  - apply t_parsed_get. by apply t_target.
  - apply m_parsed_get. by apply m_target.
Qed.

Lemma LoadFromEnv_error get err :
  LoadFromEnv get = inr err ->
  ErrKind err = KindInvalid /\ forall get', same_shape get get' -> LoadFromEnv get' = inr err.
Proof.
  unfold LoadFromEnv. rewrite telephonyFromLookup_eq, messagingFromLookup_eq. intros He.
  assert (forall key label p x, selectedProvider get key label p = inr x -> ErrKind x = KindInvalid) as Hk.
  { intros key label p x. unfold selectedProvider. repeat case_match; intros [= <-]; done. }
  split.
  - destruct (selectedProvider get EnvTelephonyProvider _ _) eqn:E1; [|injection He as <-; by eapply Hk].
    destruct (blank_required get _); [|by injection He as <-].
    destruct (selectedProvider get EnvMessagingProvider _ _) eqn:E2; [|injection He as <-; by eapply Hk].
    destruct (blank_required get _); [done|by injection He as <-].
  - intros get' Hs. pose proof Hs as [Hkey _]. rewrite telephonyFromLookup_eq, messagingFromLookup_eq.
    assert (forall key label p, key = EnvTelephonyProvider \/ key = EnvMessagingProvider ->
      selectedProvider get' key label p = selectedProvider get key label p) as Hsel.
    { intros key label p Hin. unfold selectedProvider. by rewrite (Hkey key Hin). }
    rewrite !Hsel by auto.
    destruct (selectedProvider get EnvTelephonyProvider _ _) as [tn|]; [|exact He].
    rewrite <- (blank_required_shape get get' _ Hs). destruct (blank_required get _); [|exact He].
    destruct (selectedProvider get EnvMessagingProvider _ _) as [mn|]; [|exact He].
    rewrite <- (blank_required_shape get get' _ Hs). destruct (blank_required get _); [done|exact He].
Qed.

(** The configuration is exactly the selected providers' variables. When
    the environment loads, each plane's provider is the selected one (the
    simulator when none is), it serves the plane, its required variables are
    not blank, and every field of the configuration is the trimmed value of
    its variable when that is the provider's, the port default where the
    optional port is blank, and empty otherwise: no other variable is read.
    When it does not load, the error is of kind invalid and the same for every
    environment with the same selections and the same blank variables, so no
    value can leak through it. *)
Lemma env_config_exact get :
  match LoadFromEnv get with
  | inl (tel, msg) =>
      plane_configured t_envTargets Telephony PlaneVoice EnvTelephonyProvider (t_value get) get
        (t_Provider tel) tel
      /\ plane_configured m_envTargets Messaging PlaneMessaging EnvMessagingProvider (m_value get) get
           (m_Provider msg) msg
  | inr err =>
      ErrKind err = KindInvalid /\ forall get', same_shape get get' -> LoadFromEnv get' = inr err
  end.
Proof.
  destruct (LoadFromEnv get) as [[tel msg]|err] eqn:E.
  - by apply LoadFromEnv_configured.
  - by apply LoadFromEnv_error.
Qed.

(** ** Renderings *)

(** Two secrets an operator cannot tell apart: both unset, both short, or both
    long with the same last four bytes. *)
Definition same_view (v w : Secret) : Prop :=
  v = "" /\ w = ""
  \/ (v <> "" /\ w <> "" /\ Z.of_nat (String.length v) < redactRevealMin
      /\ Z.of_nat (String.length w) < redactRevealMin)
  \/ (redactRevealMin <= Z.of_nat (String.length v) /\ redactRevealMin <= Z.of_nat (String.length w)
      /\ last4 v = last4 w).

Lemma long_not_empty v : redactRevealMin <= Z.of_nat (String.length v) -> v <> "".
Proof. intros H ->. by apply H. Qed.

Lemma same_view_secret key v w : same_view v w -> secret_field key v = secret_field key w.
Proof.
  unfold secret_field, Redacted. intros [[-> ->]|[(Hv & Hw & Hlv & Hlw)|(Hlv & Hlw & Hl)]]; [done|..].
  - apply is_empty_false in Hv, Hw. apply Z.ltb_lt in Hlv, Hlw. by rewrite Hv, Hw, Hlv, Hlw.
  - pose proof (long_not_empty _ Hlv) as Hv. pose proof (long_not_empty _ Hlw) as Hw.
    apply is_empty_false in Hv, Hw. apply Z.ltb_ge in Hlv, Hlw. by rewrite Hv, Hw, Hlv, Hlw, Hl.
Qed.

Definition t_secrets (c : TelephonyConfig) : list Secret :=
  [t_TwilioAccountSID c; t_TwilioAuthToken c; t_TwilioFromNumber c; t_ATUsername c; t_ATAPIKey c;
   t_ATVoiceProductCode c; t_FreeSwitchPassword c; t_AsteriskUsername c; t_AsteriskSecret c].

Definition t_endpoints (c : TelephonyConfig) : list string :=
  [t_Provider c; t_FreeSwitchHost c; t_FreeSwitchPort c; t_AsteriskHost c; t_AsteriskPort c].

Ltac rewrite_views :=
  repeat match goal with H : same_view _ _ |- _ => rewrite (same_view_secret _ _ _ H); clear H end.

(** Renderings carry no credentials. Whatever is done with the rendering of
    a telephony or messaging configuration, it tells apart two configurations
    with the same provider and endpoints only when some credential is set in
    one of them alone, is short in one and long in the other, or differs in
    the last four bytes of two long values. *)
Lemma rendering_hides_secrets t t' m m' :
  t_endpoints t = t_endpoints t' -> Forall2 same_view (t_secrets t) (t_secrets t') ->
  m_Provider m = m_Provider m' -> Forall2 same_view (m_fields m) (m_fields m') ->
  t_String t = t_String t' /\ m_String m = m_String m'.
Proof.
  intros [= Hp Hfh Hfp Hah Hap] Ht Hm Hms. split.
  - unfold t_String, t_redactedFields, t_secrets in *. rewrite Hp, Hfh, Hfp, Hah, Hap.
    repeat match goal with H : Forall2 same_view (_ :: _) _ |- _ => inv H end.
    by rewrite_views.
  - unfold m_String, m_redactedFields, m_fields in *. rewrite Hm.
    repeat match goal with H : Forall2 same_view (_ :: _) _ |- _ => inv H end.
    by rewrite_views.
Qed.

Lemma rendering_hides_secrets_witness :
  let t key := t_of_fields ProviderTwilio ["AC12345678900aa1"; key; "+254"] in
  let m key := m_of_fields ProviderTwilio ["AC12345678900aa1"; key; "+254"] in
  t "waf4ket0ken000000ff66" <> t "another-t0ken-0ff66"
  /\ t_String (t "waf4ket0ken000000ff66") = t_String (t "another-t0ken-0ff66")
  /\ m_String (m "waf4ket0ken000000ff66") = m_String (m "another-t0ken-0ff66").
Proof.
  intros t m. split; [discriminate|].
  apply (rendering_hides_secrets (t "waf4ket0ken000000ff66") (t "another-t0ken-0ff66")
           (m "waf4ket0ken000000ff66") (m "another-t0ken-0ff66")); [reflexivity| |reflexivity|].
  all: repeat (constructor; [first
    [ left; split; reflexivity
    | right; left; split; [discriminate|]; split; [discriminate|]; split; reflexivity
    | right; right; split; [discriminate|]; split; [discriminate|]; reflexivity ]|]); constructor.
Defined.

(** ** What gets built *)

Lemma JoinHostPort_not_blank host port : is_empty (trim_space (JoinHostPort host port)) = false.
Proof.
  apply is_empty_false. unfold JoinHostPort. destruct (has_byte host ":"); [|apply trim_space_colon].
  assert ("[" +:+ host +:+ "]:" +:+ port = ("[" +:+ host +:+ "]") +:+ ":" +:+ port) as ->; [|apply trim_space_colon].
  induction host as [|a host IH]; [done|]. exact (f_equal (fun s => String "[" (String a (sdrop 1 s))) IH).
Qed.

Lemma telephony_validated get c : telephonyFromLookup get = inl c -> ValidateTelephony (Some c) = None.
Proof.
  unfold telephonyFromLookup. destruct (selectedProvider _ _ _ _); [|done]. cbv zeta.
  destruct (ValidateTelephony _) eqn:E; [done|]. by intros [= <-].
Qed.

Lemma messaging_validated get c : messagingFromLookup get = inl c -> ValidateMessaging (Some c) = None.
Proof.
  unfold messagingFromLookup. destruct (selectedProvider _ _ _ _); [|done]. cbv zeta.
  destruct (ValidateMessaging _) eqn:E; [done|]. by intros [= <-].
Qed.

(** The fields a validated configuration must have. *)
Lemma missing_none {C} (targets : list (string * fieldRef C)) vars c fs f :
  missing_vars targets vars c = [] -> In fs vars -> Required fs = true -> target targets (Env fs) = Some f ->
  is_empty (fr_get f c) = false.
Proof.
  unfold missing_vars. intros Hm%map_eq_nil Hin Hr Hf. apply not_true_iff_false. intros He.
  assert (In fs []) as []. rewrite <- Hm. apply filter_In. by rewrite Hr, Hf, He.
Qed.

Lemma validated_vars {C} (targets : list (string * fieldRef C)) vars c (err : list string -> Error) :
  match missing_vars targets vars c with [] => None | missing => Some (err missing) end = None ->
  missing_vars targets vars c = [].
Proof. by destruct (missing_vars targets vars c). Qed.

Lemma build_voice_validated cfg tc :
  f_Ingest cfg = true -> f_Signer cfg = true -> ValidateTelephony (Some tc) = None ->
  exists v, build_voice cfg tc = inl v /\ voice_name v = t_Provider tc.
Proof.
  intros Hi Hs Hv. pose proof Hv as Hv'. unfold ValidateTelephony in Hv'.
  destruct (Lookup (t_Provider tc)) as [spec|] eqn:El; [|done].
  destruct (negb (has_plane (sp_Planes spec) PlaneVoice)) eqn:Ep; [done|].
  apply validated_vars in Hv'.
  assert (forall fs f, In fs (Telephony spec) -> Required fs = true -> target t_envTargets (Env fs) = Some f ->
    is_empty (fr_get f tc) = false) as Hreq by (intros; by eapply missing_none).
  unfold build_voice. apply Lookup_in in El as [Hin Hn]. rewrite Hi, Hs, <- Hn.
  repeat apply elem_of_cons in Hin as [->|Hin]; [..|by apply elem_of_nil in Hin].
  - by eexists.
  - by eexists.
  - done.
  - unfold at_voice_New. assert (is_empty (t_ATUsername tc) = false) as ->
      by (apply (Hreq (secret_var "ORVEXA_AT_USERNAME") (t_ref t_ATUsername 3)); [simpl; auto 10|done|done]).
    assert (is_empty (t_ATAPIKey tc) = false) as ->
      by (apply (Hreq (secret_var "ORVEXA_AT_API_KEY") (t_ref t_ATAPIKey 4)); [simpl; auto 10|done|done]). by eexists.
  - unfold freeswitch_New. cbn [Name String.eqb]. rewrite JoinHostPort_not_blank. by eexists.
  - assert (FromRegistry (Some tc) = inl (MkAsteriskConfig (t_AsteriskHost tc) (t_AsteriskPort tc)
      (t_AsteriskUsername tc) (t_AsteriskSecret tc))) as Hf.
    { unfold FromRegistry. rewrite <- Hn, Hv. done. }
    rewrite Hf. unfold asterisk_New, asterisk_validate. cbn [ast_Host ast_Username ast_Secret negb].
    assert (is_empty (t_AsteriskHost tc) = false) as ->
      by (apply (Hreq (plain_var "ORVEXA_ASTERISK_HOST" true) (t_ref t_AsteriskHost 9)); [simpl; auto 10|done|done]).
    assert (is_empty (t_AsteriskUsername tc) = false) as ->
      by (apply (Hreq (secret_var "ORVEXA_ASTERISK_USERNAME") (t_ref t_AsteriskUsername 11)); [simpl; auto 10|done|done]).
    assert (is_empty (t_AsteriskSecret tc) = false) as ->
      by (apply (Hreq (secret_var "ORVEXA_ASTERISK_SECRET") (t_ref t_AsteriskSecret 12)); [simpl; auto 10|done|done]). by eexists.
Qed.

(** The WhatsApp client of a configuration the environment loaded. *)
Definition whatsapp_client (mc : MessagingConfig) : WaCloud.graphClient :=
  WaCloud.MkGraphClient "" (m_WhatsAppPhoneNumberID mc) (m_WhatsAppAccessToken mc)
    (WaCloud.withDefaults (WaCloud.MkRetryPolicy 0 0 0)).

Lemma whatsapp_New cfg mc :
  f_Ingest cfg = true -> f_Signer cfg = true ->
  is_empty (trim_space (m_WhatsAppPhoneNumberID mc)) = false -> is_empty (m_WhatsAppAccessToken mc) = false ->
  WaCloud.New (whatsapp_config cfg mc) = inl (whatsapp_client mc).
Proof.
  intros Hi Hs Hid Ht. unfold WaCloud.New, whatsapp_config. cbn [WaCloud.PhoneNumberID WaCloud.AccessToken WaCloud.has_Ingest WaCloud.has_Signer].
  by rewrite Hid, Ht, Hi, Hs.
Qed.

Lemma m_loaded_trimmed get mc k f :
  messagingFromLookup get = inl mc -> target m_envTargets k = Some f ->
  trim_space (fr_get f mc) = fr_get f mc.
Proof.
  rewrite messagingFromLookup_eq. destruct (selectedProvider _ _ _ _) as [name|]; [|done].
  destruct (blank_required _ _); [|done]. intros [= <-] Hf. rewrite (m_parsed_get _ _ k) by done.
  unfold m_value, env_value. destruct (existsb _ _); [apply trim_space_idem|done].
Qed.

Lemma build_messenger_loaded cfg get mc :
  f_Ingest cfg = true -> f_Signer cfg = true -> messagingFromLookup get = inl mc ->
  exists m, build_messenger cfg mc = inl m /\ messenger_name m = m_Provider mc
    /\ (m_Provider mc = ProviderWhatsAppCloud -> m = MessengerWhatsApp (whatsapp_client mc))
    /\ (m_Provider mc = ProviderTwilio ->
        exists a, m = MessengerTwilio a /\ TwilioSms.New (twilio_msg_config cfg mc) = inl a).
Proof.
  intros Hi Hs Hl. pose proof (messaging_validated _ _ Hl) as Hv. unfold ValidateMessaging in Hv.
  destruct (Lookup (m_Provider mc)) as [spec|] eqn:El; [|done].
  destruct (negb (has_plane (sp_Planes spec) PlaneMessaging)) eqn:Ep; [done|].
  apply validated_vars in Hv.
  assert (forall fs f, In fs (Messaging spec) -> Required fs = true -> target m_envTargets (Env fs) = Some f ->
    is_empty (fr_get f mc) = false) as Hreq by (intros; by eapply missing_none).
  unfold build_messenger. apply Lookup_in in El as [Hin Hn]. rewrite <- Hn.
  repeat apply elem_of_cons in Hin as [->|Hin]; [..|by apply elem_of_nil in Hin]; try done.
  - by eexists.
  - unfold TwilioSms.New, twilio_msg_config. rewrite Hi, Hs. cbn [TwilioSms.AccountSID TwilioSms.AuthToken].
    assert (is_empty (m_TwilioAccountSID mc) = false) as ->
      by (apply (Hreq (secret_var "ORVEXA_TWILIO_ACCOUNT_SID") (m_ref m_TwilioAccountSID 0)); [simpl; auto 10|done|done]).
    assert (is_empty (m_TwilioAuthToken mc) = false) as ->
      by (apply (Hreq (secret_var "ORVEXA_TWILIO_AUTH_TOKEN") (m_ref m_TwilioAuthToken 1)); [simpl; auto 10|done|done]).
    eexists. split_and!; [done..|intros _; by eexists].
  - assert (is_empty (m_WhatsAppPhoneNumberID mc) = false) as Hid
      by (apply (Hreq (secret_var "ORVEXA_WHATSAPP_PHONE_NUMBER_ID") (m_ref m_WhatsAppPhoneNumberID 3)); [simpl; auto 10|done|done]).
    assert (is_empty (m_WhatsAppAccessToken mc) = false) as Ht
      by (apply (Hreq (secret_var "ORVEXA_WHATSAPP_ACCESS_TOKEN") (m_ref m_WhatsAppAccessToken 4)); [simpl; auto 10|done|done]).
    pose proof (m_loaded_trimmed _ _ "ORVEXA_WHATSAPP_PHONE_NUMBER_ID" (m_ref m_WhatsAppPhoneNumberID 3) Hl eq_refl) as Htr.
    change (trim_space (m_WhatsAppPhoneNumberID mc) = m_WhatsAppPhoneNumberID mc) in Htr.
    rewrite (whatsapp_New cfg mc) by (done || by rewrite Htr). by eexists.
  - unfold at_msg_New. rewrite Hi, Hs.
    assert (is_empty (m_ATUsername mc) = false) as ->
      by (apply (Hreq (secret_var "ORVEXA_AT_USERNAME") (m_ref m_ATUsername 7)); [simpl; auto 10|done|done]).
    assert (is_empty (m_ATAPIKey mc) = false) as ->
      by (apply (Hreq (secret_var "ORVEXA_AT_API_KEY") (m_ref m_ATAPIKey 8)); [simpl; auto 10|done|done]).
    assert (is_empty (m_ATSenderID mc) = false) as ->
      by (apply (Hreq (secret_var "ORVEXA_AT_SENDER_ID") (m_ref m_ATSenderID 9)); [simpl; auto 10|done|done]).
    by eexists.
Qed.

(** A factory over what the environment loaded. *)
Definition wired (cfg : Config) (tel : TelephonyConfig) (msg : MessagingConfig) : Prop :=
  f_Telephony cfg = Some tel /\ f_Messaging cfg = Some msg /\ f_Ingest cfg = true /\ f_Signer cfg = true.

Lemma Build_loaded get tel msg cfg :
  LoadFromEnv get = inl (tel, msg) -> wired cfg tel msg ->
  exists v m, Build cfg = inl (v, m, match v with VoiceFreeSwitch _ _ | VoiceAsterisk _ => [v] | _ => [] end)
    /\ voice_name v = t_Provider tel /\ messenger_name m = m_Provider msg
    /\ (m_Provider msg = ProviderWhatsAppCloud -> m = MessengerWhatsApp (whatsapp_client msg))
    /\ (m_Provider msg = ProviderTwilio ->
        exists a, m = MessengerTwilio a /\ TwilioSms.New (twilio_msg_config cfg msg) = inl a).
Proof.
  unfold LoadFromEnv. destruct (telephonyFromLookup get) as [t|] eqn:Et; [|done].
  destruct (messagingFromLookup get) as [mc|] eqn:Em; [|done]. intros [= -> ->] (H1 & H2 & Hi & Hs).
  pose proof (telephony_validated _ _ Et) as Htv. pose proof (messaging_validated _ _ Em) as Hmv.
  destruct (build_voice_validated cfg tel Hi Hs Htv) as (v & Hv & Hvn).
  destruct (build_messenger_loaded cfg get msg Hi Hs Em) as (m & Hm & Hmn & Hw & Ht).
  exists v, m. unfold Build. rewrite H1, H2, Hi, Hs. cbn [negb orb]. rewrite Htv, Hv, Hmv, Hm.
  split; [by destruct v|done].
Qed.

(** What loads is built. Over a configuration the environment loaded, with
    the ingest hook and the signer wired, the factory never fails: no
    constructor asks for more than the registry required. Each plane gets the
    provider the configuration selects, and the teardown closes exactly the
    session-based voice adapters. *)
Lemma deployment_builds get tel msg cfg :
  LoadFromEnv get = inl (tel, msg) -> wired cfg tel msg ->
  exists v m td, Build cfg = inl (v, m, td)
    /\ voice_name v = t_Provider tel /\ messenger_name m = m_Provider msg
    /\ (forall x, x ∈ td <-> x = v /\ (t_Provider tel = ProviderFreeSwitch \/ t_Provider tel = ProviderAsterisk)).
Proof.
  intros Hl Hw. destruct (Build_loaded get tel msg cfg Hl Hw) as (v & m & Hb & Hv & Hm & _).
  eexists v, m, _. split; [exact Hb|]. split; [done|]. split; [done|]. intros x. rewrite <- Hv.
  destruct v; rewrite ?elem_of_nil, ?list_elem_of_singleton; cbn [voice_name].
  all: split; [intros H|intros [-> [H|H]]]; first [done | by split; [|auto] | discriminate H].
Qed.

(** An environment that selects FreeSWITCH and WhatsApp. *)
Definition demo_env : envGetter := fun k =>
  if String.eqb k EnvTelephonyProvider then "freeswitch"
  else if String.eqb k EnvMessagingProvider then " whatsappcloud "
  else if String.eqb k "ORVEXA_FREESWITCH_PORT" then "" else k.

Definition demo_cfg : Config :=
  MkConfig (Some (t_parsed demo_env ProviderFreeSwitch)) (Some (m_parsed demo_env ProviderWhatsAppCloud)) true true
    "" "" "" "" "".

Lemma deployment_builds_witness :
  LoadFromEnv demo_env = inl (t_parsed demo_env ProviderFreeSwitch, m_parsed demo_env ProviderWhatsAppCloud)
  /\ exists v m td, Build demo_cfg = inl (v, m, td) /\ voice_name v = ProviderFreeSwitch.
Proof.
  assert (LoadFromEnv demo_env
    = inl (t_parsed demo_env ProviderFreeSwitch, m_parsed demo_env ProviderWhatsAppCloud)) as Hl
    by (vm_compute; reflexivity).
  split; [exact Hl|].
  destruct (deployment_builds demo_env _ _ demo_cfg Hl) as (v & m & td & Hb & Hv & _).
  - split; [reflexivity|]. split; [reflexivity|]. split; reflexivity.
  - exists v, m, td. split; [exact Hb|]. rewrite Hv. reflexivity.
Defined.

(** A deployment that selects WhatsApp never sends. Whatever environment
    loads with the messaging provider set to whatsappcloud, the factory leaves
    [APIBaseURL] empty, which is documented to mean the Graph endpoint; the
    adapter's client is built on the empty base, so its request URL is a path
    without scheme or host, which the HTTP client refuses. Every send of
    either kind fails, whatever happened before, and no message id is ever
    known. *)
Lemma whatsapp_deployment_never_sends `{H : WaCloud.WaPorts} get tel msg cfg :
  LoadFromEnv get = inl (tel, msg) -> wired cfg tel msg ->
  trim_space (get EnvMessagingProvider) = ProviderWhatsAppCloud ->
  (forall log url body, has_prefix url "/" = true ->
     exists err, WaCloud.http_Do log url body = WaCloud.TransportFailed err) ->
  exists v c td, Build cfg = inl (v, MessengerWhatsApp c, td)
    /\ WaCloud.endpoint c = "/" +:+ m_WhatsAppPhoneNumberID msg +:+ "/messages"
    /\ forall ops, WaCloud.ledger (WaCloudProps.run_ops c ops) = ∅
        /\ forall o, (WaCloudProps.do_op c o (WaCloudProps.run_ops c ops)).1 <> None.
Proof.
  intros Hl Hw Hsel Hno. pose proof (LoadFromEnv_configured _ _ _ Hl) as [_ (_ & Hn & _)].
  assert (m_Provider msg = ProviderWhatsAppCloud) as Hp by (destruct Hn as [->|[He _]]; [done|by rewrite Hsel in He]).
  destruct (Build_loaded get tel msg cfg Hl Hw) as (v & m & Hb & _ & _ & Hc & _). rewrite (Hc Hp) in Hb.
  eexists v, _, _. split; [exact Hb|].
  pose proof (fun ops => WaCloudProps.unset_base_never_sends (whatsapp_client msg) ops eq_refl (WaCloudProps.retry_defaults _) Hno) as Hu.
  split; [exact (proj1 (Hu []))|]. intros ops. exact (proj2 (Hu ops)).
Qed.

Lemma whatsapp_deployment_never_sends_witness :
  exists v c td, Build demo_cfg = inl (v, MessengerWhatsApp c, td)
    /\ forall ops, WaCloud.ledger (WaCloudProps.run_ops (H := WaCloudProps.demo_ports) c ops) = ∅.
Proof.
  assert (LoadFromEnv demo_env
    = inl (t_parsed demo_env ProviderFreeSwitch, m_parsed demo_env ProviderWhatsAppCloud)) as Hl
    by (vm_compute; reflexivity).
  destruct (whatsapp_deployment_never_sends (H := WaCloudProps.demo_ports) demo_env _ _ demo_cfg Hl)
    as (v & c & td & Hb & _ & Hu).
  - split; [reflexivity|]. split; [reflexivity|]. split; reflexivity.
  - vm_compute. reflexivity.
  - intros log url body Hp. exists (OtherErr "unsupported protocol scheme" None). cbn. rewrite Hp. reflexivity.
  - exists v, c, td. split; [exact Hb|]. intros ops. exact (proj1 (Hu ops)).
Defined.

(** A deployment that selects Twilio for messages never sends either: the
    factory leaves [APIBaseURL] empty, and [New] does not put the documented
    default in its place. *)
Lemma twilio_deployment_never_sends `{Unicode} `{TwilioSms.TwPorts} get tel msg cfg :
  LoadFromEnv get = inl (tel, msg) -> wired cfg tel msg ->
  trim_space (get EnvMessagingProvider) = ProviderTwilio ->
  (forall log url user pass form, has_prefix url "/" = true -> exists err,
     TwilioSms.http_Do (log ++ [TwilioSms.Posted url user pass form]) = TwilioSms.TransportFailed err) ->
  exists v a td, Build cfg = inl (v, MessengerTwilio a, td)
    /\ forall msgs m, (TwilioSms.Send a m (TwilioSms.send_all a msgs)).1 <> None.
Proof.
  intros Hl Hw Hsel Hno. pose proof (LoadFromEnv_configured _ _ _ Hl) as [_ (_ & Hn & _)].
  assert (m_Provider msg = ProviderTwilio) as Hp by (destruct Hn as [->|[He _]]; [done|by rewrite Hsel in He]).
  destruct (Build_loaded get tel msg cfg Hl Hw) as (v & m & Hb & _ & _ & _ & Hc).
  destruct (Hc Hp) as (a & -> & Ha). eexists v, a, _. split; [exact Hb|].
  apply TwilioSms.unset_base_never_delivers; [|exact Hno].
  unfold TwilioSms.New, twilio_msg_config in Ha. cbn [TwilioSms.APIBaseURL TwilioSms.AccountSID TwilioSms.AuthToken] in Ha.
  destruct (_ || _); [done|]. destruct (negb _); [done|]. by injection Ha as <-.
Qed.
