(* ===== verification/Ussd.v ===== *)
(** * internal/messaging/adapters/africastalking/ussd.go: USSD sessions

    The session table and [TranslateUssdCallback] over it. The configured
    handler and the ingest hook are parameters, by the number of the call; the
    events handed to the hook, and each attempt to deliver one, are recorded.
    JSON bodies are decoded by a parameter, form bodies by UrlQuery. *)

From Stdlib Require Import String Ascii.
From S2P Require Import Prelude GoStd AppErrors Comms UrlQuery.

Local Open Scope Z_scope.

Definition EventUssdStarted := "ussd.session.started".
Definition EventUssdContinued := "ussd.session.continued".
Definition EventUssdEnded := "ussd.session.ended".

Inductive UssdPhase := UssdPhaseStarted | UssdPhaseContinued.

Record UssdCallback := MkUssdCallback {
  SessionID : string;
  ServiceCode : string;
  PhoneNumber : string;
  Text : string;
  NetworkCode : string;
  Phase : UssdPhase;
}.

Record UssdReply := MkUssdReply { rp_Text : string; rp_End : bool }.

Record ussdSession := MkUssdSession { ended : bool; wire : string }.

Record ussdTable := MkUssdTable {
  cap : Z;
  order : list string;
  sessions : gmap string ussdSession;
}.

Definition sentTableCap : Z := 65536.

Definition newUssdTable (cap : Z) : ussdTable :=
  MkUssdTable (if cap <=? 0 then sentTableCap else cap) [] ∅.

(** Is the session live? *)
Definition open_session (m : gmap string ussdSession) (id : string) : bool :=
  match m !! id with Some s => negb (ended s) | None => false end.

(** The loop of [evictLocked]: a live oldest entry is queued again and ends it. *)
Fixpoint evict (cap : Z) (order : list string) (m : gmap string ussdSession)
    : list string * gmap string ussdSession :=
  match order with
  | oldest :: rest =>
      if Z.of_nat (length order) <=? cap then (order, m)
      else if open_session m oldest then (rest ++ [oldest], m)
      else evict cap rest (delete oldest m)
  | [] => ([], m)
  end.

Definition evictLocked (t : ussdTable) : ussdTable :=
  let '(o, m) := evict (cap t) (order t) (sessions t) in MkUssdTable (cap t) o m.

(** What [begin] resolves to: the retained answer of an ended session, or the
    phase of the callback. *)
Inductive Begin := Retry (wire : string) | InPhase (phase : UssdPhase).

Definition begin (id : string) (t : ussdTable) : Begin * ussdTable :=
  match sessions t !! id with
  | Some s =>
      if ended s then (Retry (wire s), t)
      else (InPhase UssdPhaseContinued,
            MkUssdTable (cap t) (order t) (<[id := MkUssdSession false ""]> (sessions t)))
  | None =>
      (InPhase UssdPhaseStarted,
       evictLocked (MkUssdTable (cap t) (order t ++ [id])
                      (<[id := MkUssdSession false ""]> (sessions t))))
  end.

Definition rewind (id : string) (t : ussdTable) : ussdTable :=
  if open_session (sessions t) id then MkUssdTable (cap t) (order t) (delete id (sessions t)) else t.

(** The release function [begin] returns. *)
Definition release (phase : UssdPhase) (id : string) (t : ussdTable) : ussdTable :=
  match phase with UssdPhaseStarted => rewind id t | UssdPhaseContinued => t end.

(** [end] *)
Definition end_session (id wire : string) (t : ussdTable) : ussdTable :=
  match sessions t !! id with
  | Some _ => MkUssdTable (cap t) (order t) (<[id := MkUssdSession true wire]> (sessions t))
  | None => t
  end.

(** The wire text and whether the session ends; an empty text is no answer. *)
Definition ussdWire (reply : UssdReply) : string * bool :=
  let text := rp_Text reply in
  if is_empty (trim_space text) then ("", false)
  else if has_prefix text "END " then (text, true)
  else if has_prefix text "CON " then (text, false)
  else if rp_End reply then ("END " +:+ text, true)
  else ("CON " +:+ text, false).

(** The callback from its five fields, with the mandatory ones checked. *)
Definition checked_callback (sid code phone text net : string) : UssdCallback + Error :=
  let malformed msg := inr (Invalid "ussd.malformed_callback" msg) in
  if is_empty (trim_space sid) then malformed "ussd callback carries no session id"
  else if is_empty (trim_space code) then malformed "ussd callback carries no service code"
  else if is_empty (trim_space phone) then malformed "ussd callback carries no phone number"
  else inl (MkUssdCallback sid code phone text net UssdPhaseStarted).

Class UssdPorts := {
  (** [json.Unmarshal] into the callback's five fields *)
  json_callback : string -> (string * string * string * string * string) + error;
  UssdHandler : nat -> UssdCallback -> UssdReply + error;
  (** the signed ingest hook *)
  Ingest : nat -> ProviderEvent -> option error;
}.

Section Adapter.
Context `{UssdPorts}.

Definition parseUssdPayload (raw : string) : UssdCallback + Error :=
  let trimmed := trim_space raw in
  if is_empty trimmed then
    inr (Invalid "ussd.malformed_callback" "ussd callback payload is empty")
  else if has_prefix trimmed "{" then
    match json_callback trimmed with
    | inr err => inr (WithCause (Invalid "ussd.malformed_callback" "ussd callback is not parseable") err)
    | inl (sid, code, phone, text, net) => checked_callback sid code phone text net
    end
  else
    match ParseQuery trimmed with
    | inr err => inr (WithCause (Invalid "ussd.malformed_callback" "ussd callback is not parseable")
                        (OtherErr err None))
    | inl v =>
        checked_callback (values_get v "sessionId") (values_get v "serviceCode")
          (values_get v "phoneNumber") (values_get v "text") (values_get v "networkCode")
    end.

(** The adapter: its table, the calls made to the ports, the events handed to
    [emitWithRetry] in order, and the handler's calls. *)
Record Adapter := MkAdapter {
  TenantID : string;
  table : ussdTable;
  calls : nat;
  emitted : list ProviderEvent;
  handled : list UssdCallback;
}.

Definition with_table (t : ussdTable) (a : Adapter) : Adapter :=
  MkAdapter (TenantID a) t (calls a) (emitted a) (handled a).

(** [emitWithRetry]: a failed delivery is tried once more; its error is logged
    only. *)
Definition emitWithRetry (ev : ProviderEvent) (a : Adapter) : Adapter :=
  let n := match Ingest (calls a) ev with None => 1%nat | Some _ => 2%nat end in
  MkAdapter (TenantID a) (table a) (calls a + n) (emitted a ++ [ev]) (handled a).

Definition phase_event (a : Adapter) (cb : UssdCallback) (phase : UssdPhase) : ProviderEvent :=
  match phase with
  | UssdPhaseStarted =>
      MkProviderEvent EventUssdStarted (SessionID cb) (TenantID a) "" ("service_code=" +:+ ServiceCode cb)
  | UssdPhaseContinued => MkProviderEvent EventUssdContinued (SessionID cb) (TenantID a) "" ""
  end.

Definition end_event (a : Adapter) (cb : UssdCallback) : ProviderEvent :=
  MkProviderEvent EventUssdEnded (SessionID cb) (TenantID a) "" "".

Definition with_phase (phase : UssdPhase) (cb : UssdCallback) : UssdCallback :=
  MkUssdCallback (SessionID cb) (ServiceCode cb) (PhoneNumber cb) (Text cb) (NetworkCode cb) phase.

(** After the handler answered. *)
Definition answer (cb : UssdCallback) (phase : UssdPhase) (reply : UssdReply) (a : Adapter)
    : (string + error) * Adapter :=
  let id := SessionID cb in
  let '(w, e) := ussdWire reply in
  if is_empty w then
    (inr (AppErr (Invalid "ussd.empty_reply" "the handler returned no menu text")),
     with_table (release phase id (table a)) a)
  else
    let a := emitWithRetry (phase_event a cb phase) a in
    if e : bool then
      let a := emitWithRetry (end_event a cb) a in
      (inl w, with_table (end_session id w (table a)) a)
    else (inl w, a).

Definition TranslateCallback (cb : UssdCallback) (a : Adapter) : (string + error) * Adapter :=
  let id := SessionID cb in
  let '(b, t) := begin id (table a) in
  let a := with_table t a in
  match b with
  | Retry w => (inl w, a)
  | InPhase phase =>
      let cb := with_phase phase cb in
      let res := UssdHandler (calls a) cb in
      let a := MkAdapter (TenantID a) (table a) (S (calls a)) (emitted a) (handled a ++ [cb]) in
      match res with
      | inr err => (inr err, with_table (release phase id (table a)) a)
      | inl reply => answer cb phase reply a
      end
  end.

(** [TranslateUssdCallback] of an adapter that has a handler. *)
Definition TranslateUssdCallback (raw : string) (a : Adapter) : (string + error) * Adapter :=
  if is_empty (trim_space (TenantID a)) then
    (inr (AppErr (Invalid "ussd.tenant_required"
       "the USSD surface requires the account tenant (Config.TenantID)")), a)
  else
  match parseUssdPayload raw with
  | inr err => (inr (AppErr err), a)
  | inl cb => TranslateCallback cb a
  end.

(** A sequence of callbacks. *)
Fixpoint translate_all (raws : list string) (a : Adapter) : Adapter :=
  match raws with
  | [] => a
  | raw :: raws => translate_all raws (TranslateUssdCallback raw a).2
  end.
End Adapter.

(** ** Properties of the USSD session table

    What eviction keeps, the event protocol of a session, and the replay of
    retried callbacks. *)

(** ** Eviction *)

Lemma evict_none c o m : Z.of_nat (length o) <= c -> evict c o m = (o, m).
Proof. intros H. destruct o as [|x o]; [done|]. cbn [evict]. by rewrite (proj2 (Z.leb_le _ _)). Qed.

(** A live session is never forgotten. *)
Lemma evict_keeps_open c o m id :
  open_session m id = true -> (evict c o m).2 !! id = m !! id.
Proof.
  revert m. induction o as [|x o IH]; intros m Hid; cbn [evict]; [done|].
  destruct (_ <=? c); [done|]. destruct (open_session m x) eqn:Ex; [done|].
  assert (x <> id) by congruence. rewrite IH; [by rewrite lookup_delete_ne|].
  unfold open_session. by rewrite lookup_delete_ne.
Qed.

Lemma evictLocked_small t : Z.of_nat (length (order t)) <= cap t -> evictLocked t = t.
Proof. intros H. unfold evictLocked. rewrite evict_none by done. by destruct t. Qed.

Lemma evictLocked_open t id :
  open_session (sessions t) id = true -> sessions (evictLocked t) !! id = sessions t !! id.
Proof.
  intros H. unfold evictLocked. pose proof (evict_keeps_open (cap t) (order t) (sessions t) id H) as He.
  by destruct (evict _ _ _).
Qed.

Lemma open_session_spec m id : open_session m id = true <-> exists s, m !! id = Some s /\ ended s = false.
Proof.
  unfold open_session. destruct (m !! id) as [s|]; [|naive_solver].
  rewrite negb_true_iff. naive_solver.
Qed.

(** ** The steps of one callback *)

Lemma begin_spec id t b t' :
  begin id t = (b, t') ->
  match b with
  | Retry w => sessions t !! id = Some (MkUssdSession true w) /\ t' = t
  | InPhase p =>
      (forall w, sessions t !! id <> Some (MkUssdSession true w))
      /\ sessions t' !! id = Some (MkUssdSession false "")
      /\ (p = UssdPhaseContinued <-> is_Some (sessions t !! id))
  end.
Proof.
  unfold begin. destruct (sessions t !! id) as [[[] w]|] eqn:E; cbn [ended wire]; intros [= <- <-].
  - done.
  - split; [by intros w'|]. cbn [sessions]. rewrite lookup_insert_eq. naive_solver.
  - split; [by intros w'|]. split.
    + rewrite evictLocked_open; cbn [sessions]; [by rewrite lookup_insert_eq|].
      apply open_session_spec. rewrite lookup_insert_eq. eauto.
    + split; [done|]. intros [s Hs]; done.
Qed.

Lemma begin_other id t j :
  j <> id -> open_session (sessions t) j = true -> sessions (begin id t).2 !! j = sessions t !! j.
Proof.
  intros Hj Ho. unfold begin. destruct (sessions t !! id) as [[[] w]|]; cbn [ended snd sessions]; [done| |].
  - by rewrite lookup_insert_ne.
  - rewrite evictLocked_open; cbn [sessions]; rewrite ?lookup_insert_ne by done; [done|].
    apply open_session_spec in Ho as (s & Hs & He). apply open_session_spec. exists s.
    by rewrite lookup_insert_ne.
Qed.

(** With room, [begin] only touches its own session. *)
Lemma begin_small id t :
  Z.of_nat (S (length (order t))) <= cap t ->
  cap (begin id t).2 = cap t /\ (length (order (begin id t).2) <= S (length (order t)))%nat
  /\ forall j, j <> id -> sessions (begin id t).2 !! j = sessions t !! j.
Proof.
  intros Hc. unfold begin. destruct (sessions t !! id) as [[[] w]|]; cbn [ended snd]; [by split_and!; [|lia|]| |].
  - cbn [cap order sessions]. split_and!; [done|lia|]. intros j Hj. by rewrite lookup_insert_ne.
  - rewrite evictLocked_small by (cbn [order cap]; rewrite length_app; simpl; lia).
    cbn [cap order sessions]. split_and!; [done|rewrite length_app; simpl; lia|].
    intros j Hj. by rewrite lookup_insert_ne.
Qed.

Lemma ussdWire_end reply w e :
  ussdWire reply = (w, e) -> w <> "" -> has_prefix w "END " = e.
Proof.
  unfold ussdWire. destruct (is_empty _); [intros [= <- <-]; done|].
  destruct (has_prefix (rp_Text reply) "END ") eqn:E1; [by intros [= <- <-]|].
  destruct (has_prefix (rp_Text reply) "CON ") eqn:E2; [by intros [= <- <-]|].
  destruct (rp_End reply); intros [= <- <-] _; [|reflexivity].
  apply has_prefix_spec. by eexists.
Qed.

Section adapter.
Context `{UssdPorts}.

Definition phase_name (p : UssdPhase) : string :=
  match p with UssdPhaseStarted => EventUssdStarted | UssdPhaseContinued => EventUssdContinued end.

(** The session after a callback and the names of its events. *)
Inductive session_move (id : string) (m m' : option ussdSession) : list string -> Prop :=
| sm_retry w : m = Some (MkUssdSession true w) -> m' = m -> session_move id m m' []
| sm_failed_start : m = None -> m' = None -> session_move id m m' []
| sm_failed_turn : (exists w, m = Some (MkUssdSession false w)) -> m' = Some (MkUssdSession false "") ->
    session_move id m m' []
| sm_turn p e w : (p = UssdPhaseContinued <-> is_Some m) -> (forall w, m <> Some (MkUssdSession true w)) ->
    m' = Some (MkUssdSession e w) ->
    session_move id m m' (phase_name p :: if e then [EventUssdEnded] else []).

Lemma answer_move cb p reply a m :
  (p = UssdPhaseContinued <-> is_Some m) -> (forall w, m <> Some (MkUssdSession true w)) ->
  sessions (table a) !! SessionID cb = Some (MkUssdSession false "") ->
  let '(res, a') := answer cb p reply a in
  exists evs, emitted a' = emitted a ++ evs /\ Ussd.TenantID a' = Ussd.TenantID a
    /\ session_move (SessionID cb) m (sessions (table a') !! SessionID cb) (map ev_Event evs)
    /\ Forall (fun ev => ev_InteractionID ev = SessionID cb /\ ev_TenantID ev = Ussd.TenantID a) evs
    /\ cap (table a') = cap (table a) /\ order (table a') = order (table a)
    /\ (forall j, j <> SessionID cb -> sessions (table a') !! j = sessions (table a) !! j)
    /\ (forall w, res = inl w -> has_prefix w "END " = true ->
          sessions (table a') !! SessionID cb = Some (MkUssdSession true w)).
Proof.
  intros Hp Hm Hs. unfold answer. destruct (ussdWire reply) as [w e] eqn:Ew.
  destruct (is_empty w) eqn:E.
  - exists []. rewrite app_nil_r. cbn [with_table emitted Ussd.TenantID table].
    destruct p; cbn [release].
    + unfold rewind. rewrite (proj2 (open_session_spec _ _)) by eauto. cbn [sessions cap order].
      split_and!; try done; [|by intros j Hj; rewrite lookup_delete_ne].
      rewrite lookup_delete_eq. apply sm_failed_start; [|done].
      destruct m as [u|]; [|done]. discriminate (proj2 Hp (mk_is_Some (Some u) u eq_refl)).
    + split_and!; try done. apply sm_failed_turn; [|exact Hs]. destruct (proj1 Hp eq_refl) as [[[] w'] ->]; [|eauto].
      by destruct (Hm w').
  - apply is_empty_false in E. pose proof (ussdWire_end _ _ _ Ew E) as Hend. destruct e.
    + exists [phase_event a cb p; end_event a cb].
      unfold emitWithRetry, with_table. cbn [emitted Ussd.TenantID table].
      unfold end_session. rewrite Hs. cbn [sessions cap order].
      split_and!; try done.
      * by rewrite <- app_assoc.
      * rewrite lookup_insert_eq. destruct p; exact (sm_turn _ _ _ _ true w Hp Hm eq_refl).
      * repeat constructor; destruct p; reflexivity.
      * intros j Hj. by rewrite lookup_insert_ne.
      * intros w' [= <-] _. by rewrite lookup_insert_eq.
    + exists [phase_event a cb p]. unfold emitWithRetry. cbn [emitted Ussd.TenantID table].
      split_and!; try done.
      * rewrite Hs. destruct p; exact (sm_turn _ _ _ _ false "" Hp Hm eq_refl).
      * repeat constructor; destruct p; reflexivity.
      * intros w' [= <-]. by rewrite Hend.
Qed.

(** What a callback does: to its own session, to the others, and when it ends. *)
Record callback_effect (cb : UssdCallback) (a a' : Adapter) (res : string + error)
    (evs : list ProviderEvent) : Prop := {
  ce_emitted : emitted a' = emitted a ++ evs;
  ce_tenant : Ussd.TenantID a' = Ussd.TenantID a;
  ce_move : session_move (SessionID cb) (sessions (table a) !! SessionID cb)
              (sessions (table a') !! SessionID cb) (map ev_Event evs);
  ce_events : Forall (fun ev => ev_InteractionID ev = SessionID cb
                                /\ ev_TenantID ev = Ussd.TenantID a) evs;
  ce_open : forall j, j <> SessionID cb -> open_session (sessions (table a)) j = true ->
              sessions (table a') !! j = sessions (table a) !! j;
  ce_room : Z.of_nat (S (length (order (table a)))) <= cap (table a) ->
              cap (table a') = cap (table a)
              /\ (length (order (table a')) <= S (length (order (table a))))%nat
              /\ forall j, j <> SessionID cb -> sessions (table a') !! j = sessions (table a) !! j;
  ce_end : forall w, res = inl w -> has_prefix w "END " = true ->
              sessions (table a') !! SessionID cb = Some (MkUssdSession true w)
}.

Lemma with_own_table a : with_table (table a) a = a.
Proof. by destruct a. Qed.

Lemma callback_moves cb a :
  exists evs, callback_effect cb a (TranslateCallback cb a).2 (TranslateCallback cb a).1 evs.
Proof.
  unfold TranslateCallback. destruct (begin (SessionID cb) (table a)) as [b t] eqn:Eb.
  pose proof (begin_spec _ _ _ _ Eb) as Hb. destruct b as [w|p].
  - destruct Hb as [Hb ->]. rewrite with_own_table. exists []. cbn [fst snd]. split; try done.
    + by rewrite app_nil_r.
    + by eapply sm_retry.
    + intros Hr. split_and!; [done|lia|done].
    + by intros w' [= <-].
  - destruct Hb as (Hnot & Hs & Hp).
    assert (forall j, j <> SessionID cb -> open_session (sessions (table a)) j = true ->
              sessions t !! j = sessions (table a) !! j) as Ho.
    { intros j Hj Hopen. pose proof (begin_other _ _ _ Hj Hopen) as H'. by rewrite Eb in H'. }
    assert (Z.of_nat (S (length (order (table a)))) <= cap (table a) ->
              cap t = cap (table a) /\ (length (order t) <= S (length (order (table a))))%nat
              /\ forall j, j <> SessionID cb -> sessions t !! j = sessions (table a) !! j) as Hroom.
    { intros Hr. pose proof (begin_small (SessionID cb) (table a) Hr) as H'. by rewrite Eb in H'. }
    set (cb' := with_phase p cb).
    set (a1 := MkAdapter (Ussd.TenantID a) t (S (calls a)) (emitted a) (handled a ++ [cb'])).
    cbn [with_table calls table Ussd.TenantID emitted handled]. fold cb' a1.
    destruct (UssdHandler (calls a) cb') as [reply|err].
    + pose proof (answer_move cb' p reply a1 (sessions (table a) !! SessionID cb) Hp Hnot Hs) as H'.
      destruct (answer cb' p reply a1) as [res a']. cbn [fst snd].
      destruct H' as (evs & H1 & H2 & H3 & H4 & H5 & H6 & H7 & H8). exists evs.
      split; [done..| | |exact H8].
      * intros j Hj Hopen. rewrite H7 by done. by apply Ho.
      * intros Hr. rewrite H5, H6. destruct (Hroom Hr) as (? & ? & Hj). split_and!; [done..|].
        intros j Hne. rewrite H7 by done. by apply Hj.
    + exists []. subst a1. cbn [fst snd with_table emitted Ussd.TenantID table].
      assert (forall j, j <> SessionID cb -> sessions (release p (SessionID cb) t) !! j = sessions t !! j) as Hrel.
      { intros j Hj. destruct p; cbn [release]; [|done]. unfold rewind.
        destruct (open_session _ _); [|done]. cbn [sessions]. by rewrite lookup_delete_ne. }
      assert (cap (release p (SessionID cb) t) = cap t /\ order (release p (SessionID cb) t) = order t) as [Hc Hord].
      { destruct p; cbn [release]; [|done]. unfold rewind. by destruct (open_session _ _). }
      split; [by rewrite app_nil_r|done| |constructor| | |done].
      * destruct p; cbn [release].
        -- unfold rewind. rewrite (proj2 (open_session_spec _ _)) by eauto. cbn [sessions].
           cbn [with_table table sessions]. rewrite lookup_delete_eq. apply sm_failed_start; [|done].
           destruct (sessions (table a) !! SessionID cb) as [u|]; [|done].
           discriminate (proj2 Hp (mk_is_Some (Some u) u eq_refl)).
        -- apply sm_failed_turn; [|exact Hs]. destruct (proj1 Hp eq_refl) as [[[] w] Hu]; [|eauto].
           by destruct (Hnot w).
      * intros j Hj Hopen. cbn [table]. rewrite Hrel by done. by apply Ho.
      * intros Hr. cbn [with_table table]. rewrite Hc, Hord. destruct (Hroom Hr) as (? & ? & Hj). split_and!; [done..|].
        intros j Hne. rewrite Hrel by done. by apply Hj.
Qed.

(** ** Sequences *)

(** The events of a session so far. *)
Definition events_of (id : string) (evs : list ProviderEvent) : list ProviderEvent :=
  List.filter (fun ev => String.eqb (ev_InteractionID ev) id) evs.

(** Started once, continued any number of times, ended at most once and last. *)
Definition protocol (s : option ussdSession) (names : list string) : Prop :=
  match s with
  | None => names = []
  | Some s => exists k, names = EventUssdStarted :: repeat EventUssdContinued k
                                ++ (if ended s then [EventUssdEnded] else [])
  end.

Lemma session_move_protocol id m m' names evs :
  session_move id m m' evs -> protocol m names -> protocol m' (names ++ evs).
Proof.
  intros [w -> ->| -> ->|[w ->] ->|p e w Hp Hm ->] Hn; rewrite ?app_nil_r; try exact Hn.
  destruct m as [[[] w']|]; [by destruct (Hm w')|..].
  - destruct Hn as [k ->]. rewrite (proj2 Hp) by eauto. exists (S k). cbn [ended phase_name].
    rewrite app_nil_r. cbn [app]. f_equal.
    rewrite (cons_middle EventUssdContinued).
    rewrite app_assoc. f_equal. symmetry. apply repeat_cons.
  - cbn [protocol] in Hn. subst names. destruct p; [|by destruct (proj1 Hp eq_refl)]. by exists 0%nat.
Qed.

(** The state of an adapter with room agrees with its log. *)
Record agrees (a : Adapter) : Prop := {
  ag_protocol : forall id, protocol (sessions (table a) !! id)
                             (map ev_Event (events_of id (emitted a)));
  ag_tenant : Forall (fun ev => ev_TenantID ev = Ussd.TenantID a) (emitted a);
}.

Lemma events_of_app id l k : events_of id (l ++ k) = events_of id l ++ events_of id k.
Proof. apply List.filter_app. Qed.

Lemma events_of_own id evs :
  Forall (fun ev => ev_InteractionID ev = id) evs -> events_of id evs = evs.
Proof.
  induction 1 as [|ev evs He _ IH]; [done|]. unfold events_of in *. simpl. by rewrite He, String.eqb_refl, IH.
Qed.

Lemma events_of_foreign id j evs :
  Forall (fun ev => ev_InteractionID ev = id) evs -> j <> id -> events_of j evs = [].
Proof.
  intros Hf Hj. induction Hf as [|ev evs He _ IH]; [done|]. unfold events_of in *. simpl.
  rewrite He. by rewrite (proj2 (String.eqb_neq _ _)).
Qed.

Lemma callback_agrees cb a :
  Z.of_nat (S (length (order (table a)))) <= cap (table a) -> agrees a ->
  agrees (TranslateCallback cb a).2.
Proof.
  intros Hr [Hp Ht]. destruct (callback_moves cb a) as [evs [He Hten Hm Hev _ Hroom _]].
  assert (Forall (fun ev => ev_InteractionID ev = SessionID cb) evs) as Hid
    by (eapply Forall_impl; [exact Hev|]; by intros ev [? _]).
  split.
  - intros id. rewrite He, events_of_app, map_app. destruct (decide (id = SessionID cb)) as [->|Hne].
    + rewrite (events_of_own _ evs) by done. by eapply session_move_protocol.
    + rewrite (events_of_foreign (SessionID cb) id evs) by done. rewrite app_nil_r.
      destruct (Hroom Hr) as (_ & _ & ->); done.
  - rewrite He, Hten. apply Forall_app. split; [done|]. eapply Forall_impl; [exact Hev|]. by intros ev [_ ?].
Qed.

(** A raw payload is a callback or changes nothing. *)
Lemma translate_cases raw a :
  (exists cb, parseUssdPayload raw = inl cb /\ TranslateUssdCallback raw a = TranslateCallback cb a)
  \/ (TranslateUssdCallback raw a).2 = a.
Proof.
  unfold TranslateUssdCallback. destruct (is_empty _); [by right|].
  destruct (parseUssdPayload raw) as [cb|err]; [left; eauto|by right].
Qed.

Definition room (n : nat) (a : Adapter) : Prop :=
  Z.of_nat (n + length (order (table a))) <= cap (table a).

Lemma translate_room n raw a : room (S n) a -> room n (TranslateUssdCallback raw a).2.
Proof.
  unfold room. intros Hr. destruct (translate_cases raw a) as [(cb & _ & ->)| ->]; [|lia].
  destruct (callback_moves cb a) as [evs [_ _ _ _ _ Hroom _]]. destruct Hroom as (-> & ? & _); lia.
Qed.

Lemma translate_all_agrees raws a : room (length raws) a -> agrees a -> agrees (translate_all raws a).
Proof.
  revert a. induction raws as [|raw raws IH]; intros a Hr Ha; [done|]. cbn [translate_all].
  apply IH; [by apply translate_room|].
  destruct (translate_cases raw a) as [(cb & _ & ->)| ->]; [|done].
  apply callback_agrees; [|done]. unfold room in Hr. simpl in Hr. lia.
Qed.

(** An ended session keeps its answer while there is room. *)
Lemma ended_kept raws a id w :
  room (length raws) a -> sessions (table a) !! id = Some (MkUssdSession true w) ->
  sessions (table (translate_all raws a)) !! id = Some (MkUssdSession true w).
Proof.
  revert a. induction raws as [|raw raws IH]; intros a Hr Ha; [done|]. cbn [translate_all].
  apply IH; [by apply translate_room|].
  destruct (translate_cases raw a) as [(cb & _ & ->)| ->]; [|done].
  destruct (callback_moves cb a) as [evs [_ _ Hm _ _ Hroom _]].
  destruct (decide (id = SessionID cb)) as [->|Hne].
  - rewrite Ha in Hm. inversion Hm as [? ? E|E|[? E]|? ? ? ? E]; simplify_eq; [by rewrite E|].
    by edestruct E.
  - destruct Hroom as (_ & _ & ->); [unfold room in Hr; simpl in Hr; lia|done..].
Qed.
End adapter.

(** Callbacks of other sessions leave a live session alone. *)
Lemma live_kept `{UssdPorts} raws a id :
  open_session (sessions (table a)) id = true ->
  Forall (fun raw => match parseUssdPayload raw with
                     | inl cb => SessionID cb <> id | inr _ => True end) raws ->
  sessions (table (translate_all raws a)) !! id = sessions (table a) !! id.
Proof.
  intros Hopen Hother. revert a Hopen. induction Hother as [|raw raws Hraw _ IH]; intros a Hopen; [done|].
  cbn [translate_all].
  assert (sessions (table (TranslateUssdCallback raw a).2) !! id = sessions (table a) !! id) as He.
  { destruct (translate_cases raw a) as [(cb & Hcb & ->)| ->]; [|done]. rewrite Hcb in Hraw.
    destruct (callback_moves cb a) as [evs [_ _ _ _ Ho _ _]]. by apply Ho. }
  rewrite IH; [exact He|]. unfold open_session in *. by rewrite He.
Qed.

Lemma translate_all_tenant `{UssdPorts} raws a :
  Ussd.TenantID (translate_all raws a) = Ussd.TenantID a.
Proof.
  revert a. induction raws as [|raw raws IH]; intros a; [done|]. cbn [translate_all]. rewrite IH.
  destruct (translate_cases raw a) as [(cb & _ & ->)| ->]; [|done].
  by destruct (callback_moves cb a) as [evs [_ Ht _ _ _ _ _]].
Qed.

(** ** The properties *)

Section properties.
Context `{UssdPorts}.

(** A new adapter of a tenant, its table holding [cap] sessions. *)
Definition new_adapter (tenant : string) (cap : Z) : Adapter :=
  MkAdapter tenant (newUssdTable cap) 0 [] [].

(** The session protocol. Whatever payloads an adapter receives, while its
    table has room the events it hands to the ingest hook for each session
    are one [ussd.session.started], any number of [continued], and at most one
    [ended], which is the last: the session is ended in the table exactly when
    that event was emitted, and every event carries the adapter's tenant. *)
Lemma ussd_session_protocol tenant c raws (Hroom : Z.of_nat (length raws) <= c) :
  let a := translate_all raws (new_adapter tenant c) in
  (forall id, protocol (sessions (table a) !! id) (map ev_Event (events_of id (emitted a))))
  /\ Forall (fun ev => ev_TenantID ev = tenant) (emitted a).
Proof.
  cbv zeta. assert (agrees (translate_all raws (new_adapter tenant c))) as [Hp Ht].
  { apply translate_all_agrees.
    - unfold room, new_adapter, newUssdTable. destruct (c <=? 0) eqn:Hc; cbn [table order cap length].
      + apply Z.leb_le in Hc. unfold sentTableCap. lia.
      + lia.
    - split; [done|constructor]. }
  split; [exact Hp|]. by rewrite translate_all_tenant in Ht.
Qed.

(** Retries are answered from the table. Once a callback was answered with
    an [END] text, then after any further payloads for which the table had
    room, the carrier's retry of that session gets the same text again; the
    handler does not run, nothing is emitted and the adapter does not change. *)
Lemma ussd_retry_replays cb retry raws a w (Hid : SessionID retry = SessionID cb)
    (Hans : (TranslateCallback cb a).1 = inl w) (Hend : has_prefix w "END " = true)
    (Hroom : room (length raws) (TranslateCallback cb a).2) :
  let a' := translate_all raws (TranslateCallback cb a).2 in
  TranslateCallback retry a' = (inl w, a').
Proof.
  cbv zeta. destruct (callback_moves cb a) as [evs [_ _ _ _ _ _ He]].
  pose proof (ended_kept raws _ _ _ Hroom (He w Hans Hend)) as Hk.
  unfold TranslateCallback at 1. unfold begin. rewrite Hid, Hk. cbn [ended wire].
  by rewrite with_own_table.
Qed.

(** A live session is never evicted: whatever callbacks other sessions
    send, however full the table, it stays as it is, so its next callback is a
    continuation and not a second start. *)
Lemma ussd_live_session_kept raws a id
    (Hopen : open_session (sessions (table a)) id = true)
    (Hother : Forall (fun raw => match parseUssdPayload raw with
                                 | inl cb => SessionID cb <> id | inr _ => True end) raws) :
  let a' := translate_all raws a in
  sessions (table a') !! id = sessions (table a) !! id
  /\ (begin id (table a')).1 = InPhase UssdPhaseContinued.
Proof.
  cbv zeta. pose proof (live_kept raws a id Hopen Hother) as He. split; [exact He|].
  apply open_session_spec in Hopen as (s & Hs & Hend). unfold begin. by rewrite He, Hs, Hend.
Qed.
End properties.

(** A handler that keeps every session going but the text [9], and a hook that
    always accepts. *)
#[local] Instance example_ports : UssdPorts := {|
  json_callback := fun _ => inr (OtherErr "unexpected end of JSON input" None);
  UssdHandler := fun _ cb => inl (MkUssdReply "menu" (String.eqb (Text cb) "9"));
  Ingest := fun _ _ => None;
|}.

Definition payload (sid text : string) : string :=
  "sessionId=" +:+ sid +:+ "&serviceCode=%2A123%23&phoneNumber=%2B254700&text=" +:+ text.

Definition cb_of (raw : string) : UssdCallback :=
  match parseUssdPayload raw with
  | inl cb => cb | inr _ => MkUssdCallback "" "" "" "" "" UssdPhaseStarted
  end.

Lemma ussd_session_protocol_witness :
  let raws := [payload "s1" ""; payload "s2" ""; payload "s1" "1"; payload "s1" "9"; payload "s1" "9"] in
  let a := translate_all raws (new_adapter "t1" 8) in
  map ev_Event (events_of "s1" (emitted a)) = [EventUssdStarted; EventUssdContinued; EventUssdContinued; EventUssdEnded]
  /\ forall id, protocol (sessions (table a) !! id) (map ev_Event (events_of id (emitted a))).
Proof.
  cbv zeta. split; [by vm_compute|]. refine (proj1 (ussd_session_protocol "t1" 8 _ _)). discriminate.
Defined.

Lemma ussd_retry_replays_witness :
  let a := new_adapter "t1" 8 in
  let cb := cb_of (payload "s1" "9") in
  let a' := translate_all [payload "s2" ""; payload "s1" "9"] (TranslateCallback cb a).2 in
  (TranslateCallback cb a).1 = inl "END menu" /\ TranslateCallback cb a' = (inl "END menu", a').
Proof.
  cbv zeta. assert ((TranslateCallback (cb_of (payload "s1" "9")) (new_adapter "t1" 8)).1 = inl "END menu") as E
    by (vm_compute; reflexivity).
  split; [exact E|]. apply (ussd_retry_replays (cb_of (payload "s1" "9"))); [reflexivity|exact E|reflexivity|].
  discriminate.
Defined.

Lemma ussd_live_session_kept_witness :
  let a := translate_all [payload "s1" ""] (new_adapter "t1" 1) in
  let a' := translate_all [payload "s2" "9"; payload "s3" ""] a in
  sessions (table a') !! "s1" = Some (MkUssdSession false "")
  /\ (begin "s1" (table a')).1 = InPhase UssdPhaseContinued.
Proof.
  cbv zeta. set (a := translate_all [payload "s1" ""] (new_adapter "t1" 1)).
  assert (sessions (table a) !! "s1" = Some (MkUssdSession false "")) as <- by (vm_compute; reflexivity).
  apply (ussd_live_session_kept [payload "s2" "9"; payload "s3" ""] a "s1"); [by vm_compute|].
  apply Forall_cons; split; [by vm_compute|]. apply Forall_cons; split; [by vm_compute|]. constructor.
Defined.

(** The table is not bounded by its cap: sessions that are never ended stay. *)
Lemma ussd_table_exceeds_cap :
  let a := translate_all [payload "s1" ""; payload "s2" ""; payload "s3" ""] (new_adapter "t1" 1) in
  cap (table a) = 1 /\ size (sessions (table a)) = 3%nat /\ length (order (table a)) = 3%nat.
Proof. by vm_compute. Qed.
