(* ===== verification/AtSms.v ===== *)
(** * internal/messaging/adapters/africastalking/sms.go: outbound SMS

    Preparation of a message, the bounded retry loop over the carrier's API,
    the send with its receipts, delivery reports, and the single-flight send
    table as a shared store of slots with the interleavings of its senders.

    The HTTP client, the context, the JSON decoders and the ingest hook are
    parameters: by the number of the effect, or pure. *)

From Stdlib Require Import String Ascii.
From S2P Require Import Prelude GoStd AppErrors Comms UrlQuery Text Regexp Customers Planes.
From S2P Require Ussd.

Local Open Scope Z_scope.

Definition defaultMaxRetries : Z := 2.
Definition defaultBaseDelay : Z := 25 * Millisecond.
Definition defaultMaxDelay : Z := 2 * Second.

(** [^\+[1-9]\d{7,14}$] *)
Definition e164Re : regex :=
  Cat (Byte "+") (Cat (Class (in_range 49 57)) (Between 7 14 (Class is_digit))).

(** The effective part of [Config] this file uses. *)
Record Config := MkConfig {
  SenderID : string;
  Username : string;
  MaxRetries : Z;
  BaseDelay : Z;
  MaxDelay : Z;
}.

(** The defaults of [New]. *)
Definition effective (cfg : Config) : Config :=
  MkConfig (SenderID cfg) (Username cfg)
    (if MaxRetries cfg <=? 0 then defaultMaxRetries else MaxRetries cfg)
    (if BaseDelay cfg <=? 0 then defaultBaseDelay else BaseDelay cfg)
    (if MaxDelay cfg <=? 0 then defaultMaxDelay else MaxDelay cfg).

(** ** Preparation *)

Record prepared := MkPrepared {
  pp_interactionID : string;
  pp_tenantID : string;
  pp_from : string;
  pp_to : string;
  pp_text : string;
}.

Section Prepare.
Context `{Unicode}.

Definition normalizeE164 (to : string) : string + Error :=
  match NormalizeIdentifier IdentPhone to with
  | inr err =>
      inr (WithCause (Invalid "at.to_not_e164" "destination must be a routable international phone number")
             (AppErr err))
  | inl v =>
      if negb (matches e164Re v) then
        inr (Invalid "at.to_not_e164"
               "destination must be strict E.164 (+<country><subscriber>, 8-15 digits)")
      else inl v
  end.

Definition newline : string := String "010"%char EmptyString.

Definition smsText (msg : Message) : string + Error :=
  let text := msg_Body msg in
  let text := if is_empty (trim_space text) && negb (no_items (msg_MediaURLs msg))
              then Join (msg_MediaURLs msg) newline else text in
  if is_empty (trim_space text) then
    inr (Invalid "message.body_required" "body or media is required")
  else if 4096 <? RuneCountInString text then
    inr (Invalid "message.body_too_long" "body must be at most 4096 chars")
  else inl text.

Definition prepare (cfg : Config) (msg : Message) : prepared + Error :=
  if is_empty (trim_space (msg_TenantID msg)) then
    inr (Invalid "message.tenant_required" "tenant context is required")
  else if is_empty (trim_space (msg_InteractionID msg)) then
    inr (Invalid "message.interaction_required" "interaction id is required")
  else
  match ValidateMessage msg with
  | Some err => inr err
  | None =>
      match smsText msg with
      | inr err => inr err
      | inl text =>
          match normalizeE164 (msg_To msg) with
          | inr err => inr err
          | inl to =>
              let f := trim_space (msg_From msg) in
              inl (MkPrepared (msg_InteractionID msg) (msg_TenantID msg)
                     (if is_empty f then SenderID cfg else f) to text)
          end
      end
  end.
End Prepare.

(** ** The carrier's answers *)

Record smsRequest := MkSmsRequest {
  rq_Username : string;
  rq_To : string;
  rq_Message : string;
  rq_From : string;
}.

Record smsRecipient := MkSmsRecipient {
  StatusCode : Z;
  Status : string;
  MessageID : string;
}.

Definition carrierAccepted (statusCode : Z) (status : string) : bool :=
  if (statusCode =? 100) || (statusCode =? 101) || (statusCode =? 102) then true
  else equal_fold (trim_space status) "Success".

Definition deliveredInline (statusCode : Z) (status : string) : bool :=
  (statusCode =? 102) || equal_fold (trim_space status) "Delivered".

Definition http_status_cause (status : Z) : error := OtherErr ("http status=" +:+ itoa status) None.

Definition mapCarrierError (status : Z) : Error :=
  if (status =? 401) || (status =? 403) then
    WithCause (New KindUnauth "at.unauthorized" "carrier rejected the credentials") (http_status_cause status)
  else if (400 <=? status) && (status <? 500) then
    WithCause (Invalid "at.send_rejected" "carrier rejected the request") (http_status_cause status)
  else
    WithCause (Internal "at.provider_error" "carrier returned an unexpected response")
      (http_status_cause status).

(** ** The retry loop *)

(** One [http.Client.Do] with the reading of the body. *)
Inductive Outcome :=
| TransportError (err : error)
| ReadError (err : error)
| Response (status : Z) (retryAfterHeader : string) (body : string).

Definition retryAfter (v : string) : Z :=
  let v := trim_space v in
  if is_empty v then 0 else
  match atoi v with
  | Some secs => if secs <=? 0 then 0 else wrap64 (secs * Second)
  | None => 0
  end.

(** The doubling loop of [sleepBackoff], from [i] on. *)
Fixpoint double_delay (n : nat) (delay max : Z) : Z :=
  match n with
  | O => delay
  | S n => if delay <? max then double_delay n (wrap64 (delay * 2)) max else delay
  end.

(** The wait before attempt number [attempt]. *)
Definition backoff (base max : Z) (attempt : Z) (retryAfter : Z) : Z :=
  let delay := double_delay (Z.to_nat (attempt - 1)) base max in
  let delay := if (delay <=? 0) || (max <? delay) then max else delay in
  if 0 <? retryAfter then (if max <? retryAfter then max else retryAfter) else delay.

(** What the loop did, in order. *)
Inductive Act := Slept (delay : Z) | Requested (payload : smsRequest).

Class AtPorts := {
  http_Do : nat -> smsRequest -> Outcome;
  (** [ctx.Err()] *)
  ctx_Err : nat -> option error;
  (** [json.Unmarshal] of the send response: its recipients *)
  json_response : string -> (list smsRecipient) + error;
  (** [json.Unmarshal] of a delivery report: id, status, failure reason *)
  json_report : string -> (string * string * string) + error;
  (** the signed ingest hook *)
  at_Ingest : nat -> ProviderEvent -> option error;
}.

Definition transport_failed (msg : string) (cause : error) : Error :=
  WithCause (Internal "at.transport_failed" msg) cause.

Definition temporary_error (status : Z) : Error :=
  if status =? 429 then
    WithCause (RateLimited "at.rate_limited" "carrier rate limited the request") (http_status_cause status)
  else
    WithCause (Internal "at.provider_unavailable" "carrier temporarily unavailable")
      (http_status_cause status).

Section Adapter.
Context `{AtPorts}.

(** [post]'s loop with [todo] attempts to go; [n] counts the effects. The
    result is the response or the error. *)
Fixpoint post_loop (todo : nat) (cfg : Config) (payload : smsRequest) (attempt : Z)
    (lastErr : option Error) (lastRetryAft : Z) (n : nat)
    : ((Z * string) + Error) * nat * list Act :=
  match todo with
  | O => (match lastErr with Some err => inr err | None => inl (0, "") end, n, [])
  | S todo =>
      let waits := 0 <? attempt in
      let slept := if waits then [Slept (backoff (BaseDelay cfg) (MaxDelay cfg) attempt lastRetryAft)] else [] in
      match (if waits then ctx_Err n else None) with
      | Some err =>
          (inr (transport_failed "carrier request canceled during retry backoff" err), S n, slept)
      | None =>
          let n := if waits then S n else n in
          let acts := slept ++ [Requested payload] in
          let again err retryAft n :=
            let '(r, n', acts') := post_loop todo cfg payload (attempt + 1) (Some err) retryAft n in
            (r, n', acts ++ acts') in
          match http_Do n payload with
          | TransportError err =>
              match ctx_Err (S n) with
              | Some cerr => (inr (transport_failed "carrier request canceled" cerr), S (S n), acts)
              | None => again (transport_failed "carrier transport failed" err) 0 (S (S n))
              end
          | ReadError err => again (transport_failed "could not read the carrier response" err) 0 (S n)
          | Response status header body =>
              if (status =? 429) || (500 <=? status) then
                again (temporary_error status) (retryAfter header) (S n)
              else (inl (status, body), S n, acts)
          end
      end
  end.

(** [post]: at most [MaxRetries + 1] attempts. *)
Definition post (cfg : Config) (payload : smsRequest) (n : nat)
    : ((Z * string) + Error) * nat * list Act :=
  post_loop (Z.to_nat (MaxRetries cfg + 1)) cfg payload 0 None 0 n.
End Adapter.

(** ** The send table *)

Record sendRecord := MkSendRecord {
  sr_InteractionID : string;
  sr_TenantID : string;
  sr_MessageID : string;
}.

(** A slot of the shared store: whether [done] is closed, and the record. *)
Record sendSlot := MkSendSlot {
  closed : bool;
  rec : option sendRecord;
}.

Record sendTable := MkSendTable {
  cap : Z;
  order : list string;
  slots : gmap string nat;
  byMsg : gmap string sendRecord;
}.

(** The slots by address, and the next free address. *)
Record heap := MkHeap {
  cells : gmap nat sendSlot;
  next : nat;
}.

Definition newSendTable (cap : Z) : sendTable :=
  MkSendTable (if cap <=? 0 then Ussd.sentTableCap else cap) [] ∅ ∅.

(** [slotClosed] *)
Definition slotClosed (h : heap) (s : nat) : bool :=
  match cells h !! s with Some c => closed c | None => false end.

(** The carrier id a slot's record is indexed under. *)
Definition slot_message (h : heap) (s : nat) : option string :=
  match cells h !! s with
  | Some c =>
      match rec c with
      | Some r => if is_empty (sr_MessageID r) then None else Some (sr_MessageID r)
      | None => None
      end
  | None => None
  end.

(** The loop of [evictLocked] over the order. *)
Fixpoint evict (h : heap) (overflow : Z) (order : list string) (slots : gmap string nat)
    (byMsg : gmap string sendRecord) : list string * gmap string nat * gmap string sendRecord :=
  match order with
  | [] => ([], slots, byMsg)
  | id :: order =>
      let s := slots !! id in
      let gone := match s with None => true | Some a => slotClosed h a end in
      if (0 <? overflow) && gone then
        match s with
        | None => evict h (overflow - 1) order slots byMsg
        | Some a =>
            let byMsg := match slot_message h a with Some m => delete m byMsg | None => byMsg end in
            evict h (overflow - 1) order (delete id slots) byMsg
        end
      else
        let '(keep, slots, byMsg) := evict h overflow order slots byMsg in
        (id :: keep, slots, byMsg)
  end.

Definition evictLocked (h : heap) (t : sendTable) : sendTable :=
  let overflow := Z.of_nat (length (order t)) - cap t in
  if overflow <=? 0 then t
  else
    let '(o, s, b) := evict h overflow (order t) (slots t) (byMsg t) in
    MkSendTable (cap t) o s b.

(** [reserve]: the slot and whether the caller owns it. *)
Definition reserve (id : string) (h : heap) (t : sendTable) : nat * bool * heap * sendTable :=
  match slots t !! id with
  | Some s => (s, false, h, t)
  | None =>
      let s := next h in
      let h := MkHeap (<[s := MkSendSlot false None]> (cells h)) (S (next h)) in
      let t := MkSendTable (cap t) (order t ++ [id]) (<[id := s]> (slots t)) (byMsg t) in
      (s, true, h, evictLocked h t)
  end.

(** The locked part of [commit], before [close(s.done)]. *)
Definition commit (s : nat) (r : sendRecord) (h : heap) (t : sendTable) : heap * sendTable :=
  (MkHeap (<[s := MkSendSlot (slotClosed h s) (Some r)]> (cells h)) (next h),
   MkSendTable (cap t) (order t) (slots t)
     (if is_empty (sr_MessageID r) then byMsg t else <[sr_MessageID r := r]> (byMsg t))).

(** The locked part of [release]. *)
Definition release (id : string) (s : nat) (t : sendTable) : sendTable :=
  match slots t !! id with
  | Some cur => if (cur =? s)%nat then MkSendTable (cap t) (order t) (delete id (slots t)) (byMsg t) else t
  | None => t
  end.

(** [close(s.done)] *)
Definition close_slot (s : nat) (h : heap) : heap :=
  MkHeap (alter (fun c => MkSendSlot true (rec c)) s (cells h)) (next h).

Definition byMessage (m : string) (t : sendTable) : option sendRecord := byMsg t !! m.

(** ** One owner's round trip *)

Section Send.
Context `{AtPorts}.

(** The adapter while a sender runs: the table, its slots, the number of the
    next effect and the events handed to the ingest hook. *)
Record world := MkWorld {
  w_heap : heap;
  w_table : sendTable;
  w_n : nat;
  w_emitted : list ProviderEvent;
}.

(** [emitWithRetry]: a failed delivery is tried once more. *)
Definition emitWithRetry (ev : ProviderEvent) (w : world) : option error * world :=
  let n := w_n w in
  match at_Ingest n ev with
  | None => (None, MkWorld (w_heap w) (w_table w) (S n) (w_emitted w ++ [ev]))
  | Some _ => (at_Ingest (S n) ev, MkWorld (w_heap w) (w_table w) (S (S n)) (w_emitted w ++ [ev]))
  end.

Definition release_world (id : string) (s : nat) (w : world) : world :=
  MkWorld (close_slot s (w_heap w)) (release id s (w_table w)) (w_n w) (w_emitted w).

Definition commit_world (s : nat) (r : sendRecord) (w : world) : world :=
  let '(h, t) := commit s r (w_heap w) (w_table w) in
  MkWorld (close_slot s h) t (w_n w) (w_emitted w).

Definition receipt (event id tenant detail : string) : ProviderEvent :=
  MkProviderEvent event id tenant "" detail.

Definition malformed_response (cause : option error) : Error :=
  match cause with
  | Some err => WithCause (Internal "at.malformed_response"
      "carrier accepted the request but returned an unparseable send response") err
  | None => Internal "at.malformed_response"
      "carrier accepted the request but returned an unparseable send response"
  end.

(** What [doSend] makes of a response [post] returned: the first recipient if it
    was accepted. *)
Definition answer (status : Z) (body : string) : smsRecipient + Error :=
  if (status <? 200) || (300 <=? status) then inr (mapCarrierError status)
  else
  match json_response body with
  | inr err => inr (malformed_response (Some err))
  | inl [] => inr (malformed_response None)
  | inl (r :: _) =>
      if negb (carrierAccepted (StatusCode r) (Status r)) then
        inr (WithCause (Internal "at.recipient_rejected" "carrier rejected the recipient")
               (OtherErr ("statusCode=" +:+ itoa (StatusCode r) +:+ " status=" +:+ quote (Status r)) None))
      else inl r
  end.

(** [doSend] for the owner of slot [s]: the error, if any. *)
Definition doSend (cfg : Config) (p : prepared) (s : nat) (w : world) : option Error * world :=
  let id := pp_interactionID p in
  let '(res, n, _) := post cfg (MkSmsRequest (Username cfg) (pp_to p) (pp_text p) (pp_from p)) (w_n w) in
  let w := MkWorld (w_heap w) (w_table w) n (w_emitted w) in
  match res with
  | inr err => (Some err, release_world id s w)
  | inl (status, body) =>
      match answer status body with
      | inr err => (Some err, release_world id s w)
      | inl r =>
          let w := commit_world s (MkSendRecord id (pp_tenantID p) (MessageID r)) w in
          let '(_, w) := emitWithRetry (receipt "message.sent" id (pp_tenantID p) "") w in
          if deliveredInline (StatusCode r) (Status r) then
            (None, (emitWithRetry (receipt "message.delivered" id (pp_tenantID p) "") w).2)
          else (None, w)
      end
  end.

(** ** Delivery reports *)

Definition firstNonEmpty (a b : string) : string :=
  if negb (is_empty (trim_space a)) then a
  else if negb (is_empty (trim_space b)) then b else "".

Definition parse_form (body : string) : (string * string * string) + error :=
  match ParseQuery body with
  | inr err => inr (OtherErr err None)
  | inl v =>
      inl (firstNonEmpty (values_get v "id") (values_get v "messageId"), values_get v "status",
           firstNonEmpty (values_get v "failureReason") (values_get v "failure_reason"))
  end.

Definition parseDeliveryReport `{Unicode} (contentType body : string)
    : (string * string * string) + error :=
  let mediaType := trim_space (cut (ToLower contentType) ";").1 in
  if String.eqb mediaType "application/json" then json_report body
  else if String.eqb mediaType "application/x-www-form-urlencoded" then parse_form body
  else match json_report body with inl r => inl r | inr _ => parse_form body end.

Definition one_of_lower (s : string) (l : list string) : bool :=
  existsb (fun x => String.eqb s (to_lower x)) l.

Definition TranslateDelivery `{Unicode} (contentType body : string) (w : world) : option error * world :=
  let malformed msg := (Some (AppErr (Invalid "at.malformed_callback" msg)), w) in
  match parseDeliveryReport contentType body with
  | inr err =>
      (Some (AppErr (WithCause (Invalid "at.malformed_callback" "delivery report is not parseable") err)), w)
  | inl (id, st, reason) =>
      if is_empty (trim_space id) then malformed "delivery report carries no message id" else
      let status := trim_space st in
      if is_empty status then malformed "delivery report carries no status" else
      match byMessage id (w_table w) with
      | None =>
          (Some (AppErr (NotFound "at.unknown_message_id" "delivery report for an unknown carrier message id")), w)
      | Some r =>
          let low := ToLower status in
          if one_of_lower low ["Success"; "Delivered"] then
            emitWithRetry (receipt "message.delivered" (sr_InteractionID r) (sr_TenantID r) "") w
          else if one_of_lower low
                    ["Failed"; "Rejected"; "Discarded"; "Expired"; "Cancelled"; "Undelivered"] then
            let reason := trim_space reason in
            let reason := if is_empty reason then status else reason in
            emitWithRetry (receipt "message.failed" (sr_InteractionID r) (sr_TenantID r) reason) w
          else (None, w)
      end
  end.
End Send.

(** ** Concurrent senders *)

(** Where a call of [Send] for an interaction is. *)
Inductive sender :=
| Reserving (id : string)
| Posting (id : string) (s : nat)
| Closing (id : string) (s : nat)
| WaitingOn (id : string) (s : nat)
| Returned (id : string).

(** One request for an interaction's message: what the adapter saw of the answer,
    and whether the carrier took the message. *)
Record exchange := MkExchange {
  ex_id : string;
  ex_outcome : Outcome;
  ex_taken : bool;
}.

(** The shared store, the senders, the interactions whose acceptance the adapter
    recorded, the reservations made, and the requests so far, both in order. *)
Record system := MkSystem {
  sy_heap : heap;
  sy_table : sendTable;
  sy_senders : gmap nat sender;
  sy_accepted : list string;
  sy_reserved : nat;
  sy_log : list exchange;
}.

Definition set_sender (p : nat) (x : sender) (y : system) : system :=
  MkSystem (sy_heap y) (sy_table y) (<[p := x]> (sy_senders y)) (sy_accepted y) (sy_reserved y) (sy_log y).

Definition with_store (h : heap) (t : sendTable) (y : system) : system :=
  MkSystem h t (sy_senders y) (sy_accepted y) (sy_reserved y) (sy_log y).

Definition logged (x : exchange) (y : system) : system :=
  MkSystem (sy_heap y) (sy_table y) (sy_senders y) (sy_accepted y) (sy_reserved y) (sy_log y ++ [x]).

Section concurrent.
Context `{AtPorts}.

(** What an answer decides: [None] asks for another attempt. *)
Definition verdict (o : Outcome) : option (smsRecipient + Error) :=
  match o with
  | Response status _ body => if (status =? 429) || (500 <=? status) then None else Some (answer status body)
  | _ => None
  end.

(** The adapter read the carrier's acceptance. *)
Definition read_acceptance (o : Outcome) : bool := match verdict o with Some (inl _) => true | _ => false end.

(** One step of one sender; each locked section is one step, each request is
    one, and closing a slot is a step of its own. The carrier may have taken a
    message whatever came back, and has taken it when its answer says so. *)
Inductive step : system -> system -> Prop :=
| step_call p id y :
    sy_senders y !! p = None -> step y (set_sender p (Reserving id) y)
| step_reserve p id y s fresh h t :
    sy_senders y !! p = Some (Reserving id) ->
    reserve id (sy_heap y) (sy_table y) = (s, fresh, h, t) ->
    step y (MkSystem h t
              (<[p := if fresh then Posting id s else WaitingOn id s]> (sy_senders y))
              (sy_accepted y) (if fresh then S (sy_reserved y) else sy_reserved y) (sy_log y))
| step_again p id s y o took :
    sy_senders y !! p = Some (Posting id s) -> verdict o = None ->
    step y (logged (MkExchange id o took) y)
| step_accepted p id s y o r tenant h t :
    sy_senders y !! p = Some (Posting id s) -> verdict o = Some (inl r) ->
    commit s (MkSendRecord id tenant (MessageID r)) (sy_heap y) (sy_table y) = (h, t) ->
    step y (MkSystem h t (<[p := Closing id s]> (sy_senders y)) (sy_accepted y ++ [id]) (sy_reserved y)
              (sy_log y ++ [MkExchange id o true]))
| step_rejected p id s y o took err :
    sy_senders y !! p = Some (Posting id s) -> verdict o = Some (inr err) ->
    step y (logged (MkExchange id o took)
              (set_sender p (Closing id s) (with_store (sy_heap y) (release id s (sy_table y)) y)))
| step_gave_up p id s y :
    sy_senders y !! p = Some (Posting id s) ->
    step y (set_sender p (Closing id s) (with_store (sy_heap y) (release id s (sy_table y)) y))
| step_close p id s y :
    sy_senders y !! p = Some (Closing id s) ->
    step y (set_sender p (Returned id) (with_store (close_slot s (sy_heap y)) (sy_table y) y))
| step_wake p id s y c :
    sy_senders y !! p = Some (WaitingOn id s) -> cells (sy_heap y) !! s = Some c -> closed c = true ->
    step y (set_sender p (if rec c then Returned id else Reserving id) y)
| step_cancel p id s y :
    sy_senders y !! p = Some (WaitingOn id s) -> step y (set_sender p (Returned id) y).
End concurrent.

(** No sender yet. *)
Definition initial (cap : Z) : system := MkSystem (MkHeap ∅ 0) (newSendTable cap) ∅ [] 0 [].

(** ** Properties of the Africa's Talking SMS adapter

    The retry budget and the backoff, one send in flight per interaction under
    every interleaving, and receipts only for accepted messages. *)

(** ** Backoff *)

Lemma double_delay_spec k delay max :
  0 < delay -> 0 < max <= 2 ^ 62 -> delay <= 2 ^ 62 ->
  Z.min max (double_delay k delay max) = Z.min max (delay * 2 ^ Z.of_nat k) /\ 0 < double_delay k delay max.
Proof.
  revert delay. induction k as [|k IH]; intros delay Hd Hm Hb; cbn [double_delay].
  - change (2 ^ Z.of_nat 0) with 1. lia.
  - assert (2 ^ Z.of_nat (S k) = 2 * 2 ^ Z.of_nat k) as -> by (rewrite Nat2Z.inj_succ, Z.pow_succ_r by lia; lia).
    assert (0 < 2 ^ Z.of_nat k) as Hp by (apply Z.pow_pos_nonneg; lia).
    destruct (Z.ltb_spec delay max) as [Hlt|Hge].
    + rewrite wrap64_id by (unfold in_int64, int64_min, int64_max; lia).
      destruct (decide (delay * 2 <= 2 ^ 62)) as [Hs|Hs].
      * destruct (IH (delay * 2)) as [-> ?]; [lia..|]. split; [f_equal; lia|done].
      * assert (max <= delay * 2) as Hmx by lia.
        assert (forall j, double_delay j (delay * 2) max = delay * 2) as ->
          by (intros [|j]; cbn [double_delay]; [done|by rewrite (proj2 (Z.ltb_ge _ _))]).
        split; [|lia]. rewrite !Z.min_l; nia.
    + split; [rewrite !Z.min_l; nia|lia].
Qed.

Lemma backoff_bounds base max attempt ra : 0 < max -> 0 < backoff base max attempt ra <= max.
Proof.
  intros Hm. unfold backoff. destruct (0 <? ra) eqn:Hr.
  - apply Z.ltb_lt in Hr. destruct (Z.ltb_spec max ra); lia.
  - set (d := double_delay _ _ _). destruct (Z.leb_spec d 0), (Z.ltb_spec max d); cbn [orb]; lia.
Qed.

(** ** The retry loop *)

Section post.
Context `{AtPorts}.

Definition is_request (a : Act) : bool := match a with Requested _ => true | Slept _ => false end.

Definition sane_act (cfg : Config) (payload : smsRequest) (a : Act) : Prop :=
  match a with Slept d => 0 < d <= MaxDelay cfg | Requested q => q = payload end.

(** A response the loop returns at once. *)
Definition final_status (status : Z) : Prop := status <> 429 /\ status < 500.

(** Why the loop ended. *)
Definition ended_well (todo : nat) (res : (Z * string) + Error) (acts : list Act) : Prop :=
  match res with
  | inl (status, _) => final_status status
  | inr err =>
      requests is_request acts = todo
      \/ exists msg cause, err = transport_failed msg cause
           /\ (msg = "carrier request canceled during retry backoff" \/ msg = "carrier request canceled")
  end.

Lemma post_loop_spec todo cfg payload attempt lastErr ra n res n' acts :
  0 < MaxDelay cfg -> (lastErr = None -> todo <> 0%nat) ->
  post_loop todo cfg payload attempt lastErr ra n = (res, n', acts) ->
  (requests is_request acts <= todo)%nat /\ Forall (sane_act cfg payload) acts /\ ended_well todo res acts.
Proof.
  intros Hm. revert attempt lastErr ra n res n' acts.
  induction todo as [|todo IH]; intros attempt lastErr ra n res n' acts Hne; cbn [post_loop].
  { destruct lastErr as [err|]; [|by destruct Hne]. intros [= <- <- <-]. split_and!; [done|constructor|by left]. }
  set (slept := if 0 <? attempt then [Slept (backoff (BaseDelay cfg) (MaxDelay cfg) attempt ra)] else []).
  assert (Forall (sane_act cfg payload) slept /\ requests is_request slept = 0%nat) as [Hs0 Hs1].
  { subst slept. destruct (0 <? attempt); [|by split]. split; [|done].
    constructor; [|constructor]. by apply backoff_bounds. }
  destruct (if 0 <? attempt then ctx_Err n else None) as [cerr|].
  { intros [= <- <- <-]. split_and!; [lia|done|]. right. eauto. }
  set (n1 := if 0 <? attempt then S n else n).
  set (acts0 := slept ++ [Requested payload]).
  assert (Forall (sane_act cfg payload) acts0 /\ requests is_request acts0 = 1%nat) as [Ha0 Ha1].
  { subst acts0. split; [apply Forall_app; split; [done|by repeat constructor]|].
    by rewrite requests_app, Hs1. }
  assert (forall err ra n res n' acts,
    (let '(r, n', acts') := post_loop todo cfg payload (attempt + 1) (Some err) ra n in
     (r, n', acts0 ++ acts')) = (res, n', acts) ->
    (requests is_request acts <= S todo)%nat /\ Forall (sane_act cfg payload) acts /\ ended_well (S todo) res acts) as Hagain.
  { clear res n' acts. intros err ra' n2 res n' acts. destruct (post_loop _ _ _ _ _ _ _) as [[r n3] acts'] eqn:E.
    intros [= <- <- <-]. apply IH in E as (E1 & E2 & E3); [|done]. rewrite requests_app, Ha1.
    split_and!; [lia|by apply Forall_app|]. unfold ended_well in *. destruct r as [[status b]|e]; [done|].
    destruct E3 as [E3|E3]; [left; rewrite requests_app; lia|by right]. }
  destruct (http_Do n1 payload) as [err|err|status header body].
  - destruct (ctx_Err (S n1)) as [cerr|]; [|by apply Hagain].
    intros [= <- <- <-]. split_and!; [lia|done|]. right. eauto.
  - by apply Hagain.
  - destruct ((status =? 429) || (500 <=? status)) eqn:Est; [by apply Hagain|].
    intros [= <- <- <-]. split_and!; [lia|done|].
    apply orb_false_iff in Est as [?%Z.eqb_neq ?%Z.leb_gt]. done.
Qed.

(** The retry budget. With any configuration, one send makes at least one
    and at most [MaxRetries + 1] requests, all with the same body, and every
    wait is positive and at most [MaxDelay]; without a carrier hint the wait
    before the k-th retry is the smaller of [MaxDelay] and
    [BaseDelay * 2^(k-1)]. It gives up with an error only when the budget is
    spent or the context is done; a response other than 429 and 5xx is returned
    at once. *)
Lemma at_retry_budget cfg0 payload n :
  let cfg := effective cfg0 in
  let '(res, _, acts) := post cfg payload n in
  (1 <= requests is_request acts <= Z.to_nat (MaxRetries cfg + 1))%nat
  /\ Forall (sane_act cfg payload) acts
  /\ ended_well (Z.to_nat (MaxRetries cfg + 1)) res acts
  /\ (MaxDelay cfg <= 2 ^ 62 -> BaseDelay cfg <= 2 ^ 62 -> forall k,
        backoff (BaseDelay cfg) (MaxDelay cfg) (Z.of_nat (S k)) 0
        = Z.min (MaxDelay cfg) (BaseDelay cfg * 2 ^ Z.of_nat k)).
Proof.
  cbv zeta. set (cfg := effective cfg0).
  assert (0 < MaxDelay cfg /\ 0 < BaseDelay cfg /\ 0 < MaxRetries cfg) as (Hm & Hb & Hr).
  { subst cfg. unfold effective, defaultMaxRetries, defaultBaseDelay, defaultMaxDelay, Second, Millisecond.
    cbn [MaxDelay BaseDelay MaxRetries].
    destruct (Z.leb_spec (MaxRetries cfg0) 0), (Z.leb_spec (BaseDelay cfg0) 0), (Z.leb_spec (MaxDelay cfg0) 0); lia. }
  destruct (post cfg payload n) as [[res n'] acts] eqn:E.
  assert (@None Error = None -> Z.to_nat (MaxRetries cfg + 1) <> 0%nat) as Hne by lia.
  pose proof (post_loop_spec _ _ _ _ _ _ _ _ _ _ Hm Hne E) as (H1 & H2 & H3).
  split; [|split_and!; [done|done|]].
  - split; [|done]. unfold post in E. destruct (Z.to_nat (MaxRetries cfg + 1)) as [|k] eqn:Ek; [lia|].
    cbn [post_loop] in E. change (0 <? 0) with false in E. cbv iota in E. cbn [app] in E.
    destruct (http_Do n payload) as [err|err|status header body].
    + destruct (ctx_Err (S n)); [injection E as <- <- <-; done|].
      destruct (post_loop _ _ _ _ _ _ _) as [[? ?] ?]. injection E as <- <- <-. unfold requests. cbn. lia.
    + destruct (post_loop _ _ _ _ _ _ _) as [[? ?] ?]. injection E as <- <- <-. unfold requests. cbn. lia.
    + destruct (_ || _); [|injection E as <- <- <-; done].
      destruct (post_loop _ _ _ _ _ _ _) as [[? ?] ?]. injection E as <- <- <-. unfold requests. cbn. lia.
  - intros Hmx Hbx k. unfold backoff. replace (Z.to_nat (Z.of_nat (S k) - 1)) with k by lia.
    destruct (double_delay_spec k (BaseDelay cfg) (MaxDelay cfg)) as [Hd Hpos]; [lia..|].
    rewrite <- Hd. change (0 <? 0) with false. cbv iota.
    set (d := double_delay _ _ _) in *. destruct (Z.leb_spec d 0), (Z.ltb_spec (MaxDelay cfg) d); cbn [orb]; lia.
Qed.
End post.

(** ** The send table *)

(** Eviction drops entries, never an open one, and keeps the rest. *)
Lemma evict_slots h n o sl bm o' sl' bm' :
  evict h n o sl bm = (o', sl', bm') ->
  (forall id s, sl' !! id = Some s -> sl !! id = Some s)
  /\ (forall id s, sl !! id = Some s -> slotClosed h s = false -> sl' !! id = Some s)
  /\ (forall m r, bm' !! m = Some r -> bm !! m = Some r).
Proof.
  revert n sl bm o' sl' bm'. induction o as [|x o IH]; intros n sl bm o' sl' bm'; cbn [evict]; [by intros [= <- <- <-]|].
  destruct (_ && _) eqn:Eg.
  - destruct (sl !! x) as [a|] eqn:Ex; [|by apply IH]. intros (H1 & H2 & H3)%IH. split_and!.
    + intros id s Hs%H1. by apply lookup_delete_Some in Hs as [_ ?].
    + intros id s Hs Hopen. apply H2; [|done]. rewrite lookup_delete_ne; [done|]. intros ->.
      simplify_eq. rewrite Hopen, andb_false_r in Eg. done.
    + intros m r Hr%H3. destruct (slot_message h a); [|done]. by apply lookup_delete_Some in Hr as [_ ?].
  - destruct (evict h n o sl bm) as [[k s] b] eqn:E. intros [= <- <- <-]. by apply IH in E.
Qed.

Lemma evictLocked_slots h t :
  cap (evictLocked h t) = cap t
  /\ (forall id s, slots (evictLocked h t) !! id = Some s -> slots t !! id = Some s)
  /\ (forall id s, slots t !! id = Some s -> slotClosed h s = false -> slots (evictLocked h t) !! id = Some s)
  /\ (forall m r, byMsg (evictLocked h t) !! m = Some r -> byMsg t !! m = Some r).
Proof.
  unfold evictLocked. destruct (_ <=? 0); [done|].
  destruct (evict _ _ _ _ _) as [[o s] b] eqn:E. apply evict_slots in E. done.
Qed.

(** The slot a sender owns, and the interaction it posts for. *)
Definition owns (x : sender) : option nat :=
  match x with Posting _ s | Closing _ s => Some s | _ => None end.

(** The state of the store in every reachable system. *)
Record flight_inv (y : system) : Prop := {
  fi_next : forall s, is_Some (cells (sy_heap y) !! s) -> (s < AtSms.next (sy_heap y))%nat;
  fi_posting : forall p id s, sy_senders y !! p = Some (Posting id s) ->
    cells (sy_heap y) !! s = Some (MkSendSlot false None) /\ slots (sy_table y) !! id = Some s;
  fi_closing : forall p id s, sy_senders y !! p = Some (Closing id s) ->
    exists r, cells (sy_heap y) !! s = Some (MkSendSlot false r);
  fi_owner : forall p q x z s, sy_senders y !! p = Some x -> sy_senders y !! q = Some z ->
    owns x = Some s -> owns z = Some s -> p = q;
  fi_index : forall m r, byMsg (sy_table y) !! m = Some r -> sr_InteractionID r ∈ sy_accepted y;
  fi_cells : forall id s, slots (sy_table y) !! id = Some s -> is_Some (cells (sy_heap y) !! s);
}.

Lemma flight_initial c : flight_inv (initial c).
Proof.
  split; cbn; try (intros *; rewrite lookup_empty; try done; by intros [? ?]).
  all: intros *; rewrite lookup_empty; done.
Qed.

(** Changing one sender to one that owns nothing, or the same slot. *)
Lemma owner_insert (m : gmap nat sender) p x :
  (forall p q x z s, m !! p = Some x -> m !! q = Some z -> owns x = Some s -> owns z = Some s -> p = q) ->
  (forall s, owns x = Some s -> forall q z, m !! q = Some z -> owns z = Some s -> q = p) ->
  forall p' q' x' z s, <[p := x]> m !! p' = Some x' -> <[p := x]> m !! q' = Some z ->
    owns x' = Some s -> owns z = Some s -> p' = q'.
Proof.
  intros Hm Hx p' q' x' z s [[<- <-]|[? H1]]%lookup_insert_Some [[<- <-]|[? H2]]%lookup_insert_Some O1 O2.
  - done.
  - symmetry. by eapply Hx.
  - by eapply Hx.
  - by eapply Hm.
Qed.

Lemma reserve_cases id h t s fresh h' t' :
  reserve id h t = (s, fresh, h', t') ->
  (fresh = false /\ slots t !! id = Some s /\ h' = h /\ t' = t)
  \/ (fresh = true /\ slots t !! id = None /\ s = AtSms.next h
      /\ h' = MkHeap (<[s := MkSendSlot false None]> (cells h)) (S (AtSms.next h))
      /\ t' = evictLocked h' (MkSendTable (cap t) (order t ++ [id]) (<[id := s]> (slots t)) (byMsg t))).
Proof.
  unfold reserve. destruct (slots t !! id) as [a|] eqn:E; intros [= <- <- <- <-]; [by left|right].
  done.
Qed.

Lemma flight_reserve p id y s fresh h t :
  flight_inv y -> sy_senders y !! p = Some (Reserving id) ->
  reserve id (sy_heap y) (sy_table y) = (s, fresh, h, t) ->
  flight_inv (MkSystem h t (<[p := if fresh then Posting id s else WaitingOn id s]> (sy_senders y))
                (sy_accepted y) (if fresh then S (sy_reserved y) else sy_reserved y) (sy_log y)).
Proof.
  intros [I1 I2 I3 I4 I5 I6] Hp Hr. apply reserve_cases in Hr as [(-> & Hs & -> & ->)|(-> & Hn & Es & -> & ->)].
  - split; cbn [sy_heap sy_table sy_senders sy_accepted]; [done| | | |done|done].
    + by intros q id' s' [[_ [=]]|[_ H]]%lookup_insert_Some; eapply I2.
    + by intros q id' s' [[_ [=]]|[_ H]]%lookup_insert_Some; eapply I3.
    + by apply owner_insert.
  - set (h := MkHeap _ _). destruct (evictLocked_slots h (MkSendTable (cap (sy_table y)) (order (sy_table y) ++ [id])
      (<[id := s]> (slots (sy_table y))) (byMsg (sy_table y)))) as (_ & V1 & V2 & V3).
    cbn [slots byMsg] in V1, V2, V3.
    assert (forall s', is_Some (cells (sy_heap y) !! s') -> s' <> s) as Hfresh
      by (intros s' Hs'; apply I1 in Hs'; lia).
    assert (forall s', s' <> s -> cells h !! s' = cells (sy_heap y) !! s') as Hcell
      by (intros s' Hs'; subst h; cbn [cells]; by rewrite lookup_insert_ne).
    split; cbn [sy_heap sy_table sy_senders sy_accepted].
    + intros s' Hs'. subst h. cbn [AtSms.next cells] in *. destruct (decide (s' = s)) as [->|Hne]; [lia|].
      rewrite lookup_insert_ne in Hs' by done. apply I1 in Hs'. lia.
    + intros q id' s' [[_ [= <- <-]]|[Hq H]]%lookup_insert_Some.
      * subst h. cbn [cells]. rewrite lookup_insert_eq. split; [done|]. apply V2; [by rewrite lookup_insert_eq|].
        unfold slotClosed. cbn [cells]. by rewrite lookup_insert_eq.
      * apply I2 in H as [H1 H2]. assert (s' <> s) as Hne by (apply Hfresh; eauto). rewrite Hcell by done.
        split; [done|]. apply V2.
        -- rewrite lookup_insert_ne; [done|]. intros ->. congruence.
        -- unfold slotClosed. rewrite Hcell by done. by rewrite H1.
    + intros q id' s' [[_ [=]]|[Hq H]]%lookup_insert_Some. apply I3 in H as [r H]. exists r.
      rewrite Hcell; [done|]. apply Hfresh. eauto.
    + apply owner_insert; [done|]. intros s' [= <-] q z Hz Hown. exfalso.
      assert (is_Some (cells (sy_heap y) !! s)) as Hin; [|by apply Hfresh in Hin].
      destruct z; cbn in Hown; try done; injection Hown as ->.
      * apply I2 in Hz as [Hz _]. eauto.
      * apply I3 in Hz as [r Hz]. eauto.
    + intros m r Hm%V3. by eapply I5.
    + intros id' s' Hs'%V1. apply lookup_insert_Some in Hs' as [[_ <-]|[_ Hs']].
      * subst h. cbn [cells]. rewrite lookup_insert_eq. eauto.
      * apply I6 in Hs' as Hin. rewrite Hcell; [done|]. by apply Hfresh.
Qed.

(** The owner gives its reservation back. *)
Lemma flight_release p id s y :
  flight_inv y -> sy_senders y !! p = Some (Posting id s) ->
  flight_inv (set_sender p (Closing id s) (with_store (sy_heap y) (release id s (sy_table y)) y)).
Proof.
  intros [I1 I2 I3 I4 I5 I6] Hp. pose proof Hp as Hp'. apply I2 in Hp' as [Hs Hsl].
  assert (forall id' s', slots (release id s (sy_table y)) !! id' = Some s' -> slots (sy_table y) !! id' = Some s') as R1.
  { unfold release. rewrite Hsl, Nat.eqb_refl. cbn [slots]. by intros id' s' [_ ?]%lookup_delete_Some. }
  split; cbn [sy_heap sy_table sy_senders sy_accepted set_sender with_store].
  + done.
  + intros q id' s' [[_ [=]]|[Hq H]]%lookup_insert_Some. pose proof H as H'. apply I2 in H' as [H1 H2]. split; [done|].
    unfold release. rewrite Hsl, Nat.eqb_refl. cbn [slots]. rewrite lookup_delete_ne; [done|].
    intros ->. apply Hq. rewrite H2 in Hsl. injection Hsl as ->. by eapply I4.
  + intros q id' s' [[_ [= <- <-]]|[Hq H]]%lookup_insert_Some; [eauto|by eapply I3].
  + apply owner_insert; [done|]. intros s' [= <-] q z Hz Hown. by eapply I4.
  + unfold release. rewrite Hsl, Nat.eqb_refl. cbn [byMsg]. done.
  + intros id' s' Hs'%R1. by eapply I6.
Qed.

(** The log is apart from the store. *)
Lemma flight_logged x y : flight_inv y -> flight_inv (logged x y).
Proof. by intros []. Qed.

Lemma flight_step `{ports : AtPorts} y y' : step y y' -> flight_inv y -> flight_inv y'.
Proof.
  intros Hstep Hinv. pose proof Hinv as [I1 I2 I3 I4 I5 I6].
  assert (forall p id s, sy_senders y !! p = Some (Posting id s) ->
    flight_inv (set_sender p (Closing id s) (with_store (sy_heap y) (release id s (sy_table y)) y))) as Hrel
    by (intros *; by apply flight_release).
  destruct Hstep as [p id y Hp|p id y s fresh h t Hp Hr|p id s y o took Hp Hov|p id s y o r tenant h t Hp Hov Hc
                    |p id s y o took err Hp Hov|p id s y Hp|p id s y Hp|p id s y c Hp Hs Hc|p id s y Hp];
    [|by eapply flight_reserve|by apply flight_logged| |by apply flight_logged, Hrel|by apply Hrel| | |].
  - (* call *) split; cbn; [done| | | |done|done].
    + by intros q id' s' [[_ [=]]|[_ H]]%lookup_insert_Some; eapply I2.
    + by intros q id' s' [[_ [=]]|[_ H]]%lookup_insert_Some; eapply I3.
    + by apply owner_insert.
  - (* accepted *) pose proof Hp as Hp'. apply I2 in Hp' as [Hs Hsl]. unfold commit in Hc. injection Hc as <- <-.
    assert (slotClosed (sy_heap y) s = false) as -> by (unfold slotClosed; by rewrite Hs).
    assert (forall q z s', sy_senders y !! q = Some z -> owns z = Some s' -> q <> p -> s' <> s) as Hother.
    { intros q z s' Hq Ho Hne ->. apply Hne. by eapply I4. }
    split; cbn [sy_heap sy_table sy_senders sy_accepted cells AtSms.next slots byMsg sr_MessageID].
    + intros s' Hs'. apply I1. destruct (decide (s' = s)) as [->|]; [eauto|]. by rewrite lookup_insert_ne in Hs'.
    + intros q id' s' [[_ [=]]|[Hq H]]%lookup_insert_Some. rewrite lookup_insert_ne; [by eapply I2|].
      symmetry. by eapply Hother.
    + intros q id' s' [[_ [= <- <-]]|[Hq H]]%lookup_insert_Some; [rewrite lookup_insert_eq; eauto|].
      rewrite lookup_insert_ne; [by eapply I3|]. symmetry. by eapply Hother.
    + apply owner_insert; [done|]. intros s' [= <-] q z Hz Hown. by eapply I4.
    + intros m r' Hm. apply elem_of_app. destruct (is_empty (MessageID r)); [left; by eapply I5|].
      apply lookup_insert_Some in Hm as [[_ <-]|[_ Hm]]; [right; by apply list_elem_of_singleton|left; by eapply I5].
    + intros id' s' Hs'%I6. destruct (decide (s' = s)) as [->|]; [rewrite lookup_insert_eq; eauto|].
      by rewrite lookup_insert_ne.
  - (* close *) assert (forall q z s', sy_senders y !! q = Some z -> owns z = Some s' -> q <> p -> s' <> s) as Hother.
    { intros q z s' Hq Ho Hne ->. apply Hne. by eapply I4. }
    split; cbn [sy_heap sy_table sy_senders sy_accepted set_sender with_store close_slot cells AtSms.next].
    + intros s' Hs'. apply I1. destruct (decide (s' = s)) as [->|Hne].
      * rewrite lookup_alter_eq in Hs'. by apply fmap_is_Some in Hs'.
      * by rewrite lookup_alter_ne in Hs'.
    + intros q id' s' [[_ [=]]|[Hq H]]%lookup_insert_Some. rewrite lookup_alter_ne; [by eapply I2|].
      symmetry. by eapply Hother.
    + intros q id' s' [[_ [=]]|[Hq H]]%lookup_insert_Some. rewrite lookup_alter_ne; [by eapply I3|].
      symmetry. by eapply Hother.
    + by apply owner_insert.
    + done.
    + intros id' s' Hs'%I6. destruct (decide (s' = s)) as [->|Hne].
      * rewrite lookup_alter_eq. by apply fmap_is_Some.
      * by rewrite lookup_alter_ne.
  - (* wake *) split; cbn; [done| | | |done|done].
    + by intros q id' s' [[_ H]|[_ H]]%lookup_insert_Some; [destruct (rec c)|eapply I2].
    + by intros q id' s' [[_ H]|[_ H]]%lookup_insert_Some; [destruct (rec c)|eapply I3].
    + apply owner_insert; [done|]. by destruct (rec c).
  - (* cancel *) split; cbn; [done| | | |done|done].
    + by intros q id' s' [[_ [=]]|[_ H]]%lookup_insert_Some; eapply I2.
    + by intros q id' s' [[_ [=]]|[_ H]]%lookup_insert_Some; eapply I3.
    + by apply owner_insert.
Qed.

Lemma flight_reachable `{ports : AtPorts} c y : rtc step (initial c) y -> flight_inv y.
Proof.
  intros Hr. remember (initial c) as y0 eqn:E. assert (flight_inv y0) as H0 by (subst; apply flight_initial).
  clear E. induction Hr as [|y1 y2 y3 Hs _ IH]; [done|]. apply IH. by eapply flight_step.
Qed.

(** No request follows an acceptance the adapter read. *)
Definition quiet_after `{AtPorts} (l : list exchange) : Prop :=
  forall l1 x l2, l = l1 ++ x :: l2 -> read_acceptance (ex_outcome x) = true -> Forall (fun x' => ex_id x' <> ex_id x) l2.

Lemma quiet_snoc `{AtPorts} l x :
  quiet_after l -> (forall x', x' ∈ l -> read_acceptance (ex_outcome x') = true -> ex_id x <> ex_id x') ->
  quiet_after (l ++ [x]).
Proof.
  intros Hq Hx l1 x1 l2 Hl Hr. destruct l2 as [|x2 l2 _] using rev_ind; [constructor|].
  rewrite app_comm_cons, app_assoc in Hl. apply app_inj_tail in Hl as [-> ->]. apply Forall_app. split; [by eapply Hq|].
  constructor; [|constructor]. apply (Hx x1); [|done]. apply elem_of_app. right. by left.
Qed.

(** The store while it has room: nothing was evicted, every accepted interaction
    still has its accepted slot, and no request was made for it since. *)
Record room_inv `{AtPorts} (y : system) : Prop := {
  ri_order : length (order (sy_table y)) = sy_reserved y;
  ri_slot : forall id, id ∈ sy_accepted y -> exists s b r,
    slots (sy_table y) !! id = Some s /\ cells (sy_heap y) !! s = Some (MkSendSlot b (Some r));
  ri_once : NoDup (sy_accepted y);
  ri_read : forall x, x ∈ sy_log y -> read_acceptance (ex_outcome x) = true -> ex_id x ∈ sy_accepted y;
  ri_quiet : quiet_after (sy_log y);
}.

(** An interaction a sender posts for was not accepted yet. *)
Lemma room_posting `{ports : AtPorts} y p id s : flight_inv y -> room_inv y ->
  sy_senders y !! p = Some (Posting id s) -> id ∉ sy_accepted y.
Proof.
  intros [_ I2 _ _ _ _] [_ R2 _ _ _] Hp Hin. apply I2 in Hp as [Hs Hsl].
  destruct (R2 id Hin) as (s' & b & r & H1 & H2). congruence.
Qed.

Lemma room_logged `{ports : AtPorts} y p id s o took : flight_inv y -> room_inv y ->
  sy_senders y !! p = Some (Posting id s) -> read_acceptance o = false -> room_inv (logged (MkExchange id o took) y).
Proof.
  intros Hf Hr Hp Ho. pose proof (room_posting y p id s Hf Hr Hp) as Hno. destruct Hr as [R1 R2 R3 R4 R5].
  split; cbn [logged sy_log sy_accepted sy_table sy_heap sy_reserved]; [done..| |].
  - intros x [Hx| ->%list_elem_of_singleton]%elem_of_app Ha; [by apply R4|]. cbn [ex_outcome] in Ha. congruence.
  - apply quiet_snoc; [done|]. intros x' Hx' Ha. cbn [ex_id]. intros ->. by apply Hno, R4.
Qed.

Lemma reserved_mono `{ports : AtPorts} y y' : step y y' -> (sy_reserved y <= sy_reserved y')%nat /\ cap (sy_table y') = cap (sy_table y).
Proof.
  assert (forall id s t, cap (release id s t) = cap t) as Hrel
    by (intros *; unfold release; by repeat case_match).
  intros [p id z Hp|p id z s fresh h t Hp Hr|p id s z o took Hp Ho|p id s z o r tenant h t Hp Ho Hc
         |p id s z o took err Hp Ho|p id s z Hp|p id s z Hp|p id s z c Hp Hs Hc|p id s z Hp];
    cbn [sy_reserved sy_table set_sender with_store logged]; try done; try (by rewrite Hrel).
  - apply reserve_cases in Hr as [(-> & _ & _ & ->)|(-> & _ & _ & _ & ->)]; [done|]. split; [lia|].
    by rewrite (proj1 (evictLocked_slots _ _)).
  - unfold commit in Hc. injection Hc as _ <-. done.
Qed.

Lemma room_release `{ports : AtPorts} y p id s : flight_inv y -> room_inv y -> sy_senders y !! p = Some (Posting id s) ->
  room_inv (set_sender p (Closing id s) (with_store (sy_heap y) (release id s (sy_table y)) y)).
Proof.
  intros [I1 I2 I3 I4 I5 I6] [R1 R2 R3 R4 R5] Hp. pose proof Hp as Hp'. apply I2 in Hp' as [Hs Hsl].
  split; cbn; [|intros id' Hin|done..].
  - unfold release. by repeat case_match.
  - destruct (R2 id' Hin) as (s' & b & r' & H1 & H2). exists s', b, r'. split; [|done].
    unfold release. rewrite Hsl, Nat.eqb_refl. cbn [slots]. rewrite lookup_delete_ne; [done|].
    intros ->. congruence.
Qed.

Lemma room_step `{ports : AtPorts} y y' :
  step y y' -> flight_inv y -> room_inv y -> Z.of_nat (sy_reserved y') <= cap (sy_table y') -> room_inv y'.
Proof.
  intros Hstep Hf Hr0 Hroom. pose proof Hf as [I1 I2 I3 I4 I5 I6]. pose proof Hr0 as [R1 R2 R3 R4 R5].
  destruct Hstep as [p id y Hp|p id y s fresh h t Hp Hr|p id s y o took Hp Ho|p id s y o r tenant h t Hp Ho Hc
                    |p id s y o took err Hp Ho|p id s y Hp|p id s y Hp|p id s y c Hp Hs Hc|p id s y Hp]; try (by split);
    try (by apply room_release).
  - apply reserve_cases in Hr as [(-> & Hs & -> & ->)|(-> & Hn & Es & -> & ->)]; [by split|].
    set (h := MkHeap _ _) in *. cbn [sy_heap sy_table sy_accepted sy_reserved] in *.
    set (t := MkSendTable _ _ _ _) in *.
    destruct (evictLocked_slots h t) as (Hcap & _). rewrite Hcap in Hroom.
    assert (length (order t) = S (sy_reserved y)) as Hlen by (subst t; cbn [order]; rewrite length_app; simpl; lia).
    assert (evictLocked h t = t) as Et by (unfold evictLocked; by rewrite (proj2 (Z.leb_le _ _)) by lia).
    rewrite Et. split; [done| |done..]. intros id' Hin. destruct (R2 id' Hin) as (s' & b & r & H1 & H2).
    exists s', b, r. subst t h. cbn [sy_table sy_heap slots cells]. rewrite !lookup_insert_ne; [done| |].
    + intros ->. pose proof (I1 s' (mk_is_Some _ _ H2)). lia.
    + intros ->. congruence.
  - eapply room_logged; [done..|]. unfold read_acceptance. by rewrite Ho.
  - pose proof (room_posting y p id s Hf Hr0 Hp) as Hno.
    pose proof Hp as Hp'. apply I2 in Hp' as [Hs Hsl]. unfold commit in Hc. injection Hc as <- <-.
    split; cbn [sy_heap sy_table sy_accepted sy_reserved sy_log order slots cells].
    + done.
    + intros id' [Hin| ->%list_elem_of_singleton]%elem_of_app.
      * destruct (R2 id' Hin) as (s' & b & r' & H1 & H2). destruct (decide (s' = s)) as [->|Hne].
        -- exists s. rewrite lookup_insert_eq. eauto 10.
        -- exists s', b, r'. by rewrite lookup_insert_ne.
      * exists s. rewrite lookup_insert_eq. eauto 10.
    + apply NoDup_app. split; [done|]. split; [|apply NoDup_singleton].
      by intros id' Hin ->%list_elem_of_singleton.
    + intros x [Hx| ->%list_elem_of_singleton]%elem_of_app Ha; apply elem_of_app; [left; by apply R4|right; by left].
    + apply quiet_snoc; [done|]. intros x' Hx' Ha. cbn [ex_id]. intros ->. by apply Hno, R4.
  - destruct (room_release y p id s Hf Hr0 Hp) as [S1 S2 S3 S4 S5].
    pose proof (room_logged y p id s o took Hf Hr0 Hp) as Hl.
    destruct Hl as [_ _ _ L4 L5]; [unfold read_acceptance; by rewrite Ho|]. by split.
  - split; cbn; [done| |done..]. intros id' Hin. destruct (R2 id' Hin) as (s' & b & r' & H1 & H2).
    destruct (decide (s' = s)) as [->|Hne].
    + exists s, true, r'. rewrite lookup_alter_eq, H2. done.
    + exists s', b, r'. by rewrite lookup_alter_ne.
Qed.

Lemma emitWithRetry_table `{AtPorts} ev w :
  w_table (emitWithRetry ev w).2 = w_table w /\ w_heap (emitWithRetry ev w).2 = w_heap w
  /\ w_emitted (emitWithRetry ev w).2 = w_emitted w ++ [ev].
Proof. unfold emitWithRetry. by destruct (at_Ingest (w_n w) ev). Qed.

(** More requests in the log. *)
Definition relogged (l : list exchange) (y : system) : system :=
  MkSystem (sy_heap y) (sy_table y) (sy_senders y) (sy_accepted y) (sy_reserved y) (sy_log y ++ l).

Lemma relogged_nil y : relogged [] y = y.
Proof. destruct y. unfold relogged. cbn. by rewrite app_nil_r. Qed.

Lemma relogged_cons x l y : relogged l (logged x y) = relogged (x :: l) y.
Proof. unfold relogged, logged. cbn. by rewrite <- (assoc_L (++)). Qed.

(** Requests of a sender up to the result of [post]: a response that decides. *)
Definition posted `{AtPorts} (res : (Z * string) + Error) (y : system) : Prop :=
  exists l, rtc step y (relogged l y)
    /\ match res with
       | inl (status, body) => exists header, verdict (Response status header body) = Some (answer status body)
       | inr _ => True
       end.

Lemma posted_error `{ports : AtPorts} err y : posted (inr err) y.
Proof. exists []. by rewrite relogged_nil. Qed.

Lemma posted_again `{ports : AtPorts} k id s o res y :
  sy_senders y !! k = Some (Posting id s) -> verdict o = None -> posted res (logged (MkExchange id o false) y) -> posted res y.
Proof.
  intros Hk Ho (l & Hr & Hres). rewrite relogged_cons in Hr. eexists. split; [|exact Hres].
  eapply rtc_l; [by eapply (step_again k id s y o false)|exact Hr].
Qed.

Lemma post_loop_steps `{ports : AtPorts} todo cfg payload attempt lastErr ra n k id s y :
  sy_senders y !! k = Some (Posting id s) -> (lastErr = None -> todo <> 0%nat) ->
  posted (post_loop todo cfg payload attempt lastErr ra n).1.1 y.
Proof.
  revert attempt lastErr ra n y. induction todo as [|todo IH]; intros attempt lastErr ra n y Hk Hne; cbn [post_loop].
  { destruct lastErr; [apply posted_error|by destruct Hne]. }
  destruct (if 0 <? attempt then ctx_Err n else None); [apply posted_error|].
  set (n1 := if 0 <? attempt then S n else n).
  assert (forall o err ra n2, verdict o = None ->
    posted (post_loop todo cfg payload (attempt + 1) (Some err) ra n2).1.1 y) as Hagain.
  { intros o err ra' n2 Ho. eapply posted_again; [exact Hk|exact Ho|]. by apply IH. }
  destruct (http_Do n1 payload) as [err|err|status header body] eqn:E.
  - destruct (ctx_Err (S n1)); [apply posted_error|].
    specialize (Hagain (TransportError err) (transport_failed "carrier transport failed" err) 0 (S (S n1)) eq_refl).
    by destruct (post_loop _ _ _ _ _ _ _) as [[? ?] ?].
  - specialize (Hagain (ReadError err) (transport_failed "could not read the carrier response" err) 0 (S n1) eq_refl).
    by destruct (post_loop _ _ _ _ _ _ _) as [[? ?] ?].
  - destruct ((status =? 429) || (500 <=? status)) eqn:Es.
    + specialize (Hagain (Response status header body) (temporary_error status) (retryAfter header) (S n1)).
      cbn [verdict] in Hagain. rewrite Es in Hagain. specialize (Hagain eq_refl).
      by destruct (post_loop _ _ _ _ _ _ _) as [[? ?] ?].
    + exists []. rewrite relogged_nil. split; [done|]. exists header. cbn [verdict]. by rewrite Es.
Qed.

(** [doSend] of a sender that owns its slot is a run of the system's steps: its
    requests, then the recorded acceptance or the release, and the closing of
    the slot; without an error the acceptance was recorded. *)
Lemma doSend_steps `{ports : AtPorts} cfg0 p k s n em y :
  let id := pp_interactionID p in
  sy_senders y !! k = Some (Posting id s) ->
  let '(err, w') := doSend (effective cfg0) p s (MkWorld (sy_heap y) (sy_table y) n em) in
  exists y', rtc step y y' /\ sy_heap y' = w_heap w' /\ sy_table y' = w_table w'
    /\ sy_senders y' !! k = Some (Returned id) /\ (err = None -> id ∈ sy_accepted y').
Proof.
  intros id Hk. unfold doSend. cbn [w_heap w_table w_n w_emitted]. fold id.
  match goal with |- context [post ?c ?q n] => pose proof (post_loop_steps (Z.to_nat (MaxRetries c + 1)) c q 0 None 0 n k id s y Hk) as Hp end.
  assert (0 < MaxRetries (effective cfg0)) as Hr
    by (unfold effective, defaultMaxRetries; cbn [MaxRetries]; destruct (Z.leb_spec (MaxRetries cfg0) 0); lia).
  specialize (Hp ltac:(lia)). fold (post (effective cfg0) (MkSmsRequest (Username (effective cfg0)) (pp_to p) (pp_text p) (pp_from p)) n) in Hp.
  destruct (post _ _ n) as [[res n'] acts]. cbn [fst] in Hp. destruct Hp as (l & Hl & Hres).
  assert (forall err y1, rtc step y y1 -> sy_heap y1 = sy_heap y -> sy_table y1 = release id s (sy_table y) ->
    sy_senders y1 !! k = Some (Closing id s) ->
    exists y', rtc step y y'
    /\ sy_heap y' = w_heap (release_world id s (MkWorld (sy_heap y) (sy_table y) n' em))
    /\ sy_table y' = w_table (release_world id s (MkWorld (sy_heap y) (sy_table y) n' em))
    /\ sy_senders y' !! k = Some (Returned id) /\ (@Some Error err = None -> id ∈ sy_accepted y')) as Hrel.
  { intros err y1 H1 H2 H3 H4. eexists. split; [eapply rtc_r; [exact H1|by apply (step_close k id s)]|].
    cbn. by rewrite H2, H3, lookup_insert_eq. }
  destruct res as [[status body]|err].
  2:{ eapply Hrel; [eapply rtc_r; [exact Hl|by apply (step_gave_up k id s)]|done..|]. cbn. by rewrite lookup_insert_eq. }
  destruct Hres as [header Hv]. destruct (answer status body) as [rc|err].
  2:{ eapply Hrel; [eapply rtc_r; [exact Hl|by eapply (step_rejected k id s _ _ true)]|done..|]. cbn. by rewrite lookup_insert_eq. }
  destruct (commit s (MkSendRecord id (pp_tenantID p) (MessageID rc)) (sy_heap y) (sy_table y)) as [h t] eqn:Hc.
  assert (exists y', rtc step y y' /\ sy_heap y' = close_slot s h /\ sy_table y' = t
    /\ sy_senders y' !! k = Some (Returned id) /\ id ∈ sy_accepted y') as Hacc.
  { eexists. split.
    { etrans; [exact Hl|]. eapply rtc_l; [by eapply (step_accepted k id s (relogged l y) _ rc _ h t Hk Hv)|].
      apply rtc_once, (step_close k id s). cbn. by rewrite lookup_insert_eq. }
    cbn. rewrite lookup_insert_eq. split_and!; [done..|]. apply elem_of_app. right. by left. }
  unfold commit_world. cbn [w_heap w_table w_n w_emitted]. rewrite Hc.
  destruct Hacc as (y' & H1 & H2 & H3 & H4 & H5). set (w0 := MkWorld (close_slot s h) t n' em).
  destruct (emitWithRetry_table (receipt "message.sent" id (pp_tenantID p) "") w0) as (E1 & E2 & _).
  destruct (emitWithRetry _ w0) as [e1 w1]. cbn [snd] in E1, E2.
  destruct (deliveredInline _ _).
  - destruct (emitWithRetry_table (receipt "message.delivered" id (pp_tenantID p) "") w1) as (E3 & E4 & _).
    exists y'. by rewrite E3, E4, E1, E2.
  - exists y'. by rewrite E1, E2.
Qed.

(** C23. One message, one acceptance the adapter knows of, under every
    interleaving of concurrent sends. At most one request for an interaction is
    in flight at any time, whatever the table evicted; and as long as the
    process made no more reservations than the table holds, an interaction's
    acceptance is recorded at most once, and after an answer in which the adapter
    read the acceptance no request is made for the interaction again: a repeated
    [Send] waits and is suppressed. So the carrier takes a message twice only
    when the first time the adapter could not read that it did; the code then
    posts it again, although its comment promises otherwise
    ([unread_acceptance_taken_twice]). *)
Theorem at_single_flight `{ports : AtPorts} c y (Hreach : rtc step (initial c) y) :
  (forall p q id s s', sy_senders y !! p = Some (Posting id s) ->
     sy_senders y !! q = Some (Posting id s') -> p = q)
  /\ (Z.of_nat (sy_reserved y) <= cap (sy_table y) ->
      NoDup (sy_accepted y)
      /\ forall l1 x l2, sy_log y = l1 ++ x :: l2 -> read_acceptance (ex_outcome x) = true ->
           Forall (fun x' => ex_id x' <> ex_id x) l2).
Proof.
  split.
  - intros p q id s s' Hp Hq. destruct (flight_reachable c y Hreach) as [_ I2 _ I4 _ _].
    apply I2 in Hp as Hp'. apply I2 in Hq as Hq'. destruct Hp' as [_ Hp'], Hq' as [_ Hq'].
    rewrite Hp' in Hq'. injection Hq' as <-. by eapply I4.
  - intros Hroom. assert (room_inv y) as [_ _ ? _ ?]; [|done].
    apply rtc_nsteps in Hreach as Hn. destruct Hn as [n Hn]. clear Hreach. revert y Hn Hroom.
    induction n as [|n IH]; intros y Hn Hroom.
    + inv Hn. split; [done| |constructor| |]; cbn [initial sy_accepted sy_log].
      * intros id Hin. by apply not_elem_of_nil in Hin.
      * intros x Hx. by apply not_elem_of_nil in Hx.
      * intros [] x l2 Hl; discriminate.
    + apply nsteps_inv_r in Hn as (z & Hz & Hstep). destruct (reserved_mono _ _ Hstep) as [Hr Hcap].
      eapply room_step; [done|eapply flight_reachable, rtc_nsteps_2; exact Hz|apply IH; [done|]|done].
      rewrite Hcap in Hroom. lia.
Qed.

(** ** Delivery reports *)

(** The events of the terminal statuses. *)
Definition report_event (low status reason : string) (r : sendRecord) : option ProviderEvent :=
  if one_of_lower low ["Success"; "Delivered"] then
    Some (receipt "message.delivered" (sr_InteractionID r) (sr_TenantID r) "")
  else if one_of_lower low ["Failed"; "Rejected"; "Discarded"; "Expired"; "Cancelled"; "Undelivered"] then
    Some (receipt "message.failed" (sr_InteractionID r) (sr_TenantID r)
            (if is_empty (trim_space reason) then status else trim_space reason))
  else None.

(** Receipts come only from accepted messages. In every reachable state of
    the concurrent senders, a delivery report hands at most one event to the
    ingest hook: the one its terminal status means, for an interaction whose
    message the carrier accepted; unknown ids and other statuses emit nothing,
    and the table never changes. *)
Lemma at_report_sound `{AtPorts} `{Unicode} c y n contentType body (Hreach : rtc step (initial c) y) :
  let w := MkWorld (sy_heap y) (sy_table y) n [] in
  let w' := (TranslateDelivery contentType body w).2 in
  w_table w' = sy_table y /\ w_heap w' = sy_heap y
  /\ (w_emitted w' = []
      \/ exists id st reason r ev, parseDeliveryReport contentType body = inl (id, st, reason)
           /\ byMessage id (sy_table y) = Some r /\ sr_InteractionID r ∈ sy_accepted y
           /\ report_event (ToLower (trim_space st)) (trim_space st) reason r = Some ev
           /\ w_emitted w' = [ev]).
Proof.
  cbv zeta. unfold TranslateDelivery. set (w := MkWorld _ _ _ _).
  destruct (parseDeliveryReport contentType body) as [[[id st] reason]|err]; [|by split_and!; [| |left]].
  destruct (is_empty (trim_space id)); [by split_and!; [| |left]|].
  destruct (is_empty (trim_space st)); [by split_and!; [| |left]|].
  destruct (byMessage id (w_table w)) as [r|] eqn:Er; [|by split_and!; [| |left]].
  pose proof (fi_index _ (flight_reachable c y Hreach) _ _ Er) as Hacc.
  assert (forall ev, report_event (ToLower (trim_space st)) (trim_space st) reason r = Some ev ->
    w_table (emitWithRetry ev w).2 = sy_table y /\ w_heap (emitWithRetry ev w).2 = sy_heap y
    /\ (w_emitted (emitWithRetry ev w).2 = []
      \/ exists id0 st0 reason0 r0 ev0, @inl _ error (id, st, reason) = inl (id0, st0, reason0)
           /\ byMessage id0 (sy_table y) = Some r0 /\ sr_InteractionID r0 ∈ sy_accepted y
           /\ report_event (ToLower (trim_space st0)) (trim_space st0) reason0 r0 = Some ev0
           /\ w_emitted (emitWithRetry ev w).2 = [ev0])) as Hev.
  { intros ev Hev. destruct (emitWithRetry_table ev w) as (-> & -> & ->). split_and!; [done..|]. right.
    exists id, st, reason, r, ev. done. }
  unfold report_event in Hev. destruct (one_of_lower _ ["Success"; "Delivered"]); [by apply Hev|].
  destruct (one_of_lower _ _); [by apply Hev|]. by split_and!; [| |left].
Qed.

(** ** Examples *)

(** A hook that takes every event, a decoder of JSON reports, and send responses
    that are decoded unless they are empty. *)
#[local] Instance demo_ports : AtPorts := {|
  http_Do := fun _ _ => Response 201 "" "";
  ctx_Err := fun _ => None;
  json_response := fun body =>
    if is_empty body then inr (OtherErr "unexpected end of JSON input" None) else inl [MkSmsRecipient 101 "Success" body];
  json_report := fun _ => inl ("ATX1", "Delivered", "");
  at_Ingest := fun _ _ => None;
|}.

Definition ev_accepted : sendRecord := MkSendRecord "i1" "t1" "ATX1".

(** One sender posts, another waits for it; the message is accepted. *)
Definition two_senders : system :=
  MkSystem (MkHeap {[0%nat := MkSendSlot true (Some ev_accepted)]} 1)
    (MkSendTable 4 ["i1"] {["i1" := 0%nat]} {["ATX1" := ev_accepted]})
    {[0%nat := Returned "i1"; 1%nat := Returned "i1"]} ["i1"] 1
    [MkExchange "i1" (Response 503 "" "") false; MkExchange "i1" (Response 201 "" "ATX1") true].

Lemma two_senders_reachable : rtc step (initial 4) two_senders.
Proof.
  eapply rtc_l; [by apply (step_call 0 "i1")|].
  eapply rtc_l; [by apply (step_call 1 "i1")|].
  eapply rtc_l; [by eapply (step_reserve 0 "i1")|]. cbn [reserve].
  eapply rtc_l; [by eapply (step_reserve 1 "i1")|].
  eapply rtc_l; [by eapply (step_again 0 "i1" 0 _ (Response 503 "" "") false)|].
  eapply rtc_l; [by eapply (step_accepted 0 "i1" 0 _ (Response 201 "" "ATX1") _ "t1")|].
  eapply rtc_l; [by eapply (step_close 0 "i1" 0)|].
  eapply rtc_l; [by eapply (step_wake 1 "i1" 0)|].
  match goal with |- rtc _ ?a _ => replace a with two_senders by (vm_compute; reflexivity) end.
  apply rtc_refl.
Qed.

Lemma at_single_flight_witness :
  rtc step (initial 4) two_senders /\ NoDup (sy_accepted two_senders)
  /\ read_acceptance (Response 201 "" "ATX1") = true.
Proof.
  split; [exact two_senders_reachable|]. split; [|reflexivity].
  apply (proj2 (at_single_flight 4 two_senders two_senders_reachable)). discriminate.
Defined.

(** A 2xx answer with a body that does not parse: the carrier took the message,
    the reservation is given back, and the next [Send] posts it once more. *)
Lemma unread_acceptance_taken_twice :
  exists y, rtc step (initial 4) y /\ sy_accepted y = ["i1"]
    /\ sy_log y = [MkExchange "i1" (Response 200 "" "") true; MkExchange "i1" (Response 201 "" "ATX1") true].
Proof.
  eexists. split; [|split].
  - eapply rtc_l; [by apply (step_call 0 "i1")|].
    eapply rtc_l; [by eapply (step_reserve 0 "i1")|].
    eapply rtc_l; [by eapply (step_rejected 0 "i1" 0 _ (Response 200 "" "") true)|].
    eapply rtc_l; [by eapply (step_close 0 "i1" 0)|].
    eapply rtc_l; [by apply (step_call 1 "i1")|].
    eapply rtc_l; [by eapply (step_reserve 1 "i1")|].
    eapply rtc_l; [by eapply (step_accepted 1 "i1" 1 _ (Response 201 "" "ATX1") _ "t1")|].
    apply rtc_refl.
  - reflexivity.
  - reflexivity.
Qed.

#[local] Instance demo_unicode : Unicode := {| unicode_ToLower := fun s => s |}.

Lemma at_report_sound_witness :
  let w := MkWorld (sy_heap two_senders) (sy_table two_senders) 0 [] in
  let w' := (TranslateDelivery "application/json" "{}" w).2 in
  w_emitted w' = [receipt "message.delivered" "i1" "t1" ""] /\ w_table w' = sy_table two_senders.
Proof.
  cbv zeta. split; [vm_compute; reflexivity|].
  exact (proj1 (at_report_sound 4 two_senders 0 "application/json" "{}" two_senders_reachable)).
Defined.

(** ** Preparation *)

(** What reaches the carrier is well-formed: a prepared message passed the
    core's checks, its destination is a plus, a digit 1 to 9 and 7 to 14 more
    digits, its text is not blank and has at most 4096 runes, and it names the
    message's interaction and tenant, with a sender that is the message's own
    or the configured one. *)
Lemma at_prepared_wellformed `{Unicode} cfg msg p (Hp : prepare cfg msg = inl p) :
  ValidateMessage msg = None
  /\ (exists a d, pp_to p = "+" +:+ String a d /\ (49 <= code a <= 57) /\ sforallb Regexp.is_digit d = true
        /\ (7 <= String.length d <= 14)%nat)
  /\ trim_space (pp_text p) <> "" /\ RuneCountInString (pp_text p) <= 4096
  /\ pp_interactionID p = msg_InteractionID msg /\ pp_tenantID p = msg_TenantID msg
  /\ trim_space (pp_tenantID p) <> ""
  /\ (pp_from p = trim_space (msg_From msg) \/ pp_from p = SenderID cfg).
Proof.
  unfold prepare in Hp. destruct (is_empty (trim_space (msg_TenantID msg))) eqn:Et; [done|].
  destruct (is_empty (trim_space (msg_InteractionID msg))); [done|].
  destruct (ValidateMessage msg); [done|]. destruct (smsText msg) as [text|] eqn:Es; [|done].
  destruct (normalizeE164 (msg_To msg)) as [to|] eqn:Eto; [|done]. injection Hp as <-.
  cbn [pp_to pp_text pp_interactionID pp_tenantID pp_from].
  split; [done|]. split.
  { unfold normalizeE164 in Eto. destruct (Customers.NormalizeIdentifier _ _) as [v|]; [|done].
    destruct (Regexp.matches e164Re v) eqn:Em; [|done]. injection Eto as <-.
    apply Regexp.matches_spec in Em. unfold e164Re in Em. apply Regexp.lang_Cat in Em as (u & w & -> & ->%Regexp.lang_Byte & Hw).
    apply Regexp.lang_Cat in Hw as (a & d & -> & (c & -> & Hc)%Regexp.lang_Class & Hd).
    apply Regexp.lang_Between_Class in Hd as [Hd Hl]; [|lia]. exists c, d.
    unfold in_range in Hc. apply andb_true_iff in Hc as [?%Z.leb_le ?%Z.leb_le]. done. }
  unfold smsText in Es. set (t := if _ && _ then _ else _) in Es.
  destruct (is_empty (trim_space t)) eqn:Eb; [done|]. destruct (4096 <? RuneCountInString t) eqn:El; [done|].
  injection Es as <-. split; [by apply is_empty_false|]. split; [by apply Z.ltb_ge|]. split; [done|]. split; [done|].
  split; [by apply is_empty_false|]. destruct (is_empty (trim_space (msg_From msg))); auto.
Qed.

(** The word the messaging plane puts in place of a missing sender is the sender
    the carrier is given: the configured one is not used. *)
Lemma default_sender_handed_on `{Unicode} cfg msg p :
  prepare cfg msg = inl p -> msg_From msg = defaultSender -> pp_from p = defaultSender.
Proof.
  intros Hp Hf. unfold prepare in Hp. destruct (is_empty _); [done|]. destruct (is_empty _); [done|].
  destruct (ValidateMessage msg); [done|]. destruct (smsText msg); [|done]. destruct (normalizeE164 _); [|done].
  injection Hp as <-. cbn [pp_from]. by rewrite Hf.
Qed.

Lemma at_prepared_wellformed_witness :
  let msg := MkMessage "i1" "t1" "sms" "" "00254 700 123 456" "hello" [] in
  let p := MkPrepared "i1" "t1" "ORVEXA" "+254700123456" "hello" in
  prepare (MkConfig "ORVEXA" "sandbox" 0 0 0) msg = inl p /\ trim_space (pp_text p) <> "".
Proof.
  cbv zeta.
  assert (prepare (MkConfig "ORVEXA" "sandbox" 0 0 0)
            (MkMessage "i1" "t1" "sms" "" "00254 700 123 456" "hello" [])
          = inl (MkPrepared "i1" "t1" "ORVEXA" "+254700123456" "hello")) as E by (vm_compute; reflexivity).
  split; [exact E|]. exact (proj1 (proj2 (proj2 (at_prepared_wellformed _ _ _ E)))).
Defined.
