(* ===== verification/RateLimit.v ===== *)
(** * internal/platform/httpx: the two rate limiters

    middleware.go: the token bucket in binary64 (multiplication and addition
    are rounded separately, as on amd64). limiter_redis.go: the fixed window in
    Redis; the server is a parameter with the documented meaning of INCR.
    Instants and durations are nanoseconds. *)

From Stdlib Require Import String SpecFloat.
From S2P Require Import Prelude GoStd AppErrors Float64.

Local Open Scope Z_scope.

Definition Minute : Z := 60 * Second.

(** [t.Sub(u)]: the difference, kept within a [time.Duration]. *)
Definition time_Sub (t u : Z) : Z := Z.max int64_min (Z.min int64_max (t - u)).

(** [d.Seconds()] *)
Definition Seconds (d : Z) : float64 :=
  fadd (f64 (Z.quot d Second)) (fdiv (f64 (Z.rem d Second)) (f64 Second)).

Definition fsub (x y : float64) : float64 := SFsub 53 1024 x y.

(** [int64(f)]: truncation; values out of range give the smallest integer, as
    on amd64. *)
Definition float_to_int64 (x : float64) : Z :=
  let out z := if bool_decide (in_int64 z) then z else int64_min in
  match x with
  | S754_zero _ => 0
  | S754_finite s m e =>
      let v := if 0 <=? e then Zpos m * 2 ^ e else Z.quot (Zpos m) (2 ^ (- e)) in
      out (if s then - v else v)
  | _ => int64_min
  end.

(** ** The token bucket *)

Record bucket := MkBucket {
  tokens : float64;
  last : Z;
}.

Record RateLimit := MkRateLimit {
  buckets : gmap string bucket;
  rate : float64;
  burst : float64;
  maxBuckets : Z;
}.

Definition NewRateLimit (perMinute burst maxBuckets : Z) : RateLimit :=
  let perMinute := if perMinute <=? 0 then 60 else perMinute in
  let burst := if burst <=? 0 then perMinute else burst in
  let maxBuckets := if maxBuckets <=? 0 then 10000 else maxBuckets in
  MkRateLimit ∅ (fdiv (f64 perMinute) (f64 60)) (f64 burst) maxBuckets.

Section TokenBucket.
(** The order in which a range over the map of buckets meets them. *)
Variable iteration : gmap string bucket -> list (string * bucket).

Definition older (a b : string * bucket) : bool := last a.2 <? last b.2.

Definition evictLocked (m : gmap string bucket) : gmap string bucket :=
  let all := stable_sort older (iteration m) in
  let half := (length all / 2)%nat in
  let half := if (half <? 1)%nat then 1%nat else half in
  foldr (fun kv m => delete kv.1 m) m (take half all).

(** [refilled b now] is the bucket's content once the elapsed time is added. *)
Definition refilled (rl : RateLimit) (b : bucket) (now : Z) : float64 :=
  let t := fadd (tokens b) (fmul (Seconds (time_Sub now (last b))) (rate rl)) in
  if fgt t (burst rl) then burst rl else t.

(** [Allow]: whether the call is permitted, and the wait until the next
    token. *)
Definition Allow (key : string) (now : Z) (rl : RateLimit) : (bool * Z) * RateLimit :=
  let '(b, m) :=
    match buckets rl !! key with
    | Some b => (b, buckets rl)
    | None =>
        (MkBucket (burst rl) now,
         if maxBuckets rl <=? Z.of_nat (size (buckets rl)) then evictLocked (buckets rl) else buckets rl)
    end in
  let t := refilled rl b now in
  let put t := MkRateLimit (<[key := MkBucket t now]> m) (rate rl) (burst rl) (maxBuckets rl) in
  if negb (flt t (f64 1)) && negb (is_nan t) then ((true, 0), put (fsub t (f64 1)))
  else
    let need := fdiv (fsub (f64 1) t) (rate rl) in
    ((false, float_to_int64 (fmul need (f64 Second))), put t).
End TokenBucket.

(** ** The fixed window in Redis *)

Definition redisRateLimitPrefix := "orvexa:rl:v1:".
Definition redisRateLimitDefaultWin : Z := Minute.
Definition redisRateLimitDefaultCap : Z := 60.

Record RedisRateLimitConfig := MkRedisConfig {
  cfg_Limit : Z;
  cfg_Window : Z;
  cfg_Scope : string;
  cfg_FailClosed : bool;
}.

Record RedisRateLimit := MkRedisRateLimit {
  limit : Z;
  window : Z;
  scope : string;
  failClosed : bool;
}.

Definition NewRedisRateLimit (cfg : RedisRateLimitConfig) : RedisRateLimit :=
  MkRedisRateLimit
    (if cfg_Limit cfg <=? 0 then redisRateLimitDefaultCap else cfg_Limit cfg)
    (if cfg_Window cfg <=? 0 then redisRateLimitDefaultWin else cfg_Window cfg)
    (if is_empty (cfg_Scope cfg) then "default" else cfg_Scope cfg)
    (cfg_FailClosed cfg).

(** The client: a server state, and the two commands with their errors. *)
Class Redis (R : Type) := {
  redis_Incr : string -> R -> (Z + error) * R;
  redis_ExpireNX : string -> Z -> R -> option error * R;
}.

(** The aligned time bucket of an instant, and the key it counts under. *)
Definition window_bucket (r : RedisRateLimit) (now : Z) : Z := Z.quot now (window r).

Definition redis_key (r : RedisRateLimit) (key : string) (now : Z) : string :=
  redisRateLimitPrefix +:+ scope r +:+ ":" +:+ key +:+ ":" +:+ itoa (window_bucket r now).

(** [fail] *)
Definition redis_fail (r : RedisRateLimit) : bool * Z :=
  if failClosed r then (false, window r) else (true, 0).

(** [Allow]; the third component says whether Redis counted the call. *)
Definition redis_Allow `{Redis R} (r : RedisRateLimit) (key : string) (now : Z) (s : R)
    : (bool * Z) * bool * R :=
  let rkey := redis_key r key now in
  let '(res, s) := redis_Incr rkey s in
  match res with
  | inr _ => (redis_fail r, false, s)
  | inl n =>
      let '(_, s) := redis_ExpireNX rkey (window r) s in
      if limit r <? n then
        let remaining := wrap64 (wrap64 ((window_bucket r now + 1) * window r) - now) in
        ((false, if remaining <? 0 then 0 else remaining), true, s)
      else ((true, 0), true, s)
  end.

(** What the documentation of INCR and EXPIRE says of a server whose counters
    are read by [count]: INCR is atomic and returns the new value; neither
    command lowers a counter; a counter is never negative here. *)
Class RedisLaws {R} `{Redis R} (count : R -> string -> Z) := {
  count_nonneg : forall s k, 0 <= count s k;
  incr_ok : forall k s n s', redis_Incr k s = (inl n, s') -> n = count s k + 1 /\ count s' k = n;
  incr_mono : forall k s res s' k', redis_Incr k s = (res, s') -> count s k' <= count s' k';
  expire_mono : forall k d s res s' k', redis_ExpireNX k d s = (res, s') -> count s k' <= count s' k';
}.

(** One call of [Allow] by some node. *)
Record call := MkCall {
  call_key : string;
  call_now : Z;
  call_allowed : bool;
  call_wait : Z;
  call_counted : bool;
}.

(** The calls of all nodes that share the server, in its order. Between calls
    anything else may happen to it, as long as the counters in [live] do not
    lapse: a counter lives for a whole window after it was made. *)
Inductive calls `{Redis R} (count : R -> string -> Z) (r : RedisRateLimit) (live : string -> Prop)
    : R -> list call -> R -> Prop :=
| calls_nil s : calls count r live s [] s
| calls_allow s log s1 key now ok wait counted s2 :
    calls count r live s log s1 ->
    redis_Allow r key now s1 = ((ok, wait), counted, s2) ->
    calls count r live s (log ++ [MkCall key now ok wait counted]) s2
| calls_other s log s1 s2 :
    calls count r live s log s1 ->
    (forall k, live k -> count s1 k <= count s2 k) ->
    calls count r live s log s2.
