(* ===== verification/RateLimitProps.v ===== *)
(** * Properties of the rate limiters

    The token bucket tracks a bounded number of keys and forgets the ones idle
    longest. The Redis window bounds the calls of all nodes together. *)

From Stdlib Require Import String.
From S2P Require Import Prelude GoStd AppErrors Float64 RateLimit.

Local Open Scope Z_scope.

(** ** The token bucket *)

Section TokenBucket.
Variable iteration : gmap string bucket -> list (string * bucket).
Hypothesis iteration_all : forall m, Permutation (iteration m) (map_to_list m).

Lemma lookup_dropped (l : list (string * bucket)) (m : gmap string bucket) k :
  foldr (fun kv m => delete kv.1 m) m l !! k = if bool_decide (k ∈ l.*1) then None else m !! k.
Proof.
  induction l as [|[k' b] l IH]; [done|]. simpl.
  destruct (decide (k = k')) as [->|Hne].
  - rewrite lookup_delete_eq, bool_decide_eq_true_2; [done|]. apply elem_of_cons. by left.
  - rewrite lookup_delete_ne, IH by done.
    assert (k ∈ k' :: l.*1 <-> k ∈ l.*1) as Hk by set_solver. by rewrite (bool_decide_ext _ _ Hk).
Qed.

(** An eviction makes room, and drops no bucket that was touched later than
    one it keeps. *)
Lemma evictLocked_room (m : gmap string bucket) :
  (0 < size m)%nat ->
  (size (evictLocked iteration m) < size m)%nat
  /\ evictLocked iteration m ⊆ m
  /\ forall k b k' b', m !! k = Some b -> evictLocked iteration m !! k = None ->
       evictLocked iteration m !! k' = Some b' -> last b <= last b'.
Proof.
  intros Hm. unfold evictLocked. set (all := stable_sort older (iteration m)).
  assert (Permutation all (map_to_list m)) as Hp.
  { unfold all. by rewrite stable_sort_Permutation, iteration_all. }
  assert (StronglySorted (not_less older) all) as Hs.
  { apply stable_sort_Sorted; unfold not_less, older; intros; rewrite ?Z.ltb_ge, ?Z.ltb_lt in *; lia. }
  assert (length all = size m) as Hl by (by rewrite Hp, length_map_to_list).
  set (n := if ((length all / 2) <? 1)%nat then 1%nat else (length all / 2)%nat).
  assert (1 <= n)%nat as Hn by (unfold n; destruct (Nat.ltb_spec (length all / 2) 1); lia).
  assert (forall k b, (k, b) ∈ all <-> m !! k = Some b) as Hin.
  { intros k b. by rewrite Hp, elem_of_map_to_list. }
  assert (NoDup all.*1) as Hnd by (by rewrite Hp; apply NoDup_fst_map_to_list).
  set (m' := foldr _ m (take n all)).
  assert (m' ⊆ m) as Hsub.
  { apply map_subseteq_spec. intros k b. unfold m'. rewrite lookup_dropped. by case_bool_decide. }
  split; [|split; [done|]].
  - destruct all as [|[k b] all'] eqn:Ea; [simpl in Hl; lia|].
    apply map_subset_size. apply map_subset_alt. split; [done|]. exists k.
    assert (m' !! k = None) as ->.
    { unfold m'. rewrite lookup_dropped, bool_decide_eq_true_2; [done|].
      destruct n; [lia|]. simpl. apply elem_of_cons. by left. }
    split; [done|]. exists b. apply Hin, elem_of_cons. by left.
  - intros k b k' b' Hk Hk0 Hk'. unfold m' in *. rewrite lookup_dropped in Hk0, Hk'.
    case_bool_decide as Hd'; [done|]. case_bool_decide as Hd; [|congruence]. clear Hk0.
    apply Hin in Hk, Hk'.
    assert ((k, b) ∈ take n all) as H1.
    { apply list_elem_of_fmap in Hd as ([k0 b0] & E0 & Hd). simpl in E0. subst k0.
      assert ((k, b0) ∈ all) as H0 by (rewrite <- (take_drop n all); apply elem_of_app; by left).
      apply Hin in H0. apply Hin in Hk.
      assert (b0 = b) as -> by congruence. done. }
    assert ((k', b') ∈ drop n all) as H2.
    { rewrite <- (take_drop n all) in Hk'. apply elem_of_app in Hk' as [Ht|Ht]; [|done].
      exfalso. apply Hd', list_elem_of_fmap. by exists (k', b'). }
    rewrite <- (take_drop n all) in Hs. apply StronglySorted_app in Hs as (Hc & _ & _).
    specialize (Hc _ _ H1 H2). unfold not_less, older in Hc. apply Z.ltb_ge in Hc. exact Hc.
Qed.

(** Whatever keys ask, the table never tracks more than [maxBuckets]. *)
Lemma buckets_bounded rl key now :
  0 < maxBuckets rl -> Z.of_nat (size (buckets rl)) <= maxBuckets rl ->
  let '(_, rl') := Allow iteration key now rl in
  Z.of_nat (size (buckets rl')) <= maxBuckets rl' /\ maxBuckets rl' = maxBuckets rl.
Proof.
  intros Hmax Hsz. unfold Allow.
  assert (forall (m : gmap string bucket) b, (size m < size (buckets rl))%nat \/ m = buckets rl
            /\ (Z.of_nat (size m) < maxBuckets rl \/ is_Some (buckets rl !! key)) ->
            Z.of_nat (size (<[key := b]> m)) <= maxBuckets rl) as Hput.
  { intros m b. rewrite map_size_insert. intros [?|[-> [?|[x ->]]]]; [|destruct (_ !! _); simpl; lia|simpl; lia].
    destruct (m !! key); simpl; lia. }
  destruct (buckets rl !! key) as [b|] eqn:Ek.
  - destruct (_ && _); simpl; (split; [|done]); apply Hput; right; eauto.
  - destruct (Z.leb_spec (maxBuckets rl) (Z.of_nat (size (buckets rl)))) as [Hle|Hlt];
      destruct (_ && _); simpl; (split; [|done]); apply Hput; auto.
    all: left; apply evictLocked_room; lia.
Qed.
End TokenBucket.

(** ** The Redis window *)

Section Redis.
Context {R : Type} `{Redis R} (count : R -> string -> Z) `{!RedisLaws count}.

(** Calls Redis counted and let through under a key. *)
Definition granted (r : RedisRateLimit) (rkey : string) (c : call) : bool :=
  call_allowed c && call_counted c && String.eqb (redis_key r (call_key c) (call_now c)) rkey.

(** The wait of a refused call. *)
Lemma rotation_wait r now :
  0 < window r -> 0 <= now <= int64_max - window r ->
  0 < wrap64 (wrap64 ((window_bucket r now + 1) * window r) - now) <= window r.
Proof.
  intros Hw Hn. unfold window_bucket. rewrite Z.quot_div_nonneg by lia.
  pose proof (Z.div_mod now (window r)) as E. pose proof (Z.mod_pos_bound now (window r)) as Hb.
  assert (0 <= now / window r) by (apply Z.div_pos; lia).
  replace ((now / window r + 1) * window r) with (now - now mod window r + window r) by lia.
  unfold int64_max in Hn.
  rewrite !(wrap64_id (now - _ + _)) by (unfold in_int64, int64_min, int64_max; lia).
  rewrite wrap64_id by (unfold in_int64, int64_min, int64_max; lia). lia.
Qed.

Lemma redis_Allow_spec r key now s ok wait counted s' :
  redis_Allow r key now s = ((ok, wait), counted, s') ->
  (forall k, count s k <= count s' k)
  /\ (counted = true -> count s (redis_key r key now) + 1 <= count s' (redis_key r key now)
                        /\ (ok = true <-> count s (redis_key r key now) + 1 <= limit r))
  /\ (counted = false -> ok = negb (failClosed r))
  /\ (ok = false -> 0 < window r -> 0 <= now <= int64_max - window r -> 0 < wait <= window r).
Proof.
  unfold redis_Allow. destruct (redis_Incr _ s) as [[n|x] s1] eqn:Ei; intros E.
  - destruct (redis_ExpireNX _ _ s1) as [o s2] eqn:Ee.
    pose proof (incr_ok _ _ _ _ Ei) as [-> Hn].
    assert (forall k, count s k <= count s2 k) as Hm.
    { intros k. etrans; [by eapply incr_mono|by eapply expire_mono]. }
    pose proof (expire_mono _ _ _ _ _ (redis_key r key now) Ee).
    destruct (Z.ltb_spec (limit r) (count s (redis_key r key now) + 1)) as [El|El]; simplify_eq;
      (split; [done|]); (split; [intros _; split; [lia|]|split; [done|]]).
    + split; [done|lia].
    + intros _ Hw Hnow. pose proof (rotation_wait r now Hw Hnow).
      destruct (Z.ltb_spec (wrap64 (wrap64 ((window_bucket r now + 1) * window r) - now)) 0); lia.
    + done.
    + done.
  - unfold redis_fail in E. assert (forall k, count s k <= count s1 k) by (intros; by eapply incr_mono).
    destruct (failClosed r); simplify_eq; repeat split; try done; lia.
Qed.

(** One counter lets at most [limit] calls through. *)
Lemma granted_bound r live rkey s log s' :
  live rkey -> 0 <= limit r -> calls count r live s log s' ->
  Z.of_nat (length (List.filter (granted r rkey) log)) <= Z.min (limit r) (count s' rkey).
Proof.
  intros Hlive Hl. induction 1 as [s|s log s1 key now ok wait counted s2 _ IH Ha|s log s1 s2 _ IH Hm].
  - pose proof (count_nonneg s rkey). simpl. lia.
  - apply redis_Allow_spec in Ha as (Hm & Hc & _ & _). specialize (Hm rkey).
    rewrite List.filter_app, length_app. simpl.
    destruct (granted r rkey (MkCall key now ok wait counted)) eqn:Eg; simpl; [|lia].
    unfold granted in Eg. cbn [call_allowed call_counted call_key call_now] in Eg.
    rewrite !andb_true_iff, String.eqb_eq in Eg.
    destruct Eg as [[-> ->] <-]. destruct (Hc eq_refl) as [? [Hok _]]. specialize (Hok eq_refl). lia.
  - specialize (Hm rkey Hlive). lia.
Qed.

Lemma window_buckets r t now :
  0 < window r -> 0 <= t -> t <= now < t + window r ->
  window_bucket r now = window_bucket r t \/ window_bucket r now = window_bucket r (t + window r).
Proof.
  intros Hw Ht Hn. unfold window_bucket. rewrite !Z.quot_div_nonneg by lia.
  replace (t + window r) with (t + 1 * window r) by lia. rewrite Z.div_add by lia.
  pose proof (Z.div_le_mono t now (window r)). pose proof (Z.div_lt_upper_bound now (window r) (t / window r + 2)).
  pose proof (Z.mul_div_le t (window r)). pose proof (Z.mod_pos_bound t (window r)).
  pose proof (Z.div_mod t (window r)). nia.
Qed.

(** The calls for a key within a stretch of one window. *)
Definition in_stretch (r : RedisRateLimit) (key : string) (t : Z) (c : call) : bool :=
  String.eqb (call_key c) key && (t <=? call_now c) && (call_now c <? t + window r)
  && call_allowed c && call_counted c.

Lemma stretch_bound r live key t s log s' :
  0 < window r -> 0 <= t -> 0 <= limit r -> live (redis_key r key t) -> live (redis_key r key (t + window r)) ->
  calls count r live s log s' ->
  Z.of_nat (length (List.filter (in_stretch r key t) log)) <= 2 * limit r.
Proof.
  intros Hw Ht Hl H1 H2 Hc.
  pose proof (granted_bound _ _ _ _ _ _ H1 Hl Hc). pose proof (granted_bound _ _ _ _ _ _ H2 Hl Hc).
  enough (length (List.filter (in_stretch r key t) log)
          <= length (List.filter (granted r (redis_key r key t)) log)
             + length (List.filter (granted r (redis_key r key (t + window r))) log))%nat by lia.
  clear -Hw Ht. induction log as [|c log IH]; simpl; [lia|].
  destruct (in_stretch r key t c) eqn:Ec; [|repeat destruct (granted _ _ _); simpl; lia].
  unfold in_stretch in Ec. rewrite !andb_true_iff, String.eqb_eq, Z.leb_le, Z.ltb_lt in Ec.
  destruct Ec as ((((Hk & Ha) & Hb) & Hok) & Hcnt).
  assert (granted r (redis_key r key t) c = true \/ granted r (redis_key r key (t + window r)) c = true) as Hg.
  { unfold granted. rewrite Hok, Hcnt, Hk. simpl. unfold redis_key.
    destruct (window_buckets r t (call_now c)) as [-> | ->]; [lia..|left|right]; apply String.eqb_refl. }
  simpl. destruct Hg as [-> | ->]; repeat destruct (granted _ _ _); simpl; lia.
Qed.

Lemma calls_outcomes r live s log s' :
  0 < window r -> calls count r live s log s' ->
  Forall (fun c => (call_allowed c = true -> call_counted c = true \/ failClosed r = false)
     /\ (call_allowed c = false -> 0 <= call_now c <= int64_max - window r -> 0 < call_wait c <= window r)) log.
Proof.
  intros Hw. induction 1 as [s|s log s1 key now ok wait counted s2 _ IH Ha|]; [constructor| |done].
  apply Forall_app. split; [done|]. apply Forall_singleton. simpl.
  apply redis_Allow_spec in Ha as (_ & _ & Hf & Hd). split; [|intros; by apply Hd].
  intros ->. destruct counted; [by left|right]. specialize (Hf eq_refl). by destruct (failClosed r).
Qed.
End Redis.

(** C40. The distributed limit. Whatever the nodes that share a Redis server ask
    and whatever else happens to it while its counters live: the calls for one
    key in one aligned window that Redis counted and that were let through are
    at most the limit, and those in any stretch of one window's length at most
    twice the limit. A call Redis could not count is let through only when the
    limiter is configured to fail open, and a refusal's wait is positive and at
    most one window. *)
Theorem redis_window_bound {R} `{Redis R} (count : R -> string -> Z) `{!RedisLaws count} cfg live s log s'
    (Hcalls : calls count (NewRedisRateLimit cfg) live s log s') :
  let r := NewRedisRateLimit cfg in
  (forall key t, live (redis_key r key t) ->
     Z.of_nat (length (List.filter (granted r (redis_key r key t)) log)) <= limit r)
  /\ (forall key t, 0 <= t -> live (redis_key r key t) -> live (redis_key r key (t + window r)) ->
     Z.of_nat (length (List.filter (in_stretch r key t) log)) <= 2 * limit r)
  /\ Forall (fun c => call_allowed c = true -> call_counted c = true \/ failClosed r = false) log
  /\ Forall (fun c => call_allowed c = false -> 0 <= call_now c <= int64_max - window r ->
               0 < call_wait c <= window r) log.
Proof.
  intros r. assert (0 < window r) as Hw.
  { unfold r, NewRedisRateLimit. simpl. destruct (Z.leb_spec (cfg_Window cfg) 0); [done|lia]. }
  assert (0 <= limit r) as Hl.
  { unfold r, NewRedisRateLimit. simpl. destruct (Z.leb_spec (cfg_Limit cfg) 0); [done|lia]. }
  split; [|split; [|by apply Forall_and, (calls_outcomes count _ live s _ s')]].
  - intros key t Hk. pose proof (granted_bound count _ _ _ _ _ _ Hk Hl Hcalls) as Hg. fold r in Hg. lia.
  - intros key t Ht H1 H2. by eapply (stretch_bound count).
Qed.

(** A server that never fails. *)
#[local] Instance demo_redis : Redis (gmap string N) := {
  redis_Incr k s := let n := (default 0 (s !! k) + 1)%N in (inl (Z.of_N n), <[k := n]> s);
  redis_ExpireNX _ _ s := (None, s);
}.

Definition demo_count (s : gmap string N) (k : string) : Z := Z.of_N (default 0%N (s !! k)).

#[local] Instance demo_laws : RedisLaws demo_count.
Proof.
  unfold demo_count. split; simpl; intros; simplify_eq.
  - lia.
  - rewrite lookup_insert_eq. simpl. lia.
  - destruct (decide (k = k')) as [->|]; [rewrite lookup_insert_eq|by rewrite lookup_insert_ne].
    simpl. lia.
  - lia.
Qed.

(** The calls of one key, one after the other. *)
Fixpoint demo_calls (r : RedisRateLimit) (key : string) (nows : list Z) (log : list call) (s : gmap string N)
    : list call * gmap string N :=
  match nows with
  | [] => (log, s)
  | now :: nows =>
      let '(ok, wait, counted, s) := redis_Allow r key now s in
      demo_calls r key nows (log ++ [MkCall key now ok wait counted]) s
  end.

Lemma demo_calls_run r key nows log s0 s1 :
  calls demo_count r (fun _ => True) s0 log s1 ->
  calls demo_count r (fun _ => True) s0 (demo_calls r key nows log s1).1 (demo_calls r key nows log s1).2.
Proof.
  revert log s1. induction nows as [|now nows IH]; intros log s1 Hc; [done|]. cbn [demo_calls].
  destruct (redis_Allow r key now s1) as [[[ok wait] counted] s2] eqn:E. apply IH. by eapply calls_allow.
Qed.

Lemma redis_window_bound_witness :
  let r := NewRedisRateLimit (MkRedisConfig 2 1000 "auth" true) in
  let log := (demo_calls r "k" [2500; 2600; 2700; 3100] [] ∅).1 in
  map (fun c => (call_now c, call_allowed c, call_wait c)) log
  = [(2500, true, 0); (2600, true, 0); (2700, false, 300); (3100, true, 0)]
  /\ (forall key t, Z.of_nat (length (List.filter (granted r (redis_key r key t)) log)) <= limit r).
Proof.
  split; [vm_compute; reflexivity|].
  intros key t.
  apply (redis_window_bound demo_count (MkRedisConfig 2 1000 "auth" true) (fun _ => True) ∅ _
           (demo_calls (NewRedisRateLimit (MkRedisConfig 2 1000 "auth" true)) "k"
              [2500; 2600; 2700; 3100] [] ∅).2); [|done].
  apply demo_calls_run, calls_nil.
Defined.
