(* ===== verification/Tenancy.v ===== *)
(** * internal/tenancy: who calls, by API key

    service.go (principals, key hashes, [Authenticate]) and middleware.go (the
    API-key gate and the capability surface). The table [api_keys] and the two
    tables the identity plane reads are [AuthDB]; a query's error is an
    argument. A handler in the chain is told what the request's context
    carries: [Served]; or the chain answers itself: [Refused]. *)

From Stdlib Require Import String SpecFloat.
From S2P Require Import Prelude GoStd AppErrors Sha256 Float64 RateLimit.

Local Open Scope Z_scope.

Record Principal := MkPrincipal {
  APIKeyID : string;
  p_TenantID : string;
  Scopes : list string;
}.

Definition HasScope (p : Principal) (scope : string) : bool :=
  existsb (fun s => String.eqb s "*" || String.eqb s scope) (Scopes p).

Definition HasCapability (p : Principal) (capability : string) : bool := HasScope p capability.

Definition HashKey (raw : string) : string := hex_encode (Sum256 (str_bytes raw)).

(** A fresh key over the bytes the random source gives. *)
Definition randomHex (b : list Z) : string := hex_encode b.
Definition NewRawKey (b : list Z) : string := "orvx_" +:+ randomHex b.

(** ** The tables *)

Record ApiKey := MkApiKey {
  k_ID : string;
  k_TenantID : string;
  k_Hash : string;
  k_Scopes : list string;
  k_Status : string;
  k_ExpiresAt : option Z;
}.

Record RoleBinding := MkRoleBinding {
  rb_TenantID : string;
  rb_Principal : string;
  rb_Role : string;
  rb_Status : string;
}.

Record AuthDB := MkAuthDB {
  api_keys : list ApiKey;
  role_bindings : list RoleBinding;
  (** role, capability *)
  capability_catalog : list (string * string);
}.

(** [WHERE key_hash = $1 AND status = 'active' AND (expires_at IS NULL OR
    expires_at > now())] *)
Definition live_key (hash : string) (now : Z) (k : ApiKey) : bool :=
  String.eqb (k_Hash k) hash && String.eqb (k_Status k) "active"
  && match k_ExpiresAt k with None => true | Some t => now <? t end.

Definition Authenticate (db : AuthDB) (failed : option error) (now : Z) (rawKey : string) : Principal + Error :=
  if is_empty (trim_space rawKey) then inr (Unauth "auth.missing_key" "missing API key")
  else
  match failed with
  | Some x => inr (WithCause (Internal "auth.lookup_failed" "authentication unavailable") x)
  | None =>
      match List.find (live_key (HashKey rawKey) now) (api_keys db) with
      | None => inr (Unauth "auth.invalid_key" "invalid API key")
      | Some k => inl (MkPrincipal (k_ID k) (k_TenantID k) (k_Scopes k))
      end
  end.

(** ** The middleware *)

Record Request := MkRequest {
  Authorization : string;
  XAPIKey : string;
  Method : string;
}.

(** [len(auth) > 7 && strings.EqualFold(auth[:7], "bearer ")] *)
Definition has_bearer (auth : string) : bool :=
  (7 <? String.length auth)%nat && equal_fold (stake 7 auth) "bearer ".

Definition bearerOrHeader (r : Request) : string :=
  if has_bearer (Authorization r) then trim_space (sdrop 7 (Authorization r))
  else trim_space (XAPIKey r).

(** [retryCeil]: the whole seconds of the wait, at least one. *)
Definition retryCeil (d : Z) : string :=
  let s := float_to_int64 (Seconds d) in
  itoa (if s <? 1 then 1 else s).

Definition AuthMethodOIDC := "oidc".

Record IdentityRef := MkIdentityRef {
  ref_Method : string;
  ref_Subject : string;
  ref_TenantID : string;
}.

(** What the request's context carries when the next handler runs: the
    principal, and the provenance of an OIDC caller. *)
Record Context := MkContext {
  ctx_Principal : option Principal;
  ctx_Identity : option IdentityRef;
}.

Inductive Response :=
| Served (ctx : Context)
| Refused (err : Error) (retryAfter : option string).

Section Middleware.
Variable iteration : gmap string bucket -> list (string * bucket).

Definition AuthMiddleware (requiredScope : string) (db : AuthDB) (failed : option error) (now : Z)
    (r : Request) (rl : RateLimit) : Response * RateLimit :=
  match Authenticate db failed now (bearerOrHeader r) with
  | inr err => (Refused err None, rl)
  | inl p =>
      if negb (HasScope p requiredScope) then
        (Refused (Forbidden "auth.scope_missing" ("key lacks required scope " +:+ requiredScope)) None, rl)
      else
        let '((ok, retry), rl) := Allow iteration (APIKeyID p) now rl in
        if negb ok then
          (Refused (RateLimited "auth.rate_limited" "rate limit exceeded; retry later") (Some (retryCeil retry)), rl)
        else (Served (MkContext (Some p) None), rl)
  end.
End Middleware.
