(* ===== verification/Identity.v ===== *)
(** * internal/identity: OIDC callers and what they may do

    roles.go (the catalog), roles_db.go (the binding resolver and its cache),
    jwks.go (the signing keys), identity.go (discovery, verification, the
    principal), middleware.go (dual authentication, capability gates) and
    endpoints.go (the MAC-protected login state). The JOSE library, JSON and
    the provider's HTTP answers are parameters. Errors that are only wrapped
    and logged keep the step that failed. *)

From Stdlib Require Import String Ascii SpecFloat.
From S2P Require Import Prelude GoStd AppErrors Float64 Sha256 RateLimit Tenancy.
From S2P Require Pagination Webhooks.

Local Open Scope Z_scope.

(** ** roles.go *)

Definition RoleViewer := "viewer".
Definition RoleAgent := "agent".
Definition RoleSupervisor := "supervisor".
Definition RoleAdmin := "admin".

Definition CapInteractionRead := "interaction.read".
Definition CapInteractionWrite := "interaction.write".
Definition CapCaseRead := "case.read".
Definition CapCaseWrite := "case.write".
Definition CapWorkflowRun := "workflow.run".
Definition CapSearchRead := "search.read".
Definition CapAdminOrg := "admin.org".

Definition capabilityOrder : list string :=
  [CapInteractionRead; CapInteractionWrite; CapCaseRead; CapCaseWrite; CapWorkflowRun;
   CapSearchRead; CapAdminOrg].

Definition roleCapabilities (role : string) : option (list string) :=
  if String.eqb role RoleViewer then Some [CapInteractionRead; CapCaseRead; CapSearchRead]
  else if String.eqb role RoleAgent then
    Some [CapInteractionRead; CapInteractionWrite; CapCaseRead; CapCaseWrite; CapSearchRead]
  else if String.eqb role RoleSupervisor then
    Some [CapInteractionRead; CapInteractionWrite; CapCaseRead; CapCaseWrite; CapWorkflowRun; CapSearchRead]
  else if String.eqb role RoleAdmin then
    Some [CapInteractionRead; CapInteractionWrite; CapCaseRead; CapCaseWrite; CapWorkflowRun;
          CapSearchRead; CapAdminOrg]
  else None.

Definition ParseRole (s : string) : string * bool :=
  (s, match roleCapabilities s with Some _ => true | None => false end).

Record Binding := MkBinding {
  Roles : list string;
  Capabilities : list string;
}.

Definition noBinding : Binding := MkBinding [] [].

(** The elements of [order] that are in the set. *)
Definition in_order (order : list string) (set : gset string) : list string :=
  List.filter (fun x => bool_decide (x ∈ set)) order.

Definition allRoles : list string := [RoleViewer; RoleAgent; RoleSupervisor; RoleAdmin].

Definition orderedRoles (set : gset string) : list string := in_order allRoles set.

(** The capabilities some role of the set is granted. *)
Definition granted_caps (set : gset string) : gset string :=
  list_to_set (mjoin (map (fun r => default [] (roleCapabilities r)) (elements set))).

Definition capabilitiesForRoles (set : gset string) : list string :=
  in_order capabilityOrder (granted_caps set).

Definition capabilitiesFromSet (set : gset string) : list string := in_order capabilityOrder set.

Definition staticBinding (roles : list string) : Binding :=
  let roleSet : gset string := list_to_set (List.filter (fun raw => (ParseRole raw).2) roles) in
  MkBinding (orderedRoles roleSet) (capabilitiesForRoles roleSet).

(** ** roles_db.go *)

Record dbRoleResolver := MkResolver {
  ttl : Z;
  maxEntries : Z;
  cache : gmap string (Binding * Z);
}.

Definition NewDBRoleResolver (ttl maxEntries : Z) : dbRoleResolver :=
  MkResolver (if ttl <=? 0 then 30 * Second else ttl) (if maxEntries <=? 0 then 4096 else maxEntries) ∅.

(** [SELECT DISTINCT rb.role, cc.capability FROM role_bindings rb JOIN
    capability_catalog cc ON cc.role = rb.role WHERE rb.tenant_id = $1 AND
    rb.principal = $2 AND rb.status = 'active'] *)
Definition sel_bindings (tenantID subject : string) (db : AuthDB) : list (string * string) :=
  mjoin (map (fun rb =>
    if String.eqb (rb_TenantID rb) tenantID && String.eqb (rb_Principal rb) subject
       && String.eqb (rb_Status rb) "active"
    then List.filter (fun rc => String.eqb rc.1 (rb_Role rb)) (capability_catalog db)
    else []) (role_bindings db)).

(** The binding the rows amount to. *)
Definition binding_of (rows : list (string * string)) : Binding :=
  MkBinding (orderedRoles (list_to_set (map fst rows))) (capabilitiesFromSet (list_to_set (map snd rows))).

Definition evictLocked (now : Z) (r : dbRoleResolver) : dbRoleResolver :=
  let kept := filter (fun kv : string * (Binding * Z) => time_Sub now kv.2.2 <= ttl r) (cache r) in
  MkResolver (ttl r) (maxEntries r) (if maxEntries r <=? Z.of_nat (size kept) then ∅ else kept).

Definition cache_key (tenantID subject : string) : string := tenantID +:+ "|" +:+ subject.

(** The clock readings of one call: at the lookup, the eviction, the store. *)
Record clock3 := MkClock3 { at_lookup : Z; at_evict : Z; at_store : Z }.

(** The first locked section of [Resolve]. *)
Definition cached (key : string) (now : Z) (r : dbRoleResolver) : option Binding :=
  match cache r !! key with
  | Some (b, resolved) => if time_Sub now resolved <=? ttl r then Some b else None
  | None => None
  end.

(** The second one. *)
Definition remember (key : string) (b : Binding) (c : clock3) (r : dbRoleResolver) : dbRoleResolver :=
  let r := if maxEntries r <=? Z.of_nat (size (cache r)) then evictLocked (at_evict c) r else r in
  MkResolver (ttl r) (maxEntries r) (<[key := (b, at_store c)]> (cache r)).

(** [Resolve]: the lookup, the query outside the lock, the store. The query's
    tables are [db]; the clock of the store is read after them. *)
Definition Resolve (tenantID subject : string) (db : AuthDB) (failed : option error) (c : clock3)
    (r : dbRoleResolver) : (Binding + error) * dbRoleResolver :=
  let key := cache_key tenantID subject in
  match cached key (at_lookup c) r with
  | Some b => (inl b, r)
  | None =>
      match failed with
      | Some x => (inr x, r)
      | None =>
          let b := binding_of (sel_bindings tenantID subject db) in
          (inl b, remember key b c r)
      end
  end.

(** ** jwks.go *)

Record jwk := MkJwk {
  Kid : string;
  Kty : string;
  Alg : string;
  Use : string;
  N : string;
  E : string;
}.

Record rsaPublicKey := MkRsaKey {
  pk_kid : string;
  pk_N : Z;
  pk_E : Z;
}.

(** [new(big.Int).SetBytes(b)] *)
Definition big_endian (l : list Z) : Z := fold_left (fun n b => n * 256 + b) l 0.

Definition decodeBase64URLUint (s : string) : option Z :=
  if is_empty s then None else
  match Pagination.DecodeString s with
  | Some b => Some (big_endian (str_bytes b))
  | None => None
  end.

(** None where the code returns an error; the caller skips the key. *)
Definition rsa_key (j : jwk) : option rsaPublicKey :=
  if is_empty (Kid j) || negb (String.eqb (Kty j) "RSA")
     || (negb (is_empty (Alg j)) && negb (String.eqb (Alg j) "RS256")) then None
  else if negb (is_empty (Use j)) && negb (String.eqb (Use j) "sig") then None
  else
  match decodeBase64URLUint (N j) with
  | None => None
  | Some n =>
      match decodeBase64URLUint (E j) with
      | None => None
      | Some e =>
          if (e <=? 0) || negb (bool_decide (in_int64 e)) || (2 ^ 31 <? e) then None
          else Some (MkRsaKey (Kid j) n e)
      end
  end.

Record jwksCache := MkJwksCache {
  keys : gmap string rsaPublicKey;
  fetchedAt : Z;
  lastFetch : Z;
  jwks_ttl : Z;
  minRefresh : Z;
}.

(** [time.Time{}]: the first instant of year 1. *)
Definition zero_time : Z := - 62135596800 * Second.

Definition newJWKSCache (ttl minRefresh : Z) : jwksCache :=
  MkJwksCache ∅ zero_time zero_time (if ttl <=? 0 then 10 * Minute else ttl)
    (if minRefresh <? 0 then 0 else minRefresh).

(** The usable keys of a document, a later entry of a kid replacing an earlier. *)
Definition usable_keys (doc : list jwk) : gmap string rsaPublicKey :=
  fold_left (fun m j => match rsa_key j with Some pk => <[pk_kid pk := pk]> m | None => m end) doc ∅.

(** [refreshLocked], given the provider's answer: the keys of the document, or
    the error of the request, the status or the decoder. *)
Definition refreshLocked (now : Z) (answer : list jwk + error) (c : jwksCache) : option error * jwksCache :=
  let c := MkJwksCache (keys c) (fetchedAt c) now (jwks_ttl c) (minRefresh c) in
  match answer with
  | inr x => (Some x, c)
  | inl doc =>
      let next := usable_keys doc in
      if bool_decide (next = ∅) then (Some (OtherErr "jwks: no usable RSA signing keys" None), c)
      else (None, MkJwksCache next now (lastFetch c) (jwks_ttl c) (minRefresh c))
  end.

Definition no_key (kid : string) : error := OtherErr ("jwks: no signing key for kid " +:+ quote kid) None.

(** The lookup after the refresh. *)
Definition known_key (kid : string) (c : jwksCache) : rsaPublicKey + error :=
  match keys c !! kid with Some k => inl k | None => inr (no_key kid) end.

(** The third component says whether the provider was asked. *)
Definition publicKey (kid : string) (now : Z) (answer : list jwk + error) (c : jwksCache)
    : (rsaPublicKey + error) * jwksCache * bool :=
  let hit := match keys c !! kid with
             | Some k => if time_Sub now (fetchedAt c) <=? jwks_ttl c then Some k else None
             | None => None
             end in
  match hit with
  | Some k => (inl k, c, false)
  | None =>
      if minRefresh c <=? time_Sub now (lastFetch c) then
        let '(err, c) := refreshLocked now answer c in
        match err with
        | Some x => (inr x, c, true)
        | None => (known_key kid c, c, true)
        end
      else (known_key kid c, c, false)
  end.

(** ** errors.go *)

Definition invalidToken (reason : string) : Error :=
  WithDetails (Unauth "identity.invalid_token" "invalid or unacceptable identity token")
    (VMap [("reason", VStr reason)]).

Definition errDisabled : Error :=
  NotFound "identity.disabled" "OIDC identity is not configured on this deployment".

Definition errDiscovery (cause : error) : Error :=
  WithCause (Internal "identity.discovery_failed" "identity provider discovery failed") cause.

Definition errBindingLookup (cause : error) : Error :=
  WithCause (Internal "identity.binding_lookup_failed" "authorization lookup failed") cause.

Definition capabilityMissing (capability : string) : Error :=
  WithDetails (Forbidden "identity.capability_missing" "missing required capability")
    (VMap [("required_capability", VStr capability)]).

(** ** identity.go *)

Record Config := MkConfig {
  Issuer : string;
  ClientID : string;
  ClientSecret : string;
  RedirectURL : string;
  Leeway : Z;
  JWKSTTL : Z;
  JWKSMinRefresh : Z;
}.

(** The defaults of [NewService]. *)
Definition effective (cfg : Config) : Config :=
  MkConfig (Issuer cfg) (ClientID cfg) (ClientSecret cfg) (RedirectURL cfg)
    (if Leeway cfg <=? 0 then 30 * Second else Leeway cfg)
    (if JWKSTTL cfg <=? 0 then 10 * Minute else JWKSTTL cfg)
    (if JWKSMinRefresh cfg =? 0 then 2 * Second
     else if JWKSMinRefresh cfg <? 0 then 0 else JWKSMinRefresh cfg).

Record Claims := MkClaims {
  Subject : string;
  c_Issuer : string;
  ExpiresAt : option Z;
  Tenant : string;
  c_TenantID : string;
  c_Roles : list string;
}.

Definition TenantClaim (c : Claims) : string := if is_empty (Tenant c) then c_TenantID c else Tenant c.

Record discoveryDoc := MkDiscoveryDoc {
  d_Issuer : string;
  AuthorizationEndpoint : string;
  TokenEndpoint : string;
  JWKSURI : string;
}.

(** The service after construction: the resolver is nil in the static posture;
    the provider and its keys are there once discovery succeeded. *)
Record Service := MkService {
  cfg : Config;
  resolver : option dbRoleResolver;
  provider : option string;
  jwks : jwksCache;
}.

Definition NewService (c : Config) : Service := MkService (effective c) None None (newJWKSCache 0 0).

(** [FromEnv]: [None] unless issuer, client and secret are all there. The
    scopes go to the authorization URL only and are left out. *)
Definition FromEnv (getenv : string -> string) : option Service :=
  let issuer := trim_space (getenv "ORVEXA_OIDC_ISSUER") in
  let clientID := trim_space (getenv "ORVEXA_OIDC_CLIENT_ID") in
  let clientSecret := getenv "ORVEXA_OIDC_CLIENT_SECRET" in
  if is_empty issuer || is_empty clientID || is_empty clientSecret then None
  else Some (NewService (MkConfig issuer clientID clientSecret (trim_space (getenv "ORVEXA_OIDC_REDIRECT_URL")) 0 0 0)).

Definition set_jwks (k : jwksCache) (s : Service) : Service := MkService (cfg s) (resolver s) (provider s) k.
Definition set_resolver (r : option dbRoleResolver) (s : Service) : Service :=
  MkService (cfg s) r (provider s) (jwks s).

(** [strings.TrimSuffix] of one byte *)
Fixpoint trim_suffix_byte (s : string) (c : ascii) : string :=
  match s with
  | EmptyString => EmptyString
  | String a EmptyString => if Ascii.eqb a c then EmptyString else s
  | String a s' => String a (trim_suffix_byte s' c)
  end.

(** [ensure], given the provider's answer: the document, or the error of the
    request, the status or the decoder. *)
Definition ensure (answer : discoveryDoc + error) (s : Service) : option Error * Service :=
  match provider s with
  | Some _ => (None, s)
  | None =>
      match answer with
      | inr x => (Some (errDiscovery x), s)
      | inl doc =>
          if negb (String.eqb (d_Issuer doc) (trim_suffix_byte (Issuer (cfg s)) "/"%char)) then
            (Some (errDiscovery (OtherErr ("discovery issuer " +:+ quote (d_Issuer doc)
               +:+ " does not match configured issuer " +:+ quote (Issuer (cfg s))) None)), s)
          else if is_empty (AuthorizationEndpoint doc) || is_empty (TokenEndpoint doc)
                  || is_empty (JWKSURI doc) then
            (Some (errDiscovery (OtherErr "discovery document lacks required endpoints" None)), s)
          else
            (None, MkService (cfg s) (resolver s) (Some (d_Issuer doc))
                     (newJWKSCache (JWKSTTL (cfg s)) (JWKSMinRefresh (cfg s))))
      end
  end.

(** The errors of the JOSE library [mapParseError] tells apart; an error it
    returns may wrap several. *)
Inductive JwtError :=
| ErrTokenMalformed
| ErrTokenExpired
| ErrTokenNotValidYet
| ErrTokenUsedBeforeIssued
| ErrTokenInvalidIssuer
| ErrTokenInvalidAudience
| ErrTokenSignatureInvalid
| ErrTokenUnverifiable
| ErrTokenOther.

#[export] Instance JwtError_eq_dec : EqDecision JwtError.
Proof. solve_decision. Defined.

(** The parser is configured with RS256, the issuer, the client as audience, a
    required expiry and the leeway. It decodes the token and checks the method,
    asks the key function for the key, then verifies the signature and the
    claims. *)
Class JOSE := {
  (** [json.Unmarshal] of the header: alg and kid *)
  json_header : string -> option (string * string);
  jwt_decode : string -> option (list JwtError);
  jwt_verify : Config -> string -> rsaPublicKey -> Z -> Claims + list JwtError;
  (** [uuid.Parse] *)
  uuid_parses : string -> bool;
}.

Definition mapParseError (errs : list JwtError) : string :=
  let isa x := existsb (fun y => bool_decide (x = y)) errs in
  if isa ErrTokenMalformed then "malformed"
  else if isa ErrTokenExpired then "expired"
  else if isa ErrTokenNotValidYet || isa ErrTokenUsedBeforeIssued then "not_yet_valid"
  else if isa ErrTokenInvalidIssuer then "issuer"
  else if isa ErrTokenInvalidAudience then "audience"
  else if isa ErrTokenSignatureInvalid then "signature"
  else "unverifiable".

(** [strings.Split(s, ".")] *)
Fixpoint split_dots (s : string) : list string :=
  match s with
  | EmptyString => [EmptyString]
  | String a s' =>
      if Ascii.eqb a "."%char then EmptyString :: split_dots s'
      else match split_dots s' with
           | x :: l => String a x :: l
           | [] => [String a EmptyString]
           end
  end.

(** What the outside answers while one request is authenticated. *)
Record Outside := MkOutside {
  discovery_answer : discoveryDoc + error;
  jwks_answer : list jwk + error;
  auth_db : AuthDB;
  auth_db_error : option error;
  now_verify : Z;
  now_bindings : clock3;
  now_limit : Z;
}.

Section Identity.
Context `{JOSE}.

Definition parseHeader (raw : string) : option (string * string) :=
  match split_dots raw with
  | [p0; _; _] =>
      match Pagination.DecodeString p0 with
      | Some decoded => json_header decoded
      | None => None
      end
  | _ => None
  end.

Definition Verify (raw : string) (o : Outside) (s : Service) : (Claims + Error) * Service :=
  let '(err, s) := ensure (discovery_answer o) s in
  match err with
  | Some x => (inr x, s)
  | None =>
      match parseHeader raw with
      | None => (inr (invalidToken "malformed"), s)
      | Some (alg, kid) =>
          if negb (String.eqb alg "RS256") then (inr (invalidToken "algorithm"), s)
          else if is_empty kid then (inr (invalidToken "key"), s)
          else
          match jwt_decode raw with
          | Some errs => (inr (invalidToken (mapParseError errs)), s)
          | None =>
              let '(k, c, _) := publicKey kid (now_verify o) (jwks_answer o) (jwks s) in
              let s := set_jwks c s in
              match k with
              | inr _ => (inr (invalidToken (mapParseError [ErrTokenUnverifiable])), s)
              | inl key =>
                  match jwt_verify (cfg s) raw key (now_verify o) with
                  | inr errs => (inr (invalidToken (mapParseError errs)), s)
                  | inl claims =>
                      if is_empty (trim_space (Subject claims)) then (inr (invalidToken "claims"), s)
                      else (inl claims, s)
                  end
              end
          end
      end
  end.

Definition capabilitiesFor (claims : Claims) (o : Outside) (s : Service) : (Binding + Error) * Service :=
  match resolver s with
  | None => (inl (staticBinding (c_Roles claims)), s)
  | Some r =>
      let tenant := TenantClaim claims in
      if negb (uuid_parses tenant) then (inl noBinding, s)
      else
        let '(res, r) := Resolve tenant (Subject claims) (auth_db o) (auth_db_error o) (now_bindings o) r in
        let s := set_resolver (Some r) s in
        match res with
        | inr x => (inr (errBindingLookup x), s)
        | inl b => (inl b, s)
        end
  end.

(** [Principal] *)
Definition principal_of (claims : Claims) (o : Outside) (s : Service)
    : (Principal * Binding + Error) * Service :=
  let '(res, s) := capabilitiesFor claims o s in
  match res with
  | inr x => (inr x, s)
  | inl b => (inl (MkPrincipal "" (TenantClaim claims) (Capabilities b), b), s)
  end.

(** ** middleware.go *)

Definition bearerToken (r : Request) : string :=
  if has_bearer (Authorization r) then trim_space (sdrop 7 (Authorization r)) else "".

Definition looksLikeJWT (token : string) : bool :=
  match split_dots token with
  | [a; b; c] => negb (is_empty a) && negb (is_empty b) && negb (is_empty c)
  | _ => false
  end.

(** [int(math.Ceil(f))] *)
Definition float_ceil (x : float64) : Z :=
  match x with
  | S754_finite s m e =>
      let v := if s then Z.neg m else Zpos m in
      if 0 <=? e then v * 2 ^ e else - ((- v) / 2 ^ (- e))
  | _ => 0
  end.

Definition retryAfterSeconds (d : Z) : string :=
  let s := float_ceil (Seconds d) in itoa (if s <? 1 then 1 else s).

Section Chain.
Variable iteration : gmap string bucket -> list (string * bucket).
(** the API-key chain the wrapper delegates to *)
Variable apiKeyAuth : Outside -> Request -> RateLimit -> Response * RateLimit.

Definition DualAuth (o : Outside) (r : Request) (s : Service) (rl : RateLimit)
    : Response * Service * RateLimit :=
  let token := bearerToken r in
  if is_empty token || negb (looksLikeJWT token) then
    let '(resp, rl) := apiKeyAuth o r rl in (resp, s, rl)
  else
  let '(claims, s) := Verify token o s in
  match claims with
  | inr err => (Refused err None, s, rl)
  | inl claims =>
      let '(res, s) := principal_of claims o s in
      match res with
      | inr err => (Refused err None, s, rl)
      | inl (p, _) =>
          let '((ok, retry), rl) := Allow iteration ("oidc:" +:+ Subject claims) (now_limit o) rl in
          if negb ok then
            (Refused (RateLimited "identity.rate_limited" "rate limit exceeded; retry later")
               (Some (retryAfterSeconds retry)), s, rl)
          else
            (Served (MkContext (Some p)
               (Some (MkIdentityRef AuthMethodOIDC (Subject claims) (p_TenantID p)))), s, rl)
      end
  end.
End Chain.

(** [oidcAuthFrom(ctx) != nil]: set together with the provenance. *)
Definition is_oidc (ctx : Context) : bool :=
  match ctx_Identity ctx with Some _ => true | None => false end.

Definition RequireCapability (capability : string) (ctx : Context) : Response :=
  match ctx_Principal ctx with
  | None => Refused (Unauth "auth.missing_key" "missing API key") None
  | Some p =>
      if is_oidc ctx then
        if negb (HasCapability p capability) then Refused (capabilityMissing capability) None
        else Served ctx
      else if negb (HasCapability p capability) && negb (HasScope p "api") && negb (HasScope p "*") then
        Refused (capabilityMissing capability) None
      else Served ctx
  end.

Definition RequireMethodCapability (read write : string) (r : Request) (ctx : Context) : Response :=
  if existsb (String.eqb (Method r)) ["GET"; "HEAD"; "OPTIONS"] then RequireCapability read ctx
  else RequireCapability write ctx.
End Identity.

(** ** endpoints.go: the login state *)

Definition stateTTL : Z := 10 * Minute.
Definition stateNonceBytes : Z := 32.

Definition errStateInvalid : Error := Unauth "identity.state_invalid" "state validation failed".

Definition stateKey (c : Config) : list Z :=
  Sum256 (str_bytes (("orvexa/oidc/state/v1" +:+ String "000"%char EmptyString) +:+ ClientSecret c)).

Definition state_mac (c : Config) (payload : string) : list Z :=
  Webhooks.hmac_sha256 (stateKey c) (str_bytes payload).

(** [t.Unix()] *)
Definition Unix (t : Z) : Z := t / Second.

Definition signState (c : Config) (nonce : string) (exp : Z) : string :=
  let payload := nonce +:+ "|" +:+ itoa (Unix exp) in
  Pagination.EncodeToString payload +:+ "."
  +:+ Pagination.EncodeToString (Pagination.of_bytes (state_mac c payload)).

(** [strings.LastIndexByte]: what is before and after the last occurrence. *)
Fixpoint cut_last (s : string) (c : ascii) : option (string * string) :=
  match s with
  | EmptyString => None
  | String a s' =>
      match cut_last s' c with
      | Some (h, t) => Some (String a h, t)
      | None => if Ascii.eqb a c then Some (EmptyString, s') else None
      end
  end.

(** Both parts must be there. *)
Definition cut_parts (s : string) (c : ascii) : option (string * string) :=
  match cut_last s c with
  | Some (h, t) => if is_empty h || is_empty t then None else Some (h, t)
  | None => None
  end.

Definition verifyState (c : Config) (state : string) (now : Z) : string + Error :=
  let invalid := inr errStateInvalid in
  match cut_parts state "."%char with
  | None => invalid
  | Some (h, t) =>
      match Pagination.DecodeString h, Pagination.DecodeString t with
      | Some payload, Some sig =>
          if negb (bool_decide (str_bytes sig = state_mac c payload)) then invalid
          else
          match cut_parts payload "|"%char with
          | None => invalid
          | Some (nonce, expiry) =>
              match atoi expiry with
              | None => invalid
              | Some exp =>
                  if exp <? Unix now then invalid
                  else if Z.of_nat (String.length nonce) <? stateNonceBytes then invalid
                  else inl nonce
              end
          end
      | _, _ => invalid
      end
  end.

Definition oauthCapable (c : Config) : bool := negb (is_empty (ClientSecret c)).

(** [AuthorizeURLHandler]'s state: from the random bytes of the nonce. *)
Definition mint_state (c : Config) (nonceBytes : string) (now : Z) : string * string :=
  let nonce := Pagination.EncodeToString nonceBytes in
  (nonce, signState c nonce (now + stateTTL)).

Definition principalInfo (claims : Claims) (b : Binding) : dict :=
  [("subject", VStr (Subject claims)); ("tenant_id", VStr (TenantClaim claims));
   ("roles", VList (map VStr (Roles b))); ("capabilities", VList (map VStr (Capabilities b)));
   ("authorized", VBool (match Capabilities b with [] => false | _ => true end));
   ("issuer", VStr (c_Issuer claims))]
  ++ match ExpiresAt claims with Some t => [("expires_at", VTime t)] | None => [] end.

Definition errRequestInvalid (msg : string) : Error := Invalid "identity.request_invalid" msg.
Definition errExchange (cause : error) : Error :=
  WithCause (Unauth "identity.exchange_failed" "authorization code exchange failed") cause.
Definition errIDTokenMissing : Error :=
  Unauth "identity.id_token_missing" "identity provider did not return an ID token".

(** [CallbackHandler]; [exchange] is the token endpoint's answer: the ID token,
    empty when there is none. *)
Definition Callback `{JOSE} (code state : string) (exchange : string + error) (now : Z) (o : Outside)
    (s : Service) : (dict + Error) * Service :=
  if negb (oauthCapable (cfg s)) then (inr errDisabled, s)
  else if is_empty code || is_empty state then
    (inr (errRequestInvalid "code and state query parameters are required"), s)
  else
  match verifyState (cfg s) state now with
  | inr err => (inr err, s)
  | inl _ =>
      let '(err, s) := ensure (discovery_answer o) s in
      match err with
      | Some x => (inr x, s)
      | None =>
          match exchange with
          | inr x => (inr (errExchange x), s)
          | inl rawID =>
              if is_empty rawID then (inr errIDTokenMissing, s)
              else
              let '(claims, s) := Verify rawID o s in
              match claims with
              | inr x => (inr x, s)
              | inl claims =>
                  let '(res, s) := principal_of claims o s in
                  match res with
                  | inr x => (inr x, s)
                  | inl (_, b) => (inl (principalInfo claims b), s)
                  end
              end
          end
      end
  end.
