(* ===== verification/IdentityProps.v ===== *)
(** * Properties of the identity plane

    Bindings agree with the catalog and age out of the cache; signing keys come
    from the provider and are fetched at a bounded rate; the login state is
    authenticated; only verified callers with a granted capability pass. *)

From Stdlib Require Import String Ascii.
From S2P Require Import Prelude GoStd AppErrors Float64 Sha256 RateLimit Tenancy Identity.
From S2P Require Pagination Webhooks.

Local Open Scope Z_scope.

(** ** Roles *)

Lemma in_order_elem order set x : x ∈ in_order order set <-> x ∈ order /\ x ∈ set.
Proof.
  unfold in_order. rewrite !list_elem_of_In, filter_In, bool_decide_eq_true. done.
Qed.

Lemma in_order_ext order (X Y : gset string) :
  (forall x, x ∈ order -> x ∈ X <-> x ∈ Y) -> in_order order X = in_order order Y.
Proof.
  intros Hxy. unfold in_order. apply filter_ext_in. intros x Hx%list_elem_of_In.
  apply bool_decide_ext, Hxy, Hx.
Qed.

Lemma roleCapabilities_order role caps c : roleCapabilities role = Some caps -> c ∈ caps -> c ∈ capabilityOrder.
Proof.
  unfold roleCapabilities, capabilityOrder. intros E Hc.
  repeat (destruct (String.eqb role _); [simplify_eq; set_solver|]). done.
Qed.

Lemma roleCapabilities_known role : is_Some (roleCapabilities role) <-> role ∈ allRoles.
Proof.
  unfold roleCapabilities, allRoles.
  destruct (String.eqb_spec role RoleViewer) as [->|]; [split; [set_solver|by eauto]|].
  destruct (String.eqb_spec role RoleAgent) as [->|]; [split; [set_solver|by eauto]|].
  destruct (String.eqb_spec role RoleSupervisor) as [->|]; [split; [set_solver|by eauto]|].
  destruct (String.eqb_spec role RoleAdmin) as [->|]; [split; [set_solver|by eauto]|].
  split; [by intros []|set_solver].
Qed.

Lemma roleCapabilities_nonempty role caps : roleCapabilities role = Some caps -> exists c, c ∈ caps.
Proof.
  unfold roleCapabilities. intros E.
  repeat (destruct (String.eqb role _); [simplify_eq; eexists; by left|]). done.
Qed.

(** What the roles of a list grant. *)
Definition grants (roles : list string) (c : string) : Prop :=
  exists role caps, role ∈ roles /\ roleCapabilities role = Some caps /\ c ∈ caps.

Lemma staticBinding_roles roles r :
  r ∈ (list_to_set (List.filter (fun raw => (ParseRole raw).2) roles) : gset string)
  <-> r ∈ roles /\ is_Some (roleCapabilities r).
Proof.
  rewrite elem_of_list_to_set, !list_elem_of_In, filter_In. unfold ParseRole. simpl.
  destruct (roleCapabilities r); split; intros [? Hr]; by split.
Qed.

Lemma granted_caps_elem (X : gset string) c :
  c ∈ granted_caps X <-> exists role caps, role ∈ X /\ roleCapabilities role = Some caps /\ c ∈ caps.
Proof.
  unfold granted_caps. rewrite elem_of_list_to_set, list_elem_of_join. split.
  - intros (l & Hc & Hl). apply list_elem_of_fmap in Hl as (role & -> & Hr). apply elem_of_elements in Hr.
    destruct (roleCapabilities role) as [caps|] eqn:E; [by eauto|set_solver].
  - intros (role & caps & Hr & E & Hc). exists caps. split; [done|]. apply list_elem_of_fmap.
    exists role. rewrite E. split; [done|]. by apply elem_of_elements.
Qed.

Lemma staticBinding_caps roles c : c ∈ Capabilities (staticBinding roles) <-> grants roles c.
Proof.
  unfold staticBinding, capabilitiesForRoles, grants. cbn [Capabilities]. rewrite in_order_elem, granted_caps_elem. split.
  - intros (_ & role & caps & Hr & E & Hc). apply staticBinding_roles in Hr as [Hr _]. eauto.
  - intros (role & caps & Hr & E & Hc). split; [by eapply roleCapabilities_order|].
    exists role, caps. rewrite staticBinding_roles. eauto.
Qed.

(** The catalog rows the migration seeds. *)
Definition seeded (db : AuthDB) : Prop := forall role c,
  (role, c) ∈ capability_catalog db <-> exists caps, roleCapabilities role = Some caps /\ c ∈ caps.

(** The roles bound to a subject of a tenant, and not revoked. *)
Definition active_roles (tenantID subject : string) (db : AuthDB) : list string :=
  map rb_Role (List.filter (fun rb => String.eqb (rb_TenantID rb) tenantID
     && String.eqb (rb_Principal rb) subject && String.eqb (rb_Status rb) "active") (role_bindings db)).

Lemma sel_bindings_elem t s db role c :
  (role, c) ∈ sel_bindings t s db <-> role ∈ active_roles t s db /\ (role, c) ∈ capability_catalog db.
Proof.
  unfold sel_bindings, active_roles. rewrite list_elem_of_join. split.
  - intros (l & Hc & Hl). apply list_elem_of_fmap in Hl as (rb & -> & Hrb).
    destruct (_ && _) eqn:Eb; [|set_solver].
    rewrite list_elem_of_In, filter_In, String.eqb_eq in Hc. destruct Hc as [Hc Er]. simpl in Er. subst role.
    split; [|by apply list_elem_of_In]. apply list_elem_of_fmap. exists rb. split; [done|].
    apply list_elem_of_In, filter_In. split; [by apply list_elem_of_In|done].
  - intros [Hr Hc]. apply list_elem_of_fmap in Hr as (rb & -> & Hrb).
    apply list_elem_of_In, filter_In in Hrb as [Hrb Eb]. apply list_elem_of_In in Hrb.
    eexists. split; [|apply list_elem_of_fmap; by exists rb]. rewrite Eb.
    apply list_elem_of_In, filter_In. split; [by apply list_elem_of_In|]. simpl. apply String.eqb_refl.
Qed.

(** On a seeded catalog the storage-backed binding is the catalog of the code
    applied to the active roles, and a capability is in it exactly when an
    active role grants it. *)
Lemma db_binding_static t s db :
  seeded db ->
  binding_of (sel_bindings t s db) = staticBinding (active_roles t s db)
  /\ forall c, c ∈ Capabilities (binding_of (sel_bindings t s db)) <-> grants (active_roles t s db) c.
Proof.
  intros Hs. enough (binding_of (sel_bindings t s db) = staticBinding (active_roles t s db)) as ->.
  { split; [done|]. intros c. apply staticBinding_caps. }
  unfold binding_of, staticBinding. f_equal.
  - apply in_order_ext. intros r _. rewrite staticBinding_roles, elem_of_list_to_set, list_elem_of_fmap. split.
    + intros ([role c] & -> & Hr). apply sel_bindings_elem in Hr as [? Hc]. apply Hs in Hc as (caps & E & _).
      simpl. eauto.
    + intros [Hr [caps E]]. destruct (roleCapabilities_nonempty _ _ E) as [c Hc].
      exists (r, c). split; [done|]. apply sel_bindings_elem. split; [done|]. apply Hs. eauto.
  - apply in_order_ext. intros c _. rewrite granted_caps_elem, elem_of_list_to_set, list_elem_of_fmap. split.
    + intros ([role c'] & -> & Hr). apply sel_bindings_elem in Hr as [Hr Hc]. apply Hs in Hc as (caps & E & Hc).
      exists role, caps. rewrite staticBinding_roles. simpl. eauto.
    + intros (role & caps & Hr & E & Hc). apply staticBinding_roles in Hr as [Hr _].
      exists (role, c). split; [done|]. apply sel_bindings_elem. split; [done|]. apply Hs. eauto.
Qed.

(** ** The binding cache *)

(** A finished read of a subject's bindings, as the second section of
    [Resolve] stores it; calls may overlap, so these come in any order. *)
Record stored := MkStored {
  st_tenant : string;
  st_subject : string;
  st_db : AuthDB;
  st_clock : clock3;
}.

Definition store (ev : stored) (r : dbRoleResolver) : dbRoleResolver :=
  remember (cache_key (st_tenant ev) (st_subject ev))
    (binding_of (sel_bindings (st_tenant ev) (st_subject ev) (st_db ev))) (st_clock ev) r.

Definition resolver_after (ttl maxEntries : Z) (events : list stored) : dbRoleResolver :=
  foldr store (NewDBRoleResolver ttl maxEntries) events.

Lemma cache_key_inj t s t' s' :
  has_byte t "|" = false -> has_byte t' "|" = false ->
  cache_key t s = cache_key t' s' -> t = t' /\ s = s'.
Proof.
  unfold cache_key. intros Ht Ht' E. pose proof (cut_app t "|" s Ht) as E1.
  change (t ++ String "|" s)%string with (t +:+ "|" +:+ s) in E1. rewrite E in E1.
  pose proof (cut_app t' "|" s' Ht') as E2.
  change (t' ++ String "|" s')%string with (t' +:+ "|" +:+ s') in E2. rewrite E2 in E1. by simplify_eq.
Qed.

Lemma remember_spec key b c r :
  0 < maxEntries r -> Z.of_nat (size (cache r)) <= maxEntries r ->
  let r' := remember key b c r in
  ttl r' = ttl r /\ maxEntries r' = maxEntries r /\ Z.of_nat (size (cache r')) <= maxEntries r'
  /\ forall k e, cache r' !! k = Some e -> (k = key /\ e = (b, at_store c)) \/ cache r !! k = Some e.
Proof.
  intros Hm Hs. unfold remember.
  set (r1 := if maxEntries r <=? Z.of_nat (size (cache r)) then evictLocked (at_evict c) r else r).
  assert (ttl r1 = ttl r /\ maxEntries r1 = maxEntries r /\ Z.of_nat (size (cache r1)) < maxEntries r
          /\ cache r1 ⊆ cache r) as (-> & -> & Hs1 & Hsub).
  { unfold r1. destruct (Z.leb_spec (maxEntries r) (Z.of_nat (size (cache r)))) as [Hle|Hlt]; [|done].
    unfold evictLocked. simpl. split; [done|]. split; [done|].
    match goal with |- context [if maxEntries r <=? Z.of_nat (size ?m) then _ else _] => set (kept := m) end.
    destruct (Z.leb_spec (maxEntries r) (Z.of_nat (size kept))).
    - rewrite map_size_empty. split; [lia|apply map_empty_subseteq].
    - split; [lia|apply map_filter_subseteq]. }
  simpl. split; [done|]. split; [done|]. split.
  - rewrite map_size_insert. destruct (cache r1 !! key); simpl; lia.
  - intros k e [[<- <-]|[_ Hl]]%lookup_insert_Some; [by left|right]. by eapply lookup_weaken.
Qed.

Lemma resolver_after_spec ttl0 max0 events :
  let r := resolver_after ttl0 max0 events in
  ttl r = ttl (NewDBRoleResolver ttl0 max0)
  /\ 0 < maxEntries r /\ Z.of_nat (size (cache r)) <= maxEntries r
  /\ forall k b at0, cache r !! k = Some (b, at0) ->
       exists ev, ev ∈ events /\ cache_key (st_tenant ev) (st_subject ev) = k
         /\ b = binding_of (sel_bindings (st_tenant ev) (st_subject ev) (st_db ev))
         /\ at0 = at_store (st_clock ev).
Proof.
  induction events as [|ev events IH]; [simpl|].
  - split; [done|]. split; [destruct (Z.leb_spec max0 0); simpl; lia|]. split; [|done].
    rewrite map_size_empty. destruct (Z.leb_spec max0 0); simpl; lia.
  - destruct IH as (Ht & Hm & Hs & Hc).
    destruct (remember_spec (cache_key (st_tenant ev) (st_subject ev))
      (binding_of (sel_bindings (st_tenant ev) (st_subject ev) (st_db ev))) (st_clock ev) _ Hm Hs)
      as (Ht' & Hm' & Hs' & Hc').
    change (resolver_after ttl0 max0 (ev :: events)) with (store ev (resolver_after ttl0 max0 events)).
    cbv zeta. unfold store. rewrite Ht', Hm'. split; [done|]. split; [done|]. split; [by rewrite Hm' in Hs'|].
    intros k b at0 [[-> [= -> ->]]|Hl]%Hc'.
    + exists ev. split; [by left|done].
    + destruct (Hc _ _ _ Hl) as (ev' & ? & ?). exists ev'. split; [by right|done].
Qed.

(** A cached answer for a subject is the binding some read of that subject
    found, stored at most [ttl] ago. *)
Lemma cached_sound ttl0 max0 events t s now b :
  has_byte t "|" = false -> Forall (fun ev => has_byte (st_tenant ev) "|" = false) events ->
  cached (cache_key t s) now (resolver_after ttl0 max0 events) = Some b ->
  exists ev, ev ∈ events /\ st_tenant ev = t /\ st_subject ev = s
    /\ b = binding_of (sel_bindings t s (st_db ev))
    /\ time_Sub now (at_store (st_clock ev)) <= ttl (NewDBRoleResolver ttl0 max0).
Proof.
  intros Ht He. unfold cached. destruct (resolver_after_spec ttl0 max0 events) as (Httl & _ & _ & Hc).
  destruct (cache _ !! _) as [[b' at0]|] eqn:El; [|done].
  destruct (Z.leb_spec (time_Sub now at0) (ttl (resolver_after ttl0 max0 events))) as [Hle|]; [|done].
  intros [= ->]. destruct (Hc _ _ _ El) as (ev & Hev & Hk & -> & ->). rewrite Forall_forall in He.
  apply cache_key_inj in Hk as [Et Es]; [|by apply He|done]. exists ev. rewrite <- Et, <- Es, <- Httl. done.
Qed.

(** ** Signing keys *)

(** A call of [publicKey]: when, whether the provider was asked, its answer. *)
Definition key_call : Type := Z * bool * (list jwk + error).

Inductive jwks_run (ttl minRefresh : Z) : jwksCache -> list key_call -> Prop :=
| jwks_run_new : jwks_run ttl minRefresh (newJWKSCache ttl minRefresh) []
| jwks_run_call c log kid now answer res c' asked :
    jwks_run ttl minRefresh c log ->
    publicKey kid now answer c = (res, c', asked) ->
    jwks_run ttl minRefresh c' ((now, asked, answer) :: log).

(** The last answer that replaced the keys, and the last time of asking; the
    log is newest first. *)
Fixpoint last_document (log : list key_call) : option (Z * list jwk) :=
  match log with
  | [] => None
  | (now, true, inl doc) :: log =>
      if bool_decide (usable_keys doc = ∅) then last_document log else Some (now, doc)
  | _ :: log => last_document log
  end.

Fixpoint last_asked (log : list key_call) : Z :=
  match log with
  | [] => zero_time
  | (now, true, _) :: _ => now
  | _ :: log => last_asked log
  end.

Definition asks (log : list key_call) : list Z :=
  map (fun e : key_call => e.1.1) (List.filter (fun e : key_call => e.1.2) log).

(** The cache mirrors the log. *)
Definition mirrors (ttl minRefresh : Z) (c : jwksCache) (log : list key_call) : Prop :=
  jwks_ttl c = jwks_ttl (newJWKSCache ttl minRefresh)
  /\ Identity.minRefresh c = Identity.minRefresh (newJWKSCache ttl minRefresh)
  /\ lastFetch c = last_asked log
  /\ match last_document log with
     | Some (t, doc) => fetchedAt c = t /\ keys c = usable_keys doc
     | None => keys c = ∅
     end.

Lemma time_Sub_refl t : time_Sub t t = 0.
Proof. unfold time_Sub, int64_min, int64_max. lia. Qed.

Lemma time_Sub_antitone t u u' : u' <= u -> time_Sub t u <= time_Sub t u'.
Proof. unfold time_Sub. lia. Qed.

Lemma publicKey_mirrors ttl0 mr0 c log kid now answer res c' asked :
  mirrors ttl0 mr0 c log -> publicKey kid now answer c = (res, c', asked) ->
  mirrors ttl0 mr0 c' ((now, asked, answer) :: log)
  /\ (asked = true -> Identity.minRefresh c <= time_Sub now (lastFetch c))
  /\ (forall k, res = inl k -> keys c' !! kid = Some k
        /\ (time_Sub now (fetchedAt c') <= jwks_ttl c
            \/ time_Sub now (lastFetch c) < Identity.minRefresh c)).
Proof.
  intros (Ht & Hm & Hl & Hd) E. unfold publicKey in E.
  assert (0 < jwks_ttl c) as Hpos.
  { rewrite Ht. simpl. destruct (Z.leb_spec ttl0 0); [done|lia]. }
  destruct (match keys c !! kid with Some k => _ | None => None end) as [k|] eqn:Eh.
  { simplify_eq. split; [by repeat split|]. split; [done|].
    intros k0 [= ->]. destruct (keys c' !! kid) as [k1|] eqn:Ek; [|done].
    destruct (Z.leb_spec (time_Sub now (fetchedAt c')) (jwks_ttl c')); simplify_eq. auto. }
  clear Eh. destruct (Z.leb_spec (Identity.minRefresh c) (time_Sub now (lastFetch c))) as [Hle|Hlt].
  - unfold refreshLocked in E. destruct answer as [doc|x]; [|simplify_eq; split; [by repeat split|by split]].
    destruct (bool_decide (usable_keys doc = ∅)) eqn:Eu; simplify_eq.
    + split; [|by split]. unfold mirrors. simpl. by rewrite Eu.
    + split; [unfold mirrors; simpl; by rewrite Eu|]. split; [done|].
      unfold known_key. simpl. intros k Hk. destruct (_ !! kid) eqn:Ek; simplify_eq.
      split; [done|]. left. rewrite time_Sub_refl. lia.
  - simplify_eq. split; [by repeat split|]. split; [done|]. unfold known_key. intros k Hk.
    destruct (keys c' !! kid) eqn:Ek; simplify_eq. auto.
Qed.

Lemma jwks_run_mirrors ttl0 mr0 c log : jwks_run ttl0 mr0 c log -> mirrors ttl0 mr0 c log.
Proof.
  induction 1 as [|c log kid now answer res c' asked _ IH E]; [by repeat split|].
  by eapply publicKey_mirrors.
Qed.

Lemma last_asked_le log t :
  Sorted Z.ge (t :: map (fun e : key_call => e.1.1) log) -> Forall (fun u => u <= t) (asks log).
Proof.
  intros Hs%Sorted_StronglySorted; [|intros ?; lia]. inv Hs. unfold asks.
  apply Forall_forall. intros u (e & -> & He)%list_elem_of_fmap.
  apply list_elem_of_In, filter_In in He as [He _]. rewrite Forall_forall in *.
  enough (t >= e.1.1) by lia. apply H2, list_elem_of_fmap. exists e. split; [done|by apply list_elem_of_In].
Qed.

Lemma asks_apart ttl0 mr0 c log :
  jwks_run ttl0 mr0 c log -> Sorted Z.ge (map (fun e : key_call => e.1.1) log) ->
  StronglySorted (fun later earlier => minRefresh c <= time_Sub later earlier) (asks log)
  /\ Forall (fun u => u <= last_asked log) (asks log).
Proof.
  induction 1 as [|c log kid now answer res c' asked Hrun IH E]; [by split; constructor|].
  intros Hs. pose proof (last_asked_le _ _ Hs) as Hle. apply Sorted_inv in Hs as [Hs _].
  destruct (IH Hs) as [Hap Hla]. pose proof (jwks_run_mirrors _ _ _ _ Hrun) as Hm.
  destruct (publicKey_mirrors _ _ _ _ _ _ _ _ _ _ Hm E) as ((_ & Hmr' & _) & Hask & _).
  destruct Hm as (_ & Hmr & Hlast & _). rewrite Hmr', <- Hmr.
  unfold asks. simpl. destruct asked; simpl; [|by split].
  split; [|constructor; [lia|by eapply Forall_impl; [exact Hle|]]].
  constructor; [done|]. eapply Forall_impl; [exact Hla|]. intros u Hu. simpl in Hu.
  specialize (Hask eq_refl). rewrite Hlast in Hask.
  pose proof (time_Sub_antitone now _ _ Hu). lia.
Qed.

(** Where signing keys come from. Over any sequence of lookups, a key that
    is served for a kid is in the last usable document the provider sent, and
    that document is no older than the cache's lifetime, unless the provider
    was asked less than [minRefresh] ago. With a clock that does not run
    backwards, two requests to the provider are at least [minRefresh] apart,
    whatever kids the callers present. *)
Lemma jwks_keys_sound ttl0 mr0 c log kid now answer res c' asked
    (Hrun : jwks_run ttl0 mr0 c log) (Hcall : publicKey kid now answer c = (res, c', asked)) :
  (forall k, res = inl k ->
     exists t doc, last_document ((now, asked, answer) :: log) = Some (t, doc)
       /\ usable_keys doc !! kid = Some k
       /\ (time_Sub now t <= jwks_ttl c \/ time_Sub now (last_asked log) < minRefresh c))
  /\ (Sorted Z.ge (map (fun e : key_call => e.1.1) ((now, asked, answer) :: log)) ->
      StronglySorted (fun later earlier => minRefresh c <= time_Sub later earlier)
        (asks ((now, asked, answer) :: log))).
Proof.
  pose proof (jwks_run_mirrors _ _ _ _ Hrun) as Hm.
  destruct (publicKey_mirrors _ _ _ _ _ _ _ _ _ _ Hm Hcall) as ((_ & Hmr' & _ & Hd) & _ & Hk).
  destruct Hm as (_ & Hmr & Hlast & _). split.
  - intros k Hres. destruct (Hk k Hres) as [Hin Hage].
    destruct (last_document _) as [[t doc]|] eqn:Ed; [|rewrite Hd in Hin; by apply lookup_empty_Some in Hin].
    destruct Hd as [<- Hkeys]. exists (fetchedAt c'), doc. rewrite <- Hkeys, <- Hlast. eauto.
  - intros Hs. rewrite Hmr, <- Hmr'. eapply asks_apart; [|done]. by eapply jwks_run_call.
Qed.

(** A provider document with one RSA key, exponent 65537. *)
Definition demo_doc : list jwk := [MkJwk "k1" "RSA" "RS256" "sig" "wQ" "AQAB"].
Definition demo_key : rsaPublicKey := MkRsaKey "k1" 193 65537.

Lemma jwks_keys_sound_witness :
  let c0 := newJWKSCache (10 * Minute) (2 * Second) in
  let '(res, c1, asked) := publicKey "k1" 0 (inl demo_doc) c0 in
  res = inl demo_key /\ asked = true
  /\ exists t doc, last_document [(0, asked, inl demo_doc)] = Some (t, doc)
       /\ usable_keys doc !! "k1" = Some demo_key
       /\ (time_Sub 0 t <= jwks_ttl c0 \/ time_Sub 0 (last_asked []) < minRefresh c0).
Proof.
  split; [vm_compute; reflexivity|]. split; [vm_compute; reflexivity|].
  apply (jwks_keys_sound (10 * Minute) (2 * Second) _ [] "k1" 0 (inl demo_doc)
           (publicKey "k1" 0 (inl demo_doc) (newJWKSCache (10 * Minute) (2 * Second))).1.1
           (publicKey "k1" 0 (inl demo_doc) (newJWKSCache (10 * Minute) (2 * Second))).1.2
           (publicKey "k1" 0 (inl demo_doc) (newJWKSCache (10 * Minute) (2 * Second))).2
           (jwks_run_new _ _)).
  - vm_compute. reflexivity.
  - vm_compute. reflexivity.
Defined.

(** A key outlives the cache's lifetime while the provider fails: the lookup
    that asks is refused, but those of the next [minRefresh] are served the
    expired key, whatever its age. *)
Lemma expired_key_served :
  let down : list jwk + error := inr (OtherErr "jwks: fetch failed" None) in
  let c0 := newJWKSCache (10 * Minute) (2 * Second) in
  let '(_, c1, _) := publicKey "k1" 0 (inl demo_doc) c0 in
  let '(r2, c2, asked2) := publicKey "k1" (100 * Minute) down c1 in
  let '(r3, _, asked3) := publicKey "k1" (100 * Minute + Second) down c2 in
  (exists x, r2 = inr x) /\ asked2 = true /\ r3 = inl demo_key /\ asked3 = false.
Proof. vm_compute. split; [by eexists|done]. Qed.

(** ** The login state *)

Lemma cut_last_app h t c :
  has_byte t c = false -> cut_last (h +:+ String c t) c = Some (h, t).
Proof.
  intros Ht. assert (cut_last t c = None) as Hn.
  { induction t as [|a t IH]; [done|]. cbn [has_byte] in Ht. apply orb_false_iff in Ht as [Ha Ht].
    cbn [cut_last]. by rewrite (IH Ht), Ha. }
  induction h as [|a h IH].
  - change ("" +:+ String c t) with (String c t). cbn [cut_last]. by rewrite Hn, Ascii.eqb_refl.
  - change (String a h +:+ String c t) with (String a (h +:+ String c t)). cbn [cut_last]. by rewrite IH.
Qed.

Lemma cut_last_inv s c h t : cut_last s c = Some (h, t) -> s = h +:+ String c t /\ has_byte t c = false.
Proof.
  revert h t. induction s as [|a s IH]; intros h t; cbn [cut_last]; [done|].
  destruct (cut_last s c) as [[h' t']|] eqn:E.
  - intros [= <- <-]. destruct (IH _ _ eq_refl) as [-> ?]. done.
  - destruct (Ascii.eqb_spec a c) as [->|]; [|done]. intros [= <- <-]. split; [done|].
    clear IH. induction s as [|b s IH]; [done|]. cbn [cut_last] in E. cbn [has_byte].
    destruct (cut_last s c) as [[]|] eqn:E'; [done|]. destruct (Ascii.eqb b c); [done|]. by apply IH.
Qed.

Lemma enc_text_no_dot s : has_byte (Pagination.EncodeToString s) "." = false.
Proof.
  apply sforallb_not_has_byte. unfold Pagination.EncodeToString.
  pose proof (Pagination.b64_encode_sextets _ (Pagination.bytes_of_range s)) as Hs.
  induction Hs as [|v l Hv _ IH]; [done|]. cbn [map string_of_list_ascii sforallb]. rewrite IH, andb_true_r.
  apply (Pagination.sextet_case (fun v => negb (Ascii.eqb (Pagination.enc_char v) "."))); [|done].
  vm_compute. reflexivity.
Qed.

Lemma str_bytes_of_bytes l : Forall Pagination.is_byte l -> str_bytes (Pagination.of_bytes l) = l.
Proof.
  unfold str_bytes, Pagination.of_bytes. intros Hl. rewrite list_ascii_of_string_of_list_ascii, map_map.
  induction Hl as [|z l Hz _ IH]; [done|]. simpl. rewrite IH. f_equal. unfold code.
  unfold Pagination.is_byte in Hz. rewrite N_ascii_embedding by lia. lia.
Qed.

Lemma verify_signed c payload now :
  payload <> "" ->
  verifyState c (Pagination.EncodeToString payload +:+ "."
                 +:+ Pagination.EncodeToString (Pagination.of_bytes (state_mac c payload))) now
  = match cut_parts payload "|"%char with
    | None => inr errStateInvalid
    | Some (nonce, expiry) =>
        match atoi expiry with
        | None => inr errStateInvalid
        | Some exp =>
            if exp <? Unix now then inr errStateInvalid
            else if Z.of_nat (String.length nonce) <? stateNonceBytes then inr errStateInvalid
            else inl nonce
        end
    end.
Proof.
  intros Hne. unfold verifyState. set (sig := Pagination.of_bytes _).
  assert (sig <> "") as Hsig.
  { unfold sig, state_mac, Webhooks.hmac_sha256. intros E. apply (f_equal String.length) in E. revert E.
    unfold Pagination.of_bytes. generalize (map (Z.lxor 92) (Webhooks.hmac_key (stateKey c))). intros l.
    remember (Sum256 _) as m eqn:Em. assert (length m = 32%nat) as Hm by (subst; apply length_Sum256).
    clear Em. by destruct m. }
  unfold cut_parts at 1. change ("." +:+ Pagination.EncodeToString sig) with (String "." (Pagination.EncodeToString sig)).
  rewrite cut_last_app by apply enc_text_no_dot.
  rewrite !(proj2 (is_empty_false _)) by (by apply Pagination.EncodeToString_nonempty). cbn [orb].
  rewrite !Pagination.DecodeString_EncodeToString.
  assert (str_bytes sig = state_mac c payload) as -> by apply str_bytes_of_bytes, Webhooks.Sum256_bytes.
  by rewrite bool_decide_eq_true_2.
Qed.

(** The login state. A state minted for a nonce of at least 32 bytes is
    accepted, and gives the nonce back, until the second it expires at, and
    never after. Whatever text a caller presents, it is accepted only if it
    carries a payload with its HMAC under the key derived from the client
    secret, and only until the expiry in that payload. *)
Lemma login_state_sound c nonce exp now state nonce'
    (Hexp : 0 <= Unix exp <= int64_max) (Hlen : stateNonceBytes <= Z.of_nat (String.length nonce)) :
  verifyState c (signState c nonce exp) now = (if Unix exp <? Unix now then inr errStateInvalid else inl nonce)
  /\ (verifyState c state now = inl nonce' ->
      exists h t expiry e sig, state = h +:+ "." +:+ t
        /\ Pagination.DecodeString h = Some (nonce' +:+ "|" +:+ expiry) /\ atoi expiry = Some e
        /\ Pagination.DecodeString t = Some sig /\ str_bytes sig = state_mac c (nonce' +:+ "|" +:+ expiry)
        /\ Unix now <= e /\ stateNonceBytes <= Z.of_nat (String.length nonce')).
Proof.
  assert (forall x y, x +:+ "|" +:+ y = x +:+ String "|" y) as Ebar by done.
  split.
  - unfold signState. rewrite verify_signed by (destruct nonce; [vm_compute in Hlen; by destruct Hlen|done]).
    unfold cut_parts. rewrite Ebar, cut_last_app by (apply itoa_no_byte; [lia|vm_compute; by right]).
    rewrite (proj2 (is_empty_false nonce)) by (intros ->; vm_compute in Hlen; by destruct Hlen).
    rewrite (proj2 (is_empty_false _)) by (intros E; pose proof (itoa_atoi _ Hexp) as Ea; by rewrite E in Ea).
    cbn [orb]. rewrite itoa_atoi by done. destruct (Unix exp <? Unix now); [done|].
    by rewrite (proj2 (Z.ltb_ge _ _)) by done.
  - unfold verifyState, cut_parts. intros E.
    destruct (cut_last state ".") as [[h t]|] eqn:Ec; [|done].
    destruct (is_empty h || is_empty t); [done|].
    destruct (Pagination.DecodeString h) as [payload|] eqn:Eh; [|done].
    destruct (Pagination.DecodeString t) as [sig|] eqn:Et; [|done].
    destruct (bool_decide (str_bytes sig = state_mac c payload)) eqn:Em; [|done].
    apply bool_decide_eq_true in Em. cbn [negb] in E.
    destruct (cut_last payload "|") as [[n x]|] eqn:Ep; [|done].
    destruct (is_empty n || is_empty x); [done|].
    destruct (atoi x) as [e|] eqn:Ex; [|done].
    destruct (Z.ltb_spec e (Unix now)); [done|].
    destruct (Z.ltb_spec (Z.of_nat (String.length n)) stateNonceBytes); [done|]. injection E as ->.
    apply cut_last_inv in Ec as [-> _]. apply cut_last_inv in Ep as [-> _].
    exists h, t, x, e, sig. by rewrite Ebar.
Qed.

Definition demo_cfg : Config := MkConfig "https://idp.example" "client" "secret" "" 0 0 0.

Lemma login_state_sound_witness :
  let nonce := "0123456789abcdef0123456789abcdef" in
  verifyState demo_cfg (signState demo_cfg nonce (600 * Second)) (599 * Second) = inl nonce
  /\ verifyState demo_cfg (signState demo_cfg nonce (600 * Second)) (601 * Second) = inr errStateInvalid.
Proof.
  split.
  - apply (login_state_sound demo_cfg "0123456789abcdef0123456789abcdef" (600 * Second) (599 * Second) "" "");
      [vm_compute; split; discriminate|vm_compute; discriminate].
  - apply (login_state_sound demo_cfg "0123456789abcdef0123456789abcdef" (600 * Second) (601 * Second) "" "");
      [vm_compute; split; discriminate|vm_compute; discriminate].
Defined.

(** ** The authentication chain *)

Section Chain.
Context `{JOSE}.

Lemma ensure_keeps answer s :
  let s' := (ensure answer s).2 in cfg s' = cfg s /\ resolver s' = resolver s.
Proof. unfold ensure. cbv zeta. split_match; done. Qed.

(** An accepted token was decoded, its key came from the key cache, and the
    library verified it. *)
Lemma Verify_accepts raw o s res s' :
  Verify raw o s = (res, s') ->
  resolver s' = resolver s
  /\ forall claims, res = inl claims ->
       exists kid key, parseHeader raw = Some ("RS256", kid) /\ kid <> ""
         /\ (publicKey kid (now_verify o) (jwks_answer o) (jwks (ensure (discovery_answer o) s).2)).1.1 = inl key
         /\ jwt_verify (cfg s) raw key (now_verify o) = inl claims
         /\ trim_space (Subject claims) <> "".
Proof.
  unfold Verify. pose proof (ensure_keeps (discovery_answer o) s) as [Hc Hr].
  destruct (ensure (discovery_answer o) s) as [[x|] s1]; simpl in *; [intros [= <- <-]; by split|].
  destruct (parseHeader raw) as [[alg kid]|]; [|intros [= <- <-]; by split].
  destruct (String.eqb_spec alg "RS256") as [->|]; simpl; [|intros [= <- <-]; by split].
  destruct (is_empty kid) eqn:Ek; [intros [= <- <-]; by split|]. apply is_empty_false in Ek.
  destruct (jwt_decode raw); [intros [= <- <-]; by split|].
  destruct (publicKey kid (now_verify o) (jwks_answer o) (jwks s1)) as [[[key|x] c] b] eqn:Ep; simpl;
    [|intros [= <- <-]; by split].
  rewrite Hc. destruct (jwt_verify (cfg s) raw key (now_verify o)) as [claims|] eqn:Ev;
    [|intros [= <- <-]; by split].
  destruct (is_empty (trim_space (Subject claims))) eqn:Es; intros [= <- <-]; (split; [done|]); [done|].
  apply is_empty_false in Es. intros ? [= <-]. exists kid, key. by rewrite Ep.
Qed.

Lemma binding_of_caps t s db c :
  c ∈ Capabilities (binding_of (sel_bindings t s db)) ->
  exists role, role ∈ active_roles t s db /\ (role, c) ∈ capability_catalog db.
Proof.
  unfold binding_of, capabilitiesFromSet. cbn [Capabilities]. rewrite in_order_elem, elem_of_list_to_set.
  intros [_ Hc]. apply list_elem_of_fmap in Hc as ([role c'] & -> & Hr). apply sel_bindings_elem in Hr. eauto.
Qed.

Lemma binding_of_star t s db : "*" ∉ Capabilities (binding_of (sel_bindings t s db)).
Proof.
  unfold binding_of, capabilitiesFromSet. cbn [Capabilities]. rewrite in_order_elem. intros [Hs _].
  revert Hs. unfold capabilityOrder. set_solver.
Qed.

(** The binding an authenticated caller gets from storage. *)
Lemma capabilitiesFor_stored claims o s res s' ttl0 max0 events :
  resolver s = Some (resolver_after ttl0 max0 events) ->
  capabilitiesFor claims o s = (res, s') ->
  (exists events', resolver s' = Some (resolver_after ttl0 max0 events'))
  /\ forall b, res = inl b -> has_byte (TenantClaim claims) "|" = false ->
       Forall (fun ev => has_byte (st_tenant ev) "|" = false) events ->
       b = noBinding
       \/ exists db, b = binding_of (sel_bindings (TenantClaim claims) (Subject claims) db)
            /\ (db = auth_db o \/ exists ev, ev ∈ events /\ st_db ev = db
                  /\ st_tenant ev = TenantClaim claims /\ st_subject ev = Subject claims
                  /\ time_Sub (at_lookup (now_bindings o)) (at_store (st_clock ev))
                     <= ttl (NewDBRoleResolver ttl0 max0)).
Proof.
  intros Hr. unfold capabilitiesFor. rewrite Hr. destruct (uuid_parses _); cbn [negb]; [|intros [= <- <-]].
  2:{ split; [by eauto|]. intros b [= <-]. by left. }
  unfold Resolve. destruct (cached _ _ _) as [b|] eqn:Ec.
  - intros [= <- <-]. split; [by eauto|]. intros b0 [= <-] Ht He. right.
    destruct (cached_sound _ _ _ _ _ _ _ Ht He Ec) as (ev & Hev & Et & Es & -> & Hage).
    exists (st_db ev). split; [done|]. right. by exists ev.
  - destruct (auth_db_error o); intros [= <- <-]; [split; [by eauto|done]|]. split.
    + exists (MkStored (TenantClaim claims) (Subject claims) (auth_db o) (now_bindings o) :: events). done.
    + intros b [= <-] _ _. right. exists (auth_db o). by split; [|left].
Qed.
End Chain.

(** C39. Who passes a capability gate. In the storage posture, with a resolver
    any calls may have used before: a bearer credential of token shape is
    decided by the identity plane alone, whatever the API-key chain would say.
    The caller reaches a handler behind the gate of a capability only if the
    JOSE library verified its token under a key of the provider's key cache,
    and a role bound to the token's subject in the token's tenant, and active
    in the tables this call read or in those an earlier call read before it
    stored its answer, at most the cache's lifetime ago, has the capability in
    the catalog: the age runs from the store, which comes after the read. *)
Theorem oidc_capability_sound `{JOSE} iteration api o r sv rl resp sv' rl' cap ttl0 max0 events
    (Hres : resolver sv = Some (resolver_after ttl0 max0 events))
    (Htenants : Forall (fun ev => has_byte (st_tenant ev) "|" = false) events)
    (Hjwt : looksLikeJWT (bearerToken r) = true)
    (Hrun : DualAuth iteration api o r sv rl = (resp, sv', rl')) :
  (forall api', DualAuth iteration api' o r sv rl = (resp, sv', rl'))
  /\ (exists events', resolver sv' = Some (resolver_after ttl0 max0 events'))
  /\ forall ctx, resp = Served ctx -> RequireCapability cap ctx = Served ctx ->
       exists claims kid key,
         (publicKey kid (now_verify o) (jwks_answer o) (jwks (ensure (discovery_answer o) sv).2)).1.1 = inl key
         /\ jwt_verify (cfg sv) (bearerToken r) key (now_verify o) = inl claims
         /\ ctx_Identity ctx = Some (MkIdentityRef AuthMethodOIDC (Subject claims) (TenantClaim claims))
         /\ (has_byte (TenantClaim claims) "|" = false ->
             exists db role, role ∈ active_roles (TenantClaim claims) (Subject claims) db
               /\ (role, cap) ∈ capability_catalog db
               /\ (db = auth_db o \/ exists ev, ev ∈ events /\ st_db ev = db
                     /\ st_tenant ev = TenantClaim claims /\ st_subject ev = Subject claims
                     /\ time_Sub (at_lookup (now_bindings o)) (at_store (st_clock ev))
                        <= ttl (NewDBRoleResolver ttl0 max0))).
Proof.
  assert (is_empty (bearerToken r) = false) as Hne by (by destruct (bearerToken r)).
  unfold DualAuth in *. rewrite Hne, Hjwt in *. cbn [negb orb] in *. split; [done|].
  destruct (Verify (bearerToken r) o sv) as [res1 s1] eqn:Ev. apply Verify_accepts in Ev as [Hr1 Hacc].
  destruct res1 as [claims|x]; [|simplify_eq; split; [rewrite Hr1; by eauto|done]].
  unfold principal_of in Hrun. rewrite <- Hr1 in Hres.
  destruct (capabilitiesFor claims o s1) as [res2 s2] eqn:Ecap.
  apply (capabilitiesFor_stored _ _ _ _ _ _ _ _ Hres) in Ecap as [Hev Hb].
  destruct res2 as [b|x]; [|simplify_eq; split; [done|done]].
  destruct (Allow _ _ _ _) as [[ok retry] rl1]. destruct ok; cbn [negb] in Hrun; simplify_eq; (split; [done|]);
    [|done].
  intros ctx [= <-] Hgate. destruct (Hacc _ eq_refl) as (kid & key & _ & _ & Hk & Hv & _).
  exists claims, kid, key. do 3 (split; [done|]). intros Ht.
  assert (HasCapability (MkPrincipal "" (TenantClaim claims) (Capabilities b)) cap = true) as Hcap.
  { unfold RequireCapability in Hgate. cbn [ctx_Principal is_oidc ctx_Identity] in Hgate.
    by destruct (HasCapability _ cap). }
  unfold HasCapability, HasScope in Hcap. cbn [Scopes] in Hcap.
  apply existsb_exists in Hcap as (c & Hin & Hc). apply list_elem_of_In in Hin.
  destruct (Hb _ eq_refl Ht Htenants) as [->|(db & -> & Hdb)]; [by apply not_elem_of_nil in Hin|].
  rewrite orb_true_iff, !String.eqb_eq in Hc. destruct Hc as [->| ->]; [by apply binding_of_star in Hin|].
  apply binding_of_caps in Hin as (role & ? & ?). by exists db, role.
Qed.

(** A library that accepts every token of a known key. *)
#[local] Instance demo_jose : JOSE := {
  json_header _ := Some ("RS256", "k1");
  jwt_decode _ := None;
  jwt_verify _ _ _ _ := inl (MkClaims "alice" "https://idp.example" None "t1" "" []);
  uuid_parses _ := true;
}.

Definition demo_outside : Outside :=
  MkOutside (inl (MkDiscoveryDoc "https://idp.example" "a" "t" "j")) (inl demo_doc)
    (MkAuthDB [] [MkRoleBinding "t1" "alice" "agent" "active"] [("agent", "case.write")]) None
    0 (MkClock3 0 0 0) 0.

Definition demo_request : Request := MkRequest "Bearer e30.e30.sig" "" "POST".

Definition demo_service : Service := set_resolver (Some (resolver_after 0 0 [])) (NewService demo_cfg).

Definition no_key_chain : Outside -> Request -> RateLimit -> Response * RateLimit :=
  fun _ _ rl => (Refused (Unauth "auth.missing_key" "missing API key") None, rl).

Definition demo_context : Context :=
  MkContext (Some (MkPrincipal "" "t1" ["case.write"])) (Some (MkIdentityRef "oidc" "alice" "t1")).

Lemma oidc_capability_sound_witness :
  let run := DualAuth map_to_list no_key_chain demo_outside demo_request demo_service (NewRateLimit 60 10 100) in
  run.1.1 = Served demo_context /\ RequireCapability "case.write" demo_context = Served demo_context
  /\ exists claims kid key,
       (publicKey kid (now_verify demo_outside) (jwks_answer demo_outside)
          (jwks (ensure (discovery_answer demo_outside) demo_service).2)).1.1 = inl key
       /\ jwt_verify (cfg demo_service) (bearerToken demo_request) key (now_verify demo_outside) = inl claims
       /\ ctx_Identity demo_context = Some (MkIdentityRef AuthMethodOIDC (Subject claims) (TenantClaim claims)).
Proof.
  intros run. assert (run.1.1 = Served demo_context) as Hs by (vm_compute; reflexivity).
  split; [exact Hs|]. split; [vm_compute; reflexivity|].
  destruct (oidc_capability_sound map_to_list no_key_chain demo_outside demo_request demo_service
    (NewRateLimit 60 10 100) run.1.1 run.1.2 run.2 "case.write" 0 0 []) as (_ & _ & Hg).
  - reflexivity.
  - constructor.
  - vm_compute. reflexivity.
  - unfold run. by destruct (DualAuth _ _ _ _ _ _) as [[? ?] ?].
  - destruct (Hg demo_context Hs) as (claims & kid & key & H1 & H2 & H3 & _); [vm_compute; reflexivity|].
    exists claims, kid, key. auto.
Defined.

(** ** A configured issuer with a trailing slash

    Discovery takes the slash off before it compares, the parser does not, so
    a token whose issuer is the one discovery validated is refused. *)
Lemma slash_issuer_refuses `{JOSE} raw o s claims s' :
  (forall c raw key now cl, jwt_verify c raw key now = inl cl -> c_Issuer cl = Issuer c) ->
  provider s = None -> Verify raw o s = (inl claims, s') ->
  c_Issuer claims = Issuer (cfg s)
  /\ exists doc, discovery_answer o = inl doc /\ d_Issuer doc = trim_suffix_byte (Issuer (cfg s)) "/".
Proof.
  intros Hlib Hp Hv. pose proof (Verify_accepts _ _ _ _ _ Hv) as [_ Ha].
  destruct (Ha _ eq_refl) as (kid & key & _ & _ & _ & Hj & _). split; [by eapply Hlib|].
  unfold Verify, ensure in Hv. rewrite Hp in Hv.
  destruct (discovery_answer o) as [doc|]; [|done]. exists doc. split; [done|].
  by destruct (String.eqb_spec (d_Issuer doc) (trim_suffix_byte (Issuer (cfg s)) "/")).
Qed.
