(* ===== verification/Realtime.v ===== *)
(** * internal/realtime: the WebSocket hub

    The hub's shared state and the goroutines of hub.go as atomic steps: an
    upgrade request is two ([admit] under the lock, then the upgrade and the
    registration), each connection has its write pump and its read pump. The
    network's answers are arguments of the steps. A [*client] is an address of
    the heap. *)

From Stdlib Require Import String.
From S2P Require Import Prelude GoStd Events.

Local Open Scope Z_scope.

(** An authenticated socket. [wire] is what its write pump has sent; [pumping]
    says that the write pump has not returned. *)
Record client := MkClient {
  tenantID : string;
  agentID : string;
  send : list dict;
  closed : bool;
  pumping : bool;
  wire : list dict;
}.

(** [pending] holds the requests between [admit] and the upgrade's result. *)
Record Hub := MkHub {
  origins : list string;
  maxPerPrincipal : Z;
  maxTotal : Z;
  total : Z;
  clients : gset nat;
  heap : gmap nat client;
  pending : gmap nat (string * string);
}.

Definition NewHub (maxPerPrincipal maxTotal : Z) (origins : list string) : Hub :=
  MkHub origins
    (if maxPerPrincipal <=? 0 then 10 else maxPerPrincipal)
    (if maxTotal <=? 0 then 10000 else maxTotal)
    0 ∅ ∅ ∅.

(** The [CheckOrigin] closure, on the [Origin] header. *)
Definition CheckOrigin (origins : list string) (origin : string) : bool :=
  match origins with
  | [] => true
  | _ => if is_empty origin then true else existsb (fun o => String.eqb o origin) origins
  end.

Definition set_total (t : Z) (h : Hub) : Hub :=
  MkHub (origins h) (maxPerPrincipal h) (maxTotal h) t (clients h) (heap h) (pending h).
Definition set_clients (cs : gset nat) (h : Hub) : Hub :=
  MkHub (origins h) (maxPerPrincipal h) (maxTotal h) (total h) cs (heap h) (pending h).
Definition set_heap (m : gmap nat client) (h : Hub) : Hub :=
  MkHub (origins h) (maxPerPrincipal h) (maxTotal h) (total h) (clients h) m (pending h).
Definition set_pending (p : gmap nat (string * string)) (h : Hub) : Hub :=
  MkHub (origins h) (maxPerPrincipal h) (maxTotal h) (total h) (clients h) (heap h) p.

Definition admit_total (h : Hub) : bool * Hub :=
  if maxTotal h <=? total h then (false, h) else (true, set_total (total h + 1) h).

Definition release (h : Hub) : Hub := set_total (total h - 1) h.

Definition new_client (tenant agent : string) : client := MkClient tenant agent [] false true [].

(** What the HTTP client sees of the first half of [ServeHTTP]. *)
Inductive Response := Unauthorized | OriginRejected | CapReached | Upgrading.

(** [ServeHTTP] up to the upgrade, for the request [req]: [auth] is what
    [authenticate] returns, [None] its error. *)
Definition serve (req : nat) (auth : option (string * string)) (origin : string) (h : Hub)
    : Response * Hub :=
  match auth with
  | None => (Unauthorized, h)
  | Some p =>
      if negb (CheckOrigin (origins h) origin) then (OriginRejected, h)
      else
        let '(ok, h) := admit_total h in
        if ok then (Upgrading, set_pending (<[req := p]> (pending h)) h) else (CapReached, h)
  end.

(** The rest of it, once [Upgrade] returned: release the slot or register. *)
Definition upgraded (req : nat) (ok : bool) (h : Hub) : Hub :=
  match pending h !! req with
  | None => h
  | Some (tenant, agent) =>
      let h := set_pending (delete req (pending h)) h in
      if ok then
        let c := fresh (dom (heap h)) in
        let h := set_heap (<[c := new_client tenant agent]> (heap h)) h in
        let h := set_clients ({[c]} ∪ clients h) h in
        set_total (total h + 1) h
      else release h
  end.

Definition targetsAgent (env : Envelope) (agent : string) : bool :=
  match dict_get (e_Data env) "agent_id" with
  | Some (VStr v) => String.eqb v agent
  | _ => false
  end
  || String.eqb (e_Subject env) agent
  || String.eqb (e_Type env) TopicQueueUpdated
  || String.eqb (e_Type env) TopicWebhookReceived.

(** The object [marshalEvent] encodes; encoding values of these types does not
    fail. *)
Definition marshalEvent (env : Envelope) : dict :=
  [("id", VStr (e_ID env)); ("type", VStr (e_Type env)); ("subject", VStr (e_Subject env));
   ("tenant_id", VStr (e_TenantID env)); ("correlation_id", VStr (e_CorrelationID env));
   ("time", VTime (e_Time env)); ("data", VMap (e_Data env))].

(** The capacity of [send]. *)
Definition send_cap : nat := 64.

Definition with_send (l : list dict) (c : client) : client :=
  MkClient (tenantID c) (agentID c) l (closed c) (pumping c) (wire c).

(** The [select] with a default: a full queue drops the event. *)
Definition enqueue (data : dict) (c : client) : client :=
  if (length (send c) <? send_cap)%nat then with_send (send c ++ [data]) c else c.

(** The body of the loop over the clients. *)
Definition wants (env : Envelope) (c : client) : bool :=
  String.eqb (tenantID c) (e_TenantID env)
  && (is_empty (agentID c) || targetsAgent env (agentID c)).

Definition offer (env : Envelope) (c : client) : client :=
  if wants env c then enqueue (marshalEvent env) c else c.

Definition Publish (env : option Envelope) (h : Hub) : Hub :=
  match env with
  | None => h
  | Some env =>
      set_heap (map_imap (fun i c => Some (if decide (i ∈ clients h) then offer env c else c))
                  (heap h)) h
  end.

(** [closeClient]: once per client. *)
Definition closeClient (i : nat) (h : Hub) : Hub :=
  match heap h !! i with
  | None => h
  | Some c =>
      if closed c then h
      else
        let c := MkClient (tenantID c) (agentID c) (send c) true (pumping c) (wire c) in
        let h := set_heap (<[i := c]> (heap h)) h in
        let h := set_clients (clients h ∖ {[i]}) h in
        set_total (total h - 1) h
  end.

(** The write pump's [return], with its deferred [closeClient]. *)
Definition pump_return (i : nat) (h : Hub) : Hub :=
  closeClient i (set_heap (alter (fun c =>
    MkClient (tenantID c) (agentID c) (send c) (closed c) false (wire c)) i (heap h)) h).

(** One case of the write pump's [select]; a case that is not ready leaves the
    hub as it is. *)
Inductive PumpCase := PumpSend (ok : bool) | PumpTick (ok : bool) | PumpClosed.

Definition writePump (i : nat) (ev : PumpCase) (h : Hub) : Hub :=
  match heap h !! i with
  | Some c =>
      if negb (pumping c) then h
      else match ev, send c with
      | PumpSend ok, msg :: rest =>
          let c' out := MkClient (tenantID c) (agentID c) rest (closed c) true out in
          if ok then set_heap (<[i := c' (wire c ++ [msg])]> (heap h)) h
          else pump_return i (set_heap (<[i := c' (wire c)]> (heap h)) h)
      | PumpSend _, [] => h
      | PumpTick true, _ => h
      | PumpTick false, _ => pump_return i h
      | PumpClosed, _ => if closed c then pump_return i h else h
      end
  | None => h
  end.

(** The read pump ends with the first read error. *)
Definition readPump (i : nat) (h : Hub) : Hub := closeClient i h.

Definition Count (h : Hub) : nat := size (clients h).

(** The steps of the hub, in any interleaving. *)
Inductive Event :=
| EvServe (req : nat) (auth : option (string * string)) (origin : string)
| EvUpgraded (req : nat) (ok : bool)
| EvPublish (env : option Envelope)
| EvWrite (i : nat) (ev : PumpCase)
| EvReadError (i : nat).

(** A request has its own identity while it is in flight. *)
Definition step (ev : Event) (h : Hub) : Hub :=
  match ev with
  | EvServe req auth origin =>
      match pending h !! req with Some _ => h | None => (serve req auth origin h).2 end
  | EvUpgraded req ok => upgraded req ok h
  | EvPublish env => Publish env h
  | EvWrite i ev => writePump i ev h
  | EvReadError i => readPump i h
  end.

Definition run (evs : list Event) (h : Hub) : Hub := fold_left (fun h ev => step ev h) evs h.

(** ** Properties of internal/realtime

    The accounting of the connection slots over every interleaving, and what
    reaches a client. *)

(** ** Connection slots *)

(** A registered client holds two slots until it is closed and one for ever
    after. *)
Record slots (h : Hub) : Prop := {
  sl_total : total h = Z.of_nat (size (pending h) + size (heap h) + size (clients h));
  sl_live : forall i, i ∈ clients h <-> exists c, heap h !! i = Some c /\ closed c = false;
  sl_cap : Z.of_nat (size (pending h) + size (heap h)) <= maxTotal h;
}.

(** Nothing but the clients' own fields changes. *)
Lemma slots_heap (m : gmap nat client) h :
  dom m = dom (heap h) ->
  (forall i c c', heap h !! i = Some c -> m !! i = Some c' -> closed c' = closed c) ->
  slots h -> slots (set_heap m h).
Proof.
  intros Hd Hc [Ht Hl Hcap]. assert (size m = size (heap h)) as Hs
    by (by rewrite <- !(size_dom (D := gset nat)), Hd).
  split; simpl; rewrite ?Hs; [done| |done]. intros i. rewrite Hl.
  destruct (heap h !! i) as [c|] eqn:Ei, (m !! i) as [c'|] eqn:Em.
  - specialize (Hc _ _ _ Ei Em). naive_solver.
  - apply not_elem_of_dom in Em. rewrite Hd in Em. by apply not_elem_of_dom in Em; simplify_eq.
  - apply not_elem_of_dom in Ei. rewrite <- Hd in Ei. by apply not_elem_of_dom in Ei; simplify_eq.
  - naive_solver.
Qed.

Lemma slots_insert i c c' h :
  heap h !! i = Some c -> closed c' = closed c -> slots h -> slots (set_heap (<[i := c']> (heap h)) h).
Proof.
  intros Hi Hc. apply slots_heap.
  - rewrite dom_insert_L. apply elem_of_dom_2 in Hi. set_solver.
  - intros j d d' Hd. destruct (decide (j = i)) as [->|Hne].
    + rewrite lookup_insert_eq. naive_solver.
    + rewrite lookup_insert_ne by done. naive_solver.
Qed.

Lemma closeClient_slots i h : slots h -> slots (closeClient i h).
Proof.
  intros H. unfold closeClient. destruct (heap h !! i) as [c|] eqn:Ei; [|done].
  destruct (closed c) eqn:Ec; [done|]. destruct H as [Ht Hl Hcap].
  assert (i ∈ clients h) as Hin by (apply Hl; eauto).
  split; simpl; rewrite ?map_size_insert_Some by eauto.
  - assert (size (clients h) = S (size (clients h ∖ {[i]}))) as Hs.
    { rewrite (size_difference (clients h) {[i]}) by set_solver. rewrite size_singleton.
      assert (size (clients h) <> 0%nat) by (intros ?%size_empty_inv; set_solver). lia. }
    lia.
  - intros j. rewrite elem_of_difference, elem_of_singleton, Hl.
    destruct (decide (j = i)) as [->|Hne].
    + rewrite lookup_insert_eq. naive_solver.
    + rewrite lookup_insert_ne by done. naive_solver.
  - done.
Qed.

Lemma pump_return_slots i h : slots h -> slots (pump_return i h).
Proof.
  intros H. apply closeClient_slots. apply slots_heap; [apply dom_alter_L| |done].
  intros j c c' Hj. destruct (decide (j = i)) as [->|Hne].
  - rewrite lookup_alter_eq, Hj. by intros [= <-].
  - rewrite lookup_alter_ne by done. naive_solver.
Qed.

Lemma upgraded_slots req ok h : slots h -> slots (upgraded req ok h).
Proof.
  intros [Ht Hl Hcap]. unfold upgraded. destruct (pending h !! req) as [[t a]|] eqn:Ep; [|done].
  assert (size (pending h) = S (size (delete req (pending h)))) as Hs.
  { rewrite map_size_delete_Some by eauto. assert (size (pending h) <> 0%nat); [|lia].
    intros E. apply map_size_empty_iff in E. rewrite E in Ep. done. }
  destruct ok.
  - cbn [set_pending set_heap set_clients set_total heap clients total pending maxTotal].
    pose proof (is_fresh (dom (heap h))) as Hf. set (c := fresh _) in *.
    apply not_elem_of_dom in Hf.
    assert (c ∉ clients h) as Hn by (intros (d & Hd & _)%Hl; congruence).
    split; cbn [set_pending set_heap set_clients set_total heap clients total pending maxTotal].
    + rewrite map_size_insert_None by done. rewrite size_union, size_singleton by set_solver. lia.
    + intros j. rewrite elem_of_union, elem_of_singleton, Hl. destruct (decide (j = c)) as [->|Hne].
      * rewrite lookup_insert_eq. naive_solver.
      * rewrite lookup_insert_ne by done. naive_solver.
    + rewrite map_size_insert_None by done. lia.
  - split; simpl; [lia|done|lia].
Qed.

Lemma serve_slots req auth origin h :
  pending h !! req = None -> slots h -> slots (serve req auth origin h).2.
Proof.
  intros Hp H. unfold serve. destruct auth as [p|]; [|done]. destruct (negb _); [done|].
  unfold admit_total. destruct (Z.leb_spec (maxTotal h) (total h)); [done|].
  destruct H as [Ht Hl Hcap]. simpl. split; simpl; rewrite ?map_size_insert_None by done; [lia|done|lia].
Qed.

Lemma writePump_slots i ev h : slots h -> slots (writePump i ev h).
Proof.
  intros H. unfold writePump. destruct (heap h !! i) as [c|] eqn:Ei; [|done].
  destruct (negb _); [done|]. destruct ev as [ok|[]|], (send c) as [|msg rest]; try done.
  - destruct ok; [|apply pump_return_slots]; by eapply slots_insert.
  - by apply pump_return_slots.
  - by apply pump_return_slots.
  - destruct (closed c); [by apply pump_return_slots|done].
  - destruct (closed c); [by apply pump_return_slots|done].
Qed.

Lemma Publish_lookup env h i :
  heap (Publish env h) !! i =
  (c ← heap h !! i;
   Some (match env with
         | Some env => if decide (i ∈ clients h) then offer env c else c
         | None => c end)).
Proof.
  destruct env as [env|]; simpl; [|by destruct (heap h !! i)].
  rewrite map_lookup_imap. by destruct (heap h !! i).
Qed.

Lemma offer_closed env c : closed (offer env c) = closed c.
Proof. unfold offer, enqueue. by destruct (wants env c), (length (send c) <? send_cap)%nat. Qed.

Lemma Publish_slots env h : slots h -> slots (Publish env h).
Proof.
  intros H. destruct env as [env|]; [|done]. pose proof (Publish_lookup (Some env) h) as Hp.
  unfold Publish in *. apply slots_heap; [| |done].
  - apply set_eq. intros i. rewrite !elem_of_dom. cbn [set_heap heap] in Hp. rewrite Hp.
    destruct (heap h !! i); simpl; [|done]. split; intros _; eauto.
  - intros i c c' Hi. cbn [set_heap heap] in Hp. rewrite Hp, Hi. simpl. intros [= <-].
    destruct (decide _); [apply offer_closed|done].
Qed.

Lemma step_slots ev h : slots h -> slots (step ev h).
Proof.
  destruct ev as [req auth origin|req ok|env|i ev|i]; simpl; intros H.
  - destruct (pending h !! req) eqn:Ep; [done|]. by apply serve_slots.
  - by apply upgraded_slots.
  - by apply Publish_slots.
  - by apply writePump_slots.
  - by apply closeClient_slots.
Qed.

Lemma run_slots evs h : slots h -> slots (run evs h).
Proof. revert h. induction evs as [|ev evs IH]; intros h H; simpl; [done|]. by apply IH, step_slots. Qed.

Lemma NewHub_slots pp m orig : slots (NewHub pp m orig).
Proof.
  split; simpl.
  - done.
  - intros i. rewrite lookup_empty. split; [set_solver|naive_solver].
  - rewrite !map_size_empty. destruct (Z.leb_spec m 0); lia.
Qed.

(** ** What stays *)

(** The configuration does not change and no client object is forgotten. *)
Definition grows (h h' : Hub) : Prop :=
  maxTotal h' = maxTotal h /\ origins h' = origins h /\ dom (heap h) ⊆ dom (heap h').

#[export] Instance grows_PreOrder : PreOrder grows.
Proof.
  split; [by intros h|]. intros x y z (? & ? & ?) (? & ? & ?). split; [congruence|]. split; [congruence|].
  set_solver.
Qed.

Lemma closeClient_grows i h : grows h (closeClient i h).
Proof.
  unfold closeClient. destruct (heap h !! i) as [c|]; [|done]. destruct (closed c); [done|].
  repeat split; simpl. rewrite dom_insert. set_solver.
Qed.

Lemma pump_return_grows i h : grows h (pump_return i h).
Proof.
  unfold pump_return. etransitivity; [|apply closeClient_grows]. repeat split; simpl. by rewrite dom_alter.
Qed.

Lemma heap_insert_grows i c h : grows h (set_heap (<[i := c]> (heap h)) h).
Proof. repeat split; simpl. rewrite dom_insert. set_solver. Qed.

Lemma step_grows ev h : grows h (step ev h).
Proof.
  destruct ev as [req auth origin|req ok|env|i ev|i]; simpl.
  - destruct (pending h !! req); [done|]. unfold serve, admit_total.
    destruct auth; [|done]. destruct (negb _); [done|]. by destruct (_ <=? _).
  - unfold upgraded. destruct (pending h !! req) as [[t a]|]; [|done]. destruct ok; [|done].
    repeat split; simpl. rewrite dom_insert. set_solver.
  - destruct env as [env|]; [|done]. repeat split. intros i. rewrite !elem_of_dom, Publish_lookup.
    intros [c ->]. simpl. eauto.
  - unfold writePump. destruct (heap h !! i) as [c|]; [|done]. destruct (negb _); [done|].
    destruct ev as [ok|[]|], (send c); try done; try apply pump_return_grows.
    + destruct ok; [apply heap_insert_grows|].
      etransitivity; [apply heap_insert_grows|apply pump_return_grows].
    + destruct (closed c); [apply pump_return_grows|done].
    + destruct (closed c); [apply pump_return_grows|done].
  - apply closeClient_grows.
Qed.

Lemma run_grows evs h : grows h (run evs h).
Proof.
  revert h. induction evs as [|ev evs IH]; intros h; simpl; [done|].
  etransitivity; [apply step_grows|apply IH].
Qed.

Lemma grows_size h h' : grows h h' -> (size (heap h) <= size (heap h'))%nat.
Proof.
  intros (_ & _ & Hd). rewrite <- !(size_dom (D := gset nat)). by apply subseteq_size.
Qed.

(** ** Delivery *)

(** A client loses its identity never and queued messages only in order. *)
Record shrinks (c c' : client) : Prop := {
  sh_tenant : tenantID c' = tenantID c;
  sh_agent : agentID c' = agentID c;
  sh_queue : sublist (wire c' ++ send c') (wire c ++ send c);
  sh_length : (length (send c') <= length (send c))%nat;
}.

#[export] Instance shrinks_PreOrder : PreOrder shrinks.
Proof.
  split; [by split|]. intros x y z [? ? ? ?] [? ? ? ?].
  split; [congruence|congruence|by etransitivity|lia].
Qed.

Definition quiet (h h' : Hub) : Prop :=
  forall i c', heap h' !! i = Some c' -> exists c, heap h !! i = Some c /\ shrinks c c'.

#[export] Instance quiet_PreOrder : PreOrder quiet.
Proof.
  split; [by intros h i c Hc; exists c|]. intros x y z Hxy Hyz i c' (c1 & H1 & Hs1)%Hyz.
  apply Hxy in H1 as (c2 & H2 & Hs2). exists c2. split; [done|]. by etransitivity.
Qed.

Lemma quiet_insert i c c' h :
  heap h !! i = Some c -> shrinks c c' -> quiet h (set_heap (<[i := c']> (heap h)) h).
Proof.
  intros Hi Hs j d. simpl. destruct (decide (j = i)) as [->|Hne].
  - rewrite lookup_insert_eq. intros [= <-]. eauto.
  - rewrite lookup_insert_ne by done. by exists d.
Qed.

Lemma closeClient_quiet i h : quiet h (closeClient i h).
Proof.
  unfold closeClient. destruct (heap h !! i) as [c|] eqn:Ei; [|done]. destruct (closed c); [done|].
  exact (quiet_insert i c _ h Ei (Build_shrinks c (MkClient _ _ _ _ _ _) eq_refl eq_refl
           (reflexivity _) (le_n _))).
Qed.

Lemma pump_return_quiet i h : quiet h (pump_return i h).
Proof.
  unfold pump_return. etransitivity; [|apply closeClient_quiet]. intros j c. simpl.
  rewrite lookup_alter. destruct (decide (i = j)) as [->|]; [|by exists c].
  destruct (heap h !! j) as [d|]; simpl; [|done]. intros [= <-]. exists d. by repeat split.
Qed.

Lemma writePump_quiet i ev h : quiet h (writePump i ev h).
Proof.
  unfold writePump. destruct (heap h !! i) as [c|] eqn:Ei; [|done].
  destruct (negb _); [done|]. destruct ev as [ok|[]|], (send c) as [|msg rest] eqn:Es;
    try done; try apply pump_return_quiet; try (destruct (closed c); [apply pump_return_quiet|done]).
  destruct ok.
  - apply quiet_insert with c; [done|]. split; simpl; rewrite ?Es; [done|done| |simpl; lia].
    by rewrite <- (assoc_L (++)).
  - etransitivity; [|apply pump_return_quiet]. apply quiet_insert with c; [done|].
    split; simpl; rewrite ?Es; [done|done| |simpl; lia].
    apply sublist_app; [done|]. by constructor.
Qed.

(** What a client may still see or has seen is drawn, in order, from the
    events [pub] that concern it, and its queue is bounded. *)
Definition faithful (pub : list Envelope) (c : client) : Prop :=
  sublist (wire c ++ send c) (marshalEvent <$> List.filter (fun env => wants env c) pub)
  /\ (length (send c) <= send_cap)%nat.

Lemma wants_shrinks env c c' : shrinks c c' -> wants env c' = wants env c.
Proof. intros [Ht Ha _ _]. unfold wants. by rewrite Ht, Ha. Qed.

Lemma faithful_shrinks pub c c' : faithful pub c -> shrinks c c' -> faithful pub c'.
Proof.
  intros [Hq Hl] Hs. split; [|destruct Hs; lia].
  rewrite (List.filter_ext _ _ (fun env => wants_shrinks env c c' Hs)). etransitivity; [apply Hs|done].
Qed.

Lemma offer_wants env e c : wants env (offer e c) = wants env c.
Proof. unfold offer, enqueue. by destruct (wants e c), (length (send c) <? send_cap)%nat. Qed.

Lemma faithful_offer pub e c : faithful pub c -> faithful (pub ++ [e]) (offer e c).
Proof.
  intros [Hq Hl]. split.
  - rewrite (List.filter_ext _ _ (fun env => offer_wants env e c)), List.filter_app, fmap_app. simpl.
    unfold offer, enqueue. destruct (wants e c) eqn:Ew; [|by rewrite app_nil_r].
    destruct (Nat.ltb_spec (length (send c)) send_cap); simpl.
    + rewrite (assoc_L (++)). by apply sublist_app.
    + apply sublist_inserts_r. done.
  - unfold offer, enqueue. destruct (wants e c); [|done].
    destruct (Nat.ltb_spec (length (send c)) send_cap); simpl; [|done]. rewrite length_app. simpl. lia.
Qed.

Lemma faithful_skip pub e c : faithful pub c -> faithful (pub ++ [e]) c.
Proof.
  intros [Hq Hl]. split; [|done]. rewrite List.filter_app, fmap_app. by apply sublist_inserts_r.
Qed.

Lemma faithful_new pub t a : faithful pub (new_client t a).
Proof. split; [apply sublist_nil_l|simpl; lia]. Qed.

Lemma sublist_Forall {A} (P : A -> Prop) l k : sublist l k -> Forall P k -> Forall P l.
Proof. induction 1; inversion 1; subst; auto. Qed.

(** The events published by a run, in order. *)
Definition published (evs : list Event) : list Envelope :=
  omap (fun ev => match ev with EvPublish env => env | _ => None end) evs.

Definition all_faithful (pub : list Envelope) (h : Hub) : Prop :=
  forall i c, heap h !! i = Some c -> faithful pub c.

Lemma quiet_faithful pub h h' : quiet h h' -> all_faithful pub h -> all_faithful pub h'.
Proof. intros Hq Hf i c' (c & Hc & Hs)%Hq. eapply faithful_shrinks; [by eapply Hf|done]. Qed.

Lemma step_faithful pub ev h :
  all_faithful pub h -> all_faithful (pub ++ published [ev]) (step ev h).
Proof.
  intros H. destruct ev as [req auth origin|req ok|env|i ev|i]; simpl; rewrite ?app_nil_r.
  - destruct (pending h !! req); [done|]. unfold serve, admit_total.
    destruct auth; [|done]. destruct (negb _); [done|]. by destruct (_ <=? _).
  - unfold upgraded. destruct (pending h !! req) as [[t a]|]; [|done]. destruct ok; [|done].
    intros i c. cbn [set_total set_clients set_heap set_pending heap].
    destruct (decide (i = fresh (dom (heap h)))) as [->|Hne].
    + rewrite lookup_insert_eq. intros [= <-]. apply faithful_new.
    + rewrite lookup_insert_ne by done. apply H.
  - intros i c. rewrite Publish_lookup. destruct (heap h !! i) as [d|] eqn:Ei; simpl; [|done].
    specialize (H i d Ei). destruct env as [env|]; simpl; intros [= <-]; [|by rewrite app_nil_r].
    destruct (decide _); [by apply faithful_offer|by apply faithful_skip].
  - eapply quiet_faithful; [apply writePump_quiet|done].
  - eapply quiet_faithful; [apply closeClient_quiet|done].
Qed.

Lemma run_snoc evs ev h : run (evs ++ [ev]) h = step ev (run evs h).
Proof. unfold run. by rewrite fold_left_app. Qed.

Lemma run_faithful evs pp m orig : all_faithful (published evs) (run evs (NewHub pp m orig)).
Proof.
  induction evs as [|ev evs IH] using rev_ind; [by intros i c|].
  rewrite run_snoc. unfold published. rewrite omap_app. by apply step_faithful.
Qed.

(** ** Properties *)

(** C19. Slot accounting: whatever the interleaving of requests, upgrades,
    publications, pump steps and disconnections, the hub's counter is the
    requests in flight plus the connections ever made plus the live ones. So
    the live connections never exceed the cap, but neither do the connections
    made over the hub's whole life: once that many were made, every
    authenticated request is refused for ever, even with no client left. *)
Theorem hub_slots_leak evs pp m orig :
  let h := run evs (NewHub pp m orig) in
  total h = Z.of_nat (size (pending h) + size (heap h) + Count h)
  /\ Z.of_nat (Count h) <= maxTotal h
  /\ Z.of_nat (size (pending h) + size (heap h)) <= maxTotal h
  /\ (Z.of_nat (size (heap h)) = maxTotal h ->
      forall evs' req p origin, CheckOrigin orig origin = true ->
        (serve req (Some p) origin (run evs' h)).1 = CapReached
        /\ size (heap (run evs' h)) = size (heap h)).
Proof.
  intros h. assert (slots h) as H by apply run_slots, NewHub_slots.
  assert (size (clients h) <= size (heap h))%nat as Hc.
  { rewrite <- (size_dom (D := gset nat)). apply subseteq_size. intros i (c & Hi & _)%(sl_live h H).
    by eapply elem_of_dom_2. }
  split; [apply H|]. unfold Count. pose proof (sl_cap h H). split; [lia|]. split; [done|].
  intros Hfull evs' req p origin Ho.
  pose proof (run_slots evs' h H) as H'. pose proof (run_grows evs' h) as Hg.
  pose proof (run_grows evs (NewHub pp m orig)) as Hg0. fold h in Hg0.
  pose proof (grows_size _ _ Hg). destruct Hg as (Hm & Hor & _), Hg0 as (_ & Hor0 & _).
  pose proof (sl_cap _ H'). pose proof (sl_total _ H').
  split; [|lia]. unfold serve, admit_total. rewrite Hor, Hor0. cbn [NewHub origins]. rewrite Ho. simpl.
  rewrite (proj2 (Z.leb_le _ _)) by lia. done.
Qed.

(** One slot, one connection that comes and goes, and the hub is full. *)
Definition one_visit : list Event :=
  [EvServe 0 (Some ("t1", "ag1")) ""; EvUpgraded 0 true; EvReadError 0].

Lemma hub_slots_leak_witness :
  let h := run one_visit (NewHub 1 1 []) in
  Count h = 0%nat /\ Z.of_nat (size (heap h)) = maxTotal h
  /\ forall evs' req p origin,
        (serve req (Some p) origin (run evs' h)).1 = CapReached.
Proof.
  split; [vm_compute; reflexivity|]. split; [vm_compute; reflexivity|].
  intros evs' req p origin.
  destruct (hub_slots_leak one_visit 1 1 []) as (_ & _ & _ & H).
  apply (fun H1 H2 => proj1 (H H1 evs' req p origin H2)); vm_compute; reflexivity.
Defined.

(** C20. Fan-out: over every run, what a client has received or has queued is a
    subsequence, in order, of the published events of its own tenant that
    concern its agent filter, each message carries its tenant, and the queue
    stays within its capacity. A live client with room gets the next event
    that concerns it; a live client without room, and every other client, is
    left as it is, and every client stays registered. This is what the
    [select]'s comment says (the event is dropped for the client) and not what
    the comment on [Publish] says (hub.go 143: the slow consumer is dropped
    and reconnects): a client that missed events keeps its connection and is
    not told. *)
Theorem hub_fan_out evs pp m orig i c :
  let h := run evs (NewHub pp m orig) in
  heap h !! i = Some c ->
  sublist (wire c ++ send c)
    (marshalEvent <$> List.filter (fun env => wants env c) (published evs))
  /\ Forall (fun msg => dict_get msg "tenant_id" = Some (VStr (tenantID c))) (wire c ++ send c)
  /\ (length (send c) <= 64)%nat
  /\ forall env,
       clients (Publish (Some env) h) = clients h
       /\ heap (Publish (Some env) h) !! i = Some
         (if bool_decide (i ∈ clients h) && String.eqb (tenantID c) (e_TenantID env)
             && (is_empty (agentID c) || targetsAgent env (agentID c))
             && (length (send c) <? 64)%nat
          then with_send (send c ++ [marshalEvent env]) c else c).
Proof.
  intros h Hi. destruct (run_faithful evs pp m orig i c Hi) as [Hs Hl].
  split; [done|]. split; [|split; [done|]].
  - eapply sublist_Forall; [exact Hs|]. apply Forall_fmap, Forall_forall.
    intros env [_ Hw]%list_elem_of_In%filter_In. apply andb_prop in Hw as [Hw%String.eqb_eq _].
    simpl. by rewrite Hw.
  - intros env. split; [done|]. rewrite Publish_lookup, Hi. simpl. rewrite decide_bool_decide.
    destruct (bool_decide (i ∈ clients h)); [|done]. unfold offer, wants, enqueue, send_cap. simpl.
    destruct (_ && _) eqn:E; simpl; [by destruct (_ <? _)%nat|done].
Qed.

(** A client of tenant t1 that filters on ag1 hears its assignment and not its
    neighbour's. *)
Definition demo_env (tenant agent : string) : Envelope :=
  MkEnvelope "e1" TopicInteractionAssigned "test" "i1" tenant "" 0 [("agent_id", VStr agent)].

Definition demo_run : list Event :=
  [EvServe 0 (Some ("t1", "ag1")) ""; EvUpgraded 0 true; EvPublish (Some (demo_env "t1" "ag1"));
   EvPublish (Some (demo_env "t1" "ag2")); EvPublish (Some (demo_env "t2" "ag1"));
   EvWrite 0 (PumpSend true)].

Lemma hub_fan_out_witness :
  exists c, heap (run demo_run (NewHub 10 100 [])) !! 0%nat = Some c
  /\ wire c = [marshalEvent (demo_env "t1" "ag1")] /\ (length (send c) <= 64)%nat.
Proof.
  eexists. split; [vm_compute; reflexivity|]. split; [vm_compute; reflexivity|].
  eapply (hub_fan_out demo_run 10 100 [] 0%nat). vm_compute. reflexivity.
Defined.

(** Sixty-five events in a row for a client whose pump does not run: the last
    one is lost to it, and it is neither closed nor unregistered. *)
Lemma slow_client_stays_connected :
  let h := run ([EvServe 0 (Some ("t1", "ag1")) ""; EvUpgraded 0 true]
                  ++ repeat (EvPublish (Some (demo_env "t1" "ag1"))) 65) (NewHub 10 100 []) in
  (exists c, heap h !! 0%nat = Some c /\ length (send c) = 64%nat /\ closed c = false /\ pumping c = true)
  /\ 0%nat ∈ clients h.
Proof.
  split; [eexists; split; [vm_compute; reflexivity|by vm_compute]|].
  apply (bool_decide_unpack _). vm_compute. exact I.
Qed.
