(* ===== verification/RingMap.v ===== *)
(** * internal/search/indexer.go: ringMap

    The bounded string map with FIFO eviction of the search indexer: its
    operations over the hash map and the circular array, and the reference it
    is equivalent to, a list of bindings in order of insertion. *)

From Stdlib Require Import String.
From S2P Require Import Prelude GoStd.

(** ** The code *)

Record ringMap := MkRingMap {
  cap : nat;
  rm_m : gmap string string;
  order : list string;
  next : nat;
}.

Definition newRingMap (capacity : Z) : ringMap :=
  let c := if (capacity <=? 0)%Z then 1 else Z.to_nat capacity in
  MkRingMap c ∅ (replicate c "") 0.

(** The entries of the map without the one in the next slot. *)
Definition evictSlot (r : ringMap) : gmap string string :=
  let old := default "" (order r !! next r) in
  if is_empty old then rm_m r else delete old (rm_m r).

Definition fill_slot (key val : string) (r : ringMap) : ringMap :=
  MkRingMap (cap r) (<[key := val]> (evictSlot r)) (<[next r := key]> (order r)) ((next r + 1) mod cap r).

(** [true]: the id was there already. *)
Definition putIfAbsent (id : string) (r : ringMap) : bool * ringMap :=
  match rm_m r !! id with
  | Some _ => (true, r)
  | None => (false, fill_slot id "" r)
  end.

Definition put (key val : string) (r : ringMap) : ringMap :=
  match rm_m r !! key with
  | Some old =>
      if is_empty old then fill_slot key val r
      else MkRingMap (cap r) (<[key := val]> (rm_m r)) (order r) (next r)
  | None => fill_slot key val r
  end.

Definition get (key : string) (r : ringMap) : option string := rm_m r !! key.

(** ** The reference: at most [c] bindings, oldest first *)

Notation bindings := (list (string * string)).

Definition fifo_add (c : nat) (key val : string) (l : bindings) : bindings :=
  (if decide (length l = c) then tail l else l) ++ [(key, val)].

Definition fifo_get (key : string) (l : bindings) : option string :=
  snd <$> List.find (fun p => String.eqb p.1 key) l.

Definition fifo_putIfAbsent (c : nat) (id : string) (l : bindings) : bool * bindings :=
  match fifo_get id l with Some _ => (true, l) | None => (false, fifo_add c id "" l) end.

Definition fifo_put (c : nat) (key val : string) (l : bindings) : bindings :=
  match fifo_get key l with
  | Some _ => map (fun p => if String.eqb p.1 key then (key, val) else p) l
  | None => fifo_add c key val l
  end.

(** ** The circular array holds the bindings *)

(** The slots from the next one round to the one before it. *)
Definition slots (r : ringMap) : list string := drop (next r) (order r) ++ take (next r) (order r).

Record ring_of (P : string -> Prop) (r : ringMap) (l : bindings) : Prop := {
  ring_cap : 0 < cap r;
  ring_order : length (order r) = cap r;
  ring_next : next r < cap r;
  ring_slots : slots r = replicate (cap r - length l) "" ++ l.*1;
  ring_fits : length l <= cap r;
  ring_nodup : NoDup l.*1;
  ring_keys : Forall (fun p => p.1 <> "" /\ P p.2) l;
  ring_map : rm_m r = list_to_map l;
}.

Lemma fifo_get_map key l : fifo_get key l = (list_to_map l : gmap string string) !! key.
Proof.
  unfold fifo_get. induction l as [|[k v] l IH]; [done|]. rewrite list_to_map_cons. cbn [List.find fst].
  destruct (String.eqb_spec k key) as [->|Hk]; [by rewrite lookup_insert_eq|].
  by rewrite lookup_insert_ne by done.
Qed.

Lemma fifo_get_fresh key l : fifo_get key l = None <-> key ∉ l.*1.
Proof. rewrite fifo_get_map. symmetry. apply not_elem_of_list_to_map. Qed.

(** Filling the next slot drops the oldest and appends the newest. *)
Lemma slots_fill key val r :
  length (order r) = cap r -> next r < cap r ->
  slots (fill_slot key val r) = tail (slots r) ++ [key].
Proof.
  intros Hl Hn. unfold slots. cbn [fill_slot order next].
  destruct (lookup_lt_is_Some_2 (order r) (next r)) as [x Hx]; [lia|].
  rewrite (drop_S _ _ _ Hx). cbn [app tail].
  assert (Ht : take (S (next r)) (<[next r:=key]> (order r)) = take (next r) (order r) ++ [key]).
  { rewrite (take_S_r _ _ key) by (apply list_lookup_insert_eq; lia). rewrite take_insert. case_decide; [lia|done]. }
  destruct (decide (S (next r) < cap r)).
  - rewrite Nat.mod_small, Nat.add_1_r by lia. rewrite drop_insert_lt by lia. by rewrite Ht, app_assoc.
  - replace (next r + 1) with (cap r) by lia. rewrite Nat.Div0.mod_same, drop_0, take_0.
    rewrite app_nil_r, (drop_ge (order r)), app_nil_l by lia. rewrite <- Ht, take_ge; [done|rewrite length_insert; lia].
Qed.

Lemma slots_head r : next r < length (order r) -> default "" (order r !! next r) = default "" (head (slots r)).
Proof.
  intros Hn. destruct (lookup_lt_is_Some_2 _ _ Hn) as [x Hx]. unfold slots. by rewrite Hx, (drop_S _ _ _ Hx).
Qed.

Lemma ring_of_new P capacity : ring_of P (newRingMap capacity) [].
Proof.
  unfold newRingMap. set (c := if (capacity <=? 0)%Z then 1 else Z.to_nat capacity).
  assert (0 < c) by (unfold c; destruct (Z.leb_spec capacity 0); lia).
  split; cbn [cap rm_m order next]; try done; [apply length_replicate| |simpl; lia|constructor..].
  unfold slots. cbn [next order drop take]. by rewrite Nat.sub_0_r, !app_nil_r.
Qed.

(** The slot a new key goes into: free, or the oldest binding's. *)
Lemma ring_of_fill P key val r l :
  ring_of P r l -> key <> "" -> P val -> key ∉ l.*1 ->
  ring_of P (fill_slot key val r) (fifo_add (cap r) key val l).
Proof.
  intros [Hc Hl Hn Hs Hf Hd Hk Hm] Hne Hv Hfresh. unfold fifo_add.
  assert (He : evictSlot r = list_to_map (if decide (length l = cap r) then tail l else l)).
  { unfold evictSlot. rewrite slots_head, Hs, Hm by lia. case_decide as Hfull.
    - rewrite Hfull, Nat.sub_diag. destruct l as [|[k v] l]; [simpl in Hfull; lia|]. cbn [replicate app fmap list_fmap head default tail fst].
      apply Forall_cons in Hk as [[Hk _] _]. cbn [fst] in Hk. simpl. rewrite (proj2 (is_empty_false k) Hk).
      apply NoDup_cons in Hd as [Hd _]. apply delete_insert_id. by apply not_elem_of_list_to_map.
    - destruct (cap r - length l) eqn:E; [lia|]. done. }
  set (l1 := if decide (length l = cap r) then tail l else l) in *.
  assert (Hsub : sublist l1.*1 l.*1 /\ l1 ⊆ l).
  { unfold l1. case_decide; [|done]. destruct l; [done|]. cbn [tail fmap list_fmap].
    split; [by apply sublist_cons|apply list_subseteq_cons; done]. }
  destruct Hsub as [Hsub Hin].
  assert (Hf1 : key ∉ l1.*1) by (intros H; apply Hfresh; by eapply elem_of_sublist).
  assert (Hlen : length l1 < cap r /\ length l1 = (if decide (length l = cap r) then pred (length l) else length l)).
  { unfold l1. case_decide; [|lia]. destruct l; simpl in *; lia. }
  split; cbn [cap rm_m order next fill_slot].
  - done.
  - by rewrite length_insert.
  - apply Nat.mod_upper_bound. lia.
  - rewrite slots_fill, Hs by done. rewrite fmap_app, length_app. cbn [fmap list_fmap fst length].
    rewrite app_assoc. f_equal. unfold l1. case_decide as Hfull.
    + rewrite Hfull, Nat.sub_diag. destruct l; simpl in *; [lia|]. replace (cap r - (length l + 1)) with 0 by lia. done.
    + replace (cap r - length l) with (S (cap r - (length l + 1))) by lia. done.
  - rewrite length_app. simpl. lia.
  - rewrite fmap_app. apply NoDup_app. split; [by eapply sublist_NoDup|]. split; [|apply NoDup_singleton].
    intros x Hx Hx2%list_elem_of_singleton. by subst.
  - apply Forall_app. split; [|by repeat constructor]. rewrite Forall_forall in *. auto.
  - rewrite He, list_to_map_snoc by done. done.
Qed.

(** Updating a binding keeps its slot. *)
Notation rebind key val := (map (fun p => if String.eqb p.1 key then (key, val) else p)).

Lemma rebind_keys key val (l : bindings) : (rebind key val l).*1 = l.*1.
Proof.
  induction l as [|[k v] l IH]; [done|]. cbn [map fmap list_fmap fst] in *. rewrite IH.
  by destruct (String.eqb_spec k key) as [->|].
Qed.

Lemma rebind_map key val (l : bindings) :
  key ∈ l.*1 -> (list_to_map (rebind key val l) : gmap string string) = <[key := val]> (list_to_map l).
Proof.
  induction l as [|[k v] l IH]; [by intros ?%not_elem_of_nil|]. cbn [map fmap list_fmap fst].
  destruct (String.eqb_spec k key) as [->|Hk]; intros Hin.
  - rewrite !list_to_map_cons, insert_insert_eq. destruct (decide (key ∈ l.*1)) as [H|H]; [by rewrite IH, insert_insert_eq|].
    do 2 f_equal. clear IH Hin. induction l as [|[k w] l IH]; [done|]. cbn [map fst].
    apply not_elem_of_cons in H as [H1 H2]. cbn [fst] in H1. destruct (String.eqb_spec k key); [congruence|]. by f_equal; apply IH.
  - apply elem_of_cons in Hin as [->|Hin]; [done|]. rewrite !list_to_map_cons, IH by done. by apply insert_insert_ne.
Qed.

Lemma ring_of_rebind P key val old r l :
  ring_of P r l -> rm_m r !! key = Some old -> key <> "" -> P val ->
  ring_of P (MkRingMap (cap r) (<[key := val]> (rm_m r)) (order r) (next r)) (rebind key val l).
Proof.
  intros [Hc Hl Hn Hs Hf Hd Hk Hm] Ho Hne Hv.
  assert (Hin : key ∈ l.*1).
  { destruct (decide (key ∈ l.*1)) as [|H]; [done|]. rewrite Hm in Ho. apply not_elem_of_list_to_map in H. congruence. }
  split; cbn [cap rm_m order next]; rewrite ?rebind_keys, ?length_map; try done.
  - rewrite Forall_forall in *. intros p (q & -> & Hq)%list_elem_of_fmap.
    destruct (String.eqb_spec q.1 key); [done|by apply Hk].
  - by rewrite rebind_map, Hm.
Qed.

(** ** The operations *)

Inductive ring_op :=
| PutIfAbsent (id : string)
| Put (key val : string)
| Get (key : string).

(** What the operation answers: whether the id was there, or the value. *)
Definition ring_step (o : ring_op) (r : ringMap) : bool * option string * ringMap :=
  match o with
  | PutIfAbsent id => let '(b, r) := putIfAbsent id r in (b, None, r)
  | Put k v => (false, None, put k v r)
  | Get k => (false, get k r, r)
  end.

Definition fifo_step (c : nat) (o : ring_op) (l : bindings) : bool * option string * bindings :=
  match o with
  | PutIfAbsent id => let '(b, l) := fifo_putIfAbsent c id l in (b, None, l)
  | Put k v => (false, None, fifo_put c k v l)
  | Get k => (false, fifo_get k l, l)
  end.

(** Run a sequence of operations, collecting the answers. *)
Definition run_ops {R} (step : ring_op -> R -> bool * option string * R) (ops : list ring_op) (r : R)
    : list (bool * option string) * R :=
  fold_left (fun acc o => let '(b, v, r') := step o acc.2 in (acc.1 ++ [(b, v)], r')) ops ([], r).

(** A ring is used as a set of ids or as a map with values, never both. *)
Definition op_allowed (as_set : bool) (o : ring_op) : Prop :=
  match o with
  | PutIfAbsent id => as_set = true /\ id <> ""
  | Put k v => as_set = false /\ k <> "" /\ v <> ""
  | Get _ => True
  end.

Definition val_ok (as_set : bool) (v : string) : Prop := if as_set then v = "" else v <> "".

Lemma ring_step_sim as_set o r l :
  ring_of (val_ok as_set) r l -> op_allowed as_set o ->
  let '(b, v, r') := ring_step o r in let '(b', v', l') := fifo_step (cap r) o l in
  b = b' /\ v = v' /\ cap r' = cap r /\ ring_of (val_ok as_set) r' l'.
Proof.
  intros HR Ho. pose proof HR as [Hc Hl Hn Hs Hf Hd Hk Hm].
  destruct o as [id|k v|k]; cbn [ring_step fifo_step op_allowed] in *.
  - destruct Ho as [-> Hid]. unfold putIfAbsent, fifo_putIfAbsent. rewrite fifo_get_map, <- Hm.
    destruct (rm_m r !! id) eqn:E; [done|]. split_and!; try done. apply ring_of_fill; try done.
    rewrite Hm in E. by apply not_elem_of_list_to_map.
  - destruct Ho as (-> & Hk0 & Hv0). unfold put, fifo_put. rewrite fifo_get_map, <- Hm.
    destruct (rm_m r !! k) as [old|] eqn:E.
    + assert (is_empty old = false) as ->.
      { apply is_empty_false. rewrite Hm in E. apply elem_of_list_to_map in E; [|done].
        rewrite Forall_forall in Hk. by apply (Hk _ E). }
      split_and!; try done. by eapply ring_of_rebind.
    + split_and!; try done. apply ring_of_fill; try done. rewrite Hm in E. by apply not_elem_of_list_to_map.
  - unfold get. by rewrite fifo_get_map, Hm.
Qed.

(** The ring map is the bounded FIFO map it stands for. From a fresh ring
    any sequence of allowed operations (an id or key and a value are not empty;
    a ring is a set or a map) gets exactly the answers of the list of bindings
    in which a new key drops the oldest one when the list is full, and the
    map holds exactly those bindings, never more than the capacity. *)
Lemma ring_is_fifo as_set capacity ops :
  Forall (op_allowed as_set) ops ->
  let r0 := newRingMap capacity in
  let '(out, r) := run_ops ring_step ops r0 in
  let '(out', l) := run_ops (fifo_step (cap r0)) ops [] in
  out = out' /\ rm_m r = list_to_map l /\ NoDup l.*1 /\ length l <= cap r0.
Proof.
  intros Hops r0. unfold run_ops.
  assert (forall out r l, ring_of (val_ok as_set) r l -> cap r = cap r0 ->
    let p := fold_left (fun acc o => let '(b, v, r') := ring_step o acc.2 in (acc.1 ++ [(b, v)], r')) ops (out, r) in
    let q := fold_left (fun acc o => let '(b, v, r') := fifo_step (cap r0) o acc.2 in (acc.1 ++ [(b, v)], r')) ops (out, l) in
    p.1 = q.1 /\ cap p.2 = cap r0 /\ ring_of (val_ok as_set) p.2 q.2) as H.
  { induction Hops as [|o ops Ho Hops IH]; intros out r l HR Hc; [done|]. cbn [fold_left fst snd].
    pose proof (ring_step_sim as_set o r l HR Ho) as Hstep. rewrite Hc in Hstep.
    destruct (ring_step o r) as [[b v] r'], (fifo_step (cap r0) o l) as [[b' v'] l'].
    destruct Hstep as (-> & -> & Hc' & HR'). by apply IH. }
  destruct (H [] r0 [] (ring_of_new _ _) eq_refl) as (Heq & Hc & HR).
  do 2 destruct (fold_left _ ops _). cbn [fst snd] in *. destruct HR. by rewrite <- Hc.
Qed.

Lemma ring_is_fifo_witness :
  let ops := [Put "a" "1"; Put "b" "2"; Put "a" "3"; Get "a"; Put "c" "4"; Get "a"; Get "c"] in
  Forall (op_allowed false) ops /\ (run_ops ring_step ops (newRingMap 2)).1 = (run_ops (fifo_step 2) ops []).1.
Proof.
  intros ops. assert (Ho : Forall (op_allowed false) ops) by (repeat constructor; done). split; [exact Ho|].
  pose proof (ring_is_fifo false 2 ops Ho) as H. cbn zeta in H.
  destruct (run_ops ring_step ops (newRingMap 2)) as [out r]. change (cap (newRingMap 2)) with 2 in H.
  destruct (run_ops (fifo_step 2) ops []) as [out' l]. by destruct H.
Defined.

Example ring_demo :
  (run_ops ring_step [Put "a" "1"; Put "b" "2"; Put "a" "3"; Get "a"; Put "c" "4"; Get "a"; Get "c"] (newRingMap 2)).1
  = [(false, None); (false, None); (false, None); (false, Some "3"); (false, None); (false, None); (false, Some "4")].
Proof. vm_compute. reflexivity. Qed.
