(* ===== verification/Search.v ===== *)
(** * internal/search: conversation search

    service.go (the tenant-scoped query) and indexer.go (the projection of bus
    events into the index). A request is a value, what the backend answers to
    it is chosen by the caller. JSON is the identity on dynamic values; the
    documents are written out with their [omitempty] fields.

    The indexer runs as atomic steps: the two halves of [Handle] (the id set
    and the channel send are separate critical sections of a goroutine), the
    worker's [project], and [Close]. *)

From Stdlib Require Import String Ascii.
From S2P Require Import Prelude GoStd AppErrors Events Text Float64 RingMap.

Local Open Scope Z_scope.

(** ** service.go *)

Definition KindUnavailable : Kind := KindOther "unavailable".

Definition ErrNotConfigured : Error :=
  New KindUnavailable "search.not_configured" "search is not configured on this deployment".

Definition unavailable (cause : error) : Error :=
  WithCause (New KindUnavailable "search.unavailable" "search is temporarily unavailable") cause.

Definition IndexConversations := "orvexa-conversations".
Definition DefaultLimit : Z := 25.
Definition MaxLimit : Z := 50.
Definition MaxQueryLen : Z := 256.
Definition EnvURL := "ORVEXA_OPENSEARCH_URL".

(** The client and the logger are left out. *)
Record Config := MkConfig {
  URL : string;
  Index : string;
  Timeout : Z;
}.

(** [os.Getenv] is the argument. *)
Definition NewServiceFromEnv (getenv : string -> string) : Config :=
  MkConfig (getenv EnvURL) (getenv "ORVEXA_OPENSEARCH_INDEX") 0.

Record Service := MkService { cfg : Config }.

Definition NewService (c : Config) : Service :=
  MkService (MkConfig (URL c) (if is_empty (Index c) then IndexConversations else Index c)
               (if Timeout c <=? 0 then 3000000000 else Timeout c)).

Definition Configured (s : Service) : bool := negb (is_empty (trim_space (URL (cfg s)))).

Record LastInteraction := MkLastInteraction {
  li_ID : string;
  li_Channel : string;
  li_Direction : string;
  li_Status : string;
}.

(** [doc] of indexer.go; absent instants are [None]. *)
Record doc := MkDoc {
  dc_TenantID : string;
  dc_ConversationID : string;
  dc_CustomerID : string;
  dc_Channel : string;
  dc_Status : string;
  dc_InteractionCount : Z;
  dc_LastInteraction : option LastInteraction;
  dc_SearchText : string;
  dc_OpenedAt : option Z;
  dc_UpdatedAt : option Z;
  dc_LastInteractionAt : option Z;
  dc_ClosedAt : option Z;
}.

Record Hit := MkHit {
  ht_ConversationID : string;
  ht_CustomerID : string;
  ht_Channel : string;
  ht_Status : string;
  ht_InteractionCount : Z;
  ht_LastInteraction : option LastInteraction;
  ht_OpenedAt : option Z;
  ht_UpdatedAt : option Z;
  ht_Score : float64;
}.

Record Result := MkResult {
  Total : Z;
  Limit : Z;
  Hits : list Hit;
}.

Record Request := MkRequest {
  rq_Method : string;
  rq_URL : string;
  rq_Body : option any;
}.

(** What [client.Do] comes to; a body is read or breaks off. *)
Inductive Reply :=
| NoReply (err : error)
| Answered (status : Z) (body : string + error).

(** The parsed query response. *)
Record Answer := MkAnswer {
  an_Total : Z;
  an_Hits : list (float64 * doc);
}.

(** The libraries: [http.NewRequestWithContext] refuses a URL it cannot parse,
    [json.Unmarshal] reads the response. *)
Class SearchPorts := {
  request_error : string -> option error;
  json_answer : string -> Answer + error;
}.

Definition hit_of (h : float64 * doc) : Hit :=
  MkHit (dc_ConversationID h.2) (dc_CustomerID h.2) (dc_Channel h.2) (dc_Status h.2) (dc_InteractionCount h.2)
    (dc_LastInteraction h.2) (dc_OpenedAt h.2) (dc_UpdatedAt h.2) h.1.

Definition query_body (tenantID q : string) (limit : Z) : dict :=
  [("size", VInt limit);
   ("query", VMap [("bool", VMap
      [("filter", VList [VMap [("term", VMap [("tenant_id", VStr tenantID)])]]);
       ("must", VList [VMap [("simple_query_string", VMap
          [("query", VStr q); ("fields", VList [VStr "search_text"; VStr "customer_id"; VStr "channel"]);
           ("default_operator", VStr "and")])]])])])].

(** [strings.TrimSuffix(s.cfg.URL, "/") + "/" + s.cfg.Index] *)
Definition endpoint (s : Service) (path : string) : string :=
  trim_suffix (URL (cfg s)) "/" +:+ "/" +:+ Index (cfg s) +:+ path.

Definition ok_status (status : Z) : bool := (200 <=? status) && (status <=? 299).

Section Search.
Context `{SearchPorts}.

(** The result and the requests sent. *)
Definition Search (s : Service) (tenantID q : string) (limit : Z) (reply : Request -> Reply)
    : (Result + Error) * list Request :=
  if negb (Configured s) then (inr ErrNotConfigured, [])
  else if is_empty (trim_space tenantID) then
    (inr (Invalid "search.tenant_required" "authenticated tenant is required"), [])
  else
  let q := trim_space q in
  if is_empty q then (inr (Invalid "search.query_required" "query parameter q is required"), [])
  else if MaxQueryLen <? Z.of_nat (String.length q) then
    (inr (Invalid "search.query_too_long" "query must be at most 256 characters"), [])
  else
  let limit := if limit <=? 0 then DefaultLimit else limit in
  let limit := if MaxLimit <? limit then MaxLimit else limit in
  let req := MkRequest "POST" (endpoint s "/_search") (Some (VMap (query_body tenantID q limit))) in
  match request_error (rq_URL req) with
  | Some err => (inr (unavailable err), [])
  | None =>
      (match reply req with
       | NoReply err => inr (unavailable err)
       | Answered status body =>
           if negb (ok_status status) then
             inr (unavailable (OtherErr ("opensearch returned status " +:+ itoa status) None))
           else
           match body with
           | inr err => inr (unavailable err)
           | inl payload =>
               match json_answer (stake 4194304 payload) with
               | inr err => inr (unavailable err)
               | inl a => inl (MkResult (an_Total a) limit (map hit_of (an_Hits a)))
               end
           end
       end, [req])
  end.
End Search.

(** ** indexer.go: documents *)

Definition opt_str (k v : string) : dict := if is_empty v then [] else [(k, VStr v)].
Definition opt_time (k : string) (v : option Z) : dict := match v with Some t => [(k, VTime t)] | None => [] end.

Definition li_json (l : LastInteraction) : any :=
  VMap (opt_str "id" (li_ID l) ++ opt_str "channel" (li_Channel l)
        ++ opt_str "direction" (li_Direction l) ++ opt_str "status" (li_Status l)).

Definition doc_json (d : doc) : any :=
  VMap ([("tenant_id", VStr (dc_TenantID d)); ("conversation_id", VStr (dc_ConversationID d))]
        ++ opt_str "customer_id" (dc_CustomerID d) ++ opt_str "channel" (dc_Channel d)
        ++ opt_str "status" (dc_Status d)
        ++ (if dc_InteractionCount d =? 0 then [] else [("interaction_count", VInt (dc_InteractionCount d))])
        ++ match dc_LastInteraction d with Some l => [("last_interaction", li_json l)] | None => [] end
        ++ opt_str "search_text" (dc_SearchText d)
        ++ opt_time "opened_at" (dc_OpenedAt d) ++ opt_time "updated_at" (dc_UpdatedAt d)
        ++ opt_time "last_interaction_at" (dc_LastInteractionAt d) ++ opt_time "closed_at" (dc_ClosedAt d)).

Section Documents.
Context `{Unicode}.

Definition searchTextOf (parts : list string) : string :=
  Join (omap (fun p => let p := trim_space p in if is_empty p then None else Some (ToLower p)) parts) " ".

Definition conversationDoc (tenantID convID customerID channel : string) (now : Z) : doc :=
  MkDoc tenantID convID customerID channel "open" 0 None (searchTextOf [channel; customerID])
    (Some now) (Some now) None None.

Definition upsertDoc (tenantID convID customerID channel : string) (last : LastInteraction) (now : Z) : doc :=
  let d := conversationDoc tenantID convID customerID channel now in
  MkDoc (dc_TenantID d) (dc_ConversationID d) (dc_CustomerID d) (dc_Channel d) (dc_Status d)
    (dc_InteractionCount d) (Some last) (dc_SearchText d) (dc_OpenedAt d) (dc_UpdatedAt d)
    (Some now) (dc_ClosedAt d).
End Documents.

Definition nl : string := String "010"%char "".

Definition script_touch : string :=
  "ctx._source.last_interaction = params.last_interaction;" +:+ nl +:+
  "ctx._source.last_interaction_at = params.at;" +:+ nl +:+
  "ctx._source.updated_at = params.at;" +:+ nl +:+
  "if (params.search_text != null && ctx._source.search_text != null && ctx._source.search_text.indexOf(params.search_text) == -1) {" +:+ nl +:+
  "  ctx._source.search_text = ctx._source.search_text + ' ' + params.search_text;" +:+ nl +:+ "}" +:+ nl.

Definition scriptInteractionCreated : string :=
  nl +:+ "ctx._source.interaction_count = (ctx._source.interaction_count == null ? 1 : ctx._source.interaction_count + 1);"
  +:+ nl +:+ script_touch.

Definition scriptInteractionTouched : string := nl +:+ script_touch.

(** ** indexer.go: the consumer *)

Definition projectedTopics : list string :=
  [TopicConversationOpened; TopicConversationClosed; TopicInteractionCreated; TopicInteractionUpdated;
   TopicInteractionAssigned; TopicInteractionCompleted].

Definition isProjected (topic : string) : bool := existsb (String.eqb topic) projectedTopics.

Definition DefaultQueueSize : Z := 1024.
Definition DefaultDedupeSize : Z := 8192.

Record IndexerConfig := MkIndexerConfig {
  QueueSize : Z;
  DedupeSize : Z;
}.

Record IndexerStats := MkIndexerStats {
  Indexed : Z;
  Dropped : Z;
  Failed : Z;
  Deduped : Z;
  Skipped : Z;
}.

(** [inflight]: the events of handlers between the two halves of [Handle].
    The code's [closed] flag is never set and is left out. *)
Record Indexer := MkIndexer {
  svc : Service;
  qcap : nat;
  queue : list Envelope;
  inflight : list Envelope;
  seen : ringMap;
  convOf : ringMap;
  stats : IndexerStats;
  quit : bool;
}.

Definition NewIndexer (s : Service) (c : IndexerConfig) : Indexer :=
  let qs := if QueueSize c <=? 0 then DefaultQueueSize else QueueSize c in
  let ds := if DedupeSize c <=? 0 then DefaultDedupeSize else DedupeSize c in
  MkIndexer s (Z.to_nat qs) [] [] (newRingMap ds) (newRingMap ds) (MkIndexerStats 0 0 0 0 0) false.

Definition with_stats (f : IndexerStats -> IndexerStats) (ix : Indexer) : Indexer :=
  MkIndexer (svc ix) (qcap ix) (queue ix) (inflight ix) (seen ix) (convOf ix) (f (stats ix)) (quit ix).

Definition indexed_1 (s : IndexerStats) := MkIndexerStats (Indexed s + 1) (Dropped s) (Failed s) (Deduped s) (Skipped s).
Definition dropped_1 (s : IndexerStats) := MkIndexerStats (Indexed s) (Dropped s + 1) (Failed s) (Deduped s) (Skipped s).
Definition failed_1 (s : IndexerStats) := MkIndexerStats (Indexed s) (Dropped s) (Failed s + 1) (Deduped s) (Skipped s).
Definition deduped_1 (s : IndexerStats) := MkIndexerStats (Indexed s) (Dropped s) (Failed s) (Deduped s + 1) (Skipped s).
Definition skipped_1 (s : IndexerStats) := MkIndexerStats (Indexed s) (Dropped s) (Failed s) (Deduped s) (Skipped s + 1).

(** [Handle] up to the id set; [true]: the event goes on to the channel. *)
Definition handle_seen (env : Envelope) (ix : Indexer) : option Error * bool * Indexer :=
  if negb (isProjected (e_Type env)) then (None, false, ix)
  else if negb (Configured (svc ix)) then (Some ErrNotConfigured, false, ix)
  else
  let '(dup, seen') := putIfAbsent (e_ID env) (seen ix) in
  if dup then (None, false, with_stats deduped_1 ix)
  else (None, true, MkIndexer (svc ix) (qcap ix) (queue ix) (inflight ix ++ [env]) seen' (convOf ix) (stats ix) (quit ix)).

(** The non-blocking send of the [n]th event in flight; [false]: dropped. *)
Definition handle_enqueue (n : nat) (ix : Indexer) : option (Envelope * bool) * Indexer :=
  match inflight ix !! n with
  | None => (None, ix)
  | Some env =>
      let rest := delete n (inflight ix) in
      if (length (queue ix) <? qcap ix)%nat then
        (Some (env, true), MkIndexer (svc ix) (qcap ix) (queue ix ++ [env]) rest (seen ix) (convOf ix) (stats ix) (quit ix))
      else
        (Some (env, false), with_stats dropped_1
           (MkIndexer (svc ix) (qcap ix) (queue ix) rest (seen ix) (convOf ix) (stats ix) (quit ix)))
  end.

Definition firstNonEmpty2 (a b : string) : string := if is_empty a then b else a.

Section Project.
Context `{SearchPorts} `{Unicode}.

(** [write]: one request, its fate counted. *)
Definition write (method path : string) (body : any) (reply : Request -> Reply) (ix : Indexer)
    : list Request * Indexer :=
  let req := MkRequest method (endpoint (svc ix) path) (Some body) in
  match request_error (rq_URL req) with
  | Some _ => ([], with_stats failed_1 ix)
  | None =>
      ([req], match reply req with
              | NoReply _ => with_stats failed_1 ix
              | Answered status _ => with_stats (if ok_status status then indexed_1 else failed_1) ix
              end)
  end.

Definition last_of (data : dict) (interID : string) : LastInteraction :=
  MkLastInteraction interID (dict_str data "channel") (dict_str data "direction") (dict_str data "status").

Definition update_body (script : string) (env : Envelope) (convID : string) (last : LastInteraction) (now : Z) : any :=
  let str := dict_str (e_Data env) in
  VMap [("script", VMap
           [("source", VStr script); ("lang", VStr "painless");
            ("params", VMap
               [("last_interaction", li_json last);
                ("search_text", VStr (ToLower (trim_space (str "channel" +:+ " " +:+ str "direction"))));
                ("at", VTime now)])]);
        ("upsert", doc_json (upsertDoc (e_TenantID env) convID (str "customer_id") (str "channel") last now))].

Definition project (env : Envelope) (now : Z) (reply : Request -> Reply) (ix : Indexer) : list Request * Indexer :=
  let str := dict_str (e_Data env) in
  let skip := ([], with_stats skipped_1 ix) in
  if String.eqb (e_Type env) TopicConversationOpened then
    let convID := firstNonEmpty2 (str "conversation_id") (e_Subject env) in
    if is_empty convID then skip
    else write "PUT" ("/_doc/" +:+ convID)
           (doc_json (conversationDoc (e_TenantID env) convID (str "customer_id") (str "channel") now)) reply ix
  else if String.eqb (e_Type env) TopicConversationClosed then
    let convID := firstNonEmpty2 (str "conversation_id") (e_Subject env) in
    if is_empty convID then skip
    else write "POST" ("/_update/" +:+ convID)
           (VMap [("doc", VMap [("tenant_id", VStr (e_TenantID env)); ("conversation_id", VStr convID);
                                ("status", VStr "closed"); ("closed_at", VTime now)]);
                  ("doc_as_upsert", VBool true)]) reply ix
  else if String.eqb (e_Type env) TopicInteractionCreated then
    let convID := str "conversation_id" in
    let interID := firstNonEmpty2 (str "interaction_id") (e_Subject env) in
    if is_empty convID || is_empty interID then skip
    else
    let ix := MkIndexer (svc ix) (qcap ix) (queue ix) (inflight ix) (seen ix) (put interID convID (convOf ix))
                (stats ix) (quit ix) in
    write "POST" ("/_update/" +:+ convID)
      (update_body scriptInteractionCreated env convID (last_of (e_Data env) interID) now) reply ix
  else if String.eqb (e_Type env) TopicInteractionUpdated || String.eqb (e_Type env) TopicInteractionAssigned
          || String.eqb (e_Type env) TopicInteractionCompleted then
    let interID := firstNonEmpty2 (str "interaction_id") (e_Subject env) in
    if is_empty interID then skip
    else match get interID (convOf ix) with
         | None => skip
         | Some convID =>
             write "POST" ("/_update/" +:+ convID)
               (update_body scriptInteractionTouched env convID (last_of (e_Data env) interID) now) reply ix
         end
  else ([], ix).

(** The round of [run] that takes the head of the queue. Its other two cases
    end the goroutine and touch nothing; after [Close] both may be ready, and
    the [select] may still take the queue. *)
Definition run_once (now : Z) (reply : Request -> Reply) (ix : Indexer) : option (Envelope * list Request) * Indexer :=
  match queue ix with
  | [] => (None, ix)
  | env :: q =>
      let '(reqs, ix') := project env now reply
        (MkIndexer (svc ix) (qcap ix) q (inflight ix) (seen ix) (convOf ix) (stats ix) (quit ix)) in
      (Some (env, reqs), ix')
  end.

(** ** ensureIndex *)

Definition keyword : any := VMap [("type", VStr "keyword")].
Definition date : any := VMap [("type", VStr "date")].

Definition mappings : dict :=
  [("settings", VMap [("index", VMap [("number_of_shards", VInt 1); ("number_of_replicas", VInt 0)])]);
   ("mappings", VMap [("properties", VMap
      [("tenant_id", keyword); ("conversation_id", keyword); ("customer_id", keyword); ("channel", keyword);
       ("direction", keyword); ("status", keyword); ("interaction_count", VMap [("type", VStr "integer")]);
       ("search_text", VMap [("type", VStr "text")]);
       ("last_interaction", VMap [("properties", VMap
          [("id", keyword); ("channel", keyword); ("direction", keyword); ("status", keyword)])]);
       ("opened_at", date); ("updated_at", date); ("last_interaction_at", date); ("closed_at", date)])])].

(** The error and the requests sent. *)
Definition ensureIndex (s : Service) (reply : Request -> Reply) : option error * list Request :=
  let url := endpoint s "" in
  match request_error url with
  | Some err => (Some err, [])
  | None =>
      let probe := MkRequest "GET" url None in
      match reply probe with
      | NoReply err => (Some err, [probe])
      | Answered status _ =>
          if status =? 200 then (None, [probe])
          else
          let create := MkRequest "PUT" url (Some (VMap mappings)) in
          (match reply create with
           | NoReply err => Some err
           | Answered status _ =>
               if status =? 400 then None
               else if negb (ok_status status) then
                 Some (OtherErr ("opensearch index create returned status " +:+ itoa status) None)
               else None
           end, [probe; create])
      end
  end.
End Project.

(** [Close], after the subscriptions are gone. *)
Definition Close (ix : Indexer) : Indexer :=
  MkIndexer (svc ix) (qcap ix) (queue ix) (inflight ix) (seen ix) (convOf ix) (stats ix) true.
