(* ===== verification/SearchProps.v ===== *)
(** * Properties of conversation search

    The query is scoped to the caller's tenant; the indexer accounts for every
    event under any interleaving; what the events of the interaction service
    do to a document. *)

From Stdlib Require Import String.
From S2P Require Import Prelude GoStd AppErrors Events Store Wp Text Float64 RingMap Search.
From S2P Require Interactions InteractionsProps.

Local Open Scope Z_scope.

Section props.
Context `{SearchPorts} `{Unicode}.

(** ** The indexer *)

(** The indexer with the history of its events: the projectable ones handed
    to it, those past the id set, those dropped, and those projected with the
    requests sent. *)
Record run := MkRun {
  r_ix : Indexer;
  r_handled : list Envelope;
  r_accepted : list Envelope;
  r_dropped : list Envelope;
  r_done : list (Envelope * list Request);
}.

Definition start (s : Service) (c : IndexerConfig) : run := MkRun (NewIndexer s c) [] [] [] [].

(** The atomic steps; the bus hands over validated envelopes, whose ids are
    not empty. The goroutine may take an event in any state, also after
    [Close]; that it ends at some point only leaves steps out. *)
Inductive step : run -> run -> Prop :=
| step_handle env ix h a d o res go ix' :
    e_ID env <> "" -> handle_seen env ix = (res, go, ix') ->
    step (MkRun ix h a d o)
      (MkRun ix' (if isProjected (e_Type env) && Configured (svc ix) then h ++ [env] else h)
         (if go : bool then a ++ [env] else a) d o)
| step_enqueue n ix h a d o env sent ix' :
    handle_enqueue n ix = (Some (env, sent), ix') ->
    step (MkRun ix h a d o) (MkRun ix' h a (if sent : bool then d else d ++ [env]) o)
| step_project now reply ix h a d o p ix' :
    run_once now reply ix = (Some p, ix') ->
    step (MkRun ix h a d o) (MkRun ix' h a d (o ++ [p]))
| step_close ix h a d o : step (MkRun ix h a d o) (MkRun (Close ix) h a d o).

Definition finished (s : IndexerStats) : Z := Indexed s + Failed s + Skipped s.

(** What a projection may change. *)
Record projected (ix ix' : Indexer) : Prop := {
  pj_svc : svc ix' = svc ix;
  pj_qcap : qcap ix' = qcap ix;
  pj_queue : queue ix' = queue ix;
  pj_inflight : inflight ix' = inflight ix;
  pj_seen : seen ix' = seen ix;
  pj_quit : quit ix' = quit ix;
  pj_finished : finished (stats ix') = finished (stats ix) + 1;
  pj_dropped : Dropped (stats ix') = Dropped (stats ix);
  pj_deduped : Deduped (stats ix') = Deduped (stats ix);
  pj_conv : convOf ix' = convOf ix \/ exists k v, k <> "" /\ v <> "" /\ convOf ix' = put k v (convOf ix);
}.

Lemma projected_stats ix f :
  finished (f (stats ix)) = finished (stats ix) + 1 -> Dropped (f (stats ix)) = Dropped (stats ix) ->
  Deduped (f (stats ix)) = Deduped (stats ix) -> projected ix (with_stats f ix).
Proof. intros H1 H2 H3. split; try done. by left. Qed.

Lemma projected_failed ix : projected ix (with_stats failed_1 ix).
Proof. apply projected_stats; unfold finished; simpl; lia. Qed.

Lemma projected_skipped ix : projected ix (with_stats skipped_1 ix).
Proof. apply projected_stats; unfold finished; simpl; lia. Qed.

Lemma projected_indexed ix : projected ix (with_stats indexed_1 ix).
Proof. apply projected_stats; unfold finished; simpl; lia. Qed.

Hint Resolve projected_failed projected_skipped projected_indexed : orvexa.

Lemma write_spec method path body reply ix :
  let '(reqs, ix') := write method path body reply ix in
  projected ix ix' /\ convOf ix' = convOf ix
  /\ (reqs = [] \/ reqs = [MkRequest method (endpoint (svc ix) path) (Some body)])
  /\ Indexed (stats ix') <= Indexed (stats ix) + Z.of_nat (length reqs).
Proof.
  unfold write. destruct (request_error _); [split_and!; auto with orvexa; simpl; lia|].
  destruct (reply _) as [|status b]; [split_and!; auto with orvexa; simpl; lia|].
  destruct (ok_status status); split_and!; auto with orvexa; simpl; lia.
Qed.

Lemma project_spec env now reply ix :
  isProjected (e_Type env) = true ->
  let '(reqs, ix') := project env now reply ix in
  projected ix ix' /\ (length reqs <= 1)%nat
  /\ Indexed (stats ix') <= Indexed (stats ix) + Z.of_nat (length reqs).
Proof.
  intros Hp. assert (Hw : forall m p b, let '(reqs, ix') := write m p b reply ix in
    projected ix ix' /\ (length reqs <= 1)%nat /\ Indexed (stats ix') <= Indexed (stats ix) + Z.of_nat (length reqs)).
  { intros m p b. pose proof (write_spec m p b reply ix) as Hw. destruct (write m p b reply ix) as [reqs ix'].
    destruct Hw as (Hj & _ & [-> | ->] & Hi); simpl in *; auto with lia. }
  assert (Hskip : projected ix (with_stats skipped_1 ix) /\ (length ([] : list Request) <= 1)%nat
    /\ Indexed (stats (with_stats skipped_1 ix)) <= Indexed (stats ix) + 0) by (split_and!; auto with orvexa; simpl; lia).
  unfold project. cbv zeta. destruct (String.eqb (e_Type env) TopicConversationOpened) eqn:E1.
  { destruct (is_empty _); [exact Hskip|apply Hw]. }
  destruct (String.eqb (e_Type env) TopicConversationClosed) eqn:E2.
  { destruct (is_empty _); [exact Hskip|apply Hw]. }
  destruct (String.eqb (e_Type env) TopicInteractionCreated) eqn:E3.
  - destruct (is_empty (dict_str _ _)) eqn:Ec; [exact Hskip|].
    destruct (is_empty (firstNonEmpty2 _ _)) eqn:Ei; [exact Hskip|]. cbn [orb].
    apply is_empty_false in Ec, Ei. set (ix1 := MkIndexer _ _ _ _ _ _ _ _).
    pose proof (write_spec "POST" ("/_update/" +:+ dict_str (e_Data env) "conversation_id")
      (update_body scriptInteractionCreated env (dict_str (e_Data env) "conversation_id")
         (last_of (e_Data env) (firstNonEmpty2 (dict_str (e_Data env) "interaction_id") (e_Subject env))) now) reply ix1) as Hw1.
    destruct (write _ _ _ reply ix1) as [reqs ix']. destruct Hw1 as (Hj & Hc & Hr & Hi).
    split_and!; [|by destruct Hr as [-> | ->]; simpl; lia|done]. destruct Hj. split; try done. right. eauto.
  - destruct (_ || _ || _) eqn:E4.
    { destruct (is_empty _); [exact Hskip|]. destruct (get _ _); [apply Hw|exact Hskip]. }
    exfalso. unfold isProjected in Hp.
    rewrite !orb_false_iff in E4. destruct E4 as [[E4 E5] E6]. simpl in Hp. by rewrite E1, E2, E3, E4, E5, E6 in Hp.
Qed.

Definition ids (l : list Envelope) : list string := map e_ID l.

Record inv (s : Service) (c : IndexerConfig) (x : run) : Prop := {
  inv_svc : svc (r_ix x) = svc (NewIndexer s c);
  inv_qcap : qcap (r_ix x) = qcap (NewIndexer s c);
  inv_queue : (length (queue (r_ix x)) <= qcap (r_ix x))%nat;
  inv_topics : Forall (fun v => isProjected (e_Type v) = true) (inflight (r_ix x) ++ queue (r_ix x));
  inv_fates : r_accepted x ≡ₚ inflight (r_ix x) ++ queue (r_ix x) ++ r_dropped x ++ (r_done x).*1;
  inv_deduped : Z.of_nat (length (r_handled x)) = Z.of_nat (length (r_accepted x)) + Deduped (stats (r_ix x));
  inv_dropped : Dropped (stats (r_ix x)) = Z.of_nat (length (r_dropped x));
  inv_done : finished (stats (r_ix x)) = Z.of_nat (length (r_done x));
  inv_indexed : Indexed (stats (r_ix x)) <= Z.of_nat (length (concat (r_done x).*2));
  inv_requests : Forall (fun p => (length p.2 <= 1)%nat) (r_done x);
  inv_cap : cap (seen (r_ix x)) = cap (seen (NewIndexer s c)) /\ cap (convOf (r_ix x)) = cap (seen (NewIndexer s c));
  inv_conv : exists l, ring_of (val_ok false) (convOf (r_ix x)) l;
  inv_seen : exists l, ring_of (val_ok true) (seen (r_ix x)) l
    /\ l.*1 = drop (length (r_accepted x) - cap (seen (r_ix x))) (ids (r_accepted x));
  inv_spaced : forall i j id, ids (r_accepted x) !! i = Some id -> ids (r_accepted x) !! j = Some id ->
    (i < j)%nat -> (i + cap (seen (r_ix x)) < j)%nat;
}.

Lemma inv_start s c : inv s c (start s c).
Proof.
  split; unfold start; cbn [r_ix r_handled r_accepted r_dropped r_done]; try done; try (simpl; lia).
  - exists []. apply ring_of_new.
  - exists []. split; [apply ring_of_new|done].
Qed.

(** The list of a set of ids after the next one. *)
Lemma seen_next (acc : list Envelope) (c : nat) (l : bindings) id :
  (0 < c)%nat -> (length l <= c)%nat -> l.*1 = drop (length acc - c) (ids acc) ->
  (fifo_add c id "" l).*1 = drop (S (length acc) - c) (ids acc ++ [id]).
Proof.
  intros Hc Hle Hl. assert (Hlen : length l = (length acc - (length acc - c))%nat).
  { rewrite <- (length_fmap fst), Hl, length_drop. unfold ids. by rewrite length_map. }
  unfold fifo_add. rewrite fmap_app, drop_app_le by (unfold ids; rewrite length_map; lia). f_equal.
  case_decide as Hf.
  - rewrite <- (Nat.add_1_r (length acc)). replace (length acc + 1 - c)%nat with ((length acc - c) + 1)%nat by lia.
    rewrite <- drop_drop, <- Hl. by destruct l.
  - rewrite Hl. f_equal. lia.
Qed.

(** The fate of the id set and of the accepted ids when an event is accepted. *)
Lemma seen_accept acc v (r : ringMap) l :
  ring_of (val_ok true) r l -> l.*1 = drop (length acc - cap r) (ids acc) -> e_ID v <> "" ->
  (forall i j id, ids acc !! i = Some id -> ids acc !! j = Some id -> (i < j)%nat -> (i + cap r < j)%nat) ->
  let '(dup, r') := putIfAbsent (e_ID v) r in
  cap r' = cap r /\
  if dup then r' = r else
    (exists l', ring_of (val_ok true) r' l' /\ l'.*1 = drop (length (acc ++ [v]) - cap r) (ids (acc ++ [v])))
    /\ forall i j id, ids (acc ++ [v]) !! i = Some id -> ids (acc ++ [v]) !! j = Some id -> (i < j)%nat -> (i + cap r < j)%nat.
Proof.
  intros HR Hl Hv Hsp. pose proof (ring_step_sim true (PutIfAbsent (e_ID v)) r l HR (conj eq_refl Hv)) as Hstep.
  cbn [ring_step fifo_step] in Hstep. unfold putIfAbsent, fifo_putIfAbsent in *.
  pose proof (ring_map _ _ _ HR) as Hm. rewrite fifo_get_map, <- Hm in Hstep.
  destruct (rm_m r !! e_ID v) as [|] eqn:E; [done|]. destruct Hstep as (_ & _ & Hc & HR').
  rewrite Hm in E. apply not_elem_of_list_to_map in E.
  assert (Hids : ids (acc ++ [v]) = ids acc ++ [e_ID v]) by (unfold ids; by rewrite map_app).
  assert (Hla : length (ids acc) = length acc) by (unfold ids; by rewrite length_map).
  split; [done|]. split.
  - eexists. split; [exact HR'|]. rewrite Hids, length_app, Nat.add_1_r.
    apply seen_next; [by destruct HR|by destruct HR|done].
  - rewrite Hids. intros i j id Hi Hj Hij. pose proof (lookup_lt_Some _ _ _ Hj) as Hjl. rewrite length_app in Hjl. simpl in Hjl.
    rewrite lookup_app_l in Hi by lia. destruct (decide (j < length (ids acc))%nat).
    + rewrite lookup_app_l in Hj by lia. eauto.
    + rewrite lookup_app_r in Hj by lia. replace (j - length (ids acc))%nat with 0%nat in Hj by lia. injection Hj as <-.
      destruct (decide (i + cap r < j)%nat); [done|]. destruct E. rewrite Hl. apply list_elem_of_lookup.
      exists (i - (length acc - cap r))%nat. rewrite lookup_drop. by replace (length acc - cap r + (i - (length acc - cap r)))%nat with i by lia.
Qed.

Ltac inv_auto := cbn [r_ix r_handled r_accepted r_dropped r_done svc qcap queue inflight seen convOf stats quit Close
  with_stats dropped_1 deduped_1 Dropped Deduped Indexed Failed Skipped finished] in *.

Lemma inv_handle s c env ix h a d o res go ix' :
  inv s c (MkRun ix h a d o) -> e_ID env <> "" -> handle_seen env ix = (res, go, ix') ->
  inv s c (MkRun ix' (if isProjected (e_Type env) && Configured (svc ix) then h ++ [env] else h)
             (if go : bool then a ++ [env] else a) d o).
Proof.
  intros Hinv Hid Hh. unfold handle_seen in Hh. destruct (isProjected (e_Type env)) eqn:Ep; cbn [negb andb] in *;
    [|by injection Hh as <- <- <-].
  destruct (Configured (svc ix)); cbn [negb] in *; [|by injection Hh as <- <- <-].
  destruct Hinv as [? ? ? Htop Hf Hd ? ? ? ? [Hcap ?] ? (l & Hr & Hl) Hsp]. inv_auto.
  pose proof (seen_accept a env (seen ix) l Hr Hl Hid Hsp) as Hacc.
  destruct (putIfAbsent (e_ID env) (seen ix)) as [[|] r'].
  - injection Hh as <- <- <-. split; inv_auto; try done; [|by eexists]. rewrite length_app. simpl. lia.
  - injection Hh as <- <- <-. destruct Hacc as (Hc & Hl' & Hsp'). split; inv_auto; try done.
    + rewrite <- app_assoc. apply Forall_app in Htop as [? ?]. apply Forall_app. split; [done|]. by constructor.
    + rewrite Hf. solve_Permutation.
    + rewrite !length_app. simpl. lia.
    + by rewrite Hc.
    + by rewrite Hc.
    + by rewrite Hc.
Qed.

Lemma inv_enqueue s c n ix h a d o env sent ix' :
  inv s c (MkRun ix h a d o) -> handle_enqueue n ix = (Some (env, sent), ix') ->
  inv s c (MkRun ix' h a (if sent : bool then d else d ++ [env]) o).
Proof.
  intros [? ? Hq Htop Hf Hd ? ? ? ? ? ? ? ?] He. unfold handle_enqueue in He. inv_auto.
  destruct (inflight ix !! n) as [v|] eqn:En; [|done].
  pose proof (delete_Permutation _ _ _ En) as Hdel. rewrite Hdel in Hf, Htop.
  apply Forall_cons in Htop as [Hv Htop]. destruct (Nat.ltb_spec (length (queue ix)) (qcap ix)).
  - injection He as <- <- <-. split; inv_auto; try done.
    + rewrite length_app. simpl. lia.
    + rewrite app_assoc. apply Forall_app. split; [done|by constructor].
    + rewrite Hf. solve_Permutation.
  - injection He as <- <- <-. split; inv_auto; try done.
    + rewrite Hf. solve_Permutation.
    + rewrite length_app. simpl. lia.
Qed.

Lemma inv_project s c now reply ix h a d o p ix' :
  inv s c (MkRun ix h a d o) -> run_once now reply ix = (Some p, ix') -> inv s c (MkRun ix' h a d (o ++ [p])).
Proof.
  intros [? ? Hq Htop Hf Hd ? Hdone Hind Hreq [? ?] (lc & Hc) ? ?] Hp. unfold run_once in Hp. inv_auto.
  destruct (queue ix) as [|v q] eqn:Eq; [done|].
  set (ix1 := MkIndexer _ _ q _ _ _ _ _) in Hp.
  assert (isProjected (e_Type v) = true /\ Forall (fun v => isProjected (e_Type v) = true) (inflight ix ++ q)) as [Hv Htop'].
  { apply Forall_app in Htop as [? [? ?]%Forall_cons]. split; [done|]. by apply Forall_app. }
  pose proof (project_spec v now reply ix1 Hv) as Hps. destruct (project v now reply ix1) as [reqs ix2].
  injection Hp as <- <-. destruct Hps as (Hj & Hr1 & Hi). destruct Hj. unfold ix1 in *. inv_auto.
  split; inv_auto; try congruence.
  - rewrite pj_queue0, pj_qcap0. simpl in Hq. lia.
  - rewrite pj_inflight0, pj_queue0, Hf, fmap_app. simpl. solve_Permutation.
  - unfold finished in *. inv_auto. rewrite length_app. simpl. lia.
  - rewrite fmap_app, concat_app, length_app. simpl. rewrite app_nil_r. lia.
  - apply Forall_app. split; [done|by constructor].
  - destruct pj_conv0 as [-> | (k & w & Hk & Hw & ->)]; [by split; congruence|].
    pose proof (ring_step_sim false (Put k w) _ _ Hc (conj eq_refl (conj Hk Hw))) as Hs. cbn [ring_step fifo_step] in Hs.
    destruct Hs as (_ & _ & Hcap & _). split; congruence.
  - destruct pj_conv0 as [-> | (k & w & Hk & Hw & ->)]; [by eexists|].
    pose proof (ring_step_sim false (Put k w) _ _ Hc (conj eq_refl (conj Hk Hw))) as Hs. cbn [ring_step fifo_step] in Hs.
    destruct Hs as (_ & _ & _ & Hs). by eexists.
  - by rewrite pj_seen0.
  - by rewrite pj_seen0.
Qed.

Lemma inv_step s c x y : inv s c x -> step x y -> inv s c y.
Proof.
  intros Hinv Hs. destruct Hs; [by eapply inv_handle|by eapply inv_enqueue|by eapply inv_project|].
  destruct Hinv. by split.
Qed.

Lemma inv_reachable s c x : rtc step (start s c) x -> inv s c x.
Proof. intros Hr. eapply rtc_ind_r with (P := inv s c); [apply inv_start| |exact Hr]. intros y z _ Hyz IH. by eapply inv_step. Qed.

(** C31. The indexer under every interleaving of its goroutines and any answers
    of the backend. Each event it accepts meets one fate: it is between the
    halves of its handler, queued, dropped, or projected with at most one
    request; the counters say how many met which; the queue and both id tables
    stay within their sizes; and an event id is accepted a second time only
    after more than [DedupeSize] other events were. *)
Theorem indexer_accounting s c x (Hreach : rtc step (start s c) x) :
  let ix := r_ix x in
  let ds := cap (seen (NewIndexer s c)) in
  r_accepted x ≡ₚ inflight ix ++ queue ix ++ r_dropped x ++ (r_done x).*1
  /\ Forall (fun p => (length p.2 <= 1)%nat) (r_done x)
  /\ Z.of_nat (length (r_handled x)) = Z.of_nat (length (r_accepted x)) + Deduped (stats ix)
  /\ Dropped (stats ix) = Z.of_nat (length (r_dropped x))
  /\ Indexed (stats ix) + Failed (stats ix) + Skipped (stats ix) = Z.of_nat (length (r_done x))
  /\ Indexed (stats ix) <= Z.of_nat (length (concat (r_done x).*2))
  /\ (length (queue ix) <= qcap (NewIndexer s c))%nat
  /\ (size (rm_m (seen ix)) <= ds)%nat /\ (size (rm_m (convOf ix)) <= ds)%nat
  /\ forall i j vi vj, r_accepted x !! i = Some vi -> r_accepted x !! j = Some vj -> e_ID vi = e_ID vj ->
       (i < j)%nat -> (i + ds < j)%nat.
Proof.
  assert (Hsize : forall P (r : ringMap) l, ring_of P r l -> (size (rm_m r) <= cap r)%nat).
  { intros P r l [_ _ _ _ Hf Hd _ Hm]. rewrite Hm, <- size_dom, dom_list_to_map_L, size_list_to_set by done.
    by rewrite length_fmap. }
  destruct (inv_reachable _ _ _ Hreach) as [? Hqc Hq _ Hf Hd Hdr Hdo Hi Hr [Hc1 Hc2] (l1 & Hl1) (l2 & Hl2 & _) Hsp].
  cbn zeta. apply Hsize in Hl1, Hl2. rewrite <- Hqc, <- Hc1. split_and!; try done; [congruence|].
  intros i j vi vj Hvi Hvj Hid. apply (Hsp i j (e_ID vi)); unfold ids; rewrite list_lookup_fmap.
  - by rewrite Hvi.
  - rewrite Hvj. simpl. congruence.
Qed.

(** The query. Whatever the backend answers, [Search] sends at most one
    request, and that one carries the caller's tenant as an exact term filter,
    a trimmed query of 1 to 256 bytes and a size from 1 to 50; nothing is sent
    without a backend, a tenant or a query. A result comes only from a
    successful answer that parses; every failure after the checks is
    [search.unavailable]. *)
Lemma search_tenant_scoped s tenantID q limit reply :
  let '(res, reqs) := Search s tenantID q limit reply in
  (reqs = [] \/ exists q' n, reqs = [MkRequest "POST" (endpoint s "/_search") (Some (VMap (query_body tenantID q' n)))]
     /\ Configured s = true /\ trim_space tenantID <> "" /\ q' = trim_space q
     /\ (1 <= String.length q' <= 256)%nat /\ 1 <= n <= MaxLimit /\ (1 <= limit <= MaxLimit -> n = limit))
  /\ match res with
     | inl r => exists req status payload a, reqs = [req] /\ reply req = Answered status (inl payload)
         /\ 200 <= status <= 299 /\ json_answer (stake 4194304 payload) = inl a
         /\ Total r = an_Total a /\ length (Hits r) = length (an_Hits a) /\ 1 <= Limit r <= MaxLimit
     | inr err => reqs = [] \/ (ErrKind err = KindUnavailable /\ Code err = "search.unavailable")
     end.
Proof.
  unfold Search. destruct (Configured s) eqn:Ec; [|split; by left]. cbn [negb].
  destruct (is_empty (trim_space tenantID)) eqn:Et; [split; by left|]. cbv zeta.
  destruct (is_empty (trim_space q)) eqn:Eq; [split; by left|].
  destruct (Z.ltb_spec MaxQueryLen (Z.of_nat (String.length (trim_space q)))) as [|Hlen]; [split; by left|].
  set (n1 := if limit <=? 0 then DefaultLimit else limit). set (n := if MaxLimit <? n1 then MaxLimit else n1).
  assert (Hn : 1 <= n <= MaxLimit /\ (1 <= limit <= MaxLimit -> n = limit)).
  { unfold n, n1, MaxLimit, DefaultLimit. destruct (Z.leb_spec limit 0); [simpl; lia|]. destruct (Z.ltb_spec 50 limit); lia. }
  cbn [rq_URL]. destruct (request_error _); [split; by left|].
  apply is_empty_false in Et, Eq. split.
  - right. exists (trim_space q), n. split_and!; try done; try apply Hn; unfold MaxQueryLen in *; try lia.
    destruct (trim_space q); [done|simpl; lia].
  - destruct (reply _) as [err|status body] eqn:Er; [by right; split|]. unfold ok_status.
    destruct (Z.leb_spec 200 status); [|by right; split]. destruct (Z.leb_spec status 299); [|by right; split]. cbn [andb negb].
    destruct body as [payload|err]; [|by right; split]. destruct (json_answer _) as [a|err] eqn:Ea; [|by right; split].
    do 4 eexists. split; [done|]. split; [exact Er|]. split; [done|]. split; [exact Ea|].
    cbn [Total Hits Limit]. rewrite length_map. by split_and!; try apply Hn.
Qed.

(** What a status change does to the search index. Every transition the
    interaction service commits leaves one event; projected, it updates the
    conversation's document with a last interaction of which nothing but the id
    is left: no channel, no direction and no status, neither the old ones nor
    the new one. *)
Lemma transition_erases_last_interaction source t id to reason e st r st' :
  Interactions.TransitionTo source t id to reason e st = (Ok r, st') -> id <> "" ->
  exists v, d_outbox (committed st') = d_outbox (committed st) ++ [MkOutboxRow v "pending" 0 "" None]
  /\ forall now reply ix conv,
       get id (convOf ix) = Some conv -> request_error (endpoint (svc ix) ("/_update/" +:+ conv)) = None ->
       exists upsert, (project v now reply ix).1 =
         [MkRequest "POST" (endpoint (svc ix) ("/_update/" +:+ conv)) (Some (VMap
            [("script", VMap [("source", VStr scriptInteractionTouched); ("lang", VStr "painless");
               ("params", VMap [("last_interaction", VMap [("id", VStr id)]);
                                ("search_text", VStr ""); ("at", VTime now)])]);
             ("upsert", upsert)]))].
Proof.
  intros Hrun Hid.
  assert (wp (Interactions.TransitionTo source t id to reason) e st (fun res st' => forall r, res = Ok r ->
    exists v from, InteractionsProps.transition_event v t id from to reason
      /\ d_outbox (committed st') = d_outbox (committed st) ++ [MkOutboxRow v "pending" 0 "" None])) as Hwp.
  { apply InteractionsProps.wp_TransitionTo; [by intros ? ? ? ? [=]|].
    intros r0 now tm v n x Hsel Htr Hev r' d'. split; intros r1 [=]. by eauto. }
  unfold wp in Hwp. rewrite Hrun in Hwp. destruct (Hwp r eq_refl) as (v & from & (Hty & _ & Hsu & Hda) & Hout).
  exists v. split; [done|].
    intros now reply ix conv Hconv Hreq. unfold project. rewrite Hty, Hda.
    unfold InteractionsProps.transition_event, Interactions.transition_topic in *.
    assert (Hi : firstNonEmpty2 (dict_str (Interactions.transition_data id from to (if Interactions.Terminal to then reason else ""))
                   "interaction_id") (e_Subject v) = id).
    { unfold firstNonEmpty2. change (dict_str _ "interaction_id") with id. by rewrite (proj2 (is_empty_false id) Hid). }
    cbv zeta. rewrite Hi, (proj2 (is_empty_false id) Hid), Hconv. unfold write. cbn [rq_URL].
    eexists. destruct (String.eqb to _); cbn [String.eqb]; rewrite Hreq; cbn [fst];
      unfold update_body, last_of, li_json, opt_str; rewrite Hda; cbn [li_ID li_Channel li_Direction li_Status];
      rewrite (proj2 (is_empty_false id) Hid); reflexivity.
Qed.
End props.

(** ** Concrete runs *)

#[local] Instance demo_unicode : Unicode := {| unicode_ToLower := fun s => s |}.

(** Every URL parses, every response is an empty answer. *)
#[local] Instance demo_ports : SearchPorts := {|
  request_error := fun _ => None;
  json_answer := fun _ => inl (MkAnswer 0 []);
|}.

Definition demo_service : Service := NewService (MkConfig "http://localhost:9200/" "" 0).

Definition demo_event : Envelope :=
  MkEnvelope "e1" TopicInteractionCreated "api" "i1" "t1" "" 0
    [("interaction_id", VStr "i1"); ("conversation_id", VStr "c1"); ("channel", VStr "voice")].

(** One event, handed over twice and projected once. *)
Definition demo_run : run :=
  let ix0 := NewIndexer demo_service (MkIndexerConfig 2 2) in
  let ix1 := (handle_seen demo_event ix0).2 in
  let ix2 := (handle_seen demo_event ix1).2 in
  let ix3 := (handle_enqueue 0 ix2).2 in
  let p := run_once 7 (fun _ => Answered 201 (inl "")) ix3 in
  MkRun p.2 [demo_event; demo_event] [demo_event] [] (match p.1 with Some x => [x] | None => [] end).

Lemma demo_run_reachable : rtc step (start demo_service (MkIndexerConfig 2 2)) demo_run.
Proof.
  eapply rtc_l; [by eapply (step_handle demo_event); [discriminate|vm_compute; reflexivity]|].
  eapply rtc_l; [by eapply (step_handle demo_event); [discriminate|vm_compute; reflexivity]|].
  eapply rtc_l; [by eapply (step_enqueue 0); vm_compute; reflexivity|].
  eapply rtc_l; [by eapply (step_project 7 (fun _ => Answered 201 (inl ""))); vm_compute; reflexivity|].
  vm_compute. apply rtc_refl.
Qed.

Lemma indexer_accounting_witness :
  Deduped (stats (r_ix demo_run)) = 1 /\ Indexed (stats (r_ix demo_run)) = 1
  /\ (size (rm_m (seen (r_ix demo_run))) <= 2)%nat.
Proof.
  destruct (indexer_accounting demo_service (MkIndexerConfig 2 2) demo_run demo_run_reachable)
    as (_ & _ & _ & _ & _ & _ & _ & H & _).
  split; [vm_compute; reflexivity|]. split; [vm_compute; reflexivity|]. exact H.
Defined.

Definition demo_transition : result Rec * st :=
  Interactions.TransitionTo "api" "t1" "i1" "failed" "busy" env0 (MkSt InteractionsProps.db_call None 0).

Lemma transition_erases_last_interaction_witness :
  exists r st' v, demo_transition = (Ok r, st') /\ d_outbox (committed st') = [MkOutboxRow v "pending" 0 "" None]
  /\ length (project v 9 (fun _ => Answered 200 (inl "")) (MkIndexer demo_service 2 [] [] (newRingMap 2)
       (put "i1" "c1" (newRingMap 2)) (MkIndexerStats 0 0 0 0 0) false)).1 = 1%nat.
Proof.
  destruct demo_transition as [res st'] eqn:E. destruct res as [r|x]; [|vm_compute in E; discriminate].
  assert ("i1" <> "") as Hid by discriminate.
  destruct (transition_erases_last_interaction "api" "t1" "i1" "failed" "busy" env0 (MkSt InteractionsProps.db_call None 0) r st' E Hid)
    as (v & Hout & Hv).
  exists r, st', v. split; [done|]. split; [exact Hout|].
  destruct (Hv 9 (fun _ => Answered 200 (inl "")) (MkIndexer demo_service 2 [] [] (newRingMap 2)
       (put "i1" "c1" (newRingMap 2)) (MkIndexerStats 0 0 0 0 0) false) "c1" eq_refl eq_refl) as [up ->]. reflexivity.
Defined.
