(* ===== verification/Analytics.v ===== *)
(** * internal/analytics/service.go: facts and their aggregation

    The Postgres fact consumer and the summary over a window. The two fact
    tables are a state of their own, keyed by event id; a uuid column takes the
    text [pg_uuid] accepts. Instants keep their nanoseconds. *)

From Stdlib Require Import String.
From S2P Require Import Prelude GoStd AppErrors Events Workflows.

Local Open Scope Z_scope.

Record InteractionRow := MkInteractionRow {
  ir_EventID : string;
  ir_TenantID : string;
  ir_InteractionID : string;
  ir_Channel : string;
  ir_Direction : string;
  ir_Status : string;
  ir_OccurredAt : Z;
}.

Record UsageRow := MkUsageRow {
  ur_EventID : string;
  ur_TenantID : string;
  ur_Metric : string;
  ur_Amount : Z;
  ur_OccurredAt : Z;
}.

Record Facts := MkFacts {
  interaction_fact : gmap string InteractionRow;
  usage_fact : gmap string UsageRow;
}.

(** uuid texts in canonical form, as PostgreSQL and as google/uuid read them. *)
Class UUIDs := {
  pg_uuid : string -> option string;
  go_uuid : string -> option string;
}.

Definition write_failed (cause : error) : Error :=
  WithCause (Internal "analytics.write_failed" "fact append failed") cause.

(** Whether the topic has a fact table, and which. *)
Definition is_interaction_topic (topic : string) : bool :=
  String.eqb topic TopicInteractionCreated || String.eqb topic TopicInteractionUpdated
  || String.eqb topic TopicInteractionCompleted.

Definition invalid_uuid : error := OtherErr "invalid input syntax for type uuid" None.

(** A JSON number, integers here; any other value leaves zero. *)
Definition amount_of (data : dict) : Z := match dict_get data "output_tokens" with Some (VInt n) => n | _ => 0 end.

Section Consumer.
Context `{UUIDs}.

(** [ON CONFLICT (event_id) DO NOTHING]; the columns' texts are cast first. *)
Definition ins_interaction_fact (eventID tenantID interactionID channel direction status : string) (at_ : Z)
    (f : Facts) : option Facts :=
  match pg_uuid eventID, pg_uuid tenantID, pg_uuid interactionID with
  | Some ev, Some t, Some i =>
      Some (match interaction_fact f !! ev with
            | Some _ => f
            | None => MkFacts (<[ev := MkInteractionRow ev t i channel direction status at_]> (interaction_fact f))
                        (usage_fact f)
            end)
  | _, _, _ => None
  end.

Definition ins_usage_fact (eventID tenantID metric : string) (amount at_ : Z) (f : Facts) : option Facts :=
  match pg_uuid eventID, pg_uuid tenantID with
  | Some ev, Some t =>
      Some (match usage_fact f !! ev with
            | Some _ => f
            | None => MkFacts (interaction_fact f) (<[ev := MkUsageRow ev t metric amount at_]> (usage_fact f))
            end)
  | _, _ => None
  end.

(** [pool.Exec], which fails by itself with [fault]. *)
Definition exec_fact (fault : option error) (stmt : Facts -> option Facts) (f : Facts) : option Error * Facts :=
  match fault with
  | Some err => (Some (write_failed err), f)
  | None => match stmt f with
            | Some f' => (None, f')
            | None => (Some (write_failed invalid_uuid), f)
            end
  end.

(** The interaction an event is about. *)
Definition fact_subject (env : Envelope) : string :=
  if is_empty (e_Subject env) then dict_str (e_Data env) "interaction_id" else e_Subject env.

Definition fact_status (env : Envelope) : string :=
  let status := dict_str (e_Data env) "status" in if is_empty status then "unknown" else status.

Definition interactionFact (fault : option error) (env : Envelope) (f : Facts) : option Error * Facts :=
  if is_empty (fact_subject env) then (None, f)
  else exec_fact fault
         (ins_interaction_fact (e_ID env) (e_TenantID env) (fact_subject env) (dict_str (e_Data env) "channel")
            (dict_str (e_Data env) "direction") (fact_status env) (e_Time env)) f.

Definition usageFact (fault : option error) (env : Envelope) (f : Facts) : option Error * Facts :=
  exec_fact fault
    (ins_usage_fact (e_ID env) (e_TenantID env) (dict_str (e_Data env) "metric") (amount_of (e_Data env)) (e_Time env)) f.

Definition Handle (fault : option error) (env : Envelope) (f : Facts) : option Error * Facts :=
  if is_interaction_topic (e_Type env) then interactionFact fault env f
  else if String.eqb (e_Type env) TopicUsageRecorded then usageFact fault env f
  else (None, f).
End Consumer.

(** ** The read model *)

Record Summary := MkSummary {
  sm_From : Z;
  sm_To : Z;
  InteractionsByChannel : gmap string Z;
  InteractionsByStatus : gmap string Z;
  TotalInteractions : Z;
  AIEvents : Z;
  TokensUsed : Z;
  Freshness : Z;
}.

(** [t.Sub(u)] saturates. *)
Definition time_Sub (t u : Z) : Z := Z.max int64_min (Z.min int64_max (t - u)).

Definition day : Z := 86400 * 1000000000.

Definition in_window (tenantID : string) (from to : Z) (t : string) (at_ : Z) : bool :=
  String.eqb t tenantID && (from <=? at_) && (at_ <=? to).

(** The rows of the window, by channel, status and interaction. *)
Definition window_facts (tenantID : string) (from to : Z) (f : Facts) : list (string * string * string) :=
  omap (fun kr => let r := kr.2 in
    if in_window tenantID from to (ir_TenantID r) (ir_OccurredAt r)
    then Some (ir_Channel r, ir_Status r, ir_InteractionID r) else None)
    (map_to_list (interaction_fact f)).

(** [count(DISTINCT interaction_id) ... GROUP BY channel, status] *)
Definition sel_groups (tenantID : string) (from to : Z) (f : Facts) : list (string * string * Z) :=
  let facts := remove_dups (window_facts tenantID from to f) in
  map (fun g => (g.1, g.2, Z.of_nat (length (List.filter (fun x => bool_decide (x.1 = g)) facts))))
    (remove_dups (facts.*1)).

Definition window_amounts (tenantID : string) (from to : Z) (f : Facts) : list Z :=
  omap (fun kr => let r := kr.2 in
    if in_window tenantID from to (ur_TenantID r) (ur_OccurredAt r) then Some (ur_Amount r) else None)
    (map_to_list (usage_fact f)).

Definition sum_list (l : list Z) : Z := fold_right Z.add 0 l.

(** [m[k] += n] *)
Definition bump_key (k : string) (n : Z) (m : gmap string Z) : gmap string Z := <[k := default 0 (m !! k) + n]> m.

Definition add_group (acc : gmap string Z * gmap string Z * Z) (g : string * string * Z)
    : gmap string Z * gmap string Z * Z :=
  (bump_key g.1.1 g.2 acc.1.1, bump_key g.1.2 g.2 acc.1.2, acc.2 + g.2).

Definition read_failed (code : string) (err : error) : Error :=
  WithCause (Internal code "aggregation failed") err.

(** How the first query goes: it fails, or its rows end after [n] (a broken
    connection ends [rows.Next] too, and [rows.Err] is not asked), or with a row
    that does not scan; and how the second one goes. *)
Record query_fate := MkFate {
  qf_query : option error;
  qf_stop : option nat;
  qf_scan : option error;
  qf_usage : option error;
}.

Definition all_rows : query_fate := MkFate None None None None.

Definition GetSummary (tenantID : string) (from to : Z) (now1 now2 : Z) (fate : query_fate) (f : Facts)
    : Summary + Error :=
  let to := if to =? time_zero then now1 else to in
  let from := if from =? time_zero then to - day else from in
  if 30 * day <? time_Sub to from then
    inr (Invalid "analytics.window_too_large" "window must be at most 30 days")
  else if to <? from then inr (Invalid "analytics.window_invalid" "from must precede to")
  else
  match qf_query fate with
  | Some err => inr (read_failed "analytics.read_failed" err)
  | None =>
      let rows := sel_groups tenantID from to f in
      let rows := match qf_stop fate with Some n => take n rows | None => rows end in
      match qf_scan fate with
      | Some err => inr (read_failed "analytics.scan_failed" err)
      | None =>
          let '(chans, statuses, total) := fold_left add_group rows (∅, ∅, 0) in
          match qf_usage fate with
          | Some err => inr (read_failed "analytics.read_failed" err)
          | None =>
              let amounts := window_amounts tenantID from to f in
              if bool_decide (in_int64 (sum_list amounts)) then
                inl (MkSummary from to chans statuses total (Z.of_nat (length amounts)) (sum_list amounts) now2)
              else inr (read_failed "analytics.read_failed" (OtherErr "value out of range" None))
          end
      end
  end.
