(* ===== verification/ClickHouse.v ===== *)
(** * internal/analytics/clickhouse/store.go: the batched fact store

    Rows of two tables on two bounded channels, one flusher. The store runs as
    atomic steps of its goroutines: a producer's entry under the mutex, its
    first and its blocking send, the flusher's receives, sends and requeueing,
    and the two halves of [Close]. A [Lane] is what one table has: channel,
    producers, the flusher's stash, and the history of its rows. *)

From Stdlib Require Import String.
From S2P Require Import Prelude GoStd AppErrors Events Text Workflows Analytics.

Local Open Scope Z_scope.

(** ** Options and rows *)

Record Options := MkOptions {
  o_URL : string;
  MaxBatchRows : Z;
  FlushInterval : Z;
  WriteTimeout : Z;
  EnqueueTimeout : Z;
}.

Definition DefaultMaxBatchRows : Z := 1000.
Definition DefaultFlushInterval : Z := 2000000000.
Definition DefaultWriteTimeout : Z := 5000000000.
Definition DefaultEnqueueTimeout : Z := 5000000000.


Definition applyDefaults (o : Options) : Options :=
  MkOptions (o_URL o) (positive_or (MaxBatchRows o) DefaultMaxBatchRows)
    (positive_or (FlushInterval o) DefaultFlushInterval) (positive_or (WriteTimeout o) DefaultWriteTimeout)
    (positive_or (EnqueueTimeout o) DefaultEnqueueTimeout).

Definition errStoreClosed : Error := Invalid "analytics.clickhouse_store_closed" "facts store is closed".
Definition errBackpressure : Error :=
  RateLimited "analytics.clickhouse_backpressure" "facts buffer is full; slow down or retry after backoff".

Inductive Fact :=
| FactInteraction (r : InteractionRow)
| FactUsage (r : UsageRow).

Section Rows.
Context `{UUIDs}.

Definition bad_uuid : error := OtherErr "invalid UUID" None.

Definition occurred_at (env : Envelope) (now : Z) : Z := if e_Time env =? time_zero then now else e_Time env.

Definition newInteractionRow (env : Envelope) (subject : string) (now : Z) : InteractionRow + Error :=
  match go_uuid subject, go_uuid (e_TenantID env), go_uuid (e_ID env) with
  | Some i, Some t, Some ev =>
      inl (MkInteractionRow ev t i (dict_str (e_Data env) "channel") (dict_str (e_Data env) "direction")
             (fact_status env) (occurred_at env now))
  | _, _, _ => inr (write_failed bad_uuid)
  end.

Definition newUsageRow (env : Envelope) (now : Z) : UsageRow + Error :=
  match go_uuid (e_TenantID env), go_uuid (e_ID env) with
  | Some t, Some ev =>
      inl (MkUsageRow ev t (dict_str (e_Data env) "metric") (amount_of (e_Data env)) (occurred_at env now))
  | _, _ => inr (write_failed bad_uuid)
  end.

(** [Handle] up to the enqueueing: nothing to do, an error, or a row. *)
Definition ch_Handle (env : option Envelope) (now : Z) : option (Fact + Error) :=
  match env with
  | None => None
  | Some env =>
      if is_interaction_topic (e_Type env) then
        if is_empty (fact_subject env) then None
        else match newInteractionRow env (fact_subject env) now with
             | inl r => Some (inl (FactInteraction r))
             | inr err => Some (inr err)
             end
      else if String.eqb (e_Type env) TopicUsageRecorded then
        match newUsageRow env now with
        | inl r => Some (inl (FactUsage r))
        | inr err => Some (inr err)
        end
      else None
  end.
End Rows.

(** ** A lane *)

Record Lane (A : Type) := MkLane {
  ch : list A;
  entering : list A;
  blocked : list A;
  stash : list A;
  (** rows of a failed flush still to be requeued *)
  pending : list A;
  accepted : list A;
  sent : list A;
  shed : list A;
  lost : list A;
}.
Arguments MkLane {A}.
Arguments ch {A}.
Arguments entering {A}.
Arguments blocked {A}.
Arguments stash {A}.
Arguments pending {A}.
Arguments accepted {A}.
Arguments sent {A}.
Arguments shed {A}.
Arguments lost {A}.

Section Lane.
Context {A : Type}.
Implicit Types l : Lane A.

Definition empty_lane : Lane A := MkLane [] [] [] [] [] [] [] [] [].

(** Under the mutex: the row of an admitted call. *)
Definition lane_enter (r : A) l : Lane A :=
  MkLane (ch l) (entering l ++ [r]) (blocked l) (stash l) (pending l) (accepted l) (sent l) (shed l) (lost l).

(** The first, non-blocking send of the [n]th call. *)
Definition lane_try (cap n : nat) l : Lane A :=
  match entering l !! n with
  | None => l
  | Some r =>
      let rest := delete n (entering l) in
      if (length (ch l) <? cap)%nat then
        MkLane (ch l ++ [r]) rest (blocked l) (stash l) (pending l) (accepted l ++ [r]) (sent l) (shed l) (lost l)
      else
        MkLane (ch l) rest (blocked l ++ [r]) (stash l) (pending l) (accepted l) (sent l) (shed l) (lost l)
  end.

(** A blocked send finds room. *)
Definition lane_unblock (cap n : nat) l : Lane A :=
  match blocked l !! n with
  | Some r =>
      if (length (ch l) <? cap)%nat then
        MkLane (ch l ++ [r]) (entering l) (delete n (blocked l)) (stash l) (pending l) (accepted l ++ [r])
          (sent l) (shed l) (lost l)
      else l
  | None => l
  end.

(** A blocked call gives up: timeout, canceled context, or closing. *)
Definition lane_abandon (n : nat) l : Lane A :=
  MkLane (ch l) (entering l) (delete n (blocked l)) (stash l) (pending l) (accepted l) (sent l) (shed l) (lost l).

(** The flusher receives the oldest row. *)
Definition lane_recv l : Lane A :=
  match ch l with
  | r :: rest => MkLane rest (entering l) (blocked l) (stash l ++ [r]) (pending l) (accepted l) (sent l) (shed l) (lost l)
  | [] => l
  end.

(** [sendBatch] of the stash: sent, or left to requeue, or lost at the end. *)
Definition lane_flush (failed final : bool) l : Lane A :=
  if failed then
    if final then MkLane (ch l) (entering l) (blocked l) [] (pending l) (accepted l) (sent l) (shed l) (lost l ++ stash l)
    else MkLane (ch l) (entering l) (blocked l) [] (pending l ++ stash l) (accepted l) (sent l) (shed l) (lost l)
  else MkLane (ch l) (entering l) (blocked l) [] (pending l) (accepted l) (sent l ++ stash l) (shed l) (lost l).

(** The first attempt of [offer]; [false]: the channel is full. *)
Definition lane_offer (cap : nat) l : bool * Lane A :=
  match pending l with
  | r :: rest =>
      if (length (ch l) <? cap)%nat then
        (true, MkLane (ch l ++ [r]) (entering l) (blocked l) (stash l) rest (accepted l) (sent l) (shed l) (lost l))
      else (false, l)
  | [] => (true, l)
  end.

(** Full: the oldest waiting row goes. *)
Definition lane_shed l : Lane A :=
  match ch l with
  | r :: rest => MkLane rest (entering l) (blocked l) (stash l) (pending l) (accepted l) (sent l) (shed l ++ [r]) (lost l)
  | [] => l
  end.

(** The last attempt: the row itself goes when there is still no room. *)
Definition lane_last (cap : nat) l : Lane A :=
  let '(ok, l') := lane_offer cap l in
  if ok then l'
  else match pending l with
       | r :: rest => MkLane (ch l) (entering l) (blocked l) (stash l) rest (accepted l) (sent l) (shed l ++ [r]) (lost l)
       | [] => l
       end.
End Lane.

(** ** The store *)

(** Where the flusher is: waiting in [select]; draining, to flush or to shut
    down after it; sending; requeueing rows, before or after making room. *)
Inductive Phase :=
| FSelect
| FDrain (final : bool)
| FSend (final : bool)
| FRequeue
| FRetry (usage : bool)
| FDone.

Record Store := MkStore {
  maxRows : nat;
  inter : Lane InteractionRow;
  usage : Lane UsageRow;
  closed : bool;
  stop : bool;
  phase : Phase;
  conn : bool;
  finalErr : list error;
}.

(** [New], once the URL is parsed. *)
Definition ch_New (o : Options) : Store :=
  MkStore (Z.to_nat (MaxBatchRows (applyDefaults o))) empty_lane empty_lane false false FSelect false [].

Definition with_lanes (f : Lane InteractionRow -> Lane InteractionRow) (g : Lane UsageRow -> Lane UsageRow) (s : Store) : Store :=
  MkStore (maxRows s) (f (inter s)) (g (usage s)) (closed s) (stop s) (phase s) (conn s) (finalErr s).

Definition with_phase (p : Phase) (s : Store) : Store :=
  MkStore (maxRows s) (inter s) (usage s) (closed s) (stop s) p (conn s) (finalErr s).

(** Entering [enqueueInteraction] or [enqueueUsage]. *)
Definition enqueue (r : Fact) (s : Store) : option Error * Store :=
  if closed s then (Some errStoreClosed, s)
  else (None, match r with
              | FactInteraction r => with_lanes (lane_enter r) id s
              | FactUsage r => with_lanes id (lane_enter r) s
              end).

Definition try_send (u : bool) (n : nat) (s : Store) : Store :=
  if u then with_lanes id (lane_try (maxRows s) n) s else with_lanes (lane_try (maxRows s) n) id s.

Definition unblock (u : bool) (n : nat) (s : Store) : Store :=
  if u then with_lanes id (lane_unblock (maxRows s) n) s else with_lanes (lane_unblock (maxRows s) n) id s.

Definition abandon (u : bool) (n : nat) (s : Store) : Store :=
  if u then with_lanes id (lane_abandon n) s else with_lanes (lane_abandon n) id s.

Definition stashed (s : Store) : nat := length (stash (inter s)) + length (stash (usage s)).

(** The cases of [select] in [flushLoop]: a row, a tick, the stop signal. *)
Definition loop_recv (u : bool) (s : Store) : option Store :=
  match phase s with
  | FSelect =>
      if (if u then (0 <? length (ch (usage s)))%nat else (0 <? length (ch (inter s)))%nat) then
        Some (with_phase (FDrain false) (if u then with_lanes id lane_recv s else with_lanes lane_recv id s))
      else None
  | _ => None
  end.

Definition loop_tick (s : Store) : option Store :=
  match phase s with
  | FSelect => Some (if (stashed s =? 0)%nat then s else with_phase (FSend false) s)
  | _ => None
  end.

Definition loop_stop (s : Store) : option Store :=
  match phase s with
  | FSelect => if stop s then Some (with_phase (FDrain true) s) else None
  | _ => None
  end.

(** One round of [drain]. *)
Definition drain_one (u : bool) (s : Store) : option Store :=
  match phase s with
  | FDrain _ =>
      if (if u then (0 <? length (ch (usage s)))%nat else (0 <? length (ch (inter s)))%nat) then
        Some (if u then with_lanes id lane_recv s else with_lanes lane_recv id s)
      else None
  | _ => None
  end.

(** The end of [drain], both channels being empty. *)
Definition drain_end (s : Store) : option Store :=
  match phase s with
  | FDrain final =>
      if ((length (ch (inter s)) =? 0) && (length (ch (usage s)) =? 0))%nat then
        Some (with_phase (if final then FSend true
                          else if (maxRows s <=? stashed s)%nat then FSend false else FSelect) s)
      else None
  | _ => None
  end.

(** [flushStash]: [dial] is the error of a first connection, [ei] and [eu]
    those of the two batches, [ec] that of closing the connection in the end. *)
Definition opt_list {A} (x : option A) : list A := match x with Some a => [a] | None => [] end.

Definition close_error (dialed : bool) (ec : option error) : list error := if dialed then opt_list ec else [].

Definition flush (dial ei eu ec : option error) (s : Store) : option Store :=
  match phase s with
  | FSend final =>
      let next := if final then FDone else FRequeue in
      if (stashed s =? 0)%nat then
        Some (MkStore (maxRows s) (inter s) (usage s) (closed s) (stop s) next (conn s)
                (if final then finalErr s ++ close_error (conn s) ec else finalErr s))
      else
      let dialed := conn s || match dial with None => true | Some _ => false end in
      let ei := if (length (stash (inter s)) =? 0)%nat then None else ei in
      let eu := if (length (stash (usage s)) =? 0)%nat then None else eu in
      let fi := if dialed then match ei with Some _ => true | None => false end else true in
      let fu := if dialed then match eu with Some _ => true | None => false end else true in
      let err := if dialed then opt_list ei ++ opt_list eu else opt_list dial in
      Some (MkStore (maxRows s) (lane_flush fi final (inter s)) (lane_flush fu final (usage s)) (closed s) (stop s) next
              dialed (if final then finalErr s ++ err ++ close_error dialed ec else finalErr s))
  | _ => None
  end.

(** [requeue], row by row: the interaction rows first. *)
Definition requeue_step (s : Store) : option Store :=
  match phase s with
  | FRequeue =>
      Some (match pending (inter s), pending (usage s) with
            | _ :: _, _ =>
                let '(ok, l) := lane_offer (maxRows s) (inter s) in
                if ok then with_lanes (fun _ => l) id s
                else with_phase (FRetry false) (with_lanes lane_shed id s)
            | [], _ :: _ =>
                let '(ok, l) := lane_offer (maxRows s) (usage s) in
                if ok then with_lanes id (fun _ => l) s
                else with_phase (FRetry true) (with_lanes id lane_shed s)
            | [], [] => with_phase FSelect s
            end)
  | FRetry false => Some (with_phase FRequeue (with_lanes (lane_last (maxRows s)) id s))
  | FRetry true => Some (with_phase FRequeue (with_lanes id (lane_last (maxRows s)) s))
  | _ => None
  end.

(** [Close]: the mark, then, with no call left inside, the stop signal. *)
Definition close_mark (s : Store) : Store :=
  MkStore (maxRows s) (inter s) (usage s) true (stop s) (phase s) (conn s) (finalErr s).

Definition no_calls {A} (l : Lane A) : bool := match entering l, blocked l with [], [] => true | _, _ => false end.

Definition close_stop (s : Store) : option Store :=
  if closed s && no_calls (inter s) && no_calls (usage s) then
    Some (MkStore (maxRows s) (inter s) (usage s) (closed s) true (phase s) (conn s) (finalErr s))
  else None.

(** ** env.go *)

Section FromEnv.
(** [os.Getenv], [time.ParseDuration] and the DSN parser. *)
Variable getenv : string -> string.
Variable parse_duration : string -> option Z.
Variable parse_dsn : string -> option error.

Definition envPositiveInt (key : string) : option Z :=
  let raw := trim_space (getenv key) in
  if is_empty raw then None
  else match atoi raw with
       | Some v => if v <=? 0 then None else Some v
       | None => None
       end.

Definition envPositiveDuration (key : string) : option Z :=
  let raw := trim_space (getenv key) in
  if is_empty raw then None
  else match parse_duration raw with
       | Some v => if v <=? 0 then None else Some v
       | None => None
       end.

Definition New (o : Options) : Store + Error :=
  if is_empty (o_URL o) then inr (Invalid "analytics.clickhouse_url_missing" "ORVEXA_CLICKHOUSE_URL is required")
  else match parse_dsn (o_URL o) with
       | Some err =>
           inr (WithCause (Invalid "analytics.clickhouse_url_invalid" "ORVEXA_CLICKHOUSE_URL is not a valid ClickHouse DSN") err)
       | None => inl (ch_New o)
       end.

(** [None]: the Postgres consumer stays. *)
Definition FromEnv : option (Store + Error) :=
  let url := trim_space (getenv "ORVEXA_CLICKHOUSE_URL") in
  if is_empty url then None
  else Some (New (MkOptions url
    (default 0 (envPositiveInt "ORVEXA_CLICKHOUSE_MAX_BATCH_ROWS"))
    (default 0 (envPositiveDuration "ORVEXA_CLICKHOUSE_FLUSH_INTERVAL"))
    (default 0 (envPositiveDuration "ORVEXA_CLICKHOUSE_WRITE_TIMEOUT"))
    (default 0 (envPositiveDuration "ORVEXA_CLICKHOUSE_ENQUEUE_TIMEOUT")))).
End FromEnv.
