(* ===== verification/AnalyticsProps.v ===== *)
(** * Properties of the fact stores and of the summary

    Both fact stores keep the same row of an event; every row the batched store
    accepts is accounted for under any interleaving; what the summary counts. *)

From Stdlib Require Import String.
From S2P Require Import Prelude GoStd AppErrors Events Store Workflows Analytics ClickHouse.
From S2P Require Interactions InteractionsProps.

Local Open Scope Z_scope.

(** ** The batched store *)

Inductive ch_step : Store -> Store -> Prop :=
| ch_enqueue r s s' : enqueue r s = (None, s') -> ch_step s s'
| ch_try u n s : ch_step s (try_send u n s)
| ch_unblock u n s : ch_step s (unblock u n s)
| ch_abandon u n s : ch_step s (abandon u n s)
| ch_recv u s s' : loop_recv u s = Some s' -> ch_step s s'
| ch_tick s s' : loop_tick s = Some s' -> ch_step s s'
| ch_stop s s' : loop_stop s = Some s' -> ch_step s s'
| ch_drain u s s' : drain_one u s = Some s' -> ch_step s s'
| ch_drained s s' : drain_end s = Some s' -> ch_step s s'
| ch_flush dial ei eu ec s s' : flush dial ei eu ec s = Some s' -> ch_step s s'
| ch_requeue s s' : requeue_step s = Some s' -> ch_step s s'
| ch_close s : ch_step s (close_mark s)
| ch_close_stop s s' : close_stop s = Some s' -> ch_step s s'.

Section Lane.
Context {A : Type}.
Implicit Types l : Lane A.

(** Where the accepted rows are. *)
Definition whereabouts l : list A := ch l ++ stash l ++ pending l ++ sent l ++ shed l ++ lost l.

Record lane_inv (cap : nat) l : Prop := {
  lane_bound : (length (ch l) <= cap)%nat;
  lane_rows : accepted l ≡ₚ whereabouts l;
}.

Ltac lane_tac :=
  split; unfold whereabouts in *; cbn [ch entering blocked stash pending accepted sent shed lost] in *;
  rewrite ?length_app; simpl in *; try lia; try done;
  try match goal with H : accepted _ ≡ₚ _ |- _ => rewrite H end; try solve_Permutation.

Lemma lane_inv_enter cap r l : lane_inv cap l -> lane_inv cap (lane_enter r l).
Proof. by intros []. Qed.

Lemma lane_inv_try cap n l : lane_inv cap l -> lane_inv cap (lane_try cap n l).
Proof.
  intros [Hb Hr]. unfold lane_try. destruct (entering l !! n); [|by split].
  destruct (Nat.ltb_spec (length (ch l)) cap); lane_tac.
Qed.

Lemma lane_inv_unblock cap n l : lane_inv cap l -> lane_inv cap (lane_unblock cap n l).
Proof.
  intros [Hb Hr]. unfold lane_unblock. destruct (blocked l !! n); [|by split].
  destruct (Nat.ltb_spec (length (ch l)) cap); [lane_tac|by split].
Qed.

Lemma lane_inv_abandon cap n l : lane_inv cap l -> lane_inv cap (lane_abandon n l).
Proof. by intros []. Qed.

Lemma lane_inv_recv cap l : lane_inv cap l -> lane_inv cap (lane_recv l).
Proof. intros [Hb Hr]. unfold lane_recv. destruct (ch l) eqn:E; [by split; rewrite ?E|]. lane_tac. rewrite E. solve_Permutation. Qed.

Lemma lane_inv_flush cap failed final l : lane_inv cap l -> lane_inv cap (lane_flush failed final l).
Proof. intros [Hb Hr]. unfold lane_flush. destruct failed, final; lane_tac. Qed.

Lemma lane_inv_offer cap l : lane_inv cap l -> lane_inv cap (lane_offer cap l).2.
Proof.
  intros [Hb Hr]. unfold lane_offer. destruct (pending l) eqn:E; [by split|].
  destruct (Nat.ltb_spec (length (ch l)) cap); cbn [snd]; [|by split]. lane_tac. rewrite E. solve_Permutation.
Qed.

Lemma lane_inv_shed cap l : lane_inv cap l -> lane_inv cap (lane_shed l).
Proof. intros [Hb Hr]. unfold lane_shed. destruct (ch l) eqn:E; [by split; rewrite ?E|]. lane_tac. rewrite E. solve_Permutation. Qed.

Lemma lane_inv_last cap l : lane_inv cap l -> lane_inv cap (lane_last cap l).
Proof.
  intros Hi. pose proof (lane_inv_offer cap l Hi) as Ho. unfold lane_last.
  destruct (lane_offer cap l) as [[|] l'] eqn:E; [done|]. destruct (pending l) eqn:Ep; [done|].
  destruct Hi as [Hb Hr]. lane_tac. rewrite Ep. solve_Permutation.
Qed.
End Lane.

#[local] Hint Resolve lane_inv_enter lane_inv_try lane_inv_unblock lane_inv_abandon lane_inv_recv lane_inv_flush
  lane_inv_shed lane_inv_last : orvexa.

Definition final_phase (p : Phase) : bool := match p with FDrain true | FSend true | FDone => true | _ => false end.
Definition requeueing (p : Phase) : bool := match p with FRequeue | FRetry _ => true | _ => false end.
Definition drained_phase (p : Phase) : bool := match p with FSend true | FDone => true | _ => false end.

Lemma drained_final p : drained_phase p = true -> final_phase p = true.
Proof. by destruct p as [|[]|[]| | |]. Qed.

Record store_inv (s : Store) : Prop := {
  si_inter : lane_inv (maxRows s) (inter s);
  si_usage : lane_inv (maxRows s) (usage s);
  si_pending : requeueing (phase s) = false -> pending (inter s) = [] /\ pending (usage s) = [];
  si_stop : stop s = true -> closed s = true /\ no_calls (inter s) = true /\ no_calls (usage s) = true;
  si_final : final_phase (phase s) = true -> stop s = true;
  si_drained : drained_phase (phase s) = true -> ch (inter s) = [] /\ ch (usage s) = [];
  si_done : phase s = FDone -> stash (inter s) = [] /\ stash (usage s) = [];
  si_lost : finalErr s = [] -> lost (inter s) = [] /\ lost (usage s) = [];
}.

Ltac store_cbn := cbn [with_lanes with_phase maxRows inter usage closed stop phase conn finalErr final_phase requeueing
  drained_phase ch entering blocked stash pending accepted sent shed lost id lane_enter lane_abandon] in *.

Lemma no_calls_spec {A} (l : Lane A) : no_calls l = true <-> entering l = [] /\ blocked l = [].
Proof. unfold no_calls. destruct (entering l), (blocked l); naive_solver. Qed.

(** A step of a producer changes the channel and the calls inside only. *)
Definition producer_step {A} (f : Lane A -> Lane A) (cap : nat) : Prop := forall l, lane_inv cap l ->
  lane_inv cap (f l) /\ pending (f l) = pending l /\ stash (f l) = stash l /\ lost (f l) = lost l
  /\ (no_calls l = true -> f l = l).

Lemma try_producer {A} cap n : producer_step (A := A) (lane_try cap n) cap.
Proof.
  intros l Hl. split; [by apply lane_inv_try|]. unfold lane_try.
  destruct (entering l !! n) eqn:E; [|done]. split_and!; try by case_match.
  intros [Hn _]%no_calls_spec. by rewrite Hn in E.
Qed.

Lemma unblock_producer {A} cap n : producer_step (A := A) (lane_unblock cap n) cap.
Proof.
  intros l Hl. split; [by apply lane_inv_unblock|]. unfold lane_unblock.
  destruct (blocked l !! n) eqn:E; [|done]. split_and!; try by case_match.
  intros [_ Hn]%no_calls_spec. by rewrite Hn in E.
Qed.

Lemma abandon_producer {A} cap n : producer_step (A := A) (lane_abandon n) cap.
Proof.
  intros l Hl. split; [by apply lane_inv_abandon|]. split_and!; try done.
  intros [_ Hn]%no_calls_spec. unfold lane_abandon. destruct l. simpl in Hn. by subst.
Qed.

Lemma producer_id {A} cap : producer_step (A := A) id cap.
Proof. by intros l Hl. Qed.

Lemma store_inv_producers f g s :
  producer_step f (maxRows s) -> producer_step g (maxRows s) -> store_inv s -> store_inv (with_lanes f g s).
Proof.
  intros Hf Hg [Hi Hu Hp Hs Hfi Hd Hdo Hl]. destruct (Hf _ Hi) as (? & Hf1 & Hf2 & Hf3 & Hf4), (Hg _ Hu) as (? & Hg1 & Hg2 & Hg3 & Hg4).
  assert (Hstop : stop s = true -> f (inter s) = inter s /\ g (usage s) = usage s).
  { intros (_ & Hn1 & Hn2)%Hs. auto. }
  split; store_cbn; rewrite ?Hf1, ?Hf2, ?Hf3, ?Hg1, ?Hg2, ?Hg3; try done.
  - intros Hst. destruct (Hstop Hst) as [-> ->]. auto.
  - intros Hdr. destruct (Hstop (Hfi (drained_final _ Hdr))) as [-> ->]. auto.
Qed.

Lemma store_inv_enqueue r s s' : enqueue r s = (None, s') -> store_inv s -> store_inv s'.
Proof.
  unfold enqueue. destruct (closed s) eqn:Ec; [done|]. intros [= <-] [Hi Hu Hp Hs Hfi Hd Hdo Hl].
  assert (Hst : stop s = false) by (destruct (stop s) eqn:Es; [destruct (Hs eq_refl); congruence|done]).
  destruct r; split; store_cbn; auto with orvexa; congruence.
Qed.

(** A receive keeps the rows that are not on the channel or in the stash. *)
Lemma lane_recv_frame {A} (l : Lane A) :
  pending (lane_recv l) = pending l /\ lost (lane_recv l) = lost l /\ no_calls (lane_recv l) = no_calls l.
Proof. unfold lane_recv. by destruct (ch l). Qed.

Lemma store_inv_recv u s : store_inv s -> final_phase (phase s) = false \/ phase s = FDrain true ->
  store_inv (if u : bool then with_lanes id lane_recv s else with_lanes lane_recv id s).
Proof.
  intros [Hi Hu Hp Hs Hfi Hd Hdo Hl] Hph. assert (Hdr : drained_phase (phase s) = false).
  { destruct Hph as [H|H]; [|by rewrite H]. destruct (drained_phase (phase s)) eqn:E; [|done].
    apply drained_final in E. congruence. }
  destruct (lane_recv_frame (inter s)) as (Hi1 & Hi2 & Hi3), (lane_recv_frame (usage s)) as (Hu1 & Hu2 & Hu3).
  destruct u; split; store_cbn; rewrite ?Hi1, ?Hi2, ?Hi3, ?Hu1, ?Hu2, ?Hu3; auto with orvexa; try congruence.
  all: intros Hx; rewrite Hx in Hdr; done.
Qed.

Lemma store_inv_phase p s :
  store_inv s ->
  (requeueing p = false -> pending (inter s) = [] /\ pending (usage s) = []) ->
  (final_phase p = true -> stop s = true) ->
  (drained_phase p = true -> ch (inter s) = [] /\ ch (usage s) = []) ->
  (p = FDone -> stash (inter s) = [] /\ stash (usage s) = []) -> store_inv (with_phase p s).
Proof. intros [] H1 H2 H3 H4. by split. Qed.

Lemma store_inv_loop_recv u s s' : loop_recv u s = Some s' -> store_inv s -> store_inv s'.
Proof.
  unfold loop_recv. destruct (phase s) eqn:Ep; [|done..]. destruct (if u then _ else _); [|done]. intros [= <-] Hs.
  apply store_inv_phase; try done.
  - apply store_inv_recv; [done|]. left. by rewrite Ep.
  - intros _. destruct (si_pending _ Hs) as [H1 H2]; [by rewrite Ep|].
    destruct (lane_recv_frame (inter s)) as (Hi1 & _), (lane_recv_frame (usage s)) as (Hu1 & _).
    destruct u; store_cbn; by rewrite ?Hi1, ?Hu1.
Qed.

Lemma store_inv_drain u s s' : drain_one u s = Some s' -> store_inv s -> store_inv s'.
Proof.
  unfold drain_one. destruct (phase s) as [|final| | | |] eqn:Ep; [done| |done..]. destruct (if u then _ else _); [|done]. intros [= <-] Hs.
  apply store_inv_recv; [done|]. rewrite Ep. destruct final; auto.
Qed.

Lemma store_inv_drained s s' : drain_end s = Some s' -> store_inv s -> store_inv s'.
Proof.
  unfold drain_end. destruct (phase s) as [|final| | | |] eqn:Ep; [done| |done..].
  destruct (_ && _)%nat eqn:E; [|done]. apply andb_true_iff in E as [E1%Nat.eqb_eq E2%Nat.eqb_eq]. intros [= <-] Hs.
  pose proof (si_pending _ Hs) as Hp. rewrite Ep in Hp. pose proof (si_final _ Hs) as Hf. rewrite Ep in Hf.
  apply store_inv_phase; try done.
  - intros _. by apply Hp.
  - destruct final; [auto|by case_match].
  - intros _. by apply nil_length_inv in E1, E2.
  - destruct final; [done|by case_match].
Qed.

Lemma store_inv_tick s s' : loop_tick s = Some s' -> store_inv s -> store_inv s'.
Proof.
  unfold loop_tick. destruct (phase s) eqn:Ep; [|done..]. intros [= <-] Hs. case_match; [done|].
  apply store_inv_phase; try done. intros _. apply (si_pending _ Hs). by rewrite Ep.
Qed.

Lemma store_inv_loop_stop s s' : loop_stop s = Some s' -> store_inv s -> store_inv s'.
Proof.
  unfold loop_stop. destruct (phase s) eqn:Ep; [|done..]. destruct (stop s) eqn:Es; [|done]. intros [= <-] Hs.
  apply store_inv_phase; try done. intros _. apply (si_pending _ Hs). by rewrite Ep.
Qed.

Lemma flush_frame {A} failed final (l : Lane A) :
  ch (lane_flush failed final l) = ch l /\ stash (lane_flush failed final l) = [] /\ no_calls (lane_flush failed final l) = no_calls l.
Proof. by destruct failed, final. Qed.

Lemma flush_final {A} failed (l : Lane A) :
  pending (lane_flush failed true l) = pending l /\ (failed = false -> lost (lane_flush failed true l) = lost l).
Proof. by destruct failed. Qed.

Lemma flush_lost {A} failed (l : Lane A) : lost (lane_flush failed false l) = lost l.
Proof. by destruct failed. Qed.

Lemma store_inv_flush dial ei eu ec s s' : flush dial ei eu ec s = Some s' -> store_inv s -> store_inv s'.
Proof.
  unfold flush. destruct (phase s) as [| |final| | |] eqn:Ep; [done..| |done|done|done].
  destruct (Nat.eqb_spec (stashed s) 0) as [E|E]; intros [= <-] [Hi Hu Hp Hs Hfi Hd Hdo Hl]; rewrite Ep in *.
  - unfold stashed in E. assert (stash (inter s) = [] /\ stash (usage s) = []) as [? ?] by (split; apply nil_length_inv; lia).
    destruct final; split; store_cbn; auto; try done. intros [? _]%app_nil. auto.
  - cbv zeta. set (dialed := conn s || _). set (e1 := if (length (stash (inter s)) =? 0)%nat then None else ei).
    set (e2 := if (length (stash (usage s)) =? 0)%nat then None else eu).
    set (fi := if dialed then _ else true). set (fu := if dialed then _ else true).
    destruct (flush_frame fi final (inter s)) as (Hi1 & Hi2 & Hi3), (flush_frame fu final (usage s)) as (Hu1 & Hu2 & Hu3).
    split; store_cbn; rewrite ?Hi1, ?Hi2, ?Hi3, ?Hu1, ?Hu2, ?Hu3; auto with orvexa; try by destruct final.
    + destruct final; [|done]. intros _. destruct (flush_final fi (inter s)) as [-> _], (flush_final fu (usage s)) as [-> _]. auto.
    + destruct final; [|by rewrite !flush_lost].
      intros [Hf [Herr _]%app_nil]%app_nil.
      assert (fi = false /\ fu = false) as [Hfi0 Hfu0].
      { unfold fi, fu. destruct dialed eqn:Edl; [by destruct e1, e2|]. destruct dial; [done|].
        unfold dialed in Edl. by rewrite orb_true_r in Edl. }
      destruct (flush_final fi (inter s)) as [_ Hx], (flush_final fu (usage s)) as [_ Hy]. rewrite (Hx Hfi0), (Hy Hfu0). auto.
Qed.

Lemma offer_frame {A} cap (l : Lane A) : let l' := (lane_offer cap l).2 in
  lost l' = lost l /\ no_calls l' = no_calls l /\ stash l' = stash l.
Proof. unfold lane_offer. destruct (pending l); [done|]. by destruct (_ <? _)%nat. Qed.

Lemma shed_frame {A} (l : Lane A) : lost (lane_shed l) = lost l /\ no_calls (lane_shed l) = no_calls l.
Proof. unfold lane_shed. by destruct (ch l). Qed.

Lemma last_frame {A} cap (l : Lane A) : lost (lane_last cap l) = lost l /\ no_calls (lane_last cap l) = no_calls l.
Proof.
  pose proof (offer_frame cap l) as H. unfold lane_last. destruct (lane_offer cap l) as [[|] l']; [naive_solver|].
  by destruct (pending l).
Qed.

(** A change of the lanes while requeueing. *)
Lemma store_inv_lanes f g p s :
  store_inv s -> requeueing (phase s) = true -> requeueing p = true ->
  lane_inv (maxRows s) (f (inter s)) -> lane_inv (maxRows s) (g (usage s)) ->
  lost (f (inter s)) = lost (inter s) /\ no_calls (f (inter s)) = no_calls (inter s) ->
  lost (g (usage s)) = lost (usage s) /\ no_calls (g (usage s)) = no_calls (usage s) ->
  store_inv (with_phase p (with_lanes f g s)).
Proof.
  intros [Hi Hu Hp Hs Hfi Hd Hdo Hl] Hr Hrp H1 H2 [H3 H4] [H5 H6].
  split; store_cbn; rewrite ?H3, ?H4, ?H5, ?H6; auto; destruct p as [|[]|[]| | |]; done.
Qed.

Lemma with_phase_id s : with_phase (phase s) s = s.
Proof. by destruct s. Qed.

Lemma store_inv_requeue s s' : requeue_step s = Some s' -> store_inv s -> store_inv s'.
Proof.
  intros Hr Hs. pose proof (si_inter _ Hs) as Hi. pose proof (si_usage _ Hs) as Hu.
  assert (Hphase : requeueing (phase s) = true) by (unfold requeue_step in Hr; by destruct (phase s)).
  pose proof (lane_inv_offer _ _ Hi) as Hi1. pose proof (lane_inv_offer _ _ Hu) as Hu1.
  pose proof (offer_frame (maxRows s) (inter s)) as Hfi. pose proof (offer_frame (maxRows s) (usage s)) as Hfu.
  unfold requeue_step in Hr. destruct (phase s) as [| | | |[]|] eqn:Ep; simplify_eq.
  - destruct (pending (inter s)) eqn:E1; [destruct (pending (usage s)) eqn:E2|].
    + apply store_inv_phase; try done.
    + destruct (lane_offer (maxRows s) (usage s)) as [[|] l']; cbn [snd] in *.
      * rewrite <- (with_phase_id (with_lanes _ _ s)). apply store_inv_lanes; store_cbn; rewrite ?Ep; naive_solver.
      * destruct (shed_frame (usage s)). apply store_inv_lanes; rewrite ?Ep; auto with orvexa.
    + destruct (lane_offer (maxRows s) (inter s)) as [[|] l']; cbn [snd] in *.
      * rewrite <- (with_phase_id (with_lanes _ _ s)). apply store_inv_lanes; store_cbn; rewrite ?Ep; naive_solver.
      * destruct (shed_frame (inter s)). apply store_inv_lanes; rewrite ?Ep; auto with orvexa.
  - destruct (last_frame (maxRows s) (usage s)). apply store_inv_lanes; rewrite ?Ep; auto with orvexa.
  - destruct (last_frame (maxRows s) (inter s)). apply store_inv_lanes; rewrite ?Ep; auto with orvexa.
Qed.

Lemma store_inv_step s s' : ch_step s s' -> store_inv s -> store_inv s'.
Proof.
  intros Hst Hs. destruct Hst.
  - by eapply store_inv_enqueue.
  - unfold try_send. destruct u; apply store_inv_producers; auto using producer_id, try_producer.
  - unfold unblock. destruct u; apply store_inv_producers; auto using producer_id, unblock_producer.
  - unfold abandon. destruct u; apply store_inv_producers; auto using producer_id, abandon_producer.
  - by eapply store_inv_loop_recv.
  - by eapply store_inv_tick.
  - by eapply store_inv_loop_stop.
  - by eapply store_inv_drain.
  - by eapply store_inv_drained.
  - by eapply store_inv_flush.
  - by eapply store_inv_requeue.
  - destruct Hs as [? ? ? Hstop]. split; store_cbn; try done. intros Hst. by destruct (Hstop Hst) as (_ & ? & ?).
  - unfold close_stop in H. destruct (closed s && _ && _) eqn:E; [|done]. injection H as <-.
    apply andb_true_iff in E as [[? ?]%andb_true_iff ?]. by destruct Hs.
Qed.

Lemma store_inv_start o : store_inv (ch_New o).
Proof. split; try done; split; try done; simpl; lia. Qed.

Lemma store_inv_reachable o s : rtc ch_step (ch_New o) s -> store_inv s.
Proof.
  intros Hr. eapply (rtc_ind_r (R := ch_step) store_inv (ch_New o)); [apply store_inv_start| |exact Hr].
  intros x y _ Hxy Hx. by eapply store_inv_step.
Qed.

(** ** What the summary counts *)

Lemma sum_list_app l k : sum_list (l ++ k) = sum_list l + sum_list k.
Proof. induction l as [|x l IH]; simpl; lia. Qed.

Lemma length_filter_cons {A} (p : A -> bool) x l :
  Z.of_nat (length (List.filter p (x :: l))) = (if p x then 1 else 0) + Z.of_nat (length (List.filter p l)).
Proof. simpl. destruct (p x); simpl; lia. Qed.

(** Each element is counted under its key: once when the key is listed. *)
Lemma sum_indicator {K} `{EqDecision K} (keys : list K) (P : K -> bool) k :
  NoDup keys -> k ∈ keys ->
  sum_list (map (fun g => if bool_decide (k = g) then 1 else 0) (List.filter P keys)) = if P k then 1 else 0.
Proof.
  induction 1 as [|g keys Hg Hd IH]; [by intros ?%not_elem_of_nil|]. intros [->|Hin]%elem_of_cons.
  - assert (Hz : sum_list (map (fun g0 => if bool_decide (g = g0) then 1 else 0) (List.filter P keys)) = 0).
    { clear IH Hd. induction keys as [|g' keys IH]; [done|]. apply not_elem_of_cons in Hg as [Hne Hg]. cbn [List.filter].
      destruct (P g'); cbn [map sum_list fold_right]; [|by apply IH]. rewrite bool_decide_false by done. by apply IH. }
    unfold sum_list in *. cbn [List.filter].
    destruct (P g); cbn [map fold_right]; rewrite ?bool_decide_true by done; lia.
  - assert (Hne : k <> g) by (intros ->; done). cbn [List.filter]. specialize (IH Hin). unfold sum_list in *.
    destruct (P g); cbn [map sum_list fold_right]; [rewrite bool_decide_false by done|]; lia.
Qed.

Lemma sum_by_key {A K} `{EqDecision K} (f : A -> K) (P : K -> bool) (keys : list K) (l : list A) :
  NoDup keys -> (forall x, x ∈ l -> f x ∈ keys) ->
  sum_list (map (fun g => Z.of_nat (length (List.filter (fun x => bool_decide (f x = g)) l))) (List.filter P keys))
  = Z.of_nat (length (List.filter (fun x => P (f x)) l)).
Proof.
  intros Hd. induction l as [|x l IH]; intros Hin.
  - cbn [List.filter length]. induction (List.filter P keys); simpl in *; lia.
  - rewrite length_filter_cons, <- IH by (intros y Hy; apply Hin; by right).
    rewrite <- (sum_indicator keys P (f x) Hd) by (apply Hin; by left). clear IH.
    induction (List.filter P keys) as [|g gs IHg]; [done|]. cbn [map sum_list fold_right]. unfold sum_list in *.
    rewrite length_filter_cons, IHg. lia.
Qed.

Notation group := (string * string * Z)%type.

(** The loop over the groups. *)
Lemma add_groups (rows : list group) acc :
  let r := fold_left add_group rows acc in
  r.2 = acc.2 + sum_list (map snd rows)
  /\ (forall c, default 0 (r.1.1 !! c) = default 0 (acc.1.1 !! c)
        + sum_list (map snd (List.filter (fun g => String.eqb g.1.1 c) rows)))
  /\ (forall c, default 0 (r.1.2 !! c) = default 0 (acc.1.2 !! c)
        + sum_list (map snd (List.filter (fun g => String.eqb g.1.2 c) rows))).
Proof.
  revert acc. induction rows as [|[[c s] n] rows IH]; intros acc.
  - cbn. split_and!; intros; lia.
  - assert (Hb : forall k k' (m : gmap string Z), default 0 (bump_key k n m !! k') = default 0 (m !! k') + if String.eqb k k' then n else 0).
    { intros k k' m. unfold bump_key. destruct (String.eqb_spec k k') as [->|Hn]; [by rewrite lookup_insert_eq|].
      rewrite lookup_insert_ne by done. lia. }
    cbn [fold_left]. destruct (IH (add_group acc (c, s, n))) as (H1 & H2 & H3). unfold add_group in *. cbn [fst snd] in *.
    split_and!; [rewrite H1; simpl; lia| |]; intros k; [rewrite H2|rewrite H3]; rewrite Hb; cbn [List.filter fst snd];
      destruct (String.eqb _ k); cbn [map sum_list fold_right snd]; unfold sum_list; lia.
Qed.

Lemma filter_map {A B} (p : B -> bool) (f : A -> B) l : List.filter p (map f l) = map f (List.filter (fun x => p (f x)) l).
Proof. induction l as [|x l IH]; [done|]. cbn [map List.filter]. destruct (p (f x)); cbn [map]; by rewrite IH. Qed.

(** The distinct facts of the window that satisfy [P] on channel and status. *)
Definition count_facts (P : string * string -> bool) (t : string) (from to : Z) (f : Facts) : Z :=
  Z.of_nat (length (List.filter (fun x => P x.1) (remove_dups (window_facts t from to f)))).

Lemma sel_groups_sum (P : string * string -> bool) t from to f :
  sum_list (map snd (List.filter (fun g : group => P g.1) (sel_groups t from to f))) = count_facts P t from to f.
Proof.
  unfold sel_groups, count_facts. set (facts := remove_dups (window_facts t from to f)).
  rewrite filter_map, map_map. cbn [fst snd].
  rewrite (List.filter_ext _ P) by (by intros []). rewrite <- (sum_by_key fst P (remove_dups facts.*1) facts).
  - f_equal.
  - apply NoDup_remove_dups.
  - intros x Hx. apply elem_of_remove_dups. by apply list_elem_of_fmap_2.
Qed.

Lemma count_all t from to f :
  count_facts (fun _ => true) t from to f = Z.of_nat (length (remove_dups (window_facts t from to f))).
Proof. unfold count_facts. f_equal. induction (remove_dups _) as [|x l IH]; [done|]. simpl. by rewrite IH. Qed.

(** Distinct pairs have at most as many second components, and fewer when two
    share one. *)
Section distinct.
Context {K V : Type} `{EqDecision K, EqDecision V}.

Lemma remove_dups_subset_length (l k : list V) : (forall x, x ∈ l -> x ∈ k) -> NoDup l -> (length l <= length k)%nat.
Proof. intros Hs Hd. by apply submseteq_length, NoDup_submseteq. Qed.

Lemma distinct_seconds_le (l : list (K * V)) : (length (remove_dups l.*2) <= length (remove_dups l))%nat.
Proof.
  rewrite <- (length_fmap snd (remove_dups l)). apply remove_dups_subset_length; [|apply NoDup_remove_dups].
  intros x Hx. rewrite elem_of_remove_dups in Hx. apply list_elem_of_fmap in Hx as (y & -> & Hy).
  apply list_elem_of_fmap. exists y. split; [done|]. by rewrite elem_of_remove_dups.
Qed.

Lemma distinct_seconds_lt (l : list (K * V)) i g1 g2 :
  (g1, i) ∈ l -> (g2, i) ∈ l -> g1 <> g2 -> (length (remove_dups l.*2) < length (remove_dups l))%nat.
Proof.
  intros H1 H2 Hne. rewrite <- (elem_of_remove_dups l) in H1, H2.
  apply list_elem_of_split in H1 as (l1 & l2 & E).
  assert (Hs : forall x, x ∈ remove_dups l.*2 -> x ∈ (l1 ++ l2).*2).
  { intros x Hx. rewrite elem_of_remove_dups in Hx. apply list_elem_of_fmap in Hx as (y & -> & Hy).
    rewrite <- (elem_of_remove_dups l) in Hy. rewrite E in Hy, H2.
    assert (Hin : forall z, z ∈ l1 ++ (g1, i) :: l2 -> z <> (g1, i) -> z ∈ l1 ++ l2) by set_solver.
    destruct (decide (y = (g1, i))) as [->|Hy'].
    - apply list_elem_of_fmap. exists (g2, i). split; [done|]. apply Hin; [done|congruence].
    - apply list_elem_of_fmap. exists y. split; [done|]. by apply Hin. }
  apply remove_dups_subset_length in Hs; [|apply NoDup_remove_dups].
  rewrite length_fmap in Hs. rewrite E, !length_app in *. simpl. lia.
Qed.
End distinct.

Lemma summary_fields t from to now1 now2 f sm :
  GetSummary t from to now1 now2 all_rows f = inl sm ->
  TotalInteractions sm = Z.of_nat (length (remove_dups (window_facts t (sm_From sm) (sm_To sm) f)))
  /\ (forall c, default 0 (InteractionsByChannel sm !! c)
        = count_facts (fun g => String.eqb g.1 c) t (sm_From sm) (sm_To sm) f)
  /\ (forall s, default 0 (InteractionsByStatus sm !! s)
        = count_facts (fun g => String.eqb g.2 s) t (sm_From sm) (sm_To sm) f).
Proof.
  unfold GetSummary. set (to' := if to =? time_zero then now1 else to). set (from' := if from =? time_zero then to' - day else from).
  destruct (30 * day <? _); [done|]. destruct (to' <? from'); [done|]. cbn [all_rows qf_query qf_stop qf_scan qf_usage].
  pose proof (add_groups (sel_groups t from' to' f) (∅, ∅, 0)) as Hg.
  destruct (fold_left add_group _ _) as [[chans statuses] total]. cbn [fst snd] in Hg. destruct Hg as (Hg1 & Hg2 & Hg3).
  destruct (bool_decide (in_int64 _)); [|done]. intros [= <-].
  cbn [sm_From sm_To InteractionsByChannel InteractionsByStatus TotalInteractions]. split_and!.
  - rewrite Hg1, <- count_all, <- sel_groups_sum. rewrite forallb_filter_id by (by apply forallb_forall). done.
  - intros c. rewrite Hg2, lookup_empty. cbn [default from_option]. rewrite <- sel_groups_sum. lia.
  - intros s. rewrite Hg3, lookup_empty. cbn [default from_option]. rewrite <- sel_groups_sum. lia.
Qed.

(** ** The theorems *)

(** C29. Every row a batched store has accepted is somewhere: on its channel,
    in the flusher's stash, waiting to be requeued, sent, shed for room, or
    lost in the last flush, under every interleaving of producers, flusher and
    [Close]; a channel never holds more than [MaxBatchRows] rows. Once the
    flusher has ended nothing is left inside, and if it recorded no error no row
    was lost in the last flush. *)
Theorem facts_accounted o s (Hreach : rtc ch_step (ch_New o) s) :
  (accepted (inter s) ≡ₚ ch (inter s) ++ stash (inter s) ++ pending (inter s) ++ sent (inter s) ++ shed (inter s) ++ lost (inter s))
  /\ (accepted (usage s) ≡ₚ ch (usage s) ++ stash (usage s) ++ pending (usage s) ++ sent (usage s) ++ shed (usage s) ++ lost (usage s))
  /\ (length (ch (inter s)) <= maxRows s)%nat /\ (length (ch (usage s)) <= maxRows s)%nat
  /\ (phase s = FDone ->
       (accepted (inter s) ≡ₚ sent (inter s) ++ shed (inter s) ++ lost (inter s))
       /\ (accepted (usage s) ≡ₚ sent (usage s) ++ shed (usage s) ++ lost (usage s))
       /\ closed s = true /\ no_calls (inter s) = true /\ no_calls (usage s) = true
       /\ (finalErr s = [] -> lost (inter s) = [] /\ lost (usage s) = [])).
Proof.
  destruct (store_inv_reachable _ _ Hreach) as [[Hi1 Hi2] [Hu1 Hu2] Hp Hs Hf Hd Hdo Hl]. unfold whereabouts in *.
  split; [done|]. split; [done|]. split; [done|]. split; [done|]. intros Hph. rewrite Hph in *.
  destruct (Hd eq_refl) as [Hd1 Hd2], (Hdo eq_refl) as [Hs1 Hs2], (Hp eq_refl) as [Hp1 Hp2], (Hs (Hf eq_refl)) as (? & ? & ?).
  rewrite Hd1, Hs1, Hp1 in Hi2. rewrite Hd2, Hs2, Hp2 in Hu2. by split_and!.
Qed.

Section stores.
Context `{UUIDs}.

(** What a consumer's table holds after a row with this key. *)
Definition fact_inserted (r : Fact) (f : Facts) : Facts :=
  match r with
  | FactInteraction r =>
      match interaction_fact f !! ir_EventID r with
      | Some _ => f
      | None => MkFacts (<[ir_EventID r := r]> (interaction_fact f)) (usage_fact f)
      end
  | FactUsage r =>
      match usage_fact f !! ur_EventID r with
      | Some _ => f
      | None => MkFacts (interaction_fact f) (<[ur_EventID r := r]> (usage_fact f))
      end
  end.

(** C30. The two fact stores agree. For an event with a time whose ids both uuid
    parsers read alike, the batched store ignores, refuses or accepts it
    exactly when the Postgres consumer does, refuses it under the same code, and
    the row it accepts is the one the consumer inserts. *)
Theorem fact_stores_agree env now f :
  e_Time env <> time_zero ->
  (forall s, s ∈ [e_ID env; e_TenantID env; fact_subject env] -> pg_uuid s = go_uuid s) ->
  match ch_Handle (Some env) now with
  | None => Handle None env f = (None, f)
  | Some (inr err) => exists err', Handle None env f = (Some err', f) /\ Code err' = Code err /\ ErrKind err' = ErrKind err
  | Some (inl r) => Handle None env f = (None, fact_inserted r f)
  end.
Proof.
  intros Ht Hu. assert (He : pg_uuid (e_ID env) = go_uuid (e_ID env)) by (apply Hu; set_solver).
  assert (Htn : pg_uuid (e_TenantID env) = go_uuid (e_TenantID env)) by (apply Hu; set_solver).
  assert (Hs : pg_uuid (fact_subject env) = go_uuid (fact_subject env)) by (apply Hu; set_solver).
  unfold ch_Handle, Handle, interactionFact, usageFact, exec_fact, ins_interaction_fact, ins_usage_fact, newInteractionRow,
    newUsageRow, occurred_at. rewrite He, Htn, Hs, (proj2 (Z.eqb_neq _ _) Ht).
  destruct (is_interaction_topic (e_Type env)).
  - destruct (is_empty (fact_subject env)); [done|].
    destruct (go_uuid (fact_subject env)), (go_uuid (e_TenantID env)), (go_uuid (e_ID env)); cbn [fact_inserted ir_EventID];
      by try eexists.
  - destruct (String.eqb (e_Type env) TopicUsageRecorded); [|done].
    destruct (go_uuid (e_TenantID env)), (go_uuid (e_ID env)); cbn [fact_inserted ur_EventID]; by try eexists.
Qed.
End stores.

(** What a summary says when no row is missing. Its window is ordered and at
    most thirty days; the numbers by channel, by status and in total count the
    distinct (channel, status, interaction) facts of the tenant in the window,
    so the total is at least the number of interactions and exceeds it as soon
    as one of them has facts with two statuses or channels; events and tokens
    are those of the usage facts. *)
Lemma summary_counts t from to now1 now2 f sm :
  GetSummary t from to now1 now2 all_rows f = inl sm ->
  0 <= sm_To sm - sm_From sm <= 30 * day
  /\ (forall c, default 0 (InteractionsByChannel sm !! c)
        = count_facts (fun g => String.eqb g.1 c) t (sm_From sm) (sm_To sm) f)
  /\ (forall s, default 0 (InteractionsByStatus sm !! s)
        = count_facts (fun g => String.eqb g.2 s) t (sm_From sm) (sm_To sm) f)
  /\ TotalInteractions sm = Z.of_nat (length (remove_dups (window_facts t (sm_From sm) (sm_To sm) f)))
  /\ (let interactions := remove_dups (window_facts t (sm_From sm) (sm_To sm) f).*2 in
      Z.of_nat (length interactions) <= TotalInteractions sm
      /\ forall i g1 g2, (g1, i) ∈ window_facts t (sm_From sm) (sm_To sm) f -> (g2, i) ∈ window_facts t (sm_From sm) (sm_To sm) f ->
           g1 <> g2 -> Z.of_nat (length interactions) < TotalInteractions sm)
  /\ AIEvents sm = Z.of_nat (length (window_amounts t (sm_From sm) (sm_To sm) f))
  /\ TokensUsed sm = sum_list (window_amounts t (sm_From sm) (sm_To sm) f).
Proof.
  intros Hsum. pose proof (summary_fields _ _ _ _ _ _ _ Hsum) as (Htot & Hc & Hs). rewrite Htot. revert Hsum.
  unfold GetSummary. set (to' := if to =? time_zero then now1 else to). set (from' := if from =? time_zero then to' - day else from).
  destruct (Z.ltb_spec (30 * day) (time_Sub to' from')) as [|Hw]; [done|]. destruct (Z.ltb_spec to' from') as [|Ho]; [done|].
  cbn [all_rows qf_query qf_stop qf_scan qf_usage]. destruct (fold_left add_group _ _) as [[chans statuses] total].
  destruct (bool_decide (in_int64 _)); [|done]. intros [= <-]. cbn [sm_From sm_To AIEvents TokensUsed] in *.
  split_and!; try done.
  - lia.
  - unfold time_Sub, int64_max, int64_min, day in *. lia.
  - apply Nat2Z.inj_le. apply distinct_seconds_le.
  - intros i g1 g2 H1 H2 Hne. apply Nat2Z.inj_lt. by apply (distinct_seconds_lt _ i g1 g2).
Qed.

Lemma filter_Permutation_length {A} (p : A -> bool) l k : l ≡ₚ k -> length (List.filter p l) = length (List.filter p k).
Proof.
  induction 1 as [|x l1 l2 _ IH|x y l|l1 l2 l3 _ IH1 _ IH2]; cbn [List.filter]; [done| |by destruct (p x), (p y)|congruence].
  destruct (p x); simpl; congruence.
Qed.

Section inflation.
Context `{UUIDs}.

(** The facts of an interaction's creation and of a later transition. *)
Definition two_facts (v1 v2 : Envelope) : Facts := (Handle None v2 (Handle None v1 (MkFacts ∅ ∅)).2).2.

Lemma two_facts_eq v1 v2 r t id from to reason x1 x2 t' i :
  e_Type v1 = TopicInteractionCreated -> e_Subject v1 = id -> e_TenantID v1 = t -> e_Data v1 = Interactions.created_data r ->
  InteractionsProps.transition_event v2 t id from to reason -> id <> "" -> r_Status r <> "" ->
  pg_uuid (e_ID v1) = Some x1 -> pg_uuid (e_ID v2) = Some x2 -> x1 <> x2 -> pg_uuid t = Some t' -> pg_uuid id = Some i ->
  two_facts v1 v2 = MkFacts (<[x2 := MkInteractionRow x2 t' i "" "" "unknown" (e_Time v2)]>
    {[x1 := MkInteractionRow x1 t' i (r_Channel r) (r_Direction r) (r_Status r) (e_Time v1)]}) ∅.
Proof.
  intros Hty1 Hsu1 Ht1 Hd1 (Hty2 & Ht2 & Hsu2 & Hd2) Hid Hst Hx1 Hx2 Hne Ht Hi.
  assert (H1 : Handle None v1 (MkFacts ∅ ∅) =
    (None, MkFacts {[x1 := MkInteractionRow x1 t' i (r_Channel r) (r_Direction r) (r_Status r) (e_Time v1)]} ∅)).
  { assert (Hfs : fact_subject v1 = id) by (unfold fact_subject; by rewrite Hsu1, (proj2 (is_empty_false id) Hid)).
    assert (Hss : fact_status v1 = r_Status r).
    { unfold fact_status. rewrite Hd1. change (dict_str (Interactions.created_data r) "status") with (r_Status r).
      by rewrite (proj2 (is_empty_false _) Hst). }
    unfold Handle, interactionFact, exec_fact, ins_interaction_fact.
    rewrite Hty1, Hfs, Hss, (proj2 (is_empty_false id) Hid), Hx1, Ht1, Ht, Hi, Hd1. cbn [interaction_fact usage_fact]. by rewrite lookup_empty. }
  unfold two_facts. rewrite H1. cbn [snd].
    assert (Hfs : fact_subject v2 = id) by (unfold fact_subject; by rewrite Hsu2, (proj2 (is_empty_false id) Hid)).
    assert (Hss : fact_status v2 = "unknown") by (unfold fact_status; by rewrite Hd2).
    assert (Htop : is_interaction_topic (e_Type v2) = true).
    { rewrite Hty2. unfold Interactions.transition_topic. by destruct (String.eqb to _). }
    unfold Handle, interactionFact, exec_fact, ins_interaction_fact.
    rewrite Htop, Hfs, Hss, (proj2 (is_empty_false id) Hid), Hx2, Ht2, Ht, Hi, Hd2. cbn [interaction_fact].
    by rewrite lookup_singleton_ne.
Qed.

Lemma two_facts_window (v1 v2 : Envelope) (r : Rec) x1 x2 t' i lo hi :
  x1 <> x2 -> lo <= e_Time v1 <= hi -> lo <= e_Time v2 <= hi ->
  window_facts t' lo hi (MkFacts (<[x2 := MkInteractionRow x2 t' i "" "" "unknown" (e_Time v2)]>
    {[x1 := MkInteractionRow x1 t' i (r_Channel r) (r_Direction r) (r_Status r) (e_Time v1)]}) ∅)
  ≡ₚ [(r_Channel r, r_Status r, i); ("", "unknown", i)].
Proof.
  intros Hne Hw1 Hw2.
  unfold window_facts. cbn [interaction_fact].
  rewrite map_to_list_insert by (by rewrite lookup_singleton_ne). rewrite map_to_list_singleton. cbn [omap list_omap snd fst
    ir_TenantID ir_OccurredAt ir_Channel ir_Status ir_InteractionID].
  unfold in_window. rewrite String.eqb_refl. cbn [andb].
  rewrite !(proj2 (Z.leb_le _ _)) by lia. cbn [andb]. constructor.
Qed.
End inflation.

(** From the interaction service's events to the summary: an interaction
    that was created and then changed status is two interactions in the
    summary, because the event of the change names neither status nor channel:
    one under the status it started with and one under "unknown". *)
Lemma status_change_counts_twice `{UUIDs} v1 v2 r t id from to reason x1 x2 t' i lo hi now1 now2 sm :
  e_Type v1 = TopicInteractionCreated -> e_Subject v1 = id -> e_TenantID v1 = t -> e_Data v1 = Interactions.created_data r ->
  InteractionsProps.transition_event v2 t id from to reason -> id <> "" -> r_Status r <> "" -> r_Status r <> "unknown" ->
  pg_uuid (e_ID v1) = Some x1 -> pg_uuid (e_ID v2) = Some x2 -> x1 <> x2 -> pg_uuid t = Some t' -> pg_uuid id = Some i ->
  GetSummary t' lo hi now1 now2 all_rows (two_facts v1 v2) = inl sm ->
  sm_From sm <= e_Time v1 <= sm_To sm -> sm_From sm <= e_Time v2 <= sm_To sm ->
  TotalInteractions sm = 2
  /\ default 0 (InteractionsByStatus sm !! r_Status r) = 1
  /\ default 0 (InteractionsByStatus sm !! "unknown") = 1
  /\ forall k row, interaction_fact (two_facts v1 v2) !! k = Some row -> ir_InteractionID row = i.
Proof.
  intros Hty1 Hsu1 Ht1 Hd1 Hev Hid Hst Hunk Hx1 Hx2 Hne Ht Hi Hsum Hw1 Hw2.
  apply summary_fields in Hsum as (Htot & _ & Hstat).
  pose proof (two_facts_window v1 v2 r x1 x2 t' i _ _ Hne Hw1 Hw2) as Hwin.
  pose proof (two_facts_eq v1 v2 r t id from to reason x1 x2 t' i Hty1 Hsu1 Ht1 Hd1 Hev Hid Hst Hx1 Hx2 Hne Ht Hi) as Heq.
  rewrite <- Heq in Hwin.
  assert (Hd : remove_dups (window_facts t' (sm_From sm) (sm_To sm) (two_facts v1 v2))
    ≡ₚ [(r_Channel r, r_Status r, i); ("", "unknown", i)]).
  { apply NoDup_Permutation; [apply NoDup_remove_dups| |].
    - apply NoDup_cons. split; [|apply NoDup_singleton]. rewrite list_elem_of_singleton. intros [= _ ?]. done.
    - intros x. rewrite elem_of_remove_dups. by rewrite Hwin. }
  split; [rewrite Htot; by rewrite (Permutation_length Hd)|].
  rewrite !Hstat. unfold count_facts. rewrite !(filter_Permutation_length _ _ _ Hd). cbn [List.filter fst snd].
  rewrite String.eqb_refl, (proj2 (String.eqb_neq _ _) Hunk).
  rewrite (proj2 (String.eqb_neq _ _) (not_eq_sym Hunk)). split; [done|]. split; [done|].
  intros k row. rewrite Heq. cbn [interaction_fact]. intros [[_ <-]|[_ [_ <-]%lookup_singleton_Some]]%lookup_insert_Some; done.
Qed.

(** ** Defects next to these *)

(** The stash is not bounded by the channels: while producers keep up with
    [drain] it takes row after row before a flush. *)
Lemma stash_unbounded r n :
  exists s, rtc ch_step (ch_New (MkOptions "clickhouse://h" 1 0 0 0)) s /\ stash (inter s) = repeat r n /\ ch (inter s) = []
    /\ length (stash (inter s)) = n.
Proof.
  assert (exists s, rtc ch_step (ch_New (MkOptions "clickhouse://h" 1 0 0 0)) s /\ stash (inter s) = repeat r n
    /\ ch (inter s) = [] /\ entering (inter s) = [] /\ maxRows s = 1%nat /\ closed s = false
    /\ (phase s = FSelect \/ phase s = FDrain false)) as (s & ? & Hst & ? & _).
  { induction n as [|n (s & Hr & Hst & Hc & He & Hm & Hcl & Hp)]; [eexists; split; [apply rtc_refl|]; by split_and!; auto|].
    set (s1 := with_lanes (lane_enter r) id s). set (s2 := try_send false 0 s1).
    assert (Hs1 : ch_step s s1) by (apply (ch_enqueue (FactInteraction r)); unfold enqueue; by rewrite Hcl).
    assert (Hs2 : inter s2 = MkLane [r] [] (blocked (inter s)) (repeat r n) (pending (inter s)) (accepted (inter s) ++ [r])
      (sent (inter s)) (shed (inter s)) (lost (inter s))).
    { unfold s2, s1, try_send, lane_try. store_cbn. rewrite He, Hm, Hc, Hst. reflexivity. }
    exists (with_phase (FDrain false) (with_lanes lane_recv id s2)). split.
    - eapply rtc_r; [eapply rtc_r; [eapply rtc_r; [exact Hr|exact Hs1]|apply (ch_try false 0)]|]. fold s2.
      destruct Hp as [Hp|Hp].
      + apply (ch_recv false). unfold loop_recv. change (phase s2) with (phase s). rewrite Hp, Hs2. reflexivity.
      + apply (ch_drain false). unfold drain_one. change (phase s2) with (phase s). rewrite Hp, Hs2.
        cbn [ch length Nat.ltb Nat.leb]. f_equal. unfold with_phase, with_lanes. cbn. by rewrite Hp.
    - store_cbn. rewrite Hs2. unfold lane_recv. cbn [ch stash entering]. split_and!; try done; [|by right].
      by rewrite <- repeat_cons. }
  exists s. split_and!; try done. by rewrite Hst, repeat_length.
Qed.

(** A connection that breaks between rows is not noticed: the summary is
    returned with what had arrived. *)
Lemma broken_rows_unnoticed t from to now1 now2 f sm n :
  GetSummary t from to now1 now2 all_rows f = inl sm ->
  exists sm', GetSummary t from to now1 now2 (MkFate None (Some n) None None) f = inl sm'.
Proof.
  unfold GetSummary. set (to' := if to =? time_zero then now1 else to). set (from' := if from =? time_zero then to' - day else from).
  destruct (30 * day <? _); [done|]. destruct (to' <? from'); [done|]. cbn [all_rows qf_query qf_stop qf_scan qf_usage].
  destruct (fold_left add_group _ _) as [[? ?] ?]. destruct (fold_left add_group (take n _) _) as [[? ?] ?].
  destruct (bool_decide _); [|done]. by eexists.
Qed.

(** ** Concrete runs *)

Definition demo_row : InteractionRow := MkInteractionRow "e1" "t1" "i1" "voice" "inbound" "active" 5.

Definition demo_options : Options := MkOptions "clickhouse://h" 2 0 0 0.

(** One row in, the store closed, the last flush refused. *)
Definition demo_closed : Store :=
  let s := (enqueue (FactInteraction demo_row) (ch_New demo_options)).2 in
  let s := close_mark (try_send false 0 s) in
  let next (o : option Store) s := match o with Some s' => s' | None => s end in
  let s := next (close_stop s) s in
  let s := next (loop_stop s) s in
  let s := next (drain_one false s) s in
  let s := next (drain_end s) s in
  next (flush None (Some (OtherErr "refused" None)) None None s) s.

Lemma demo_closed_reachable : rtc ch_step (ch_New demo_options) demo_closed.
Proof.
  eapply rtc_l; [by apply (ch_enqueue (FactInteraction demo_row)); reflexivity|].
  eapply rtc_l; [by apply (ch_try false 0)|]. eapply rtc_l; [by apply ch_close|].
  eapply rtc_l; [by apply ch_close_stop; reflexivity|]. eapply rtc_l; [by apply ch_stop; reflexivity|].
  eapply rtc_l; [by apply (ch_drain false); reflexivity|]. eapply rtc_l; [by apply ch_drained; reflexivity|].
  eapply rtc_l; [by apply (ch_flush None (Some (OtherErr "refused" None)) None None); reflexivity|]. vm_compute. apply rtc_refl.
Qed.

Lemma facts_accounted_witness :
  phase demo_closed = FDone /\ length (lost (inter demo_closed)) = 1%nat /\ length (finalErr demo_closed) = 1%nat
  /\ closed demo_closed = true.
Proof.
  destruct (facts_accounted demo_options demo_closed demo_closed_reachable) as (_ & _ & _ & _ & H).
  destruct (H eq_refl) as (_ & _ & Hc & _). split; [reflexivity|]. split; [reflexivity|]. split; [reflexivity|]. exact Hc.
Defined.

(** Every text is a uuid. *)
#[local] Instance demo_uuids : UUIDs := {| pg_uuid := Some; go_uuid := Some |}.

Definition demo_created : Envelope :=
  MkEnvelope "e1" TopicInteractionCreated "api" "i1" "t1" "" 10 (Interactions.created_data InteractionsProps.row1).

Definition demo_failed : Envelope :=
  MkEnvelope "e2" TopicInteractionUpdated "api" "i1" "t1" "" 20 (Interactions.transition_data "i1" "pending" "failed" "busy").

Lemma fact_stores_agree_witness :
  ch_Handle (Some demo_created) 0 <> None /\ (Handle None demo_created (MkFacts ∅ ∅)).1 = None.
Proof.
  assert (e_Time demo_created <> time_zero) as Ht by discriminate.
  pose proof (fact_stores_agree demo_created 0 (MkFacts ∅ ∅) Ht (fun s _ => eq_refl)) as H.
  split; [discriminate|]. change (ch_Handle (Some demo_created) 0) with
    (Some (inl (FactInteraction (MkInteractionRow "e1" "t1" "i1" (r_Channel InteractionsProps.row1)
       (r_Direction InteractionsProps.row1) (r_Status InteractionsProps.row1) 10))) : option (Fact + Error)) in H.
  cbn beta iota in H. by rewrite H.
Defined.

Definition demo_summary : Summary + Error :=
  GetSummary "t1" 1 100 0 200 all_rows (two_facts demo_created demo_failed).

Lemma summary_counts_witness : exists sm, demo_summary = inl sm /\ AIEvents sm = 0.
Proof.
  destruct demo_summary as [sm|x] eqn:E; [|vm_compute in E; discriminate].
  destruct (summary_counts _ _ _ _ _ _ _ E) as (_ & _ & _ & _ & _ & H & _).
  exists sm. split; [done|]. rewrite H. reflexivity.
Defined.

Lemma demo_event : InteractionsProps.transition_event demo_failed "t1" "i1" "pending" "failed" "busy".
Proof. split_and!; reflexivity. Qed.

Lemma status_change_counts_twice_witness : exists sm, demo_summary = inl sm /\ TotalInteractions sm = 2.
Proof.
  destruct demo_summary as [sm|x] eqn:E; [|vm_compute in E; discriminate].
  assert (sm_From sm = 1 /\ sm_To sm = 100) as [Hf Ht] by (vm_compute in E; injection E as <-; done).
  exists sm. split; [done|]. unfold demo_summary in E.
  assert (sm_From sm <= e_Time demo_created <= sm_To sm) as H1 by (rewrite Hf, Ht; vm_compute; split; discriminate).
  assert (sm_From sm <= e_Time demo_failed <= sm_To sm) as H2 by (rewrite Hf, Ht; vm_compute; split; discriminate).
  pose proof (status_change_counts_twice demo_created demo_failed InteractionsProps.row1 "t1" "i1" "pending" "failed" "busy"
    "e1" "e2" "t1" "i1" 1 100 0 200 sm) as H.
  destruct H; [reflexivity..|exact demo_event|discriminate|discriminate|discriminate|reflexivity|reflexivity
    |discriminate|reflexivity|reflexivity|exact E|exact H1|exact H2|done].
Defined.
