(* ===== verification/TemporalClient.v ===== *)
(** * internal/workflows/temporaldriver: the driver

    driver.go with its configuration (config.go, client.go) and the activities
    a worker hosts (activities.go). The audit store is the port [StorePort],
    with the PostgreSQL and the in-process store as instances; the Temporal
    SDK is the port [Client] over a state of its own. *)

From Stdlib Require Import String.
From S2P Require Import Prelude GoStd AppErrors Events Text Store Sql Wp Workflows TemporalStore.
From S2P Require MemoryStore.
From S2P Require Import TemporalDriver.
From S2P Require Import WorkflowsProps.
From S2P Require MemoryStore.
From S2P Require Import TemporalProps.

Local Open Scope Z_scope.

(** ** config.go *)

Definition EnvURL := "ORVEXA_TEMPORAL_URL".
Definition EnvNamespace := "ORVEXA_TEMPORAL_NAMESPACE".
Definition EnvTaskQueue := "ORVEXA_TEMPORAL_TASK_QUEUE".
Definition EnvSource := "ORVEXA_WORKFLOWS_SOURCE".

Definition DefaultNamespace := "default".
Definition DefaultTaskQueue := "orvexa-workflows".
Definition DefaultSource := "orvexa-temporal".

Record Config := MkConfig {
  HostPort : string;
  Namespace : string;
  TaskQueue : string;
  Source : string;
}.

Fixpoint firstNonEmpty (vals : list string) : string :=
  match vals with
  | [] => ""
  | v :: vals => if negb (is_empty v) then v else firstNonEmpty vals
  end.

(** The loop over the tolerated schemes. *)
Fixpoint strip_scheme (schemes : list string) (v : string) : string :=
  match schemes with
  | [] => v
  | p :: schemes =>
      if has_prefix v p then trim_suffix (trim_prefix v p) "/" else strip_scheme schemes v
  end.

Definition normalizeURL (v : string) : string :=
  strip_scheme ["https://"; "http://"; "grpc://"] (trim_space v).

Definition FromEnv (Getenv : string -> string) : Config :=
  MkConfig (normalizeURL (Getenv EnvURL)) (firstNonEmpty [Getenv EnvNamespace; DefaultNamespace])
    (firstNonEmpty [Getenv EnvTaskQueue; DefaultTaskQueue])
    (firstNonEmpty [Getenv EnvSource; DefaultSource]).

Definition withDefaults (c : Config) : Config :=
  MkConfig (normalizeURL (HostPort c)) (firstNonEmpty [Namespace c; DefaultNamespace])
    (firstNonEmpty [TaskQueue c; DefaultTaskQueue]) (firstNonEmpty [Source c; DefaultSource]).

(** ** client.go *)

Definition workflowIDPrefix := "orvexa-workflow-".
Definition WorkflowID (instanceID : string) : string := workflowIDPrefix +:+ instanceID.

Record StartWorkflowOptions := MkStartWorkflowOptions {
  so_ID : string;
  so_TaskQueue : string;
}.

(** A workflow function of [workflowRefs] with its argument. *)
Inductive WorkflowCall :=
| CallCallback (i : CallbackInput)
| CallCollections (i : CollectionsInput).

(** The SDK's client; [is_NotFound] is the type test on
    [*serviceerror.NotFound], a description holds the status of its execution
    info, if there is one. *)
Record Client (T : Type) := MkClient {
  ExecuteWorkflow : StartWorkflowOptions -> WorkflowCall -> T -> option error * T;
  CancelWorkflow : string -> string -> T -> option error * T;
  DescribeWorkflowExecution : string -> string -> T -> (option string + error) * T;
  CheckHealth : T -> option error * T;
  CloseClient : T -> T;
  is_NotFound : error -> bool;
}.
Arguments MkClient {T}.
Arguments ExecuteWorkflow {T}.
Arguments CancelWorkflow {T}.
Arguments DescribeWorkflowExecution {T}.
Arguments CheckHealth {T}.
Arguments CloseClient {T}.
Arguments is_NotFound {T}.

Definition isNotFound {T} (cl : Client T) (err : error) : bool := is_NotFound cl err.

(** [client.DialContext] by host and namespace. *)
Definition dialSDK {T} (DialContext : string -> string -> Client T + error) (c : Config)
    : Client T + error :=
  if is_empty (HostPort c) then
    inr (AppErr (Invalid "temporal.url_required"
      "ORVEXA_TEMPORAL_URL (host:port of the Temporal frontend) is required"))
  else match DialContext (HostPort c) (Namespace c) with
       | inr err => inr (AppErr (WithCause (Internal "temporal.dial_failed" "temporal connect failed") err))
       | inl cl => inl cl
       end.

Definition dialClient {T} (DialContext : string -> string -> Client T + error) (c : Config)
    : Client T + error :=
  match dialSDK DialContext c with
  | inr err => inr err
  | inl cl => inl cl
  end.

(** ** The audit port *)

Record StorePort (S : Type) := MkStorePort {
  st_StartInstance : StartRecord -> S -> option error * S;
  st_RecordStep : StepRecord -> S -> option error * S;
  st_CompleteInstance : DoneRecord -> S -> option error * S;
  st_MarkCanceled : DoneRecord -> S -> option error * S;
  st_MarkFailed : DoneRecord -> S -> option error * S;
  st_GetInstance : string -> string -> S -> (Instance + error) * S;
}.
Arguments MkStorePort {S}.
Arguments st_StartInstance {S}.
Arguments st_RecordStep {S}.
Arguments st_CompleteInstance {S}.
Arguments st_MarkCanceled {S}.
Arguments st_MarkFailed {S}.
Arguments st_GetInstance {S}.

(** [uuid.NewString] and [nowFunc], in the process that holds the store. *)
Record ProcessPort (S : Type) := MkProcessPort {
  p_uuid : S -> string * S;
  p_now : S -> Z * S;
}.
Arguments MkProcessPort {S}.
Arguments p_uuid {S}.
Arguments p_now {S}.

(** [NewPostgresStore], run in an environment. *)
Definition returns_error (m : M (option error)) (e : env) (s : st) : option error * st :=
  match m e s with
  | (Ok r, s') => (r, s')
  | (Err x, s') => (Some (AppErr x), s')
  end.

Definition PostgresPort (source : string) (e : env) : StorePort st :=
  MkStorePort
    (fun rec => returns_error (StartInstance source rec) e)
    (fun rec => returns_error (RecordStep source rec) e)
    (fun rec => returns_error (CompleteInstance source rec) e)
    (fun rec => returns_error (MarkCanceled rec) e)
    (fun rec => returns_error (MarkFailed rec) e)
    (fun tenantID id s =>
       match GetInstance tenantID id e s with
       | (Ok i, s') => (inl i, s')
       | (Err x, s') => (inr (AppErr x), s')
       end).

Definition postgres_process (e : env) : ProcessPort st :=
  MkProcessPort (fun s => (uuid_of e (steps s), bump s)) (fun s => (clock e (steps s), bump s)).

(** The in-process store with the number of clock readings and identifiers
    drawn so far. *)
Definition memory_op (f : Z -> MemoryStore.MemoryStore -> option error * MemoryStore.MemoryStore)
    (clocks : nat -> Z) (s : MemoryStore.MemoryStore * nat) : option error * (MemoryStore.MemoryStore * nat) :=
  let '(r, m) := f (clocks s.2) s.1 in (r, (m, S s.2)).

Definition MemoryPort (clocks : nat -> Z) : StorePort (MemoryStore.MemoryStore * nat) :=
  MkStorePort
    (fun rec => memory_op (MemoryStore.StartInstance rec) clocks)
    (fun rec => memory_op (MemoryStore.RecordStep rec) clocks)
    (fun rec => memory_op (MemoryStore.CompleteInstance rec) clocks)
    (fun rec => memory_op (MemoryStore.MarkCanceled rec) clocks)
    (fun rec => memory_op (MemoryStore.MarkFailed rec) clocks)
    (fun tenantID id s => (MemoryStore.GetInstance tenantID id s.1, s)).

Definition memory_process (uuids : nat -> string) (clocks : nat -> Z)
    : ProcessPort (MemoryStore.MemoryStore * nat) :=
  MkProcessPort (fun s => (uuids s.2, (s.1, S s.2))) (fun s => (clocks s.2, (s.1, S s.2))).

(** ** driver.go *)

Record Driver (S T : Type) := MkDriver {
  client : Client T;
  cfg : Config;
  store : option (StorePort S);
  process : ProcessPort S;
}.
Arguments MkDriver {S T}.
Arguments client {S T}.
Arguments cfg {S T}.
Arguments store {S T}.
Arguments process {S T}.

Section Driver.
Context {S T : Type}.
Implicit Types (d : Driver S T) (w : S * T).

(** [Option] *)
Definition DriverOption : Type := Driver S T -> Driver S T.

Definition WithStore (s : StorePort S) : DriverOption :=
  fun d => MkDriver (client d) (cfg d) (Some s) (process d).

Definition New (p : ProcessPort S) (cl : Client T) (c : Config) (opts : list DriverOption) : Driver S T :=
  fold_left (fun d o => o d) opts (MkDriver cl (withDefaults c) None p).

Definition Dial (p : ProcessPort S) (DialContext : string -> string -> Client T + error) (c : Config)
    (opts : list DriverOption) : Driver S T + error :=
  match dialClient DialContext (withDefaults c) with
  | inr err => inr err
  | inl cl => inl (New p cl c opts)
  end.

Definition Close d w : S * T := (w.1, CloseClient (client d) w.2).

Definition Healthy d w : option error * (S * T) :=
  let '(r, t) := CheckHealth (client d) w.2 in
  (match r with
   | Some err => Some (AppErr (WithCause (Internal "temporal.unhealthy" "temporal health check failed") err))
   | None => None
   end, (w.1, t)).

Definition errStoreRequired : error :=
  AppErr (Internal "temporal.store_required"
    ("this driver instance has no audit store; construct it with WithStore(NewPostgresStore(pool, "
     +:+ quote DefaultSource +:+ ")) or WithStore(NewMemoryStore())")).

Definition new_instance (id tenantID typ : string) (payload : dict) (when : Z) (firstStep : string)
    : Instance :=
  MkInstance id tenantID typ StatusWaitingTimer payload [] firstStep (Some when) 0 ""
    time_zero time_zero.

(** The audit row of a start Temporal rejected; the store's answer is
    dropped. *)
Definition mark_rejected d (tenantID typ id : string) (err : error) (s : S) : S :=
  match store d with
  | Some st => (st_MarkFailed st (MkDoneRecord id tenantID typ "" [] (error_text err)) s).2
  | None => s
  end.

Definition start d (tenantID typ : string) (payload : dict) (when : Z) (firstStep : string)
    (mk : string -> WorkflowCall) w : (Instance + error) * (S * T) :=
  let '(id, s) := p_uuid (process d) w.1 in
  let inst := new_instance id tenantID typ payload when firstStep in
  let '(r, s) := match store d with
                 | Some st => st_StartInstance st (MkStartRecord inst [("scheduled_for", VTime when)]) s
                 | None => (None, s)
                 end in
  match r with
  | Some err => (inr err, (s, w.2))
  | None =>
      let '(x, t) := ExecuteWorkflow (client d)
                       (MkStartWorkflowOptions (WorkflowID id) (TaskQueue (cfg d))) (mk id) w.2 in
      match x with
      | Some err =>
          (inr (AppErr (WithCause (Internal "temporal.start_failed" "workflow start failed") err)),
           (mark_rejected d tenantID typ id err s, t))
      | None => (inl inst, (s, t))
      end
  end.

Definition StartCallback d (tenantID : string) (i : StartCallbackInput) w
    : (Instance + error) * (S * T) :=
  if is_empty (sc_CustomerID i) then
    (inr (AppErr (Invalid "workflow.customer_required" "customer_id is required")), w)
  else if is_empty (sc_Phone i) then
    (inr (AppErr (Invalid "workflow.phone_required" "phone is required")), w)
  else
  let '(when, s) := if sc_ScheduleAt i =? time_zero then
                      let '(now, s) := p_now (process d) w.1 in (now + 30 * minute, s)
                    else (sc_ScheduleAt i, w.1) in
  let '(now, s) := p_now (process d) s in
  if when <? now then
    (inr (AppErr (Invalid "workflow.schedule_past" "schedule_at must be in the future")), (s, w.2))
  else
  start d tenantID TypeCallback
    [("customer_id", VStr (sc_CustomerID i)); ("phone", VStr (sc_Phone i)); ("notes", VStr (sc_Notes i))]
    when StepScheduled
    (fun id => CallCallback (MkCallbackInput id tenantID (sc_CustomerID i) (sc_Phone i) (sc_Notes i) when))
    (s, w.2).

Definition StartCollections d (tenantID : string) (i : StartCollectionsInput) w
    : (Instance + error) * (S * T) :=
  if is_empty (sl_CustomerID i) || is_empty (sl_InvoiceRef i) then
    (inr (AppErr (Invalid "workflow.fields_required" "customer_id and invoice_ref are required")), w)
  else if sl_AmountDue i <=? 0 then
    (inr (AppErr (Invalid "workflow.amount_invalid" "amount_due must be positive")), w)
  else if is_empty (sl_Phone i) then
    (inr (AppErr (Invalid "workflow.phone_required" "phone is required")), w)
  else
  let '(now, s) := p_now (process d) w.1 in
  start d tenantID TypeCollections
    [("customer_id", VStr (sl_CustomerID i)); ("invoice_ref", VStr (sl_InvoiceRef i));
     ("amount_due", VInt (sl_AmountDue i)); ("phone", VStr (sl_Phone i))]
    now StepContacted
    (fun id => CallCollections (MkCollectionsInput id tenantID (sl_CustomerID i) (sl_InvoiceRef i)
                                  (sl_AmountDue i) (sl_Phone i)))
    (s, w.2).

Definition Get d (tenantID id : string) w : (Instance + error) * (S * T) :=
  match store d with
  | None => (inr errStoreRequired, w)
  | Some st => let '(r, s) := st_GetInstance st tenantID id w.1 in (r, (s, w.2))
  end.

Definition not_found : error := AppErr (NotFound "workflow.not_found" "workflow not found").

Definition Cancel d (tenantID id : string) w : (Instance + error) * (S * T) :=
  match store d with
  | None => (inr errStoreRequired, w)
  | Some st =>
      let '(r, s) := st_GetInstance st tenantID id w.1 in
      match r with
      | inr err => (inr err, (s, w.2))
      | inl cur =>
          if negb (String.eqb (wi_Status cur) StatusRunning)
             && negb (String.eqb (wi_Status cur) StatusWaitingTimer) then
            (inr (AppErr (Conflict "workflow.not_cancelable" "workflow is not running")), (s, w.2))
          else
          let '(x, t) := CancelWorkflow (client d) (WorkflowID id) "" w.2 in
          match x with
          | Some err =>
              (inr (if isNotFound (client d) err then not_found
                    else AppErr (WithCause (Internal "temporal.cancel_failed" "cancel failed") err)), (s, t))
          | None =>
              let '(y, s) := st_MarkCanceled st (MkDoneRecord id tenantID (wi_Type cur) "" [] "") s in
              match y with
              | Some err => (inr err, (s, t))
              | None => let '(r, s) := st_GetInstance st tenantID id s in (r, (s, t))
              end
          end
      end
  end.

Definition TemporalStatus d (instanceID : string) w : (string + error) * (S * T) :=
  let '(r, t) := DescribeWorkflowExecution (client d) (WorkflowID instanceID) "" w.2 in
  (match r with
   | inr err =>
       inr (if isNotFound (client d) err then not_found
            else AppErr (WithCause (Internal "temporal.describe_failed" "describe failed") err))
   | inl None => inl "unknown"
   | inl (Some status) => inl status
   end, (w.1, t)).
End Driver.

(** ** activities.go *)

Section Activities.
Context {S U : Type}.

(** [workflows.Services] over a state of its own: tenant, customer, channel,
    address, body. *)
Definition ServicesPort : Type :=
  string -> string -> string -> string -> string -> U -> option error * U.

Record Activities := MkActivities {
  a_Services : option ServicesPort;
  a_Store : option (StorePort S);
}.

Record RecordStepInput := MkRecordStepInput {
  ri_InstanceID : string;
  ri_TenantID : string;
  ri_Type : string;
  ri_ExpectedPrev : string;
  ri_DoneStep : string;
  ri_Detail : dict;
  ri_Next : option NextStep;
}.

Record CompleteInput := MkCompleteInput {
  co_InstanceID : string;
  co_TenantID : string;
  co_Type : string;
  co_ExpectedPrev : string;
  co_Detail : dict;
}.

Record AuditInput := MkAuditInput {
  au_InstanceID : string;
  au_TenantID : string;
  au_Type : string;
  au_Error : string;
}.

Definition QueueMessageActivity (a : Activities) (i : QueueMessageInput) (u : U) : option error * U :=
  match a_Services a with
  | None => (Some (AppErr (Internal "temporal.services_unwired"
                             "message services are not wired into the temporal worker")), u)
  | Some send => send (qm_TenantID i) (qm_CustomerID i) (qm_Channel i) (qm_To i) (qm_Body i) u
  end.

Definition RecordStepActivity (a : Activities) (i : RecordStepInput) (s : S) : option error * S :=
  match a_Store a with
  | None => (None, s)
  | Some st =>
      st_RecordStep st (MkStepRecord (ri_InstanceID i) (ri_TenantID i) (ri_Type i) (ri_ExpectedPrev i)
                          (ri_DoneStep i) (ri_Detail i) (ri_Next i)) s
  end.

Definition CompleteInstanceActivity (a : Activities) (i : CompleteInput) (s : S) : option error * S :=
  match a_Store a with
  | None => (None, s)
  | Some st =>
      st_CompleteInstance st (MkDoneRecord (co_InstanceID i) (co_TenantID i) (co_Type i)
                                (co_ExpectedPrev i) (co_Detail i) "") s
  end.

Definition CancelAuditActivity (a : Activities) (i : AuditInput) (s : S) : option error * S :=
  match a_Store a with
  | None => (None, s)
  | Some st => st_MarkCanceled st (MkDoneRecord (au_InstanceID i) (au_TenantID i) (au_Type i) "" [] "") s
  end.

Definition FailAuditActivity (a : Activities) (i : AuditInput) (s : S) : option error * S :=
  match a_Store a with
  | None => (None, s)
  | Some st =>
      st_MarkFailed st (MkDoneRecord (au_InstanceID i) (au_TenantID i) (au_Type i) "" [] (au_Error i)) s
  end.
End Activities.

(** ** Properties of the Temporal driver

    What a start checks, against the engine of internal/workflows; and that a
    live audit row of the in-process store has its workflow, over every history
    of the driver and every answer of the Temporal frontend. *)

(** ** A started instance *)

(** The tables after a start: the row, its first step, its event. *)
Definition started (i : Instance) (now : Z) (d d' : DB) : Prop :=
  d_workflows d !! wi_ID i = None
  /\ d_workflows d' = <[wi_ID i :=
       MkInstance (wi_ID i) (wi_TenantID i) (wi_Type i) (wi_Status i) (wi_Payload i) (wi_State i)
         (wi_CurrentStep i) (wi_NextRunAt i) 0 "" now now]> (d_workflows d)
  /\ d_wf_steps d' = d_wf_steps d
       ++ [MkWfStep (wi_ID i) (wi_CurrentStep i) [("scheduled_for", VTime (default time_zero (wi_NextRunAt i)))]]
  /\ exists v, d_outbox d' = d_outbox d ++ [MkOutboxRow v "pending" 0 "" None]
       /\ e_Type v = TopicWorkflowStarted /\ e_Subject v = wi_ID i.

Section healthy.
Context (source : string) (e : env) (Hh : healthy e) (now : Z) (Hclock : forall n, clock e n = now).

Lemma wp_start_tx {A} (i : Instance) (data : dict) (a : A) (s : st) :
  wi_TenantID i <> "" -> fresh e (steps s) (committed s) ->
  d_workflows (committed s) !! wi_ID i = None ->
  wp (with_tx "workflow failed" (
        _ ← insertInstance i;
        _ ← recordStep (wi_ID i) (wi_CurrentStep i) [("scheduled_for", VTime (default time_zero (wi_NextRunAt i)))];
        _ ← emit source TopicWorkflowStarted (wi_ID i) (wi_TenantID i) data;
        _ ← commit_or "workflow failed";
        mret a)) e s
    (fun r s' => r = Ok a /\ started i now (committed s) (committed s')).
Proof.
  intros Ht Hf Hi. wp_step; try no_fault Hh. wp_step. unfold insertInstance.
  wp_step. wp_step; try no_fault Hh; wp_simpl; wp_go;
    unfold ins_instance in Hx; rewrite Hi in Hx; [done|]. injection Hx as <- _.
  apply wp_recordStep_ok; [done|]. wp_step.
  apply wp_emit_ok; [done|done|done| |].
  { eapply fresh_frame; [exact Hf|lia|done]. }
  intros v n' Hv Hs _. wp_go; try no_fault Hh. split; [done|].
  unfold started. rewrite Hclock. split_and!; [done..|]. by exists v.
Qed.

(** ** What a start checks *)

(** The time a callback is due. *)
Definition callback_time (i : StartCallbackInput) : Z :=
  if sc_ScheduleAt i =? time_zero then now + 30 * minute else sc_ScheduleAt i.

(** The refusal of a callback: [owned] is the check that the tenant has the
    customer. *)
Definition callback_verdict (owned : bool) (i : StartCallbackInput) : option Error :=
  if is_empty (sc_CustomerID i) then
    Some (Invalid "workflow.customer_required" "customer_id is required")
  else if is_empty (sc_Phone i) then
    Some (Invalid "workflow.phone_required" "phone is required")
  else if negb owned then Some (NotFound "customer.not_found" "customer not found")
  else if callback_time i <? now then
    Some (Invalid "workflow.schedule_past" "schedule_at must be in the future")
  else None.

Definition callback_instance (tenantID id : string) (i : StartCallbackInput) : Instance :=
  new_instance id tenantID TypeCallback
    [("customer_id", VStr (sc_CustomerID i)); ("phone", VStr (sc_Phone i)); ("notes", VStr (sc_Notes i))]
    (callback_time i) StepScheduled.

(** A start refused leaves the tables; a start granted adds its instance. *)
Definition decided (v : option Error) (tenantID : string) (i : StartCallbackInput) (d : DB)
    (r : result Instance) (d' : DB) : Prop :=
  match v with
  | Some x => r = Err x /\ d' = d
  | None => exists id, r = Ok (callback_instance tenantID id i)
              /\ started (callback_instance tenantID id i) now d d'
  end.

(** The identifiers to be drawn are no row's. *)
Definition new_ids (s : st) : Prop :=
  fresh e (steps s) (committed s)
  /\ forall k, (steps s <= k)%nat -> d_workflows (committed s) !! uuid_of e k = None.

Lemma new_ids_bump s s' :
  new_ids s -> committed s' = committed s -> (steps s <= steps s')%nat -> new_ids s'.
Proof.
  intros [Hf Hn] Hc Hs. split; rewrite Hc; [by eapply fresh_frame|]. intros k Hk. apply Hn. lia.
Qed.

Lemma engine_start tenantID typ payload when step s :
  tenantID <> "" -> new_ids s ->
  wp (Workflows.start source tenantID typ payload when step) e s (fun r s' =>
    exists id, r = Ok (new_instance id tenantID typ payload when step)
      /\ started (new_instance id tenantID typ payload when step) now (committed s) (committed s')).
Proof.
  intros Ht [Hf Hn]. unfold Workflows.start. wp_step. wp_step. cbv zeta.
  eapply wp_mono; [apply (wp_start_tx (new_instance (uuid_of e (steps s)) tenantID typ payload when step))|].
  - done.
  - eapply fresh_frame; [exact Hf|simpl; lia|done].
  - apply Hn, le_n.
  - intros r s' H. exists (uuid_of e (steps s)). exact H.
Qed.

Lemma engine_callback tenantID i s :
  tenantID <> "" -> new_ids s ->
  wp (Workflows.StartCallback source tenantID i) e s (fun r s' =>
    decided (callback_verdict (customer_exists tenantID (sc_CustomerID i) (committed s)) i)
      tenantID i (committed s) r (committed s')).
Proof.
  intros Ht Hn. unfold Workflows.StartCallback, callback_verdict.
  destruct (is_empty (sc_CustomerID i)); [done|]. destruct (is_empty (sc_Phone i)); [done|].
  unfold customerOwned. wp_step. wp_step. wp_step; try no_fault Hh.
  destruct (customer_exists _ _ _); [|done]. cbn [negb]. wp_step.
  wp_step. apply (wp_mono _ _ _ (fun r s' => r = Ok (callback_time i) /\ committed s' = committed s
                                  /\ (steps s <= steps s')%nat)).
  { unfold callback_time. destruct (_ =? _); wp_go; rewrite ?Hclock; simpl; auto with lia. }
  intros r s1 (-> & Hc & Hs). wp_step. wp_step. rewrite Hclock.
  destruct (callback_time i <? now); [done|]. rewrite <- Hc.
  apply engine_start; [done|]. eapply new_ids_bump; [exact Hn|done|simpl; lia].
Qed.

(** ** The driver over the PostgreSQL store *)

Context {T : Type} (cl : Client T) (c : Config).
Hypothesis accepts : forall o w t, (ExecuteWorkflow cl o w t).1 = None.

Definition pg_driver : Driver st T :=
  MkDriver cl c (Some (PostgresPort source e)) (postgres_process e).

Definition as_result (r : Instance + error) : result Instance + error :=
  match r with inl i => inl (Ok i) | inr err => inr err end.

Lemma pg_start i s :
  wi_TenantID i <> "" -> fresh e (steps s) (committed s) -> d_workflows (committed s) !! wi_ID i = None ->
  exists s', returns_error (StartInstance source
      (MkStartRecord i [("scheduled_for", VTime (default time_zero (wi_NextRunAt i)))])) e s = (None, s')
    /\ started i now (committed s) (committed s').
Proof.
  intros Ht Hf Hi. unfold returns_error, StartInstance, as_error. cbn [sr_Instance sr_StepDetail].
  epose proof (wp_start_tx i _ (@None error) s Ht Hf Hi) as Hwp. unfold wp in Hwp.
  destruct (with_tx _ _ e s) as [r s'] eqn:E in Hwp. destruct Hwp as [-> Hs].
  rewrite E. by exists s'.
Qed.

Lemma driver_start tenantID typ payload when step mk (s : st) (t : T) :
  tenantID <> "" -> new_ids s ->
  exists id s', TemporalClient.start pg_driver tenantID typ payload when step mk (s, t)
    = (inl (new_instance id tenantID typ payload when step),
       (s', (ExecuteWorkflow cl (MkStartWorkflowOptions (WorkflowID id) (TaskQueue c)) (mk id) t).2))
  /\ started (new_instance id tenantID typ payload when step) now (committed s) (committed s').
Proof.
  intros Ht [Hf Hn]. exists (uuid_of e (steps s)).
  destruct (pg_start (new_instance (uuid_of e (steps s)) tenantID typ payload when step) (bump s))
    as (s' & E & Hs); [done|eapply fresh_frame; [exact Hf|simpl; lia|done]|apply Hn, le_n|].
  exists s'. split; [|exact Hs]. unfold TemporalClient.start, pg_driver.
  cbn -[StartInstance] in *. rewrite E.
  destruct (ExecuteWorkflow cl _ _ t) as [x t'] eqn:Ex; 
    pose proof (accepts (MkStartWorkflowOptions (WorkflowID (uuid_of e (steps s))) (TaskQueue c)) (mk (uuid_of e (steps s))) t) as Ha.
  rewrite Ex in Ha. simpl in Ha. by subst x.
Qed.

(** What the frontend is asked to run. *)
Definition executed (id : string) (call : WorkflowCall) (t : T) : T :=
  (ExecuteWorkflow cl (MkStartWorkflowOptions (WorkflowID id) (TaskQueue c)) call t).2.

Definition callback_call (tenantID id : string) (i : StartCallbackInput) : WorkflowCall :=
  CallCallback (MkCallbackInput id tenantID (sc_CustomerID i) (sc_Phone i) (sc_Notes i) (callback_time i)).

(** A start of the driver: nothing happens, or row and workflow. *)
Definition driver_decided (v : option Error) (row : string -> Instance) (call : string -> WorkflowCall)
    (d : DB) (t : T) (res : (Instance + error) * (st * T)) : Prop :=
  match v with
  | Some x => res.1 = inr (AppErr x) /\ committed res.2.1 = d /\ res.2.2 = t
  | None => exists id, res.1 = inl (row id) /\ started (row id) now d (committed res.2.1)
              /\ res.2.2 = executed id (call id) t
  end.

Lemma driver_callback tenantID i s t :
  tenantID <> "" -> new_ids s ->
  driver_decided (callback_verdict true i) (fun id => callback_instance tenantID id i)
    (fun id => callback_call tenantID id i) (committed s) t
    (TemporalClient.StartCallback pg_driver tenantID i (s, t)).
Proof.
  intros Ht Hn. unfold TemporalClient.StartCallback, callback_verdict.
  destruct (is_empty (sc_CustomerID i)); [done|]. destruct (is_empty (sc_Phone i)); [done|].
  cbn [negb]. cbn [process pg_driver postgres_process p_now fst].
  assert (exists s1, (if sc_ScheduleAt i =? time_zero
                      then (clock e (steps s) + 30 * minute, bump s) else (sc_ScheduleAt i, s)) = (callback_time i, s1)
                     /\ committed s1 = committed s /\ (steps s <= steps s1)%nat) as (s1 & E & Hc & Hs).
  { unfold callback_time. destruct (_ =? _); eexists; rewrite ?Hclock; (split; [done|]); simpl; auto with lia. }
  rewrite E, Hclock. destruct (callback_time i <? now); [done|].
  edestruct (driver_start tenantID TypeCallback) as (id & s' & Es & Hst);
    [done|eapply (new_ids_bump s (bump s1)); [exact Hn|done|simpl; lia]|].
  exists id. cbn [snd]. rewrite Es. split; [done|]. unfold bump in Hst. cbn [committed] in Hst. rewrite Hc in Hst. by split.
Qed.

(** The driver grants and refuses a callback as the engine does for a customer
    of the tenant, whoever's the customer is: the check on the owner is
    missing. *)
Lemma driver_skips_ownership tenantID i s t :
  tenantID <> "" -> new_ids s ->
  wp (Workflows.StartCallback source tenantID i) e s (fun r s' =>
    decided (callback_verdict (customer_exists tenantID (sc_CustomerID i) (committed s)) i)
      tenantID i (committed s) r (committed s'))
  /\ driver_decided (callback_verdict true i) (fun id => callback_instance tenantID id i)
       (fun id => callback_call tenantID id i) (committed s) t
       (TemporalClient.StartCallback pg_driver tenantID i (s, t)).
Proof. intros Ht Hn. split; [by apply engine_callback|by apply driver_callback]. Qed.
End healthy.

(** ** Live rows and their workflows *)

(** What the frontend saw. *)
Inductive call :=
| Executed (wid : string) (accepted : bool)
| CancelRequested (wid : string) (accepted : bool).

(** A frontend that answers as it likes, by the number of the call. *)
Definition recorder (refuse_start refuse_cancel : nat -> option error) (nf : error -> bool)
    : Client (list call) :=
  MkClient
    (fun o _ l => let x := refuse_start (length l) in (x, l ++ [Executed (so_ID o) (bool_decide (x = None))]))
    (fun wid _ l => let x := refuse_cancel (length l) in (x, l ++ [CancelRequested wid (bool_decide (x = None))]))
    (fun _ _ l => (inl None, l)) (fun l => (None, l)) id nf.

Inductive driver_op :=
| DoCallback (t : string) (i : StartCallbackInput)
| DoCollections (t : string) (i : StartCollectionsInput)
| DoCancel (t id : string)
| DoGet (t id : string).

(** The workflow was accepted, and no accepted request cancels it. *)
Definition has_workflow (wid : string) (l : list call) : Prop :=
  Executed wid true ∈ l /\ CancelRequested wid true ∉ l.

Section history.
Context (uuids : nat -> string) (clocks : nat -> Z) (c : Config).
Context (refuse_start refuse_cancel : nat -> option error) (nf : error -> bool).

Definition memory_driver : Driver (MemoryStore.MemoryStore * nat) (list call) :=
  MkDriver (recorder refuse_start refuse_cancel nf) c (Some (MemoryPort clocks)) (memory_process uuids clocks).

Definition world : Type := (MemoryStore.MemoryStore * nat) * list call.

Definition do_op (o : driver_op) (w : world) : world :=
  match o with
  | DoCallback t i => (TemporalClient.StartCallback memory_driver t i w).2
  | DoCollections t i => (TemporalClient.StartCollections memory_driver t i w).2
  | DoCancel t id => (TemporalClient.Cancel memory_driver t id w).2
  | DoGet t id => (TemporalClient.Get memory_driver t id w).2
  end.

Definition do_ops (ops : list driver_op) (w : world) : world := fold_left (fun w o => do_op o w) ops w.

Definition accounted (w : world) : Prop :=
  (forall id i, MemoryStore.inst w.1.1 !! id = Some i -> wf_live i = true ->
     has_workflow (WorkflowID id) w.2)
  /\ (forall id b, CancelRequested (WorkflowID id) b ∈ w.2 -> is_Some (MemoryStore.inst w.1.1 !! id)).

Lemma WorkflowID_inj a b : WorkflowID a = WorkflowID b -> a = b.
Proof. apply (inj (String.append workflowIDPrefix)). Qed.

Lemma cancel_singleton k b id b' :
  CancelRequested (WorkflowID k) b ∈ [CancelRequested (WorkflowID id) b'] -> k = id.
Proof. intros H%list_elem_of_singleton. apply WorkflowID_inj. congruence. Qed.

Lemma cancel_in_executed x b l wid b' :
  CancelRequested x b ∈ l ++ [Executed wid b'] <-> CancelRequested x b ∈ l.
Proof. rewrite elem_of_app, list_elem_of_singleton. naive_solver. Qed.

Lemma has_workflow_executed wid l wid' b : has_workflow wid l -> has_workflow wid (l ++ [Executed wid' b]).
Proof. intros [H1 H2]. split; [apply elem_of_app; by left|]. by rewrite cancel_in_executed. Qed.

Lemma accounted_executed m n l id i b steps' n' :
  accounted ((m, n), l) -> MemoryStore.inst m !! id = None -> (wf_live i = true -> b = true) ->
  accounted ((MemoryStore.MkMemoryStore (<[id := i]> (MemoryStore.inst m)) steps', n'),
             l ++ [Executed (WorkflowID id) b]).
Proof.
  intros [H1 H2] Hid Hb. split; cbn [fst snd MemoryStore.inst] in *.
  - intros k j Hk Hl. destruct (decide (k = id)) as [->|Hne].
    + rewrite lookup_insert_eq in Hk. injection Hk as <-. rewrite (Hb Hl). split.
      { apply elem_of_app. right. by apply list_elem_of_singleton. }
      rewrite cancel_in_executed. intros Hc. apply H2 in Hc. rewrite Hid in Hc. by destruct Hc.
    + rewrite lookup_insert_ne in Hk by done. by eapply has_workflow_executed, H1.
  - intros k b' Hc%cancel_in_executed%H2. destruct (decide (k = id)) as [->|Hne].
    + rewrite lookup_insert_eq. by eexists.
    + by rewrite lookup_insert_ne.
Qed.

Lemma start_accounted tenantID typ payload when step mk w :
  accounted w -> accounted (TemporalClient.start memory_driver tenantID typ payload when step mk w).2.
Proof.
  destruct w as [[m n] l]. intros H. unfold TemporalClient.start. cbn.
  unfold memory_op at 1, MemoryStore.StartInstance. cbn.
  destruct (MemoryStore.inst m !! uuids n) as [j|] eqn:Ei; [exact H|].
  destruct (refuse_start (length l)) as [err|] eqn:Er; cbn.
  - unfold mark_rejected, memory_op, MemoryStore.MarkFailed, MemoryStore.mark. cbn.
    rewrite lookup_insert_eq, String.eqb_refl. cbn. rewrite insert_insert_eq.
    by apply (accounted_executed m n).
  - by apply (accounted_executed m n).
Qed.

Lemma callback_accounted tenantID i w :
  accounted w -> accounted (TemporalClient.StartCallback memory_driver tenantID i w).2.
Proof.
  destruct w as [[m n] l]. intros H. unfold TemporalClient.StartCallback.
  destruct (is_empty _); [done|]. destruct (is_empty _); [done|].
  cbn [process memory_driver memory_process p_now fst snd].
  destruct (_ =? _); cbn [fst snd]; (destruct (_ <? _); [done|]); by apply start_accounted.
Qed.

Lemma collections_accounted tenantID i w :
  accounted w -> accounted (TemporalClient.StartCollections memory_driver tenantID i w).2.
Proof.
  destruct w as [[m n] l]. intros H. unfold TemporalClient.StartCollections.
  destruct (_ || _); [done|]. destruct (_ <=? _); [done|]. destruct (is_empty _); [done|].
  by apply start_accounted.
Qed.

Lemma accounted_canceled m n l id j steps' n' :
  accounted ((m, n), l) -> is_Some (MemoryStore.inst m !! id) -> wf_live j = false ->
  accounted ((MemoryStore.MkMemoryStore (<[id := j]> (MemoryStore.inst m)) steps', n'),
             l ++ [CancelRequested (WorkflowID id) true]).
Proof.
  intros [H1 H2] Hid Hj. split; cbn [fst snd MemoryStore.inst] in *.
  - intros k i Hk Hl. destruct (decide (k = id)) as [->|Hne].
    + rewrite lookup_insert_eq in Hk. injection Hk as <-. congruence.
    + rewrite lookup_insert_ne in Hk by done. destruct (H1 _ _ Hk Hl) as [Ha Hb].
      split; [apply elem_of_app; by left|].
      intros [Hc|Hc%cancel_singleton]%elem_of_app; by subst.
  - intros k b [Hc|Hc%cancel_singleton]%elem_of_app.
    + destruct (decide (k = id)) as [->|Hne]; [rewrite lookup_insert_eq; by eexists|].
      rewrite lookup_insert_ne by done. by eapply H2.
    + subst k. rewrite lookup_insert_eq. by eexists.
Qed.

Lemma cancel_accounted tenantID id w :
  accounted w -> accounted (TemporalClient.Cancel memory_driver tenantID id w).2.
Proof.
  destruct w as [[m n] l]. intros H. unfold TemporalClient.Cancel. cbn. unfold MemoryStore.GetInstance.
  destruct (MemoryStore.inst m !! id) as [i|] eqn:Ei; [|done].
  destruct (String.eqb (wi_TenantID i) tenantID) eqn:Et; [|done]. cbn.
  destruct (negb _ && negb _) eqn:El; [done|].
  assert (Hl : wf_live i = true).
  { unfold wf_live. by destruct (String.eqb _ StatusRunning), (String.eqb _ StatusWaitingTimer). }
  destruct (refuse_cancel (length l)) as [err|] eqn:Er; cbn.
  - destruct H as [H1 H2]. split; cbn [fst snd] in *.
    + intros k j Hk Hj. destruct (H1 _ _ Hk Hj) as [Ha Hb]. split; [apply elem_of_app; by left|].
      by intros [Hc|Hc%list_elem_of_singleton]%elem_of_app.
    + intros k b [Hc|Hc%cancel_singleton]%elem_of_app; [by eapply H2|].
      subst k. rewrite Ei. by eexists.
  - unfold memory_op, MemoryStore.MarkCanceled, MemoryStore.mark. cbn. rewrite Ei, Et, Hl. cbn.
    apply (accounted_canceled m n); [done|by rewrite Ei|done].
Qed.

Lemma do_op_accounted o w : accounted w -> accounted (do_op o w).
Proof.
  destruct o; simpl; [apply callback_accounted|apply collections_accounted|apply cancel_accounted|].
  destruct w as [[m n] l]. by intros H.
Qed.
End history.

(** C32. Over every history of starts, cancellations and reads, and whatever the
    frontend answers, a live audit row of the in-process store has an accepted
    workflow that no accepted request cancels. *)
Theorem live_rows_have_workflows uuids clocks c refuse_start refuse_cancel nf ops id i :
  let w := do_ops uuids clocks c refuse_start refuse_cancel nf ops ((MemoryStore.NewMemoryStore, 0%nat), []) in
  MemoryStore.inst w.1.1 !! id = Some i -> wf_live i = true -> has_workflow (WorkflowID id) w.2.
Proof.
  intros w. cut (accounted w); [intros [H _]; apply H|]. subst w. unfold do_ops.
  assert (accounted ((MemoryStore.NewMemoryStore, 0%nat), [])) as H0.
  { split; cbn; [intros ? ? Hk; by rewrite lookup_empty in Hk|by intros ? ? ?%not_elem_of_nil]. }
  revert H0. generalize ((MemoryStore.NewMemoryStore, 0%nat), @nil call) as w.
  induction ops as [|o ops IH]; intros w H0; [done|]. simpl. by apply IH, do_op_accounted.
Qed.

(** ** Examples *)

(** Every call takes place at time 5; [env0] else. *)
Definition env_at_5 : env := MkEnv (uuid_of env0) (fun _ => 5) (fault env0) (uuid_valid env0).

Definition foreign_db : DB :=
  set_customers (<["cu1" := MkCustomer "cu1" "t2" "Eve" "" "en" "UTC" [] 0 0]>) empty_db.

Definition foreign_state : st := MkSt foreign_db None 0.
Definition demo_start : StartCallbackInput := MkStartCallbackInput "cu1" "254700" 9 "ring back".
Definition demo_cfg : Config := MkConfig "temporal:7233" "default" "q" "s".
Definition accepting : Client (list call) := recorder (fun _ => None) (fun _ => None) (fun _ => false).

Lemma foreign_new_ids : new_ids env_at_5 foreign_state.
Proof.
  split; [|done]. split; [intros i j _; apply env0_inj|].
  intros i o _ Ho. by apply not_elem_of_nil in Ho.
Qed.

(** The customer is another tenant's: the engine refuses, the driver starts. *)
Lemma driver_skips_ownership_witness :
  callback_verdict 5 (customer_exists "t1" "cu1" foreign_db) demo_start
    = Some (NotFound "customer.not_found" "customer not found")
  /\ callback_verdict 5 true demo_start = None
  /\ (wp (Workflows.StartCallback "orvexa" "t1" demo_start) env_at_5 foreign_state (fun r s' =>
        decided 5 (callback_verdict 5 (customer_exists "t1" "cu1" foreign_db) demo_start)
          "t1" demo_start foreign_db r (committed s'))
      /\ driver_decided 5 accepting demo_cfg (callback_verdict 5 true demo_start)
           (fun id => callback_instance 5 "t1" id demo_start)
           (fun id => callback_call 5 "t1" id demo_start) foreign_db []
           (TemporalClient.StartCallback (pg_driver "orvexa" env_at_5 accepting demo_cfg) "t1" demo_start
              (foreign_state, []))).
Proof.
  split; [reflexivity|]. split; [reflexivity|].
  apply (driver_skips_ownership "orvexa" env_at_5); [split; reflexivity|reflexivity|reflexivity|discriminate|].
  exact foreign_new_ids.
Defined.

(** A callback is started and canceled, the start of a collection refused, and
    another one runs. *)
Definition demo_history : list driver_op :=
  [DoCallback "t1" demo_start; DoCancel "t1" "id-1"; DoCancel "t1" "id-9";
   DoCollections "t1" (MkStartCollectionsInput "cu1" "INV-9" 2500 "254700");
   DoCollections "t1" (MkStartCollectionsInput "cu1" "INV-10" 100 "254700"); DoGet "t1" "id-1"].

Definition second_refused (n : nat) : option error :=
  if Nat.eqb n 2 then Some (OtherErr "unavailable" None) else None.

Definition history_end : world :=
  do_ops (uuid_of env0) (fun _ => 5) demo_cfg second_refused (fun _ => None) (fun _ => false) demo_history
    ((MemoryStore.NewMemoryStore, 0%nat), []).

Definition rows_of (w : world) : list (string * string) :=
  map (fun kv => (kv.1, wi_Status kv.2)) (map_to_list (MemoryStore.inst w.1.1)).

Lemma history_rows :
  rows_of history_end = [("id-5", StatusFailed); ("id-9", StatusWaitingTimer); ("id-1", StatusCanceled)].
Proof. by vm_compute. Qed.

Lemma live_rows_have_workflows_witness : exists i,
  MemoryStore.inst history_end.1.1 !! "id-9" = Some i /\ has_workflow (WorkflowID "id-9") history_end.2.
Proof.
  assert (exists i, MemoryStore.inst history_end.1.1 !! "id-9" = Some i /\ wf_live i = true) as (i & Hi & Hl).
  { destruct (MemoryStore.inst history_end.1.1 !! "id-9") as [i|] eqn:E; vm_compute in E; [|discriminate].
    exists i. injection E as <-. by split. }
  exists i. split; [exact Hi|].
  exact (live_rows_have_workflows (uuid_of env0) (fun _ => 5) demo_cfg second_refused (fun _ => None)
           (fun _ => false) demo_history "id-9" i Hi Hl).
Defined.

(** A step whose activity is still under way when the instance is canceled
    makes the row live again: RecordStep asks for the step only. *)
Lemma recorded_step_revives_canceled :
  let w := (RecordStepActivity (MkActivities (U := unit) None (Some (MemoryPort (fun _ => 5))))
              (MkRecordStepInput "id-1" "t1" TypeCallback StepScheduled StepWaited [] None)
              history_end.1).2 in
  fmap wi_Status (MemoryStore.inst history_end.1.1 !! "id-1") = Some StatusCanceled
  /\ fmap wi_Status (MemoryStore.inst w.1 !! "id-1") = Some StatusRunning.
Proof. by vm_compute. Qed.

(** A start the frontend refuses while the audit store fails too leaves a
    waiting row no workflow serves, and no cancellation removes it. *)
Definition orphaning : Driver st (list call) :=
  MkDriver (recorder (fun _ => Some (OtherErr "unavailable" None)) (fun _ => Some (OtherErr "not found" None))
              (fun _ => true)) demo_cfg
    (Some (PostgresPort "s" (env_fault 9))) (postgres_process (env_fault 9)).

Definition orphan_start := TemporalClient.StartCallback orphaning "t1"
  (MkStartCallbackInput "cu1" "254700" 1000 "") (foreign_state, []).
Definition orphan_cancel := TemporalClient.Cancel orphaning "t1" "id-1" orphan_start.2.

Lemma orphan_row_uncancelable :
  (exists x, orphan_start.1 = inr (AppErr x) /\ Code x = "temporal.start_failed")
  /\ fmap wi_Status (d_workflows (committed orphan_start.2.1) !! "id-1") = Some StatusWaitingTimer
  /\ orphan_cancel.1 = inr not_found
  /\ fmap wi_Status (d_workflows (committed orphan_cancel.2.1) !! "id-1") = Some StatusWaitingTimer.
Proof. split; [|by vm_compute]. eexists. by vm_compute. Qed.
