(* ===== verification/Processes.v ===== *)
(** * cmd/worker, cmd/realtime, pkg/config: the processes

    The configuration of a process out of its environment; the worker's bus
    with the three consumers subscribed to it, their goroutines in any order,
    and the messages its workflow steps queue; the realtime process; and the
    processes next to each other over the database. The dispatcher, the bus, the
    facts, the indexer and the hub are those of their files. *)

From Stdlib Require Import String Ascii.
From S2P Require Import Prelude GoStd AppErrors Events Store Wp Text.
From S2P Require Interactions Outbox Bus Analytics ClickHouse AnalyticsProps Search Realtime Tenancy.

Local Open Scope Z_scope.

(** ** pkg/config *)

Definition BusInproc := "inproc".
Definition BusNATS := "nats".
Definition AIRules := "rules".

Record Config := MkConfig {
  HTTPAddr : string;
  RealtimeAddr : string;
  DatabaseURL : string;
  DBMaxConns : Z;
  BusDriver : string;
  NATSURL : string;
  LogLevel : string;
  Env : string;
  AIProvider : string;
  AILLMBaseURL : string;
  AILLMAPIKey : string;
  AIMaxTokens : Z;
  AITimeout : Z;
  CommsProvider : string;
  WebhookHMACSecret : string;
  TelephonyProvider : string;
  MessagingProvider : string;
  WSMaxPerPrincipal : Z;
  WSMaxTotal : Z;
}.

Section config.
(** [os.Getenv] *)
Variable getenv : string -> string.

Definition env_str (key def : string) : string :=
  let v := trim_space (getenv key) in if is_empty v then def else v.

Definition envInt (key : string) (def : Z) : Z :=
  let v := trim_space (getenv key) in
  if is_empty v then def else match atoi v with Some n => n | None => def end.

(** [int32(n)] *)
Definition wrap32 (z : Z) : Z := (z + 2 ^ 31) mod 2 ^ 32 - 2 ^ 31.

Definition read_config : Config := {|
  HTTPAddr := env_str "ORVEXA_HTTP_ADDR" ":8080";
  RealtimeAddr := env_str "ORVEXA_REALTIME_ADDR" ":8081";
  DatabaseURL := env_str "ORVEXA_DATABASE_URL" "";
  DBMaxConns := wrap32 (envInt "ORVEXA_DB_MAX_CONNS" 20);
  BusDriver := env_str "ORVEXA_BUS_DRIVER" BusInproc;
  NATSURL := env_str "ORVEXA_NATS_URL" "nats://localhost:4222";
  LogLevel := env_str "ORVEXA_LOG_LEVEL" "info";
  Env := env_str "ORVEXA_ENV" "development";
  AIProvider := env_str "ORVEXA_AI_PROVIDER" AIRules;
  AILLMBaseURL := getenv "ORVEXA_AI_LLM_BASE_URL";
  AILLMAPIKey := getenv "ORVEXA_AI_LLM_API_KEY";
  AIMaxTokens := envInt "ORVEXA_AI_MAX_TOKENS" 1024;
  AITimeout := wrap64 (envInt "ORVEXA_AI_TIMEOUT_SECONDS" 30 * Second);
  CommsProvider := env_str "ORVEXA_COMMS_PROVIDER" "simulator";
  WebhookHMACSecret := getenv "ORVEXA_WEBHOOK_HMAC_SECRET";
  TelephonyProvider := env_str "ORVEXA_TELEPHONY_PROVIDER" "simulator";
  MessagingProvider := env_str "ORVEXA_MESSAGING_PROVIDER" "simulator";
  WSMaxPerPrincipal := envInt "ORVEXA_WS_MAX_PER_PRINCIPAL" 10;
  WSMaxTotal := envInt "ORVEXA_WS_MAX_TOTAL" 10000;
|}.

Definition Load : Config * option error :=
  let c := read_config in
  (c,
   if negb (String.eqb (BusDriver c) BusInproc || String.eqb (BusDriver c) BusNATS) then
     Some (OtherErr ("invalid ORVEXA_BUS_DRIVER " +:+ quote (BusDriver c) +:+ " (want inproc|nats)") None)
   else if AITimeout c <=? 0 then Some (OtherErr "ORVEXA_AI_TIMEOUT_SECONDS must be positive" None)
   else if (WSMaxPerPrincipal c <=? 0) || (WSMaxTotal c <=? 0) then
     Some (OtherErr "websocket caps must be positive" None)
   else None).
End config.

Definition Production (c : Config) : bool := String.eqb (Env c) "production".

(** The level of pkg/logging's [New]: slog's numbers. *)
Definition log_level `{Unicode} (level : string) : Z :=
  let l := ToLower level in
  if String.eqb l "debug" then -4 else if String.eqb l "warn" then 4 else if String.eqb l "error" then 8 else 0.

(** ** cmd/worker *)

(** A row of [audit_events]. *)
Record AuditRow := MkAuditRow {
  au_TenantID : string;
  au_ActorType : string;
  au_ActorID : string;
  au_Action : string;
  au_ResourceType : string;
  au_ResourceID : string;
  au_After : dict;
  au_CorrelationID : string;
  au_OccurredAt : Z;
}.

(** "interaction.created" gives "interaction". *)
Definition resourceType (topic : string) : string :=
  match String.index 0 "." topic with Some i => stake i topic | None => topic end.

(** The audit consumer, the two fact sinks, the indexer. *)
Inductive Consumer := Audit | PgFacts | ChFacts | Index.

(** [selectBus]: both drivers give the in-process bus. *)
Definition selectBus (c : Config) : Bus.InProc Consumer := Bus.NewInProc.

Definition subscribe (topic : string) (h : Consumer) (b : Bus.InProc Consumer) : Bus.InProc Consumer :=
  (Bus.Subscribe topic h b).2.

(** [factsHandler], by what [clickhouse.FromEnv] gives; [None]: the store is
    misconfigured. *)
Definition factsHandler (ch : option (ClickHouse.Store + Error)) : option Consumer :=
  match ch with
  | None => Some PgFacts
  | Some (inl _) => Some ChFacts
  | Some (inr _) => None
  end.

(** [main]'s subscriptions; the indexer's only with a search backend. [None]:
    the process exits. *)
Definition worker_bus (c : Config) (ch : option (ClickHouse.Store + Error)) (indexing : bool)
    : option (Bus.InProc Consumer) :=
  match factsHandler ch with
  | None => None
  | Some facts =>
      let b := subscribe "*" facts (subscribe "*" Audit (selectBus c)) in
      Some (if indexing then fold_left (fun b topic => subscribe topic Index b) Search.projectedTopics b else b)
  end.

(** What the worker's consumers write. *)
Record Worker := MkWorker {
  wk_audit : list AuditRow;
  wk_facts : Analytics.Facts;
  wk_store : ClickHouse.Store;
  wk_index : Search.Indexer;
}.

Section worker.
Context `{Analytics.UUIDs}.

Definition audit_row (tenantID : string) (env : Envelope) : AuditRow :=
  MkAuditRow tenantID "system" (e_Source env) (e_Type env) (resourceType (e_Type env)) (e_Subject env)
    (e_Data env) (e_ID env) (e_Time env).

(** [auditConsumer]: one insert, which fails by itself with [fault], or on a
    tenant that is no uuid. *)
Definition auditConsumer (fault : option error) (env : Envelope) (l : list AuditRow)
    : option error * list AuditRow :=
  match fault with
  | Some err => (Some err, l)
  | None =>
      match Analytics.pg_uuid (e_TenantID env) with
      | Some t => (None, l ++ [audit_row t env])
      | None => (Some Analytics.invalid_uuid, l)
      end
  end.

(** The batched store's [Handle] up to its entry; the rest of the call is among
    the store's moves. *)
Definition chHandle (now : Z) (env : Envelope) (s : ClickHouse.Store) : option Error * ClickHouse.Store :=
  match ClickHouse.ch_Handle (Some env) now with
  | None => (None, s)
  | Some (inr err) => (Some err, s)
  | Some (inl r) => ClickHouse.enqueue r s
  end.

(** One goroutine of the bus: the handler, its error dropped; the consumer's
    statement fails by itself with [fault]. The indexer's handler runs in one
    go here; Search has its interleavings. *)
Definition run_consumer (fault : option error) (now : Z) (ce : Consumer * Envelope) (w : Worker) : Worker :=
  let '(c, env) := ce in
  match c with
  | Audit => MkWorker (auditConsumer fault env (wk_audit w)).2 (wk_facts w) (wk_store w) (wk_index w)
  | PgFacts => MkWorker (wk_audit w) (Analytics.Handle fault env (wk_facts w)).2 (wk_store w) (wk_index w)
  | ChFacts => MkWorker (wk_audit w) (wk_facts w) (chHandle now env (wk_store w)).2 (wk_index w)
  | Index =>
      let '(_, on, ix) := Search.handle_seen env (wk_index w) in
      MkWorker (wk_audit w) (wk_facts w) (wk_store w)
        (if on then (Search.handle_enqueue (length (Search.inflight ix) - 1) ix).2 else ix)
  end.

(** What else moves in the batched store while it is open: the sends of the
    calls inside, and its flusher. *)
Inductive Move :=
| MTry (usage : bool) (n : nat)
| MUnblock (usage : bool) (n : nat)
| MAbandon (usage : bool) (n : nat)
| MRecv (usage : bool)
| MTick
| MDrain (usage : bool)
| MDrained
| MFlush (dial ei eu ec : option error)
| MRequeue.

Definition move_store (m : Move) (s : ClickHouse.Store) : ClickHouse.Store :=
  match m with
  | MTry u n => ClickHouse.try_send u n s
  | MUnblock u n => ClickHouse.unblock u n s
  | MAbandon u n => ClickHouse.abandon u n s
  | MRecv u => default s (ClickHouse.loop_recv u s)
  | MTick => default s (ClickHouse.loop_tick s)
  | MDrain u => default s (ClickHouse.drain_one u s)
  | MDrained => default s (ClickHouse.drain_end s)
  | MFlush dial ei eu ec => default s (ClickHouse.flush dial ei eu ec s)
  | MRequeue => default s (ClickHouse.requeue_step s)
  end.

Inductive Act :=
| Go (ce : Consumer * Envelope) (fault : option error) (now : Z)
| Mv (m : Move).

Definition act (a : Act) (w : Worker) : Worker :=
  match a with
  | Go ce fault now => run_consumer fault now ce w
  | Mv m => MkWorker (wk_audit w) (wk_facts w) (move_store m (wk_store w)) (wk_index w)
  end.

(** Goroutines and the store's moves in the order they happen. *)
Definition run_all (l : list Act) (w : Worker) : Worker := fold_left (fun w a => act a w) l w.

Definition goroutines (l : list Act) : list (Consumer * Envelope) :=
  omap (fun a => match a with Go ce _ _ => Some ce | Mv _ => None end) l.

(** The dispatcher's callback on one event: the bus's error. *)
Definition bus_error (uuid_valid : string -> bool) (b : Bus.InProc Consumer) (env : Envelope) : option error :=
  match (Bus.Publish uuid_valid (Some env) b).1 with Some msg => Some (OtherErr msg None) | None => None end.

(** The goroutines the events of a dispatcher's run start. *)
Definition spawned (uuid_valid : string -> bool) (b : Bus.InProc Consumer) (sent : list Envelope)
    : list (Consumer * Envelope) :=
  flat_map (fun env => (Bus.Publish uuid_valid (Some env) b).2) sent.
End worker.

(** ** [workerServices.QueueMessage] *)

(** What PostgreSQL says to preparing a statement. *)
Class PgPrepare := { pg_prepare : string -> option error }.

Definition mentions (sql : string) (n : Z) : bool :=
  match String.index 0 ("$" +:+ itoa n) sql with Some _ => true | None => false end.

(** A parameter the text skips has no type, and the statement is refused
    (SQLSTATE 42P18). *)
Class PgTypesParameters `{PgPrepare} :=
  pg_untyped : forall sql n m, 1 <= n < m -> mentions sql m = true -> mentions sql n = false ->
    exists err, pg_prepare sql = Some err.

(** The statement, its blanks collapsed. *)
Definition queue_message_sql : string :=
  "INSERT INTO interactions (id, tenant_id, conversation_id, customer_id, channel, direction, status, source, destination, provider) SELECT gen_random_uuid(), $1, c.id, $5, $6, 'outbound', 'pending', 'orvexa-workflows', $7, $6 FROM conversations c WHERE c.tenant_id = $1 AND c.customer_id = $5 AND c.status = 'open' ORDER BY c.updated_at DESC LIMIT 1".

(** [ORDER BY updated_at DESC] *)
Definition updated_ge (c c' : Conversation) : Prop := cv_UpdatedAt c' <= cv_UpdatedAt c.
#[export] Instance updated_ge_dec : RelDecision updated_ge := fun c c' => decide (cv_UpdatedAt c' <= cv_UpdatedAt c).

(** Its meaning for a server that takes it: the latest open conversation of the
    customer, and the columns' defaults. *)
Definition ins_queued (id tenantID customerID typ to : string) : stmt := fun now d =>
  let open := List.filter (fun c => String.eqb (cv_TenantID c) tenantID && String.eqb (cv_CustomerID c) customerID
                                    && String.eqb (cv_Status c) "open") (map snd (map_to_list (d_conversations d))) in
  match merge_sort updated_ge open with
  | [] => Some (d, 0%nat)
  | c :: _ =>
      Interactions.ins_interaction
        (MkRec id tenantID (cv_ID c) customerID typ "outbound" "pending" "orvexa-workflows" to "" "" now None None ""
           typ "" "" [] now) now d
  end.

(** The error is dropped; the body and the second to fourth argument are not in
    the statement. *)
#[export] Instance workerServices `{PgPrepare} : Workflows.Services := {
  Workflows.QueueMessage tenantID customerID typ to _ := fun e s =>
    match pg_prepare queue_message_sql with
    | Some _ => (Ok None, bump s)
    | None => let '(_, s) := pool_Exec (ins_queued (uuid_of e (steps s)) tenantID customerID typ to) e s in (Ok None, s)
    end;
}.

(** ** cmd/realtime *)

(** The key of an upgrade request, [Authenticate]d; the agent is a filter. *)
Definition realtime_authenticate (db : Tenancy.AuthDB) (failed : option error) (now : Z) (key agentID : string)
    : option (string * string) :=
  if is_empty key then None
  else match Tenancy.Authenticate db failed now key with
       | inl p => Some (Tenancy.p_TenantID p, agentID)
       | inr _ => None
       end.

(** The process's bus, with the hub subscribed to everything. *)
Definition realtime_bus : Bus.InProc () := (Bus.Subscribe "*" () Bus.NewInProc).2.

(** ** The processes next to each other *)

(** The database all share, the goroutines on the two buses, the consumers'
    tables, the hub. *)
Record Deployment := MkDeployment {
  dp_st : st;
  dp_spawned : list (Consumer * Envelope);
  dp_worker : Worker;
  dp_heard : list (() * Envelope);
  dp_hub : Realtime.Hub;
}.

Section deployment.
Context `{Analytics.UUIDs} (uuid_valid : string -> bool) (unmarshals : Envelope -> bool) (dp : Outbox.Dispatcher)
  (wb : Bus.InProc Consumer).

(** The hub's own events; publications come from its bus. *)
Definition connection (ev : Realtime.Event) : bool := match ev with Realtime.EvPublish _ => false | _ => true end.

Inductive dstep : Deployment -> Deployment -> Prop :=
| d_write x s : dstep x (MkDeployment s (dp_spawned x) (dp_worker x) (dp_heard x) (dp_hub x))
| d_tick x e res sent err s :
    Outbox.Tick dp (Outbox.publish_batch unmarshals (bus_error uuid_valid wb)) e (dp_st x) = (res, s) ->
    res = Ok (sent, err) ->
    dstep x (MkDeployment s (dp_spawned x ++ spawned uuid_valid wb sent) (dp_worker x) (dp_heard x) (dp_hub x))
| d_consume x l1 ce l2 fault now :
    dp_spawned x = l1 ++ ce :: l2 ->
    dstep x (MkDeployment (dp_st x) (l1 ++ l2) (act (Go ce fault now) (dp_worker x)) (dp_heard x) (dp_hub x))
| d_store x m :
    dstep x (MkDeployment (dp_st x) (dp_spawned x) (act (Mv m) (dp_worker x)) (dp_heard x) (dp_hub x))
| d_connection x ev :
    connection ev = true ->
    dstep x (MkDeployment (dp_st x) (dp_spawned x) (dp_worker x) (dp_heard x) (Realtime.step ev (dp_hub x)))
| d_hear x l1 env l2 :
    dp_heard x = l1 ++ ((), env) :: l2 ->
    dstep x (MkDeployment (dp_st x) (dp_spawned x) (dp_worker x) (l1 ++ l2)
               (Realtime.step (Realtime.EvPublish (Some env)) (dp_hub x))).
End deployment.

(** ** Configuration *)

(** What [Load] accepts can be run. *)
Lemma Load_accepts getenv c : Load getenv = (c, None) ->
  (BusDriver c = BusInproc \/ BusDriver c = BusNATS) /\ 0 < AITimeout c <= int64_max
  /\ 0 < WSMaxPerPrincipal c /\ 0 < WSMaxTotal c /\ - 2 ^ 31 <= DBMaxConns c < 2 ^ 31.
Proof.
  intros HL. pose proof (f_equal fst HL) as Hc. pose proof (f_equal snd HL) as H. clear HL.
  unfold Load in Hc, H. cbn [fst snd] in Hc, H. subst c.
  destruct (_ || _) eqn:E1; [|done]. destruct (Z.leb_spec (AITimeout (read_config getenv)) 0); [done|].
  destruct (Z.leb_spec (WSMaxPerPrincipal (read_config getenv)) 0); [done|].
  destruct (Z.leb_spec (WSMaxTotal (read_config getenv)) 0); [done|].
  split; [apply orb_true_iff in E1 as [E1|E1]; apply String.eqb_eq in E1; auto|].
  pose proof (wrap64_range (envInt getenv "ORVEXA_AI_TIMEOUT_SECONDS" 30 * Second)) as Hw.
  unfold in_int64 in Hw. cbn [AITimeout read_config] in *. split; [lia|]. split; [lia|]. split; [lia|].
  cbn [DBMaxConns read_config]. unfold wrap32.
  pose proof (Z.mod_pos_bound (envInt getenv "ORVEXA_DB_MAX_CONNS" 20 + 2 ^ 31) (2 ^ 32)). lia.
Qed.

(** An empty environment boots. *)
Lemma Load_default : Load (fun _ => "") = (read_config (fun _ => ""), None).
Proof. reflexivity. Qed.

(** A timeout beyond the range wraps to 0.29 seconds and is accepted; a pool of
    2^32+1 connections is one of one. *)
Lemma huge_settings_wrap :
  let getenv k := if String.eqb k "ORVEXA_AI_TIMEOUT_SECONDS" then "18446744074"
                  else if String.eqb k "ORVEXA_DB_MAX_CONNS" then "4294967297" else "" in
  (Load getenv).2 = None /\ AITimeout (Load getenv).1 = 290448384 /\ DBMaxConns (Load getenv).1 = 1.
Proof. vm_compute. auto. Qed.

(** The driver asked for is not the driver built. *)
Lemma nats_falls_back getenv c : Load getenv = (c, None) -> BusDriver c = BusNATS -> selectBus c = Bus.NewInProc.
Proof. done. Qed.

(** ** The worker's fan-out *)

Definition same_consumer (c c' : Consumer) : bool :=
  match c, c' with Audit, Audit | PgFacts, PgFacts | ChFacts, ChFacts | Index, Index => true | _, _ => false end.

(** The events goroutines of a consumer have. *)
Definition events_of (c : Consumer) (l : list (Consumer * Envelope)) : list Envelope :=
  omap (fun ce => if same_consumer c ce.1 then Some ce.2 else None) l.

#[export] Instance events_of_perm c : Proper ((≡ₚ) ==> (≡ₚ)) (events_of c).
Proof. intros l k Hp. unfold events_of. by rewrite Hp. Qed.

Lemma events_of_published c env (l : list (string * Z * Consumer)) :
  events_of c (map (fun s => (s.2, env)) (List.filter (Bus.listens env) l))
  = map (fun _ => env) (List.filter (Bus.listens env) (List.filter (fun s => same_consumer c s.2) l)).
Proof.
  induction l as [|s l IH]; [done|]. cbn [List.filter].
  destruct (Bus.listens env s) eqn:Hl, (same_consumer c s.2) eqn:Hc; cbn [map List.filter]; rewrite ?Hl; try done;
    unfold events_of in *; cbn [omap list_omap fst snd]; rewrite Hc; cbn [map]; by rewrite IH.
Qed.

(** A worker that runs, with its bus and its sink of facts. *)
Section hearing.
Context (uuid_valid : string -> bool) (cfg : Config) (ch : option (ClickHouse.Store + Error)) (indexing : bool).
Context (wb : Bus.InProc Consumer) (facts : Consumer).
Context (Hwb : worker_bus cfg ch indexing = Some wb) (Hfacts : factsHandler ch = Some facts).

(** The audit and the sink have one subscription each, to everything. *)
Lemma worker_subscribed c : c = Audit \/ c = facts ->
  map (fun s : string * Z * Consumer => s.1.1) (List.filter (fun s => same_consumer c s.2) (Bus.triples wb)) = ["*"].
Proof.
  assert (facts = PgFacts \/ facts = ChFacts) as Hf
    by (clear Hwb; unfold factsHandler in Hfacts; destruct ch as [[]|]; naive_solver).
  unfold worker_bus in Hwb. rewrite Hfacts in Hwb. injection Hwb as <-. intros Hc. destruct Hf as [-> | ->], Hc as [-> | ->]; destruct indexing; vm_compute; reflexivity.
Qed.

Lemma published_once c env : c = Audit \/ c = facts -> Validate uuid_valid env = None ->
  events_of c (Bus.Publish uuid_valid (Some env) wb).2 = [env] /\ bus_error uuid_valid wb env = None.
Proof.
  intros Hc Hv. unfold bus_error. rewrite (Bus.Publish_triples uuid_valid env _ Hv). split; [|done]. cbn [snd].
  rewrite events_of_published. pose proof (worker_subscribed c Hc) as Hs.
  destruct (List.filter _ (Bus.triples _)) as [|[[topic i] x] [|]]; [done| |done]. injection Hs as ->.
  cbn [List.filter]. unfold Bus.listens. cbn [fst]. by rewrite orb_true_r.
Qed.

Lemma spawned_once c sent : c = Audit \/ c = facts -> Forall (fun v => Validate uuid_valid v = None) sent ->
  events_of c (spawned uuid_valid wb sent) = sent.
Proof.
  intros Hc. induction 1 as [|v sent Hv _ IH]; [done|]. unfold spawned in *. cbn [flat_map]. unfold events_of in *.
  rewrite omap_app, IH. pose proof (proj1 (published_once c v Hc Hv)) as Hp. unfold events_of in Hp. by rewrite Hp.
Qed.

Lemma spawned_sent c v sent : (c, v) ∈ spawned uuid_valid wb sent -> v ∈ sent.
Proof.
  unfold spawned. rewrite !list_elem_of_In, in_flat_map. intros (u & Hu & Hin). unfold Bus.Publish in Hin.
  destruct (ValidatePtr uuid_valid (Some u)); [done|]. cbn [snd] in Hin.
  apply in_flat_map in Hin as ([topic hs] & _ & Hin). case_match; [done|].
  by apply in_map_iff in Hin as (h & [= _ <-] & _).
Qed.
End hearing.

(** ** What the goroutines leave *)

Section consumers.
Context `{Analytics.UUIDs}.

(** No statement fails; every statement fails; no call of the batched store
    gives up waiting for room. *)
Definition smooth (l : list Act) : Prop := Forall (fun a => match a with Go _ fault _ => fault = None | Mv _ => True end) l.
Definition refused (l : list Act) : Prop := Forall (fun a => match a with Go _ fault _ => is_Some fault | Mv _ => True end) l.
Definition patient (l : list Act) : Prop := Forall (fun a => match a with Mv (MAbandon _ _) => False | _ => True end) l.

Lemma run_all_cons a l w : run_all (a :: l) w = run_all l (act a w).
Proof. done. Qed.

Lemma events_go c c' v fault now l :
  events_of c (goroutines (Go (c', v) fault now :: l))
  = (if same_consumer c c' then [v] else []) ++ events_of c (goroutines l).
Proof. unfold events_of, goroutines. cbn [omap list_omap fst snd]. by destruct (same_consumer c c'). Qed.

Lemma events_mv c m l : events_of c (goroutines (Mv m :: l)) = events_of c (goroutines l).
Proof. done. Qed.

Lemma index_goroutine fault now v w :
  wk_audit (run_consumer fault now (Index, v) w) = wk_audit w
  /\ wk_facts (run_consumer fault now (Index, v) w) = wk_facts w
  /\ wk_store (run_consumer fault now (Index, v) w) = wk_store w.
Proof. cbn [run_consumer]. by destruct (Search.handle_seen _ _) as [[? []] ?]. Qed.

(** *** The audit trail *)

(** The audit table is the events' rows in the order the goroutines ran. *)
Lemma run_all_audit l w :
  smooth l -> Forall (fun v => is_Some (Analytics.pg_uuid (e_TenantID v))) (events_of Audit (goroutines l)) ->
  wk_audit (run_all l w)
  = wk_audit w ++ map (fun v => audit_row (default "" (Analytics.pg_uuid (e_TenantID v))) v) (events_of Audit (goroutines l)).
Proof.
  intros Hs. revert w. induction Hs as [|a l Ha _ IH]; intros w Ht; [by rewrite app_nil_r|].
  rewrite run_all_cons. destruct a as [[c v] fault now|m]; [|by rewrite IH]. subst fault.
  rewrite events_go in Ht |- *. destruct c; cbn [same_consumer app] in Ht |- *.
  - apply Forall_cons in Ht as [[t Ht] Ht']. rewrite IH by done. cbn [act run_consumer auditConsumer wk_audit].
    cbn [map]. rewrite Ht. cbn [snd default from_option]. by rewrite <- app_assoc.
  - by rewrite IH.
  - by rewrite IH.
  - rewrite IH by done. cbn [act]. by rewrite (proj1 (index_goroutine None now v w)).
Qed.

Lemma Handle_refused err v f : (Analytics.Handle (Some err) v f).2 = f.
Proof.
  unfold Analytics.Handle, Analytics.interactionFact, Analytics.usageFact, Analytics.exec_fact.
  by repeat case_match.
Qed.

(** A refused statement leaves nothing: the handler's error is dropped. *)
Lemma run_all_refused l w : refused l ->
  wk_audit (run_all l w) = wk_audit w /\ wk_facts (run_all l w) = wk_facts w.
Proof.
  intros Hs. revert w. induction Hs as [|a l Ha _ IH]; intros w; [done|]. rewrite run_all_cons.
  destruct (IH (act a w)) as [-> ->]. destruct a as [[c v] fault now|m]; [|done]. destruct Ha as [err ->].
  destruct c; cbn [act]; [done| |done|].
  - cbn [run_consumer wk_audit wk_facts]. by rewrite Handle_refused.
  - by destruct (index_goroutine (Some err) now v w) as (-> & -> & _).
Qed.

(** *** Facts in PostgreSQL *)

(** The fact row an event owes: the table's key, if its uuids are taken. *)
Definition interaction_key (v : Envelope) : option string :=
  if Analytics.is_interaction_topic (e_Type v) && negb (is_empty (Analytics.fact_subject v)) then
    match Analytics.pg_uuid (e_ID v), Analytics.pg_uuid (e_TenantID v), Analytics.pg_uuid (Analytics.fact_subject v) with
    | Some i, Some _, Some _ => Some i
    | _, _, _ => None
    end
  else None.

Lemma Handle_keeps fault v f i :
  is_Some (Analytics.interaction_fact f !! i) ->
  is_Some (Analytics.interaction_fact (Analytics.Handle fault v f).2 !! i).
Proof.
  intros Hi. unfold Analytics.Handle, Analytics.interactionFact, Analytics.usageFact, Analytics.exec_fact,
    Analytics.ins_interaction_fact, Analytics.ins_usage_fact.
  repeat (case_match; cbn [snd Analytics.interaction_fact]; try done).
  all: simplify_eq; cbn [Analytics.interaction_fact]; try done; by apply lookup_insert_is_Some'; right.
Qed.

Lemma Handle_writes v f i : interaction_key v = Some i ->
  is_Some (Analytics.interaction_fact (Analytics.Handle None v f).2 !! i).
Proof.
  unfold interaction_key, Analytics.Handle, Analytics.interactionFact, Analytics.exec_fact, Analytics.ins_interaction_fact.
  destruct (Analytics.is_interaction_topic _); [|done]. destruct (is_empty _); [done|]. cbn [andb negb].
  destruct (Analytics.pg_uuid (e_ID v)) as [j|]; [|done]. destruct (Analytics.pg_uuid (e_TenantID v)); [|done].
  destruct (Analytics.pg_uuid (Analytics.fact_subject v)); [|done]. intros [= ->].
  destruct (Analytics.interaction_fact f !! i) eqn:E; cbn [snd].
  - by rewrite E.
  - cbn [Analytics.interaction_fact]. by rewrite lookup_insert_eq.
Qed.

Lemma act_facts a w :
  wk_facts (act a w) = match a with
                       | Go (PgFacts, v) fault _ => (Analytics.Handle fault v (wk_facts w)).2
                       | _ => wk_facts w
                       end.
Proof. destruct a as [[[] v] fault now|m]; try done. cbn [act]. by destruct (index_goroutine fault now v w) as (_ & -> & _). Qed.

Lemma run_all_keeps l w i :
  is_Some (Analytics.interaction_fact (wk_facts w) !! i) ->
  is_Some (Analytics.interaction_fact (wk_facts (run_all l w)) !! i).
Proof.
  revert w. induction l as [|a l IH]; intros w Hi; [done|]. rewrite run_all_cons. apply IH. rewrite act_facts.
  destruct a as [[[] v] fault now|m]; try done. by apply Handle_keeps.
Qed.

Lemma run_all_facts l w v i :
  smooth l -> v ∈ events_of PgFacts (goroutines l) -> interaction_key v = Some i ->
  is_Some (Analytics.interaction_fact (wk_facts (run_all l w)) !! i).
Proof.
  intros Hs Hv Hk. revert w. induction Hs as [|a l Ha _ IH]; intros w; [by apply not_elem_of_nil in Hv|].
  rewrite run_all_cons. destruct a as [[c u] fault now|m]; [|by apply IH]. subst fault.
  rewrite events_go in Hv. destruct c; cbn [same_consumer app] in Hv;
    [by apply IH| |by apply IH|by apply IH].
  apply elem_of_cons in Hv as [->|Hv]; [|by apply IH].
  apply run_all_keeps. rewrite act_facts. by apply Handle_writes.
Qed.

(** *** Facts in the batched store *)

(** What the store makes of an event that carries its time. *)
Definition fact_of (v : Envelope) : option ClickHouse.Fact :=
  match ClickHouse.ch_Handle (Some v) 0 with Some (inl r) => Some r | _ => None end.

Definition inter_row (r : ClickHouse.Fact) : option Analytics.InteractionRow :=
  match r with ClickHouse.FactInteraction r => Some r | _ => None end.
Definition usage_row (r : ClickHouse.Fact) : option Analytics.UsageRow :=
  match r with ClickHouse.FactUsage r => Some r | _ => None end.

(** The rows a lane ever admitted, but for calls that gave up. *)
Definition holds {A} (l : ClickHouse.Lane A) : list A :=
  ClickHouse.entering l ++ ClickHouse.blocked l ++ ClickHouse.accepted l.

Lemma try_holds {A} cap n (l : ClickHouse.Lane A) : holds (ClickHouse.lane_try cap n l) ≡ₚ holds l.
Proof.
  unfold ClickHouse.lane_try. destruct (ClickHouse.entering l !! n) as [r|] eqn:E; [|done].
  apply delete_Permutation in E. destruct (_ <? _)%nat; unfold holds;
    cbn [ClickHouse.entering ClickHouse.blocked ClickHouse.accepted];
    (transitivity ((r :: delete n (ClickHouse.entering l)) ++ ClickHouse.blocked l ++ ClickHouse.accepted l);
     [solve_Permutation|by rewrite <- E]).
Qed.

Lemma unblock_holds {A} cap n (l : ClickHouse.Lane A) : holds (ClickHouse.lane_unblock cap n l) ≡ₚ holds l.
Proof.
  unfold ClickHouse.lane_unblock. destruct (ClickHouse.blocked l !! n) as [r|] eqn:E; [|done].
  apply delete_Permutation in E. destruct (_ <? _)%nat; [|done]. unfold holds;
    cbn [ClickHouse.entering ClickHouse.blocked ClickHouse.accepted].
  transitivity (ClickHouse.entering l ++ (r :: delete n (ClickHouse.blocked l)) ++ ClickHouse.accepted l);
    [solve_Permutation|by rewrite <- E].
Qed.

(** The flusher moves what was accepted. *)
Lemma flusher_holds {A} (l : ClickHouse.Lane A) cap b c :
  holds (ClickHouse.lane_recv l) = holds l /\ holds (ClickHouse.lane_flush b c l) = holds l
  /\ holds (ClickHouse.lane_offer cap l).2 = holds l /\ holds (ClickHouse.lane_shed l) = holds l
  /\ holds (ClickHouse.lane_last cap l) = holds l.
Proof.
  unfold ClickHouse.lane_recv, ClickHouse.lane_flush, ClickHouse.lane_shed, ClickHouse.lane_last, ClickHouse.lane_offer.
  split_and!; by repeat case_match; simplify_eq.
Qed.

Definition same_rows (s s' : ClickHouse.Store) : Prop :=
  holds (ClickHouse.inter s') ≡ₚ holds (ClickHouse.inter s) /\ holds (ClickHouse.usage s') ≡ₚ holds (ClickHouse.usage s)
  /\ ClickHouse.closed s' = ClickHouse.closed s.

Lemma move_holds m s : (forall u n, m <> MAbandon u n) -> same_rows s (move_store m s).
Proof.
  intros Hm. pose proof (fun l : ClickHouse.Lane Analytics.InteractionRow => flusher_holds l) as Hi.
  pose proof (fun l : ClickHouse.Lane Analytics.UsageRow => flusher_holds l) as Hu.
  assert (same_rows s s) as Hs by done.
  destruct m as [u n|u n|u n|u| |u| |dial ei eu ec|]; cbn [move_store].
  - unfold ClickHouse.try_send. destruct u; split_and!; cbn; try done; apply try_holds.
  - unfold ClickHouse.unblock. destruct u; split_and!; cbn; try done; apply unblock_holds.
  - by destruct (Hm u n).
  - unfold ClickHouse.loop_recv. repeat case_match; cbn [default from_option]; try done; split_and!; cbn; try done;
      by rewrite (proj1 (flusher_holds _ 0 true true)).
  - unfold ClickHouse.loop_tick. by repeat case_match.
  - unfold ClickHouse.drain_one. repeat case_match; cbn [default from_option]; try done; split_and!; cbn; try done;
      by rewrite (proj1 (flusher_holds _ 0 true true)).
  - unfold ClickHouse.drain_end. by repeat case_match.
  - unfold ClickHouse.flush. case_match; try done. case_match; cbn [default from_option]; [done|].
    split_and!; cbn; try done; by rewrite (proj1 (proj2 (flusher_holds _ 0 _ _))).
  - unfold ClickHouse.requeue_step. case_match; try done.
    + repeat case_match; cbn [default from_option]; try done; split_and!; cbn; try done;
        match goal with
        | H : ClickHouse.lane_offer ?c ?l = (_, ?l') |- holds ?l' ≡ₚ _ =>
            pose proof (proj1 (proj2 (proj2 (flusher_holds l c true true)))) as Ho; rewrite H in Ho; by rewrite <- Ho
        | |- _ => by rewrite (proj1 (proj2 (proj2 (proj2 (flusher_holds _ 0 true true)))))
        end.
    + repeat case_match; cbn [default from_option]; try done; split_and!; cbn; try done;
        by rewrite (proj2 (proj2 (proj2 (proj2 (flusher_holds _ (ClickHouse.maxRows s) true true))))).
Qed.

Lemma ch_Handle_now v now : e_Time v <> Workflows.time_zero ->
  ClickHouse.ch_Handle (Some v) now = ClickHouse.ch_Handle (Some v) 0.
Proof.
  intros Ht. unfold ClickHouse.ch_Handle, ClickHouse.newInteractionRow, ClickHouse.newUsageRow, ClickHouse.occurred_at.
  by rewrite (proj2 (Z.eqb_neq _ _) Ht).
Qed.

(** An open store takes in every row it is handed. *)
Lemma chHandle_holds now v s : e_Time v <> Workflows.time_zero -> ClickHouse.closed s = false ->
  let s' := (chHandle now v s).2 in
  ClickHouse.closed s' = false
  /\ holds (ClickHouse.inter s') ≡ₚ holds (ClickHouse.inter s) ++ omap inter_row (option_list (fact_of v))
  /\ holds (ClickHouse.usage s') ≡ₚ holds (ClickHouse.usage s) ++ omap usage_row (option_list (fact_of v)).
Proof.
  intros Ht Hc. unfold chHandle, fact_of. rewrite (ch_Handle_now v now Ht).
  destruct (ClickHouse.ch_Handle (Some v) 0) as [[r|err]|]; cbn [snd option_list omap list_omap]; rewrite ?app_nil_r; try done.
  unfold ClickHouse.enqueue. rewrite Hc. cbn [snd]. destruct r as [r|r]; (split; [exact Hc|]); unfold holds; cbn; rewrite ?app_nil_r;
    split; try done; solve_Permutation.
Qed.

Lemma run_all_store l w :
  patient l -> ClickHouse.closed (wk_store w) = false ->
  Forall (fun v => e_Time v <> Workflows.time_zero) (events_of ChFacts (goroutines l)) ->
  let rows := omap fact_of (events_of ChFacts (goroutines l)) in
  holds (ClickHouse.inter (wk_store (run_all l w))) ≡ₚ holds (ClickHouse.inter (wk_store w)) ++ omap inter_row rows
  /\ holds (ClickHouse.usage (wk_store (run_all l w))) ≡ₚ holds (ClickHouse.usage (wk_store w)) ++ omap usage_row rows.
Proof.
  intros Hp. revert w. induction Hp as [|a l Ha _ IH]; intros w Hc Ht; cbv zeta; [by rewrite !app_nil_r|].
  rewrite run_all_cons. destruct a as [[c v] fault now|m].
  2: { destruct (move_holds m (wk_store w)) as (H1 & H2 & H3); [by intros u n ->|].
       destruct (IH (act (Mv m) w)) as [I1 I2]; [by rewrite <- Hc|done|]. by rewrite I1, I2, <- H1, <- H2. }
  rewrite events_go in Ht |- *. destruct c; cbn [same_consumer app] in Ht |- *.
  - apply (IH (act (Go (Audit, v) fault now) w)); done.
  - apply (IH (act (Go (PgFacts, v) fault now) w)); done.
  - apply Forall_cons in Ht as [Hv Ht]. destruct (chHandle_holds now v (wk_store w) Hv Hc) as (H1 & H2 & H3).
    destruct (IH (act (Go (ChFacts, v) fault now) w)) as [I1 I2]; [done|done|].
    cbn [act run_consumer wk_store] in I1, I2 |- *. rewrite I1, I2, H2, H3, <- !app_assoc, <- !omap_app.
    split; f_equiv; by destruct (fact_of v) as [[r|r]|] eqn:E; cbn [option_list app omap list_omap]; rewrite ?E.
  - destruct (index_goroutine fault now v w) as (_ & _ & E).
    destruct (IH (act (Go (Index, v) fault now) w)) as [I1 I2]; [cbn [act]; by rewrite E|done|].
    rewrite I1, I2. cbn [act]. by rewrite E.
Qed.

(** The audit has no key: the same event again is another row, although every
    consumer is to know events by their ids. *)
Lemma redelivery_audited_twice v t w now : Analytics.pg_uuid (e_TenantID v) = Some t ->
  wk_audit (run_all [Go (Audit, v) None now; Go (Audit, v) None now] w) = wk_audit w ++ [audit_row t v; audit_row t v].
Proof.
  intros Ht. unfold run_all. cbn [fold_left act run_consumer auditConsumer]. rewrite Ht. cbn [snd wk_audit].
  by rewrite <- app_assoc.
Qed.
End consumers.

(** The store's moves are steps of the batched store. *)
Lemma move_steps m s : rtc AnalyticsProps.ch_step s (move_store m s).
Proof.
  destruct m as [u n|u n|u n|u| |u| |dial ei eu ec|]; cbn [move_store]; [by apply rtc_once; constructor..| | | | | |];
    match goal with |- rtc _ _ (default _ ?x) => destruct x as [s'|] eqn:E; [apply rtc_once|apply rtc_refl] end.
  - by eapply AnalyticsProps.ch_recv.
  - by apply AnalyticsProps.ch_tick.
  - by eapply AnalyticsProps.ch_drain.
  - by apply AnalyticsProps.ch_drained.
  - by eapply AnalyticsProps.ch_flush.
  - by apply AnalyticsProps.ch_requeue.
Qed.

(** ** Messages of workflow steps *)

(** The worker's statement is refused, the error dropped: no message is ever
    queued, and the step is told that it was. *)
Lemma worker_messages_dropped `{PgTypesParameters} t c typ to body e s :
  Workflows.QueueMessage t c typ to body e s = (Ok None, bump s).
Proof.
  cbn [Workflows.QueueMessage workerServices].
  destruct (pg_untyped queue_message_sql 2 5) as [err ->]; [lia|reflexivity|reflexivity|done].
Qed.

(** ** The hub *)

(** Nobody publishes on the realtime process's own bus: over every history of
    writes, dispatcher ticks, consumers and connections, no client is ever sent
    an event. *)
Lemma realtime_hears_nothing `{Analytics.UUIDs} uuid_valid unm d wb s w pp m orig x :
  rtc (dstep uuid_valid unm d wb) (MkDeployment s [] w [] (Realtime.NewHub pp m orig)) x ->
  forall i c, Realtime.heap (dp_hub x) !! i = Some c -> Realtime.wire c ++ Realtime.send c = [].
Proof.
  intros Hr.
  assert (dp_heard x = [] /\ exists evs, dp_hub x = Realtime.run evs (Realtime.NewHub pp m orig)
          /\ Realtime.published evs = []) as (_ & evs & Hh & Hp).
  { revert x Hr. refine (rtc_ind_r _ _ _ _).
    - split; [done|]. by exists [].
    - intros x1 x2 _ Hs IH. destruct IH as (Hq & evs & Hh & Hp). destruct Hs as [x s'|x e res sent err s' _ _|x l1 ce l2 fault now _|x mv|x ev Hc|x l1 env l2 Hl];
        cbn [dp_heard dp_hub].
      1-4: by eauto.
      + split; [done|]. exists (evs ++ [ev]). rewrite Realtime.run_snoc, Hh. split; [done|].
        unfold Realtime.published in *. rewrite omap_app, Hp. by destruct ev.
      + rewrite Hq in Hl. by destruct l1. }
  intros i c Hc. rewrite Hh in Hc. destruct (Realtime.run_faithful evs pp m orig i c Hc) as [Hs _].
  rewrite Hp in Hs. by apply sublist_nil_r in Hs.
Qed.

(** ** A drained outbox stays quiet *)

Lemma all_delivered_idle rows : Outbox.idle rows -> Outbox.idle (Outbox.all_delivered rows).
Proof.
  intros [H1 H2]. split; [unfold Outbox.all_delivered; by rewrite Outbox.map_id_update|].
  intros r Hr. apply Outbox.elem_of_update in Hr as (r0 & H0 & [[_ ->]|[_ ->]]); [done|by apply H2].
Qed.

Lemma all_delivered_pending rows : List.filter Outbox.pending (Outbox.all_delivered rows) = [].
Proof.
  unfold Outbox.all_delivered. induction rows as [|r rows IH]; [done|]. cbn [map List.filter].
  destruct (Outbox.pending r) eqn:E; [done|]. by rewrite E.
Qed.

Lemma all_delivered_quiet unm d bus e k rows s :
  healthy e -> (forall n, uuid_of e n <> "") -> 0 < Outbox.batchSize d -> Outbox.idle rows ->
  (forall r, r ∈ rows -> unm (ob_Env r) = true -> bus (ob_Env r) = None) ->
  d_outbox (committed s) = Outbox.all_delivered rows -> (Outbox.ticks unm d bus k e s).1 = [].
Proof.
  intros Hh Hid Hb Hi Hbus Hs.
  assert (forall r, r ∈ d_outbox (committed s) -> unm (ob_Env r) = true -> bus (ob_Env r) = None) as Hbus'.
  { rewrite Hs. intros r Hr. apply Outbox.elem_of_update in Hr as (r0 & H0 & [[_ ->]|[_ ->]]); exact (Hbus r0 H0). }
  pose proof (Outbox.ticks_drain unm d bus e k s Hh Hbus' Hid Hb) as Hd.
  rewrite Hs, all_delivered_pending in Hd. specialize (Hd (all_delivered_idle _ Hi)). cbn [length map] in Hd.
  specialize (Hd ltac:(lia)). destruct (Outbox.ticks _ _ _ _ _ _) as [out s']. destruct Hd as [_ Hp].
  by apply Permutation_nil_r in Hp.
Qed.

(** ** Properties *)


(** A case and an interaction were opened, and a row's payload does not decode. *)
#[local] Instance demo_uuids : Analytics.UUIDs := { Analytics.pg_uuid := Some; Analytics.go_uuid := Some }.

Definition voice_event : Envelope :=
  MkEnvelope "e2" TopicInteractionCreated "api" "i1" "t1" "" 2 [("channel", VStr "voice")].

Definition broken_event : Envelope := MkEnvelope "e3" TopicInteractionCreated "api" "i2" "t1" "" 3 [].

Definition demo_unmarshals (v : Envelope) : bool := negb (String.eqb (e_ID v) "e3").

Definition waiting (v : Envelope) : OutboxRow := MkOutboxRow v "pending" 0 "" None.

Definition demo_rows : list OutboxRow := map waiting [Outbox.event1; voice_event; broken_event].

Definition demo_worker : Worker :=
  MkWorker [] (Analytics.MkFacts ∅ ∅) (ClickHouse.ch_New (ClickHouse.MkOptions "" 0 0 0 0))
    (Search.NewIndexer (Search.NewService (Search.MkConfig "" "" 0)) (Search.MkIndexerConfig 0 0)).

(** The bus with the sink [ch] gives. *)
Definition demo_bus (ch : option (ClickHouse.Store + Error)) : Bus.InProc Consumer :=
  default Bus.NewInProc (worker_bus (Load (fun _ => "")).1 ch false).

Definition demo_sent (ch : option (ClickHouse.Store + Error)) : list Envelope * st :=
  Outbox.ticks demo_unmarshals (Outbox.NewDispatcher 0 100 10) (bus_error (fun _ => true) (demo_bus ch)) 1
    env0 (MkSt (set_outbox (fun _ => demo_rows) empty_db) None 0).

Definition demo_order (ch : option (ClickHouse.Store + Error)) : list Act :=
  map (fun ce => Go ce None 0) (spawned (fun _ => true) (demo_bus ch) (demo_sent ch).1).

Definition demo_clickhouse : option (ClickHouse.Store + Error) := Some (inl (wk_store demo_worker)).

Lemma demo_order_smooth ch :
  goroutines (demo_order ch) = spawned (fun _ => true) (demo_bus ch) (demo_sent ch).1
  /\ smooth (demo_order ch) /\ patient (demo_order ch).
Proof.
  unfold demo_order. generalize (spawned (fun _ => true) (demo_bus ch) (demo_sent ch).1) as l. intros l.
  unfold smooth, patient. split_and!; [|by apply Forall_map, Forall_true..].
  induction l as [|ce l IH]; [done|]. unfold goroutines in *. cbn [map omap list_omap]. by f_equal.
Qed.

Lemma demo_premises :
  (forall n, uuid_of env0 n <> "") /\ Outbox.idle demo_rows
  /\ (forall r, r ∈ demo_rows -> demo_unmarshals (ob_Env r) = true -> Validate (fun _ => true) (ob_Env r) = None).
Proof.
  split; [intros n; vm_compute; discriminate|]. split; [split; [apply (bool_decide_unpack _); vm_compute; exact I|]|].
  all: intros r Hr; repeat (apply elem_of_cons in Hr as [->|Hr]; [done|]); by apply not_elem_of_nil in Hr.
Qed.

