(* ===== verification/HttpApi.v ===== *)
(** * internal/httpserver: the HTTP API

    server.go, v1.go, errors.go and the handlers, with response.go and the
    middleware of internal/platform/httpx: requests, the reading of bodies
    ([decodeJSON] over the typed decoding of encoding/json), every handler over
    the services, the route tables of the mount functions with their gates, and
    [ServeHTTP]. cmd/api's tool executor, tool policy and audit sink close the
    loop of POST /ai/agents/{id}/tools. The router (chi) and the lexing of JSON
    are parameters. *)

From Stdlib Require Import String Ascii.
From S2P Require Import Prelude GoStd AppErrors Events Store Sql Pagination Planes.
From S2P Require Text UrlQuery Float64 RateLimit Tenancy Identity Customers Agents Queues Interactions.
From S2P Require Conversations Cases Webhooks Comms Routing Workflows Tools Ai Search Analytics.

Local Open Scope Z_scope.

(** ** Requests and replies *)

Record Request := MkRequest {
  r_Method : string;
  r_Path : string;
  r_RawQuery : string;
  r_Header : gmap string string;
  r_RemoteAddr : string;
  r_ContentLength : Z;
  (** the bytes the client sends, and whether the connection breaks after them *)
  r_Body : string;
  r_Broken : bool;
  r_Host : string;
  r_TLS : bool;
}.

Definition header (r : Request) (name : string) : string := default "" (r_Header r !! name).

(** What the authentication reads of a request. *)
Definition credentials (r : Request) : Tenancy.Request :=
  Tenancy.MkRequest (header r "Authorization") (header r "X-API-Key") (r_Method r).

(** [r.URL.Query().Get(name)] *)
Definition query (r : Request) (name : string) : string :=
  UrlQuery.Values_Get (UrlQuery.URL_Query (r_RawQuery r)) name.

(** What a handler passes to [WriteJSON] as data. *)
Inductive Payload :=
| PNil
| PText (kvs : list (string * string))
| PDict (d : dict)
| PCustomer (v : Customers.CustomerView)
| PCustomers (l : list Customer)
| PConversation (c : Conversation)
| PConversations (l : list Conversation)
| PInteraction (r : option Rec)
| PInteractions (l : list Rec)
| PAgent (a : AgentRow)
| PAgents (l : list AgentRow)
| PQueue (q : Queue)
| PQueues (l : list Queue)
| PCase (c : Case)
| PCases (l : list Case)
| PNote (n : Note)
| PNotes (l : list Note)
| PDecision (d : Routing.RoutingDecision)
| PDecisions (l : list DecisionRow)
| PPresence (p : PresenceRow)
| PAIAgent (a : Ai.Agent)
| PAIResult (r : Ai.Result)
| POutcome (o : Tools.Outcome)
| PWorkflow (i : Instance)
| PSummary (s : Analytics.Summary)
| PHits (r : Search.Result)
| PWebhook (eventID : string) (duplicate accepted processed : bool).

(** What a handler answers: a success envelope with the next cursor as meta, or
    an error envelope; or it panics, or the router finds no handler. *)
Inductive Reply :=
| Data (status : Z) (data : Payload) (next : option string)
| Problem (status : Z) (code message : string) (details : option any) (retryAfter : option string)
| Panicked
| NoRoute.

(** ** internal/platform/httpx: envelopes and middleware *)

Definition WriteJSON (status : Z) (data : Payload) : Reply := Data status data None.

Definition WritePage (data : Payload) (next : string) : Reply := Data 200 data (Some next).

Definition StatusOf (err : error) : Z := HTTPStatus (From err).

Definition WriteError (err : error) : Reply :=
  let e := From err in Problem (HTTPStatus e) (Code e) (AppErrors.Message e) (Details e) None.

(** The same after a [Retry-After] header, if any. *)
Definition refuse (err : Error) (retryAfter : option string) : Reply :=
  Problem (HTTPStatus err) (Code err) (AppErrors.Message err) (Details err) retryAfter.

Definition SecurityHeaders : list (string * string) :=
  [("Content-Security-Policy", "default-src 'none'; frame-ancestors 'none'; base-uri 'none'");
   ("Strict-Transport-Security", "max-age=31536000; includeSubDomains");
   ("X-Content-Type-Options", "nosniff");
   ("X-Frame-Options", "DENY");
   ("Referrer-Policy", "strict-origin-when-cross-origin");
   ("Permissions-Policy", "camera=(), microphone=(), geolocation=()");
   ("Cache-Control", "no-store")].

(** [RequestID]: the inbound id or a fresh one. *)
Definition RequestID (r : Request) (fresh : string) : string :=
  let id := header r "X-Request-ID" in if is_empty id then fresh else id.

(** [Recoverer]: a panic becomes an opaque error. *)
Definition Recoverer (reply : Reply) : Reply :=
  match reply with
  | Panicked => refuse (Internal "internal.error" "unexpected internal error") None
  | _ => reply
  end.

(** The headers of a reply, as the chain and the writers set them. *)
Definition reply_headers (r : Request) (fresh : string) (reply : Reply) : list (string * string) :=
  ("X-Request-ID", RequestID r fresh) :: SecurityHeaders
  ++ match reply with
     | Data _ _ _ => [("Content-Type", "application/json; charset=utf-8")]
     | Problem _ _ _ _ (Some s) => [("Retry-After", s); ("Content-Type", "application/json; charset=utf-8")]
     | Problem _ _ _ _ None => [("Content-Type", "application/json; charset=utf-8")]
     | _ => []
     end.

(** ** Bodies *)

Definition maxBodyBytes : Z := 1048576.

(** How a decoder stops without a value: the text is wrong, only blanks are
    left, or the text ends inside a value. *)
Inductive json_stop := StopSyntax | StopEmpty | StopInside.

(** The lexing half of encoding/json, and time.Parse. *)
Class JsonPorts := {
  (** the first value of a stream; the flag says that the stream ends with the
      text, otherwise reading on is an error *)
  json_next : bool -> string -> any + json_stop;
  (** the value of a whole text *)
  json_text : string -> option any;
  (** [time.Parse(time.RFC3339, s)] *)
  time_Parse : string -> option Z;
}.

(** *** The typed half of encoding/json

    A struct takes an object whose keys are among its field names, up to case;
    [null] leaves a value as it is and empties maps, slices and pointers. *)

Definition known_field (known : list string) (k : string) : option string :=
  match List.find (String.eqb k) known with
  | Some f => Some f
  | None => List.find (fun f => equal_fold k f) known
  end.

(** [DisallowUnknownFields] *)
Definition strict_fields (known : list string) (v : any) : option dict :=
  match v with
  | VNull => Some []
  | VMap m => mapM (fun kv => match known_field known kv.1 with
                              | Some f => Some (f, kv.2)
                              | None => None
                              end) m
  | _ => None
  end.

(** Without it, unknown keys are skipped. *)
Definition lenient_fields (known : list string) (v : any) : option dict :=
  match v with
  | VNull => Some []
  | VMap m => Some (omap (fun kv => match known_field known kv.1 with
                                    | Some f => Some (f, kv.2)
                                    | None => None
                                    end) m)
  | _ => None
  end.

(** The values of a field in order, each decoded into what the last one left. *)
Definition field {A} (into : A -> any -> option A) (zero : A) (name : string) (d : dict) : option A :=
  fold_left (fun acc kv => match acc with
                           | Some a => if String.eqb kv.1 name then into a kv.2 else Some a
                           | None => None
                           end) d (Some zero).

Definition into_string (a : string) (v : any) : option string :=
  match v with VNull => Some a | VStr s => Some s | _ => None end.
Definition into_bool (a : bool) (v : any) : option bool :=
  match v with VNull => Some a | VBool b => Some b | _ => None end.
Definition into_bool_ptr (_ : option bool) (v : any) : option (option bool) :=
  match v with VNull => Some None | VBool b => Some (Some b) | _ => None end.
Definition into_int (a : Z) (v : any) : option Z :=
  match v with
  | VNull => Some a
  | VInt n => if bool_decide (in_int64 n) then Some n else None
  | _ => None
  end.
Definition into_map (a : dict) (v : any) : option dict :=
  match v with VNull => Some [] | VMap m => Some (m ++ a) | _ => None end.
(** A slice's elements are decoded over those it has. *)
Fixpoint into_elems {A} (elem : A -> any -> option A) (zero : A) (old : list A) (l : list any) : option (list A) :=
  match l with
  | [] => Some []
  | v :: l => x ← elem (hd zero old) v; xs ← into_elems elem zero (tail old) l; Some (x :: xs)
  end.
Definition into_list {A} (elem : A -> any -> option A) (zero : A) (old : list A) (v : any) : option (list A) :=
  match v with VNull => Some [] | VList l => into_elems elem zero old l | _ => None end.

Definition str_field := field into_string "".
Definition int_field := field into_int 0.
Definition bool_field := field into_bool false.
Definition map_field := field into_map [].
Definition strs_field := field (into_list into_string "") [].

Section Decoders.
Context `{JsonPorts}.

Definition into_time (a : Z) (v : any) : option Z :=
  match v with VNull => Some a | VStr s => time_Parse s | _ => None end.

Definition decode_identifier (old : Customers.IdentifierIn) (v : any) : option Customers.IdentifierIn :=
  d ← strict_fields ["type"; "value"; "is_primary"] v;
  ty ← field into_string (Customers.in_Type old) "type" d;
  value ← field into_string (Customers.in_Value old) "value" d;
  primary ← field into_bool (Customers.in_IsPrimary old) "is_primary" d;
  Some (Customers.MkIdentifierIn ty value primary).

Definition decode_customer (v : any) : option Customers.CreateInput :=
  d ← strict_fields ["display_name"; "company"; "language"; "timezone"; "attributes"; "identifiers"; "tags"] v;
  name ← str_field "display_name" d; company ← str_field "company" d;
  language ← str_field "language" d; timezone ← str_field "timezone" d;
  attributes ← map_field "attributes" d;
  identifiers ← field (into_list decode_identifier (Customers.MkIdentifierIn "" "" false)) [] "identifiers" d;
  tags ← strs_field "tags" d;
  Some (Customers.MkCreateInput name company language timezone attributes identifiers tags).

(** The two-field bodies of the handlers. *)
Definition decode_pair (k1 k2 : string) (v : any) : option (string * string) :=
  d ← strict_fields [k1; k2] v;
  a ← str_field k1 d; b ← str_field k2 d; Some (a, b).

Definition decode_one (k : string) (v : any) : option string :=
  d ← strict_fields [k] v; str_field k d.

(** The attributes cannot be given over HTTP. *)
Definition decode_interaction (v : any) : option Interactions.CreateInput :=
  d ← strict_fields ["conversation_id"; "customer_id"; "channel"; "direction"; "source"; "destination";
                     "provider"; "provider_ref"; "idempotency_key"] v;
  conv ← str_field "conversation_id" d; cust ← str_field "customer_id" d;
  channel ← str_field "channel" d; direction ← str_field "direction" d;
  source ← str_field "source" d; destination ← str_field "destination" d;
  provider ← str_field "provider" d; ref ← str_field "provider_ref" d;
  key ← str_field "idempotency_key" d;
  Some (Interactions.MkCreateInput conv cust channel direction source destination provider ref key []).

Definition decode_skill (old : Skill) (v : any) : option Skill :=
  d ← strict_fields ["skill"; "level"] v;
  skill ← field into_string (sk_Skill old) "skill" d; level ← field into_int (sk_Level old) "level" d;
  Some (MkSkill skill level).

Definition decode_agent (v : any) : option Agents.CreateInput :=
  d ← strict_fields ["external_identity"; "display_name"; "email"; "language"; "skills"] v;
  identity ← str_field "external_identity" d; name ← str_field "display_name" d;
  email ← str_field "email" d; language ← str_field "language" d;
  skills ← field (into_list decode_skill (MkSkill "" 0)) [] "skills" d;
  Some (Agents.MkCreateInput identity name email language skills).

Definition decode_queue (v : any) : option Queues.CreateInput :=
  d ← strict_fields ["name"; "description"; "priority"; "business_hours"; "sla_seconds"; "skills"] v;
  name ← str_field "name" d; description ← str_field "description" d;
  priority ← int_field "priority" d; hours ← map_field "business_hours" d;
  sla ← int_field "sla_seconds" d; skills ← strs_field "skills" d;
  Some (Queues.MkCreateInput name description priority hours sla skills).

Definition decode_case (v : any) : option Cases.CreateInput :=
  d ← strict_fields ["customer_id"; "subject"; "description"; "priority"] v;
  cust ← str_field "customer_id" d; subject ← str_field "subject" d;
  description ← str_field "description" d; priority ← str_field "priority" d;
  Some (Cases.MkCreateInput cust subject description priority).

(** author type, author id, body, internal *)
Definition decode_note (v : any) : option (string * string * string * option bool) :=
  d ← strict_fields ["author_type"; "author_id"; "body"; "internal"] v;
  ty ← str_field "author_type" d; id ← str_field "author_id" d; body ← str_field "body" d;
  internal ← field into_bool_ptr None "internal" d;
  Some (ty, id, body, internal).

Definition decode_call (v : any) : option PlaceCallInput :=
  d ← strict_fields ["customer_id"; "from"; "to"; "agent_id"; "queue_id"; "options"] v;
  cust ← str_field "customer_id" d; from ← str_field "from" d; to ← str_field "to" d;
  agent ← str_field "agent_id" d; queue ← str_field "queue_id" d; options ← map_field "options" d;
  Some (MkPlaceCallInput cust from to agent queue options).

Definition decode_message (v : any) : option SendInput :=
  d ← strict_fields ["customer_id"; "channel"; "from"; "to"; "body"; "media_urls"] v;
  cust ← str_field "customer_id" d; channel ← str_field "channel" d; from ← str_field "from" d;
  to ← str_field "to" d; body ← str_field "body" d; media ← strs_field "media_urls" d;
  Some (MkSendInput cust channel from to body media).

Definition decode_routing (v : any) : option Routing.Request :=
  d ← strict_fields ["interaction_id"; "required_skills"; "language"; "priority"; "queue_id"] v;
  id ← str_field "interaction_id" d; skills ← strs_field "required_skills" d;
  language ← str_field "language" d; priority ← int_field "priority" d; queue ← str_field "queue_id" d;
  Some (Routing.MkRequest id skills language priority queue).

Definition decode_callback (v : any) : option Workflows.StartCallbackInput :=
  d ← strict_fields ["customer_id"; "phone"; "schedule_at"; "notes"] v;
  cust ← str_field "customer_id" d; phone ← str_field "phone" d;
  at_ ← field into_time Workflows.time_zero "schedule_at" d; notes ← str_field "notes" d;
  Some (Workflows.MkStartCallbackInput cust phone at_ notes).

Definition decode_collections (v : any) : option Workflows.StartCollectionsInput :=
  d ← strict_fields ["customer_id"; "invoice_ref"; "amount_due"; "phone"] v;
  cust ← str_field "customer_id" d; ref ← str_field "invoice_ref" d;
  due ← int_field "amount_due" d; phone ← str_field "phone" d;
  Some (Workflows.MkStartCollectionsInput cust ref due phone).

Definition decode_invoke (v : any) : option Ai.InvokeInput :=
  d ← strict_fields ["agent_id"; "interaction_id"; "user_message"; "facts"] v;
  agent ← str_field "agent_id" d; id ← str_field "interaction_id" d;
  message ← str_field "user_message" d; facts ← map_field "facts" d;
  Some (Ai.MkInvokeInput agent id message facts).

(** [tools.Call] has no tags: its fields go by their Go names. *)
Definition decode_tool (v : any) : option Tools.Call :=
  d ← strict_fields ["Tool"; "TenantID"; "AgentID"; "InteractionID"; "Args"] v;
  tool ← str_field "Tool" d; tenant ← str_field "TenantID" d; agent ← str_field "AgentID" d;
  id ← str_field "InteractionID" d; args ← map_field "Args" d;
  Some (Tools.MkCall tool tenant agent id args).

(** [json.Unmarshal] of a delivery. *)
Definition decode_event (body : string) : option Comms.ProviderEvent :=
  v ← json_text body;
  d ← lenient_fields ["event"; "interaction_id"; "tenant_id"; "timestamp"; "detail"] v;
  event ← str_field "event" d; id ← str_field "interaction_id" d; tenant ← str_field "tenant_id" d;
  at_ ← str_field "timestamp" d; detail ← str_field "detail" d;
  Some (Comms.MkProviderEvent event id tenant at_ detail).

(** [decodeJSON]: what [MaxBytesReader] lets through, then the decoder. What
    follows the first value is never read. *)
Definition decodeJSON {A} (dec : any -> option A) (r : Request) : A + Error :=
  let over := maxBodyBytes <? Z.of_nat (String.length (r_Body r)) in
  let readable := stake (Z.to_nat maxBodyBytes) (r_Body r) in
  let too_large := inr (Invalid "request.body_too_large" "request body exceeds 1 MiB") in
  let malformed := inr (Invalid "request.body_malformed" "request body is not valid JSON for this resource") in
  match json_next (negb over && negb (r_Broken r)) readable with
  | inl v => match dec v with Some x => inl x | None => malformed end
  | inr StopSyntax => malformed
  | inr StopEmpty =>
      if over then too_large
      else if r_Broken r then malformed
      else inr (Invalid "request.body_required" "request body is required")
  | inr StopInside => if over then too_large else malformed
  end.
End Decoders.

(** ** The plumbing of handlers.go and v1.go *)

(** Digits only, anything else is 0; the value wraps. *)
Fixpoint atoi_loop (n : Z) (s : string) : Z :=
  match s with
  | EmptyString => n
  | String c s' =>
      if (code c <? 48) || (57 <? code c) then 0 else atoi_loop (wrap64 (n * 10 + (code c - 48))) s'
  end.

Definition atoi (s : string) : Z := atoi_loop 0 s.

(** A malformed cursor gives the first page. *)
Definition pageFrom (r : Request) : Page :=
  match Parse (query r "cursor") (atoi (query r "limit")) with
  | inl _ => MkPage 0 DefaultLimit
  | inr p => p
  end.

Definition clientIP (r : Request) : string :=
  match Identity.cut_last (r_RemoteAddr r) ":"%char with
  | Some (host, _) => host
  | None => r_RemoteAddr r
  end.

(** [itoa] of v1.go: the loop of [fmtInt], a panic past twelve digits. *)
Definition itoa (n : Z) : option string :=
  if n =? 0 then Some "0" else Conversations.fmtInt_loop 12 n "".

Definition retryAfterSeconds (d : Z) : option string :=
  let s := RateLimit.float_to_int64 (RateLimit.Seconds d) in
  itoa (if s <? 1 then 1 else s).

Definition upDown (ok : bool) : string := if ok then "up" else "down".

(** errors.go *)
Definition errWebhookUnavailable : Error :=
  Unauth "webhook.not_configured" "webhook ingestion is not configured on this deployment".
Definition errWebhookRateLimited : Error :=
  RateLimited "webhook.rate_limited" "too many webhook submissions; slow down".
Definition errWebhookBodyUnreadable : Error :=
  Invalid "webhook.body_unreadable" "could not read request body".

(** ** The server *)

(** What cmd/api wires ([DomainDeps]): nil services are not mounted. *)
Record DomainDeps := MkDomainDeps {
  dd_Webhooks : option Webhooks.Gateway;
  dd_CommsProcessor : bool;
  dd_Calls : bool;
  dd_Messages : bool;
  dd_Routing : bool;
  dd_AI : option Ai.Gateway;
  dd_Workflows : bool;
  dd_Analytics : bool;
  dd_Search : option Search.Service;
}.

(** What the server keeps: the identity plane when it is configured, the two
    limiters, the tool gateway; the carriers and the database. *)
Record World (P : Type) := MkWorld {
  w_identity : option Identity.Service;
  w_limiter : RateLimit.RateLimit;
  w_webhooks : RateLimit.RateLimit;
  w_tools : Tools.Gateway;
  w_plane : P * st;
}.
Arguments MkWorld {P} _ _ _ _ _.
Arguments w_identity {P} _.
Arguments w_limiter {P} _.
Arguments w_webhooks {P} _.
Arguments w_tools {P} _.
Arguments w_plane {P} _.

Definition set_plane {P} (p : P * st) (w : World P) : World P :=
  MkWorld (w_identity w) (w_limiter w) (w_webhooks w) (w_tools w) p.
Definition set_webhooks {P} (rl : RateLimit.RateLimit) (w : World P) : World P :=
  MkWorld (w_identity w) (w_limiter w) rl (w_tools w) (w_plane w).
Definition set_tools {P} (g : Tools.Gateway) (w : World P) : World P :=
  MkWorld (w_identity w) (w_limiter w) (w_webhooks w) g (w_plane w).
Definition set_auth {P} (s : option Identity.Service) (rl : RateLimit.RateLimit) (w : World P) : World P :=
  MkWorld s rl (w_webhooks w) (w_tools w) (w_plane w).

(** What else one request meets: the answers to the authentication, the clock,
    the tables outside [DB], the search backend, the identity provider. *)
Record Answers := MkAnswers {
  a_outside : Identity.Outside;
  a_now : Z;
  a_agents : gmap string Ai.AgentConfigRow;
  a_facts : Analytics.Facts;
  a_fate : Analytics.query_fate;
  a_summary_now : Z * Z;
  a_search : Search.Request -> Search.Reply;
  a_exchange : string + error;
  a_nonce : string + error;
  a_db_up : bool;
  a_request_id : string;
}.

(** The libraries of the server: the order of map iteration, the routes chi
    finds, JSON texts and documents of values. *)
Class ServerPorts := {
  map_order : gmap string RateLimit.bucket -> list (string * RateLimit.bucket);
  jsonb_valid : string -> bool;
  json_routing : Routing.Request -> string;
  json_candidates : list Routing.Candidate -> string;
  json_customer : Customers.CustomerView -> any;
  json_case : Case -> any;
  json_interaction : Rec -> any;
  (** [oauth2.Config.AuthCodeURL] for a redirect, a state and a nonce *)
  AuthCodeURL : Identity.Config -> string -> string -> string -> string;
  buildinfo : string;
}.

Section Server.
Context {P : Type} `{VP : !VoiceProvider P} `{MP : !MessagingProvider P} `{AP : !Ai.AIProvider P}.
Context `{JP : JsonPorts} `{SP : ServerPorts} `{UN : Text.Unicode} `{PR : Routing.PresenceReader}.
Context `{JO : Identity.JOSE} `{SE : Search.SearchPorts}.

Notation World := (World P).

Definition source := "orvexa-api".

(** A handler, given the answers, the request, the URL parameters and the
    context the chain left. *)
Definition Handler := Answers -> Request -> (string -> string) -> Tenancy.Context -> env -> World -> Reply * World.

(** [v, err := svc.Method(r.Context(), principal(r).TenantID, ...)]: without a
    principal the pointer is nil. *)
Definition call {A} (c : Tenancy.Context) (m : string -> MW P A) (ok : A -> Reply) (e : env) (w : World)
    : Reply * World :=
  match Tenancy.ctx_Principal c with
  | None => (Panicked, w)
  | Some p =>
      let '(r, pw) := m (Tenancy.p_TenantID p) e (w_plane w) in
      (match r with inl a => ok a | inr err => WriteError err end, set_plane pw w)
  end.

(** The same for a service next to the database only. *)
Definition serve_with {A} (c : Tenancy.Context) (m : string -> M A) (ok : A -> Reply) :=
  call c (fun t => lift (m t)) ok.

Definition with_body {A} (dec : any -> option A) (r : Request) (k : A -> env -> World -> Reply * World)
    (e : env) (w : World) : Reply * World :=
  match decodeJSON dec r with
  | inr err => (WriteError (AppErr err), w)
  | inl x => k x e w
  end.

Definition respond (reply : Reply) (_ : env) (w : World) : Reply * World := (reply, w).

(** ** handlers.go *)

Definition customers_create : Handler := fun _ r _ c =>
  with_body decode_customer r (fun i =>
    serve_with c (fun t => Customers.Create t i) (fun v => WriteJSON 201 (PCustomer v))).
Definition customers_get : Handler := fun _ _ p c =>
  serve_with c (fun t => Customers.Get t (p "id")) (fun v => WriteJSON 200 (PCustomer v)).
Definition customers_list : Handler := fun _ r _ c =>
  serve_with c (fun t => Customers.ListCustomers t (pageFrom r)) (fun l => WritePage (PCustomers l.1) l.2).
Definition customers_resolve : Handler := fun _ r _ c =>
  with_body (decode_pair "type" "value") r (fun b =>
    serve_with c (fun t => Customers.Resolve t b.1 b.2) (fun v => WriteJSON 200 (PCustomer v))).

Definition conversations_get : Handler := fun _ _ p c =>
  serve_with c (fun t => Conversations.Get t (p "id")) (fun v => WriteJSON 200 (PConversation v)).
Definition conversations_list : Handler := fun _ r _ c =>
  serve_with c (fun t => Conversations.List t (query r "status") (pageFrom r))
    (fun l => WritePage (PConversations l.1) l.2).
Definition conversations_close : Handler := fun _ r p c =>
  let close reason :=
    serve_with c (fun t => Conversations.Close source t (p "id") reason) (fun v => WriteJSON 200 (PConversation v)) in
  if r_ContentLength r =? 0 then close "" else with_body (decode_one "reason") r close.
Definition conversations_assign : Handler := fun _ r p c =>
  with_body (decode_pair "agent_id" "queue_id") r (fun b =>
    serve_with c (fun t => Conversations.Assign t (p "id") b.1 b.2) (fun v => WriteJSON 200 (PConversation v))).
Definition conversations_interactions : Handler := fun _ r p c =>
  serve_with c (fun t => Interactions.ListByConversation t (p "id") (pageFrom r))
    (fun l => WritePage (PInteractions l.1) l.2).

Definition interactions_create : Handler := fun _ r _ c =>
  with_body decode_interaction r (fun i =>
    serve_with c (fun t => Interactions.Create source t i) (fun v => WriteJSON 201 (PInteraction (Some v)))).
Definition interactions_get : Handler := fun _ _ p c =>
  serve_with c (fun t => Interactions.Get t (p "id")) (fun v => WriteJSON 200 (PInteraction (Some v))).
Definition interactions_transition : Handler := fun _ r p c =>
  with_body (decode_pair "to" "end_reason") r (fun b =>
    serve_with c (fun t => Interactions.TransitionTo source t (p "id") b.1 b.2)
      (fun v => WriteJSON 200 (PInteraction (Some v)))).
Definition interactions_assign : Handler := fun _ r p c =>
  with_body (decode_pair "agent_id" "queue_id") r (fun b =>
    serve_with c (fun t => Interactions.Assign source t (p "id") b.1 b.2)
      (fun v => WriteJSON 200 (PInteraction (Some v)))).

Definition agents_create : Handler := fun _ r _ c =>
  with_body decode_agent r (fun i =>
    serve_with c (fun t => Agents.Create t i) (fun v => WriteJSON 201 (PAgent v))).
Definition agents_get : Handler := fun _ _ p c =>
  serve_with c (fun t => Agents.Get t (p "id")) (fun v => WriteJSON 200 (PAgent v)).
Definition agents_list : Handler := fun _ r _ c =>
  serve_with c (fun t => Agents.ListAgents t (pageFrom r)) (fun l => WritePage (PAgents l.1) l.2).

Definition queues_create : Handler := fun _ r _ c =>
  with_body decode_queue r (fun i =>
    serve_with c (fun t => Queues.Create t i) (fun v => WriteJSON 201 (PQueue v))).
Definition queues_get : Handler := fun _ _ p c =>
  serve_with c (fun t => Queues.Get t (p "id")) (fun v => WriteJSON 200 (PQueue v)).
Definition queues_list : Handler := fun _ r _ c =>
  serve_with c (fun t => Queues.ListQueues t (pageFrom r)) (fun l => WritePage (PQueues l.1) l.2).

Definition cases_open : Handler := fun _ r _ c =>
  with_body decode_case r (fun i =>
    serve_with c (fun t => Cases.Open source t i) (fun v => WriteJSON 201 (PCase v))).
Definition cases_get : Handler := fun _ _ p c =>
  serve_with c (fun t => Cases.Get t (p "id")) (fun v => WriteJSON 200 (PCase v)).
Definition cases_list : Handler := fun _ r _ c =>
  serve_with c (fun t => Cases.List t (pageFrom r)) (fun l => WritePage (PCases l.1) l.2).
Definition cases_transition : Handler := fun _ r p c =>
  with_body (decode_pair "to" "reason") r (fun b =>
    serve_with c (fun t => Cases.Transition source t (p "id") b.1 b.2) (fun v => WriteJSON 200 (PCase v))).
Definition cases_addNote : Handler := fun _ r p c =>
  with_body decode_note r (fun '(ty, id, body, internal) =>
    serve_with c (fun t => Cases.AddNote t (p "id") ty id body (default true internal))
      (fun v => WriteJSON 201 (PNote v))).
Definition cases_listNotes : Handler := fun _ r p c =>
  serve_with c (fun t => Cases.ListNotes t (p "id") (pageFrom r)) (fun l => WritePage (PNotes l.1) l.2).
Definition cases_link : Handler := fun _ _ p c =>
  serve_with c (fun t => Cases.LinkInteraction t (p "id") (p "interactionId")) (fun _ => WriteJSON 204 PNil).

(** ** comms_handlers.go, routing_handlers.go, workflow_handlers.go *)

Definition calls_place : Handler := fun _ r _ c =>
  with_body decode_call r (fun i =>
    call c (fun t => PlaceCall source t i) (fun v => WriteJSON 201 (PInteraction (Some v)))).
Definition calls_action : Handler := fun _ r p c =>
  with_body (decode_pair "action" "destination") r (fun b =>
    call c (fun t => ApplyAction source t (p "id") b.1 b.2) (fun v => WriteJSON 200 (PInteraction v))).
Definition messages_send : Handler := fun _ r _ c =>
  with_body decode_message r (fun i =>
    call c (fun t => Send source t i) (fun v => WriteJSON 201 (PInteraction (Some v)))).

Definition h_route : Handler := fun _ r p c =>
  with_body decode_routing r (fun q =>
    let q := Routing.MkRequest (p "id") (Routing.rq_RequiredSkills q) (Routing.rq_Language q)
               (Routing.rq_Priority q) (Routing.rq_QueueID q) in
    serve_with c (fun t => Routing.Route source json_routing json_candidates t q)
      (fun v => WriteJSON 200 (PDecision v))).
Definition h_decisions : Handler := fun _ r _ c =>
  serve_with c (fun t => Routing.ListDecisions t (query r "interaction_id") (pageFrom r))
    (fun l => WritePage (PDecisions l.1) l.2).
Definition h_setPresence : Handler := fun _ r p c =>
  with_body (decode_one "status") r (fun status =>
    serve_with c (fun t => Routing.SetPresence t (p "id") status)
      (fun _ => WriteJSON 200 (PText [("status", status)]))).
Definition h_getPresence : Handler := fun _ _ p c =>
  serve_with c (fun t => Routing.GetPresence t (p "id")) (fun v => WriteJSON 200 (PPresence v)).

Definition h_startCallback : Handler := fun _ r _ c =>
  with_body decode_callback r (fun i =>
    serve_with c (fun t => Workflows.StartCallback source t i) (fun v => WriteJSON 201 (PWorkflow v))).
Definition h_startCollections : Handler := fun _ r _ c =>
  with_body decode_collections r (fun i =>
    serve_with c (fun t => Workflows.StartCollections source t i) (fun v => WriteJSON 201 (PWorkflow v))).
Definition h_workflowGet : Handler := fun _ _ p c =>
  serve_with c (fun t => Workflows.Get t (p "id")) (fun v => WriteJSON 200 (PWorkflow v)).
Definition h_workflowCancel : Handler := fun _ _ p c =>
  serve_with c (fun t => Workflows.Cancel t (p "id")) (fun v => WriteJSON 200 (PWorkflow v)).

(** [parseTime]: the zero time for a parameter that is absent or wrong. *)
Definition parseTime (r : Request) (name : string) : Z :=
  let v := query r name in
  if is_empty v then Workflows.time_zero else default Workflows.time_zero (time_Parse v).

(** Answers computed from the tenant alone. *)
Definition call_pure {A} (c : Tenancy.Context) (f : string -> A + Error) (ok : A -> Reply) (e : env) (w : World)
    : Reply * World :=
  match Tenancy.ctx_Principal c with
  | None => (Panicked, w)
  | Some p =>
      (match f (Tenancy.p_TenantID p) with inl a => ok a | inr err => WriteError (AppErr err) end, w)
  end.

Definition h_analyticsSummary : Handler := fun a r _ c =>
  call_pure c (fun t => Analytics.GetSummary t (parseTime r "from") (parseTime r "to") (a_summary_now a).1
                          (a_summary_now a).2 (a_fate a) (a_facts a))
    (fun v => WriteJSON 200 (PSummary v)).

(** ** search_handlers.go *)

Definition writeSearchError (err : Error) : Reply :=
  if bool_decide (ErrKind err = Search.KindUnavailable) then
    Problem 503 (Code err) (AppErrors.Message err) None None
  else WriteError (AppErr err).

Definition h_searchConversations (svc : option Search.Service) : Handler := fun a r _ c _ w =>
  match Tenancy.ctx_Principal c with
  | None => (refuse (Unauth "auth.missing_key" "authenticated principal with tenant required") None, w)
  | Some p =>
      if is_empty (Tenancy.p_TenantID p) then
        (refuse (Unauth "auth.missing_key" "authenticated principal with tenant required") None, w)
      else
      match svc with
      | None => (writeSearchError Search.ErrNotConfigured, w)
      | Some svc =>
          let '(res, _) := Search.Search svc (Tenancy.p_TenantID p) (query r "q") (atoi (query r "limit")) (a_search a) in
          (match res with inl v => WriteJSON 200 (PHits v) | inr err => writeSearchError err end, w)
      end
  end.

(** ** ai_handlers.go *)

Definition h_aiAgent : Handler := fun a _ p c =>
  serve_with c (fun t => Ai.ResolveAgent (a_agents a) t (p "id")) (fun v => WriteJSON 200 (PAIAgent v)).

(** The agent is the one the body names. *)
Definition h_aiInvoke (g : Ai.Gateway) : Handler := fun a r _ c =>
  with_body decode_invoke r (fun i =>
    call c (fun t => Ai.Runtime_Invoke (a_agents a) g source t i) (fun v => WriteJSON 200 (PAIResult v))).

(** *** cmd/api: the executor, the policy and the audit of the tool gateway *)

Definition Execute (c : Tools.Call) : MW P dict :=
  let arg k := dict_str (Tools.c_Args c) k in
  if String.eqb (Tools.c_Tool c) Tools.ToolGetCustomer then
    cust ← lift (Customers.Get (Tools.c_TenantID c) (arg "customer_id"));
    mret [("customer", json_customer cust)]
  else if String.eqb (Tools.c_Tool c) Tools.ToolCreateCase then
    kase ← lift (Cases.Open source (Tools.c_TenantID c)
                   (Cases.MkCreateInput (arg "customer_id") (arg "subject") "" ""));
    mret [("case", json_case kase)]
  else if String.eqb (Tools.c_Tool c) Tools.ToolSendWhatsApp then
    rec ← Send source (Tools.c_TenantID c)
            (MkSendInput (arg "customer_id") "whatsapp" "" (arg "to") (arg "body") []);
    mret [("interaction", json_interaction rec)]
  else fail (OtherErr ("unknown tool " +:+ quote (Tools.c_Tool c)) None).

(** [dbToolPolicy.Allowlist]: the allowed tools of the tenant's agent. *)
Definition Allowlist (agents : gmap string Ai.AgentConfigRow) (tenantID agentID : string) : M (gmap string Z) :=
  q ← pool_Query (fun _ => match Ai.sel_agent agents tenantID agentID with
                           | Some row => list_to_map (Ai.tool_limits (Ai.acr_Tools row))
                           | None => ∅
                           end);
  match q with
  | SqlErr x => throw (WithCause (Internal "db.read_failed" "policy lookup failed") (sqlerr_error x))
  | SqlOk out => mret out
  end.

(** internal/tools: [AuditEnvelope]; [None] is nil. *)
Definition AuditEnvelope (c : Tools.Call) (o : Tools.Outcome) (err : option error) : M (option Envelope) :=
  events_New TopicToolExecutionAudited source (Tools.c_Tool c) (Tools.c_TenantID c)
    [("tool", VStr (Tools.c_Tool c)); ("agent_id", VStr (Tools.c_AgentID c));
     ("interaction_id", VStr (Tools.c_InteractionID c));
     ("outcome", VStr (match err with Some _ => "refused" | None => "executed" end));
     ("executed", VBool (Tools.o_Executed o)); ("reason", VStr (Tools.o_Reason o));
     ("error", VStr (match err with Some x => stake 200 (error_text x) | None => "" end))].

(** The audit sink: the event, its errors dropped. *)
Definition audit (c : Tools.Call) (o : Tools.Outcome) (err : option error) : M () :=
  v ← AuditEnvelope c o err;
  match v with
  | Some v => _ ← or_nil (Ai.PublishLater v); mret ()
  | None => mret ()
  end.

(** A state after [n] more effects. *)
Definition later (n : nat) (s : st) : st := MkSt (committed s) (txn s) (steps s + n).

(** The answers of the policy, the executor and the clock to one call of the
    gateway, from its state on: the lookup, the admission's clock, the start
    of the execution, the execution and its end. *)
Definition call_ports (agents : gmap string Ai.AgentConfigRow) (c : Tools.Call) (e : env) (g : Tools.Gateway)
    (pw : P * st) : Tools.Ports := {|
  Tools.Allowlist := fun _ t a =>
    match Allowlist agents t a e pw.2 with (Ok m, _) => inl m | (Err x, _) => inr (AppErr x) end;
  Tools.Execute := fun _ c => (Execute c e (pw.1, later 3 pw.2)).1;
  Tools.tool_clock := fun n =>
    if (n <=? Tools.g_steps g + 2)%nat then clock e (steps pw.2 + (n - Tools.g_steps g))
    else clock e (steps (Execute c e (pw.1, later 3 pw.2)).2.2);
|}.

(** [(r *Runtime) InvokeTool] over the wired gateway: what the executor did is
    there when the gateway let the call through. *)
Definition run_tool (agents : gmap string Ai.AgentConfigRow) (tenantID agentID : string) (c : Tools.Call) (e : env)
    (w : World) : Tools.Outcome * option error * World :=
  let c := Tools.MkCall (Tools.c_Tool c) tenantID agentID (Tools.c_InteractionID c) (Tools.c_Args c) in
  let g := w_tools w in
  let pw := w_plane w in
  let '(o, err, g') := Ai.InvokeTool (H := call_ports agents c e g pw) tenantID agentID c g in
  let '(p, s) :=
    if (length (Tools.g_execs g) <? length (Tools.g_execs g'))%nat then
      let '(_, (p, s)) := Execute c e (pw.1, later 3 pw.2) in (p, later 1 s)
    else (pw.1, later (Tools.g_steps g' - Tools.g_steps g) pw.2) in
  let '(_, s) := audit c o err e s in
  (o, err, set_plane (p, s) (set_tools g' w)).

Definition h_aiTool : Handler := fun a r p c =>
  with_body decode_tool r (fun t e w =>
    match Tenancy.ctx_Principal c with
    | None => (Panicked, w)
    | Some pr =>
        let '(o, err, w) := run_tool (a_agents a) (Tenancy.p_TenantID pr) (p "id") t e w in
        (WriteJSON (match err with Some x => StatusOf x | None => 200 end) (POutcome o), w)
    end).

(** ** v1.go: webhooks *)

(** [webhookHandler]: the delivery is processed whether it is a duplicate or
    not; the reply says processed in any case. *)
Definition webhookHandler (g : option Webhooks.Gateway) (processor : bool) : Handler := fun a r p _ e w =>
  match g with
  | None => (refuse errWebhookUnavailable None, w)
  | Some g =>
      let '((ok, retry), rl) := RateLimit.Allow map_order (clientIP r) (a_now a) (w_webhooks w) in
      let w := set_webhooks rl w in
      if negb ok then
        match retryAfterSeconds retry with
        | Some s => (refuse errWebhookRateLimited (Some s), w)
        | None => (Panicked, w)
        end
      else if (Webhooks.MaxPayloadBytes <? Z.of_nat (String.length (r_Body r))) || r_Broken r then
        (refuse errWebhookBodyUnreadable None, w)
      else
      let '(res, pw) := lift (Webhooks.Ingest g jsonb_valid (p "provider") (r_Body r)
                                (header r Webhooks.SignatureHeader)) e (w_plane w) in
      let w := set_plane pw w in
      match res with
      | inr err => (WriteError err, w)
      | inl res =>
          let done := WriteJSON (if Webhooks.ir_Duplicate res then 200 else 202)
                        (PWebhook (Webhooks.ir_EventID res) (Webhooks.ir_Duplicate res) (Webhooks.ir_Accepted res) true) in
          if negb processor then (done, w)
          else
          match decode_event (r_Body r) with
          | None => (done, w)
          | Some ev =>
              let '(res, pw) := lift (Comms.Process (C := Comms.interaction_core source) (Some ev)) e (w_plane w) in
              (match res with inl _ => done | inr err => WriteError err end, set_plane pw w)
          end
      end
  end.

(** ** The login endpoints (internal/identity/endpoints.go) *)

Definition redirectURL (c : Identity.Config) (r : Request) : string :=
  if negb (is_empty (Identity.RedirectURL c)) then Identity.RedirectURL c
  else (if r_TLS r then "https" else "http") +:+ "://" +:+ r_Host r +:+ "/api/v1/identity/callback".

Definition AuthorizeURLHandler : Handler := fun a r _ _ _ w =>
  match w_identity w with
  | None => (Panicked, w)
  | Some s =>
      if negb (Identity.oauthCapable (Identity.cfg s)) then (WriteError (AppErr Identity.errDisabled), w)
      else
      let '(err, s) := Identity.ensure (Identity.discovery_answer (a_outside a)) s in
      let w := set_auth (Some s) (w_limiter w) w in
      match err with
      | Some err => (WriteError (AppErr err), w)
      | None =>
          match a_nonce a with
          | inr _ => (WriteError (AppErr (Internal "identity.nonce_failed" "could not mint state")), w)
          | inl bytes =>
              let '(nonce, state) := Identity.mint_state (Identity.cfg s) bytes (a_now a) in
              let redirect := redirectURL (Identity.cfg s) r in
              (WriteJSON 200 (PDict [("authorize_url", VStr (AuthCodeURL (Identity.cfg s) redirect state nonce));
                                     ("state", VStr state); ("nonce", VStr nonce);
                                     ("expires_in", VInt (Identity.stateTTL / Second));
                                     ("redirect_uri", VStr redirect)]), w)
          end
      end
  end.

Definition CallbackHandler : Handler := fun a r _ _ _ w =>
  match w_identity w with
  | None => (Panicked, w)
  | Some s =>
      let '(res, s) := Identity.Callback (query r "code") (query r "state") (a_exchange a) (a_now a) (a_outside a) s in
      (match res with inl d => WriteJSON 200 (PDict d) | inr err => WriteError (AppErr err) end,
       set_auth (Some s) (w_limiter w) w)
  end.

(** ** server.go: health *)

Definition handleLiveness : Handler := fun _ _ _ _ =>
  respond (WriteJSON 200 (PText [("status", "alive"); ("version", buildinfo)])).

Definition handleReadiness : Handler := fun a _ _ _ =>
  respond (WriteJSON (if a_db_up a then 200 else 503)
    (PDict [("status", VStr (if a_db_up a then "ready" else "degraded")); ("version", VStr buildinfo);
            ("checks", VList [VMap [("name", VStr "db"); ("status", VStr (upDown (a_db_up a)))]])])).

(** ** The route tree *)

(** What guards an authenticated route, inside the authentication. *)
Inductive Guard :=
| Open
| ByMethod (read write : string)
| Needs (capability : string).

Inductive Gate :=
| Public
| Authenticated (g : Guard).

Record Route := MkRoute {
  rt_Method : string;
  rt_Pattern : string;
  rt_Gate : Gate;
  rt_Handler : Handler;
}.

Definition authed (g : Guard) (method pattern : string) (h : Handler) : Route :=
  MkRoute method ("/api/v1" +:+ pattern) (Authenticated g) h.

Definition MountCustomers (g : Guard) : list Route :=
  [authed g "POST" "/customers/" customers_create; authed g "GET" "/customers/" customers_list;
   authed g "GET" "/customers/{id}" customers_get; authed g "POST" "/customers/resolve" customers_resolve].

Definition MountConversations (g : Guard) : list Route :=
  [authed g "GET" "/conversations/" conversations_list; authed g "GET" "/conversations/{id}" conversations_get;
   authed g "POST" "/conversations/{id}/close" conversations_close;
   authed g "POST" "/conversations/{id}/assign" conversations_assign;
   authed g "GET" "/conversations/{id}/interactions" conversations_interactions].

Definition MountInteractions (g : Guard) : list Route :=
  [authed g "POST" "/interactions/" interactions_create; authed g "GET" "/interactions/{id}" interactions_get;
   authed g "POST" "/interactions/{id}/transition" interactions_transition;
   authed g "POST" "/interactions/{id}/assign" interactions_assign].

Definition MountAgents (g : Guard) : list Route :=
  [authed g "POST" "/agents/" agents_create; authed g "GET" "/agents/" agents_list;
   authed g "GET" "/agents/{id}" agents_get].

Definition MountQueues (g : Guard) : list Route :=
  [authed g "POST" "/queues/" queues_create; authed g "GET" "/queues/" queues_list;
   authed g "GET" "/queues/{id}" queues_get].

Definition MountCases (g : Guard) : list Route :=
  [authed g "POST" "/cases/" cases_open; authed g "GET" "/cases/" cases_list;
   authed g "GET" "/cases/{id}" cases_get; authed g "POST" "/cases/{id}/transition" cases_transition;
   authed g "POST" "/cases/{id}/notes" cases_addNote; authed g "GET" "/cases/{id}/notes" cases_listNotes;
   authed g "POST" "/cases/{id}/interactions/{interactionId}/link" cases_link].

Definition MountCalls (g : Guard) (svc : bool) : list Route :=
  if negb svc then [] else
  [authed g "POST" "/calls/" calls_place; authed g "POST" "/calls/{id}/actions" calls_action].

Definition MountMessages (g : Guard) (svc : bool) : list Route :=
  if negb svc then [] else [authed g "POST" "/messages/" messages_send].

Definition MountRouting (g : Guard) (svc : bool) : list Route :=
  if negb svc then [] else
  [authed g "POST" "/routing/interactions/{id}" h_route; authed g "GET" "/routing/decisions" h_decisions;
   authed g "PUT" "/agents/{id}/presence" h_setPresence; authed g "GET" "/agents/{id}/presence" h_getPresence].

Definition MountAI (g : Guard) (rt : option Ai.Gateway) : list Route :=
  match rt with
  | None => []
  | Some rt =>
      [authed g "GET" "/ai/agents/{id}" h_aiAgent; authed g "POST" "/ai/agents/{id}/invoke" (h_aiInvoke rt);
       authed g "POST" "/ai/agents/{id}/tools" h_aiTool]
  end.

Definition MountWorkflows (g : Guard) (svc : bool) : list Route :=
  if negb svc then [] else
  [authed g "POST" "/workflows/callbacks" h_startCallback; authed g "POST" "/workflows/collections" h_startCollections;
   authed g "GET" "/workflows/{id}" h_workflowGet; authed g "POST" "/workflows/{id}/cancel" h_workflowCancel].

Definition MountAnalytics (g : Guard) (svc : bool) : list Route :=
  if negb svc then [] else [authed g "GET" "/analytics/summary" h_analyticsSummary].

Definition MountSearchRoutes (g : Guard) (svc : option Search.Service) : list Route :=
  [authed g "GET" "/search/conversations" (h_searchConversations svc)].

(** [authed.Get("/")] *)
Definition index : Handler := fun _ _ _ _ =>
  respond (WriteJSON 200 (PDict [("resources",
    VList (map VStr ["customers"; "conversations"; "interactions"; "agents"; "queues"; "cases"]))])).

(** The tree under /api/v1; [oidc] says that the identity plane is there. *)
Definition MountV1 (deps : DomainDeps) (oidc : bool) : list Route :=
  let interactions := ByMethod Identity.CapInteractionRead Identity.CapInteractionWrite in
  [MkRoute "POST" "/api/v1/webhooks/{provider}" Public
     (webhookHandler (dd_Webhooks deps) (dd_CommsProcessor deps))]
  ++ (if oidc then [MkRoute "GET" "/api/v1/identity/authorize-url" Public AuthorizeURLHandler;
                    MkRoute "GET" "/api/v1/identity/callback" Public CallbackHandler] else [])
  ++ authed Open "GET" "/" index
  :: MountCustomers Open
  ++ MountConversations interactions
  ++ MountInteractions interactions
  ++ MountAgents Open
  ++ MountQueues Open
  ++ MountCases (ByMethod Identity.CapCaseRead Identity.CapCaseWrite)
  ++ MountCalls Open (dd_Calls deps)
  ++ MountMessages Open (dd_Messages deps)
  ++ MountRouting Open (dd_Routing deps)
  ++ MountAI Open (dd_AI deps)
  ++ MountWorkflows (Needs Identity.CapWorkflowRun) (dd_Workflows deps)
  ++ MountAnalytics Open (dd_Analytics deps)
  ++ match dd_Search deps with Some s => MountSearchRoutes Open (Some s) | None => [] end.

(** [New]'s tree. *)
Definition tree (deps : DomainDeps) (oidc : bool) : list Route :=
  MkRoute "GET" "/healthz" Public handleLiveness :: MkRoute "GET" "/readyz" Public handleReadiness
  :: MountV1 deps oidc.

(** [New]: the defaults of the limiters and of the role resolver; without an
    identity plane the environment may configure one. *)
Definition New (pool : bool) (limiter : option RateLimit.RateLimit) (identity : option Identity.Service)
    (getenv : string -> string) (tools : Tools.Gateway) (pw : P * st) : World :=
  let standard := RateLimit.NewRateLimit 120 60 10000 in
  let identity := match identity with Some s => Some s | None => Identity.FromEnv getenv end in
  let identity := match identity with
                  | Some s =>
                      match Identity.resolver s with
                      | None => Some (if pool then Identity.set_resolver (Some (Identity.NewDBRoleResolver 0 0)) s else s)
                      | Some _ => Some s
                      end
                  | None => None
                  end in
  MkWorld identity (default standard limiter) standard tools pw.

(** ** One request through the chain *)

(** What chi finds: a route and its URL parameters, or none, under a subtree
    with the gate given or under none. *)
Inductive Match :=
| Hit (rt : Route) (params : string -> string)
| Miss (subtree : option Gate).

Definition authenticate (a : Answers) (r : Request) (w : World) : Tenancy.Response * World :=
  let o := a_outside a in
  let apiKey (o : Identity.Outside) r rl :=
    Tenancy.AuthMiddleware map_order "api" (Identity.auth_db o) (Identity.auth_db_error o)
      (Identity.now_limit o) r rl in
  match w_identity w with
  | Some s =>
      let '(resp, s, rl) := Identity.DualAuth map_order apiKey o (credentials r) s (w_limiter w) in
      (resp, set_auth (Some s) rl w)
  | None =>
      let '(resp, rl) := apiKey o (credentials r) (w_limiter w) in (resp, set_auth None rl w)
  end.

Definition guarded (g : Guard) (r : Request) (c : Tenancy.Context) : Tenancy.Response :=
  match g with
  | Open => Tenancy.Served c
  | ByMethod read write => Identity.RequireMethodCapability read write (credentials r) c
  | Needs cap => Identity.RequireCapability cap c
  end.

Definition through (gate : Gate) (k : Tenancy.Context -> env -> World -> Reply * World) (a : Answers) (r : Request)
    (e : env) (w : World) : Reply * World :=
  match gate with
  | Public => k (Tenancy.MkContext None None) e w
  | Authenticated g =>
      let '(resp, w) := authenticate a r w in
      match resp with
      | Tenancy.Refused err retry => (refuse err retry, w)
      | Tenancy.Served c =>
          match guarded g r c with
          | Tenancy.Refused err retry => (refuse err retry, w)
          | Tenancy.Served c => k c e w
          end
      end
  end.

Definition ServeHTTP (chi : list Route -> string -> string -> Match) (deps : DomainDeps) (a : Answers) (r : Request)
    (e : env) (w : World) : Reply * World :=
  let oidc := match w_identity w with Some _ => true | None => false end in
  let '(reply, w) :=
    match chi (tree deps oidc) (r_Method r) (r_Path r) with
    | Hit rt p => through (rt_Gate rt) (rt_Handler rt a r p) a r e w
    | Miss (Some gate) => through gate (fun _ => respond NoRoute) a r e w
    | Miss None => (NoRoute, w)
    end in
  (Recoverer reply, w).
End Server.
