(* ===== verification/HttpApiProps.v ===== *)
(** * The HTTP API keeps tenants apart

    The tables tenant by tenant: [elsewhere t d d'] says that no row of a tenant
    other than [t] changed. Every service method called for a tenant satisfies
    it, by the lemmas of the services; so does every handler, and a request
    changes rows only of the tenant its credential or its signed delivery is
    for. Then what the gates of the route tree let through. *)

From Stdlib Require Import String Ascii.
From S2P Require Import Prelude GoStd AppErrors Events Store Sql Wp Pagination Planes HttpApi.
From S2P Require Text RateLimit Tenancy Identity IdentityProps Customers CustomersProps Agents Queues DirectoryProps.
From S2P Require Interactions InteractionsProps Conversations Cases CasesProps Webhooks Comms.
From S2P Require Routing RoutingProps Workflows WorkflowsProps Tools Ai Search Analytics Simulator.

Local Open Scope Z_scope.

(** ** Tables, tenant by tenant *)

Section tables.
Context {A B : Type}.
Implicit Types (ten : A -> string) (t : string) (m : gmap string A) (l : list A).

Definition others ten t m m' : Prop := forall i x, ten x <> t -> m' !! i = Some x <-> m !! i = Some x.

Definition others_l ten t l l' : Prop := filter (fun x => ten x <> t) l' = filter (fun x => ten x <> t) l.

(** Rows of a table that belong to rows of another. *)
Definition kids ten t m (key : B -> string) (k k' : list B) : Prop := forall i x,
  m !! i = Some x -> ten x <> t -> filter (fun b => key b = i) k' = filter (fun b => key b = i) k.

#[export] Instance others_po ten t : PreOrder (others ten t).
Proof.
  split; [intros m i x _; reflexivity|]. intros m1 m2 m3 H1 H2 i x Hx. rewrite (H2 i x Hx). by apply H1.
Qed.

#[export] Instance others_l_po ten t : PreOrder (others_l ten t).
Proof. split; [intros l; reflexivity|]. unfold others_l. intros l1 l2 l3. congruence. Qed.

#[export] Instance kids_refl ten t m key : Reflexive (kids ten t m key).
Proof. done. Qed.

Lemma others_insert ten t m i x :
  ten x = t -> (forall y, m !! i = Some y -> ten y = t) -> others ten t m (<[i := x]> m).
Proof.
  intros Hx Hm j y Hy. destruct (decide (i = j)) as [<-|Hij]; [|by rewrite lookup_insert_ne].
  rewrite lookup_insert_eq. split; [by intros [= <-]|]. intros H%Hm. done.
Qed.

Lemma others_l_app ten t l l' : Forall (fun x => ten x = t) l' -> others_l ten t l (l ++ l').
Proof.
  intros H. unfold others_l. rewrite filter_app. rewrite <- (app_nil_r (filter _ l)) at 2. f_equal.
  induction H as [|x l' Hx _ IH]; [done|]. rewrite filter_cons. by rewrite decide_False by auto.
Qed.

Lemma kids_app ten t m key (k k' : list B) :
  (forall b x, b ∈ k' -> m !! key b = Some x -> ten x = t) -> kids ten t m key k (k ++ k').
Proof.
  intros H i x Hi Hx. rewrite filter_app. rewrite <- (app_nil_r (filter _ k)) at 2. f_equal.
  induction k' as [|b k' IH]; [done|]. rewrite filter_cons.
  rewrite decide_False.
  - apply IH. intros b' y Hb. apply H. by right.
  - intros <-. apply Hx, (H b); [left|done].
Qed.
End tables.

Record elsewhere (t : string) (d d' : DB) : Prop := {
  el_customers : others cu_TenantID t (d_customers d) (d_customers d');
  el_identifiers : others_l id_TenantID t (d_identifiers d) (d_identifiers d');
  el_tags : others_l tg_TenantID t (d_tags d) (d_tags d');
  el_conversations : others cv_TenantID t (d_conversations d) (d_conversations d');
  el_participants : kids cv_TenantID t (d_conversations d) pt_ConversationID (d_participants d) (d_participants d');
  el_interactions : others r_TenantID t (d_interactions d) (d_interactions d');
  el_cases : others ca_TenantID t (d_cases d) (d_cases d');
  el_notes : others_l n_TenantID t (d_notes d) (d_notes d');
  el_links : kids ca_TenantID t (d_cases d) fst (d_case_links d) (d_case_links d');
  el_agents : others ag_TenantID t (d_agents d) (d_agents d');
  el_queues : others q_TenantID t (d_queues d) (d_queues d');
  el_presence : others pr_TenantID t (d_presence d) (d_presence d');
  el_decisions : others_l dr_TenantID t (d_decisions d) (d_decisions d');
  el_outbox : others_l (fun o => e_TenantID (ob_Env o)) t (d_outbox d) (d_outbox d');
  el_workflows : others wi_TenantID t (d_workflows d) (d_workflows d');
  el_steps : kids wi_TenantID t (d_workflows d) ws_InstanceID (d_wf_steps d) (d_wf_steps d');
}.

Lemma kids_trans {A B} (ten : A -> string) t (m m' : gmap string A) (key : B -> string) k1 k2 k3 :
  others ten t m m' -> kids ten t m key k1 k2 -> kids ten t m' key k2 k3 -> kids ten t m key k1 k3.
Proof.
  intros Hm H1 H2 i x Hi Hx. rewrite <- (H1 i x Hi Hx). eapply H2; [|exact Hx]. by apply Hm.
Qed.

#[export] Instance elsewhere_po t : PreOrder (elsewhere t).
Proof.
  split; [intros d; split; reflexivity|]. intros d1 d2 d3 H1 H2.
  destruct H1, H2. split; try (by etransitivity); by eapply kids_trans.
Qed.

(** Agents are stored under their ids, and a presence row is of its agent's
    tenant. *)
Record sound (d : DB) : Prop := {
  sd_agents : forall i a, d_agents d !! i = Some a -> ag_ID a = i;
  sd_presence : forall i p, d_presence d !! i = Some p ->
    exists a, d_agents d !! i = Some a /\ ag_TenantID a = pr_TenantID p;
}.

Definition kept (t : string) (d d' : DB) : Prop := sound d -> elsewhere t d d' /\ sound d'.

#[export] Instance kept_po t : PreOrder (kept t).
Proof.
  split; [intros d Hs; split; [reflexivity|done]|]. intros d1 d2 d3 H1 H2 Hs.
  destruct (H1 Hs) as [E1 S1]. destruct (H2 S1) as [E2 S2]. split; [by etransitivity|done].
Qed.

(** The tables without agents and presences are free of the invariant. *)
Lemma kept_frame t d d' :
  d_agents d' = d_agents d -> d_presence d' = d_presence d ->
  elsewhere t d d' -> kept t d d'.
Proof.
  intros Ha Hp He [S1 S2]. split; [done|]. split; rewrite Ha, ?Hp; done.
Qed.

(** One table changed. *)
Ltac one_table := apply kept_frame; [reflexivity|reflexivity|split; simpl; try reflexivity].

Section writes.
Context (t : string) (d : DB).

Lemma kept_event v : e_TenantID v = t ->
  kept t d (set_outbox (fun l => l ++ [MkOutboxRow v "pending" 0 "" None]) d).
Proof. intros Hv. one_table. apply others_l_app. by constructor. Qed.

Lemma kept_customer i c : cu_TenantID c = t -> d_customers d !! i = None ->
  kept t d (set_customers (<[i := c]>) d).
Proof. intros Hc Hn. one_table. apply others_insert; [done|]. intros y. by rewrite Hn. Qed.

Lemma kept_conversation i c : cv_TenantID c = t ->
  (forall y, d_conversations d !! i = Some y -> cv_TenantID y = t) ->
  kept t d (set_conversations (<[i := c]>) d).
Proof. intros Hc Hn. one_table. by apply others_insert. Qed.

Lemma kept_interaction i r : r_TenantID r = t ->
  (forall y, d_interactions d !! i = Some y -> r_TenantID y = t) ->
  kept t d (set_interactions (<[i := r]>) d).
Proof. intros Hc Hn. one_table. by apply others_insert. Qed.

Lemma kept_case i c : ca_TenantID c = t -> (forall y, d_cases d !! i = Some y -> ca_TenantID y = t) ->
  kept t d (set_cases (<[i := c]>) d).
Proof. intros Hc Hn. one_table. by apply others_insert. Qed.

Lemma kept_queue i q : q_TenantID q = t -> (forall y, d_queues d !! i = Some y -> q_TenantID y = t) ->
  kept t d (set_queues (<[i := q]>) d).
Proof. intros Hc Hn. one_table. by apply others_insert. Qed.

Lemma kept_workflow i w : wi_TenantID w = t -> (forall y, d_workflows d !! i = Some y -> wi_TenantID y = t) ->
  kept t d (set_workflows (<[i := w]>) d).
Proof. intros Hc Hn. one_table. by apply others_insert. Qed.

Lemma kept_agent i a : ag_TenantID a = t -> ag_ID a = i ->
  (forall y, d_agents d !! i = Some y -> ag_TenantID y = t) -> kept t d (set_agents (<[i := a]>) d).
Proof.
  intros Ha Hi Hn [S1 S2]. split; [split; simpl; try reflexivity|split; simpl].
  - by apply others_insert.
  - intros j b [[<- <-]|[_ Hb]]%lookup_insert_Some; [done|by apply S1].
  - intros j p (b & Hb & Hp)%S2. destruct (decide (i = j)) as [<-|Hij].
    + exists a. rewrite lookup_insert_eq, <- Hp. split; [done|]. by rewrite (Hn _ Hb).
    + exists b. by rewrite lookup_insert_ne.
Qed.

(** A presence row of an agent of the tenant. *)
Lemma kept_presence i a p : d_agents d !! i = Some a -> ag_TenantID a = t -> pr_TenantID p = t ->
  kept t d (set_presence (<[i := p]>) d).
Proof.
  intros Ha Ht Hp [S1 S2]. split; [split; simpl; try reflexivity|split; simpl; [done|]].
  - apply others_insert; [done|]. intros y (b & Hb & Hy)%S2. congruence.
  - intros j q [[<- <-]|[_ Hq]]%lookup_insert_Some; [exists a; by rewrite Ha, Ht, Hp|by apply S2].
Qed.

(** The ledger of deliveries is nobody's. *)
Lemma kept_ledger f : kept t d (set_provider_events f d).
Proof. by one_table. Qed.

Lemma kept_decision r : dr_TenantID r = t -> kept t d (set_decisions (fun l => l ++ [r]) d).
Proof. intros Hr. one_table. apply others_l_app. by constructor. Qed.

Lemma kept_step w : (forall y, d_workflows d !! ws_InstanceID w = Some y -> wi_TenantID y = t) ->
  kept t d (set_wf_steps (fun l => l ++ [w]) d).
Proof. intros Hw. one_table. apply kids_app. intros b x ->%list_elem_of_singleton. apply Hw. Qed.
End writes.

(** ** The writes of the services *)

Lemma interaction_write_kept t d d' : InteractionsProps.write t d d' -> kept t d d'.
Proof.
  intros [now id cu ch d0 d1 k Hcu H|now conv cu cvp d0 d1 k Hcvp H|v d0 Hv Hreg
    |now r cv d0 d1 k Ht Hs He Hch Hcu Hcv Hc Hop H|now id d0 d1 k H
    |now id to an en rs r d0 H HT Hen|now id ag qu d0 d1 k H].
  - apply InteractionsProps.ins_conversation_Some in H as [Hn ->]. apply kept_conversation; [done|].
    intros y. by rewrite Hn.
  - apply InteractionsProps.ins_participant_Some in H as ->. one_table. apply kids_app.
    intros b x ->%list_elem_of_singleton. simpl. apply sel_conversation_Some in Hcvp as [Hc Ht]. congruence.
  - by apply kept_event.
  - apply InteractionsProps.ins_interaction_Some in H as (Hn & _ & -> & _). apply kept_interaction; [done|].
    intros y. by rewrite Hn.
  - apply InteractionsProps.upd_touch_Some in H as [(c & [Hc Ht]%sel_conversation_Some & ->)| ->]; [|reflexivity].
    apply kept_conversation; [done|]. congruence.
  - apply Interactions.sel_interaction_Some in H as [H Ht]. apply kept_interaction; [done|]. congruence.
  - apply InteractionsProps.upd_assign_Some in H as [(r & [H Ht]%Interactions.sel_interaction_Some & _ & ->)|[-> _]];
      [|reflexivity].
    apply kept_interaction; [done|]. congruence.
Qed.

Lemma interaction_writes_kept t d d' : InteractionsProps.writes t d d' -> kept t d d'.
Proof. induction 1 as [|d1 d2 d3 H%interaction_write_kept _ IH]; [reflexivity|by etransitivity]. Qed.

Lemma case_write_kept t d d' : CasesProps.case_write t d d' -> kept t d d'.
Proof.
  intros [now id cu ref subj desc prio d0 d1 k Hcu Hp H|v d0 Hv Hr|now id to c tm d0 H Ht|now id c d0 H
    |now nid id aty aid body int d0 d1 k H Ha Hi|now id iid d0 d1 k H].
  - apply CasesProps.ins_case_Some in H as (Hn & _ & ->). apply kept_case; [done|]. intros y. by rewrite Hn.
  - by apply kept_event.
  - apply CasesProps.sel_case_Some in H as [H Hc]. apply kept_case; [done|]. congruence.
  - apply CasesProps.sel_case_Some in H as [H Hc]. apply kept_case; [done|]. congruence.
  - apply CasesProps.ins_note_Some in Hi as [-> _]. one_table. apply others_l_app. by constructor.
  - apply CasesProps.ins_link_Some in H as [[-> _]|(c & r & Hc & Htc & Hr & Htr & Hn & _ & ->)]; [reflexivity|].
    one_table. apply kids_app. intros b x ->%list_elem_of_singleton. simpl. congruence.
Qed.

Lemma case_writes_kept t d d' : CasesProps.case_writes t d d' -> kept t d d'.
Proof. induction 1 as [|d1 d2 d3 H%case_write_kept _ IH]; [reflexivity|by etransitivity]. Qed.

(** ** Methods that keep the other tenants' rows *)

Definition keeps {A} (t : string) (m : M A) : Prop := forall e s,
  wp m e s (fun _ s' => kept t (committed s) (committed s')).

(** A method that commits nothing. *)
Definition reads {A} (m : M A) : Prop := forall e s, wp m e s (fun _ s' => committed s' = committed s).

Lemma reads_keeps {A} t (m : M A) : reads m -> keeps t m.
Proof. intros H e s. eapply wp_mono; [apply H|]. by intros r s' ->. Qed.

Ltac reads_go := intros ? ?; wp_go; done.

Lemma reads_customer_get t id : reads (Customers.Get t id).
Proof. unfold Customers.Get, Customers.attachRelations. reads_go. Qed.
Lemma reads_customer_list t p : reads (Customers.ListCustomers t p).
Proof. unfold Customers.ListCustomers. reads_go. Qed.
Lemma reads_customer_resolve `{Text.Unicode} t ty v : reads (Customers.Resolve t ty v).
Proof.
  intros e s. unfold Customers.Resolve. wp_go; try done.
  all: eapply wp_mono; [apply reads_customer_get|]; by intros r s' ->.
Qed.
Lemma reads_conversation_get t id : reads (Conversations.Get t id).
Proof. unfold Conversations.Get. reads_go. Qed.
Lemma reads_conversation_list t st p : reads (Conversations.List t st p).
Proof. unfold Conversations.List. reads_go. Qed.
Lemma reads_interaction_get t id : reads (Interactions.Get t id).
Proof. unfold Interactions.Get. reads_go. Qed.
Lemma reads_timeline t id p : reads (Interactions.ListByConversation t id p).
Proof. unfold Interactions.ListByConversation. reads_go. Qed.
Lemma reads_agent_get t id : reads (Agents.Get t id).
Proof. unfold Agents.Get. reads_go. Qed.
Lemma reads_agent_list t p : reads (Agents.ListAgents t p).
Proof. unfold Agents.ListAgents. reads_go. Qed.
Lemma reads_queue_get t id : reads (Queues.Get t id).
Proof. unfold Queues.Get. reads_go. Qed.
Lemma reads_queue_list t p : reads (Queues.ListQueues t p).
Proof. unfold Queues.ListQueues. reads_go. Qed.
Lemma reads_case_get t id : reads (Cases.Get t id).
Proof. unfold Cases.Get. reads_go. Qed.
Lemma reads_case_list t p : reads (Cases.List t p).
Proof. unfold Cases.List. reads_go. Qed.
Lemma reads_case_notes t id p : reads (Cases.ListNotes t id p).
Proof. unfold Cases.ListNotes. reads_go. Qed.
Lemma reads_presence t id : reads (Routing.GetPresence t id).
Proof. unfold Routing.GetPresence. reads_go. Qed.
Lemma reads_decisions t id p : reads (Routing.ListDecisions t id p).
Proof. unfold Routing.ListDecisions. reads_go. Qed.
Lemma reads_workflow t id : reads (Workflows.Get t id).
Proof. unfold Workflows.Get. reads_go. Qed.
Lemma reads_ai_agent agents t id : reads (Ai.ResolveAgent agents t id).
Proof. unfold Ai.ResolveAgent. reads_go. Qed.

#[export] Hint Resolve reads_customer_get reads_customer_list reads_customer_resolve reads_conversation_get
  reads_conversation_list reads_interaction_get reads_timeline reads_agent_get reads_agent_list
  reads_queue_get reads_queue_list reads_case_get reads_case_list reads_case_notes reads_presence
  reads_decisions reads_workflow reads_ai_agent : orvexa.
#[export] Hint Resolve reads_keeps : orvexa.

Lemma keeps_interaction_create source t i : keeps t (Interactions.Create source t i).
Proof.
  intros e s. apply InteractionsProps.wp_Create; [by intros x s' ->|by intros r s' ->|].
  intros r s' H _ _ _ _. by apply interaction_writes_kept.
Qed.

Lemma keeps_transition source t id to reason : keeps t (Interactions.TransitionTo source t id to reason).
Proof.
  intros e s. apply InteractionsProps.wp_TransitionTo; [by intros x s' ->|].
  intros r now tm v n x [Hr Ht]%Interactions.sel_interaction_Some HT (_ & Hv & _) r' d'.
  assert (kept t (committed s) d') as H; [|done].
  etransitivity; [|by apply kept_event]. apply kept_interaction; [done|congruence].
Qed.

Lemma keeps_interaction_assign source t id agent queue : keeps t (Interactions.Assign source t id agent queue).
Proof.
  intros e s. apply InteractionsProps.wp_Assign; [by intros x s' ->|].
  intros res r now s' _ _ _ H _. by apply interaction_writes_kept.
Qed.

Lemma keeps_close source t id reason : keeps t (Conversations.Close source t id reason).
Proof.
  intros e s. apply Conversations.wp_conv_Close; [by intros x s' ->|].
  intros c at_ now v n res [Hc Ht]%sel_conversation_Some _ _ Hv _ _ _. simpl.
  etransitivity; [|by apply kept_event]. apply kept_conversation; [done|congruence].
Qed.

Lemma keeps_conv_assign t id agent queue : keeps t (Conversations.Assign t id agent queue).
Proof.
  intros e s. apply Conversations.wp_conv_Assign; [by intros x s' ->|].
  intros c now n res [Hc Ht]%sel_conversation_Some _ _. apply kept_conversation; [done|congruence].
Qed.

Lemma kept_extended t cid norm tags d d' : CustomersProps.extended t cid norm tags d d' -> kept t d d'.
Proof.
  intros [_ (ids & Hi & F) Ht ->]. one_table.
  - rewrite Hi. apply others_l_app. clear -F. induction F; constructor; naive_solver.
  - rewrite Ht. by apply others_l_app, Forall_map, Forall_true.
Qed.

Lemma keeps_customer_create `{Text.Unicode} t i : keeps t (Customers.Create t i).
Proof.
  intros e s. apply CustomersProps.wp_create_customer; [by intros x s' ->|].
  intros norm cid r s' _ (t1 & t2 & now & Hn & He & _) _ _.
  etransitivity; [|by eapply kept_extended]. by apply kept_customer.
Qed.

Lemma keeps_agent_create t i : keeps t (Agents.Create t i).
Proof.
  intros e s. unfold Agents.Create. wp_go; try reflexivity. simplify_eq.
  unfold Agents.ins_agent in Hx. cbn [ag_ID ag_TenantID committed bump] in Hx.
  destruct (d_agents (committed s) !! uuid_of e (steps s)) eqn:Hn; [done|].
  destruct (existsb _ _); [done|]. injection Hx as <- _.
  eapply DirectoryProps.wp_insert_skills; simpl; [apply lookup_insert_eq|by intros|].
  intros n' _ _. wp_go; [reflexivity|]. simpl.
  etransitivity; [|apply kept_agent; [done..|]]; [apply kept_agent; [done..|by rewrite Hn]|].
  simpl. rewrite lookup_insert_eq. by intros y [= <-].
Qed.

Lemma keeps_queue_create t i : keeps t (Queues.Create t i).
Proof.
  intros e s. unfold Queues.Create. cbv zeta. wp_go; try reflexivity. simplify_eq.
  unfold Queues.ins_queue in Hx. cbn [q_ID q_TenantID committed bump] in Hx.
  destruct (d_queues (committed s) !! _) eqn:Hn; [done|].
  destruct (existsb _ _); [done|]. injection Hx as <- _.
  eapply DirectoryProps.wp_insert_queue_skills; simpl; [apply lookup_insert_eq|by intros|].
  intros n' _ _. wp_go; [reflexivity|]. simpl.
  etransitivity; [|apply kept_queue; [done..|]]; [apply kept_queue; [done..|by rewrite Hn]|].
  simpl. rewrite lookup_insert_eq. by intros y [= <-].
Qed.

Lemma keeps_case_open source t i : keeps t (Cases.Open source t i).
Proof.
  intros e s. apply CasesProps.wp_Open; [by intros x s' ->|].
  intros c v n res _ _ H _ _. intros. by apply case_writes_kept.
Qed.

Lemma keeps_case_transition source t id to reason : keeps t (Cases.Transition source t id to reason).
Proof.
  intros e s. apply CasesProps.wp_Transition; [by intros x s' ->|].
  intros c tm now v n res [Hc Ht]%CasesProps.sel_case_Some _ _ Hv _ _ _. simpl.
  etransitivity; [|by apply kept_event]. apply kept_case; [done|congruence].
Qed.

Lemma keeps_note t id aty aid body internal : keeps t (Cases.AddNote t id aty aid body internal).
Proof.
  intros e s. apply CasesProps.wp_AddNote; [by intros x s' ->|]. intros n s' H. by apply case_writes_kept.
Qed.

Lemma keeps_link t cid iid : keeps t (Cases.LinkInteraction t cid iid).
Proof.
  intros e s. apply CasesProps.wp_LinkInteraction; [by intros x s' ->|]. intros s' _ H. by apply case_writes_kept.
Qed.

(** Routing: the agent it marks busy is one of the tenant. *)
Lemma kept_busy t id iid now d d' k : RoutingProps.active_agent t id d ->
  Routing.upsert_busy id t iid now d = Some (d', k) -> kept t d d'.
Proof.
  intros (i & a & Ha & Hid & Ht & _) [= <- _] Hs.
  assert (i = id) as -> by (destruct Hs as [Hk _]; by rewrite <- (Hk _ _ Ha)).
  eapply kept_presence; [exact Ha|done| |done]. simpl. destruct (d_presence d !! id) as [p|] eqn:Hp; [|done].
  destruct Hs as [_ Hs]. apply Hs in Hp as (b & Hb & Hp). congruence.
Qed.

Lemma kept_assigned t d now db : 
  (Routing.de_Outcome d = Routing.OutcomeAssigned -> RoutingProps.active_agent t (Routing.de_AssignedAgentID d) db) ->
  kept t db (RoutingProps.assigned_tables t d now db).
Proof.
  intros Ha. unfold RoutingProps.assigned_tables. destruct (String.eqb_spec (Routing.de_Outcome d) Routing.OutcomeAssigned) as [Ho|]; [|reflexivity].
  specialize (Ha Ho). unfold Routing.upd_route.
  assert (forall db1, d_agents db1 = d_agents db -> RoutingProps.active_agent t (Routing.de_AssignedAgentID d) db1) as Ha1.
  { intros db1 E. unfold RoutingProps.active_agent. by rewrite E. }
  destruct (d_interactions db !! _) as [r|] eqn:Hr; [|by eapply kept_busy; [|reflexivity]].
  destruct (String.eqb_spec (r_TenantID r) t) as [Ht|]; [|by eapply kept_busy; [|reflexivity]].
  destruct (_ || _); simpl; [|by eapply kept_busy; [|reflexivity]].
  etransitivity; [|eapply (kept_busy t _ _ _ (set_interactions _ db)); [by apply Ha1|reflexivity]].
  apply kept_interaction; [done|congruence].
Qed.

Lemma keeps_route `{RoutingProps.PresenceReads} source inputs candidates t req :
  keeps t (Routing.Route source inputs candidates t req).
Proof.
  intros e s. apply RoutingProps.wp_Route; [by intros x s' ->|].
  intros req' d now v n _ _ _ _ Ha _ Hv _ _. simpl.
  etransitivity; [|by apply kept_event]. etransitivity; [|by apply kept_assigned].
  by apply kept_decision.
Qed.

Lemma kept_upsert t id status now d d' k :
  Routing.upsert_presence t id status now d = Some (d', k) -> kept t d d'.
Proof.
  unfold Routing.upsert_presence. destruct (d_agents d !! id) as [a|] eqn:Ha; [|by intros [= <- _]].
  destruct (String.eqb_spec (ag_TenantID a) t) as [Ht|]; [|by intros [= <- _]].
  intros [= <- _] Hs. eapply kept_presence; [exact Ha|done| |done].
  destruct (d_presence d !! id) as [p|] eqn:Hp; [|done].
  destruct Hs as [_ Hs]. apply Hs in Hp as (b & Hb & Hp). simpl. congruence.
Qed.

Lemma keeps_set_presence t id status : keeps t (Routing.SetPresence t id status).
Proof.
  intros e s. unfold Routing.SetPresence. wp_go; try reflexivity; by eapply kept_upsert.
Qed.

Lemma kept_started t id typ payload next step now v d :
  d_workflows d !! id = None -> e_TenantID v = t ->
  kept t d (WorkflowsProps.started t id typ payload next step now v d).
Proof.
  intros Hn Hv. unfold WorkflowsProps.started. etransitivity; [|by apply kept_event].
  etransitivity; [|apply kept_step; simpl; rewrite lookup_insert_eq; by intros y [= <-]].
  apply kept_workflow; [done|]. by rewrite Hn.
Qed.

Lemma keeps_start_callback source t i : keeps t (Workflows.StartCallback source t i).
Proof.
  intros e s. apply WorkflowsProps.wp_StartCallback; [by intros x s' ->|].
  intros. by apply kept_started.
Qed.

Lemma keeps_start_collections source t i : keeps t (Workflows.StartCollections source t i).
Proof.
  intros e s. apply WorkflowsProps.wp_StartCollections; [by intros x s' ->|].
  intros. by apply kept_started.
Qed.

Lemma keeps_cancel t id : keeps t (Workflows.Cancel t id).
Proof.
  intros e s. apply WorkflowsProps.wp_Cancel; [done|].
  intros i now r n Hi Ht _ _. apply kept_workflow; [done|congruence].
Qed.

(** An event published in a transaction of its own. *)
Lemma keeps_publish t v : e_TenantID v = t -> keeps t (Ai.PublishLater v).
Proof.
  intros Hv e s. unfold Ai.PublishLater. wp_go; try reflexivity. injection Hv0 as <-. by apply kept_event.
Qed.

(** ** Methods over the carriers *)

(** A carrier call leaves every tenant's rows alone: it may deliver events to
    the ledger. *)
Definition quiet {P} (m : port P) : Prop := forall t e w, kept t (committed w.2) (committed (m e w).2.2).

Class QuietCarriers (P : Type) `{VP : !VoiceProvider P} `{MP : !MessagingProvider P} `{AP : !Ai.AIProvider P} : Prop := {
  quiet_place : forall c, quiet (vp_PlaceCall c);
  quiet_hangup : forall r, quiet (vp_Hangup r);
  quiet_transfer : forall r d, quiet (vp_Transfer r d);
  quiet_hold : forall r, quiet (vp_Hold r);
  quiet_resume : forall r, quiet (vp_Resume r);
  quiet_send : forall m, quiet (mp_Send m);
  quiet_ai : forall i t e w, kept t (committed w.2) (committed (Ai.ai_Invoke i e w).2.2);
}.

Definition keepsw {P A} (t : string) (m : MW P A) : Prop := forall e w,
  wpw m e w (fun _ w' => kept t (committed w.2) (committed w'.2)).

Section rules.
Context {P : Type} (t : string).

Lemma keepsw_ret {A} (a : A) : keepsw (P := P) t (mret a).
Proof. intros e w. by apply wpw_ret. Qed.
Lemma keepsw_fail {A} x : keepsw (P := P) (A := A) t (fail x).
Proof. intros e w. by apply wpw_fail. Qed.
Lemma keepsw_bind {A B} (m : MW P A) (k : A -> MW P B) :
  keepsw t m -> (forall a, keepsw t (k a)) -> keepsw t (mbind k m).
Proof.
  intros Hm Hk e w. apply wpw_bind. specialize (Hm e w). unfold wpw in *.
  destruct (m e w) as [[a|x] w']; [|done]. specialize (Hk a e w'). unfold wpw in Hk.
  destruct (k a e w'). by etransitivity.
Qed.
Lemma keepsw_lift {A} (m : M A) : keeps t m -> keepsw (P := P) t (lift m).
Proof.
  intros Hm e [p s]. apply wpw_lift. eapply wp_mono; [apply Hm|]. by intros [a|x] s'.
Qed.
Lemma keepsw_try {A} (m : MW P A) : keepsw t m -> keepsw t (try m).
Proof. intros Hm e w. apply wpw_try. apply Hm. Qed.
Lemma keepsw_port (m : port P) : quiet m -> keepsw t (call_port m).
Proof.
  intros Hm e w. apply wpw_port. specialize (Hm t e w). by destruct (m e w).
Qed.
End rules.

#[export] Hint Resolve keeps_interaction_create keeps_transition keeps_interaction_assign keeps_close
  keeps_conv_assign keeps_customer_create keeps_agent_create keeps_queue_create keeps_case_open
  keeps_case_transition keeps_note keeps_link keeps_route keeps_set_presence keeps_start_callback
  keeps_start_collections keeps_cancel keepsw_ret keepsw_fail keepsw_lift keepsw_try keepsw_port
  quiet_place quiet_hangup quiet_transfer quiet_hold quiet_resume quiet_send : orvexa.

(** The method's structure, with the hints at the calls. *)
Ltac keepsw_go :=
  repeat (cbv zeta; lazymatch goal with
          | |- keepsw _ (mbind _ _) => apply keepsw_bind; [|intros ?]
          | |- keepsw _ (if ?b then _ else _) => destruct b
          | |- keepsw _ (match ?x with _ => _ end) => destruct x
          | |- keepsw _ _ => solve [eauto with orvexa]
          end).

Section planes.
Context {P : Type} `{QC : QuietCarriers P} (source : string) (t : string).

Lemma keepsw_place i : keepsw t (PlaceCall source t i).
Proof. unfold PlaceCall. keepsw_go. Qed.

Lemma keepsw_finish id action err : keepsw (P := P) t (finish_action t id action err).
Proof. unfold finish_action. keepsw_go. Qed.

Lemma keepsw_mapped err action : keepsw (P := P) t (return_mapped err action).
Proof. unfold return_mapped. keepsw_go. Qed.
#[local] Hint Resolve keepsw_finish keepsw_mapped : orvexa.

Lemma keepsw_action id action destination : keepsw t (ApplyAction source t id action destination).
Proof. unfold ApplyAction. keepsw_go. Qed.

Lemma keepsw_send i : keepsw t (Send source t i).
Proof. unfold Send. keepsw_go. Qed.

(** *** The AI runtime: its usage events are the tenant's *)

Definition tidy_sink (g : Ai.Gateway) : Prop := forall sink, Ai.onUsage g = Some sink ->
  forall r inv e s, kept (Ai.inv_TenantID inv) (committed s) (committed (sink r inv e s)).

Lemma keeps_usage r inv : keeps (Ai.inv_TenantID inv)
  (v ← Ai.EmitUsageEvent source r inv;
   match v with Some v => _ ← or_nil (Ai.PublishLater v); mret () | None => mret () end).
Proof.
  intros e s. apply wp_bind. unfold Ai.EmitUsageEvent. apply wp_events_New.
  destruct (NewEnvelope _ _ _ _ _ _ _ _ _) as [v|] eqn:Hv; [|by apply wp_ret].
  apply NewEnvelope_inv in Hv as (_ & Ht & _). apply wp_bind, wp_or_nil.
  eapply wp_mono; [by apply (keeps_publish (Ai.inv_TenantID inv))|]. by intros [[]|x] s' H; apply wp_ret.
Qed.

Lemma api_sink_tidy n m : tidy_sink (Ai.NewGateway n m (Some (Ai.api_sink source))).
Proof.
  intros sink [= <-] r inv e s. unfold Ai.api_sink. pose proof (keeps_usage r inv e s) as H.
  unfold wp in H.
  by match type of H with let '(_, _) := ?x in _ => destruct x end.
Qed.

Lemma keepsw_invoke_once g inv : tidy_sink g -> Ai.inv_TenantID inv = t -> keepsw t (Ai.invokeOnce g inv).
Proof.
  intros Hg Ht. assert (forall r, keepsw (P := P) t (Ai.meter g r inv)) as Hm.
  { intros r e w. unfold wpw, Ai.meter. simpl. destruct (Ai.onUsage g) as [sink|] eqn:E; [|done].
    rewrite <- Ht. by apply Hg. }
  assert (keepsw t (lift (P := P) time_Now)) as Hn by (apply keepsw_lift; intros e s; by apply wp_now).
  assert (keepsw t (Ai.call_provider inv)) as Hc.
  { intros e w. unfold wpw, Ai.call_provider. pose proof (quiet_ai inv t e w) as H.
    by destruct (Ai.ai_Invoke inv e w). }
  unfold Ai.invokeOnce. keepsw_go.
Qed.

Lemma keepsw_invoke_loop more g inv : tidy_sink g -> Ai.inv_TenantID inv = t ->
  keepsw t (Ai.invoke_loop more g inv).
Proof.
  intros Hg Ht. pose proof (keepsw_invoke_once g inv Hg Ht) as Ho.
  assert (forall r, keepsw (P := P) t (Ai.meter g r inv)) as Hm.
  { intros r e w. unfold wpw, Ai.meter. simpl. destruct (Ai.onUsage g) as [sink|] eqn:E; [|done].
    rewrite <- Ht. by apply Hg. }
  induction more as [|more IH]; cbn [Ai.invoke_loop]; keepsw_go.
Qed.

Lemma keepsw_runtime agents g i : tidy_sink g -> keepsw t (Ai.Runtime_Invoke agents g source t i).
Proof.
  intros Hg. unfold Ai.Runtime_Invoke. apply keepsw_bind; [auto with orvexa|]. intros ag.
  destruct (negb _); [auto with orvexa|].
  apply keepsw_bind; [unfold Ai.Invoke; destruct (is_empty _); [auto with orvexa|by apply keepsw_invoke_loop]|].
  intros res. set (inv := Ai.MkInvocation _ _ _ _ _ _).
  intros e [p s]. apply wpw_bind, wpw_lift. unfold Ai.EmitUsageEvent. apply wp_events_New.
  destruct (NewEnvelope _ _ _ _ _ _ _ _ _) as [v|] eqn:Hv; [|by apply wpw_ret].
  apply NewEnvelope_inv in Hv as (_ & Ht & _). apply wpw_bind, wpw_lift, wp_or_nil.
  eapply wp_mono; [by apply (keeps_publish t)|]. by intros [[]|x] s' H; apply wpw_ret.
Qed.
End planes.

(** ** Handlers *)

(** The search and AI code of a request runs for the principal of its context;
    without one nothing changes. *)
Definition tenant_of (c : Tenancy.Context) (t : string) : Prop := forall p,
  Tenancy.ctx_Principal c = Some p -> Tenancy.p_TenantID p = t.

Definition db_of {P} (w : World P) : DB := committed (w_plane w).2.

Definition tame {P} (c : Tenancy.Context) (k : env -> World P -> Reply * World P) : Prop := forall e w t,
  tenant_of c t -> kept t (db_of w) (db_of (k e w).2).

Section handlers.
Context {P : Type} `{QC : QuietCarriers P}.
Context `{JP : JsonPorts} `{SP : ServerPorts} `{UN : Text.Unicode} `{PR : Routing.PresenceReader}.
Context `{PRR : !RoutingProps.PresenceReads} `{JO : Identity.JOSE} `{SE : Search.SearchPorts}.
Context (c : Tenancy.Context).

Notation tame := (tame (P := P) c).

Lemma tame_same (k : env -> World P -> Reply * World P) : (forall e w, db_of (k e w).2 = db_of w) -> tame k.
Proof. intros H e w t _. by rewrite H. Qed.

Lemma tame_respond reply : tame (respond reply).
Proof. by apply tame_same. Qed.

Lemma tame_call {A} (m : string -> MW P A) ok : (forall t, keepsw t (m t)) -> tame (call c m ok).
Proof.
  intros Hm e w t Ht. unfold call. destruct (Tenancy.ctx_Principal c) as [p|] eqn:Ep; [|done].
  specialize (Ht _ Ep) as ->. specialize (Hm t e (w_plane w)). unfold wpw in Hm.
  by destruct (m t e (w_plane w)).
Qed.

Lemma tame_serve {A} (m : string -> M A) ok : (forall t, keeps t (m t)) -> tame (serve_with c m ok).
Proof. intros Hm. apply tame_call. intros t. by apply keepsw_lift. Qed.

Lemma tame_body {A} (dec : any -> option A) r k : (forall x, tame (k x)) -> tame (with_body dec r k).
Proof.
  intros Hk e w t Ht. unfold with_body. destruct (decodeJSON dec r); [by apply Hk|done].
Qed.

Lemma tame_pure {A} (f : string -> A + Error) ok : tame (call_pure c f ok).
Proof. apply tame_same. intros e w. unfold call_pure. by destruct (Tenancy.ctx_Principal c). Qed.

(** *** Tools *)

Lemma keepsw_Execute tc : keepsw (Tools.c_TenantID tc) (Execute (P := P) tc).
Proof.
  pose proof (keepsw_send (P := P) source (Tools.c_TenantID tc)). unfold Execute. keepsw_go.
Qed.

Lemma keeps_audit tc o err : keeps (Tools.c_TenantID tc) (audit tc o err).
Proof.
  intros e s. apply wp_bind. unfold AuditEnvelope. apply wp_events_New.
  destruct (NewEnvelope _ _ _ _ _ _ _ _ _) as [v|] eqn:Hv; [|by apply wp_ret].
  apply NewEnvelope_inv in Hv as (_ & Ht & _). apply wp_bind, wp_or_nil.
  eapply wp_mono; [by apply (keeps_publish (Tools.c_TenantID tc))|]. by intros [[]|x] s' H; apply wp_ret.
Qed.

Lemma run_tool_kept agents t agentID tc e (w : World P) :
  kept t (db_of w) (db_of (run_tool agents t agentID tc e w).2).
Proof.
  unfold run_tool. set (tc' := Tools.MkCall _ _ _ _ _).
  destruct (Ai.InvokeTool _ _ _ _) as [[o err] g'].
  assert (forall p s, kept t (db_of w) (committed s) ->
    kept t (db_of w) (db_of (let '(_, s) := audit tc' o err e s in
      (o, err, set_plane (p, s) (set_tools g' w))).2)) as Ha.
  { intros p s Hs. etransitivity; [exact Hs|]. pose proof (keeps_audit tc' o err e s) as H. unfold wp in H.
    by destruct (audit tc' o err e s). }
  destruct (_ <? _)%nat.
  - pose proof (keepsw_Execute tc' e ((w_plane w).1, later 3 (w_plane w).2)) as H. unfold wpw in H.
    destruct (Execute tc' e _) as [r [p s]]. by apply Ha.
  - apply Ha. reflexivity.
Qed.

Lemma tame_tool a r p : tame (h_aiTool a r p c).
Proof.
  apply tame_body. intros tc e w t Ht. destruct (Tenancy.ctx_Principal c) as [pr|] eqn:Ep; [|done].
  specialize (Ht _ Ep) as ->. pose proof (run_tool_kept (a_agents a) t (p "id") tc e w) as H.
  by destruct (run_tool _ _ _ _ _ _) as [[o err] w'].
Qed.

Lemma tame_search svc a r p : tame (h_searchConversations svc a r p c).
Proof.
  apply tame_same. intros e w. unfold h_searchConversations. destruct (Tenancy.ctx_Principal c); [|done].
  destruct (is_empty _); [done|]. destruct svc; [|done]. by destruct (Search.Search _ _ _ _ _).
Qed.
End handlers.

#[export] Hint Resolve tame_respond tame_call tame_serve tame_body tame_pure tame_tool tame_search
  keepsw_place keepsw_action keepsw_send keepsw_runtime : orvexa.

Section routes.
Context {P : Type} `{QC : QuietCarriers P}.
Context `{JP : JsonPorts} `{SP : ServerPorts} `{UN : Text.Unicode} `{PR : Routing.PresenceReader}.
Context `{PRR : !RoutingProps.PresenceReads} `{JO : Identity.JOSE} `{SE : Search.SearchPorts}.

(** An authenticated route's handler keeps the other tenants' rows. *)
Definition tame_route (rt : Route (P := P)) : Prop := rt_Gate rt <> Public /\ forall a r p c, tame c (rt_Handler rt a r p c).

Lemma authed_tame g method pattern (h : Handler) :
  (forall a r p c, tame c (h a r p c)) -> tame_route (authed g method pattern h).
Proof. by split. Qed.

(** A handler, call by call. *)
Ltac tame_handler :=
  repeat (cbv zeta beta; lazymatch goal with
          | |- tame _ (with_body _ _ _) => apply tame_body; intros ?
          | |- tame _ (serve_with _ _ _) => apply tame_serve; intros ?
          | |- tame _ (call _ _ _) => apply tame_call; intros ?
          | |- tame _ (call_pure _ _ _) => apply tame_pure
          | |- tame _ (match ?x with _ => _ end) => destruct x
          | |- tame _ _ => auto with orvexa
          | |- _ => eauto with orvexa
          end).

(** A mount function's table. *)
Ltac tame_mount :=
  repeat (apply Forall_cons_2); try apply Forall_nil_2; apply authed_tame; intros a r p c;
  first [apply tame_tool|apply tame_search
        |match goal with |- tame ?c ?k => let k := eval red in k in change (tame c k) end; tame_handler].

Lemma tame_customers g : Forall tame_route (MountCustomers g).
Proof. tame_mount. Qed.
Lemma tame_conversations g : Forall tame_route (MountConversations g).
Proof. tame_mount. Qed.
Lemma tame_interactions g : Forall tame_route (MountInteractions g).
Proof. tame_mount. Qed.
Lemma tame_agents g : Forall tame_route (MountAgents g).
Proof. tame_mount. Qed.
Lemma tame_queues g : Forall tame_route (MountQueues g).
Proof. tame_mount. Qed.
Lemma tame_cases g : Forall tame_route (MountCases g).
Proof. tame_mount. Qed.
Lemma tame_calls g svc : Forall tame_route (MountCalls g svc).
Proof. destruct svc; [|apply Forall_nil_2]. tame_mount. Qed.
Lemma tame_messages g svc : Forall tame_route (MountMessages g svc).
Proof. destruct svc; [|apply Forall_nil_2]. tame_mount. Qed.
Lemma tame_routing g svc : Forall tame_route (MountRouting g svc).
Proof. destruct svc; [|apply Forall_nil_2]. tame_mount. Qed.
Lemma tame_workflows g svc : Forall tame_route (MountWorkflows g svc).
Proof. destruct svc; [|apply Forall_nil_2]. tame_mount. Qed.
Lemma tame_analytics g svc : Forall tame_route (MountAnalytics g svc).
Proof. destruct svc; [|apply Forall_nil_2]. tame_mount. Qed.
Lemma tame_search_route g svc : Forall tame_route (MountSearchRoutes g svc).
Proof. tame_mount. Qed.
Lemma tame_ai g rt : (forall gw, rt = Some gw -> tidy_sink gw) -> Forall tame_route (MountAI g rt).
Proof. intros Hg. destruct rt as [gw|]; [|apply Forall_nil_2]. specialize (Hg _ eq_refl). tame_mount. Qed.
End routes.

(** ** Who a request acts for *)

Section access.
Context {P : Type} `{QC : QuietCarriers P}.
Context `{JP : JsonPorts} `{SP : ServerPorts} `{UN : Text.Unicode} `{PR : Routing.PresenceReader}.
Context `{PRR : !RoutingProps.PresenceReads} `{JO : Identity.JOSE} `{SE : Search.SearchPorts}.

Notation World := (World P).
Notation Route := (Route (P := P)).

(** The tenants a request may act for: that of a live API key with the scope of
    the API, that a verified token claims, that the event of a delivery names
    which the gateway's secret or the provider's verifier authenticates. *)
Inductive acts_for (deps : DomainDeps) (a : Answers) (r : Request) (w : World) : string -> Prop :=
| by_key k :
    let o := a_outside a in
    let raw := Tenancy.bearerOrHeader (credentials r) in
    k ∈ Tenancy.api_keys (Identity.auth_db o) ->
    Tenancy.live_key (Tenancy.HashKey raw) (Identity.now_limit o) k = true ->
    Tenancy.HasScope (Tenancy.MkPrincipal (Tenancy.k_ID k) (Tenancy.k_TenantID k) (Tenancy.k_Scopes k)) "api" = true ->
    acts_for deps a r w (Tenancy.k_TenantID k)
| by_token s claims :
    w_identity w = Some s ->
    (Identity.Verify (Identity.bearerToken (credentials r)) (a_outside a) s).1 = inl claims ->
    acts_for deps a r w (Identity.TenantClaim claims)
| by_delivery g provider ev :
    dd_Webhooks deps = Some g ->
    Webhooks.authorized g provider (r_Body r)
      (let sig := header r Webhooks.SignatureHeader in
       if is_empty sig then ∅ else {[Webhooks.SignatureHeader := sig]}) = true ->
    decode_event (r_Body r) = Some ev ->
    acts_for deps a r w (Comms.ev_TenantID ev).

(** The API-key chain lets through the owner of a live key. *)
Lemma AuthMiddleware_served o now cr rl ctx rl' :
  Tenancy.AuthMiddleware map_order "api" o None now cr rl = (Tenancy.Served ctx, rl') ->
  exists k, k ∈ Tenancy.api_keys o /\ Tenancy.live_key (Tenancy.HashKey (Tenancy.bearerOrHeader cr)) now k = true
    /\ Tenancy.ctx_Principal ctx = Some (Tenancy.MkPrincipal (Tenancy.k_ID k) (Tenancy.k_TenantID k) (Tenancy.k_Scopes k))
    /\ Tenancy.HasScope (Tenancy.MkPrincipal (Tenancy.k_ID k) (Tenancy.k_TenantID k) (Tenancy.k_Scopes k)) "api" = true.
Proof.
  unfold Tenancy.AuthMiddleware, Tenancy.Authenticate. destruct (is_empty _); [done|].
  destruct (List.find _ _) as [k|] eqn:Hf; [|done]. apply find_some in Hf as [Hin Hlive].
  destruct (Tenancy.HasScope _ "api") eqn:Hs; [|done]. cbn [negb].
  destruct (RateLimit.Allow _ _ _ _) as [[ok ?] ?]. destruct ok; [|done]. intros [= <- _].
  exists k. split; [by apply list_elem_of_In|done].
Qed.

Lemma AuthMiddleware_error o err now cr rl ctx rl' :
  Tenancy.AuthMiddleware map_order "api" o (Some err) now cr rl <> (Tenancy.Served ctx, rl').
Proof. unfold Tenancy.AuthMiddleware, Tenancy.Authenticate. by destruct (is_empty _). Qed.

Lemma authenticate_acts deps a r (w : World) ctx w' :
  authenticate a r w = (Tenancy.Served ctx, w') ->
  exists p, Tenancy.ctx_Principal ctx = Some p /\ acts_for deps a r w (Tenancy.p_TenantID p).
Proof.
  unfold authenticate. set (o := a_outside a).
  assert (forall rl rl', Tenancy.AuthMiddleware map_order "api" (Identity.auth_db o) (Identity.auth_db_error o)
      (Identity.now_limit o) (credentials r) rl = (Tenancy.Served ctx, rl') ->
    exists p, Tenancy.ctx_Principal ctx = Some p /\ acts_for deps a r w (Tenancy.p_TenantID p)) as Hkey.
  { intros rl rl' H. destruct (Identity.auth_db_error o); [by apply AuthMiddleware_error in H|].
    apply AuthMiddleware_served in H as (k & Hin & Hlive & Hp & Hs). eexists. split; [exact Hp|].
    by apply (by_key deps a r w k). }
  destruct (w_identity w) as [s|] eqn:Hid.
  2: { destruct (Tenancy.AuthMiddleware _ _ _ _ _ _ _) as [resp rl] eqn:E. intros [= -> _]. by eapply Hkey. }
  unfold Identity.DualAuth. destruct (_ || _).
  { destruct (Tenancy.AuthMiddleware _ _ _ _ _ _ _) as [resp rl] eqn:E. intros [= -> _]. by eapply Hkey. }
  destruct (Identity.Verify _ o s) as [[claims|x] s1] eqn:Ev; [|done].
  unfold Identity.principal_of. destruct (Identity.capabilitiesFor _ _ _) as [[b|x] s2]; [|done].
  destruct (RateLimit.Allow _ _ _ _) as [[ok ?] ?]. destruct ok; [|done]. intros [= <- _]. simpl.
  eexists. split; [reflexivity|]. simpl. eapply by_token; [exact Hid|]. fold o. by rewrite Ev.
Qed.

Lemma guarded_same g r ctx ctx' : guarded g r ctx = Tenancy.Served ctx' -> ctx' = ctx.
Proof.
  destruct g; simpl; [by intros [= <-]| |];
    unfold Identity.RequireMethodCapability, Identity.RequireCapability; intros H;
    repeat case_match; congruence.
Qed.

Lemma authenticate_db a r (w : World) : db_of (authenticate a r w).2 = db_of w.
Proof.
  unfold authenticate. destruct (w_identity w) as [s|].
  - by destruct (Identity.DualAuth _ _ _ _ _ _) as [[resp s'] rl].
  - by destruct (Tenancy.AuthMiddleware _ _ _ _ _ _ _).
Qed.

(** What a request may do to the tables. *)
Definition isolated (deps : DomainDeps) (a : Answers) (r : Request) (w w' : World) : Prop :=
  (forall t, kept t (db_of w) (db_of w'))
  \/ exists t, acts_for deps a r w t /\ kept t (db_of w) (db_of w').

Lemma isolated_same deps a r w w' : db_of w' = db_of w -> isolated deps a r w w'.
Proof. intros E. left. intros t. by rewrite E. Qed.

Lemma through_isolated deps g k a r e (w : World) :
  (forall c, tame c (k c)) -> isolated deps a r w (through (Authenticated g) k a r e w).2.
Proof.
  intros Hk. unfold through. destruct (authenticate a r w) as [resp w1] eqn:Ea.
  assert (db_of w1 = db_of w) as Hw1 by (rewrite <- (authenticate_db a r w); by rewrite Ea).
  destruct resp as [c|err retry]; [|by apply isolated_same].
  destruct (guarded g r c) as [c'|err retry] eqn:Eg; [|by apply isolated_same].
  apply guarded_same in Eg as ->. apply (authenticate_acts deps) in Ea as (p & Hp & Hacts).
  right. exists (Tenancy.p_TenantID p). split; [done|]. rewrite <- Hw1.
  apply Hk. intros q Hq. congruence.
Qed.

(** *** Deliveries *)

Lemma keeps_process ev : keeps (Comms.ev_TenantID ev) (Comms.Process (C := Comms.interaction_core source) (Some ev)).
Proof.
  intros e s. unfold Comms.Process.
  destruct (_ || _); [by apply wp_throw|]. apply wp_bind. unfold wp at 1, Comms.parse_uuid at 1.
  destruct (negb _); [by apply wp_throw|]. destruct (Comms.event_status _) as [to|]; [|by apply wp_throw].
  apply wp_bind. eapply wp_mono; [apply reads_interaction_get|]. simpl. intros [cur|x] s' Hs; [|by rewrite Hs].
  destruct (String.eqb _ _); [apply wp_ret; by rewrite Hs|].
  apply wp_bind. eapply wp_mono; [apply keeps_transition|]. simpl. rewrite Hs.
  intros [rec|x] s2 H2; [by apply wp_ret|done].
Qed.

Lemma kept_ingest_row t id provider eid body now d d' k :
  Webhooks.ins_provider_event id provider eid body now d = Some (d', k) -> kept t d d'.
Proof. unfold Webhooks.ins_provider_event. repeat case_match; intros; simplify_eq; [reflexivity|apply kept_ledger]. Qed.

(** Ingestion writes to the ledger only, and fails for what it cannot
    authenticate. *)
Lemma wp_Ingest_kept g jv provider body sig e s (Q : result Webhooks.IngestResult -> st -> Prop) :
  (forall x s', (forall t, kept t (committed s) (committed s')) -> Q (Err x) s') ->
  (forall res s', (forall t, kept t (committed s) (committed s')) ->
     Webhooks.authorized g provider body (if is_empty sig then ∅ else {[Webhooks.SignatureHeader := sig]}) = true ->
     Q (Ok res) s') ->
  wp (Webhooks.Ingest g jv provider body sig) e s Q.
Proof.
  intros H1 H2. unfold Webhooks.Ingest, Webhooks.IngestHeaders.
  destruct (_ || _); [by apply wp_throw, H1|]. destruct (is_empty body); [by apply wp_throw, H1|].
  destruct (_ <? _); [by apply wp_throw, H1|].
  destruct (Webhooks.authorized _ _ _ _) eqn:Ha; cbn [negb]; [|by apply wp_throw, H1].
  unfold Webhooks.persistEvent. wp_go; try (by apply H1 || by apply H2); simpl.
  all: first [apply H1|apply H2; [|done]]; simpl; intros t; by eapply kept_ingest_row.
Qed.

Lemma webhook_isolated deps a r ps c e (w : World) :
  isolated deps a r w (webhookHandler (dd_Webhooks deps) (dd_CommsProcessor deps) a r ps c e w).2.
Proof.
  unfold webhookHandler. destruct (dd_Webhooks deps) as [g|] eqn:Hg; [|by apply isolated_same].
  destruct (RateLimit.Allow _ _ _ _) as [[ok retry] rl]. destruct ok; cbn [negb].
  2: { destruct (retryAfterSeconds retry); by apply isolated_same. }
  destruct (_ || _); [by apply isolated_same|].
  destruct w as [sv lim wl tg [p s]]. cbn [w_plane set_webhooks].
  set (m := Webhooks.Ingest _ _ _ _ _).
  assert (wpw (lift m) e (p, s) (fun res pw =>
    (forall t, kept t (committed s) (committed pw.2)) /\ forall v, res = inl v ->
      Webhooks.authorized g (ps "provider") (r_Body r)
        (let sig := header r Webhooks.SignatureHeader in
         if is_empty sig then ∅ else {[Webhooks.SignatureHeader := sig]}) = true)) as Hm.
  { apply wpw_lift. unfold m. apply wp_Ingest_kept; [by intros x s' H|]. intros res s' H Ha. simpl. auto. }
  unfold wpw in Hm. destruct (lift m e (p, s)) as [res pw]. destruct Hm as [Hk Ha].
  destruct res as [res|x]; [|by left]. specialize (Ha _ eq_refl).
  destruct (dd_CommsProcessor deps); cbn [negb]; [|by left].
  destruct (decode_event (r_Body r)) as [ev|] eqn:Hev; [|by left].
  set (pr := Comms.Process _).
  assert (wpw (lift pr) e pw (fun _ pw' => kept (Comms.ev_TenantID ev) (committed pw.2) (committed pw'.2))) as Hp.
  { apply (keepsw_lift (Comms.ev_TenantID ev) pr (keeps_process ev)). }
  unfold wpw in Hp. cbn [w_plane set_plane]. destruct (lift pr e pw) as [res' pw'].
  right. exists (Comms.ev_TenantID ev). split; [by eapply by_delivery|]. etransitivity; [apply Hk|exact Hp].
Qed.
End access.

Section server.
Context {P : Type} `{QC : QuietCarriers P}.
Context `{JP : JsonPorts} `{SP : ServerPorts} `{UN : Text.Unicode} `{PR : Routing.PresenceReader}.
Context `{PRR : !RoutingProps.PresenceReads} `{JO : Identity.JOSE} `{SE : Search.SearchPorts}.

Notation World := (World P).
Notation Route := (Route (P := P)).

(** The tree, table by table. *)
Lemma Forall_tree (Q : Route -> Prop) deps oidc :
  let interactions := ByMethod Identity.CapInteractionRead Identity.CapInteractionWrite in
  Q (MkRoute "GET" "/healthz" Public handleLiveness) -> Q (MkRoute "GET" "/readyz" Public handleReadiness) ->
  Q (MkRoute "POST" "/api/v1/webhooks/{provider}" Public
       (webhookHandler (dd_Webhooks deps) (dd_CommsProcessor deps))) ->
  Q (MkRoute "GET" "/api/v1/identity/authorize-url" Public AuthorizeURLHandler) ->
  Q (MkRoute "GET" "/api/v1/identity/callback" Public CallbackHandler) ->
  Q (authed Open "GET" "/" index) -> Forall Q (MountCustomers Open) ->
  Forall Q (MountConversations interactions) -> Forall Q (MountInteractions interactions) ->
  Forall Q (MountAgents Open) -> Forall Q (MountQueues Open) ->
  Forall Q (MountCases (ByMethod Identity.CapCaseRead Identity.CapCaseWrite)) ->
  Forall Q (MountCalls Open (dd_Calls deps)) -> Forall Q (MountMessages Open (dd_Messages deps)) ->
  Forall Q (MountRouting Open (dd_Routing deps)) -> Forall Q (MountAI Open (dd_AI deps)) ->
  Forall Q (MountWorkflows (Needs Identity.CapWorkflowRun) (dd_Workflows deps)) ->
  Forall Q (MountAnalytics Open (dd_Analytics deps)) ->
  (forall svc, Forall Q (MountSearchRoutes Open svc)) -> Forall Q (tree deps oidc).
Proof.
  intros. unfold tree, MountV1.
  repeat first [assumption|apply Forall_app_2|apply Forall_cons_2|apply Forall_nil_2
               |destruct oidc|destruct (dd_Search deps); [auto|]].
Qed.

(** A public route's handler on its own. *)
Definition public_route (deps : DomainDeps) (rt : Route) : Prop :=
  rt_Gate rt = Public /\ forall a r p c e w, isolated deps a r w (rt_Handler rt a r p c e w).2.

Lemma tree_routes deps oidc : (forall g, dd_AI deps = Some g -> tidy_sink g) ->
  Forall (fun rt => tame_route rt \/ public_route deps rt) (tree deps oidc).
Proof.
  intros Hg.
  assert (forall l : list Route, Forall tame_route l ->
    Forall (fun rt => tame_route rt \/ public_route deps rt) l) as Ht.
  { intros l Hl. eapply Forall_impl; [exact Hl|]. by left. }
  apply Forall_tree; try (intros; apply Ht).
  - right. split; [done|]. intros. by apply isolated_same.
  - right. split; [done|]. intros. by apply isolated_same.
  - right. split; [done|]. intros. apply webhook_isolated.
  - right. split; [done|]. intros. apply isolated_same. simpl. unfold AuthorizeURLHandler.
    destruct (w_identity w) as [s|]; [|done]. destruct (negb _); [done|].
    destruct (Identity.ensure _ _) as [[x|] s']; [done|]. by destruct (a_nonce a).
  - right. split; [done|]. intros. apply isolated_same. simpl. unfold CallbackHandler.
    destruct (w_identity w) as [s|]; [|done]. by destruct (Identity.Callback _ _ _ _ _ _).
  - left. split; [done|]. intros. apply tame_respond.
  - apply tame_customers.
  - apply tame_conversations.
  - apply tame_interactions.
  - apply tame_agents.
  - apply tame_queues.
  - apply tame_cases.
  - apply tame_calls.
  - apply tame_messages.
  - apply tame_routing.
  - by apply tame_ai.
  - apply tame_workflows.
  - apply tame_analytics.
  - apply tame_search_route.
Qed.

(** ** What the gates let through *)

(** The capability docs/rbac.md has for a route, by its resource. *)
Definition required (rt : Route) : option string :=
  let under p := has_prefix (rt_Pattern rt) ("/api/v1/" +:+ p +:+ "/") in
  let read := String.eqb (rt_Method rt) "GET" in
  if under "conversations" || under "interactions" then
    Some (if read then Identity.CapInteractionRead else Identity.CapInteractionWrite)
  else if under "cases" then Some (if read then Identity.CapCaseRead else Identity.CapCaseWrite)
  else if under "workflows" then Some Identity.CapWorkflowRun
  else None.

(** A route's gate asks callers with tokens for that capability and no other. *)
Definition gate_map (rt : Route) : Prop :=
  match rt_Gate rt with
  | Public => rt_Pattern rt ∈ ["/healthz"; "/readyz"; "/api/v1/webhooks/{provider}";
                               "/api/v1/identity/authorize-url"; "/api/v1/identity/callback"]
  | Authenticated g => forall r c p,
      r_Method r = rt_Method rt -> Tenancy.ctx_Principal c = Some p -> Identity.is_oidc c = true ->
      (guarded g r c = Tenancy.Served c <->
       match required rt with Some cap => Tenancy.HasCapability p cap = true | None => True end)
  end.

Lemma gate_open rt : rt_Gate rt = Authenticated Open -> required rt = None -> gate_map rt.
Proof. unfold gate_map. by intros -> ->. Qed.

Lemma RequireCapability_oidc cap c p : Tenancy.ctx_Principal c = Some p -> Identity.is_oidc c = true ->
  Identity.RequireCapability cap c = Tenancy.Served c <-> Tenancy.HasCapability p cap = true.
Proof.
  intros Hp Ho. unfold Identity.RequireCapability. rewrite Hp, Ho. by destruct (Tenancy.HasCapability p cap).
Qed.

Lemma gate_needs rt cap : rt_Gate rt = Authenticated (Needs cap) -> required rt = Some cap -> gate_map rt.
Proof. unfold gate_map. intros -> -> r c p _. apply RequireCapability_oidc. Qed.

Lemma gate_by_method rt rd wr : rt_Gate rt = Authenticated (ByMethod rd wr) -> rt_Method rt ∈ ["GET"; "POST"] ->
  required rt = Some (if String.eqb (rt_Method rt) "GET" then rd else wr) -> gate_map rt.
Proof.
  unfold gate_map. intros -> Hm -> r c p Hr Hp Ho. cbn [guarded]. unfold Identity.RequireMethodCapability.
  cbn [credentials Tenancy.Method]. rewrite Hr.
  apply elem_of_cons in Hm as [->| ->%list_elem_of_singleton]; by apply RequireCapability_oidc.
Qed.

Ltac gates :=
  repeat apply Forall_cons_2; try apply Forall_nil_2;
  first [by apply gate_open|by eapply gate_needs
        |eapply gate_by_method; [reflexivity|simpl; set_solver|reflexivity]].

Lemma tree_gates deps oidc : Forall gate_map (tree deps oidc).
Proof.
  apply Forall_tree.
  1-5: unfold gate_map; simpl; set_solver.
  - by apply gate_open.
  - unfold MountCustomers. gates.
  - unfold MountConversations. gates.
  - unfold MountInteractions. gates.
  - unfold MountAgents. gates.
  - unfold MountQueues. gates.
  - unfold MountCases. gates.
  - unfold MountCalls. destruct (negb _); gates.
  - unfold MountMessages. destruct (negb _); gates.
  - unfold MountRouting. destruct (negb _); gates.
  - unfold MountAI. destruct (dd_AI deps); gates.
  - unfold MountWorkflows. destruct (negb _); gates.
  - unfold MountAnalytics. destruct (negb _); gates.
  - intros svc. unfold MountSearchRoutes. gates.
Qed.
End server.

(** ** The simulator is a quiet carrier *)

(** cmd/api's AI provider, next to any carrier. *)
Definition rules_beside (P : Type) : Ai.AIProvider P :=
  {| Ai.ai_Invoke := fun inv _ w => (inl (Ai.rules_Invoke inv), w) |}.

Section simulator.
Context `{Text.Unicode} `{Comms.EventJSON} (g : Webhooks.Gateway) (jv : string -> bool) (signer : string -> string).

Lemma sim_emit_kept ev e w t : kept t (committed w.2) (committed (Simulator.sim_emit g jv signer ev e w).2).
Proof.
  assert (forall body sig w, kept t (committed w.2) (committed (Simulator.ingest g jv body sig e w).2.2)) as Hi.
  { intros body sig [p s]. unfold Simulator.ingest. simpl.
    assert (wp (Webhooks.Ingest g jv "simulator" body sig) e s (fun _ s' => kept t (committed s) (committed s'))) as Hw
      by (apply wp_Ingest_kept; auto).
    unfold wp in Hw. by destruct (Webhooks.Ingest _ _ _ _ _ e s) as [[v|x] s']. }
  unfold Simulator.sim_emit. destruct (Comms.EncodeEvent ev e w.2) as [enc s] eqn:E.
  assert (committed s = committed w.2) as Hs
    by (unfold Comms.EncodeEvent in E; destruct (is_empty _); by injection E as _ <-).
  rewrite <- Hs. destruct enc as [body|err]; [|done]. set (w0 := (w.1, s)). change s with w0.2.
  pose proof (Hi body (signer body) w0) as H1. destruct (Simulator.ingest _ _ _ _ e w0) as [[x|] w1]; [|done].
  etransitivity; [exact H1|apply Hi].
Qed.

Lemma emit_kept ev e m s t : kept t (committed s) (committed (Simulator.sim_emit g jv signer ev e (m, s)).2).
Proof. apply (sim_emit_kept ev e (m, s)). Qed.

#[export] Instance simulator_quiet : @QuietCarriers Simulator.legs
  (Simulator.simulator_voice g jv signer) (Simulator.simulator_messaging g jv signer)
  (rules_beside Simulator.legs).
Proof.
  split; [intros c|intros r|intros r d|intros r|intros r|intros m|done]; intros t e w; simpl.
  - unfold Simulator.sim_PlaceCall. destruct (is_empty _); [done|].
    etransitivity; [|apply sim_emit_kept]. apply emit_kept.
  - unfold Simulator.sim_Hangup. destruct (w.1 !! r); [apply sim_emit_kept|done].
  - unfold Simulator.sim_Transfer. destruct (w.1 !! r); [apply emit_kept|done].
  - unfold Simulator.sim_Hold, Simulator.set_held. by destruct (w.1 !! r).
  - unfold Simulator.sim_Resume, Simulator.set_held. by destruct (w.1 !! r).
  - unfold Simulator.sim_Send. destruct (is_empty _); [done|].
    etransitivity; [|apply sim_emit_kept]. apply emit_kept.
Qed.
End simulator.

(** ** Bodies, cursors and numbers *)

(** The hand-written formatter of v1.go is [%d] below its twelve digits. *)
Lemma itoa_decimal n : 0 <= n < 10 ^ 12 -> itoa n = Some (GoStd.itoa n).
Proof. apply Conversations.fmtInt_decimal. Qed.

(** No body names a tenant: a [tenant_id] is an unknown field everywhere, and
    the tenant a tool call may carry is replaced. *)
Lemma tenant_field_refused known v m : v = VMap m -> "tenant_id" ∈ map fst m ->
  known_field known "tenant_id" = None -> strict_fields known v = None.
Proof.
  intros -> Hin Hk. unfold strict_fields. apply eq_None_not_Some. intros [d Hd].
  apply mapM_Some in Hd. apply list_elem_of_fmap in Hin as ([k x] & Hk' & Hin). cbn in Hk'. subst k.
  apply list_elem_of_lookup in Hin as [i Hi]. eapply Forall2_lookup_l in Hd as (y & _ & Hy); [|exact Hi].
  cbn [fst] in Hy. by rewrite Hk in Hy.
Qed.

(** A malformed cursor is served the first page; a limit beyond 64 bits wraps. *)
Lemma malformed_cursor_restarts r : query r "cursor" = "%%%" -> pageFrom r = MkPage 0 DefaultLimit.
Proof. intros H. unfold pageFrom. by rewrite H. Qed.

Lemma limit_wraps : atoi "18446744073709551626" = 10 /\ atoi "10x" = 0.
Proof. split; vm_compute; reflexivity. Qed.

(** POST /ai/agents/{id}/invoke runs the agent the body names, whatever the
    path says. *)
Lemma invoke_ignores_path {P} `{Ai.AIProvider P} `{JsonPorts} g a r p p' c :
  h_aiInvoke (P := P) g a r p c = h_aiInvoke g a r p' c.
Proof. done. Qed.

Section deliveries.
Context {P : Type} `{JsonPorts} `{ServerPorts}.

(** A delivery the processor cannot decode is never processed: the database
    changes by the ledger only, and the sender is told it was processed. *)
Lemma undecodable_delivery_processed `{Text.Unicode} g proc a r p c e (w : World P) status id dup acc pr next w' :
  decode_event (r_Body r) = None ->
  webhookHandler (Some g) proc a r p c e w = (Data status (PWebhook id dup acc pr) next, w') ->
  pr = true /\ forall t, kept t (db_of w) (db_of w').
Proof.
  intros Hd. unfold webhookHandler. destruct (RateLimit.Allow _ _ _ _) as [[ok retry] rl]. destruct ok; cbn [negb].
  2: { by destruct (retryAfterSeconds retry). }
  destruct (_ || _); [done|]. destruct w as [sv lim wl tg [q s]]. cbn [w_plane set_webhooks].
  assert (wpw (lift (Webhooks.Ingest g jsonb_valid (p "provider") (r_Body r) (header r Webhooks.SignatureHeader))) e (q, s)
    (fun _ pw => forall t, kept t (committed s) (committed pw.2))) as Hm.
  { apply wpw_lift. apply wp_Ingest_kept; auto. }
  unfold wpw in Hm. destruct (lift _ e (q, s)) as [res pw]. destruct res as [res|x]; [|done].
  rewrite Hd. destruct proc; cbn [negb]; by intros [= _ _ _ _ <- _ <-].
Qed.
End deliveries.

(** ** Examples *)

Definition demo_secret := "s3cret".

(** A reader of the two texts of the examples. *)
#[local] Instance demo_json : JsonPorts := {
  json_next _ s :=
    if String.eqb s "<call>" then inl (VMap [("customer_id", VStr "c1"); ("to", VStr "+254700")])
    else if String.eqb s "<interaction>" then
      inl (VMap [("customer_id", VStr "c1"); ("channel", VStr "voice"); ("direction", VStr "inbound")])
    else inr StopSyntax;
  json_text _ := None;
  time_Parse _ := None;
}.

#[local] Instance demo_server : ServerPorts := {
  map_order := map_to_list;
  jsonb_valid _ := true;
  json_routing _ := "{}";
  json_candidates _ := "[]";
  json_customer _ := VNull;
  json_case _ := VNull;
  json_interaction _ := VNull;
  AuthCodeURL _ _ _ _ := "";
  buildinfo := "dev (commit=none, built=unknown)";
}.

(** A library that accepts every token of a known key as bob of [t1]. *)
#[local] Instance demo_jose : Identity.JOSE := {
  Identity.json_header _ := Some ("RS256", "k1");
  Identity.jwt_decode _ := None;
  Identity.jwt_verify _ _ _ _ := inl (Identity.MkClaims "bob" "https://idp.example" None "t1" "" []);
  Identity.uuid_parses _ := true;
}.

#[local] Instance demo_unicode : Text.Unicode := { Text.unicode_ToLower := to_lower }.
#[local] Instance demo_search : Search.SearchPorts := Search.Build_SearchPorts (fun _ => None)
  (fun _ => inr (OtherErr "unexpected end of JSON input" None)).
#[local] Instance demo_presence : Routing.PresenceReader := RoutingProps.cached_reader 2 ∅.
#[local] Instance demo_events : Comms.EventJSON :=
  {| Comms.json_event ev := inl (Comms.ev_Event ev); Comms.rfc3339nano := GoStd.itoa |}.
#[local] Instance demo_voice : VoiceProvider Simulator.legs :=
  Simulator.simulator_voice (Webhooks.NewGateway demo_secret) (fun _ => true)
    (Webhooks.ComputeSignature demo_secret).
#[local] Instance demo_messaging : MessagingProvider Simulator.legs :=
  Simulator.simulator_messaging (Webhooks.NewGateway demo_secret) (fun _ => true)
    (Webhooks.ComputeSignature demo_secret).
#[local] Instance demo_ai : Ai.AIProvider Simulator.legs := rules_beside Simulator.legs.

#[local] Instance demo_quiet : @QuietCarriers Simulator.legs demo_voice demo_messaging demo_ai :=
  simulator_quiet _ _ _.
#[local] Instance demo_reads : @RoutingProps.PresenceReads demo_presence := RoutingProps.cached_reader_reads _ _.

Definition demo_deps : DomainDeps :=
  MkDomainDeps (Some (Webhooks.NewGateway demo_secret)) true true true true
    (Some (Ai.NewGateway 0 0 (Some (Ai.api_sink source)))) true true (Some (Search.NewService (Search.MkConfig "" "" 0))).

(** A router for paths without parameters. *)
Definition exact (rs : list (Route (P := Simulator.legs))) (method path : string) : Match :=
  match List.find (fun rt => String.eqb (rt_Method rt) method && String.eqb (rt_Pattern rt) path) rs with
  | Some rt => Hit rt (fun _ => "")
  | None => Miss None
  end.

Definition demo_key : Tenancy.ApiKey :=
  Tenancy.MkApiKey "k1" "t1" (Tenancy.HashKey "orv_live_1") ["api"] "active" None.

Definition demo_answers : Answers :=
  MkAnswers (Identity.MkOutside (inl (Identity.MkDiscoveryDoc "https://idp.example" "a" "t" "j"))
               (inl IdentityProps.demo_doc) (Tenancy.MkAuthDB [demo_key] [] []) None 0 (Identity.MkClock3 0 0 0) 0)
    0 ∅ (Analytics.MkFacts ∅ ∅) Analytics.all_rows (0, 0)
    (fun _ => Search.NoReply (OtherErr "connection refused" None)) (inr (OtherErr "no code" None)) (inl "") true "req-1".

Definition demo_request (path body : string) (credential : string * string) : Request :=
  MkRequest "POST" path "" {[credential.1 := credential.2]} "10.0.0.9:4711" (Z.of_nat (String.length body)) body
    false "api.example" true.

Definition demo_world (identity : option Identity.Service) : World Simulator.legs :=
  New true None identity (fun _ => "") Tools.NewGateway (∅, MkSt InteractionsProps.db_start None 0).

Definition key_call : Request := demo_request "/api/v1/calls/" "<call>" ("X-API-Key", "orv_live_1").

Definition served_call : Reply * World Simulator.legs :=
  ServeHTTP exact demo_deps demo_answers key_call env0 (demo_world None).

Definition status_of (r : Reply) : option (Z * string) :=
  match r with
  | Data s _ _ => Some (s, "")
  | Problem s c _ _ _ => Some (s, c)
  | _ => None
  end.

Lemma exact_route rs m p rt ps : exact rs m p = Hit rt ps -> rt ∈ rs.
Proof.
  unfold exact. destruct (List.find _ rs) as [rt'|] eqn:Hf; [|done]. intros [= <- _].
  apply find_some in Hf as [Hin _]. by apply list_elem_of_In.
Qed.

Lemma db_start_sound : sound InteractionsProps.db_start.
Proof. split; intros i x H; simpl in H; by rewrite lookup_empty in H. Qed.

(** A token of a tenant's user without any role binding: the gate of the
    interactions refuses it, but placing a call, which creates an interaction
    and dials, is served. *)
Lemma unbound_caller_places_call :
  let run path body :=
    ServeHTTP exact demo_deps demo_answers (demo_request path body ("Authorization", "Bearer e30.e30.sig")) env0
      (demo_world (Some (Identity.NewService IdentityProps.demo_cfg))) in
  status_of (run "/api/v1/interactions/" "<interaction>").1 = Some (403, "identity.capability_missing")
  /\ status_of (run "/api/v1/calls/" "<call>").1 = Some (201, "")
  /\ map r_TenantID (map snd (map_to_list (d_interactions (db_of (run "/api/v1/calls/" "<call>").2)))) = ["t1"].
Proof. vm_compute. auto. Qed.

(** The routes that write without asking for a capability, in a full deployment. *)
Lemma open_writes :
  map (fun rt => (rt_Method rt, rt_Pattern rt))
    (List.filter (fun rt => match rt_Gate rt with
                            | Authenticated Open => negb (String.eqb (rt_Method rt) "GET")
                            | _ => false
                            end) (tree (P := Simulator.legs) demo_deps true))
  = [("POST", "/api/v1/customers/"); ("POST", "/api/v1/customers/resolve"); ("POST", "/api/v1/agents/");
     ("POST", "/api/v1/queues/"); ("POST", "/api/v1/calls/"); ("POST", "/api/v1/calls/{id}/actions");
     ("POST", "/api/v1/messages/"); ("POST", "/api/v1/routing/interactions/{id}");
     ("PUT", "/api/v1/agents/{id}/presence"); ("POST", "/api/v1/ai/agents/{id}/invoke");
     ("POST", "/api/v1/ai/agents/{id}/tools")].
Proof. reflexivity. Qed.

(** ** Properties *)

(** C1. One HTTP request, whatever its route, body, credentials, clock readings
    and failures of database calls, through the whole chain and every service,
    with carriers that only deliver to the ledger: it changes no tenant's rows,
    or only rows of one tenant it acts for, being the owner of the live API key
    it carries, the tenant its verified token claims, or the tenant named by the
    event of a delivery whose signature the gateway accepts. Agents' presence
    rows stay in their agents' tenants. *)
Theorem requests_isolated {P} `{QuietCarriers P} `{JsonPorts} `{ServerPorts} `{Text.Unicode}
    `{RoutingProps.PresenceReads} `{Identity.JOSE} `{Search.SearchPorts} chi deps a r e (w : World P)
    (Hchi : forall rs m p rt ps, chi rs m p = Hit rt ps -> rt ∈ rs)
    (Hsink : forall g, dd_AI deps = Some g -> tidy_sink g)
    (Hsound : sound (db_of w)) :
  let d' := db_of (ServeHTTP chi deps a r e w).2 in
  sound d'
  /\ ((forall t, elsewhere t (db_of w) d')
      \/ exists t, acts_for deps a r w t /\ elsewhere t (db_of w) d').
Proof.
  assert (isolated deps a r w (ServeHTTP chi deps a r e w).2) as Hi.
  { unfold ServeHTTP. set (oidc := match w_identity w with Some _ => true | None => false end).
    destruct (chi _ _ _) as [rt ps|[g|]] eqn:Hc; [|destruct g as [|g]|by apply isolated_same].
    - apply Hchi in Hc. pose proof (proj1 (Forall_forall _ _) (tree_routes deps oidc Hsink) rt Hc) as [[Hg Hk]|[Hg Hk]].
      + destruct (rt_Gate rt) as [|g]; [done|].
        pose proof (through_isolated deps g (rt_Handler rt a r ps) a r e w (fun c => Hk a r ps c)) as Ht.
        by destruct (through _ _ _ _ _ _).
      + rewrite Hg. specialize (Hk a r ps (Tenancy.MkContext None None) e w). unfold through.
        by destruct (rt_Handler rt a r ps _ e w).
    - by apply isolated_same.
    - pose proof (through_isolated deps g (fun _ => respond NoRoute) a r e w (fun c => tame_respond c _)) as Ht.
      by destruct (through _ _ _ _ _ _). }
  destruct Hi as [Hk|(t & Ha & Hk)]; cbv zeta.
  - split; [by apply (Hk "")|]. left. intros t. by apply Hk.
  - destruct (Hk Hsound). split; [done|]. right. by exists t.
Qed.

Lemma requests_isolated_witness :
  status_of served_call.1 = Some (201, "")
  /\ size (d_interactions (db_of served_call.2)) = 1%nat
  /\ length (d_provider_events (db_of served_call.2)) = 2%nat
  /\ sound (db_of served_call.2).
Proof.
  split; [vm_compute; reflexivity|]. split; [vm_compute; reflexivity|]. split; [vm_compute; reflexivity|].
  refine (proj1 (requests_isolated exact demo_deps demo_answers key_call env0 (demo_world None) exact_route _
    db_start_sound)).
  unfold demo_deps. cbn [dd_AI]. intros g Hg. apply (inj Some) in Hg. subst g. apply api_sink_tidy.
Defined.

(** C2. What a caller with a token needs, route by route: the handlers under
    conversations and interactions are reached exactly with interaction.read
    (GET) or interaction.write, those under cases with case.read or case.write,
    those under workflows with workflow.run, and every other authenticated
    handler without any capability; search.read is asked for nowhere. Public
    are the health endpoints, the webhooks and the login. *)
Theorem capability_map {P} `{QuietCarriers P} `{JsonPorts} `{ServerPorts} `{Text.Unicode}
    `{RoutingProps.PresenceReads} `{Identity.JOSE} `{Search.SearchPorts} deps oidc (rt : Route (P := P))
    (Hrt : rt ∈ tree deps oidc) :
  gate_map rt /\ required rt <> Some Identity.CapSearchRead.
Proof.
  split; [exact (proj1 (Forall_forall _ _) (tree_gates deps oidc) rt Hrt)|].
  unfold required. by repeat case_match.
Qed.

Lemma capability_map_witness :
  let rt := authed (P := Simulator.legs) Open "GET" "/search/conversations" (h_searchConversations (dd_Search demo_deps)) in
  rt ∈ tree (P := Simulator.legs) demo_deps true /\ required rt = None /\ gate_map rt.
Proof.
  intros rt. assert (rt ∈ tree (P := Simulator.legs) demo_deps true) as Hin.
  { apply list_elem_of_In. cbv [tree MountV1]. repeat (first [left; reflexivity|right|apply in_or_app; right]). }
  split; [exact Hin|]. split; [reflexivity|]. exact (proj1 (capability_map demo_deps true rt Hin)).
Defined.
